(* ===== verification/_CoqProject ===== *)
-Q . S2P
Prelude.v
Errors.v
Paging.v
Path.v
Values.v
FieldTypes.v
FieldDefinitions.v
Json.v
Transactions.v
Links.v
LinkRepository.v
LinkGraph.v
LinkInvariant.v
LinkLock.v
LinkBehaviour.v
TableJoin.v
ExpressionCompiler.v
CompilerFacts.v
CompilerSafety.v
Criteria.v
Search.v
SearchFacts.v
Tables.v
Trees.v
Iterations.v
IterationFacts.v
Spaces.v
Areas.v
Labels.v
Queries.v
Codebases.v
Accounts.v
UsersController.v
Comments.v
RepositoryFacts.v
WorkItemTypes.v
TypeFacts.v
WorkItems.v
WorkItemFacts.v
WorkItemInvariant.v
WorkItemOrder.v
WorkItemChange.v
WorkItemExamples.v
Actions.v
Boards.v
Importer.v
ImporterFacts.v
Migration.v
RemoteItems.v
Events.v
WorkItemLists.v
IterationCounts.v
IterationController.v
IterationRequests.v
IterationStates.v
IterationMoves.v
IterationExamples.v
WorkItemConversion.v
WorkItemController.v
WorkItemRequests.v
WorkItemPayloads.v
SpaceController.v
LinkController.v
WorkItemListFacts.v
CommentController.v
QueryController.v
AreaController.v
SpaceRequests.v
LabelController.v
CsvExport.v
CsvFacts.v
CsvWindows.v
RequestExamples.v
Trackers.v
RemoteImport.v
TrackerRequests.v
Cluster.v
KubeAccess.v
KubeClient.v
Deployments.v
