(* ===== verification/Prelude.v ===== *)
(** * Verification of the almighty-core (fabric8-wit) planner service

    almighty-core is an HTTP service in Go that keeps the planning data of
    teams: spaces with their areas, iterations, labels and saved queries, the
    work items in them with types, revisions, links and comments, and a search
    over the items.  Its handlers ([controller/]) run in transactions
    ([application/]) on repositories ([workitem/], [workitem/link/],
    [iteration/], [area/], [space/], [label/], [query/], [comment/]) over a
    PostgreSQL database reached through gorm.

    ** How the program is modelled

    Code is translated definition by definition under the names of the source.
    A function that may fail returns [res A]: a value, an [error] or a panic
    with its message.  A repository is a record of tables, lists of rows in the
    order they were stored, and an operation is a state-passing function on it
    ([stm] and its [let*] notation below); deleted rows stay in their table
    with a deletion time, as gorm leaves them.  A query is its result on the
    tables.  Machine integers are [Z] with their wrap-around ([wrap64]); IEEE
    numbers are [spec_float].  A [range] over a Go map visits the keys in an
    order the definitions take as an argument.  What comes from outside, the
    printing and parsing of UUIDs, JSON texts, the clock, the identity of the
    user, the answer of the authorization service, new random ids, is a
    parameter; a hexadecimal printer and parser of UUIDs in [Prelude] instantiates
    it for the witnesses.

    ** The files

    - [Prelude]: errors, results, the state monad, UUIDs, machine integers,
      strings, and the tactics and hints the other files use.
    - [Errors]: [errors/], [jsonapi/]: the error types and the responses.
    - [Paging]: [controller/paging.go].  [Path]: [path/path.go].
    - [Values], [FieldTypes], [FieldDefinitions], [Json]: dynamic values,
      markup, the field types of [workitem/] with their conversions, their
      equality, and what a jsonb column gives back for them.
    - [Transactions]: [application/transaction.go].  [Tables]: rows with soft
      deletion, constraints and the statements of gorm, [application/repository],
      [gormsupport/].
    - [Links], [LinkRepository], [LinkGraph],
      [LinkInvariant], [LinkLock], [LinkBehaviour]: [workitem/link/].
    - [TableJoin], [ExpressionCompiler], [CompilerFacts], [CompilerSafety]:
      the compilation of criteria to SQL.  [Criteria]: [criteria/] on a heap.
      [Search], [SearchFacts]: [search/].
    - [WorkItemTypes], [TypeFacts]: types, their cache and their hierarchy.
    - [WorkItems], [WorkItemFacts], [WorkItemInvariant], [WorkItemOrder],
      [WorkItemChange], [WorkItemExamples]: the repository of work items.
    - [Trees]: numbers of a space, rows that form trees.
    - [Iterations], [IterationFacts], [IterationCounts],
      [IterationController], [IterationRequests], [IterationStates],
      [IterationMoves], [IterationExamples]: [iteration/] and the handlers on
      iterations down to the tables of spaces, iterations and work items.
    - [Spaces], [Areas], [Labels], [Queries], [Comments],
      [RepositoryFacts]: [space/], [spacetemplate/], [area/], [label/],
      [query/], [comment/].
    - [Actions]: [actions/] and the change sets of [workitem/workitem.go].
      [Boards]: groups of types and boards.  [Importer], [ImporterFacts]:
      [spacetemplate/importer/].  [Events]: [workitem/event/].
    - [WorkItemLists], [WorkItemListFacts]: the lists of
      [workitem/workitem_repository.go], full-text search and the filters of
      [search/search_repository.go] with their tree view.
    - [Codebases], [Accounts], [UsersController]: the tables of codebases,
      users and identities ([codebase/], [account/]) and the requests of
      [controller/users.go].
    - [WorkItemConversion], [WorkItemController], [LinkController]: the
      requests of [controller/workitem.go], [controller/workitems.go] and
      [controller/work_item_link.go] on one store, the record [planner], with
      [WorkItemRequests] and [WorkItemPayloads].
    - [SpaceController], [SpaceRequests]: [controller/space.go], with what it
      asks of other services as a log, and [controller/planner_backlog.go].
    - [CommentController]; [QueryController];
      [AreaController], [LabelController]: the requests on comments, saved
      queries, areas and labels.
    - [CsvExport], [CsvFacts], [CsvWindows]: the export of items as
      comma-separated values ([controller/search.go]).
    - [RequestExamples]: concrete stores on which the theorems on requests are
      applied.
    - [Migration]: [migration/migration.go], with what other processes do to
      the same database between the versions.
    - [RemoteItems], [Trackers], [RemoteImport]: [remoteworkitem/], from the
      JSON of an issue to a work item, the tables of trackers and the jobs
      that import.  [TrackerRequests]: [controller/tracker.go],
      [controller/trackerquery.go], [controller/space_tracker_queries.go], and
      stores on which the theorems on imports are applied.
    - [Cluster]: the interfaces to a cluster and the client of its OpenShift
      API; [KubeAccess], [KubeClient]: [kubernetes/], on a world the cluster
      is in; [Deployments]: [controller/deployments.go] and its two clients,
      and a small cluster the theorems are applied to.

    ** What the theorems show

    - Links: whatever is committed, trees stay forests and dependencies stay
      acyclic ([LinkInvariant.committed_wf]), also when creations interleave
      statement by statement under the advisory lock
      ([LinkLock.interleaving_wf]); the recursive query is the transitive
      closure and the cycle check is reachability.
    - Work items: numbers are unique and never reused, versions only grow,
      every change leaves a revision, no update is lost; the execution order
      of [Reorder] and [Create]; a change of type loses no field.
    - Types: the cache shows the tables, and where it does not; subtyping is
      the chain of extensions.
    - Iterations: requests, interleaved transaction by transaction, keep the
      trees; at most one iteration of a space is started when transactions
      run one by one; what moving and deleting does to subtree and items;
      counts; a failed request changes nothing.
    - Small repositories: the optimistic lock of spaces, labels and queries
      is proved once against the interface [Versioned]; comments keep their
      history.
    - Compiler and search: every placeholder has its parameter, every used
      table is joined, map order does not matter, a filter means its tree.
    - Values: round trips and permitted values of field types, paths, paging
      bounds, error responses, atomicity of transactions.
    - Templates: an import keeps every type and field and replaces the groups;
      groups and boards are read back as created.  Events: the history of an
      item grows by the differences of each save.  Actions: one save or none.
    - Lists: pages put together are the list; [Fetch] gives a topmost match; the
      tree view lists the children of the matches that have a matching child.
    - Requests: who may change and delete items, links, spaces, comments,
      queries and labels; what a request leaves when it fails, with others
      committing between its transactions; which invariants any sequence of
      requests keeps (roots of spaces, trees of areas, terms of labels,
      histories of comments); the export ends and has every match once.
    - Migration: the loop ends and applies every version once and in order,
      also when several processes run it at the same time.
    - Imports: an issue without dots in its keys is flattened to the ways to
      its leaves; all assignees of an issue come through; a remote id is in a
      space at most once, and importing it again changes the item it has;
      every job of a call of the scheduler runs the last query; a query is
      deleted with the items its filter finds, for contributors only.
    - Deployments: what a request may change in a cluster, whatever that
      answers; which answers about access a rule grounds; which replication
      controller is the current one, in whatever order maps are ranged; scaling
      reports what the one before asked for; the counts of pods and the window
      of a time series.

    Where the code does something else than it means to, the theorem states
    what it does (as [IterationMoves.Update_flattens] or
    [RepositoryFacts.query_Delete_nil]).

    ** Bounds and fuel

    [LinkRepository.with_recursive] runs at most [rounds] of the recursive
    query, two more than there are links, and [LinkGraph] proves that it
    has ended by then.  The activation of joins and their ordering in
    [TableJoin] get as much fuel as there are joins; the walks over the heap
    of [Criteria] get the height of the tree; both have lemmas that this is
    enough.  [CsvExport.write_windows] needs a hundredth of the number of matches,
    which [CsvWindows.WorkitemsCSV_all] assumes and then proves to be enough.
    [Migration.Migrate] has two rounds more than there are versions, which
    [Migration.Migrate_all] proves to be enough; the loop over the elements of
    a pattern needs a round more than the issue has keys
    ([RemoteItems.collect_ends]); [Trackers.github_fetch] needs a round for
    each page and ends exactly when there is a last one
    ([Trackers.github_fetch_pages]).  Every other recursion is structural.

    ** Not modelled

    Failures of the database connection and the isolation of PostgreSQL beyond
    READ COMMITTED statements; the text of log lines; metrics; ETags.  Che, the
    auth service, the clients of GitHub and Jira, notification and metric
    clients are REST calls to systems outside, as are Kubernetes and Hawkular,
    whose clients are type classes of [Cluster]; the websocket with the events
    of a cluster waits for both its ends; configuration reads keys of viper; the scripts a migration runs
    are SQL; [design/] is the DSL the server code is generated from; [test/] and
    [tool/] are fixtures and commands. *)

From Stdlib Require Import ZArith Lia Ascii String.
From stdpp Require Export base tactics option list gmap strings pretty sorting.

#[global] Open Scope Z_scope.
#[global] Open Scope stdpp_scope.

(** ** Errors and results

    [error] is Go's [error] interface restricted to the values the program
    builds.  A formatted message is represented by its format string: the
    rendered arguments never influence control flow. *)

Inductive error :=
  | Plain (format : string)                  (* errs.New / errs.Errorf / fmt.Errorf *)
  | Wrapped (format : string) (cause : error) (* errs.Wrap / errs.Wrapf *)
  | Stacked (cause : error)                  (* errs.WithStack *)
  | NotFoundError (entity : string) (ID : string) (preDefinedErrorMessage : option string)
  | ConversionError (message : string)
  | BadParameterError (parameter value : string) (expectedValue : option string)
      (preDefinedErrorMessage : option string)
  | VersionConflictError (message : string)
  | DataConflictError (message : string)
  | InternalError (Err : error)
  | UnauthorizedError (message : string)
  | ForbiddenError (message : string)
  (* an error of the goa framework: response status, token, message and, for
     a *goa.ErrorResponse, its code and detail *)
  | GoaServiceError (status : Z) (token message : string) (resp : option (string * string)).

#[export] Instance error_eq_dec : EqDecision error.
Proof. solve_decision. Defined.

(** A Go call returns a value, returns an error, or panics. *)
Inductive res (A : Type) :=
  | Ok (a : A)
  | Err (e : error)
  | Panic (reason : string).
Arguments Ok {A} a.
Arguments Err {A} e.
Arguments Panic {A} reason.

#[export] Instance res_ret : MRet res := @Ok.
#[export] Instance res_bind : MBind res := λ A B f r,
  match r with Ok a => f a | Err e => Err e | Panic s => Panic s end.
#[export] Instance res_fmap : FMap res := λ A B f r,
  match r with Ok a => Ok (f a) | Err e => Err e | Panic s => Panic s end.

(** [if err != nil { return nil, errs.Wrapf(err, format, ...) }] *)
Definition wrapf {A} (format : string) (r : res A) : res A :=
  match r with Err e => Err (Wrapped format e) | r => r end.
Definition with_stack {A} (r : res A) : res A :=
  match r with Err e => Err (Stacked e) | r => r end.
(** A failure reported through a fresh error that drops the original one. *)
Definition replace_err {A} (e' : error) (r : res A) : res A :=
  match r with Err _ => Err e' | r => r end.

Definition is_ok {A} (r : res A) : bool := match r with Ok _ => true | _ => false end.
Definition is_err {A} (r : res A) : bool := match r with Err _ => true | _ => false end.
Definition is_panic {A} (r : res A) : bool := match r with Panic _ => true | _ => false end.

(** ** Statements

    Code that reads and writes a store [S] returns its result and the store it
    leaves; an error leaves what was written before it. *)

Definition s_ret {S A} (a : A) : S → res A * S := λ d, (Ok a, d).
Definition s_fail {S A} (e : error) : S → res A * S := λ d, (Err e, d).
Definition s_bind {S A B} (m : S → res A * S) (k : A → S → res B * S) : S → res B * S := λ d,
  match m d with
  | (Ok a, d') => k a d'
  | (Err e, d') => (Err e, d')
  | (Panic s, d') => (Panic s, d')
  end.
(** A query or a check, which leaves the store alone. *)
Definition s_query {S A} (q : S → res A) : S → res A * S := λ d, (q d, d).
Definition s_map {S A B} (f : res A → res B) (m : S → res A * S) : S → res B * S :=
  λ d, let '(r, d') := m d in (f r, d').
Notation "'let*' x := m 'in' k" := (s_bind m (λ x, k))
  (at level 200, x pattern, m at level 100, k at level 200).

(** Following a pointer. *)
Definition nil_pointer : string := "invalid memory address or nil pointer dereference".
Definition deref {A} (p : option A) : res A := match p with Some a => Ok a | None => Panic nil_pointer end.

(** ** Machine integers: Go's [int] is 64 bits wide on the target. *)

Definition int_min : Z := - 2 ^ 63.
Definition int_max : Z := 2 ^ 63 - 1.
Definition in_int (z : Z) : Prop := int_min ≤ z ≤ int_max.
Definition in_intb (z : Z) : bool := (int_min <=? z) && (z <=? int_max).
Definition wrap64 (z : Z) : Z := (z + 2 ^ 63) mod 2 ^ 64 - 2 ^ 63.

(** Division truncates toward zero and panics on a zero divisor. *)
Definition go_div (a b : Z) : res Z :=
  if b =? 0 then Panic "integer divide by zero" else Ok (wrap64 (Z.quot a b)).
Definition go_rem (a b : Z) : res Z :=
  if b =? 0 then Panic "integer divide by zero" else Ok (Z.rem a b).

(** ** Strings (byte sequences) *)

Definition chars (s : string) : list ascii := String.list_ascii_of_string s.
Definition of_chars (l : list ascii) : string := String.string_of_list_ascii l.

Fixpoint is_prefix (p l : list ascii) : bool :=
  match p, l with
  | [], _ => true
  | a :: p, b :: l => bool_decide (a = b) && is_prefix p l
  | _ :: _, [] => false
  end.

(** The double quote. *)
Definition dquote : string := String (ascii_of_nat 34) EmptyString.

(** strings.HasPrefix, strings.TrimPrefix *)
Definition HasPrefix (s prefix : string) : bool := is_prefix (chars prefix) (chars s).
Definition TrimPrefix (s prefix : string) : string :=
  if HasPrefix s prefix
  then of_chars (drop (length (chars prefix)) (chars s)) else s.

(** strings.HasSuffix, strings.TrimSuffix *)
Definition HasSuffix (s suffix : string) : bool := is_prefix (rev (chars suffix)) (rev (chars s)).
Definition TrimSuffix (s suffix : string) : string :=
  if HasSuffix s suffix
  then of_chars (take (length (chars s) - length (chars suffix)) (chars s)) else s.

(** strings.Contains *)
Fixpoint contains_chars (l p : list ascii) : bool :=
  is_prefix p l || match l with [] => false | _ :: l' => contains_chars l' p end.
Definition Contains (s sub : string) : bool := contains_chars (chars s) (chars sub).

(** strings.Replace(s, old, new, -1) for single characters. *)
Definition replace_char (old new : ascii) (s : string) : string :=
  of_chars (map (λ c, if bool_decide (c = old) then new else c) (chars s)).

(** strings.Join *)
Definition Join (l : list string) (sep : string) : string := String.concat sep l.

(** strings.Split(s, sep) for a one-character separator: never empty. *)
Fixpoint split_chars (sep : ascii) (cur l : list ascii) : list (list ascii) :=
  match l with
  | [] => [rev cur]
  | c :: l => if bool_decide (c = sep) then rev cur :: split_chars sep [] l
              else split_chars sep (c :: cur) l
  end.
Definition Split (s : string) (sep : ascii) : list string :=
  map of_chars (split_chars sep [] (chars s)).

(** strings.TrimSpace on ASCII white space. *)
Definition is_space (c : ascii) : bool :=
  let n := nat_of_ascii c in
  bool_decide (n = 32%nat) || (Nat.leb 9 n && Nat.leb n 13).
Fixpoint drop_while (f : ascii → bool) (l : list ascii) : list ascii :=
  match l with c :: l' => if f c then drop_while f l' else l | [] => [] end.
Definition trim_func (f : ascii → bool) (s : string) : string :=
  of_chars (rev (drop_while f (rev (drop_while f (chars s))))).
Definition TrimSpace (s : string) : string := trim_func is_space s.

(** strings.ToLower on ASCII. *)
Definition lower_char (c : ascii) : ascii :=
  let n := nat_of_ascii c in
  if Nat.leb 65 n && Nat.leb n 90 then ascii_of_nat (n + 32) else c.
Definition ToLower (s : string) : string := of_chars (map lower_char (chars s)).

(** The order of [sort.Strings] *)
Definition string_le (a b : string) : Prop := String.leb a b = true.
#[export] Instance string_le_dec a b : Decision (string_le a b).
Proof. unfold string_le. apply _. Defined.

(** strconv.Itoa / strconv.FormatInt(_, 10) *)
Definition Itoa (z : Z) : string := pretty z.

(** strconv.Atoi: an optional sign followed by decimal digits, in range. *)
Definition digit (c : ascii) : option Z :=
  let n := Z.of_nat (nat_of_ascii c) in
  if (48 <=? n) && (n <=? 57) then Some (n - 48) else None.
Fixpoint digits_value (acc : Z) (l : list ascii) : option Z :=
  match l with
  | [] => Some acc
  | c :: l => match digit c with Some d => digits_value (10 * acc + d) l | None => None end
  end.
Definition unsigned_value (l : list ascii) : option Z :=
  match l with [] => None | _ => digits_value 0 l end.
Definition Atoi (s : string) : res Z :=
  let v := match chars s with
           | "-"%char :: l => Z.opp <$> unsigned_value l
           | "+"%char :: l => unsigned_value l
           | l => unsigned_value l
           end in
  match v with
  | Some z => if in_intb z then Ok z else Err (Plain "strconv.Atoi: value out of range")
  | None => Err (Plain "strconv.Atoi: invalid syntax")
  end.

(** ** UUIDs

    [uuid.UUID] of satori/go.uuid is an array of 16 bytes, here the 128-bit
    number they spell. *)

Record uuid := mk_uuid { uuid_bits : N; uuid_lt : (uuid_bits <? 2 ^ 128)%N = true }.

Lemma uuid_ext (u v : uuid) : uuid_bits u = uuid_bits v → u = v.
Proof.
  destruct u as [a Ha], v as [b Hb]; simpl; intros ->. f_equal.
  apply (Eqdep_dec.UIP_dec Bool.bool_dec).
Qed.

#[export] Instance uuid_eq_dec : EqDecision uuid.
Proof.
  refine (λ u v, match decide (uuid_bits u = uuid_bits v) with
                 | left H => left (uuid_ext u v H)
                 | right H => right _ end).
  by intros ->.
Defined.

Lemma mod_uuid_lt (n : N) : ((n mod 2 ^ 128) <? 2 ^ 128)%N = true.
Proof. apply N.ltb_lt, N.mod_lt. done. Qed.
Definition uuid_of (n : N) : uuid := mk_uuid (n mod 2 ^ 128) (mod_uuid_lt n).
Definition uuid_Nil : uuid := uuid_of 0.

Lemma uuid_of_bits (u : uuid) : uuid_of (uuid_bits u) = u.
Proof.
  apply uuid_ext; simpl. apply N.mod_small.
  destruct u as [n H]; simpl. by apply N.ltb_lt.
Qed.

#[export] Instance uuid_countable : Countable uuid :=
  inj_countable' uuid_bits uuid_of uuid_of_bits.

(** The printing and parsing functions of the UUID package, which is not part
    of the repository: a client is parametrised by them. *)
Class UuidOps := {
  uuid_String : uuid → string;
  uuid_FromString : string → option uuid;
}.

(** Their documented behaviour: the canonical form is built from hexadecimal
    digits and dashes, always 36 characters of them, and parses back. *)
Definition canonical_char (c : ascii) : bool :=
  let n := nat_of_ascii c in
  (Nat.leb 48 n && Nat.leb n 57) || (Nat.leb 97 n && Nat.leb n 102)
  || bool_decide (c = "-"%char).

Class UuidLaws `{UuidOps} := {
  uuid_round : ∀ u, uuid_FromString (uuid_String u) = Some u;
  uuid_canonical : ∀ u, forallb canonical_char (chars (uuid_String u)) = true;
  uuid_empty : uuid_FromString "" = None;
  uuid_length : ∀ u, length (chars (uuid_String u)) = 36%nat;
}.

Lemma uuid_String_inj {HO : UuidOps} {HL : UuidLaws} u v : uuid_String u = uuid_String v → u = v.
Proof. intros H. apply (inj Some). by rewrite <- !uuid_round, H. Qed.

(** ** Automation *)

Create HintDb golib.
Create Rewrite HintDb golib.

(** Case analysis on the first monadic or boolean scrutinee. *)
Ltac case_res :=
  match goal with
  | |- context [match ?x with Ok _ => _ | Err _ => _ | Panic _ => _ end] =>
      destruct x eqn:?
  | H : context [match ?x with Ok _ => _ | Err _ => _ | Panic _ => _ end] |- _ =>
      destruct x eqn:?
  end.

(** Boolean comparisons of integers become propositions. *)
Ltac z_bool :=
  repeat match goal with
  | H : (_ <? _)%Z = true |- _ => apply Z.ltb_lt in H
  | H : (_ <? _)%Z = false |- _ => apply Z.ltb_ge in H
  | H : (_ <=? _)%Z = true |- _ => apply Z.leb_le in H
  | H : (_ <=? _)%Z = false |- _ => apply Z.leb_gt in H
  | H : (_ =? _)%Z = true |- _ => apply Z.eqb_eq in H
  | H : (_ =? _)%Z = false |- _ => apply Z.eqb_neq in H
  | H : (_ && _) = true |- _ => apply andb_prop in H as [? ?]
  end.

(** ** Lemmas on results *)

Lemma bind_ok {A B} (f : A → res B) (r : res A) (b : B) :
  (r ≫= f) = Ok b ↔ ∃ a, r = Ok a ∧ f a = Ok b.
Proof. destruct r; split; naive_solver. Qed.

Lemma wrapf_ok {A} s (r : res A) a : wrapf s r = Ok a ↔ r = Ok a.
Proof. destruct r; naive_solver. Qed.
Lemma with_stack_ok {A} (r : res A) a : with_stack r = Ok a ↔ r = Ok a.
Proof. destruct r; naive_solver. Qed.
Lemma replace_err_ok {A} e (r : res A) a : replace_err e r = Ok a ↔ r = Ok a.
Proof. destruct r; naive_solver. Qed.
#[export] Hint Rewrite @bind_ok @wrapf_ok @with_stack_ok @replace_err_ok : golib.

Lemma mapM_ok {A B} (f : A → res B) (l : list A) (k : list B) :
  mapM f l = Ok k ↔ Forall2 (λ x y, f x = Ok y) l k.
Proof.
  revert k; induction l as [|x l IH]; intros k; simpl.
  - split; [by intros [= <-]|]. by inversion 1.
  - rewrite bind_ok. setoid_rewrite bind_ok. split.
    + intros (y & Hy & k' & Hk' & [= <-]). constructor; [done|by apply IH].
    + inversion 1 as [|? y ? k' Hy Hk]; subst.
      exists y; split; [done|]. exists k'; split; [by apply IH|done].
Qed.

(** ** Lemmas on statements *)

Lemma s_bind_ok {S A B} (m : S → res A * S) (k : A → S → res B * S) s b s' :
  s_bind m k s = (Ok b, s') ↔ ∃ a s1, m s = (Ok a, s1) ∧ k a s1 = (Ok b, s').
Proof.
  unfold s_bind. split.
  - destruct (m s) as [[a|e|p] s1]; [|done..]. intros H. by exists a, s1.
  - by intros (a & s1 & -> & H).
Qed.
Lemma s_map_ok {S A} (f : res A → res A) (m : S → res A * S) s a s' :
  (∀ r, f r = Ok a ↔ r = Ok a) → s_map f m s = (Ok a, s') ↔ m s = (Ok a, s').
Proof.
  intros Hf. unfold s_map. destruct (m s) as [r s1].
  split; intros [= H <-]; f_equal; by apply Hf.
Qed.
Lemma s_query_ok {S A} (q : S → res A) s a s' :
  s_query q s = (Ok a, s') ↔ q s = Ok a ∧ s' = s.
Proof. unfold s_query. split; [by intros [= -> <-]|by intros [-> ->]]. Qed.

(** ** Statements that keep a relation

    between the store before and after them, whatever they return. *)

Section Keeps.
Context {S : Type} (R : S → S → Prop) `{!Reflexive R} `{!Transitive R}.
Definition keeps {A} (m : S → res A * S) : Prop := ∀ d, R d (m d).2.
Lemma keeps_query {A} (q : S → res A) : keeps (s_query q).
Proof. intros d. reflexivity. Qed.
Lemma keeps_ret {A} (a : A) : keeps (s_ret a).
Proof. intros d. reflexivity. Qed.
Lemma keeps_fail {A} (e : error) : keeps (s_fail (A := A) e).
Proof. intros d. reflexivity. Qed.
Lemma keeps_bind {A B} (m : S → res A * S) (k : A → S → res B * S) : keeps m → (∀ a, keeps (k a)) → keeps (s_bind m k).
Proof.
  intros Hm Hk d. unfold s_bind. specialize (Hm d). destruct (m d) as [[a|e|p] d1]; simpl in *; [|done..].
  etrans; [exact Hm|apply Hk].
Qed.
Lemma keeps_map {A B} (f : res A → res B) (m : S → res A * S) : keeps m → keeps (s_map f m).
Proof. intros Hm d. unfold s_map. specialize (Hm d). by destruct (m d). Qed.
Lemma keeps_at {A} (m : S → res A * S) d r d' : keeps m → m d = (r, d') → R d d'.
Proof. intros Hm E. specialize (Hm d). by rewrite E in Hm. Qed.
End Keeps.
Create HintDb quiet.
#[export] Hint Resolve keeps_query keeps_ret keeps_fail keeps_bind keeps_map : quiet.

(** ** Lemmas on machine integers *)

Lemma wrap64_id z : in_int z → wrap64 z = z.
Proof. unfold in_int, int_min, int_max, wrap64. intros. rewrite Z.mod_small; lia. Qed.
Lemma wrap64_in z : in_int (wrap64 z).
Proof.
  unfold in_int, int_min, int_max, wrap64.
  pose proof (Z.mod_pos_bound (z + 2 ^ 63) (2 ^ 64)). lia.
Qed.
Lemma in_intb_spec z : in_intb z = true ↔ in_int z.
Proof. unfold in_intb, in_int. rewrite andb_true_iff, !Z.leb_le. done. Qed.
#[export] Hint Resolve wrap64_id wrap64_in : golib.

Lemma go_div_ok a b : b ≠ 0 → in_int (Z.quot a b) → go_div a b = Ok (Z.quot a b).
Proof.
  intros Hb Hq. unfold go_div. rewrite (proj2 (Z.eqb_neq b 0) Hb). by rewrite wrap64_id.
Qed.

(** ** Lemmas on strings *)

Lemma of_chars_chars s : of_chars (chars s) = s.
Proof. apply string_of_list_ascii_of_string. Qed.
Lemma chars_of_chars l : chars (of_chars l) = l.
Proof. apply list_ascii_of_string_of_list_ascii. Qed.
#[export] Hint Rewrite of_chars_chars chars_of_chars : golib.

Lemma chars_inj s t : chars s = chars t → s = t.
Proof. intros H. by rewrite <- (of_chars_chars s), H, of_chars_chars. Qed.

Lemma chars_app s t : chars (s +:+ t) = chars s ++ chars t.
Proof. induction s as [|c s IH]; [done|]. simpl. by f_equal. Qed.
Lemma of_chars_app k l : of_chars (k ++ l) = of_chars k +:+ of_chars l.
Proof. apply chars_inj. by rewrite chars_app, !chars_of_chars. Qed.

Lemma str_app_assoc s t u : s +:+ t +:+ u = (s +:+ t) +:+ u.
Proof. apply chars_inj. by rewrite !chars_app, app_assoc. Qed.
Lemma str_app_nil_r s : s +:+ "" = s.
Proof. apply chars_inj. by rewrite chars_app, app_nil_r. Qed.

Lemma is_prefix_spec p l : is_prefix p l = true ↔ ∃ k, l = p ++ k.
Proof.
  revert l; induction p as [|a p IH]; intros [|b l]; simpl.
  - naive_solver.
  - naive_solver.
  - split; [done|]. by intros [? ?].
  - rewrite andb_true_iff, bool_decide_eq_true, IH. naive_solver.
Qed.
Lemma HasPrefix_spec s p : HasPrefix s p = true ↔ ∃ t, s = p +:+ t.
Proof.
  unfold HasPrefix. rewrite is_prefix_spec. split.
  - intros [k Hk]. exists (of_chars k). apply chars_inj.
    by rewrite chars_app, chars_of_chars.
  - intros [t ->]. exists (chars t). apply chars_app.
Qed.
Lemma TrimPrefix_app p t : TrimPrefix (p +:+ t) p = t.
Proof.
  unfold TrimPrefix. rewrite (proj2 (HasPrefix_spec _ _)); [|by eexists].
  apply chars_inj. rewrite chars_of_chars, chars_app, drop_app_length. done.
Qed.

Lemma contains_chars_spec l p : contains_chars l p = true ↔ ∃ a b, l = a ++ p ++ b.
Proof.
  induction l as [|c l IH]; simpl; rewrite orb_true_iff, is_prefix_spec.
  - split.
    + intros [[k Hk]|?]; [|done]. by exists [], k.
    + intros (a & b & H). left. destruct a; [by exists b|done].
  - rewrite IH. split.
    + intros [[k Hk]|(a & b & ->)]; [by exists [], k|by exists (c :: a), b].
    + intros ([|c' a] & b & H); simplify_eq/=; [left; by exists b|right; by exists a, b].
Qed.
Lemma Contains_spec s p : Contains s p = true ↔ ∃ a b, s = a +:+ p +:+ b.
Proof.
  unfold Contains. rewrite contains_chars_spec. split.
  - intros (a & b & H). exists (of_chars a), (of_chars b). apply chars_inj.
    by rewrite !chars_app, !chars_of_chars.
  - intros (a & b & ->). exists (chars a), (chars b). by rewrite !chars_app.
Qed.
Lemma Contains_char s (c : ascii) : Contains s (String c "") = true ↔ c ∈ chars s.
Proof.
  unfold Contains. rewrite contains_chars_spec. simpl. split.
  - intros (a & b & ->). set_solver.
  - intros (a & b & ->)%list_elem_of_split. by exists a, b.
Qed.

Lemma elem_of_bfilter {A} (f : A → bool) x l : x ∈ List.filter f l ↔ x ∈ l ∧ f x = true.
Proof. by rewrite list_elem_of_In, List.filter_In, <- list_elem_of_In. Qed.
Lemma existsb_elem {A} (f : A → bool) l : existsb f l = true ↔ ∃ x, x ∈ l ∧ f x = true.
Proof. rewrite existsb_exists. by setoid_rewrite <- list_elem_of_In. Qed.
Lemma replace_char_chars o n s :
  chars (replace_char o n s) = map (λ c, if bool_decide (c = o) then n else c) (chars s).
Proof. apply chars_of_chars. Qed.
(** Replacing back recovers a string that had none of the new character. *)
Lemma replace_char_back o n s :
  n ∉ chars s → replace_char n o (replace_char o n s) = s.
Proof.
  intros Hn. apply chars_inj. rewrite !replace_char_chars, map_map.
  rewrite <- (map_id (chars s)) at 2. apply map_ext_in. intros c Hc.
  apply list_elem_of_In in Hc. repeat case_bool_decide; set_solver.
Qed.

Lemma split_chars_sep sep cur a l :
  sep ∉ a → split_chars sep cur (a ++ sep :: l) = (rev cur ++ a) :: split_chars sep [] l.
Proof.
  revert cur; induction a as [|c a IH]; intros cur Ha; simpl.
  - rewrite bool_decide_true by done. by rewrite app_nil_r.
  - rewrite bool_decide_false by set_solver. rewrite IH by set_solver. simpl.
    by rewrite <- app_assoc.
Qed.
Lemma split_chars_end sep cur a : sep ∉ a → split_chars sep cur a = [rev cur ++ a].
Proof.
  revert cur; induction a as [|c a IH]; intros cur Ha; simpl.
  - by rewrite app_nil_r.
  - rewrite bool_decide_false by set_solver. rewrite IH by set_solver. simpl.
    by rewrite <- app_assoc.
Qed.
(** Splitting undoes joining when no piece holds the separator. *)
Lemma Split_Join (l : list string) (sep : ascii) :
  l ≠ [] → Forall (λ s, sep ∉ chars s) l → Split (Join l (String sep "")) sep = l.
Proof.
  unfold Split, Join. intros Hl HF. induction HF as [|s l Hs HF IH]; [done|].
  destruct l as [|t l].
  - simpl. rewrite split_chars_end by done. simpl. by rewrite of_chars_chars.
  - change (String.concat (String sep "") (s :: t :: l))
      with (s +:+ String sep "" +:+ String.concat (String sep "") (t :: l)).
    rewrite !chars_app. simpl (chars (String sep "")). simpl app at 2.
    rewrite split_chars_sep by done. simpl. rewrite of_chars_chars. f_equal.
    apply IH. done.
Qed.
Lemma Join_cons s t l sep : Join (s :: t :: l) sep = s +:+ sep +:+ Join (t :: l) sep.
Proof. done. Qed.
Lemma Join_snoc l s sep : l ≠ [] → Join (l ++ [s]) sep = Join l sep +:+ sep +:+ s.
Proof.
  induction l as [|a [|b l] IH]; [done|done|]. intros _.
  simpl app in *. rewrite !Join_cons, IH by done. by rewrite <- !str_app_assoc.
Qed.

(** ** The order of strings *)

#[export] Instance string_le_total : Total string_le.
Proof. intros a b. apply String.leb_total. Qed.
#[export] Instance string_le_antisymm : AntiSymm (=) string_le.
Proof. intros a b. apply String.leb_antisym. Qed.
Lemma string_le_cons c s d t :
  string_le (String c s) (String d t) ↔ (N_of_ascii c < N_of_ascii d)%N ∨ (c = d ∧ string_le s t).
Proof.
  unfold string_le, String.leb. simpl. unfold Ascii.compare.
  destruct (N.compare_spec (N_of_ascii c) (N_of_ascii d)) as [E|E|E].
  - assert (c = d) as -> by (by rewrite <- (ascii_N_embedding c), E, ascii_N_embedding). split; [by right|]. intros [?|[_ ?]]; [lia|done].
  - split; [by left|done].
  - split; [done|]. intros [?|[-> _]]; lia.
Qed.
#[export] Instance string_le_trans : Transitive string_le.
Proof.
  intros a. induction a as [|c a IH]; intros [|d b] [|e g]; try done.
  rewrite !string_le_cons. intros [?|[-> ?]] [?|[-> ?]]; [left; lia|by left..|right; split; [done|]].
  by eapply IH.
Qed.
(** Two lists sort to the same list exactly when they have the same elements. *)
Lemma merge_sort_strings l k : merge_sort string_le l = merge_sort string_le k ↔ Permutation l k.
Proof.
  split.
  - intros E. by rewrite <- (merge_sort_Permutation string_le l), E, merge_sort_Permutation.
  - intros E. apply (StronglySorted_unique string_le); [apply StronglySorted_merge_sort; apply _..|].
    by rewrite !merge_sort_Permutation.
Qed.

(** ** A concrete UUID printer and parser

    The canonical text form (8-4-4-4-12 lower-case hexadecimal digits), with a
    proof that it satisfies [UuidLaws].  Only witnesses use it: the components
    are parametrised by any [UuidOps] that satisfies the laws. *)

Definition hex_char (d : N) : ascii :=
  ascii_of_N (if (d <? 10)%N then 48 + d else 87 + d).
Definition hex_digit (c : ascii) : option N :=
  let n := N_of_ascii c in
  if (48 <=? n)%N && (n <=? 57)%N then Some (n - 48)%N
  else if (97 <=? n)%N && (n <=? 102)%N then Some (n - 87)%N else None.

(** The [k] lowest digits, most significant first. *)
Fixpoint hex_digits (k : nat) (n : N) : list N :=
  match k with
  | O => []
  | S k => hex_digits k (n / 16) ++ [(n mod 16)%N]
  end.
Definition hex_value (l : list N) : N := foldl (λ a d, (16 * a + d)%N) 0%N l.

(** 32 digits, dashes after 8, 12, 16 and 20 of them. *)
Definition hex_text (u : uuid) : list ascii := map hex_char (hex_digits 32 (uuid_bits u)).

Definition dashed (l : list ascii) : list ascii :=
  take 8 l ++ "-"%char :: take 4 (drop 8 l) ++ "-"%char ::
  take 4 (drop 12 l) ++ "-"%char :: take 4 (drop 16 l) ++ "-"%char :: drop 20 l.

Definition hex_print (u : uuid) : string :=
  of_chars (dashed (hex_text u)).
Definition hex_parse (s : string) : option uuid :=
  let l := List.filter (λ c, negb (bool_decide (c = "-"%char))) (chars s) in
  if Nat.eqb (length l) 32 then uuid_of ∘ hex_value <$> mapM hex_digit l else None.

#[export] Instance HexUuidOps : UuidOps :=
  { uuid_String := hex_print; uuid_FromString := hex_parse }.

Lemma hex_digits_length k n : length (hex_digits k n) = k.
Proof. revert n; induction k; intros n; simpl; [done|]. rewrite length_app, IHk. simpl. lia. Qed.
Lemma hex_digits_lt k n : Forall (λ d, (d < 16)%N) (hex_digits k n).
Proof.
  revert n; induction k; intros n; simpl; [constructor|].
  apply Forall_app; split; [apply IHk|]. repeat constructor. by apply N.mod_lt.
Qed.
Lemma hex_value_digits k n : hex_value (hex_digits k n) = (n mod 16 ^ N.of_nat k)%N.
Proof.
  revert n; induction k as [|k IH]; intros n; [by rewrite N.mod_1_r|].
  simpl hex_digits. unfold hex_value in *. rewrite foldl_app, IH. simpl foldl.
  rewrite Nat2N.inj_succ, N.pow_succ_r', N.Div0.mod_mul_r. lia.
Qed.

Lemma uuid_of_digits u : uuid_of (hex_value (hex_digits 32 (uuid_bits u))) = u.
Proof.
  rewrite hex_value_digits, <- (uuid_of_bits u) at 1. apply uuid_ext.
  cbn [uuid_bits uuid_of]. change (16 ^ N.of_nat 32)%N with (2 ^ 128)%N.
  rewrite !N.Div0.mod_mod. by rewrite <- (uuid_of_bits u) at 2.
Qed.

Lemma hex_char_digit d : (d < 16)%N → hex_digit (hex_char d) = Some d.
Proof.
  intros H. assert (Hd : d ∈ map N.of_nat (seq 0 16)).
  { apply list_elem_of_In, in_map_iff. exists (N.to_nat d). split; [lia|].
    apply in_seq. lia. }
  simpl in Hd. repeat (apply elem_of_cons in Hd as [->|Hd]; [reflexivity|]).
  by apply elem_of_nil in Hd.
Qed.
Lemma hex_char_canonical d :
  (d < 16)%N → canonical_char (hex_char d) = true ∧ hex_char d ≠ "-"%char.
Proof.
  intros H. assert (Hd : d ∈ map N.of_nat (seq 0 16)).
  { apply list_elem_of_In, in_map_iff. exists (N.to_nat d). split; [lia|].
    apply in_seq. lia. }
  simpl in Hd. repeat (apply elem_of_cons in Hd as [->|Hd]; [by split|]).
  by apply elem_of_nil in Hd.
Qed.

Lemma filter_no_dash l :
  Forall (λ c, c ≠ "-"%char) l →
  List.filter (λ c, negb (bool_decide (c = "-"%char))) l = l.
Proof.
  induction 1 as [|c l Hc _ IH]; [done|]. simpl.
  rewrite bool_decide_false by done. simpl. by f_equal.
Qed.

Lemma hex_text_Forall (P : ascii → Prop) u :
  (∀ d, (d < 16)%N → P (hex_char d)) → Forall P (hex_text u).
Proof.
  intros HP. unfold hex_text. apply Forall_map.
  eapply Forall_impl; [apply hex_digits_lt|]. intros d Hd. by apply HP.
Qed.

Lemma drop_split {A} i j (l : list A) : drop i l = take j (drop i l) ++ drop (i + j) l.
Proof. rewrite <- (take_drop j (drop i l)) at 1. by rewrite drop_drop. Qed.

Lemma undash l :
  Forall (λ c, c ≠ "-"%char) l →
  List.filter (λ c, negb (bool_decide (c = "-"%char))) (dashed l) = l.
Proof.
  intros Hn. unfold dashed.
  repeat (rewrite List.filter_app || (simpl List.filter)).
  rewrite !filter_no_dash by (repeat first [apply Forall_take | apply Forall_drop]; done).
  rewrite <- (drop_split 16 4), <- (drop_split 12 4), <- (drop_split 8 4). apply take_drop.
Qed.

Lemma hex_print_undash u :
  List.filter (λ c, negb (bool_decide (c = "-"%char))) (chars (hex_print u)) = hex_text u.
Proof.
  unfold hex_print. rewrite chars_of_chars. apply undash.
  apply hex_text_Forall; intros; by apply hex_char_canonical.
Qed.

Lemma mapM_hex_digit l :
  Forall (λ d, (d < 16)%N) l → mapM hex_digit (map hex_char l) = Some l.
Proof.
  induction 1 as [|d l Hd _ IH]; [done|]. simpl. rewrite hex_char_digit by done.
  simpl. by rewrite IH.
Qed.

#[export] Instance HexUuidLaws : UuidLaws.
Proof.
  split.
  - intros u. simpl. unfold hex_parse. rewrite hex_print_undash. unfold hex_text.
    rewrite length_map, hex_digits_length. simpl Nat.eqb. cbv iota.
    rewrite mapM_hex_digit by apply hex_digits_lt. cbn [fmap option_fmap option_map compose]. f_equal. apply uuid_of_digits.
  - intros u. apply forallb_forall. intros c Hc.
    destruct (decide (c = "-"%char)) as [->|Hd]; [done|].
    assert (Hin : c ∈ hex_text u).
    { rewrite <- hex_print_undash. apply list_elem_of_In, List.filter_In. split; [done|].
      by rewrite bool_decide_false. }
    assert (HF : Forall (λ c, canonical_char c = true) (hex_text u))
      by (apply hex_text_Forall; intros; by apply hex_char_canonical).
    rewrite Forall_forall in HF. by apply HF.
  - reflexivity.
- intros u. change (length (chars (hex_print u)) = 36%nat).
    unfold hex_print. rewrite chars_of_chars. unfold dashed.
    pose proof (hex_digits_length 32 (uuid_bits u)) as HL. unfold hex_text.
    repeat (rewrite length_app || rewrite length_take || rewrite length_drop || rewrite length_map
            || cbn [length]). rewrite HL. reflexivity.
Qed.
