(* ===== verification/Errors.v ===== *)
(** * The error types and their JSON-API form

    [errors/errors.go] and [jsonapi/jsonapi_utility.go]: the constructors and
    classifiers of the domain errors, the HTTP status each one is reported
    under, and the choice of the response method of a request context. *)

From Stdlib Require Import ZArith Lia Ascii String.
From S2P Require Export Prelude.

Module Errors.

(** ** Constructors *)

Definition NewNotFoundError (entity id : string) : error := NotFoundError entity id None.
Definition NewNotFoundErrorFromString (errorMessage : string) : error :=
  NotFoundError "" "" (Some errorMessage).
Definition NewBadParameterError (param actual : string) : error :=
  BadParameterError param actual None None.
Definition NewBadParameterErrorFromString (errMessage : string) : error :=
  BadParameterError "" "" None (Some errMessage).
Definition Expected (err : error) (expected : string) : error :=
  match err with
  | BadParameterError p v _ m => BadParameterError p v (Some expected) m
  | e => e
  end.
Definition NewVersionConflictError (msg : string) : error := VersionConflictError msg.
Definition NewDataConflictError (msg : string) : error := DataConflictError msg.
Definition NewConversionError (msg : string) : error := ConversionError msg.
Definition NewUnauthorizedError (msg : string) : error := UnauthorizedError msg.
Definition NewForbiddenError (msg : string) : error := ForbiddenError msg.
Definition NewInternalError (err : error) : error := InternalError err.
Definition NewInternalErrorFromString (errorMessage : string) : error :=
  InternalError (Plain errorMessage).

Definition StatusBadRequest : Z := 400.
Definition StatusUnauthorized : Z := 401.
Definition StatusForbidden : Z := 403.
Definition StatusNotFound : Z := 404.
Definition StatusConflict : Z := 409.
Definition StatusInternalServerError : Z := 500.

Definition FromStatusCode (statusCode : Z) (msg : string) : error :=
  if statusCode =? StatusNotFound then NewNotFoundErrorFromString msg
  else if statusCode =? StatusBadRequest then NewBadParameterErrorFromString msg
  else if statusCode =? StatusConflict then NewVersionConflictError msg
  else if statusCode =? StatusUnauthorized then NewUnauthorizedError msg
  else if statusCode =? StatusForbidden then NewForbiddenError msg
  else NewInternalErrorFromString msg.

(** ** Classification: [errs.Cause] strips the wrappers of pkg/errors *)

Fixpoint Cause (e : error) : error :=
  match e with
  | Wrapped _ c | Stacked c => Cause c
  | e => e
  end.

Definition IsInternalError (e : error) : bool :=
  match Cause e with InternalError _ => true | _ => false end.
Definition IsUnauthorizedError (e : error) : bool :=
  match Cause e with UnauthorizedError _ => true | _ => false end.
Definition IsForbiddenError (e : error) : bool :=
  match Cause e with ForbiddenError _ => true | _ => false end.
Definition IsDataConflictError (e : error) : bool :=
  match Cause e with DataConflictError _ => true | _ => false end.
Definition IsVersionConflictError (e : error) : bool :=
  match Cause e with VersionConflictError _ => true | _ => false end.
Definition IsBadParameterError (e : error) : bool :=
  match Cause e with BadParameterError _ _ _ _ => true | _ => false end.
Definition IsConversionError (e : error) : bool :=
  match Cause e with ConversionError _ => true | _ => false end.
Definition IsNotFoundError (e : error) : bool :=
  match Cause e with NotFoundError _ _ _ => true | _ => false end.

(** ** The [Error] methods *)

Definition BadParameterError_Error (parameter value : string)
    (expectedValue preDefinedErrorMessage : option string) : string :=
  match expectedValue, preDefinedErrorMessage with
  | Some ex, _ => "Bad value for parameter '" +:+ parameter +:+ "': '" +:+ value
                  +:+ "' (expected: '" +:+ ex +:+ "')"
  | None, Some m => m
  | None, None => "Bad value for parameter '" +:+ parameter +:+ "': '" +:+ value +:+ "'"
  end.
Definition NotFoundError_Error (entity ID : string)
    (preDefinedErrorMessage : option string) : string :=
  match preDefinedErrorMessage with
  | Some m => m
  | None => entity +:+ " with id '" +:+ ID +:+ "' not found"
  end.
Fixpoint ErrorMsg (e : error) : string :=
  match e with
  | Plain m => m
  | Wrapped m c => m +:+ ": " +:+ ErrorMsg c
  | Stacked c => ErrorMsg c
  | NotFoundError en i m => NotFoundError_Error en i m
  | BadParameterError p v ex m => BadParameterError_Error p v ex m
  | InternalError c => ErrorMsg c
  | ConversionError m | VersionConflictError m | DataConflictError m
  | UnauthorizedError m | ForbiddenError m => m
  | GoaServiceError _ _ m _ => m
  end.

(** ** The JSON-API error object *)

Record JSONAPIError := {
  ID : option string;
  Code : string;
  Status : string;
  Title : string;
  Detail : string;
}.

Section JSONAPI.
(** [http.StatusText] *)
Variable StatusText : Z → string.

(** Code, title and status of a cause of one of the known types. *)
Definition classify (cause : error) : option (string * string * Z) :=
  match cause with
  | NotFoundError _ _ _ => Some ("not_found", "Not found error", StatusNotFound)
  | ConversionError _ => Some ("conversion_error", "Conversion error", StatusBadRequest)
  | BadParameterError _ _ _ _ => Some ("bad_parameter", "Bad parameter error", StatusBadRequest)
  | VersionConflictError _ => Some ("version_conflict", "Version conflict error", StatusConflict)
  | DataConflictError _ => Some ("data_conflict_error", "Data conflict error", StatusConflict)
  | InternalError _ => Some ("internal_error", "Internal error", StatusInternalServerError)
  | UnauthorizedError _ =>
      Some ("unauthorized_error", "Unauthorized error", StatusUnauthorized)
  | ForbiddenError _ => Some ("forbidden_error", "Forbidden error", StatusForbidden)
  | _ => None
  end.

Definition ErrorToJSONAPIError (err : error) : JSONAPIError * Z :=
  let cause := Cause err in
  let detail := ErrorMsg cause in
  match classify cause with
  | Some (code, title, statusCode) =>
      ({| ID := None; Code := code; Status := Itoa statusCode; Title := title;
          Detail := detail |}, statusCode)
  | None =>
      match cause with
      | GoaServiceError st token _ resp =>
          let '(code, detail) := match resp with
                                 | Some cd => cd
                                 | None => ("unknown_error", detail) end in
          ({| ID := Some token; Code := code; Status := Itoa st; Title := StatusText st;
              Detail := detail |}, st)
      | _ =>
          ({| ID := None; Code := "unknown_error"; Status := Itoa StatusInternalServerError;
              Title := "Unknown error"; Detail := detail |}, StatusInternalServerError)
      end
  end.

(** Which response methods a goa request context has, besides
    [InternalServerError], which all of them have. *)
Record Context := {
  BadRequest : bool; NotFound : bool; Unauthorized : bool; Forbidden : bool; Conflict : bool;
}.

(** The response method called, with the error object it is given. *)
Inductive response :=
  | RBadRequest (e : JSONAPIError) | RNotFound (e : JSONAPIError)
  | RUnauthorized (e : JSONAPIError) | RForbidden (e : JSONAPIError)
  | RConflict (e : JSONAPIError) | RInternalServerError (e : JSONAPIError).

Definition response_status (r : response) : Z :=
  match r with
  | RBadRequest _ => StatusBadRequest | RNotFound _ => StatusNotFound
  | RUnauthorized _ => StatusUnauthorized | RForbidden _ => StatusForbidden
  | RConflict _ => StatusConflict | RInternalServerError _ => StatusInternalServerError
  end.
Definition response_error (r : response) : JSONAPIError :=
  match r with
  | RBadRequest e | RNotFound e | RUnauthorized e | RForbidden e | RConflict e
  | RInternalServerError e => e
  end.

Definition JSONErrorResponse (ctx : Context) (err : error) : response :=
  let '(jsonErr, status) := ErrorToJSONAPIError err in
  if (status =? StatusBadRequest) && BadRequest ctx then RBadRequest jsonErr
  else if (status =? StatusNotFound) && NotFound ctx then RNotFound jsonErr
  else if (status =? StatusUnauthorized) && Unauthorized ctx then RUnauthorized jsonErr
  else if (status =? StatusForbidden) && Forbidden ctx then RForbidden jsonErr
  else if (status =? StatusConflict) && Conflict ctx then RConflict jsonErr
  else RInternalServerError jsonErr.
End JSONAPI.

(** ** Member names: [FormatMemberName] *)

Definition member_char (c : ascii) : bool :=
  let n := nat_of_ascii c in
  (Nat.leb 48 n && Nat.leb n 57) || (Nat.leb 65 n && Nat.leb n 90)
  || (Nat.leb 97 n && Nat.leb n 122) || bool_decide (c = "_"%char).
(** Every maximal run of other characters becomes one underscore; [run] tells
    that the previous character belongs to such a run. *)
Fixpoint squash (run : bool) (l : list ascii) : list ascii :=
  match l with
  | [] => []
  | c :: l => if member_char c then c :: squash false l
              else if run then squash true l else "_"%char :: squash true l
  end.
Definition FormatMemberName (name : string) : string :=
  trim_func (λ c, bool_decide (c = "_"%char)) (of_chars (squash false (chars name))).

(** ** Lemmas *)

Lemma Cause_idemp e : Cause (Cause e) = Cause e.
Proof. induction e; done. Qed.
Lemma Cause_not_wrapper e :
  match Cause e with Wrapped _ _ | Stacked _ => False | _ => True end.
Proof. induction e; done. Qed.

Lemma drop_while_Forall (P : ascii → Prop) f l : Forall P l → Forall P (drop_while f l).
Proof. induction 1; simpl; [done|]. case_match; auto. Qed.
Lemma drop_while_head f l : match drop_while f l with [] => True | c :: _ => f c = false end.
Proof. induction l as [|c l IH]; simpl; [done|]. destruct (f c) eqn:E; done. Qed.
Lemma drop_while_id f l :
  match l with [] => True | c :: _ => f c = false end → drop_while f l = l.
Proof. destruct l as [|c l]; simpl; [done|]. by intros ->. Qed.
Lemma drop_while_suffix f l : ∃ k, l = k ++ drop_while f l.
Proof.
  induction l as [|c l [k IH]]; simpl; [by exists []|].
  destruct (f c); [exists (c :: k); simpl; by f_equal|by exists []].
Qed.

(** The trimmed list: its first and last elements do not satisfy [f]. *)
Definition trimmed (f : ascii → bool) (l : list ascii) : Prop :=
  match l with [] => True | c :: _ => f c = false end ∧
  match rev l with [] => True | c :: _ => f c = false end.

Lemma trim_func_trimmed f s : trimmed f (chars (trim_func f s)).
Proof.
  unfold trim_func. rewrite chars_of_chars. set (l := drop_while f (chars s)).
  split; [|rewrite rev_involutive; apply drop_while_head].
  destruct (drop_while_suffix f (rev l)) as [k Hk].
  assert (Hl : l = rev (drop_while f (rev l)) ++ rev k)
    by (rewrite <- rev_app_distr, <- Hk; by rewrite rev_involutive).
  pose proof (drop_while_head f (chars s)) as Hh. fold l in Hh.
  rewrite Hl in Hh. by destruct (rev (drop_while f (rev l))).
Qed.
Lemma trim_func_id f s : trimmed f (chars s) → trim_func f s = s.
Proof.
  intros [H1 H2]. unfold trim_func. rewrite (drop_while_id f (chars s)) by done.
  rewrite drop_while_id by done. rewrite rev_involutive. apply of_chars_chars.
Qed.

Lemma squash_member run l : Forall (λ c, member_char c = true) (squash run l).
Proof.
  revert run; induction l as [|c l IH]; intros run; simpl; [constructor|].
  destruct (member_char c) eqn:E; [by constructor|].
  destruct run; [done|]. by constructor.
Qed.
Lemma squash_id l : Forall (λ c, member_char c = true) l → squash false l = l.
Proof. induction 1 as [|c l Hc _ IH]; simpl; [done|]. rewrite Hc. by f_equal. Qed.

Lemma FormatMemberName_chars name :
  Forall (λ c, member_char c = true) (chars (FormatMemberName name)).
Proof.
  unfold FormatMemberName, trim_func. rewrite !chars_of_chars.
  apply Forall_rev, drop_while_Forall, Forall_rev, drop_while_Forall, squash_member.
Qed.

(** ** Properties *)

(** an error built from an HTTP status code by FromStatusCode is reported by
    ErrorToJSONAPIError under that same status when it is one of 400, 401, 403, 404 and 409,
    and under 500 otherwise, however it was wrapped on the way. *)
Theorem FromStatusCode_status StatusText code msg e :
  Cause e = FromStatusCode code msg →
  (ErrorToJSONAPIError StatusText e).2 =
    if bool_decide (code ∈ [400; 401; 403; 404; 409]) then code else 500.
Proof.
  intros HC. unfold ErrorToJSONAPIError. rewrite HC.
  unfold FromStatusCode, StatusNotFound, StatusBadRequest, StatusConflict,
    StatusUnauthorized, StatusForbidden.
  destruct (code =? 404) eqn:?; [z_bool; subst; reflexivity|].
  destruct (code =? 400) eqn:?; [z_bool; subst; reflexivity|].
  destruct (code =? 409) eqn:?; [z_bool; subst; reflexivity|].
  destruct (code =? 401) eqn:?; [z_bool; subst; reflexivity|].
  destruct (code =? 403) eqn:?; [z_bool; subst; reflexivity|]. z_bool.
  rewrite bool_decide_false; [reflexivity|].
  rewrite !elem_of_cons, elem_of_nil. lia.
Qed.
Lemma FromStatusCode_status_witness :
  (ErrorToJSONAPIError (λ _, "") (Wrapped "failed" (Stacked (FromStatusCode 404 "gone")))).2 = 404.
Proof. apply (FromStatusCode_status (λ _, "") 404 "gone"). reflexivity. Defined.

(** JSONErrorResponse always answers with the JSON-API object of the error, through the
    response method of the object's own status when that status is 400, 401, 403, 404 or 409
    and the context has the method, and through InternalServerError in every other case. *)
Theorem JSONErrorResponse_status StatusText ctx err :
  let '(obj, st) := ErrorToJSONAPIError StatusText err in
  let has := (bool_decide (st = 400) && BadRequest ctx) || (bool_decide (st = 404) && NotFound ctx)
             || (bool_decide (st = 401) && Unauthorized ctx)
             || (bool_decide (st = 403) && Forbidden ctx)
             || (bool_decide (st = 409) && Conflict ctx) in
  let r := JSONErrorResponse StatusText ctx err in
  response_error r = obj ∧ response_status r = if has then st else 500.
Proof.
  unfold JSONErrorResponse. destruct (ErrorToJSONAPIError StatusText err) as [obj st].
  unfold StatusNotFound, StatusBadRequest, StatusConflict, StatusUnauthorized, StatusForbidden.
  destruct ctx as [b1 b2 b3 b4 b5]; simpl.
  assert (Hd : ∀ k, (st =? k) = bool_decide (st = k)).
  { intros k. case_bool_decide; [by apply Z.eqb_eq|by apply Z.eqb_neq]. }
  rewrite !Hd.
  repeat case_bool_decide; subst; try discriminate;
    destruct b1, b2, b3, b4, b5; done.
Qed.

(** FormatMemberName yields a JSON-API member name: only letters, digits and underscores,
    no underscore at either end; and it leaves such a name unchanged, so it is idempotent. *)
Theorem FormatMemberName_spec name :
  let r := FormatMemberName name in
  Forall (λ c, member_char c = true) (chars r)
  ∧ trimmed (λ c, bool_decide (c = "_"%char)) (chars r)
  ∧ FormatMemberName r = r.
Proof.
  intros r. pose proof (FormatMemberName_chars name) as Hc.
  pose proof (trim_func_trimmed (λ c, bool_decide (c = "_"%char))
                (of_chars (squash false (chars name)))) as Ht.
  split_and!; [done|done|].
  unfold r at 1. unfold FormatMemberName at 1. rewrite squash_id by done.
  rewrite of_chars_chars. by apply trim_func_id.
Qed.

End Errors.
