(* ===== verification/Paging.v ===== *)
(** * Paging of list responses

    [controller/paging.go]: the normalisation of the offset and limit query
    parameters, the computation of the prev/next/first/last links, and the
    parsing of the older comma-separated page parameter.  [int] arithmetic wraps
    at 64 bits and division by zero panics. *)

From Stdlib Require Import ZArith Lia Ascii String.
From S2P Require Export Prelude.

Module Paging.

Definition pageSizeDefault : Z := 20.
Definition PageSizeMax : Z := 500.

Definition computePagingLimits (offsetParam : option string) (limitParam : option Z) : Z * Z :=
  let offset := match offsetParam with
                | None => 0
                | Some p => match Atoi p with Ok v => v | _ => 0 end
                end in
  let offset := if offset <? 0 then 0 else offset in
  let limit := match limitParam with None => pageSizeDefault | Some l => l end in
  let limit := if limit <=? 0 then pageSizeDefault
               else if PageSizeMax <? limit then PageSizeMax else limit in
  (offset, limit).

(** A window of the result list: page[offset] and page[limit] of a link. *)
Record window := { start : Z; size : Z }.

(** A range that starts before 0 is cut to start at 0. *)
Definition cut_at_zero (st limit : Z) : window :=
  if st <? 0 then {| start := 0; size := wrap64 (limit + st) |}
  else {| start := st; size := limit |}.

Definition prevWindow (offset limit totalCount : Z) : res (option window) :=
  if (0 <? offset) && (0 <? totalCount) then
    prevStart ← (if offset <=? totalCount then Ok (wrap64 (offset - limit))
                 else q ← go_div (wrap64 (offset - totalCount)) limit;
                      Ok (wrap64 (offset - wrap64 (wrap64 (q + 1) * limit))));
    Ok (Some (cut_at_zero prevStart limit))
  else Ok None.

Definition nextWindow (currentCount offset limit totalCount : Z) : option window :=
  let nextStart := wrap64 (offset + currentCount) in
  if nextStart <? totalCount then Some {| start := nextStart; size := limit |} else None.

Definition firstWindow (offset limit : Z) : res window :=
  firstEnd ← (if 0 <? offset then go_rem offset limit else Ok limit);
  Ok {| start := 0; size := firstEnd |}.

Definition lastWindow (offset limit totalCount : Z) : res window :=
  lastStart ← (if offset <? totalCount then
                 q ← go_div (wrap64 (wrap64 (totalCount - offset) - 1)) limit;
                 Ok (wrap64 (offset + wrap64 (q * limit)))
               else
                 q ← go_div (wrap64 (offset - totalCount)) limit;
                 Ok (wrap64 (offset - wrap64 (wrap64 (q + 1) * limit))));
  Ok (cut_at_zero lastStart limit).

(** The [format] closure and the Sprintf of one link. *)
Definition format_additional (additional : list string) : string :=
  match additional with [] => "" | _ => "&" +:+ Join additional "&" end.
Definition link_text (path : string) (w : window) (additionalQuery : list string) : string :=
  path +:+ "?page[offset]=" +:+ Itoa (start w) +:+ "&page[limit]=" +:+ Itoa (size w)
  +:+ format_additional additionalQuery.

Record PagingLinks := {
  Prev : option string; Next : option string; First : option string; Last : option string;
}.

Definition setPagingLinks (links : PagingLinks) (path : string)
    (currentCount offset limit totalCount : Z) (additionalQuery : list string)
    : res PagingLinks :=
  let text w := link_text path w additionalQuery in
  prev ← prevWindow offset limit totalCount;
  let next := nextWindow currentCount offset limit totalCount in
  first ← firstWindow offset limit;
  last ← lastWindow offset limit totalCount;
  Ok {| Prev := match prev with Some w => Some (text w) | None => Prev links end;
        Next := match next with Some w => Some (text w) | None => Next links end;
        First := Some (text first);
        Last := Some (text last) |}.

Definition parseInts (s : option string) : res (list Z) :=
  match s with
  | None => Ok []
  | Some "" => Ok []
  | Some s => mapM (λ v, with_stack (Atoi v)) (Split s ","%char)
  end.

Definition parseLimit (pageParameter : option string) : res (option Z * Z) :=
  params ← with_stack (parseInts pageParameter);
  match params with
  | s :: l :: _ => Ok (Some s, l)
  | [l] => Ok (None, l)
  | [] => Ok (None, 100)
  end.

(** ** Lemmas *)

Lemma Atoi_in_int s z : Atoi s = Ok z → in_int z.
Proof.
  unfold Atoi. case_match; [|done].
  destruct (in_intb _) eqn:E; [|done]. intros [= <-]. by apply in_intb_spec.
Qed.

(** Ranges for which no intermediate computation of the links overflows. *)
Definition sane (offset limit totalCount : Z) : Prop :=
  0 ≤ offset < 2 ^ 61 ∧ 0 < limit ≤ 500 ∧ 0 ≤ totalCount < 2 ^ 61.

Lemma wrap64_small z : - 2 ^ 62 ≤ z ≤ 2 ^ 62 → wrap64 z = z.
Proof. intros. apply wrap64_id. unfold in_int, int_min, int_max. lia. Qed.

Lemma quot_bounds a b : 0 ≤ a → 0 < b → 0 ≤ Z.quot a b ≤ a ∧
  b * Z.quot a b ≤ a < b * Z.quot a b + b.
Proof.
  intros Ha Hb. rewrite Z.quot_div_nonneg by lia.
  pose proof (Z.div_mod a b ltac:(lia)). pose proof (Z.mod_pos_bound a b Hb).
  pose proof (Z.div_pos a b Ha Hb). nia.
Qed.

Lemma go_div_sane a b : 0 ≤ a < 2 ^ 62 → 0 < b → go_div a b = Ok (Z.quot a b).
Proof.
  intros Ha Hb. apply go_div_ok; [lia|].
  pose proof (quot_bounds a b ltac:(lia) Hb). unfold in_int, int_min, int_max. lia.
Qed.

(** The closed forms of the windows in the absence of overflow. *)
Lemma lastWindow_sane offset limit total :
  sane offset limit total →
  lastWindow offset limit total = Ok (cut_at_zero
    (if offset <? total then offset + Z.quot (total - offset - 1) limit * limit
     else offset - (Z.quot (offset - total) limit + 1) * limit) limit).
Proof.
  intros (Ho & Hl & Ht). unfold lastWindow. destruct (Z.ltb_spec offset total).
  - rewrite (wrap64_small (total - offset)) by lia.
    rewrite (wrap64_small (total - offset - 1)) by lia.
    rewrite go_div_sane by lia. simpl.
    pose proof (quot_bounds (total - offset - 1) limit ltac:(lia) ltac:(lia)).
    rewrite (wrap64_small (_ * _)) by nia. rewrite wrap64_small by nia. done.
  - rewrite (wrap64_small (offset - total)) by lia.
    rewrite go_div_sane by lia. simpl.
    pose proof (quot_bounds (offset - total) limit ltac:(lia) ltac:(lia)).
    rewrite (wrap64_small (Z.quot _ _ + 1)) by nia.
    rewrite (wrap64_small (_ * _)) by nia. rewrite wrap64_small by nia. done.
Qed.

Lemma prevWindow_sane offset limit total :
  sane offset limit total → 0 < offset → 0 < total →
  prevWindow offset limit total = Ok (Some (cut_at_zero
    (if offset <=? total then offset - limit
     else offset - (Z.quot (offset - total) limit + 1) * limit) limit)).
Proof.
  intros (Ho & Hl & Ht) H1 H2. unfold prevWindow.
  rewrite (proj2 (Z.ltb_lt _ _) H1), (proj2 (Z.ltb_lt _ _) H2). simpl.
  destruct (Z.leb_spec offset total); simpl.
  - rewrite wrap64_small by lia. done.
  - rewrite (wrap64_small (offset - total)) by lia.
    rewrite go_div_sane by lia. simpl.
    pose proof (quot_bounds (offset - total) limit ltac:(lia) ltac:(lia)).
    rewrite (wrap64_small (Z.quot _ _ + 1)) by nia.
    rewrite (wrap64_small (_ * _)) by nia. rewrite wrap64_small by nia. done.
Qed.

Lemma cut_at_zero_end st limit :
  - limit ≤ st < 2 ^ 62 → 0 < limit ≤ 500 →
  let w := cut_at_zero st limit in
  start w = Z.max 0 st ∧ start w + size w = st + limit.
Proof.
  intros Hs Hl. unfold cut_at_zero. destruct (Z.ltb_spec st 0); simpl.
  - rewrite wrap64_small by lia. lia.
  - lia.
Qed.

(** ** Properties *)

Lemma limits_in_range offsetParam limitParam :
  let '(offset, limit) := computePagingLimits offsetParam limitParam in
  0 ≤ offset ≤ int_max ∧ 1 ≤ limit ≤ PageSizeMax
  ∧ (∀ p v, offsetParam = Some p → Atoi p = Ok v → 0 ≤ v → offset = v)
  ∧ (∀ l, limitParam = Some l → 1 ≤ l ≤ PageSizeMax → limit = l).
Proof.
  unfold computePagingLimits, pageSizeDefault, PageSizeMax.
  assert (Hoff : in_int match offsetParam with
                 | None => 0 | Some p => match Atoi p with Ok v => v | _ => 0 end end).
  { destruct offsetParam as [p|]; [|done].
    destruct (Atoi p) eqn:E; [by eapply Atoi_in_int|done|done]. }
  split_and!.
  - unfold in_int in Hoff. destruct (Z.ltb_spec (match offsetParam with
      | None => 0 | Some p => match Atoi p with Ok v => v | _ => 0 end end) 0); lia.
  - unfold in_int in Hoff. destruct (Z.ltb_spec (match offsetParam with
      | None => 0 | Some p => match Atoi p with Ok v => v | _ => 0 end end) 0);
      [unfold int_max; lia|lia].
  - destruct limitParam as [l|]; repeat case_match; z_bool; lia.
  - destruct limitParam as [l|]; repeat case_match; z_bool; lia.
  - intros p v -> -> Hv. simpl. by rewrite (proj2 (Z.ltb_ge v 0) Hv).
  - intros l -> Hl. repeat case_match; z_bool; lia.
Qed.
(** whatever the request parameters, computePagingLimits returns an offset that is a
    non-negative int and a limit between 1 and 500; parameters already in range are kept. *)
Theorem computePagingLimits_bounds offsetParam limitParam :
  let '(offset, limit) := computePagingLimits offsetParam limitParam in
  0 ≤ offset ≤ int_max ∧ 1 ≤ limit ≤ PageSizeMax
  ∧ (∀ p v, offsetParam = Some p → Atoi p = Ok v → 0 ≤ v → offset = v)
  ∧ (∀ l, limitParam = Some l → 1 ≤ l ≤ PageSizeMax → limit = l).
Proof. by apply limits_in_range. Qed.

(** for a non-empty result the "last" link denotes a window that contains the last item:
    it starts inside the result, ends no earlier than its end, and both ends are whole pages
    away from the requested offset unless the window was cut at 0. *)
Theorem lastWindow_covers offset limit total :
  sane offset limit total → 0 < total →
  ∃ w, lastWindow offset limit total = Ok w ∧
    0 ≤ start w < total ∧ total ≤ start w + size w ≤ total + limit - 1 ∧
    size w ≤ limit ∧ (start w + size w - offset) mod limit = 0.
Proof.
  intros Hs Ht. rewrite lastWindow_sane by done. eexists; split; [done|].
  destruct Hs as (Ho & Hl & Ht').
  destruct (Z.ltb_spec offset total).
  - pose proof (quot_bounds (total - offset - 1) limit ltac:(lia) ltac:(lia)).
    destruct (cut_at_zero_end (offset + Z.quot (total - offset - 1) limit * limit) limit)
      as [H1 H2]; [nia|lia|]. rewrite H2.
    replace (offset + Z.quot (total - offset - 1) limit * limit + limit - offset)
      with ((Z.quot (total - offset - 1) limit + 1) * limit) by ring.
    rewrite Z.mod_mul by lia. split_and!; nia.
  - pose proof (quot_bounds (offset - total) limit ltac:(lia) ltac:(lia)).
    destruct (cut_at_zero_end (offset - (Z.quot (offset - total) limit + 1) * limit) limit)
      as [H1 H2]; [nia|lia|]. rewrite H2.
    replace (offset - (Z.quot (offset - total) limit + 1) * limit + limit - offset)
      with (- Z.quot (offset - total) limit * limit) by ring.
    rewrite Z.mod_mul by lia. split_and!; nia.
Qed.
Lemma lastWindow_covers_witness :
  ∃ w, lastWindow 7 5 33 = Ok w ∧ 0 ≤ start w < 33 ∧ 33 ≤ start w + size w ≤ 33 + 5 - 1 ∧
    size w ≤ 5 ∧ (start w + size w - 7) mod 5 = 0.
Proof. apply (lastWindow_covers 7 5 33); [unfold sane; lia|lia]. Defined.

(** a "prev" link exists exactly when something precedes the offset; inside the result it
    denotes the page that ends where the current one starts, and beyond its end the window
    ends within the last page of the result. *)
Theorem prevWindow_adjacent offset limit total :
  sane offset limit total →
  match prevWindow offset limit total with
  | Ok None => offset = 0 ∨ total = 0
  | Ok (Some w) =>
      0 < offset ∧ 0 < total ∧ 0 ≤ start w < total ∧ 0 < size w ≤ limit ∧
      (offset ≤ total → start w + size w = offset) ∧
      (total < offset → total ≤ start w + size w < total + limit)
  | _ => False
  end.
Proof.
  intros Hs. pose proof Hs as (Ho & Hl & Ht).
  destruct (decide (0 < offset ∧ 0 < total)) as [[H1 H2]|Hn].
  - rewrite prevWindow_sane by done. destruct (Z.leb_spec offset total).
    + destruct (cut_at_zero_end (offset - limit) limit) as [H3 H4]; [lia|lia|].
      split_and!; lia.
    + pose proof (quot_bounds (offset - total) limit ltac:(lia) ltac:(lia)).
      destruct (cut_at_zero_end (offset - (Z.quot (offset - total) limit + 1) * limit) limit)
        as [H3 H4]; [nia|lia|].
      split_and!; nia.
  - unfold prevWindow. destruct (Z.ltb_spec 0 offset), (Z.ltb_spec 0 total); simpl; lia.
Qed.
Lemma prevWindow_adjacent_witness :
  match prevWindow 3 5 33 with
  | Ok None => 3 = 0 ∨ 33 = 0
  | Ok (Some w) =>
      0 < 3 ∧ 0 < 33 ∧ 0 ≤ start w < 33 ∧ 0 < size w ≤ 5 ∧
      (3 ≤ 33 → start w + size w = 3) ∧ (33 < 3 → 33 ≤ start w + size w < 33 + 5)
  | _ => False
  end.
Proof. apply (prevWindow_adjacent 3 5 33). unfold sane; lia. Defined.

(** setPagingLinks never panics on the limits computePagingLimits produces, and always
    fills the first and last links. *)
Theorem setPagingLinks_total offsetParam limitParam links path currentCount total q :
  let '(offset, limit) := computePagingLimits offsetParam limitParam in
  ∃ r, setPagingLinks links path currentCount offset limit total q = Ok r
       ∧ is_Some (First r) ∧ is_Some (Last r).
Proof.
  pose proof (limits_in_range offsetParam limitParam) as H.
  destruct (computePagingLimits offsetParam limitParam) as [offset limit].
  destruct H as (_ & Hl & _).
  assert (Hd : ∀ a, ∃ b, go_div a limit = Ok b ∧ ∃ c, go_rem a limit = Ok c).
  { intros a. unfold go_div, go_rem. destruct (Z.eqb_spec limit 0); [lia|].
    eexists; split; [done|]. by eexists. }
  unfold setPagingLinks, prevWindow, firstWindow, lastWindow.
  destruct (Hd (wrap64 (offset - total))) as (b1 & E1 & _).
  destruct (Hd (wrap64 (wrap64 (total - offset) - 1))) as (b2 & E2 & _).
  destruct (Hd offset) as (_ & _ & c & E3).
  rewrite E1, E2, E3.
  repeat (case_match; simpl in *; simplify_eq); eexists; split; eauto.
Qed.

(** for every offset that is a positive multiple of the limit the "first" link asks
    for a page of size zero, which the server reads back as its default page size. *)
Theorem firstWindow_aligned_is_empty offset limit k :
  0 < limit ≤ 500 → 0 < k → offset = k * limit →
  firstWindow offset limit = Ok {| start := 0; size := 0 |}
  ∧ (computePagingLimits (Some (Itoa 0)) (Some 0)).2 = pageSizeDefault.
Proof.
  intros Hl Hk ->. unfold firstWindow, go_rem.
  rewrite (proj2 (Z.ltb_lt 0 (k * limit))) by nia.
  rewrite (proj2 (Z.eqb_neq limit 0)) by lia. simpl.
  rewrite Z.rem_mul by lia. done.
Qed.
Lemma firstWindow_aligned_witness :
  firstWindow 40 10 = Ok {| start := 0; size := 0 |}
  ∧ (computePagingLimits (Some (Itoa 0)) (Some 0)).2 = pageSizeDefault.
Proof. apply (firstWindow_aligned_is_empty 40 10 4); lia. Defined.

End Paging.
