(* ===== verification/Path.v ===== *)
(** * Materialised paths

    [path/path.go]: the list of ancestor ids of an iteration or area and its
    four textual forms (service form, ltree form, database value, JSON). *)

From Stdlib Require Import ZArith Lia Ascii String.
From S2P Require Export Prelude.

Module Path.
Section Path.
Context `{HO : UuidOps}.

Notation Path := (list uuid).

Definition SepInService : string := "/".
Definition SepInDatabase : string := ".".

Definition IsEmpty (p : Path) : bool := Nat.eqb (length p) 0.

Definition This (p : Path) : uuid :=
  if negb (IsEmpty p) then default uuid_Nil (p !! (length p - 1)%nat) else uuid_Nil.

Definition ParentID (p : Path) : uuid :=
  if Nat.ltb 1 (length p) then default uuid_Nil (p !! (length p - 2)%nat) else uuid_Nil.

Definition ParentPath (p : Path) : Path :=
  if Nat.ltb 1 (length p) then take (length p - 1) p else [].

Definition Root (p : Path) : Path :=
  match p with u :: _ => [u] | [] => [uuid_Nil] end.

(** The ltree form: canonical ids joined with dots, dashes replaced. *)
Definition Convert (p : Path) : string :=
  match p with
  | [] => ""
  | _ => replace_char "-" "_" (Join (map uuid_String p) SepInDatabase)
  end.

Definition PathString (p : Path) : string :=
  match p with
  | [] => SepInService
  | _ => SepInService +:+ Join (map uuid_String p) SepInService
  end.

Definition ConvertToLtree (id : uuid) : string := replace_char "-" "_" (uuid_String id).

Definition convertFromLtree (uuidStr : string) : res Path :=
  let converted := replace_char "_" "-" uuidStr in
  let parts := Split converted "."%char in
  mapM (λ x, match uuid_FromString x with
             | Some id => Ok id
             | None => Err (Plain "uuid: incorrect UUID") end) parts.

Definition Value (p : Path) : string := Join (map ConvertToLtree p) SepInDatabase.

(** What the database driver hands to [Scan]. *)
Inductive dbvalue := DbNil | DbBytes (b : string) | DbString (s : string).

(** [string(m)] of a byte: the UTF-8 encoding of the code point it denotes. *)
Definition utf8_of_byte (c : ascii) : list ascii :=
  let n := nat_of_ascii c in
  if Nat.ltb n 128 then [c]
  else [ascii_of_nat (192 + n / 64); ascii_of_nat (128 + n mod 64)].

(** [driver.String.ConvertValue] accepts every value and returns strings and
    byte slices unchanged; the unchecked type assertion that follows panics on
    anything but a byte slice.  A path that does not parse is read as empty. *)
Definition Scan (value : dbvalue) : res Path :=
  match value with
  | DbNil => Ok []
  | DbString _ => Panic "interface conversion: string is not []uint8"
  | DbBytes b =>
      let v := of_chars (concat (map utf8_of_byte (chars b))) in
      match convertFromLtree v with
      | Ok all => Ok all
      | Err _ => Ok []
      | Panic s => Panic s
      end
  end.

(** The JSON object MarshalJSON writes: its members in order, and their text. *)
Definition MarshalMembers (p : Path) : list (string * string) :=
  imap (λ key value, (Itoa (Z.of_nat key), uuid_String value)) p.
Definition MarshalJSON (p : Path) : string :=
  "{" +:+ Join (map (λ kv, dquote +:+ fst kv +:+ dquote +:+ ":" +:+ dquote +:+ snd kv +:+ dquote) (MarshalMembers p)) ","
  +:+ "}".

(** UnmarshalJSON decodes the object into a map and appends the value of each
    entry in the order the runtime iterates the map: [entries] is that order. *)
Fixpoint UnmarshalEntries (p : Path) (entries : list (string * string)) : res Path :=
  match entries with
  | [] => Ok p
  | (_, value) :: entries =>
      match uuid_FromString value with
      | Some id => UnmarshalEntries (p ++ [id]) entries
      | None => Err (Plain "uuid: incorrect UUID")
      end
  end.

Definition ToExpression (p : Path) (this : uuid) : string :=
  let converted := replace_char "-" "_" (uuid_String this) in
  let existingPath := Convert p in
  if String.eqb existingPath "" then converted
  else Convert p +:+ "." +:+ converted.

(** ** Lemmas *)


Lemma replace_char_app o n s t :
  replace_char o n (s +:+ t) = replace_char o n s +:+ replace_char o n t.
Proof.
  apply chars_inj. rewrite chars_app, !replace_char_chars, chars_app. apply map_app.
Qed.
Lemma replace_char_Join o n l sep :
  replace_char o n sep = sep →
  replace_char o n (Join l sep) = Join (map (replace_char o n) l) sep.
Proof.
  intros Hs. induction l as [|s [|t l] IH]; [done|done|].
  rewrite Join_cons. simpl map. rewrite Join_cons, !replace_char_app, Hs.
  simpl map in IH. by rewrite IH.
Qed.

(** The two database renderings agree. *)
Lemma Convert_Value p : Convert p = Value p.
Proof.
  destruct p as [|u p]; [done|]. unfold Convert, Value.
  rewrite replace_char_Join by done. by rewrite map_map.
Qed.


Section Laws.
Context {HL : UuidLaws}.

Lemma uuid_char u c : c ∈ chars (uuid_String u) → canonical_char c = true.
Proof.
  intros Hc. pose proof (uuid_canonical u) as HF. rewrite forallb_forall in HF.
  apply HF. by apply list_elem_of_In.
Qed.
Lemma uuid_no_char u c : canonical_char c = false → c ∉ chars (uuid_String u).
Proof. intros Hc Hin%uuid_char. congruence. Qed.
Lemma uuid_String_nonempty u : uuid_String u ≠ "".
Proof. intros E. pose proof (uuid_round u) as R. rewrite E, uuid_empty in R. done. Qed.

Lemma ltree_char u c : c ∈ chars (ConvertToLtree u) → c = "_"%char ∨ canonical_char c = true.
Proof.
  unfold ConvertToLtree. rewrite replace_char_chars. intros Hc.
  apply list_elem_of_In, in_map_iff in Hc as (d & <- & Hd).
  case_bool_decide; [by left|right]. by eapply uuid_char, list_elem_of_In.
Qed.
Lemma ltree_back u : replace_char "_" "-" (ConvertToLtree u) = uuid_String u.
Proof. apply replace_char_back. by apply uuid_no_char. Qed.

Lemma ConvertToLtree_inj u v : ConvertToLtree u = ConvertToLtree v → u = v.
Proof. intros E. apply uuid_String_inj. by rewrite <- (ltree_back u), E, ltree_back. Qed.
Lemma map_ltree_inj p q : map ConvertToLtree p = map ConvertToLtree q → p = q.
Proof.
  revert q; induction p as [|u p IH]; intros [|v q] E; simplify_eq/=; [done|]. f_equal; [by apply ConvertToLtree_inj|by apply IH].
Qed.

Lemma mapM_from_strings p :
  mapM (λ x, match uuid_FromString x with
             | Some id => Ok id
             | None => Err (Plain "uuid: incorrect UUID") end) (map uuid_String p) = Ok p.
Proof. apply mapM_ok. induction p; simpl; constructor; [by rewrite uuid_round|done]. Qed.

Lemma convertFromLtree_Value p : p ≠ [] → convertFromLtree (Value p) = Ok p.
Proof.
  intros Hp. unfold convertFromLtree, Value. rewrite replace_char_Join by done.
  rewrite map_map, (map_ext _ _ ltree_back).
  unfold SepInDatabase. rewrite Split_Join; [apply mapM_from_strings|by destruct p|].
  apply Forall_forall. intros s (u & <- & _)%list_elem_of_In%in_map_iff.
  by apply uuid_no_char.
Qed.

Lemma ascii_low c : canonical_char c = true ∨ c = "_"%char ∨ c = "."%char →
  utf8_of_byte c = [c].
Proof.
  unfold utf8_of_byte. intros Hc. destruct (Nat.ltb_spec (nat_of_ascii c) 128) as [|Hn]; [done|].
  exfalso. destruct Hc as [Hc|[->| ->]]; [|vm_compute in Hn; lia..].
  unfold canonical_char in Hc.
  rewrite !orb_true_iff, !andb_true_iff, !Nat.leb_le, bool_decide_eq_true in Hc.
  destruct Hc as [[[]|[]]| ->]; [lia|lia|vm_compute in Hn; lia].
Qed.
Lemma utf8_ascii l :
  Forall (λ c, utf8_of_byte c = [c]) l → concat (map utf8_of_byte l) = l.
Proof. induction 1 as [|c l Hc _ IH]; [done|]. simpl. by rewrite Hc, IH. Qed.

Lemma chars_Join (P : ascii → Prop) l sep :
  Forall P (chars sep) → Forall (λ s, Forall P (chars s)) l → Forall P (chars (Join l sep)).
Proof.
  intros Hsep. induction 1 as [|s l Hs HF IH]; [constructor|].
  destruct l as [|t l]; [done|]. rewrite Join_cons, !chars_app. by rewrite !Forall_app.
Qed.

Lemma Value_ascii p : Forall (λ c, utf8_of_byte c = [c]) (chars (Value p)).
Proof.
  unfold Value. apply chars_Join.
  - repeat constructor.
  - apply Forall_map, Forall_forall. intros u _. apply Forall_forall.
    intros c [->|Hc]%ltree_char; apply ascii_low; auto.
Qed.

(** ** Properties *)

(** what Value writes to the database, Scan reads back: the path survives the round trip,
    the empty path included, whatever UUID printer and parser satisfy their documented laws. *)
Theorem Scan_Value p : Scan (DbBytes (Value p)) = Ok p.
Proof.
  unfold Scan. rewrite utf8_ascii by apply Value_ascii. rewrite of_chars_chars.
  destruct p as [|u p].
  - unfold Value, convertFromLtree. simpl. by rewrite uuid_empty.
  - by rewrite convertFromLtree_Value.
Qed.

(** the ltree expression built for a child of a path is the ltree form of the extended path,
    so the path stored for a child is found under the expression of its parents. *)
Theorem ToExpression_Convert p this : ToExpression p this = Convert (p ++ [this]).
Proof.
  unfold ToExpression. rewrite !Convert_Value. unfold Value. destruct p as [|u p].
  - done.
  - destruct (String.eqb_spec (Join (map ConvertToLtree (u :: p)) SepInDatabase) "") as [E|E].
    + exfalso. assert (Hc : ConvertToLtree u = "").
      { destruct p as [|v p]; [done|]. cbn [map] in E. rewrite Join_cons in E.
        by destruct (ConvertToLtree u). }
      apply (uuid_String_nonempty u). rewrite <- (ltree_back u), Hc. done.
    + rewrite map_app. change (map ConvertToLtree [this]) with [ConvertToLtree this].
      by rewrite Join_snoc.
Qed.

Lemma UnmarshalEntries_values p entries q :
  map snd entries = map uuid_String q → UnmarshalEntries p entries = Ok (p ++ q).
Proof.
  revert p q; induction entries as [|[k v] es IH]; intros p [|u q] Hq; simplify_eq/=.
  - by rewrite app_nil_r.
  - rewrite uuid_round, (IH _ q) by done. by rewrite <- app_assoc.
Qed.

Lemma MarshalMembers_snd p : map snd (MarshalMembers p) = map uuid_String p.
Proof.
  unfold MarshalMembers. rewrite <- (imap_const uuid_String).
  change (map snd) with (fmap (M := list) (@snd string string)).
  by rewrite fmap_imap.
Qed.

(** whatever order the runtime iterates the decoded map in, unmarshalling the JSON form of a
    path succeeds and yields a permutation of the path; and every permutation of the path is
    the result of some iteration order, so the order of the ids is not preserved. *)
Theorem UnmarshalJSON_permutation p :
  (∀ entries, entries ≡ₚ MarshalMembers p → ∃ q, UnmarshalEntries [] entries = Ok q ∧ q ≡ₚ p) ∧
  (∀ q, q ≡ₚ p → ∃ entries, entries ≡ₚ MarshalMembers p ∧ UnmarshalEntries [] entries = Ok q).
Proof.
  split.
  - intros entries Hperm. pose proof (Permutation_map snd Hperm) as Hs.
    rewrite MarshalMembers_snd in Hs.
    apply Permutation_map_inv in Hs as (q & Hq & Hqp).
    exists q. split; [|by symmetry]. by rewrite (UnmarshalEntries_values [] entries q).
  - intros q Hq. pose proof (Permutation_map uuid_String Hq) as Hs.
    rewrite <- (MarshalMembers_snd p) in Hs.
    apply Permutation_map_inv in Hs as (entries & He & Hp).
    exists entries. split; [by symmetry|].
    by rewrite (UnmarshalEntries_values [] entries q) by done.
Qed.

(** a path is its parent path followed by its last id, and the last id of the parent path
    is the parent id. *)
Theorem ParentPath_This p :
  p ≠ [] →
  p = ParentPath p ++ [This p] ∧ (ParentPath p ≠ [] → This (ParentPath p) = ParentID p).
Proof.
  intros Hp. destruct (exists_last Hp) as (q & u & ->).
  assert (HT : ∀ r v, This (r ++ [v]) = v).
  { intros r v. unfold This, IsEmpty. rewrite length_app. simpl length.
    destruct (Nat.eqb_spec (length r + 1) 0); [lia|]. simpl negb. cbv iota.
    replace (length r + 1 - 1)%nat with (length r) by lia.
    by rewrite list_lookup_middle. }
  rewrite HT. unfold ParentPath, ParentID. rewrite length_app. simpl length.
  destruct (Nat.ltb_spec 1 (length q + 1)) as [Hl|Hl]; [|by destruct q; simpl in *; [|lia]].
  replace (length q + 1 - 1)%nat with (length q) by lia. rewrite take_app_length.
  split; [done|]. intros Hq. destruct (exists_last Hq) as (r & v & ->). rewrite HT.
  rewrite length_app. simpl length.
  replace (length r + 1 + 1 - 2)%nat with (length r) by lia.
  rewrite <- app_assoc. simpl app. by rewrite list_lookup_middle.
Qed.
End Laws.
End Path.

Lemma Scan_Value_witness :
  Scan (DbBytes (Value [uuid_of 7; uuid_of 12])) = Ok [uuid_of 7; uuid_of 12].
Proof. apply (Scan_Value (HL := HexUuidLaws)). Defined.
Lemma ToExpression_Convert_witness :
  ToExpression [uuid_of 7] (uuid_of 9) = Convert [uuid_of 7; uuid_of 9].
Proof. apply (ToExpression_Convert (HL := HexUuidLaws) [uuid_of 7]). Defined.
Lemma UnmarshalJSON_permutation_witness :
  ∃ entries, entries ≡ₚ MarshalMembers [uuid_of 1; uuid_of 2]
    ∧ UnmarshalEntries [] entries = Ok [uuid_of 2; uuid_of 1].
Proof.
  apply (UnmarshalJSON_permutation (HL := HexUuidLaws)).
  apply Permutation_swap.
Defined.
Lemma ParentPath_This_witness :
  [uuid_of 1; uuid_of 2] = ParentPath [uuid_of 1; uuid_of 2] ++ [This [uuid_of 1; uuid_of 2]]
  ∧ (ParentPath [uuid_of 1; uuid_of 2] ≠ []
     → This (ParentPath [uuid_of 1; uuid_of 2]) = ParentID [uuid_of 1; uuid_of 2]).
Proof. apply ParentPath_This. done. Defined.
End Path.
