(* ===== verification/Values.v ===== *)
(** * Dynamic values

    Go values of type [interface{}] with the dynamic types the program stores
    in them, the reflection and comparison operations it applies to them, IEEE
    binary64 numbers, and the markup and codebase contents
    ([rendering/markup_content.go], [rendering/markup_render.go],
    [codebase/codebase.go]). *)

From Stdlib Require Import ZArith Lia Ascii String SpecFloat.
From S2P Require Export Prelude.

(** ** float64 *)

Notation float64 := spec_float.

(** [f != math.Trunc(f)] *)
Definition not_whole (f : float64) : bool :=
  match f with
  | S754_nan => true
  | S754_infinity _ | S754_zero _ => false
  | S754_finite _ m e => negb ((0 <=? e) || (Zpos m mod 2 ^ (- e) =? 0))
  end.

(** The conversion to a 64-bit integer: toward zero; a value out of range
    gives the smallest integer, as amd64 does. *)
Definition float_to_int (f : float64) : Z :=
  match f with
  | S754_nan | S754_infinity _ => int_min
  | S754_zero _ => 0
  | S754_finite s m e =>
      let a := if 0 <=? e then Zpos m * 2 ^ e else Zpos m / 2 ^ (- e) in
      let z := if s then - a else a in
      if in_intb z then z else int_min
  end.

(** The value of a float64 scaled by [10^prec], rounded half to even. *)
Definition scaled_round (m e : Z) (prec : nat) : Z :=
  let k := m * 10 ^ Z.of_nat prec in
  if 0 <=? e then k * 2 ^ e
  else let d := 2 ^ (- e) in
       let q := k / d in let r := k mod d in
       if (2 * r <? d) || ((2 * r =? d) && Z.even q) then q else q + 1.

Definition pad_zeros (n : nat) (s : string) : string :=
  of_chars (replicate (n - length (chars s)) "0"%char) +:+ s.

(** [strconv.FormatFloat(f, 'f', prec, 64)] for [prec >= 0] *)
Definition FormatFloat (f : float64) (prec : nat) : string :=
  let sign (s : bool) := if s then "-" else "" in
  let text s m e :=
    let n := scaled_round m e prec in
    let p := 10 ^ Z.of_nat prec in
    sign s +:+ Itoa (n / p) +:+
    (match prec with O => "" | _ => "." +:+ pad_zeros prec (Itoa (n mod p)) end) in
  match f with
  | S754_nan => "NaN"
  | S754_infinity s => (if s then "-" else "+") +:+ "Inf"
  | S754_zero s => text s 0 0
  | S754_finite s m e => text s (Zpos m) e
  end.

(** ** Contents of structured fields *)

(** [rendering.MarkupContent] *)
Record MarkupContent := { Content_ : string; Markup : string }.

(** [codebase.Content] *)
Record Content := {
  Repository : string; Branch : string; FileName : string;
  LineNumber : Z; CodebaseID : string;
}.

(** ** interface{} *)

Inductive gval :=
  | VNil
  | VString (s : string)
  | VNamedString (ty s : string)       (* a defined type whose kind is string *)
  | VInt (z : Z) | VInt64 (z : Z)
  | VUint (z : Z) | VUint8 (z : Z) | VUint64 (z : Z)
  | VFloat64 (f : float64)
  | VBool (b : bool)
  | VUUID (u : uuid)
  | VTime (nanos : Z)                  (* time.Time, by its UnixNano *)
  | VStruct (ty : string)              (* a value of any other struct type *)
  | VMarkup (c : MarkupContent)
  | VCodebase (c : Content)
  | VMap (m : list (string * gval))    (* map[string]interface{} *)
  | VNilSlice                          (* a nil []interface{} *)
  | VSlice (l : list gval)             (* []interface{} *)
  | VStrings (l : list string).        (* []string *)

(** [reflect.Kind] *)
Inductive rkind :=
  | RString | RInt | RInt64 | RUint | RUint8 | RUint64 | RFloat64 | RBool
  | RStruct | RArray | RSlice | RMap.
#[export] Instance rkind_eq_dec : EqDecision rkind.
Proof. solve_decision. Defined.

(** [reflect.TypeOf(v).Kind()]; a UUID is an array of 16 bytes. *)
Definition kind_of (v : gval) : option rkind :=
  match v with
  | VNil => None
  | VString _ | VNamedString _ _ => Some RString
  | VInt _ => Some RInt | VInt64 _ => Some RInt64
  | VUint _ => Some RUint | VUint8 _ => Some RUint8 | VUint64 _ => Some RUint64
  | VFloat64 _ => Some RFloat64 | VBool _ => Some RBool
  | VUUID _ => Some RArray
  | VTime _ | VStruct _ | VMarkup _ | VCodebase _ => Some RStruct
  | VMap _ => Some RMap
  | VNilSlice | VSlice _ | VStrings _ => Some RSlice
  end.
Definition has_kind (v : gval) (k : rkind) : bool := bool_decide (kind_of v = Some k).

(** The elements of an array or slice value, each boxed. *)
Definition uuid_bytes (u : uuid) : list gval :=
  map (λ i, VUint8 (Z.of_N ((uuid_bits u / 2 ^ (8 * (15 - N.of_nat i))) mod 256))) (seq 0 16).
Definition elements_of (v : gval) : list gval :=
  match v with
  | VSlice l => l
  | VStrings l => map VString l
  | VUUID u => uuid_bytes u
  | _ => []
  end.

(** [map[key]] *)
Fixpoint map_get (m : list (string * gval)) (k : string) : option gval :=
  match m with
  | [] => None
  | (k', v) :: m => if String.eqb k k' then Some v else map_get m k
  end.

(** [a == b] on interface values: false on different dynamic types, a panic
    on two maps or two slices. *)
Definition iface_eq (a b : gval) : res bool :=
  match a, b with
  | VNil, VNil => Ok true
  | VString s, VString t => Ok (String.eqb s t)
  | VNamedString x s, VNamedString y t => Ok (String.eqb x y && String.eqb s t)
  | VInt x, VInt y | VInt64 x, VInt64 y | VUint x, VUint y | VUint8 x, VUint8 y
  | VUint64 x, VUint64 y | VTime x, VTime y => Ok (x =? y)
  | VFloat64 x, VFloat64 y => Ok (SFeqb x y)
  | VBool x, VBool y => Ok (Bool.eqb x y)
  | VUUID x, VUUID y => Ok (bool_decide (x = y))
  | VStruct x, VStruct y => Ok (String.eqb x y)
  | VMarkup x, VMarkup y =>
      Ok (String.eqb (Content_ x) (Content_ y) && String.eqb (Markup x) (Markup y))
  | VCodebase x, VCodebase y =>
      Ok (String.eqb (Repository x) (Repository y) && String.eqb (Branch x) (Branch y)
          && String.eqb (FileName x) (FileName y) && (LineNumber x =? LineNumber y)
          && String.eqb (CodebaseID x) (CodebaseID y))
  | VMap _, VMap _ => Panic "runtime error: comparing uncomparable type map[string]interface {}"
  | (VNilSlice | VSlice _), (VNilSlice | VSlice _) =>
      Panic "runtime error: comparing uncomparable type []interface {}"
  | VStrings _, VStrings _ => Panic "runtime error: comparing uncomparable type []string"
  | _, _ => Ok false
  end.

(** [reflect.DeepEqual] *)
Fixpoint deep_equal (a b : gval) {struct a} : bool :=
  match a, b with
  | VMap m, VMap n =>
      Nat.eqb (length m) (length n) &&
      (fix go (m : list (string * gval)) : bool :=
         match m with
         | [] => true
         | (k, v) :: m => match map_get n k with
                          | Some w => deep_equal v w && go m
                          | None => false end
         end) m
  | VSlice l, VSlice k =>
      (fix go (l k : list gval) : bool :=
         match l, k with
         | [], [] => true
         | x :: l, y :: k => deep_equal x y && go l k
         | _, _ => false
         end) l k
  | VNilSlice, VNilSlice => true
  | VStrings l, VStrings k => bool_decide (l = k)
  | _, _ => match iface_eq a b with Ok r => r | _ => false end
  end.
Definition deep_equal_list (l k : list gval) : bool := deep_equal (VSlice l) (VSlice k).

(** ** Markup contents *)

Definition SystemMarkupPlainText : string := "PlainText".
Definition SystemMarkupMarkdown : string := "Markdown".
Definition SystemMarkupDefault : string := SystemMarkupPlainText.
Definition ContentKey : string := "content".
Definition MarkupKey : string := "markup".

Definition IsMarkupSupported (markup : string) : bool :=
  String.eqb markup SystemMarkupDefault || String.eqb markup SystemMarkupMarkdown.

Definition MarkupContent_ToMap (c : MarkupContent) : gval :=
  VMap [(ContentKey, VString (Content_ c));
        (MarkupKey, VString (if String.eqb (Markup c) "" then SystemMarkupDefault else Markup c))].

(** The unchecked assertions of the code panic on a missing or ill-typed key. *)
Definition as_string (v : option gval) : res string :=
  match v with Some (VString s) => Ok s | _ => Panic "interface conversion" end.

Definition NewMarkupContentFromMap (value : list (string * gval)) : res MarkupContent :=
  content ← as_string (map_get value ContentKey);
  match map_get value MarkupKey with
  | None => Ok {| Content_ := content; Markup := SystemMarkupDefault |}
  | Some m =>
      markup ← as_string (Some m);
      Ok {| Content_ := content;
            Markup := if IsMarkupSupported markup then markup else SystemMarkupDefault |}
  end.

Definition NewMarkupContentFromLegacy (content : string) : MarkupContent :=
  {| Content_ := content; Markup := SystemMarkupDefault |}.
Definition NewMarkupContent (content markup : string) : MarkupContent :=
  {| Content_ := content; Markup := markup |}.

Definition NewMarkupContentFromValue (value : gval) : res (option MarkupContent) :=
  match value with
  | VString s => Ok (Some (NewMarkupContentFromLegacy s))
  | VMarkup c => Ok (Some c)
  | VMap m => c ← NewMarkupContentFromMap m; Ok (Some c)
  | _ => Ok None
  end.

Definition NilSafeGetMarkup (markup : option string) : string :=
  match markup with
  | Some m => if String.eqb m "" then SystemMarkupDefault else m
  | None => SystemMarkupDefault
  end.

(** ** Codebase contents *)

Definition RepositoryKey : string := "repository".
Definition BranchKey : string := "branch".
Definition FileNameKey : string := "filename".
Definition LineNumberKey : string := "linenumber".
Definition CodebaseIDKey : string := "codebaseid".

Definition Content_ToMap (c : Content) : gval :=
  VMap [(RepositoryKey, VString (Repository c)); (BranchKey, VString (Branch c));
        (FileNameKey, VString (FileName c)); (LineNumberKey, VInt (LineNumber c));
        (CodebaseIDKey, VString (CodebaseID c))].

(** [(?:git|ssh|https?|git@[-\w.]+):(\/\/)?(.*?)(\.git)(\/?|\#[-\d\w._]+?)$]:
    a scheme and a colon somewhere, then anything without a line feed up to a
    final [.git], [.git/] or [.git#fragment]. *)
Definition word_char (c : ascii) : bool :=
  let n := nat_of_ascii c in
  (Nat.leb 48 n && Nat.leb n 57) || (Nat.leb 65 n && Nat.leb n 90)
  || (Nat.leb 97 n && Nat.leb n 122) || bool_decide (c = "_"%char).
Definition url_class (c : ascii) : bool :=
  word_char c || bool_decide (c = "-"%char) || bool_decide (c = "."%char).
Definition no_newline (l : list ascii) : bool :=
  forallb (λ c, negb (bool_decide (c = ascii_of_nat 10))) l.
Definition after_prefix (p : string) (l : list ascii) : option (list ascii) :=
  if is_prefix (chars p) l then Some (drop (length (chars p)) l) else None.
Definition scheme_at (l : list ascii) : bool :=
  existsb (λ p, match after_prefix p l with Some r => no_newline r | None => false end)
          ["git:"; "ssh:"; "http:"; "https:"]
  || match after_prefix "git@" l with
     | Some r =>
         match drop_while url_class r with
         | ":"%char :: r' => negb (Nat.eqb (length r') (length r - 1)) && no_newline r'
         | _ => false
         end
     | None => false
     end.
Fixpoint suffixes (l : list ascii) : list (list ascii) :=
  l :: match l with [] => [] | _ :: l' => suffixes l' end.
Definition repo_tail (l : list ascii) : bool :=
  match l with
  | [] => true
  | ["/"%char] => true
  | "#"%char :: (_ :: _) as r => forallb url_class (tail r)
  | _ => false
  end.
Definition git_url (s : string) : bool :=
  let l := chars s in
  existsb (λ k, match after_prefix ".git" (drop k l) with
                | Some t => repo_tail t && existsb scheme_at (suffixes (take k l))
                | None => false end) (seq 0 (length l)).

Definition IsRepoValidURL (c : Content) : bool := git_url (Repository c).

Definition Content_IsValid (c : Content) : res unit :=
  if String.eqb (Repository c) ""
  then Err (BadParameterError "system.codebase" "repository is mandatory" None None)
  else if IsRepoValidURL c then Ok tt
  else Err (BadParameterError "system.codebase" "repository is not valid git url" None None).

(** NewCodebaseContent looks at the known keys in a fixed order; a string
    assertion on another type panics, a line number of another type is kept 0. *)
Definition content_string (value : list (string * gval)) (key : string) : res string :=
  match map_get value key with None => Ok "" | Some v => as_string (Some v) end.
Definition NewCodebaseContent (value : list (string * gval)) : res Content :=
  repository ← content_string value RepositoryKey;
  branch ← content_string value BranchKey;
  filename ← content_string value FileNameKey;
  let linenumber := match map_get value LineNumberKey with
                    | Some (VInt n) => n
                    | Some (VFloat64 y) => float_to_int y
                    | _ => 0 end in
  codebaseid ← content_string value CodebaseIDKey;
  let cb := {| Repository := repository; Branch := branch; FileName := filename;
               LineNumber := linenumber; CodebaseID := codebaseid |} in
  _ ← Content_IsValid cb;
  Ok cb.

Definition NewCodebaseContentFromValue (value : gval) : res (option Content) :=
  match value with
  | VCodebase c => Ok (Some c)
  | VMap m => c ← NewCodebaseContent m; Ok (Some c)
  | _ => Ok None
  end.

(** ** Lemmas *)

Lemma IsMarkupSupported_nonempty m : IsMarkupSupported m = true → String.eqb m "" = false.
Proof. unfold IsMarkupSupported. by destruct m. Qed.

(** A supported markup content survives the round trip through its map form. *)
Lemma markup_round c :
  IsMarkupSupported (Markup c) = true →
  MarkupContent_ToMap c = VMap [(ContentKey, VString (Content_ c)); (MarkupKey, VString (Markup c))]
  ∧ NewMarkupContentFromMap [(ContentKey, VString (Content_ c)); (MarkupKey, VString (Markup c))]
    = Ok c.
Proof.
  intros H. split.
  - unfold MarkupContent_ToMap. by rewrite IsMarkupSupported_nonempty.
  - unfold NewMarkupContentFromMap. simpl. rewrite H. by destruct c.
Qed.

Lemma NewMarkupContentFromMap_supported m c :
  NewMarkupContentFromMap m = Ok c → IsMarkupSupported (Markup c) = true.
Proof.
  unfold NewMarkupContentFromMap. rewrite bind_ok. intros (s & _ & H).
  destruct (map_get m MarkupKey) as [v|]; [|by injection H as <-].
  apply bind_ok in H as (t & _ & H). injection H as <-. simpl. by case_match.
Qed.

Lemma codebase_round c :
  Content_IsValid c = Ok tt →
  ∃ m, Content_ToMap c = VMap m ∧ NewCodebaseContent m = Ok c.
Proof.
  intros H. eexists; split; [done|]. unfold NewCodebaseContent. simpl.
  destruct c; simpl in *. by rewrite H.
Qed.

Lemma Content_IsValid_not_panic c s : Content_IsValid c ≠ Panic s.
Proof. unfold Content_IsValid. by repeat case_match. Qed.
