(* ===== verification/FieldTypes.v ===== *)
(** * Field types of work item types

    [workitem/field_definition.go], [workitem/simple_type.go],
    [workitem/enum_type.go], [workitem/list_type.go]: the kinds of fields, the
    three field types and their conversions between API values, stored values
    and text. *)

From Stdlib Require Import ZArith Lia Ascii String SpecFloat.
From S2P Require Export Prelude Values.

(** ** Kinds *)

Inductive Kind :=
  | KindString | KindInteger | KindFloat | KindBoolean | KindInstant | KindURL | KindMarkup
  | KindIteration | KindUser | KindLabel | KindBoardColumn | KindArea | KindCodebase
  | KindRemoteTracker
  | KindEnum | KindList
  | KindUnknown (k : string).     (* any other string of type Kind *)
#[export] Instance Kind_eq_dec : EqDecision Kind.
Proof. solve_decision. Defined.

Definition Kind_String (k : Kind) : string :=
  match k with
  | KindString => "string" | KindInteger => "integer" | KindFloat => "float"
  | KindBoolean => "bool" | KindInstant => "instant" | KindURL => "url"
  | KindMarkup => "markup" | KindIteration => "iteration" | KindUser => "user"
  | KindLabel => "label" | KindBoardColumn => "boardcolumn" | KindArea => "area"
  | KindCodebase => "codebase" | KindRemoteTracker => "remotetracker"
  | KindEnum => "enum" | KindList => "list"
  | KindUnknown k => k
  end.

Definition IsSimpleType (k : Kind) : bool :=
  negb (bool_decide (k = KindEnum)) && negb (bool_decide (k = KindList)).

Definition IsRelational (k : Kind) : bool :=
  match k with
  | KindIteration | KindUser | KindLabel | KindBoardColumn | KindArea
  | KindRemoteTracker | KindCodebase => true
  | _ => false
  end.

Definition all_kinds : list Kind :=
  [KindString; KindInteger; KindFloat; KindInstant; KindURL; KindUser; KindEnum; KindList;
   KindIteration; KindMarkup; KindArea; KindCodebase; KindLabel; KindBoardColumn; KindBoolean;
   KindRemoteTracker].
Definition ConvertStringToKind (k : string) : res Kind :=
  match List.find (λ c, String.eqb (Kind_String c) k) all_kinds with
  | Some kind => Ok kind
  | None => Err (Plain "kind '%s' is not a simple type")
  end.
Definition ConvertAnyToKind (any : gval) : res Kind :=
  match any with
  | VString k => ConvertStringToKind k
  | _ => Err (Plain "kind is not a string value %v")
  end.

(** ** The field types *)

Record SimpleType := { kind : Kind; simple_default : gval }.
Record EnumType := {
  enum_simple : SimpleType;             (* embedded; its default is shadowed *)
  BaseType : SimpleType;
  Values : option (list gval);          (* None is a nil slice *)
  RewritableValues : bool;
  enum_default : gval;
}.
Record ListType := {
  list_simple : SimpleType;
  ComponentType : SimpleType;
  list_default : gval;
}.
Inductive FieldType :=
  | FSimple (t : SimpleType) | FEnum (t : EnumType) | FList (t : ListType).

Definition embedded (t : FieldType) : SimpleType :=
  match t with FSimple t => t | FEnum t => enum_simple t | FList t => list_simple t end.
Definition GetKind (t : FieldType) : Kind := kind (embedded t).

Section Conversions.
Context {HO : UuidOps}.
(** [govalidator.IsURL] *)
Variable IsURL : string → bool.
(** [time.Time.Format(time.RFC3339)] of the instant *)
Variable FormatRFC3339 : Z → string.

Definition AnyToUUID (value : gval) : res uuid :=
  match value with
  | VUUID v => Ok v
  | VString v => match uuid_FromString v with
                 | Some u => Ok u
                 | None => Err (Plain "uuid: incorrect UUID") end
  | _ => Err (Plain "value %+v (%[1]T) should be 'string' or 'uuid'")
  end.

Definition unexpected : error := Plain "value %v (%[1]T) should be %s, but is %s".

(** [valueType.Kind() == reflect.String && govalidator.IsURL(value.(string))] *)
Definition is_url_value (value : gval) : res bool :=
  match value with
  | VString s => Ok (IsURL s)
  | VNamedString _ _ => Panic "interface conversion: interface {} is not string"
  | _ => Ok false
  end.

Definition whole_number : error :=
  Plain "float64 value %+v (%[1]T) has digits after the decimal point and therefore cannot be represented by an integer".

Definition SimpleType_ConvertToModel (t : SimpleType) (value : gval) : res gval :=
  match value with VNil => Ok VNil | _ =>
  match kind t with
  | KindString | KindUser | KindIteration | KindArea | KindLabel | KindBoardColumn =>
      if has_kind value RString then Ok value else Err unexpected
  | KindRemoteTracker => u ← AnyToUUID value; Ok (VUUID u)
  | KindURL => ok ← is_url_value value; if ok : bool then Ok value else Err unexpected
  | KindFloat => if has_kind value RFloat64 then Ok value else Err unexpected
  | KindInteger =>
      match value with
      | VInt _ | VInt64 _ => Ok value
      | VFloat64 f => if not_whole f then Err whole_number else Ok (VInt (float_to_int f))
      | _ => Err unexpected
      end
  | KindInstant =>
      if has_kind value RStruct then
        match value with
        | VTime n => Ok (VInt64 n)
        | _ => Panic "interface conversion: interface {} is not time.Time"
        end
      else Err unexpected
  | KindList =>
      if has_kind value RArray || has_kind value RSlice then Ok value else Err unexpected
  | KindEnum => Ok value
  | KindMarkup =>
      match value with
      | VMarkup c =>
          if IsMarkupSupported (Markup c) then Ok (MarkupContent_ToMap c)
          else Err (Plain "value %v (%[1]T) has no valid markup type %s")
      | VMap m =>
          c ← NewMarkupContentFromMap m;
          if IsMarkupSupported (Markup c) then Ok (MarkupContent_ToMap c)
          else Err (Plain "value %v (%[1]T) has no valid markup type %s")
      | _ => Err unexpected
      end
  | KindCodebase =>
      match value with
      | VCodebase cb =>
          _ ← wrapf "value %v (%[1]T) is invalid %s" (Content_IsValid cb);
          Ok (Content_ToMap cb)
      | _ => Err unexpected
      end
  | KindBoolean => if has_kind value RBool then Ok value else Err unexpected
  | KindUnknown _ => Err (Plain "unexpected type constant: '%s'")
  end end.

Definition value_string (value : gval) : res string :=
  match value with
  | VString s => Ok s
  | _ => Panic "interface conversion: interface {} is not string"
  end.

Definition SimpleType_ConvertToStringSlice (t : SimpleType) (value : gval) : res (list string) :=
  match value with VNil => Ok [""] | _ =>
  match kind t with
  | KindString | KindUser | KindIteration | KindArea | KindLabel | KindBoardColumn =>
      if has_kind value RString then s ← value_string value; Ok [s] else Err unexpected
  | KindRemoteTracker => v ← AnyToUUID value; Ok [uuid_String v]
  | KindURL =>
      ok ← is_url_value value;
      if ok : bool then s ← value_string value; Ok [s] else Err unexpected
  | KindFloat =>
      match value with VFloat64 f => Ok [FormatFloat f 6] | _ => Err unexpected end
  | KindInteger =>
      match value with
      | VInt z | VInt64 z => Ok [Itoa z]
      | VFloat64 f => if not_whole f then Err whole_number else Ok [FormatFloat f 0]
      | _ => Err unexpected
      end
  | KindInstant =>
      if has_kind value RStruct then
        match value with
        | VTime n => Ok [FormatRFC3339 n]
        | _ => Err (Plain "value should be of type 'time.Time' but is of type '%[1]T': %[1]+v")
        end
      else Err unexpected
  | KindBoolean =>
      match value with VBool b => Ok [if b then "true" else "false"] | _ => Err unexpected end
  | KindMarkup =>
      match value with
      | VMarkup c =>
          if IsMarkupSupported (Markup c) then Ok [Content_ c]
          else Err (Plain "value %v (%[1]T) has no valid markup type %s")
      | VMap m =>
          c ← NewMarkupContentFromMap m;
          if IsMarkupSupported (Markup c) then Ok [Content_ c]
          else Err (Plain "value %v (%[1]T) has no valid markup type %s")
      | _ => Err unexpected
      end
  | KindCodebase =>
      match value with
      | VCodebase cb =>
          _ ← wrapf "value %v (%[1]T) is invalid %s" (Content_IsValid cb);
          Ok [Repository cb +:+ "#" +:+ Branch cb +:+ "#" +:+ FileName cb +:+ ":"
              +:+ Itoa (LineNumber cb)]
      | _ => Err unexpected
      end
  | KindEnum | KindList | KindUnknown _ => Err (Plain "unexpected type constant: '%s'")
  end end.

Definition SimpleType_ConvertFromModel (t : SimpleType) (value : gval) : res gval :=
  match value with VNil => Ok VNil | _ =>
  match kind t with
  | KindString | KindURL | KindUser | KindInteger | KindFloat | KindIteration | KindArea
  | KindLabel | KindBoardColumn | KindBoolean => Ok value
  | KindRemoteTracker => u ← AnyToUUID value; Ok (VUUID u)
  | KindInstant =>
      match value with
      | VFloat64 v => if not_whole v then Err (Plain "value %v is not a whole number")
                      else Ok (VTime (float_to_int v))
      | VInt64 v => Ok (VTime v)
      | _ => Err (Plain "value %v must be either %s or %s but has an unknown type %s")
      end
  | KindMarkup =>
      match value with
      | VMap m => c ← NewMarkupContentFromMap m; Ok (VMarkup c)
      | _ => Err unexpected
      end
  | KindCodebase =>
      match value with
      | VMap m => c ← NewCodebaseContent m; Ok (VCodebase c)
      | _ => Err unexpected
      end
  | KindEnum | KindList | KindUnknown _ => Err (Plain "unexpected field type: %s")
  end end.

Definition SimpleType_SetDefaultValue (t : SimpleType) (v : gval) : res SimpleType :=
  match v with
  | VNil => Ok {| kind := kind t; simple_default := VNil |}
  | _ =>
      defVal ← wrapf "failed to set default value of simple type to %+v (%[1]T)"
                 (SimpleType_ConvertToModel t v);
      Ok {| kind := kind t; simple_default := defVal |}
  end.

Definition SimpleType_Validate (t : SimpleType) : res unit :=
  if negb (IsSimpleType (kind t))
  then Err (Plain "a simple type can only have a simple type (e.g. no list or enum)")
  else _ ← wrapf "failed to validate default value for kind %s: %+v (%[1]T)"
             (SimpleType_SetDefaultValue t (simple_default t));
       Ok tt.

(** *** Enumerations *)

(** The loop of [contains] compares with [==] and stops at the first hit. *)
Fixpoint contains (a : list gval) (v : gval) : res bool :=
  match a with
  | [] => Ok false
  | element :: a =>
      eq ← iface_eq element v;
      if eq : bool then Ok true else contains a v
  end.
Fixpoint containsAll_from (result : bool) (a v : list gval) : res bool :=
  match v with
  | [] => Ok result
  | element :: v =>
      r ← (if result then contains a element else Ok false);
      containsAll_from r a v
  end.
Definition containsAll (a v : list gval) : res bool := containsAll_from true a v.

Definition values_of (t : EnumType) : list gval := default [] (Values t).

Definition EnumType_ConvertToModel (t : EnumType) (value : gval) : res gval :=
  converted ← replace_err (Plain "error converting enum value: %s")
                (SimpleType_ConvertToModel (BaseType t) value);
  ok ← contains (values_of t) converted;
  if ok : bool then Ok converted
  else Err (Plain "value: %+v (%[1]T) is not part of allowed enum values: %+v").

Definition EnumType_ConvertFromModel (t : EnumType) (value : gval) : res gval :=
  match value with VNil => Ok VNil | _ =>
  converted ← replace_err (Plain "error converting enum value: %s")
                (SimpleType_ConvertFromModel (BaseType t) value);
  ok ← contains (values_of t) converted;
  if ok : bool then Ok converted
  else Err (Plain "value: %+v (%[1]T) is not part of allowed enum values: %+v")
  end.

Definition EnumType_ConvertToStringSlice (t : EnumType) (value : gval) : res (list string) :=
  ok ← (match value with VNil => Ok true | _ => contains (values_of t) value end);
  if ok : bool then
    wrapf "failed to convert enum value to string slice: %+v"
      (SimpleType_ConvertToStringSlice (BaseType t) value)
  else Err (Plain "value: %+v (%[1]T) is not part of allowed enum values: %+v").

Definition EnumType_SetDefaultValue (t : EnumType) (v : gval) : res EnumType :=
  let set d := {| enum_simple := enum_simple t; BaseType := BaseType t; Values := Values t;
                  RewritableValues := RewritableValues t; enum_default := d |} in
  match v with
  | VNil => Ok (set VNil)
  | _ =>
      defVal ← wrapf "failed to set default value of enum type to %+v (%[1]T)"
                 (EnumType_ConvertToModel t v);
      Ok (set defVal)
  end.

Definition EnumType_GetDefaultValue (t : EnumType) : gval :=
  match enum_default t with
  | VNil => match values_of t with v :: _ => v | [] => VNil end
  | d => d
  end.

Definition EnumType_Validate (t : EnumType) : res unit :=
  if negb (bool_decide (kind (enum_simple t) = KindEnum))
  then Err (Plain "enum has a base type '%s' but needs '%s'")
  else if negb (IsSimpleType (kind (BaseType t)))
  then Err (Plain "enum type must have a simple component type and not '%s'")
  else
    _ ← wrapf "failed to validate default value for kind %s: %+v (%[1]T)"
          (EnumType_SetDefaultValue t (enum_default t));
    match values_of t with
    | [] => Err (Plain "enum type has no values: %+v")
    | vs => _ ← mapM (λ v, wrapf "failed to convert value at position %d to kind '%s': %+v"
                             (EnumType_ConvertToModel t v)) vs;
            Ok tt
    end.

(** *** Lists *)

Definition ConvertList {A} (converter : gval → res A) (value : gval) : res (option (list A)) :=
  match value with
  | VNil => Ok None
  | _ =>
      if negb (has_kind value RArray) && negb (has_kind value RSlice)
      then Err (Plain "value %v should be array/slice, but is %s")
      else l ← mapM (λ v, replace_err (Plain "error converting list value: %s") (converter v))
                 (elements_of value);
           Ok (Some l)
  end.
(** A [[]interface{}] boxed into an interface value. *)
Definition box (l : option (list gval)) : gval :=
  match l with Some l => VSlice l | None => VNilSlice end.

Definition ListType_ConvertToModel (t : ListType) (value : gval) : res gval :=
  box <$> ConvertList (SimpleType_ConvertToModel (ComponentType t)) value.
Definition ListType_ConvertFromModel (t : ListType) (value : gval) : res gval :=
  box <$> ConvertList (SimpleType_ConvertFromModel (ComponentType t)) value.

Fixpoint one_each (l : list (list string)) : res (list string) :=
  match l with
  | [] => Ok []
  | [s] :: l => r ← one_each l; Ok (s :: r)
  | _ => Err (Plain "string conversion of base type did not return exactly one value")
  end.
Definition ListType_ConvertToStringSlice (t : ListType) (value : gval) : res (list string) :=
  match value with
  | VNil => Ok []
  | _ =>
      valueList ← wrapf "failed to convert list type to string slice"
                    (ConvertList (SimpleType_ConvertToStringSlice (ComponentType t)) value);
      one_each (default [] valueList)
  end.

Definition ListType_SetDefaultValue (t : ListType) (v : gval) : res ListType :=
  let set d := {| list_simple := list_simple t; ComponentType := ComponentType t;
                  list_default := d |} in
  match v with
  | VNil => Ok (set VNil)
  | _ =>
      defVal ← wrapf "failed to set default value of list type to %+v (%[1]T)"
                 (SimpleType_ConvertToModel (ComponentType t) v);
      Ok (set defVal)
  end.

Definition ListType_Validate (t : ListType) : res unit :=
  if negb (bool_decide (kind (list_simple t) = KindList))
  then Err (Plain "list type cannot have a base type '%s' but needs '%s'")
  else if negb (IsSimpleType (kind (ComponentType t)))
  then Err (Plain "list type must have a simple component type and not '%s'")
  else _ ← wrapf "failed to validate default value for kind %s: %+v (%[1]T)"
             (ListType_SetDefaultValue t (list_default t));
       Ok tt.

(** *** The FieldType interface *)

Definition ConvertToModel (t : FieldType) : gval → res gval :=
  match t with
  | FSimple t => SimpleType_ConvertToModel t
  | FEnum t => EnumType_ConvertToModel t
  | FList t => ListType_ConvertToModel t
  end.
Definition ConvertFromModel (t : FieldType) : gval → res gval :=
  match t with
  | FSimple t => SimpleType_ConvertFromModel t
  | FEnum t => EnumType_ConvertFromModel t
  | FList t => ListType_ConvertFromModel t
  end.
Definition ConvertToStringSlice (t : FieldType) : gval → res (list string) :=
  match t with
  | FSimple t => SimpleType_ConvertToStringSlice t
  | FEnum t => EnumType_ConvertToStringSlice t
  | FList t => ListType_ConvertToStringSlice t
  end.
Definition GetDefaultValue (t : FieldType) : gval :=
  match t with
  | FSimple t => simple_default t
  | FEnum t => EnumType_GetDefaultValue t
  | FList t => list_default t
  end.
Definition SetDefaultValue (t : FieldType) (v : gval) : res FieldType :=
  match t with
  | FSimple t => FSimple <$> SimpleType_SetDefaultValue t v
  | FEnum t => FEnum <$> EnumType_SetDefaultValue t v
  | FList t => FList <$> ListType_SetDefaultValue t v
  end.
Definition Validate (t : FieldType) : res unit :=
  match t with
  | FSimple t => SimpleType_Validate t
  | FEnum t => EnumType_Validate t
  | FList t => ListType_Validate t
  end.

(** ConvertToModelWithType belongs to SimpleType; the two other types inherit
    it, so the receiver is the embedded simple type. *)
Definition ConvertToModelWithType (t : SimpleType) (newFieldType : FieldType) (v : gval)
    : res gval :=
  let failed := Err (Plain "failed to convert value %+v (%[1]T) to field type %+v (%[2]T)") in
  let unwrap :=
    if bool_decide (kind t = KindList) && negb (bool_decide (GetKind newFieldType = KindList))
    then match v with
         | VSlice [x] =>
             match ConvertToModel newFieldType x with Err _ => failed | r => r end
         | VSlice _ | VNilSlice => failed
         | _ => Err (Plain "failed to convert value to interface array: %+v")
         end
    else failed in
  match ConvertToModel newFieldType v with
  | Err _ =>
      if bool_decide (GetKind newFieldType = KindList) then
        match ConvertToModel newFieldType (VSlice [v]) with
        | Err _ => unwrap
        | r => r
        end
      else unwrap
  | r => r
  end.
End Conversions.
