(* ===== verification/FieldDefinitions.v ===== *)
(** * Field definitions

    [workitem/field_definition.go] and the equality of field types
    ([workitem/enum_type.go], [workitem/list_type.go],
    [workitem/simple_type.go], [convert/equaler.go]), with the theorems about
    the conversions of [FieldTypes]. *)

From Stdlib Require Import ZArith Lia Ascii String SpecFloat.
From S2P Require Export Prelude Values FieldTypes.

Record FieldDefinition := {
  Required : bool;
  ReadOnly : bool;
  Label : string;
  Description : string;
  Type_ : FieldType;
}.

(** ** Equality

    [convert.CascadeEqual] picks Equal or EqualValue by the name of the
    calling function; [byValue] is that choice. *)
Definition CascadeEqual {A} (equal equalValue : A → A → res bool) (byValue : bool)
    (obj other : A) : res bool :=
  if byValue then equalValue obj other else equal obj other.

Definition SimpleType_Equal (t u : SimpleType) : res bool :=
  same ← iface_eq (simple_default t) (simple_default u);
  if same : bool then Ok (bool_decide (kind t = kind u)) else Ok false.
(** SimpleType.EqualValue calls Equal, and so do those of the other types. *)
Definition SimpleType_EqualValue : SimpleType → SimpleType → res bool := SimpleType_Equal.

Definition slice_deep_equal (a b : option (list gval)) : bool :=
  deep_equal (box a) (box b).

(** [a && b] of two Go conditions. *)
Definition and_then (a b : res bool) : res bool := r ← a; if r : bool then b else Ok false.

Definition EnumType_Equal (byValue : bool) (t other : EnumType) : res bool :=
  and_then (CascadeEqual SimpleType_Equal SimpleType_EqualValue byValue
              (enum_simple t) (enum_simple other))
  (and_then (CascadeEqual SimpleType_Equal SimpleType_EqualValue byValue
              (BaseType t) (BaseType other))
  (if negb (RewritableValues t) && negb (slice_deep_equal (Values t) (Values other))
   then Ok false
   else Ok (deep_equal (enum_default t) (enum_default other)))).

Definition EnumType_EqualEnclosing (t other : EnumType) : res bool :=
  and_then (SimpleType_Equal (enum_simple t) (enum_simple other))
  (and_then (SimpleType_Equal (BaseType t) (BaseType other))
  (if negb (RewritableValues t) then containsAll (values_of t) (values_of other)
   else Ok true)).

Definition ListType_Equal (byValue : bool) (t other : ListType) : res bool :=
  and_then (CascadeEqual SimpleType_Equal SimpleType_EqualValue byValue
              (list_simple t) (list_simple other))
  (if negb (deep_equal (list_default t) (list_default other)) then Ok false
   else CascadeEqual SimpleType_Equal SimpleType_EqualValue byValue
          (ComponentType t) (ComponentType other)).

(** The type assertion [u.(SimpleType)] etc. fails on another field type. *)
Definition FieldType_Equal (byValue : bool) (t other : FieldType) : res bool :=
  match t, other with
  | FSimple t, FSimple u => SimpleType_Equal t u
  | FEnum t, FEnum u => EnumType_Equal byValue t u
  | FList t, FList u => ListType_Equal byValue t u
  | _, _ => Ok false
  end.

Definition FieldDefinition_Equal (byValue : bool) (f other : FieldDefinition) : res bool :=
  if negb (Bool.eqb (Required f) (Required other)) then Ok false
  else if negb (Bool.eqb (ReadOnly f) (ReadOnly other)) then Ok false
  else if negb (String.eqb (Label f) (Label other)) then Ok false
  else if negb (String.eqb (Description f) (Description other)) then Ok false
  else FieldType_Equal byValue (Type_ f) (Type_ other).

Definition compatibleFields (existing new : FieldDefinition) : res bool :=
  if negb (Bool.eqb (Required existing) (Required new)) then Ok false
  else FieldType_Equal false (Type_ existing) (Type_ new).

Definition gval_nil_dec (v : gval) : {v = VNil} + {v ≠ VNil}.
Proof. by destruct v; (left; done) || (right; done). Defined.

Section Definitions.
Context {HO : UuidOps}.
Variable IsURL : string → bool.

Definition FieldDefinition_Validate (f : FieldDefinition) : res unit :=
  if String.eqb (TrimSpace (Label f)) ""
  then Err (Plain "field label is empty '%s' when trimmed")
  else Validate IsURL (Type_ f).

(** The work item type's map of definitions: the first invalid one is reported. *)
Definition FieldDefinitions_Validate (j : option (list (string * FieldDefinition))) : res unit :=
  match j with
  | None => Err (Plain "fields not defined")
  | Some fields =>
      _ ← mapM (λ nf, wrapf "failed to validate field %s" (FieldDefinition_Validate nf.2)) fields;
      Ok tt
  end.

Definition FieldDefinition_ConvertToModel (f : FieldDefinition) (name : string) (value : gval)
    : res gval :=
  let value := match value with VNil => GetDefaultValue (Type_ f) | v => v end in
  _ ← (if Required f then
         match value with
         | VNil => Err (Plain "value for field %q must not be nil")
         | _ =>
             if bool_decide (GetKind (Type_ f) = KindString) then
               match value with
               | VString s => if String.eqb (TrimSpace s) ""
                              then Err (Plain "value for field %q must not be empty: '%+v'")
                              else Ok tt
               | _ => Err (Plain "failed to convert '%+v' to string")
               end
             else Ok tt
         end
       else Ok tt);
  ConvertToModel IsURL (Type_ f) value.

Definition FieldDefinition_ConvertFromModel (f : FieldDefinition) (name : string) (value : gval)
    : res gval :=
  match value with
  | VNil => if Required f then Err (Plain "Value %s is required")
            else ConvertFromModel (Type_ f) VNil
  | _ => ConvertFromModel (Type_ f) value
  end.

(** ** Lemmas *)

Lemma ConvertToModel_VNil t : SimpleType_ConvertToModel IsURL t VNil = Ok VNil.
Proof. done. Qed.

Ltac conv_inv :=
  repeat match goal with
  | H : Ok _ = Ok _ |- _ => injection H as H; subst
  | H : Err _ = Ok _ |- _ => discriminate H
  | H : Panic _ = Ok _ |- _ => discriminate H
  | H : context [is_url_value _ _] |- _ => unfold is_url_value in H
  | H : (_ ≫= _) = Ok _ |- _ => apply bind_ok in H as (? & ? & ?)
  | H : wrapf _ _ = Ok _ |- _ => apply wrapf_ok in H
  | H : (if ?b then _ else _) = Ok _ |- _ => destruct b eqn:?; simpl in H
  | H : match ?x with _ => _ end = Ok _ |- _ => destruct x eqn:?; simpl in H
  end.

Lemma has_kind_nil k : has_kind VNil k = false.
Proof. done. Qed.

(** A converted value is nil only when the value was. *)
Lemma ConvertToModel_not_nil t v m :
  SimpleType_ConvertToModel IsURL t v = Ok m → v ≠ VNil → m ≠ VNil.
Proof.
  intros H Hv. destruct v; [done|..]; unfold SimpleType_ConvertToModel in H;
    destruct (kind t); simpl in H; conv_inv; done.
Qed.

(** The text of a value whose kind is string. *)
Definition text (v : gval) : option string :=
  match v with VString s | VNamedString _ s => Some s | _ => None end.
(** The integer that a value of an integer field stands for. *)
Definition number (v : gval) : option Z :=
  match v with
  | VInt z | VInt64 z => Some z
  | VFloat64 f => if not_whole f then None else Some (float_to_int f)
  | _ => None
  end.

(** What ConvertToModel yields for a value of a simple kind that is not nil. *)
Inductive stored : Kind → gval → gval → Prop :=
  | stored_text k v s :
      k ∈ [KindString; KindUser; KindIteration; KindArea; KindLabel; KindBoardColumn] →
      text v = Some s → stored k v v
  | stored_uuid v u : AnyToUUID v = Ok u → stored KindRemoteTracker v (VUUID u)
  | stored_url s : IsURL s = true → stored KindURL (VString s) (VString s)
  | stored_float f : stored KindFloat (VFloat64 f) (VFloat64 f)
  | stored_int v z : number v = Some z → stored KindInteger v (VInt z)
  | stored_int64 z : stored KindInteger (VInt64 z) (VInt64 z)
  | stored_instant z : stored KindInstant (VTime z) (VInt64 z)
  | stored_markup c : IsMarkupSupported (Markup c) = true →
      stored KindMarkup (VMarkup c) (MarkupContent_ToMap c)
  | stored_map m c : NewMarkupContentFromMap m = Ok c → IsMarkupSupported (Markup c) = true →
      stored KindMarkup (VMap m) (MarkupContent_ToMap c)
  | stored_codebase c : Content_IsValid c = Ok tt →
      stored KindCodebase (VCodebase c) (Content_ToMap c)
  | stored_bool b : stored KindBoolean (VBool b) (VBool b).

Lemma has_kind_string v : has_kind v RString = true → ∃ s, text v = Some s.
Proof. unfold has_kind. rewrite bool_decide_eq_true. destruct v; naive_solver. Qed.
Lemma has_kind_float v : has_kind v RFloat64 = true → ∃ f, v = VFloat64 f.
Proof. unfold has_kind. rewrite bool_decide_eq_true. destruct v; naive_solver. Qed.
Lemma has_kind_bool v : has_kind v RBool = true → ∃ b, v = VBool b.
Proof. unfold has_kind. rewrite bool_decide_eq_true. destruct v; naive_solver. Qed.

Lemma ConvertToModel_stored t v m :
  IsSimpleType (kind t) = true → v ≠ VNil →
  SimpleType_ConvertToModel IsURL t v = Ok m → stored (kind t) v m.
Proof.
  intros Hs Hv H. assert (H' : match v with VNil => False | _ => True end) by by destruct v.
  unfold SimpleType_ConvertToModel in H.
  destruct v; [done|..]; destruct (kind t) eqn:Hk; simpl in H; try discriminate;
    try (by vm_compute in Hs); conv_inv;
    repeat match goal with
    | H : Content_IsValid _ = Ok ?u |- _ => destruct u
    | H : has_kind _ RFloat64 = true |- _ => apply has_kind_float in H as [? [=]]
    | H : has_kind _ RBool = true |- _ => apply has_kind_bool in H as [? [=]]
    | H : has_kind _ RString = true |- _ => apply has_kind_string in H as [? ?]
    end; subst;
    try (econstructor; first [eassumption | reflexivity | set_solver]).
  - constructor. simpl. by destruct (uuid_FromString _); simplify_eq.
  - constructor. simpl. by destruct (not_whole _).
Qed.

Lemma iface_eq_nil_r v : iface_eq v VNil = Ok (match v with VNil => true | _ => false end).
Proof. by destruct v. Qed.

Lemma contains_In a v : contains a v = Ok true → ∃ x, x ∈ a ∧ iface_eq x v = Ok true.
Proof.
  induction a as [|x a IH]; simpl; [done|]. rewrite bind_ok. intros ([|] & Hx & H).
  - exists x. split; [left|done].
  - destruct (IH H) as (y & Hy & E). exists y. split; [by right|done].
Qed.

(** ** Properties *)

Lemma enum_permitted t v m :
  EnumType_ConvertToModel IsURL t v = Ok m →
  ∃ x, x ∈ values_of t ∧ iface_eq x m = Ok true ∧ SimpleType_ConvertToModel IsURL (BaseType t) v = Ok m.
Proof.
  unfold EnumType_ConvertToModel. rewrite bind_ok. intros (c & Hc & H).
  apply replace_err_ok in Hc. apply bind_ok in H as ([|] & Hin & H); [|done].
  injection H as <-. apply contains_In in Hin as (x & ? & ?). eauto.
Qed.
(** once a simple or enum field type passes Validate, an unset field of that type
    can be stored: the default value it falls back to converts without error or panic. *)
Theorem Validate_default_converts t :
  Validate IsURL t = Ok tt → (∀ l, t ≠ FList l) →
  is_ok (ConvertToModel IsURL t (GetDefaultValue t)) = true.
Proof.
  destruct t as [t|t|t]; intros H Hl; [| |by destruct (Hl t)]; clear Hl; simpl in *.
  - unfold SimpleType_Validate in H. destruct (negb _); [done|].
    apply bind_ok in H as (u & H & _). apply wrapf_ok in H.
    unfold SimpleType_SetDefaultValue in H.
    destruct (gval_nil_dec (simple_default t)) as [->|Hd]; [done|].
    destruct (simple_default t); [done|..];
      apply bind_ok in H as (m' & H & _); apply wrapf_ok in H; by rewrite H.
  - unfold EnumType_Validate in H. destruct (negb _); [done|]. destruct (negb _); [done|].
    apply bind_ok in H as (u & Hd & H). apply wrapf_ok in Hd.
    destruct (values_of t) as [|x l] eqn:Hvs; [done|].
    apply bind_ok in H as (ys & H & _). apply mapM_ok in H.
    unfold EnumType_GetDefaultValue. rewrite Hvs.
    destruct (gval_nil_dec (enum_default t)) as [E|E].
    + rewrite E. inversion H as [|? y ? ? Hx]; subst. apply wrapf_ok in Hx. by rewrite Hx.
    + unfold EnumType_SetDefaultValue in Hd. destruct (enum_default t); [done|..];
        apply bind_ok in Hd as (m' & Hd & _); apply wrapf_ok in Hd; by rewrite Hd.
Qed.

(** a list field type with a non-nil string default passes Validate, yet no field of that
    type can be left unset: falling back to the default always fails. *)
Theorem ListType_default_never_converts t s req :
  kind (list_simple t) = KindList → kind (ComponentType t) = KindString →
  list_default t = VString s →
  let f := {| Required := req; ReadOnly := false; Label := "l"; Description := "";
              Type_ := FList t |} in
  Validate IsURL (FList t) = Ok tt ∧
  ∀ name, FieldDefinition_ConvertToModel f name VNil
          = Err (Plain "value %v should be array/slice, but is %s").
Proof.
  intros Hk Hc Hd f. split.
  - simpl. unfold ListType_Validate, ListType_SetDefaultValue, SimpleType_ConvertToModel.
    rewrite Hk, Hc, Hd. done.
  - intros name. unfold FieldDefinition_ConvertToModel, f. simpl. rewrite Hd.
    unfold GetKind. simpl. rewrite Hk. by destruct req.
Qed.

(** whatever is stored for a required field is not nil, and for a string field it is a string
    that is not blank. *)
Theorem FieldDefinition_required f name v m :
  Required f = true →
  FieldDefinition_ConvertToModel f name v = Ok m →
  m ≠ VNil ∧ (∀ t, Type_ f = FSimple t → kind t = KindString →
              ∃ s, m = VString s ∧ TrimSpace s ≠ "").
Proof.
  intros Hr. unfold FieldDefinition_ConvertToModel. rewrite Hr.
  set (w := match v with VNil => GetDefaultValue (Type_ f) | v => v end).
  destruct (gval_nil_dec w) as [->|Hw]; [done|].
  rewrite bind_ok. intros (u & Hu & H). split.
  - destruct (Type_ f) as [t|t|t]; simpl in H.
    + by eapply ConvertToModel_not_nil.
    + apply enum_permitted in H as (x & _ & _ & H).
      by eapply ConvertToModel_not_nil.
    + unfold ListType_ConvertToModel in H. destruct (ConvertList _ _) as [[l|]| |]; by simplify_eq/=.
  - intros t Ht Hk. rewrite Ht in Hu, H. unfold GetKind in Hu. simpl in Hu, H. rewrite Hk in Hu.
    rewrite bool_decide_true in Hu by done.
    destruct w as [|s|ty s|z|z|z|z|z|fl|b|u'|z|ty|c|c|mm| |l|l]; try done.
    unfold SimpleType_ConvertToModel in H. rewrite Hk in H. simpl in H. injection H as <-.
    exists s. split; [done|]. destruct (String.eqb_spec (TrimSpace s) ""); done.
Qed.

Lemma ConvertToModel_slice t l :
  IsSimpleType (kind t) = true → ∃ e, SimpleType_ConvertToModel IsURL t (VSlice l) = Err e.
Proof.
  intros Hs. unfold SimpleType_ConvertToModel.
  destruct (kind t) eqn:Hk; try (eexists; reflexivity); discriminate Hs.
Qed.
Lemma ListType_scalar l v :
  v ≠ VNil → has_kind v RArray = false → has_kind v RSlice = false →
  ListType_ConvertToModel IsURL l v = Err (Plain "value %v should be array/slice, but is %s").
Proof.
  intros Hn Ha Hsl. unfold ListType_ConvertToModel, ConvertList. rewrite Ha, Hsl.
  by destruct v.
Qed.

(** changing a field from a simple type to a list of that type stores the value as a
    one-element list; changing it back from a list takes exactly the lists of one element,
    and stores that element as the simple field would have. *)
Theorem ConvertToModelWithType_list t l v m :
  IsSimpleType (kind t) = true → ComponentType l = t → kind (list_simple l) = KindList →
  v ≠ VNil → has_kind v RArray = false → has_kind v RSlice = false →
  SimpleType_ConvertToModel IsURL t v = Ok m →
  ConvertToModelWithType IsURL t (FList l) v = Ok (VSlice [m]) ∧
  ConvertToModelWithType IsURL (list_simple l) (FSimple t) (VSlice [v]) = Ok m ∧
  ∀ vs, length vs ≠ 1%nat →
    is_err (ConvertToModelWithType IsURL (list_simple l) (FSimple t) (VSlice vs)) = true.
Proof.
  intros Hs Hc Hk Hn Ha Hsl H. unfold ConvertToModelWithType. cbn [ConvertToModel].
  assert (Hnl : bool_decide (GetKind (FSimple t) = KindList) = false).
  { unfold IsSimpleType in Hs. apply andb_prop in Hs as [_ Hs].
    unfold GetKind. simpl. by destruct (bool_decide (kind t = KindList)). }
  split_and!.
  - rewrite ListType_scalar by done. rewrite bool_decide_true by done.
    unfold ListType_ConvertToModel. simpl. by rewrite Hc, H.
  - destruct (ConvertToModel_slice t [v] Hs) as [e ->].
    rewrite Hnl, Hk, bool_decide_true by done. simpl. by rewrite H.
  - intros vs Hvs. destruct (ConvertToModel_slice t vs Hs) as [e ->].
    rewrite Hnl, Hk, bool_decide_true by done. simpl. by destruct vs as [|? [|]].
Qed.

End Definitions.

(** ** Kinds as text *)

Lemma find_kind k l :
  k ∈ l → (∀ a b, a ∈ l → b ∈ l → Kind_String a = Kind_String b → a = b) →
  List.find (λ c, String.eqb (Kind_String c) (Kind_String k)) l = Some k.
Proof.
  intros Hk Hinj. destruct (List.find _ l) as [c|] eqn:E.
  - apply List.find_some in E as [Hc E]. apply String.eqb_eq in E. f_equal.
    apply Hinj; [by apply list_elem_of_In|done..].
  - exfalso. eapply List.find_none in E; [|by apply list_elem_of_In].
    by rewrite String.eqb_refl in E.
Qed.
Lemma all_kinds_inj a b :
  a ∈ all_kinds → b ∈ all_kinds → Kind_String a = Kind_String b → a = b.
Proof.
  unfold all_kinds. intros Ha Hb. rewrite !elem_of_cons, elem_of_nil in Ha, Hb.
  destruct_or!; subst; done || discriminate.
Qed.
Lemma known_kind k : (∀ s, k ≠ KindUnknown s) → k ∈ all_kinds.
Proof.
  intros Hk. unfold all_kinds. destruct k; try set_solver; by destruct (Hk k).
Qed.

(** parsing the name of a kind gives the kind back, for the sixteen declared kinds,
    and only their names parse. *)
Theorem ConvertStringToKind_spec s k :
  ConvertStringToKind s = Ok k ↔ (∀ u, k ≠ KindUnknown u) ∧ Kind_String k = s.
Proof.
  unfold ConvertStringToKind. split.
  - destruct (List.find _ all_kinds) as [c|] eqn:E; [|done]. intros [= ->].
    apply List.find_some in E as [Hc E]. apply String.eqb_eq in E. split; [|done].
    intros u ->. apply list_elem_of_In in Hc. unfold all_kinds in Hc.
    rewrite !elem_of_cons, elem_of_nil in Hc. destruct_or!; done.
  - intros [Hk <-]. rewrite find_kind; [done|by apply known_kind|].
    intros; by apply all_kinds_inj.
Qed.

(** ** Witnesses *)

Definition any_url (s : string) : bool := true.
Definition instant_type := {| kind := KindInstant; simple_default := VNil |}.
Definition string_type := {| kind := KindString; simple_default := VNil |}.
Definition state_enum := {|
  enum_simple := {| kind := KindEnum; simple_default := VNil |}; BaseType := string_type;
  Values := Some [VString "open"; VString "closed"]; RewritableValues := false;
  enum_default := VNil |}.
Definition labels_list := {|
  list_simple := {| kind := KindList; simple_default := VNil |}; ComponentType := string_type;
  list_default := VString "none" |}.

Lemma Validate_default_witness :
  is_ok (ConvertToModel any_url (FEnum state_enum) (GetDefaultValue (FEnum state_enum))) = true.
Proof. apply Validate_default_converts; [reflexivity|discriminate]. Defined.
Lemma ListType_default_witness :
  Validate any_url (FList labels_list) = Ok tt ∧
  ∀ name, FieldDefinition_ConvertToModel any_url
            {| Required := true; ReadOnly := false; Label := "l"; Description := "";
               Type_ := FList labels_list |} name VNil
          = Err (Plain "value %v should be array/slice, but is %s").
Proof. apply (ListType_default_never_converts any_url labels_list "none"); reflexivity. Defined.
Definition title_field := {| Required := true; ReadOnly := false; Label := "Title";
  Description := ""; Type_ := FSimple string_type |}.
Lemma FieldDefinition_required_witness :
  VString "fix it" ≠ VNil ∧
  (∀ t, Type_ title_field = FSimple t → kind t = KindString →
     ∃ s, VString "fix it" = VString s ∧ TrimSpace s ≠ "").
Proof.
  apply (FieldDefinition_required any_url title_field "system.title" (VString "fix it"));
    reflexivity.
Defined.
Lemma ConvertToModelWithType_witness :
  ConvertToModelWithType any_url string_type (FList labels_list) (VString "a")
    = Ok (VSlice [VString "a"]) ∧
  ConvertToModelWithType any_url (list_simple labels_list) (FSimple string_type)
    (VSlice [VString "a"]) = Ok (VString "a") ∧
  ∀ vs, length vs ≠ 1%nat →
    is_err (ConvertToModelWithType any_url (list_simple labels_list) (FSimple string_type)
              (VSlice vs)) = true.
Proof. apply ConvertToModelWithType_list; (reflexivity || discriminate). Defined.
