(* ===== verification/Json.v ===== *)
(** * Values and field definitions in jsonb columns

    What [encoding/json] and PostgreSQL's jsonb give back for a value written
    to a column ([toBytes], [fromBytes] of [workitem/json_storage.go]), and
    [UnmarshalJSON] of [workitem/field_definition.go].  Texts are taken as
    valid UTF-8 without a NUL. *)

From Stdlib Require Import ZArith Lia Ascii String SpecFloat.
From S2P Require Export FieldDefinitions.

(** ** Values *)

(** The float64 nearest to an integer. *)
Definition float_of_int (z : Z) : float64 := binary_normalize 53 1024 z 0 false.

(** *** Numbers

    An integer below 2^53 comes back as it was, a greater one as the nearest
    integer of 53 significant binary digits. *)

Lemma digits_lower p : 2 ^ Zpos (digits2_pos p) ≤ 2 * Zpos p.
Proof.
  induction p as [p IH|p IH|]; simpl digits2_pos; rewrite ?Pos2Z.inj_succ, ?Z.pow_succ_r by lia; [lia|lia|done].
Qed.
Lemma digits_upper p : Zpos p < 2 ^ Zpos (digits2_pos p).
Proof.
  induction p as [p IH|p IH|]; simpl digits2_pos; rewrite ?Pos2Z.inj_succ, ?Z.pow_succ_r by lia; [lia|lia|done].
Qed.
(** The number of digits is the one that fits. *)
Lemma digits_unique p d : 0 < d → 2 ^ (d - 1) ≤ Zpos p < 2 ^ d → Zpos (digits2_pos p) = d.
Proof.
  intros Hd [H1 H2]. pose proof (digits_lower p) as L. pose proof (digits_upper p) as U.
  assert (d - 1 < Zpos (digits2_pos p)) by (apply (Z.pow_lt_mono_r_iff 2); lia).
  assert (Zpos (digits2_pos p) - 1 < d); [|lia].
  apply (Z.pow_lt_mono_r_iff 2); [lia..|].
  assert (2 ^ Zpos (digits2_pos p) = 2 * 2 ^ (Zpos (digits2_pos p) - 1)); [|lia].
  rewrite <- Z.pow_succ_r by lia. f_equal. lia.
Qed.
Lemma shift_value p q : Zpos (Pos.iter xO p q) = Zpos p * 2 ^ Zpos q.
Proof.
  induction q as [|q IH] using Pos.peano_ind; [simpl; lia|].
  rewrite Pos.iter_succ, Pos2Z.inj_succ, Z.pow_succ_r by lia. rewrite Pos2Z.inj_xO, IH. lia.
Qed.
Lemma shift_digits p q : digits2_pos (Pos.iter xO p q) = (digits2_pos p + q)%positive.
Proof.
  induction q as [|q IH] using Pos.peano_ind; [simpl; lia|]. rewrite Pos.iter_succ. simpl. rewrite IH. lia.
Qed.

(** A mantissa of 53 digits, and one that rounding carried to 54, need no rounding. *)
Lemma shr_fexp_53 m e : Zpos (digits2_pos m) = 53 → -1074 ≤ e →
  shr_fexp 53 1024 (Zpos m) e loc_Exact = ({| shr_m := Zpos m; shr_r := false; shr_s := false |}, e).
Proof.
  intros Hd He. unfold shr_fexp. cbn [shr_record_of_loc Zdigits2]. rewrite Hd.
  by assert (fexp 53 1024 (53 + e) - e = 0) as -> by (unfold fexp, SpecFloat.emin; lia).
Qed.
Lemma round_exact s m e : Zpos (digits2_pos m) = 53 → -1074 ≤ e ≤ 971 →
  binary_round_aux 53 1024 s (Zpos m) e loc_Exact = S754_finite s m e.
Proof.
  intros Hd He. unfold binary_round_aux. rewrite shr_fexp_53 by lia.
  cbn [shr_m loc_of_shr_record round_nearest_even]. rewrite shr_fexp_53 by lia.
  cbn [shr_m]. by rewrite (proj2 (Z.leb_le e (1024 - 53))) by lia.
Qed.

(** Fewer than 54 digits. *)
Lemma float_round s p : Zpos p < 2 ^ 53 → ∃ m e, binary_round 53 1024 s p 0 = S754_finite s m e ∧
  (e = 0 ∧ m = p ∨ ∃ q, e = Zneg q ∧ Zpos m = Zpos p * 2 ^ Zpos q).
Proof.
  intros Hp. set (d := Zpos (digits2_pos p)).
  assert (Hd : 1 ≤ d ≤ 53).
  { split; [lia|]. pose proof (digits_lower p) as H. fold d in H.
    apply (Z.pow_le_mono_r_iff 2); [lia|lia|].
    destruct (Z.le_gt_cases d 53); [by apply Z.pow_le_mono_r; lia|].
    assert (2 ^ 54 ≤ 2 ^ d) by (apply Z.pow_le_mono_r; lia). lia. }
  unfold binary_round. fold d. rewrite Z.add_0_r.
  assert (fexp 53 1024 d = d - 53) as -> by (unfold fexp, SpecFloat.emin; lia).
  unfold shl_align. rewrite Z.sub_0_r. destruct (d - 53) as [|q|q] eqn:E; [|lia|].
  - exists p, 0. rewrite round_exact by lia. by split; [|left].
  - exists (Pos.iter xO p q), (Zneg q). rewrite round_exact; [|rewrite shift_digits; lia|lia].
    split; [done|]. right. exists q. split; [done|]. apply shift_value.
Qed.

(** What the two bits of a shifted mantissa say about what was shifted out. *)
Definition shifted (p k : Z) (mrs : shr_record) : Prop :=
  let '(Build_shr_record m r s) := mrs in
  ∃ rest, p = m * 2 ^ k + rest ∧ 0 ≤ rest < 2 ^ k ∧ 0 ≤ m ∧
    match r, s with
    | false, false => rest = 0
    | false, true => 0 < rest ∧ 2 * rest < 2 ^ k
    | true, false => 2 * rest = 2 ^ k
    | true, true => 2 ^ k < 2 * rest
    end.
Lemma shifted_step p k mrs : 0 ≤ k → shifted p k mrs → shifted p (k + 1) (shr_1 mrs).
Proof.
  intros Hk. destruct mrs as [m r s]. intros (rest & -> & Hr & Hm & Hrs).
  assert (E : 2 ^ (k + 1) = 2 * 2 ^ k) by (rewrite Z.pow_add_r by lia; lia).
  destruct m as [|[m|m|]|]; [..|lia]; simpl shr_1; unfold shifted; rewrite E.
  - exists rest. destruct r, s; simpl; lia.
  - exists (2 ^ k + rest). rewrite Pos2Z.inj_xI. destruct r, s; simpl; lia.
  - exists rest. rewrite Pos2Z.inj_xO. destruct r, s; simpl; lia.
  - exists (2 ^ k + rest). destruct r, s; simpl; lia.
Qed.
Lemma shifted_iter p n : ∀ k mrs, 0 ≤ k → shifted p k mrs →
  shifted p (k + Zpos n) (SpecFloat.iter_pos shr_1 n mrs).
Proof.
  induction n as [n IH|n IH|]; intros k mrs Hk H; simpl.
  - replace (k + Zpos n~1) with (k + 1 + Zpos n + Zpos n) by lia.
    apply IH; [lia|]. apply IH; [lia|]. by apply shifted_step.
  - replace (k + Zpos n~0) with (k + Zpos n + Zpos n) by lia. apply IH; [lia|]. by apply IH.
  - by apply shifted_step.
Qed.
(** Rounding to the nearest. *)
Lemma shifted_round p k mrs : 0 < k → shifted p k mrs →
  let m := round_nearest_even (shr_m mrs) (loc_of_shr_record mrs) in
  shr_m mrs ≤ m ≤ shr_m mrs + 1 ∧ 2 * Z.abs (m * 2 ^ k - p) ≤ 2 ^ k ∧
  shr_m mrs * 2 ^ k ≤ p < (shr_m mrs + 1) * 2 ^ k ∧
  (p mod 2 ^ k = 0 → m = p / 2 ^ k).
Proof.
  intros Hk. destruct mrs as [m r s]. intros (rest & -> & Hr & Hm & Hrs). cbv zeta. simpl shr_m.
  assert (Hmod : (m * 2 ^ k + rest) mod 2 ^ k = rest)
    by (rewrite Z.add_comm, Z_mod_plus_full; by apply Z.mod_small).
  assert (Hdiv : (m * 2 ^ k + rest) / 2 ^ k = m)
    by (rewrite Z.div_add_l, Z.div_small by lia; lia).
  rewrite Hmod, Hdiv. clear Hmod Hdiv. set (X := 2 ^ k) in *. clearbody X.
  destruct r, s; cbn [loc_of_shr_record round_nearest_even]; try destruct (Z.even m);
    split_and!; lia.
Qed.

(** More than 53 digits: the nearest number of 53 digits. *)
Lemma float_round_big s p d : Zpos (digits2_pos p) = d → 53 < d ≤ 64 →
  ∃ m e, binary_round 53 1024 s p 0 = S754_finite s m e ∧ 0 < e ∧ Zpos (digits2_pos m) = 53 ∧
    2 * Z.abs (Zpos m * 2 ^ e - Zpos p) ≤ 2 ^ (d - 53) ∧
    (Zpos p mod 2 ^ (d - 53) = 0 → Zpos m = Zpos p / 2 ^ (d - 53) ∧ e = d - 53).
Proof.
  intros Hd Hd'. unfold binary_round. rewrite Hd, Z.add_0_r.
  assert (fexp 53 1024 d = d - 53) as -> by (unfold fexp, SpecFloat.emin; lia).
  unfold shl_align. rewrite Z.sub_0_r. destruct (d - 53) as [|q|q] eqn:E; [lia| |lia].
  unfold binary_round_aux, shr_fexp at 1. cbn [shr_record_of_loc Zdigits2]. rewrite Hd, Z.add_0_r, Z.sub_0_r.
  assert (fexp 53 1024 d = Zpos q) as -> by (unfold fexp, SpecFloat.emin; lia). cbn [shr].
  rewrite Z.add_0_l.
  destruct (shifted_round (Zpos p) (Zpos q) (SpecFloat.iter_pos shr_1 q
              {| shr_m := Zpos p; shr_r := false; shr_s := false |})) as (H1 & H2 & H3 & H4); [lia| |].
  { apply (shifted_iter _ _ 0); [lia|]. exists 0. lia. }
  set (mrs := SpecFloat.iter_pos _ _ _) in *.
  set (m := round_nearest_even _ _) in *. clearbody m.
  pose proof (digits_lower p) as HL. pose proof (digits_upper p) as HU. rewrite Hd in HL, HU.
  assert (Ed : 2 ^ d = 2 ^ 53 * 2 ^ Zpos q) by (rewrite <- Z.pow_add_r by lia; f_equal; lia).
  assert (Hq : 0 < 2 ^ Zpos q) by lia. rewrite Ed in HL, HU.
  assert (Hm : 2 ^ 52 ≤ m ≤ 2 ^ 53) by nia.
  destruct m as [|m|m]; [lia| |lia]. 
  destruct (Z.eq_dec (Zpos m) (2 ^ 53)) as [Em|Em].
  - assert (m = 2 ^ 53)%positive as -> by lia. exists (2 ^ 52)%positive, (Zpos q + 1).
    unfold shr_fexp. cbn [shr_record_of_loc Zdigits2].
    change (Zpos (digits2_pos (2 ^ 53))) with 54.
    assert (fexp 53 1024 (54 + Zpos q) - Zpos q = 1) as -> by (unfold fexp, SpecFloat.emin; lia).
    cbn [shr SpecFloat.iter_pos shr_1 shr_m]. rewrite (proj2 (Z.leb_le _ _)) by lia.
    split_and!; [done|lia|done|rewrite Z.pow_add_r by lia; lia|].
    intros H. specialize (H4 H). pose proof (Z.div_lt_upper_bound (Zpos p) (2 ^ Zpos q) (2 ^ 53)). lia.
  - assert (Hdm : Zpos (digits2_pos m) = 53) by (apply digits_unique; lia).
    exists m, (Zpos q). rewrite shr_fexp_53 by lia. cbn [shr_m].
    rewrite (proj2 (Z.leb_le _ _)) by lia. split_and!; [done|lia|done|done|by intros ?%H4].
Qed.

(** The integer a float64 holds when an integer was written: within half a
    unit of its 53rd digit. *)
Definition close (z z' : Z) : Prop := 2 ^ 53 * Z.abs (z' - z) ≤ Z.abs z.
Lemma close_exact z z' : close z z' → Z.abs z < 2 ^ 53 → z' = z.
Proof. unfold close. lia. Qed.
Lemma close_refl z : close z z.
Proof. unfold close. lia. Qed.

Definition signed (s : bool) (p : positive) : Z := if s then Zneg p else Zpos p.
Lemma round_signed s p : float_of_int (signed s p) = binary_round 53 1024 s p 0.
Proof. by destruct s. Qed.

Lemma float_to_int_finite s m e p :
  (if 0 <=? e then Zpos m * 2 ^ e else Zpos m / 2 ^ (- e)) = Zpos p → in_int (signed s p) →
  float_to_int (S754_finite s m e) = signed s p.
Proof.
  intros H Hp%in_intb_spec. unfold float_to_int. rewrite H.
  destruct s; cbv zeta; unfold signed in *; [change (- Zpos p) with (Zneg p)|]; by rewrite Hp.
Qed.

(** Within the range of an int64 that rounding does not leave, a number is
    read back as a whole number close to it, that is written the same again. *)
Definition holds_int (z : Z) : Prop := Z.abs z < 2 ^ 63 - 512.
Definition read_back (z : Z) (f : float64) : Prop :=
  not_whole f = false ∧ close z (float_to_int f) ∧ float_of_int (float_to_int f) = f.
Lemma read_back_small s p : Zpos p < 2 ^ 53 → read_back (signed s p) (float_of_int (signed s p)).
Proof.
  intros Hp. rewrite round_signed. unfold read_back.
  destruct (float_round s p Hp) as (m & e & E & He). rewrite E.
  assert (Hi : float_to_int (S754_finite s m e) = signed s p).
  { apply float_to_int_finite.
    - destruct He as [[-> ->]|(q & -> & Em)]; simpl; [lia|]. rewrite Em. apply Z.div_mul. lia.
    - unfold in_int, int_min, int_max, signed. destruct s; lia. }
  rewrite Hi, round_signed, E. split_and!; [|apply close_refl|done].
  destruct He as [[-> ->]|(q & -> & Em)]; simpl; [done|]. rewrite Em, Z.mod_mul by lia. done.
Qed.
Lemma read_back_big s p :
  2 ^ 53 ≤ Zpos p → holds_int (Zpos p) → read_back (signed s p) (float_of_int (signed s p)).
Proof.
  unfold holds_int. intros Hp Hp'. rewrite round_signed. unfold read_back.
  set (d := Zpos (digits2_pos p)).
  pose proof (digits_lower p) as HL. pose proof (digits_upper p) as HU. fold d in HL, HU.
  assert (Hd : 53 < d ≤ 63).
  { split; apply Z.nle_gt || apply Z.nlt_ge; intros H.
    - assert (2 ^ d ≤ 2 ^ 53) by (by apply Z.pow_le_mono_r). lia.
    - assert (2 ^ 64 ≤ 2 ^ d) by (apply Z.pow_le_mono_r; lia). lia. }
  destruct (float_round_big s p d) as (m & e & E & He & Hm & Hc & _); [done|lia|]. rewrite E.
  assert (H10 : 2 ^ (d - 53) ≤ 2 ^ 10) by (apply Z.pow_le_mono_r; lia).
  pose proof (digits_lower m) as HLm. pose proof (digits_upper m) as HUm. rewrite Hm in HLm, HUm.
  assert (He2 : 0 < 2 ^ e) by lia.
  destruct (Zpos m * 2 ^ e) as [|p'|p'] eqn:Ep; [lia| |lia].
  assert (He' : e < 11).
  { apply (Z.pow_lt_mono_r_iff 2); [lia..|]. nia. }
  assert (Hi : float_to_int (S754_finite s m e) = signed s p').
  { apply float_to_int_finite; [by rewrite (proj2 (Z.leb_le 0 e)) by lia|].
    unfold in_int, int_min, int_max, signed. destruct s; lia. }
  rewrite Hi. split_and!.
  - unfold not_whole. by rewrite (proj2 (Z.leb_le 0 e)) by lia.
  - assert (2 ^ d = 2 ^ 53 * 2 ^ (d - 53)) by (rewrite <- Z.pow_add_r by lia; f_equal; lia).
    unfold close, signed. destruct s; lia.
  - rewrite round_signed. destruct (float_round_big s p' (53 + e)) as (m' & e' & -> & _ & _ & _ & Hx).
    + apply digits_unique; [lia|]. rewrite <- Ep.
      replace (53 + e - 1) with (52 + e) by lia. rewrite !Z.pow_add_r by lia. nia.
    + lia.
    + rewrite <- Ep in Hx. replace (53 + e - 53) with e in Hx by lia.
      destruct Hx as [Ex ->]; [by apply Z.mod_mul; lia|]. rewrite Z.div_mul in Ex by lia.
      by injection Ex as ->.
Qed.
Lemma float_of_int_round z : holds_int z → read_back z (float_of_int z).
Proof.
  unfold holds_int. intros Hz. destruct (Z.lt_ge_cases (Z.abs z) (2 ^ 53)) as [H|H].
  - destruct z as [|p|p]; [by split_and!; vm_compute|
      apply (read_back_small false)|apply (read_back_small true)]; lia.
  - destruct z as [|p|p]; [lia|apply (read_back_big false)|apply (read_back_big true)];
      unfold holds_int; lia.
Qed.
Lemma float_to_int_of_int z : Z.abs z < 2 ^ 53 → float_to_int (float_of_int z) = z.
Proof.
  intros Hz. destruct (float_of_int_round z) as (_ & H & _); [unfold holds_int; lia|].
  by apply close_exact in H.
Qed.

Section Json.
Context {HO : UuidOps}.
(** [time.Time.MarshalJSON], and the JSON of any other struct. *)
Context (time_json : Z → string) (struct_json : string → option gval).

(** [json.Marshal], the column, [json.Unmarshal] into an interface value: a
    number comes back as the float64 nearest to it.  [None]: no JSON. *)
Fixpoint in_json (v : gval) : option gval :=
  match v with
  | VNil | VNilSlice => Some VNil
  | VString s | VNamedString _ s => Some (VString s)
  | VInt z | VInt64 z | VUint z | VUint8 z | VUint64 z => Some (VFloat64 (float_of_int z))
  | VFloat64 f =>
      match f with
      | S754_nan | S754_infinity _ => None
      | S754_zero _ => Some (VFloat64 (S754_zero false))
      | S754_finite _ _ _ => Some (VFloat64 f)
      end
  | VBool b => Some (VBool b)
  | VUUID u => Some (VString (uuid_String u))
  | VTime n => Some (VString (time_json n))
  | VStruct ty => struct_json ty
  | VMarkup c => Some (VMap [(ContentKey, VString (Content_ c)); (MarkupKey, VString (Markup c))])
  | VCodebase c =>
      Some (VMap [(RepositoryKey, VString (Repository c)); (BranchKey, VString (Branch c));
                  (FileNameKey, VString (FileName c));
                  (LineNumberKey, VFloat64 (float_of_int (LineNumber c)));
                  (CodebaseIDKey, VString (CodebaseID c))])
  | VMap m =>
      VMap <$> (fix go (m : list (string * gval)) : option (list (string * gval)) :=
        match m with
        | [] => Some []
        | (k, v) :: m => w ← in_json v; r ← go m; Some ((k, w) :: r)
        end) m
  | VSlice l =>
      VSlice <$> (fix go (l : list gval) : option (list gval) :=
        match l with [] => Some [] | v :: l => w ← in_json v; r ← go l; Some (w :: r) end) l
  | VStrings l => Some (VSlice (map VString l))
  end.

(** ** Field definitions *)

Definition zero_SimpleType : SimpleType := {| kind := KindUnknown ""; simple_default := VNil |}.
Definition SimpleType_in_json (t : SimpleType) : option SimpleType :=
  d ← in_json (simple_default t); Some {| kind := kind t; simple_default := d |}.

(** A missing list is [null]. *)
Definition Values_in_json (l : option (list gval)) : option (option (list gval)) :=
  match l with
  | None => Some None
  | Some l => l ← mapM in_json l; Some (Some l)
  end.

(** [FieldDefinition.UnmarshalJSON] on what was marshalled from a type: the
    kind, at the top for a simple type and under [simple_type] otherwise,
    picks the type to decode into, whatever was encoded.  [None]: an error. *)
Definition FieldType_in_json (t : FieldType) : option FieldType :=
  if is_ok (ConvertStringToKind (Kind_String (GetKind t))) then
  match t with
  | FSimple t =>
      t ← SimpleType_in_json t;
      Some (match kind t with
            | KindList => FList {| list_simple := zero_SimpleType; ComponentType := zero_SimpleType;
                                   list_default := simple_default t |}
            | KindEnum => FEnum {| enum_simple := zero_SimpleType; BaseType := zero_SimpleType;
                                   Values := None; RewritableValues := false;
                                   enum_default := simple_default t |}
            | _ => FSimple t
            end)
  | FEnum t =>
      s ← SimpleType_in_json (enum_simple t); b ← SimpleType_in_json (BaseType t);
      vs ← Values_in_json (Values t); d ← in_json (enum_default t);
      Some (match kind s with
            | KindList => FList {| list_simple := s; ComponentType := zero_SimpleType;
                                   list_default := d |}
            | KindEnum => FEnum {| enum_simple := s; BaseType := b; Values := vs;
                                   RewritableValues := RewritableValues t; enum_default := d |}
            | _ => FSimple {| kind := KindUnknown ""; simple_default := d |}
            end)
  | FList t =>
      s ← SimpleType_in_json (list_simple t); c ← SimpleType_in_json (ComponentType t);
      d ← in_json (list_default t);
      Some (match kind s with
            | KindList => FList {| list_simple := s; ComponentType := c; list_default := d |}
            | KindEnum => FEnum {| enum_simple := s; BaseType := zero_SimpleType; Values := None;
                                   RewritableValues := false; enum_default := d |}
            | _ => FSimple {| kind := KindUnknown ""; simple_default := d |}
            end)
  end
  else None.
Definition FieldDefinition_in_json (f : FieldDefinition) : option FieldDefinition :=
  t ← FieldType_in_json (Type_ f);
  Some {| Required := Required f; ReadOnly := ReadOnly f; Label := Label f;
          Description := Description f; Type_ := t |}.

(** ** What is stable in a column *)

(** Values that a column gives back as they are. *)
Fixpoint json_value (v : gval) : bool :=
  match v with
  | VNil | VString _ | VBool _ => true
  | VFloat64 (S754_zero false) | VFloat64 (S754_finite _ _ _) => true
  | VMap m => (fix go (m : list (string * gval)) : bool :=
                 match m with [] => true | (_, v) :: m => json_value v && go m end) m
  | VSlice l => (fix go (l : list gval) : bool :=
                   match l with [] => true | v :: l => json_value v && go l end) l
  | _ => false
  end.

Section gval_induction.
Context (P : gval → Prop) (leaf : ∀ v, match v with VMap _ | VSlice _ => False | _ => True end → P v)
  (map_case : ∀ m, Forall (λ kv, P kv.2) m → P (VMap m))
  (slice_case : ∀ l, Forall P l → P (VSlice l)).
Fixpoint gval_ind' (v : gval) : P v :=
  match v with
  | VMap m => map_case m
      ((fix go (m : list (string * gval)) : Forall (λ kv, P kv.2) m :=
          match m with
          | [] => List.Forall_nil _
          | kv :: m => List.Forall_cons _ kv m (gval_ind' kv.2) (go m)
          end) m)
  | VSlice l => slice_case l
      ((fix go (l : list gval) : Forall P l :=
          match l with
          | [] => List.Forall_nil _
          | v :: l => List.Forall_cons _ v l (gval_ind' v) (go l)
          end) l)
  | v => leaf v I
  end.
End gval_induction.

Lemma in_json_stable v : json_value v = true → in_json v = Some v.
Proof.
  induction v as [v Hv|m IH|l IH] using gval_ind'; intros H.
  - destruct v; try done. cbn [json_value in_json] in *. by destruct f as [[]| | |].
  - cbn [in_json json_value] in *. induction IH as [|[k v] m Hv _ IHm]; [done|].
    apply andb_prop in H as [H1 H2]. cbn [snd] in Hv. rewrite (Hv H1). specialize (IHm H2).
    cbn [mbind option_bind].
    destruct ((fix go m := match m with [] => Some [] | (k, v) :: m => _ end) m) as [m'|]; [|done].
    simpl in *. by injection IHm as ->.
  - cbn [in_json json_value] in *. induction IH as [|v l Hv _ IHl]; [done|].
    apply andb_prop in H as [H1 H2]. rewrite (Hv H1). specialize (IHl H2).
    cbn [mbind option_bind].
    destruct ((fix go l := match l with [] => Some [] | v :: l => _ end) l) as [l'|]; [|done].
    simpl in *. by injection IHl as ->.
Qed.

(** The values a type holds come back from a column as they are. *)
Definition SimpleType_json (t : SimpleType) : bool := json_value (simple_default t).
Definition FieldType_json (t : FieldType) : bool :=
  match t with
  | FSimple t => SimpleType_json t
  | FEnum t => SimpleType_json (enum_simple t) && SimpleType_json (BaseType t)
               && forallb json_value (values_of t) && json_value (enum_default t)
  | FList t => SimpleType_json (list_simple t) && SimpleType_json (ComponentType t)
               && json_value (list_default t)
  end.
Lemma SimpleType_in_json_stable t : SimpleType_json t = true → SimpleType_in_json t = Some t.
Proof.
  unfold SimpleType_json, SimpleType_in_json. intros H. rewrite (in_json_stable _ H). by destruct t.
Qed.
Lemma mapM_in_json_stable l : forallb json_value l = true → mapM in_json l = Some l.
Proof.
  induction l as [|v l IH]; [done|]. cbn [forallb]. intros [Hv Hl]%andb_prop.
  simpl. rewrite (in_json_stable _ Hv). simpl. by rewrite (IH Hl).
Qed.

(** A field type that passes Validate, whose kind is a declared one and whose values are JSON values, is decoded
    from its column as it was encoded. *)
Theorem FieldType_in_json_valid IsURL t
    (Hvalid : Validate IsURL t = Ok tt) (Hkind : ∀ k, GetKind t ≠ KindUnknown k)
    (Hjson : FieldType_json t = true) :
  FieldType_in_json t = Some t.
Proof.
  unfold FieldType_in_json. 
  assert (HK : ConvertStringToKind (Kind_String (GetKind t)) = Ok (GetKind t))
    by by apply ConvertStringToKind_spec.
  rewrite HK. cbn [is_ok]. clear HK Hkind.
  destruct t as [t|t|t]; cbn [FieldType_json Validate] in *.
  - rewrite SimpleType_in_json_stable by done. simpl.
    unfold SimpleType_Validate in Hvalid. by destruct (kind t).
  - rewrite !andb_true_iff in Hjson. destruct Hjson as [[[H1 H2] H3] H4].
    rewrite !SimpleType_in_json_stable, (in_json_stable _ H4) by done.
    assert (HV : Values_in_json (Values t) = Some (Values t)).
    { unfold values_of in H3. destruct (Values t) as [l|]; [|done]. simpl in *.
      by rewrite (mapM_in_json_stable l H3). }
    cbn [mbind option_bind]. rewrite HV. simpl. unfold EnumType_Validate in Hvalid.
    case_bool_decide as Hk; [|done]. rewrite Hk. by destruct t.
  - rewrite !andb_true_iff in Hjson. destruct Hjson as [[H1 H2] H3].
    rewrite !SimpleType_in_json_stable, (in_json_stable _ H3) by done. simpl.
    unfold ListType_Validate in Hvalid. case_bool_decide as Hk; [|done]. rewrite Hk. by destruct t.
Qed.

(** ** A field through its column *)

(** The value [v'] that a field shows is the one that was given for it, but
    for the rounding of numbers. *)
Inductive kept : Kind → gval → gval → Prop :=
  | kept_nil k : kept k VNil VNil
  | kept_text k v s :
      k ∈ [KindString; KindUser; KindIteration; KindArea; KindLabel; KindBoardColumn; KindURL] →
      text v = Some s → kept k v (VString s)
  | kept_uuid v u : AnyToUUID v = Ok u → kept KindRemoteTracker v (VUUID u)
  | kept_float f g : SFeqb f g = true → kept KindFloat (VFloat64 f) (VFloat64 g)
  | kept_int v z g z' : number v = Some z → number (VFloat64 g) = Some z' → close z z' →
      kept KindInteger v (VFloat64 g)
  | kept_instant z z' : close z z' → kept KindInstant (VTime z) (VTime z')
  | kept_markup c : kept KindMarkup (VMarkup c) (VMarkup c)
  | kept_map m c : NewMarkupContentFromMap m = Ok c → kept KindMarkup (VMap m) (VMarkup c)
  | kept_codebase c n : close (LineNumber c) n →
      kept KindCodebase (VCodebase c)
        (VCodebase {| Repository := Repository c; Branch := Branch c; FileName := FileName c;
                      LineNumber := n; CodebaseID := CodebaseID c |})
  | kept_bool b : kept KindBoolean (VBool b) (VBool b).

(** The integers of a stored value are in the range that rounding keeps. *)
Definition holds_numbers (m : gval) : Prop :=
  match m with
  | VInt z | VInt64 z => holds_int z
  | VMap m => ∀ z, map_get m LineNumberKey = Some (VInt z) → holds_int z
  | _ => True
  end.

Lemma float_refl s m e : SFeqb (S754_finite s m e) (S754_finite s m e) = true.
Proof. unfold SFeqb, SFcompare. rewrite Z.compare_refl, Pos.compare_cont_refl. by destruct s. Qed.

Section Column.
Context {HL : UuidLaws} (IsURL : string → bool) (FormatRFC3339 : Z → string).

(** Reading the column of a stored value, and storing what is read. *)
Definition column_keeps (t : SimpleType) (v j : gval) : Prop :=
  ∃ v', SimpleType_ConvertFromModel t j = Ok v' ∧ kept (kind t) v v' ∧
    ∃ m', SimpleType_ConvertToModel IsURL t v' = Ok m' ∧ in_json m' = Some j.

Lemma column_keeps_text t v s :
  kind t ∈ [KindString; KindUser; KindIteration; KindArea; KindLabel; KindBoardColumn] →
  text v = Some s → column_keeps t v (VString s).
Proof.
  intros Hk Hs. exists (VString s). unfold SimpleType_ConvertFromModel, SimpleType_ConvertToModel.
  split_and!; [|constructor; [set_solver|done]|exists (VString s)];
    rewrite !elem_of_cons, elem_of_nil in Hk;
    by destruct Hk as [->|[->|[->|[->|[->|[->|[]]]]]]].
Qed.
Lemma column_keeps_int t v z :
  kind t = KindInteger → number v = Some z → holds_int z →
  column_keeps t v (VFloat64 (float_of_int z)).
Proof.
  intros Hk Hv (Hw & Hc & Hf)%float_of_int_round. exists (VFloat64 (float_of_int z)).
  unfold SimpleType_ConvertFromModel, SimpleType_ConvertToModel. rewrite Hk. split_and!; [done| |].
  - econstructor; [done| |done]. simpl. by rewrite Hw.
  - eexists. rewrite Hw. split; [done|]. simpl. by rewrite Hf.
Qed.

Lemma column_keeps_markup t v c j :
  kind t = KindMarkup → kept KindMarkup v (VMarkup c) → IsMarkupSupported (Markup c) = true →
  in_json (MarkupContent_ToMap c) = Some j → column_keeps t v j.
Proof.
  intros Hk Hv Hc Hj. destruct (markup_round c Hc) as [E1 E2]. exists (VMarkup c).
  rewrite E1 in Hj. injection Hj as <-.
  unfold SimpleType_ConvertFromModel, SimpleType_ConvertToModel. rewrite Hk, E2, Hc, E1.
  split_and!; [done|done|by eexists].
Qed.
Lemma column_keeps_codebase t c j :
  kind t = KindCodebase → Content_IsValid c = Ok tt → holds_int (LineNumber c) →
  in_json (Content_ToMap c) = Some j → column_keeps t (VCodebase c) j.
Proof.
  intros Hk Hc (_ & Hn & Hf)%float_of_int_round [= <-].
  exists (VCodebase {| Repository := Repository c; Branch := Branch c; FileName := FileName c;
                       LineNumber := float_to_int (float_of_int (LineNumber c));
                       CodebaseID := CodebaseID c |}).
  unfold SimpleType_ConvertFromModel, SimpleType_ConvertToModel, NewCodebaseContent,
    Content_IsValid, IsRepoValidURL in *. rewrite Hk. cbn [Repository].
  destruct (String.eqb (Repository c) "") eqn:E1; [done|].
  destruct (git_url (Repository c)) eqn:E2; [|done].
  split_and!; [by simpl; rewrite E1, E2|by constructor|].
  eexists. split; [done|]. simpl. by rewrite Hf.
Qed.

Lemma stored_column t v m j :
  stored IsURL (kind t) v m → holds_numbers m → in_json m = Some j → column_keeps t v j.
Proof.
  intros H Hn Hj. remember (kind t) as k eqn:Ek. symmetry in Ek.
  destruct H as [k v s Hk Hs|v u Hu|s Hs|f|v z Hv|z|z|c Hc|mm c Hm Hc|c Hc|b];
    cbn [holds_numbers] in Hn.
  - destruct v; simplify_eq/=; apply column_keeps_text; by rewrite ?Ek.
  - injection Hj as <-. exists (VUUID u).
    unfold SimpleType_ConvertFromModel, SimpleType_ConvertToModel. rewrite Ek. simpl.
    rewrite uuid_round. split_and!; [done|by constructor|by eexists].
  - injection Hj as <-. exists (VString s).
    unfold SimpleType_ConvertFromModel, SimpleType_ConvertToModel. rewrite Ek. simpl. rewrite Hs.
    split_and!; [done|constructor; [set_solver|done]|by eexists].
  - exists j. unfold SimpleType_ConvertFromModel, SimpleType_ConvertToModel. rewrite Ek.
    simpl in Hj. destruct f as [sg| | |sg mm e]; simplify_eq; (split_and!; [done| |by eexists]).
    + constructor. by destruct sg.
    + constructor. apply float_refl.
  - injection Hj as <-. by apply column_keeps_int.
  - injection Hj as <-. by apply column_keeps_int.
  - injection Hj as <-. apply float_of_int_round in Hn as (Hw & Hc & Hf).
    exists (VTime (float_to_int (float_of_int z))).
    unfold SimpleType_ConvertFromModel, SimpleType_ConvertToModel. rewrite Ek, Hw.
    split_and!; [done|by constructor|]. eexists. split; [done|]. simpl. by rewrite Hf.
  - apply (column_keeps_markup t _ c); auto using kept_markup.
  - apply (column_keeps_markup t _ c); auto using kept_map.
  - by apply column_keeps_codebase; auto.
  - injection Hj as <-. exists (VBool b).
    unfold SimpleType_ConvertFromModel, SimpleType_ConvertToModel. rewrite Ek.
    split_and!; [done|constructor|by eexists].
Qed.

(** C36: whatever a simple field accepts for storage is read back from the jsonb column it
    was written to, where every number has become a float64, as the value that was given:
    the same text, uuid, markup, codebase or truth value, an equal float, and an integer,
    instant (in nanoseconds) or line number that differs by at most one part in 2^53, hence
    not at all below 2^53; and storing what was read writes the same column again.  The
    integers stored are to lie below 2^63 - 512, where rounding does not leave an int64. *)
Theorem SimpleType_roundtrip t v m j :
  IsSimpleType (kind t) = true →
  SimpleType_ConvertToModel IsURL t v = Ok m → in_json m = Some j → holds_numbers m →
  ∃ v', SimpleType_ConvertFromModel t j = Ok v' ∧ kept (kind t) v v' ∧
    ∃ m', SimpleType_ConvertToModel IsURL t v' = Ok m' ∧ in_json m' = Some j.
Proof.
  intros Hs H Hj Hn. destruct (gval_nil_dec v) as [->|Hv].
  - injection H as <-. injection Hj as <-. exists VNil. split_and!; [done|constructor|by exists VNil].
  - eapply stored_column; [by eapply ConvertToModel_stored|done..].
Qed.


(** *** Enumerations *)



(** The values of a valid enumeration that was read from its column: scalars
    that the base type takes as they are. *)
Definition scalar_of (k : Kind) (x : gval) : Prop :=
  x = VNil ∨ 
  match x with
  | VString s => k ∈ [KindString; KindUser; KindIteration; KindArea; KindLabel; KindBoardColumn]
                 ∨ k = KindURL ∧ IsURL s = true
  | VFloat64 (S754_zero false) | VFloat64 (S754_finite _ _ _) => k = KindFloat
  | VBool _ => k = KindBoolean
  | _ => False
  end.
Lemma valid_values t x :
  EnumType_Validate IsURL t = Ok tt → forallb json_value (values_of t) = true →
  x ∈ values_of t → scalar_of (kind (BaseType t)) x.
Proof.
  intros HV HJ Hx. unfold EnumType_Validate in HV.
  case_bool_decide; [|done]. cbn [negb] in HV. destruct (negb (IsSimpleType _)) eqn:Hs; [done|].
  apply bind_ok in HV as (? & _ & HV).
  assert (HJ' : ∀ x, x ∈ values_of t → json_value x = true).
  { intros y Hy. rewrite forallb_forall in HJ. by apply HJ, list_elem_of_In. }
  assert (HM : ∃ m, EnumType_ConvertToModel IsURL t x = Ok m).
  { destruct (values_of t) as [|v0 l] eqn:E; [by apply elem_of_nil in Hx|]. rewrite <- E in *.
    apply bind_ok in HV as (ys & HV & _). rewrite E in HV, Hx. apply mapM_ok in HV.
    apply list_elem_of_lookup in Hx as [i Hi].
    destruct (Forall2_lookup_l _ _ _ _ _ HV Hi) as (m & _ & Hm). apply wrapf_ok in Hm. eauto. }
  destruct HM as (m & HM). apply enum_permitted in HM as (y & Hy & Hym & HM).
  destruct (gval_nil_dec x) as [->|Hnil]; [by left|right].
  assert (HS : stored IsURL (kind (BaseType t)) x m).
  { apply ConvertToModel_stored; [by destruct (IsSimpleType _)|done|done]. }
  apply HJ' in Hx, Hy. clear - Hx Hy Hym HS. destruct HS; try (by destruct y);
    try (by destruct y; destruct x).
  - destruct v; try done. by left.
  - by right.
  - by destruct f as [[]| | |].
Qed.





(** An enumeration of integers that was read from its column holds float64 values, and no
    converted value, an int, equals one: it does not pass Validate. *)
Theorem integer_enum_invalid t x :
  kind (BaseType t) = KindInteger → forallb json_value (values_of t) = true →
  x ∈ values_of t → x ≠ VNil → EnumType_Validate IsURL t ≠ Ok tt.
Proof.
  intros Hk HJ Hx Hn HV. destruct (valid_values t x HV HJ Hx) as [->|H]; [done|]. rewrite Hk in H.
  destruct x as [|s|ty s|z|z|z|z|z|f|b|u|z|ty|c|c|mm| |l|l]; try done.
  - rewrite !elem_of_cons, elem_of_nil in H. naive_solver.
  - by destruct f as [[]| | |].
Qed.
End Column.
End Json.

(** ** Witnesses *)

(** 2017-07-14T02:40:00.123456789Z *)
Definition some_instant : Z := 1500000000123456789.
Lemma SimpleType_roundtrip_witness :
  ∃ v', SimpleType_ConvertFromModel instant_type (VFloat64 (float_of_int some_instant)) = Ok v'
    ∧ kept KindInstant (VTime some_instant) v'
    ∧ ∃ m', SimpleType_ConvertToModel any_url instant_type v' = Ok m'
        ∧ in_json (λ _, "") (λ _, None) m' = Some (VFloat64 (float_of_int some_instant)).
Proof.
  apply (SimpleType_roundtrip (λ _, "") (λ _, None) any_url instant_type (VTime some_instant)
           (VInt64 some_instant)); [reflexivity..|].
  cbn [holds_numbers]. unfold holds_int, some_instant. lia.
Defined.
(** It comes back 21 nanoseconds early. *)
Example some_instant_read :
  SimpleType_ConvertFromModel instant_type (VFloat64 (float_of_int some_instant))
  = Ok (VTime 1500000000123456768).
Proof. reflexivity. Qed.

