(* ===== verification/Transactions.v ===== *)
(** * Database transactions

    [application.Transactional] of [application/transaction.go], for any
    store.  The deadline and the outcome of the database's own begin and
    commit are arguments. *)

From Stdlib Require Import ZArith Lia Ascii String.
From S2P Require Export Prelude.

Module Transactions.

Section Store.
Context {S : Type}.

(** What [todo] did to the store is visible only if it returned no error, did
    not panic, came back in time and the commit went through.  The error of
    [tx.Commit()] is dropped. *)
Definition Transactional (begin_err : option error) (timed_out commit_ok : bool)
    (todo : S → res unit * S) (s : S) : res unit * S :=
  match begin_err with
  | Some e => (Err (Stacked e), s)
  | None =>
      if timed_out then (Err (Plain "database transaction timeout"), s)
      else match todo s with
           | (Err e, _) => (Err (Stacked e), s)
           | (Panic _, _) => (Err (Stacked (Plain "recovered %v. stack: %s")), s)
           | (Ok _, s') => (Ok tt, if commit_ok then s' else s)
           end
  end.

Lemma Transactional_outcome begin_err timed_out commit_ok todo s :
  let '(r, s') := Transactional begin_err timed_out commit_ok todo s in
  is_panic r = false ∧
  (s' = s ∨ (r = Ok tt ∧ commit_ok = true ∧ todo s = (Ok tt, s'))) ∧
  (r = Ok tt → ∃ s'', todo s = (Ok tt, s'') ∧ (commit_ok = true → s' = s'')).
Proof.
  unfold Transactional. destruct begin_err; [naive_solver|].
  destruct timed_out; [naive_solver|].
  destruct (todo s) as [[[]| |] s'']; [|naive_solver..].
  destruct commit_ok; split_and!; naive_solver.
Qed.
(** A transaction never panics; the store changes only to what a successful todo left, and only when success is
    reported. *)
Theorem Transactional_atomic begin_err timed_out commit_ok todo s :
  let '(r, s') := Transactional begin_err timed_out commit_ok todo s in
  is_panic r = false ∧
  (s' = s ∨ (r = Ok tt ∧ commit_ok = true ∧ todo s = (Ok tt, s'))) ∧
  (r = Ok tt → ∃ s'', todo s = (Ok tt, s'') ∧ (commit_ok = true → s' = s'')).
Proof. by apply Transactional_outcome. Qed.

(** A commit the database refuses is reported as success although nothing was stored. *)
Theorem Transactional_lost_commit todo s s' (H : todo s = (Ok tt, s')) :
  Transactional None false false todo s = (Ok tt, s).
Proof. unfold Transactional. by rewrite H. Qed.

(** A transaction that begins, ends in time and is committed, with what [todo] leaves in the variables of the
    caller. *)
Definition transact {A} (todo : S → res A * S) (s : S) : res A * S :=
  match todo s with
  | (Ok a, s') => (Ok a, s')
  | (Err e, _) => (Err (Stacked e), s)
  | (Panic _, _) => (Err (Stacked (Plain "recovered %v. stack: %s")), s)
  end.
Lemma transact_Transactional {A} (todo : S → res A * S) s :
  Transactional None false true (λ s, let '(r, s') := todo s in (_ ← r; Ok tt, s')) s =
  let '(r, s') := transact todo s in (_ ← r; Ok tt, s').
Proof. unfold Transactional, transact. by destruct (todo s) as [[a|e|m] s']. Qed.
Lemma transact_ok {A} (todo : S → res A * S) s a s' : transact todo s = (Ok a, s') ↔ todo s = (Ok a, s').
Proof. unfold transact. destruct (todo s) as [[b|e|m] s1]; naive_solver. Qed.
Lemma transact_err {A} (todo : S → res A * S) s r s' : transact todo s = (r, s') → s' = s ∨ todo s = (r, s').
Proof. unfold transact. destruct (todo s) as [[b|e|m] s1]; naive_solver. Qed.

End Store.

Lemma Transactional_lost_commit_witness :
  Transactional None false false (λ n, (Ok tt, n + 1)) 41 = (Ok tt, 41).
Proof. apply (Transactional_lost_commit (λ n, (Ok tt, n + 1)) 41 42). reflexivity. Defined.

End Transactions.
