(* ===== verification/Links.v ===== *)
(** * Work item links and their types

    [workitem/link/topology.go], [type.go], [link.go], [ancestor.go],
    [link_revision.go] and [gormsupport/lifecycle.go]: the data, the validity
    checks, the equalities and the list helpers. *)

From Stdlib Require Import ZArith Lia Ascii String.
From S2P Require Export Prelude.

(** ** Lifecycle: creation, update and soft-deletion instants *)

(** A [time.Time]: the instant in nanoseconds, and what [reflect.DeepEqual]
    tells apart besides it (the location and the monotonic reading). *)
Record Time := { instant : Z; representation : Z }.
#[export] Instance Time_eq_dec : EqDecision Time.
Proof. solve_decision. Defined.
Definition Time_Equal (t u : Time) : bool := instant t =? instant u.

Record Lifecycle := { CreatedAt : Time; UpdatedAt : Time; DeletedAt : option Time }.
#[export] Instance Lifecycle_eq_dec : EqDecision Lifecycle.
Proof. solve_decision. Defined.

Definition Lifecycle_Equal (lc other : Lifecycle) : bool :=
  if negb (Time_Equal (CreatedAt lc) (CreatedAt other)) then false
  else if negb (Time_Equal (UpdatedAt lc) (UpdatedAt other)) then false
  else if negb (bool_decide (DeletedAt lc = DeletedAt other)) then false
  else true.
Definition Lifecycle_EqualValue (lc other : Lifecycle) : bool := Lifecycle_Equal lc other.
(** [deleted_at IS NULL] *)
Definition live (lc : Lifecycle) : bool := bool_decide (DeletedAt lc = None).

(** ** Topologies *)

(** [type Topology string] *)
Notation Topology := string (only parsing).
Definition Topology_String (t : Topology) : string := t.
Definition TopologyNetwork : Topology := "network".
Definition TopologyDirectedNetwork : Topology := "directed_network".
Definition TopologyDependency : Topology := "dependency".
Definition TopologyTree : Topology := "tree".

Definition Topology_CheckValid (t : Topology) : res unit :=
  if bool_decide (t ∈ [TopologyNetwork; TopologyDirectedNetwork; TopologyDependency; TopologyTree])
  then Ok tt
  else Err (BadParameterError "topolgy" t (Some "network|directed_network|dependency|tree") None).

(** What the database driver or a caller hands to [Scan]; the assignment is
    kept even when the check that follows fails. *)
Inductive topology_source := TBytes (b : string) | TString (s : string)
  | TTopology (t : Topology) | TOther.
Definition Topology_Scan (old : Topology) (value : topology_source) : Topology * res unit :=
  match value with
  | TBytes s | TString s => (s, Topology_CheckValid s)
  | TTopology t => (t, Topology_CheckValid t)
  | TOther => (old, Err (Plain "failed to convert value of type %[1]T to topology: %[1]v"))
  end.
Definition Topology_Value (t : Topology) : string := Topology_String t.

(** ** Link types *)

Record WorkItemLinkType := {
  lt_Lifecycle : Lifecycle;
  lt_ID : uuid;
  lt_Name : string;
  lt_Description : option string;
  lt_Version : Z;
  lt_Topology : Topology;
  lt_ForwardName : string;
  lt_ForwardDescription : option string;
  lt_ReverseName : string;
  lt_ReverseDescription : option string;
  lt_SpaceTemplateID : uuid;
}.

Definition LinkType_Equal (t other : WorkItemLinkType) : bool :=
  if negb (bool_decide (lt_ID t = lt_ID other)) then false
  else if negb (String.eqb (lt_Name t) (lt_Name other)) then false
  else if negb (lt_Version t =? lt_Version other) then false
  else if negb (Lifecycle_Equal (lt_Lifecycle t) (lt_Lifecycle other)) then false
  else if negb (bool_decide (lt_Description t = lt_Description other)) then false
  else if negb (bool_decide (lt_ForwardDescription t = lt_ForwardDescription other)) then false
  else if negb (bool_decide (lt_ReverseDescription t = lt_ReverseDescription other)) then false
  else if negb (bool_decide (lt_Topology t = lt_Topology other)) then false
  else if negb (String.eqb (lt_ForwardName t) (lt_ForwardName other)) then false
  else if negb (String.eqb (lt_ReverseName t) (lt_ReverseName other)) then false
  else if negb (bool_decide (lt_SpaceTemplateID t = lt_SpaceTemplateID other)) then false
  else true.

Definition lt_with_version_lifecycle (t : WorkItemLinkType) (v : Z) (lc : Lifecycle)
    : WorkItemLinkType :=
  {| lt_Lifecycle := lc; lt_ID := lt_ID t; lt_Name := lt_Name t;
     lt_Description := lt_Description t; lt_Version := v; lt_Topology := lt_Topology t;
     lt_ForwardName := lt_ForwardName t; lt_ForwardDescription := lt_ForwardDescription t;
     lt_ReverseName := lt_ReverseName t; lt_ReverseDescription := lt_ReverseDescription t;
     lt_SpaceTemplateID := lt_SpaceTemplateID t |}.
Definition LinkType_EqualValue (t other : WorkItemLinkType) : bool :=
  LinkType_Equal (lt_with_version_lifecycle t (lt_Version other) (lt_Lifecycle other)) other.

Definition LinkType_CheckValidForCreation (t : WorkItemLinkType) : res unit :=
  if String.eqb (lt_Name t) "" then Err (BadParameterError "name" (lt_Name t) None None)
  else if String.eqb (lt_ForwardName t) ""
  then Err (BadParameterError "forward_name" (lt_ForwardName t) None None)
  else if String.eqb (lt_ReverseName t) ""
  then Err (BadParameterError "reverse_name" (lt_ReverseName t) None None)
  else _ ← with_stack (Topology_CheckValid (lt_Topology t));
       if bool_decide (lt_SpaceTemplateID t = uuid_Nil)
       then Err (BadParameterError "space_template_id" "00000000-0000-0000-0000-000000000000"
                   None None)
       else Ok tt.

(** ** Links *)

Record WorkItemLink := {
  l_Lifecycle : Lifecycle;
  l_ID : uuid;
  l_Version : Z;
  SourceID : uuid;
  TargetID : uuid;
  LinkTypeID : uuid;
}.
#[export] Instance WorkItemLink_eq_dec : EqDecision WorkItemLink.
Proof. solve_decision. Defined.

Definition Link_Equal (l other : WorkItemLink) : bool :=
  if negb (bool_decide (l_ID l = l_ID other)) then false
  else if negb (l_Version l =? l_Version other) then false
  else if negb (Lifecycle_Equal (l_Lifecycle l) (l_Lifecycle other)) then false
  else if negb (bool_decide (SourceID l = SourceID other)) then false
  else if negb (bool_decide (TargetID l = TargetID other)) then false
  else if negb (bool_decide (LinkTypeID l = LinkTypeID other)) then false
  else true.
Definition l_with_version_lifecycle (l : WorkItemLink) (v : Z) (lc : Lifecycle) : WorkItemLink :=
  {| l_Lifecycle := lc; l_ID := l_ID l; l_Version := v; SourceID := SourceID l;
     TargetID := TargetID l; LinkTypeID := LinkTypeID l |}.
Definition Link_EqualValue (l other : WorkItemLink) : bool :=
  Link_Equal (l_with_version_lifecycle l (l_Version other) (l_Lifecycle other)) other.

Definition Link_CheckValidForCreation (l : WorkItemLink) : res unit :=
  if bool_decide (LinkTypeID l = uuid_Nil)
  then Err (BadParameterError "link_type_id" "00000000-0000-0000-0000-000000000000" None None)
  else Ok tt.

Definition GetParentIDOf (list : list WorkItemLink) (childID linkTypeID : uuid) : uuid :=
  match List.find (λ l, bool_decide (TargetID l = childID)
                        && bool_decide (LinkTypeID l = linkTypeID)) list with
  | Some l => SourceID l
  | None => uuid_Nil
  end.
(** The map of ids; [ToSlice] enumerates it in an unspecified order. *)
Definition GetDistinctListOfTargetIDs (list : list WorkItemLink) (linkTypeID : uuid) : gset uuid :=
  list_to_set (map TargetID (List.filter (λ l, bool_decide (LinkTypeID l = linkTypeID)) list)).

(** ** Link revisions *)

Inductive RevisionType := RevisionTypeCreate | RevisionTypeDelete | RevisionTypeUpdate.
Definition RevisionType_code (t : RevisionType) : Z :=
  match t with RevisionTypeCreate => 1 | RevisionTypeDelete => 2 | RevisionTypeUpdate => 4 end.
Record Revision := {
  rev_Time : Time;
  rev_Type : RevisionType;
  ModifierIdentity : uuid;
  WorkItemLinkID : uuid;
  WorkItemLinkVersion : Z;
  WorkItemLinkSourceID : uuid;
  WorkItemLinkTargetID : uuid;
  WorkItemLinkTypeID : uuid;
}.

(** ** Ancestors *)

Definition AncestorLevelAll : Z := -1.
Definition AncestorLevelParent : Z := 1.
Definition AncestorLevelGrandParent : Z := 2.
Definition AncestorLevelGreatGrandParent : Z := 3.

Record Ancestor := {
  a_ID : uuid;
  DirectChildID : uuid;
  OriginalChildID : uuid;
  IsRoot : bool;
  Level : Z;
}.
Definition GetDistinctAncestorIDs (l : list Ancestor) : gset uuid :=
  list_to_set (map a_ID l).
Definition GetParentOf (l : list Ancestor) (workItemID : uuid) : option Ancestor :=
  List.find (λ a, bool_decide (DirectChildID a = workItemID)) l.

(** ** Properties *)

Ltac negb_if :=
  repeat match goal with
  | |- context [if negb ?b then _ else _] => destruct b eqn:?; simpl; try done
  end.

(** Equality of lifecycles identifies instants, but tells two deletion times
    apart by their representation as well. *)
Lemma Lifecycle_Equal_spec a b :
  Lifecycle_Equal a b = true ↔
    instant (CreatedAt a) = instant (CreatedAt b) ∧
    instant (UpdatedAt a) = instant (UpdatedAt b) ∧ DeletedAt a = DeletedAt b.
Proof.
  unfold Lifecycle_Equal, Time_Equal. split.
  - negb_if. rewrite ?bool_decide_eq_true in *. z_bool. done.
  - intros (-> & -> & ->). by rewrite !Z.eqb_refl, bool_decide_true.
Qed.
Lemma Lifecycle_Equal_refl a : Lifecycle_Equal a a = true.
Proof. by apply Lifecycle_Equal_spec. Qed.

(** Scan accepts exactly the four topology names, reads back what Value wrote, and keeps an unknown name it
    has complained about. *)
Theorem Topology_Scan_spec old s :
  Topology_Scan old (TBytes (Topology_Value s)) = (s, Topology_CheckValid s) ∧
  (Topology_CheckValid s = Ok tt ↔
     s = "network" ∨ s = "directed_network" ∨ s = "dependency" ∨ s = "tree").
Proof.
  split; [done|]. unfold Topology_CheckValid. case_bool_decide as H; [|split; [done|]].
  - split; [|done]. intros _.
    unfold TopologyNetwork, TopologyDirectedNetwork, TopologyDependency, TopologyTree in H.
    set_solver.
  - intros Hs. exfalso. apply H.
    unfold TopologyNetwork, TopologyDirectedNetwork, TopologyDependency, TopologyTree.
    set_solver.
Qed.

(** Equal of links decides equality of all their columns, instants of the lifecycle compared as instants;
    EqualValue ignores the version and the lifecycle. *)
Theorem Link_Equal_spec l other :
  (Link_Equal l other = true ↔
     l_with_version_lifecycle l (l_Version l) (l_Lifecycle other) = other ∧
     Lifecycle_Equal (l_Lifecycle l) (l_Lifecycle other) = true) ∧
  (Link_EqualValue l other = true ↔
     ∃ v lc, other = l_with_version_lifecycle l v lc).
Proof.
  assert (HE : ∀ l, Link_Equal l other = true ↔
     l_with_version_lifecycle l (l_Version l) (l_Lifecycle other) = other ∧
     Lifecycle_Equal (l_Lifecycle l) (l_Lifecycle other) = true).
  { intros k. unfold Link_Equal. split.
    - negb_if. intros _. rewrite ?bool_decide_eq_true in *. z_bool.
      simplify_eq/=. destruct k, other; simpl in *; subst. done.
    - intros [Heq HL]. destruct k, other; simpl in *; injection Heq; intros; subst.
      rewrite HL, Z.eqb_refl, !bool_decide_true by done. done. }
  split; [apply HE|]. unfold Link_EqualValue. rewrite HE. simpl. split.
  - intros [<- _]. simpl. eauto.
  - intros (v & lc & ->). by rewrite Lifecycle_Equal_refl.
Qed.

(** The same for link types. *)
Lemma LinkType_Equal_spec t other :
  (LinkType_Equal t other = true ↔
     lt_with_version_lifecycle t (lt_Version t) (lt_Lifecycle other) = other ∧
     Lifecycle_Equal (lt_Lifecycle t) (lt_Lifecycle other) = true) ∧
  (LinkType_EqualValue t other = true ↔
     ∃ v lc, other = lt_with_version_lifecycle t v lc).
Proof.
  assert (HE : ∀ t, LinkType_Equal t other = true ↔
     lt_with_version_lifecycle t (lt_Version t) (lt_Lifecycle other) = other ∧
     Lifecycle_Equal (lt_Lifecycle t) (lt_Lifecycle other) = true).
  { intros k. unfold LinkType_Equal. split.
    - negb_if. intros _. rewrite ?bool_decide_eq_true, ?String.eqb_eq in *. z_bool.
      simplify_eq/=. destruct k, other; simpl in *; subst. done.
    - intros [Heq HL]. destruct k, other; simpl in *; injection Heq; intros; subst.
      rewrite HL, Z.eqb_refl, !String.eqb_refl, !bool_decide_true by done. done. }
  split; [apply HE|]. unfold LinkType_EqualValue. rewrite HE. simpl. split.
  - intros [<- _]. simpl. eauto.
  - intros (v & lc & ->). by rewrite Lifecycle_Equal_refl.
Qed.
