(* ===== verification/LinkRepository.v ===== *)
(** * The work item link repositories

    [workitem/link/link_repository.go], [type_repository.go] and
    [link_revision_repository.go], with the tables they work on.  A query is
    its result on the tables; rows come in the order of the table where the
    query states none.  Failures of the database connection are left out, the
    violations of its constraints are not.  Loading the type of a work item
    and converting its row belong to the work item component and are the
    class [WorkItemAccess]. *)

From Stdlib Require Import ZArith Lia Ascii String QArith.
From S2P Require Export Links.

(** ** The tables *)

Record item_row := {
  i_ID : uuid;
  i_SpaceID : uuid;
  i_Type : uuid;
  i_ExecutionOrder : Q;
  i_DeletedAt : option Time;
}.
Definition i_live (i : item_row) : bool := bool_decide (i_DeletedAt i = None).

Record db := {
  links : list WorkItemLink;            (* work_item_links *)
  link_types : list WorkItemLinkType;   (* work_item_link_types *)
  items : list item_row;                (* work_items *)
  revisions : list Revision;            (* work_item_link_revisions *)
  space_templates : list uuid;          (* the live rows of space_templates *)
}.
Definition set_links (d : db) (x : list WorkItemLink) : db :=
  {| links := x; link_types := link_types d; items := items d; revisions := revisions d;
     space_templates := space_templates d |}.
Definition set_link_types (d : db) (x : list WorkItemLinkType) : db :=
  {| links := links d; link_types := x; items := items d; revisions := revisions d;
     space_templates := space_templates d |}.
Definition set_items (d : db) (x : list item_row) : db :=
  {| links := links d; link_types := link_types d; items := x; revisions := revisions d;
     space_templates := space_templates d |}.
Definition set_revisions (d : db) (x : list Revision) : db :=
  {| links := links d; link_types := link_types d; items := items d; revisions := x;
     space_templates := space_templates d |}.

Definition l_live (l : WorkItemLink) : bool := live (l_Lifecycle l).
Definition lt_live (t : WorkItemLinkType) : bool := live (lt_Lifecycle t).

(** Statements thread the tables; an error leaves what was written before it. *)
Notation stm A := (db → res A * db).

Class WorkItemAccess := {
  witr_Load : uuid → res unit;              (* GormWorkItemTypeRepository.Load *)
  ConvertItem : item_row → res unit;        (* ConvertWorkItemStorageToModel *)
}.

(** The ids are printed in error values. *)
Section LinkRepository.
Context {HO : UuidOps} {HW : WorkItemAccess}.

(** ** Revisions *)

Definition Revision_Create (now : Time) (modifierID : uuid) (revisionType : RevisionType)
    (l : WorkItemLink) : stm unit := λ d,
  (Ok tt, set_revisions d (revisions d ++
    [{| rev_Time := now; rev_Type := revisionType; ModifierIdentity := modifierID;
        WorkItemLinkID := l_ID l; WorkItemLinkVersion := l_Version l;
        WorkItemLinkSourceID := SourceID l; WorkItemLinkTargetID := TargetID l;
        WorkItemLinkTypeID := LinkTypeID l |}])).

(** [order by revision_time asc] *)
Definition rev_le (a b : Revision) : Prop := instant (rev_Time a) ≤ instant (rev_Time b).
#[export] Instance rev_le_dec a b : Decision (rev_le a b).
Proof. unfold rev_le. apply _. Defined.
Definition Revision_List (d : db) (linkID : uuid) : list Revision :=
  merge_sort rev_le (List.filter (λ r, bool_decide (WorkItemLinkID r = linkID)) (revisions d)).

(** ** Work items, as the link repository sees them *)

Definition find_item (d : db) (id : uuid) : option item_row :=
  List.find (λ i, i_live i && bool_decide (i_ID i = id)) (items d).

(** [LoadFromDB], [LoadByID]: the row stands for the converted work item. *)
Definition LoadFromDB (d : db) (id : uuid) : res item_row :=
  match find_item d id with
  | Some i => Ok i
  | None => Err (NotFoundError "work item" (uuid_String id) None)
  end.
Definition LoadByID (d : db) (id : uuid) : res item_row :=
  i ← with_stack (LoadFromDB d id);
  match witr_Load (i_Type i) with
  | Err e => Err (InternalError e)
  | Panic s => Panic s
  | Ok _ => _ ← ConvertItem i; Ok i
  end.

(** A row that does not convert is logged and becomes a nil pointer. *)
Definition LoadBatchByID (d : db) (ids : list uuid) : res (list (option item_row)) :=
  mapM (λ i, match witr_Load (i_Type i) with
             | Err e => Err (InternalError e)
             | Panic s => Panic s
             | Ok _ => match ConvertItem i with
                       | Ok _ => Ok (Some i)
                       | Err _ => Ok None
                       | Panic s => Panic s
                       end
             end)
       (List.filter (λ i, i_live i && bool_decide (i_ID i ∈ ids)) (items d)).

(** ** Ancestors: the recursive query *)

Record working_row := {
  w_id : uuid;
  w_ancestor : uuid;
  w_direct_child : uuid;
  w_original_child : uuid;
  w_already_visited : list uuid;
  w_cycle : bool;
}.
#[export] Instance working_row_eq_dec : EqDecision working_row.
Proof. solve_decision. Defined.

(** [link_type_id = $1 AND deleted_at IS NULL] *)
Definition in_play (linkTypeID : uuid) (l : WorkItemLink) : bool :=
  bool_decide (LinkTypeID l = linkTypeID) && l_live l.

Definition non_recursive_term (ls : list WorkItemLink) (linkTypeID : uuid) (ids : list uuid)
    : list working_row :=
  map (λ l, {| w_id := l_ID l; w_ancestor := SourceID l; w_direct_child := TargetID l;
               w_original_child := TargetID l; w_already_visited := [l_ID l];
               w_cycle := false |})
      (List.filter (λ l, bool_decide (TargetID l ∈ ids) && in_play linkTypeID l) ls).

(** [limit] is the optional [AND array_length(already_visited, 1) < n]. *)
Definition level_ok (limit : option Z) (w : working_row) : bool :=
  match limit with
  | Some n => Z.of_nat (length (w_already_visited w)) <? n
  | None => true
  end.
Definition recursive_row (w : working_row) (l : WorkItemLink) : working_row :=
  {| w_id := l_ID l; w_ancestor := SourceID l; w_direct_child := TargetID l;
     w_original_child := w_original_child w;
     w_already_visited := w_already_visited w ++ [l_ID l];
     w_cycle := bool_decide (l_ID l ∈ w_already_visited w) |}.
Definition expand (ls : list WorkItemLink) (linkTypeID : uuid) (limit : option Z)
    (w : working_row) : list working_row :=
  map (recursive_row w)
      (List.filter (λ l, bool_decide (TargetID l = w_ancestor w) && in_play linkTypeID l
                         && negb (w_cycle w) && level_ok limit w) ls).
Definition recursive_term (ls : list WorkItemLink) (linkTypeID : uuid) (limit : option Z)
    (working : list working_row) : list working_row :=
  List.concat (map (expand ls linkTypeID limit) working).

(** [WITH RECURSIVE ... UNION ...]: the recursive term runs on the rows the
    last round added, rows already in the result are dropped, until a round
    adds none.  [None]: out of fuel. *)
Definition new_rows (result candidates : list working_row) : list working_row :=
  List.filter (λ w, bool_decide (w ∉ result)) (remove_dups candidates).
Fixpoint with_recursive (fuel : nat) (ls : list WorkItemLink) (linkTypeID : uuid)
    (limit : option Z) (working result : list working_row) : option (list working_row) :=
  match working, fuel with
  | [], _ => Some result
  | _, O => None
  | _, S fuel =>
      let added := new_rows result (recursive_term ls linkTypeID limit working) in
      with_recursive fuel ls linkTypeID limit added (result ++ added)
  end.
(** A row that is not a cycle visits distinct links, so there are at most as
    many rounds as links, one more that meets cycles and one that is empty. *)
Definition rounds (ls : list WorkItemLink) : nat := S (S (length ls)).

(** [is_root] looks at the deleted links too, as the query is written. *)
Definition is_root (ls : list WorkItemLink) (linkTypeID ancestor : uuid) : bool :=
  negb (existsb (λ l, bool_decide (TargetID l = ancestor)
                      && bool_decide (LinkTypeID l = linkTypeID)) ls).
Definition Ancestor_of_row (ls : list WorkItemLink) (linkTypeID : uuid) (w : working_row)
    : Ancestor :=
  {| a_ID := w_ancestor w; DirectChildID := w_direct_child w;
     OriginalChildID := w_original_child w;
     IsRoot := is_root ls linkTypeID (w_ancestor w);
     Level := Z.of_nat (length (w_already_visited w)) |}.

Definition GetAncestors (d : db) (linkTypeID : uuid) (upToLevel : Z) (workItemIDs : list uuid)
    : res (list Ancestor) :=
  if Nat.ltb (length workItemIDs) 1 then Ok []
  else if (upToLevel <=? 0) && negb (upToLevel =? AncestorLevelAll) then Ok []
  else
    let limit := if negb (upToLevel =? AncestorLevelAll) && (0 <? upToLevel)
                 then Some upToLevel else None in
    let start := remove_dups (non_recursive_term (links d) linkTypeID workItemIDs) in
    match with_recursive (rounds (links d)) (links d) linkTypeID limit start start with
    | Some rows => Ok (map (Ancestor_of_row (links d) linkTypeID) rows)
    | None => Panic "the recursive query did not end"
    end.

(** ** Topology checks *)

Definition HasParent (d : db) (childID : uuid) (linkType : WorkItemLinkType) : bool :=
  existsb (λ l, in_play (lt_ID linkType) l && bool_decide (TargetID l = childID)) (links d).

Definition DetectCycle (d : db) (sourceID targetID linkTypeID : uuid) : res bool :=
  ancestors ← wrapf "failed to check if the work item %s has a parent work item"
                (GetAncestors d linkTypeID AncestorLevelAll [sourceID]);
  Ok (existsb (λ a, bool_decide (a_ID a = targetID)) ancestors).

(** "check to disallow multiple parents in tree topology" *)
Definition check_single_parent (d : db) (targetID : uuid) (linkType : WorkItemLinkType)
    : res unit :=
  if String.eqb (lt_Topology linkType) TopologyTree && HasParent d targetID linkType
  then Err (BadParameterError "linkTypeID + targetID" "%s + %d"
              (Some "single parent in tree topology") None)
  else Ok tt.
(** "Check to disallow cycles in tree and dependency topologies" *)
Definition check_no_cycle (d : db) (sourceID targetID : uuid) (linkType : WorkItemLinkType)
    : res unit :=
  if String.eqb (lt_Topology linkType) TopologyTree
     || String.eqb (lt_Topology linkType) TopologyDependency
  then hasCycle ← wrapf "error during cycle-detection of new link"
                    (DetectCycle d sourceID targetID (lt_ID linkType));
       if (hasCycle : bool)
       then Err (DataConflictError "linking the work item %s to %s would create a cycle which isn't allowed in a %s topology")
       else Ok tt
  else Ok tt.
Definition ValidateTopology (d : db) (sourceID targetID : uuid) (linkType : WorkItemLinkType)
    : res unit :=
  _ ← check_single_parent d targetID linkType;
  check_no_cycle d sourceID targetID linkType.

(** ** Link types *)

Definition LinkType_Load (d : db) (ID : uuid) : res WorkItemLinkType :=
  match List.find (λ t, lt_live t && bool_decide (lt_ID t = ID)) (link_types d) with
  | Some t => Ok t
  | None => Err (NotFoundError "work item link type" (uuid_String ID) None)
  end.

(** [work_item_link_types_name_idx]: unique (name, space_template_id) among live rows. *)
Definition name_taken (d : db) (t : WorkItemLinkType) : bool :=
  existsb (λ u, lt_live u && negb (bool_decide (lt_ID u = lt_ID t))
                && String.eqb (lt_Name u) (lt_Name t)
                && bool_decide (lt_SpaceTemplateID u = lt_SpaceTemplateID t)) (link_types d).

Definition created (now : Time) : Lifecycle :=
  {| CreatedAt := now; UpdatedAt := now; DeletedAt := None |}.
Definition lt_with_ID (t : WorkItemLinkType) (ID : uuid) (lc : Lifecycle) : WorkItemLinkType :=
  {| lt_Lifecycle := lc; lt_ID := ID; lt_Name := lt_Name t;
     lt_Description := lt_Description t; lt_Version := lt_Version t;
     lt_Topology := lt_Topology t; lt_ForwardName := lt_ForwardName t;
     lt_ForwardDescription := lt_ForwardDescription t; lt_ReverseName := lt_ReverseName t;
     lt_ReverseDescription := lt_ReverseDescription t;
     lt_SpaceTemplateID := lt_SpaceTemplateID t |}.

(** A nil id is filled in by the database ([newID]); gorm fills in the times
    that are not set, taken here as never set by a caller. *)
Definition LinkType_Create (now : Time) (newID : uuid) (linkType : WorkItemLinkType)
    : stm WorkItemLinkType := λ d,
  match LinkType_CheckValidForCreation linkType with
  | Err e => (Err (Stacked e), d)
  | Panic s => (Panic s, d)
  | Ok _ =>
      let ID := if bool_decide (lt_ID linkType = uuid_Nil) then newID else lt_ID linkType in
      let row := lt_with_ID linkType ID (created now) in
      if existsb (λ t, bool_decide (lt_ID t = ID)) (link_types d)
      then (Err (InternalError (Wrapped "failed to create link type"
                   (Plain "duplicate key value violates work_item_link_types_pkey"))), d)
      else if name_taken d row
      then (Err (DataConflictError "work item link type already exists with the same space_template_id: %s; name: %s "), d)
      else (Ok row, set_link_types d (link_types d ++ [row]))
  end.

Definition SystemBaseTemplateID : uuid := uuid_of 0x1f48b7bfbc51482381019f10039035ba.
(** [Order(name)], in byte order. *)
Definition lt_name_le (a b : WorkItemLinkType) : Prop :=
  String.leb (lt_Name a) (lt_Name b) = true.
#[export] Instance lt_name_le_dec a b : Decision (lt_name_le a b).
Proof. unfold lt_name_le. apply _. Defined.
Definition LinkType_List (d : db) (spaceTemplateID : uuid) : res (list WorkItemLinkType) :=
  if negb (bool_decide (spaceTemplateID ∈ space_templates d))
  then Err (NotFoundError "space template" (uuid_String spaceTemplateID) None)
  else Ok (merge_sort lt_name_le
             (List.filter (λ t, lt_live t &&
                (bool_decide (lt_SpaceTemplateID t = spaceTemplateID)
                 || bool_decide (lt_SpaceTemplateID t = SystemBaseTemplateID))) (link_types d))).

(** [Save] writes every column, the lifecycle of its argument included, and
    stamps the update time. *)
Definition LinkType_Save (now : Time) (modelToSave : WorkItemLinkType)
    : stm WorkItemLinkType := λ d,
  match LinkType_Load d (lt_ID modelToSave) with
  | Err e => (Err e, d)
  | Panic s => (Panic s, d)
  | Ok existingModel =>
      match LinkType_CheckValidForCreation modelToSave with
      | Err e => (Err (Stacked e), d)
      | Panic s => (Panic s, d)
      | Ok _ =>
          if negb (lt_Version existingModel =? lt_Version modelToSave)
          then (Err (VersionConflictError "version conflict"), d)
          else if negb (bool_decide (lt_SpaceTemplateID existingModel
                                     = lt_SpaceTemplateID modelToSave))
          then (Err (ForbiddenError "you must not change the link types association to a space"), d)
          else if is_err (Topology_CheckValid (lt_Topology modelToSave))
          then (Err (BadParameterError "topology" (lt_Topology modelToSave) None None), d)
          else
            let row := lt_with_version_lifecycle modelToSave
                         (wrap64 (lt_Version modelToSave + 1))
                         {| CreatedAt := CreatedAt (lt_Lifecycle modelToSave); UpdatedAt := now;
                            DeletedAt := DeletedAt (lt_Lifecycle modelToSave) |} in
            if lt_live row && name_taken d row
            then (Err (DataConflictError "work item link type already exists within the same space: %s; name: %s"), d)
            else (Ok row,
                  set_link_types d (map (λ t, if lt_live t && bool_decide (lt_ID t = lt_ID row)
                                              then row else t) (link_types d)))
      end
  end.

(** ** Creating a link *)

(** The items that could be loaded must lie in one space. *)
Fixpoint same_space (spaceID : uuid) (l : list (option item_row)) : res unit :=
  match l with
  | [] => Ok tt
  | None :: _ => Panic "invalid memory address or nil pointer dereference"
  | Some i :: l =>
      if negb (bool_decide (i_SpaceID i = spaceID))
      then Err (Plain "cross-space links are not allowed (for now)")
      else same_space spaceID l
  end.
Definition spaceID_of_items (l : list (option item_row)) : res uuid :=
  match l with
  | [] => Panic "index out of range"
  | None :: _ => Panic "invalid memory address or nil pointer dereference"
  | Some i :: _ => _ ← same_space (i_SpaceID i) l; Ok (i_SpaceID i)
  end.

(** Everything [Create] does before it asks for the lock: the space to lock. *)
Definition Create_check (d : db) (sourceID targetID linkTypeID : uuid) : res uuid :=
  _ ← with_stack (Link_CheckValidForCreation
        {| l_Lifecycle := {| CreatedAt := {| instant := 0; representation := 0 |};
                             UpdatedAt := {| instant := 0; representation := 0 |};
                             DeletedAt := None |};
           l_ID := uuid_Nil; l_Version := 0;
           SourceID := sourceID; TargetID := targetID; LinkTypeID := linkTypeID |});
  its ← wrapf "failed to load source and target work items: %+v"
          (LoadBatchByID d [sourceID; targetID]);
  spaceID_of_items its.

(** [work_item_links_unique_idx], and the foreign keys, which a deleted row
    of work_items satisfies too. *)
Definition link_exists (d : db) (l : WorkItemLink) : bool :=
  existsb (λ k, l_live k && bool_decide (SourceID k = SourceID l)
                && bool_decide (TargetID k = TargetID l)
                && bool_decide (LinkTypeID k = LinkTypeID l)) (links d).
Definition item_row_exists (d : db) (id : uuid) : bool :=
  existsb (λ i, bool_decide (i_ID i = id)) (items d).

Definition insert_link (l : WorkItemLink) : stm unit := λ d,
  if existsb (λ k, bool_decide (l_ID k = l_ID l)) (links d)
  then (Err (InternalError (Plain "duplicate key value violates work_item_links_pkey")), d)
  else if link_exists d l
  then (Err (DataConflictError "work item link already exists with data.relationships.source_id: %s; data.relationships.target_id: %s; data.relationships.link_type_id: %s "), d)
  else if negb (item_row_exists d (SourceID l))
  then (Err (NotFoundError "source" (uuid_String (SourceID l)) None), d)
  else if negb (item_row_exists d (TargetID l))
  then (Err (NotFoundError "target" (uuid_String (TargetID l)) None), d)
  else (Ok tt, set_links d (links d ++ [l])).

(** What [Create] does under the lock. *)
Definition Create_locked (now : Time) (newID sourceID targetID linkTypeID creatorID : uuid)
    : stm WorkItemLink :=
  let* linkType := s_map (wrapf "failed to load link type")
                     (s_query (λ d, LinkType_Load d linkTypeID)) in
  let* _ := s_map (wrapf "failed to create work item due to topology violation")
              (s_query (λ d, ValidateTopology d sourceID targetID linkType)) in
  let link := {| l_Lifecycle := created now; l_ID := newID; l_Version := 0;
                 SourceID := sourceID; TargetID := targetID; LinkTypeID := linkTypeID |} in
  let* _ := insert_link link in
  let* _ := s_map (wrapf "error while creating work item")
              (Revision_Create now creatorID RevisionTypeCreate link) in
  s_ret link.

Definition Create (now : Time) (newID sourceID targetID linkTypeID creatorID : uuid)
    : stm WorkItemLink :=
  let* _ := s_query (λ d, Create_check d sourceID targetID linkTypeID) in
  Create_locked now newID sourceID targetID linkTypeID creatorID.

(** ** Reading links *)

Definition find_link (d : db) (ID : uuid) : option WorkItemLink :=
  List.find (λ l, l_live l && bool_decide (l_ID l = ID)) (links d).
Definition Load (d : db) (ID : uuid) : res WorkItemLink :=
  match find_link d ID with
  | Some l => Ok l
  | None => Err (NotFoundError "work item link" (uuid_String ID) None)
  end.
Definition CheckExists (d : db) (ID : uuid) : res unit :=
  match find_link d ID with
  | Some _ => Ok tt
  | None => Err (NotFoundError "work_item_links" (uuid_String ID) None)
  end.
Definition related (wiID : uuid) (l : WorkItemLink) : bool :=
  bool_decide (wiID ∈ [SourceID l; TargetID l]).
Definition ListByWorkItem (d : db) (wiID : uuid) : res (list WorkItemLink) :=
  wi ← with_stack (LoadFromDB d wiID);
  Ok (List.filter (λ l, l_live l && related (i_ID wi) l) (links d)).
Definition List_links (d : db) : list WorkItemLink := List.filter l_live (links d).
Definition ListChildLinks (d : db) (linkTypeID : uuid) (parentIDs : list uuid)
    : list WorkItemLink :=
  List.filter (λ l, l_live l && bool_decide (SourceID l ∈ parentIDs)
                    && bool_decide (LinkTypeID l = linkTypeID)) (links d).

(** ** Deleting links *)

(** gorm's soft deletion of one row. *)
Definition soft_delete (now : Time) (ID : uuid) (l : WorkItemLink) : WorkItemLink :=
  if l_live l && bool_decide (l_ID l = ID)
  then {| l_Lifecycle := {| CreatedAt := CreatedAt (l_Lifecycle l);
                            UpdatedAt := UpdatedAt (l_Lifecycle l); DeletedAt := Some now |};
          l_ID := l_ID l; l_Version := l_Version l; SourceID := SourceID l;
          TargetID := TargetID l; LinkTypeID := LinkTypeID l |}
  else l.
Definition deleteLink (now : Time) (lnk : WorkItemLink) (suppressorID : uuid) : stm unit := λ d,
  if negb (existsb (λ l, l_live l && bool_decide (l_ID l = l_ID lnk)) (links d))
  then (Err (NotFoundError "work item link" (uuid_String (l_ID lnk)) None), d)
  else s_map (wrapf "error while deleting work item")
         (Revision_Create now suppressorID RevisionTypeDelete lnk)
         (set_links d (map (soft_delete now (l_ID lnk)) (links d))).
(** Both callers drop its error. *)
Definition deleteLink_ignored (now : Time) (lnk : WorkItemLink) (suppressorID : uuid)
    : stm unit := λ d, (Ok tt, (deleteLink now lnk suppressorID d).2).

Definition Delete (now : Time) (linkID suppressorID : uuid) : stm unit :=
  let* lnk := s_query (λ d, Load d linkID) in
  let* _ := s_map (wrapf "failed to load source work item for: %s")
                (s_query (λ d, LoadByID d (SourceID lnk))) in
  deleteLink_ignored now lnk suppressorID.

(** The lock is taken for the space of the first link's source. *)
Definition lock_once (locked : bool) (workitemLink : WorkItemLink) : stm unit :=
  if locked then s_ret tt
  else let* _ := s_map (wrapf "failed to load source work item for: %s")
                   (s_query (λ d, LoadByID d (SourceID workitemLink))) in
       s_ret tt.
Fixpoint delete_each (now : Time) (suppressorID : uuid) (locked : bool)
    (l : list WorkItemLink) : stm unit :=
  match l with
  | [] => s_ret tt
  | workitemLink :: l =>
      let* _ := lock_once locked workitemLink in
      let* _ := deleteLink_ignored now workitemLink suppressorID in
      delete_each now suppressorID true l
  end.
Definition DeleteRelatedLinks (now : Time) (wiID suppressorID : uuid) : stm unit :=
  let* workitemLinks := s_query (λ d, Ok (List.filter (λ l, l_live l && related wiID l) (links d))) in
  delete_each now suppressorID false workitemLinks.

(** ** Children *)

Definition SystemWorkItemLinkTypeParentChildID : uuid := uuid_of 0x25C326A76D034F5AB23B86A9EE4171E9.
Definition is_child_of (d : db) (parentID : uuid) (i : item_row) : bool :=
  existsb (λ l, bool_decide (SourceID l = parentID)
                && in_play SystemWorkItemLinkTypeParentChildID l
                && bool_decide (TargetID l = i_ID i)) (links d).

(** [order by execution_order desc] *)
Definition order_ge (a b : item_row) : Prop := (i_ExecutionOrder b <= i_ExecutionOrder a)%Q.
#[export] Instance order_ge_dec a b : Decision (order_ge a b).
Proof.
  refine (match Qlt_le_dec (i_ExecutionOrder a) (i_ExecutionOrder b) with
          | left H => right _ | right H => left H end).
  unfold order_ge. apply Qlt_not_le, H.
Defined.

Definition window {A} (start limit : option Z) (l : list A) : list A :=
  let l := match start with Some s => drop (Z.to_nat s) l | None => l end in
  match limit with Some n => take (Z.to_nat n) l | None => l end.

Definition ListWorkItemChildren (d : db) (parentID : uuid) (start limit : option Z)
    : res (list item_row * Z) :=
  match start with
  | Some s => if s <? 0 then Err (BadParameterError "start" (Itoa s) None None) else Ok tt
  | None => Ok tt
  end ≫= λ _,
  match limit with
  | Some n => if n <=? 0 then Err (BadParameterError "limit" (Itoa n) None None) else Ok tt
  | None => Ok tt
  end ≫= λ _,
  let all := merge_sort order_ge
               (List.filter (λ i, i_live i && is_child_of d parentID i) (items d)) in
  let page := window start limit all in
  let count :=
    match page with
    | _ :: _ => Z.of_nat (length all)
    | [] => (* the second query counts, still under OFFSET and LIMIT *)
        match window start limit [Z.of_nat (length all)] with c :: _ => c | [] => 0 end
    end in
  its ← mapM (λ i, match witr_Load (i_Type i) with
                   | Err e => Err (InternalError e)
                   | Panic s => Panic s
                   | Ok _ => match ConvertItem i with
                             | Ok _ => Ok i
                             | Err e => Err (InternalError e)
                             | Panic s => Panic s
                             end
                   end) page;
  Ok (its, count).

(** The items are not asked to be live. *)
Definition WorkItemHasChildren (d : db) (parentID : uuid) : bool :=
  existsb (is_child_of d parentID) (items d).

End LinkRepository.
