(* ===== verification/LinkGraph.v ===== *)
(** * The recursive query over work item links

    The [WITH RECURSIVE] query of [GetAncestors] against the transitive closure
    of the parent relation: it ends within its fuel, reports only ancestors and
    reports all of them, up to the requested level. *)

From Stdlib Require Import ZArith Lia Ascii String.
From stdpp Require Import relations.
From S2P Require Export LinkRepository.

(** [edge ls ty c p]: a live link of type [ty] makes [p] a parent of [c]. *)
Definition edge (ls : list WorkItemLink) (ty c p : uuid) : Prop :=
  ∃ l, l ∈ ls ∧ in_play ty l = true ∧ TargetID l = c ∧ SourceID l = p.
Definition acyclic (ls : list WorkItemLink) (ty : uuid) : Prop :=
  ∀ x, ¬ tc (edge ls ty) x x.
Definition single_parent (ls : list WorkItemLink) (ty : uuid) : Prop :=
  ∀ c p q, edge ls ty c p → edge ls ty c q → p = q.
Definition unique_ids (ls : list WorkItemLink) : Prop := NoDup (map l_ID ls).

Lemma in_play_true ty l :
  in_play ty l = true ↔ LinkTypeID l = ty ∧ DeletedAt (l_Lifecycle l) = None.
Proof. unfold in_play, l_live, live. by rewrite andb_true_iff, !bool_decide_eq_true. Qed.

Lemma edge_app ls ls' ty c p : edge (ls ++ ls') ty c p ↔ edge ls ty c p ∨ edge ls' ty c p.
Proof. unfold edge. setoid_rewrite elem_of_app. naive_solver. Qed.

Lemma unique_ids_eq ls l k : unique_ids ls → l ∈ ls → k ∈ ls → l_ID l = l_ID k → l = k.
Proof.
  unfold unique_ids. induction ls as [|a ls IH]; simpl; [set_solver|].
  intros [Ha Hn]%NoDup_cons Hl Hk Heq.
  apply elem_of_cons in Hl as [->|Hl]; apply elem_of_cons in Hk as [->|Hk]; [done| | |by apply IH].
  - destruct Ha. rewrite Heq. by apply list_elem_of_fmap_2.
  - destruct Ha. rewrite <- Heq. by apply list_elem_of_fmap_2.
Qed.

(** ** One round *)

Section Query.
Context (ls : list WorkItemLink) (ty : uuid) (limit : option Z).

Lemma elem_of_expand w w' :
  w' ∈ expand ls ty limit w ↔
    ∃ l, w' = recursive_row w l ∧ l ∈ ls ∧ in_play ty l = true ∧ TargetID l = w_ancestor w
         ∧ w_cycle w = false ∧ level_ok limit w = true.
Proof.
  unfold expand. rewrite list_elem_of_In, in_map_iff. setoid_rewrite filter_In.
  setoid_rewrite <- list_elem_of_In. split.
  - intros (l & <- & Hl & [[[H1 H2]%andb_prop H3]%andb_prop H4]%andb_prop).
    apply bool_decide_eq_true in H1. apply negb_true_iff in H3. by exists l.
  - intros (l & -> & Hl & Hp & Ht & Hc & Hlev). exists l. split_and!; [done..|].
    by rewrite Hp, Hc, Hlev, bool_decide_true.
Qed.

Lemma elem_of_recursive_term working w' :
  w' ∈ recursive_term ls ty limit working ↔ ∃ w, w ∈ working ∧ w' ∈ expand ls ty limit w.
Proof.
  unfold recursive_term. rewrite list_elem_of_In, in_concat.
  setoid_rewrite in_map_iff. setoid_rewrite <- list_elem_of_In. naive_solver.
Qed.

Lemma elem_of_new_rows result candidates w :
  w ∈ new_rows result candidates ↔ w ∈ candidates ∧ w ∉ result.
Proof.
  unfold new_rows. rewrite list_elem_of_In, filter_In, <- list_elem_of_In.
  by rewrite elem_of_remove_dups, bool_decide_eq_true.
Qed.

(** ** The loop *)

Lemma with_recursive_mono fuel working result final :
  with_recursive fuel ls ty limit working result = Some final → result ⊆ final.
Proof.
  revert working result; induction fuel as [|fuel IH]; intros [|w working] result; simpl;
    [by intros [= ->]|done|by intros [= ->]|].
  intros H%IH. set_solver.
Qed.

(** Rule induction on the rows of the final result. *)
Lemma with_recursive_ind (P : working_row → Prop) fuel working result final :
  with_recursive fuel ls ty limit working result = Some final →
  working ⊆ result →
  (∀ w, w ∈ result → P w) →
  (∀ w w', w ∈ final → P w → w' ∈ expand ls ty limit w → w' ∈ final → P w') →
  ∀ w, w ∈ final → P w.
Proof.
  revert working result; induction fuel as [|fuel IH]; intros [|w0 working] result; cbn [with_recursive];
    [by intros [= ->]|done|by intros [= ->]|].
  set (added := new_rows _ _). intros Hw Hsub Hres Hstep.
  pose proof (with_recursive_mono _ _ _ _ Hw) as Hm.
  apply (IH _ _ Hw); [set_solver| |done].
  intros w [?|Hadd]%elem_of_app; [by apply Hres|].
  pose proof Hadd as [(v & Hv & Hvw)%elem_of_recursive_term _]%elem_of_new_rows.
  apply (Hstep v); [|by apply Hres, Hsub|done|]; set_solver.
Qed.

(** The final result is closed under the recursive term. *)
Lemma with_recursive_closed fuel working result final :
  with_recursive fuel ls ty limit working result = Some final →
  (∀ w, w ∈ result → w ∈ working ∨ ∀ w', w' ∈ expand ls ty limit w → w' ∈ result) →
  ∀ w w', w ∈ final → w' ∈ expand ls ty limit w → w' ∈ final.
Proof.
  revert working result; induction fuel as [|fuel IH]; intros [|w0 working] result; cbn [with_recursive].
  1, 3: intros [= ->] Hinv w w' Hw; destruct (Hinv w Hw) as [?|H]; [set_solver|by apply H].
  { done. }
  set (added := new_rows _ _). intros Hw Hinv. apply (IH _ _ Hw).
  intros w [Hr|Ha]%elem_of_app; [right|by left]. intros w' Hexp.
  destruct (decide (w' ∈ result)) as [?|Hnew]; [set_solver|].
  apply elem_of_app; right. apply elem_of_new_rows; split; [|done].
  apply elem_of_recursive_term. exists w; split; [|done].
  destruct (Hinv w Hr) as [?|H]; [done|]. by destruct Hnew; apply H.
Qed.

(** ** It ends *)

Definition wf_row (w : working_row) : Prop :=
  ∃ before, w_already_visited w = before ++ [w_id w] ∧ NoDup before ∧
    before ⊆ map l_ID ls ∧ w_id w ∈ map l_ID ls ∧ (w_cycle w = false → w_id w ∉ before).

Lemma wf_row_length w : wf_row w → (length (w_already_visited w) ≤ S (length ls))%nat.
Proof.
  intros (before & -> & Hnd & Hsub & _). rewrite length_app. simpl.
  pose proof (submseteq_length _ _ (NoDup_submseteq _ _ Hnd Hsub)). rewrite length_map in *. lia.
Qed.

Lemma wf_row_expand w w' : wf_row w → w' ∈ expand ls ty limit w →
  wf_row w' ∧ length (w_already_visited w') = S (length (w_already_visited w)).
Proof.
  intros (before & Hv & Hnd & Hsub & Hid & Hc) (l & -> & Hl & _ & _ & Hcyc & _)%elem_of_expand.
  split; [|simpl; rewrite length_app; simpl; lia].
  exists (w_already_visited w). simpl. split_and!.
  - done.
  - rewrite Hv. apply NoDup_app; split_and!; [done| |apply NoDup_singleton].
    intros x Hx ->%list_elem_of_singleton. by apply Hc.
  - rewrite Hv. set_solver.
  - by apply list_elem_of_fmap_2.
  - by rewrite bool_decide_eq_false.
Qed.

Lemma with_recursive_total fuel working result k :
  (∀ w, w ∈ working → wf_row w ∧ length (w_already_visited w) = k) →
  (S (S (length ls)) ≤ k + fuel)%nat →
  is_Some (with_recursive fuel ls ty limit working result).
Proof.
  revert working result k; induction fuel as [|fuel IH];
    intros [|w0 working] result k Hwf Hk; cbn [with_recursive]; eauto.
  - destruct (Hwf w0) as [Hw Hl]; [set_solver|]. apply wf_row_length in Hw. lia.
  - apply (IH _ _ (S k)); [|lia].
    intros w [(v & Hv & Hvw)%elem_of_recursive_term _]%elem_of_new_rows.
    destruct (Hwf v Hv) as [Hwv Hl]. rewrite <- Hl. by apply wf_row_expand.
Qed.

(** ** The start of the query *)

Context (ids : list uuid).
Let start := remove_dups (non_recursive_term ls ty ids).

Lemma elem_of_start w :
  w ∈ start ↔ ∃ l, l ∈ ls ∧ TargetID l ∈ ids ∧ in_play ty l = true ∧
    w = {| w_id := l_ID l; w_ancestor := SourceID l; w_direct_child := TargetID l;
           w_original_child := TargetID l; w_already_visited := [l_ID l]; w_cycle := false |}.
Proof.
  unfold start, non_recursive_term.
  rewrite elem_of_remove_dups, list_elem_of_In, in_map_iff. setoid_rewrite filter_In.
  setoid_rewrite <- list_elem_of_In. split.
  - intros (l & <- & Hl & [H1%bool_decide_eq_true H2]%andb_prop). by exists l.
  - intros (l & Hl & Ht & Hp & ->). exists l. split_and!; [done..|].
    by rewrite Hp, bool_decide_true.
Qed.

Lemma start_wf w : w ∈ start → wf_row w ∧ length (w_already_visited w) = 1%nat.
Proof.
  intros (l & Hl & _ & _ & ->)%elem_of_start. split; [|done].
  exists []. simpl. split_and!; [done|constructor|set_solver|by apply list_elem_of_fmap_2|set_solver].
Qed.

Lemma query_total : ∃ rows, with_recursive (rounds ls) ls ty limit start start = Some rows.
Proof. apply (with_recursive_total _ _ _ 1); [apply start_wf|unfold rounds; lia]. Qed.

(** Soundness: a row is a walk along the parent relation from an item of the
    query, as long as its level and within the limit. *)
Definition walk_row (w : working_row) : Prop :=
  w_original_child w ∈ ids ∧
  nsteps (edge ls ty) (length (w_already_visited w)) (w_original_child w) (w_ancestor w) ∧
  (1 ≤ length (w_already_visited w))%nat ∧
  match limit with Some n => Z.of_nat (length (w_already_visited w)) ≤ Z.max 1 n | None => True end ∧
  edge ls ty (w_direct_child w) (w_ancestor w).

Lemma query_sound rows :
  with_recursive (rounds ls) ls ty limit start start = Some rows →
  ∀ w, w ∈ rows → walk_row w.
Proof.
  intros H. apply (with_recursive_ind _ _ _ _ _ H); [done| |].
  - intros w (l & Hl & Hids & Hp & ->)%elem_of_start. unfold walk_row. simpl.
    assert (edge ls ty (TargetID l) (SourceID l)) by (by exists l).
    split_and!; [done|by apply nsteps_once|lia|destruct limit; [lia|done]|done].
  - intros w w' _ (Hids & Hn & H1 & Hlim & _) (l & -> & Hl & Hp & Ht & _ & Hok)%elem_of_expand _.
    assert (edge ls ty (TargetID l) (SourceID l)) as He by (by exists l).
    unfold walk_row. simpl. rewrite length_app. simpl. split_and!; [done| |lia| |done].
    + apply nsteps_trans with (w_ancestor w); [done|]. apply nsteps_once. by rewrite <- Ht.
    + unfold level_ok in Hok. destruct limit; [|done]. z_bool. lia.
Qed.

(** Completeness: whatever is reached by a walk within the limit has a row,
    and one that is no cycle and no longer than the walk. *)
Definition reached (rows : list working_row) (c x : uuid) (k : nat) : Prop :=
  ∃ w, w ∈ rows ∧ w_cycle w = false ∧ w_original_child w = c ∧ w_ancestor w = x ∧
       (length (w_already_visited w) ≤ k)%nat.

Definition prefix_reached (rows : list working_row) (w : working_row) : Prop :=
  w_cycle w = false → ∀ l, l ∈ ls → l_ID l ∈ w_already_visited w →
    reached rows (w_original_child w) (SourceID l) (length (w_already_visited w)).

Lemma query_prefixes rows (HU : unique_ids ls) :
  with_recursive (rounds ls) ls ty limit start start = Some rows →
  ∀ w, w ∈ rows → prefix_reached rows w.
Proof.
  intros H. pose proof (with_recursive_mono _ _ _ _ H) as Hm.
  apply (with_recursive_ind _ _ _ _ _ H); [done| |].
  - intros w Hw _ l Hl Hin. apply elem_of_start in Hw as Hs. destruct Hs as (k & Hk & _ & _ & Heq).
    subst w. simpl in *. apply list_elem_of_singleton in Hin.
    rewrite (unique_ids_eq ls l k HU Hl Hk Hin). eexists; split; [apply Hm, Hw|]. simpl. done.
  - intros w w' Hw HP Hexp Hw' Hcyc l Hl Hin. apply elem_of_expand in Hexp as Hx.
    destruct Hx as (k & -> & Hk & _ & _ & Hc & _). simpl in Hin |- *.
    rewrite length_app. simpl. apply elem_of_app in Hin as [Hin|Hin%list_elem_of_singleton].
    + destruct (HP Hc l Hl Hin) as (v & ? & ? & ? & ? & ?). exists v. split_and!; try done. lia.
    + rewrite (unique_ids_eq ls l k HU Hl Hk Hin). eexists; split; [exact Hw'|].
      simpl in *. rewrite length_app. simpl. done.
Qed.

Lemma query_complete rows (HU : unique_ids ls) k c x :
  with_recursive (rounds ls) ls ty limit start start = Some rows →
  nsteps (edge ls ty) (S k) c x → c ∈ ids →
  match limit with Some n => Z.of_nat (S k) ≤ n | None => True end →
  reached rows c x (S k).
Proof.
  intros H. revert x. induction k as [|k IH]; intros x Hn Hc Hlim.
  - apply nsteps_once_inv in Hn as (l & Hl & Hp & Ht & Hs).
    subst c x. eexists; split;
      [apply (with_recursive_mono _ _ _ _ H), elem_of_start; by exists l|done].
  - apply nsteps_inv_r in Hn as (y & Hn & l & Hl & Hp & Ht & Hs).
    destruct (IH y) as (w & Hw & Hcy & Ho & Ha & Hlen); [done|done|destruct limit; lia|].
    destruct (decide (l_ID l ∈ w_already_visited w)) as [Hin|Hout].
    + destruct (query_prefixes rows HU H w Hw Hcy l Hl Hin) as (v & ? & ? & ? & ? & ?).
      exists v. split_and!; try done; [congruence|congruence|lia].
    + exists (recursive_row w l). simpl. rewrite length_app. simpl. split_and!; try done; [| |lia].
      * apply (with_recursive_closed _ _ _ _ H (λ w Hw, or_introl Hw) w); [done|].
        apply elem_of_expand. exists l. split_and!; [done..|congruence|done|].
        unfold level_ok. destruct limit; [apply Z.ltb_lt; lia|done].
      * by apply bool_decide_eq_false.
Qed.
End Query.

(** * What the link repository guarantees about the link graph

    Ancestors, cycle detection, and the invariant every sequence of committed
    repository calls keeps: a tree stays a forest and a dependency graph stays
    acyclic. *)

(** ** Lemmas on the graph *)

Lemma tc_app_new ls l ty x y :
  tc (edge (ls ++ [l]) ty) x y →
  tc (edge ls ty) x y ∨ (in_play ty l = true ∧ rtc (edge ls ty) x (TargetID l)).
Proof.
  induction 1 as [x y He|x z y He Htc IH].
  - apply edge_app in He as [He|(k & ->%list_elem_of_singleton & Hp & <- & _)].
    + left. by apply tc_once.
    + right. split; [done|apply rtc_refl].
  - apply edge_app in He as [He|(k & ->%list_elem_of_singleton & Hp & <- & _)].
    + destruct IH as [IH|[Hp IH]]; [left; by eapply tc_l|right].
      split; [done|by eapply rtc_l].
    + right. split; [done|apply rtc_refl].
Qed.
Lemma tc_app_new_r ls l ty x y :
  tc (edge (ls ++ [l]) ty) x y →
  tc (edge ls ty) x y ∨ (in_play ty l = true ∧ rtc (edge ls ty) (SourceID l) y).
Proof.
  induction 1 as [x y He|x z y He Htc IH].
  - apply edge_app in He as [He|(k & ->%list_elem_of_singleton & Hp & _ & <-)].
    + left. by apply tc_once.
    + right. split; [done|apply rtc_refl].
  - destruct IH as [IH|IH]; [|by right].
    apply edge_app in He as [He|(k & ->%list_elem_of_singleton & Hp & _ & <-)].
    + left. by eapply tc_l.
    + right. split; [done|]. by apply tc_rtc.
Qed.

(** A new link closes a cycle only if its target is its source or an ancestor
    of its source. *)
Lemma acyclic_add ls l ty :
  acyclic ls ty → SourceID l ≠ TargetID l →
  (in_play ty l = true → ¬ tc (edge ls ty) (SourceID l) (TargetID l)) →
  acyclic (ls ++ [l]) ty.
Proof.
  intros Hac Hne Hnew x Hx.
  destruct (tc_app_new _ _ _ _ _ Hx) as [H|[Hp H1]]; [by apply (Hac x)|].
  destruct (tc_app_new_r _ _ _ _ _ Hx) as [H|[_ H2]]; [by apply (Hac x)|].
  assert (rtc (edge ls ty) (SourceID l) (TargetID l)) as Hst by by transitivity x.
  apply rtc_tc in Hst as [?|Hst]; [done|]. by apply Hnew.
Qed.

Lemma edge_mono ls ls' ty c p :
  (∀ l, l ∈ ls → in_play ty l = true → l ∈ ls') → edge ls ty c p → edge ls' ty c p.
Proof. intros H (l & Hl & Hp & Ht & Hs). exists l. eauto. Qed.
Lemma acyclic_mono ls ls' ty :
  (∀ l, l ∈ ls → in_play ty l = true → l ∈ ls') → acyclic ls' ty → acyclic ls ty.
Proof.
  intros H Hac x Hx. apply (Hac x). apply tc_nsteps in Hx as (n & Hn & Hx).
  apply tc_nsteps. exists n. split; [done|].
  apply (nsteps_congruence (λ z, z)) with (R' := edge ls' ty) in Hx; [done|].
  intros ??. by apply edge_mono.
Qed.
Lemma single_parent_mono ls ls' ty :
  (∀ l, l ∈ ls → in_play ty l = true → l ∈ ls') → single_parent ls' ty → single_parent ls ty.
Proof. intros H HS c p q Hp Hq. apply (HS c); by eapply edge_mono. Qed.

(** ** Ancestors *)

Lemma GetAncestors_query d ty level ids :
  ids ≠ [] → 0 < level ∨ level = AncestorLevelAll →
  ∃ rows, let start := remove_dups (non_recursive_term (links d) ty ids) in
    let limit := if negb (level =? AncestorLevelAll) && (0 <? level) then Some level else None in
    with_recursive (rounds (links d)) (links d) ty limit start start = Some rows ∧
    GetAncestors d ty level ids = Ok (map (Ancestor_of_row (links d) ty) rows).
Proof.
  intros Hids Hlev. unfold GetAncestors.
  destruct ids as [|i ids]; [done|]. simpl Nat.ltb. cbn [length Nat.ltb Nat.leb].
  replace ((level <=? 0) && negb (level =? AncestorLevelAll)) with false.
  2: { destruct Hlev as [H| ->]; [|done]. by rewrite (proj2 (Z.leb_gt level 0)). }
  set (limit := if negb (level =? AncestorLevelAll) && (0 <? level) then Some level else None).
  destruct (query_total (links d) ty limit (i :: ids)) as [rows Hrows].
  exists rows. cbv zeta. by rewrite Hrows.
Qed.

Lemma GetAncestors_closure d ty ids (HU : unique_ids (links d)) :
  ∃ l, GetAncestors d ty AncestorLevelAll ids = Ok l ∧
  ∀ c x, (∃ a, a ∈ l ∧ OriginalChildID a = c ∧ a_ID a = x) ↔
         c ∈ ids ∧ tc (edge (links d) ty) c x.
Proof.
  destruct (decide (ids = [])) as [->|Hids].
  { exists []. split; [done|]. split; [|set_solver]. intros (a & Ha & _). set_solver. }
  destruct (GetAncestors_query d ty AncestorLevelAll ids Hids) as (rows & Hrows & ->);
    [by right|]. eexists; split; [done|]. intros c x. split.
  - intros (a & (w & -> & Hw)%list_elem_of_fmap & <- & <-).
    destruct (query_sound _ _ _ _ _ Hrows w Hw) as (Hc & Hn & H1 & _). simpl. split; [done|].
    apply tc_nsteps. eauto with lia.
  - intros [Hc Htc]. apply tc_nsteps in Htc as ([|k] & Hk & Hn); [lia|].
    destruct (query_complete _ _ _ _ _ HU k c x Hrows Hn Hc I) as (w & Hw & _ & Ho & Ha & _).
    exists (Ancestor_of_row (links d) ty w). split; [by apply list_elem_of_fmap_2|done].
Qed.
(** C28: GetAncestors always answers, and with AncestorLevelAll its answer holds x as an ancestor of the
    original child c exactly when c was asked for and x is reached from c by one or more parent links: the
    recursive query neither loops on a cyclic graph nor misses an ancestor because of its cycle check. *)
Theorem GetAncestors_all d ty ids (HU : unique_ids (links d)) :
  ∃ l, GetAncestors d ty AncestorLevelAll ids = Ok l ∧
  ∀ c x, (∃ a, a ∈ l ∧ OriginalChildID a = c ∧ a_ID a = x) ↔
         c ∈ ids ∧ tc (edge (links d) ty) c x.
Proof. by apply GetAncestors_closure. Qed.

(** With a level n, an ancestor is reported for a child exactly when it is reached by at most n parent links,
    and the level of every report is the length of a walk between them. *)
Theorem GetAncestors_level d ty n ids (HU : unique_ids (links d)) (Hn : 0 < n) :
  ∃ l, GetAncestors d ty n ids = Ok l ∧
  (∀ a, a ∈ l → 1 ≤ Level a ≤ n ∧
     nsteps (edge (links d) ty) (Z.to_nat (Level a)) (OriginalChildID a) (a_ID a) ∧
     edge (links d) ty (DirectChildID a) (a_ID a)) ∧
  ∀ c x, (∃ a, a ∈ l ∧ OriginalChildID a = c ∧ a_ID a = x) ↔
    c ∈ ids ∧ ∃ k, 1 ≤ Z.of_nat k ≤ n ∧ nsteps (edge (links d) ty) k c x.
Proof.
  destruct (decide (ids = [])) as [->|Hids].
  { exists []. split_and!; [done|set_solver|]. intros c x. split; [|set_solver].
    intros (a & Ha & _). set_solver. }
  destruct (GetAncestors_query d ty n ids Hids) as (rows & Hrows & ->); [by left|].
  replace (if negb (n =? AncestorLevelAll) && (0 <? n) then Some n else None)
    with (Some n) in Hrows.
  2: { unfold AncestorLevelAll. by rewrite (proj2 (Z.eqb_neq n (-1))), (proj2 (Z.ltb_lt 0 n)) by lia. }
  assert (HS : ∀ w, w ∈ rows → walk_row (links d) ty (Some n) ids w)
    by apply (query_sound _ _ _ _ _ Hrows).
  eexists; split_and!; [done| |].
  - intros a (w & -> & Hw)%list_elem_of_fmap. destruct (HS w Hw) as (_ & Hs & H1 & Hle & He).
    simpl. rewrite Nat2Z.id. split_and!; [lia|lia|done|done].
  - intros c x. split.
    + intros (a & (w & -> & Hw)%list_elem_of_fmap & <- & <-).
      destruct (HS w Hw) as (Hc & Hs & H1 & Hle & _). simpl. split; [done|].
      eexists; split; [|exact Hs]. lia.
    + intros (Hc & [|k] & Hk & Hs); [lia|].
      destruct (query_complete _ _ _ _ _ HU k c x Hrows Hs Hc) as (w & Hw & _ & Ho & Ha & _); [lia|].
      exists (Ancestor_of_row (links d) ty w). split; [by apply list_elem_of_fmap_2|done].
Qed.

(** The "is_root" mark of a reported ancestor is missing whenever any row, a deleted one included, has it as
    target: an item that lost its parent is no longer reported as a root. *)
Theorem GetAncestors_IsRoot d ty level ids l (H : GetAncestors d ty level ids = Ok l) :
  ∀ a, a ∈ l → IsRoot a = true ↔ ∀ k, k ∈ links d → TargetID k = a_ID a → LinkTypeID k ≠ ty.
Proof.
  assert (HA : ∀ w, IsRoot (Ancestor_of_row (links d) ty w) = true ↔
    ∀ k, k ∈ links d → TargetID k = a_ID (Ancestor_of_row (links d) ty w) → LinkTypeID k ≠ ty).
  { intros w. simpl. unfold is_root. rewrite negb_true_iff, <- not_true_iff_false, existsb_exists.
    setoid_rewrite andb_true_iff. setoid_rewrite bool_decide_eq_true.
    setoid_rewrite <- list_elem_of_In. firstorder congruence. }
  revert H. unfold GetAncestors. repeat case_match; intros [= <-] a; set_solver.
Qed.

Lemma DetectCycle_reach d s t ty (HU : unique_ids (links d)) :
  ∃ b, DetectCycle d s t ty = Ok b ∧ (b = true ↔ tc (edge (links d) ty) s t).
Proof.
  unfold DetectCycle. destruct (GetAncestors_closure d ty [s] HU) as (l & -> & Hl).
  eexists; split; [done|]. rewrite existsb_exists. setoid_rewrite bool_decide_eq_true.
  setoid_rewrite <- list_elem_of_In. split.
  - intros (a & Ha & <-). destruct (Hl (OriginalChildID a) (a_ID a)) as [HH _].
    destruct HH as [Hs Htc]; [by exists a|]. apply list_elem_of_singleton in Hs. by rewrite <- Hs.
  - intros Htc. destruct (proj2 (Hl s t)) as (a & Ha & _ & <-); [|by exists a].
    split; [set_solver|done].
Qed.
(** DetectCycle answers yes exactly when the new link's target is a strict ancestor of its source. *)
Theorem DetectCycle_spec d s t ty (HU : unique_ids (links d)) :
  ∃ b, DetectCycle d s t ty = Ok b ∧ (b = true ↔ tc (edge (links d) ty) s t).
Proof. by apply DetectCycle_reach. Qed.

Lemma HasParent_spec d t lt :
  HasParent d t lt = true ↔ ∃ p, edge (links d) (lt_ID lt) t p.
Proof.
  unfold HasParent, edge. rewrite existsb_exists. setoid_rewrite <- list_elem_of_In. split.
  - intros (l & Hl & [Hp Ht%bool_decide_eq_true]%andb_prop). by exists (SourceID l), l.
  - intros (p & l & Hl & Hp & Ht & _). exists l. by rewrite Hp, bool_decide_true.
Qed.

Definition tree_like (t : WorkItemLinkType) : Prop := lt_Topology t = TopologyTree.
Definition cycle_free (t : WorkItemLinkType) : Prop :=
  lt_Topology t = TopologyTree ∨ lt_Topology t = TopologyDependency.

Lemma check_single_parent_ok d t lt :
  check_single_parent d t lt = Ok tt ↔ (tree_like lt → ∀ p, ¬ edge (links d) (lt_ID lt) t p).
Proof.
  unfold check_single_parent, tree_like. pose proof (HasParent_spec d t lt) as HP.
  destruct (String.eqb_spec (lt_Topology lt) TopologyTree) as [E|E]; simpl; [|naive_solver].
  destruct (HasParent d t lt); naive_solver.
Qed.
Lemma check_no_cycle_ok d s t lt (HU : unique_ids (links d)) :
  check_no_cycle d s t lt = Ok tt ↔ (cycle_free lt → ¬ tc (edge (links d) (lt_ID lt)) s t).
Proof.
  unfold check_no_cycle, cycle_free. destruct (DetectCycle_reach d s t (lt_ID lt) HU) as (b & -> & Hb).
  destruct (String.eqb_spec (lt_Topology lt) TopologyTree) as [E|E];
    destruct (String.eqb_spec (lt_Topology lt) TopologyDependency) as [E'|E'];
    cbn; destruct b; naive_solver.
Qed.

(** ValidateTopology accepts a link exactly when, in a tree, the target has no parent yet and, in a tree or a
    dependency graph, the target is no ancestor of the source. *)
Theorem ValidateTopology_spec d s t lt (HU : unique_ids (links d)) :
  ValidateTopology d s t lt = Ok tt ↔
  (tree_like lt → ∀ p, ¬ edge (links d) (lt_ID lt) t p) ∧
  (cycle_free lt → ¬ tc (edge (links d) (lt_ID lt)) s t).
Proof.
  unfold ValidateTopology. rewrite bind_ok, <- check_single_parent_ok, <- check_no_cycle_ok by done.
  split; [by intros ([] & ? & ?)|]. intros [? ?]. by exists tt.
Qed.
