(* ===== verification/LinkInvariant.v ===== *)
(** * The invariant of the link tables

    Every sequence of committed repository calls keeps the invariant of the
    link tables, with the two provisos the repository does not enforce stated
    as findings of their own: a link from an item to itself, and a change of a
    link type's topology. *)

From Stdlib Require Import ZArith Lia Ascii String QArith.
Local Open Scope Z_scope.
From stdpp Require Import relations.
From S2P Require Export Transactions LinkGraph.
Import Transactions.

Section Invariant.
Context {HO : UuidOps} {HW : WorkItemAccess}.

Definition topology_ok (ls : list WorkItemLink) (t : WorkItemLinkType) : Prop :=
  (tree_like t → single_parent ls (lt_ID t)) ∧ (cycle_free t → acyclic ls (lt_ID t)).

Record wf (d : db) : Prop := {
  wf_ids : unique_ids (links d);
  wf_types : NoDup (map lt_ID (link_types d));
  wf_fkey : ∀ l, l ∈ links d → LinkTypeID l ∈ map lt_ID (link_types d);
  wf_topology : ∀ t, t ∈ link_types d → topology_ok (links d) t;
}.

(** The committed effect of a call: nothing when it fails. *)
Inductive op :=
  | OpCreate (now : Time) (newID sourceID targetID linkTypeID creatorID : uuid)
  | OpDelete (now : Time) (linkID suppressorID : uuid)
  | OpDeleteRelated (now : Time) (wiID suppressorID : uuid)
  | OpCreateType (now : Time) (newID : uuid) (linkType : WorkItemLinkType)
  | OpSaveType (now : Time) (linkType : WorkItemLinkType).
Definition discard {A} (m : stm A) : stm unit := let* _ := m in s_ret tt.
Definition run_op (o : op) : stm unit :=
  match o with
  | OpCreate now newID s t ty who => discard (Create now newID s t ty who)
  | OpDelete now l who => Delete now l who
  | OpDeleteRelated now wi who => DeleteRelatedLinks now wi who
  | OpCreateType now newID t => discard (LinkType_Create now newID t)
  | OpSaveType now t => discard (LinkType_Save now t)
  end.
Definition proviso (d : db) (o : op) : Prop :=
  match o with
  | OpCreate _ _ s t _ _ => s ≠ t
  | OpSaveType _ t => ∀ old, old ∈ link_types d → lt_ID old = lt_ID t →
                             lt_Topology old = lt_Topology t
  | _ => True
  end.
Inductive committed (d d' : db) : Prop :=
  | committed_op o begin_err timed_out commit_ok r :
      proviso d o →
      Transactional begin_err timed_out commit_ok (run_op o) d = (r, d') →
      committed d d'.

(** ** Deletions only remove links *)

Record shrinks (d d' : db) : Prop := {
  sh_types : link_types d' = link_types d;
  sh_items : items d' = items d;
  sh_ids : map l_ID (links d') = map l_ID (links d);
  sh_ty : map LinkTypeID (links d') = map LinkTypeID (links d);
  sh_live : ∀ l, l ∈ links d' → l_live l = true → l ∈ links d;
}.
Lemma shrinks_refl d : shrinks d d.
Proof. by split. Qed.
Lemma shrinks_trans d1 d2 d3 : shrinks d1 d2 → shrinks d2 d3 → shrinks d1 d3.
Proof. intros [] []. split; [congruence..|]. eauto. Qed.
#[local] Hint Resolve shrinks_refl : core.

Lemma in_play_live ty l : in_play ty l = true → l_live l = true.
Proof. unfold in_play. by intros [_ ?]%andb_prop. Qed.
Lemma topology_ok_mono ls ls' t :
  (∀ l, l ∈ ls → in_play (lt_ID t) l = true → l ∈ ls') → topology_ok ls' t → topology_ok ls t.
Proof.
  intros H [H1 H2]. split; intros Ht.
  - eapply single_parent_mono; eauto.
  - eapply acyclic_mono; eauto.
Qed.
Lemma wf_shrinks d d' : shrinks d d' → wf d → wf d'.
Proof.
  intros [Ht _ Hi Hty Hl] [HU HN HF HT]. split.
  - unfold unique_ids. by rewrite Hi.
  - by rewrite Ht.
  - intros l Hin. rewrite Ht. apply list_elem_of_fmap_2 with (f := LinkTypeID) in Hin.
    change (LinkTypeID l ∈ map LinkTypeID (links d')) in Hin. rewrite Hty in Hin.
    apply list_elem_of_fmap in Hin as (k & -> & Hk). by apply HF.
  - intros t. rewrite Ht. intros Hin. apply (topology_ok_mono _ (links d)); [|by apply HT].
    intros l Hl' Hp. apply Hl; [done|by apply in_play_live in Hp].
Qed.

Lemma deleteLink_shrinks now l who d : shrinks d (deleteLink_ignored now l who d).2.
Proof.
  unfold deleteLink_ignored, deleteLink. simpl. case_match; [done|]. simpl.
  assert (HE : ∀ k, l_ID (soft_delete now (l_ID l) k) = l_ID k ∧
                    LinkTypeID (soft_delete now (l_ID l) k) = LinkTypeID k)
    by (intros k; unfold soft_delete; by case_match).
  split; simpl; [done|done|rewrite map_map; apply map_ext; apply HE..|].
  intros k (m & -> & Hm)%list_elem_of_fmap. unfold soft_delete. case_match; [done|done].
Qed.
Lemma lock_once_db locked k d : (lock_once locked k d).2 = d.
Proof.
  unfold lock_once, s_bind, s_map, s_query, s_ret. destruct locked; [done|].
  by destruct (wrapf _ _).
Qed.
Lemma delete_each_shrinks now who l : ∀ locked d, shrinks d (delete_each now who locked l d).2.
Proof.
  induction l as [|k l IH]; intros locked d; simpl; [done|].
  unfold s_bind. pose proof (lock_once_db locked k d) as Hd.
  destruct (lock_once locked k d) as [[[]|e|s] d']; simpl in Hd; subst d'; [|done..].
  eapply shrinks_trans; [apply (deleteLink_shrinks now k who d)|apply IH].
Qed.
Lemma Delete_shrinks now id who d : shrinks d (Delete now id who d).2.
Proof.
  unfold Delete, s_bind, s_query, s_map. destruct (Load d id); [|done..].
  destruct (wrapf _ _); [|done..]. apply deleteLink_shrinks.
Qed.
Lemma DeleteRelatedLinks_shrinks now id who d : shrinks d (DeleteRelatedLinks now id who d).2.
Proof. apply delete_each_shrinks. Qed.

(** ** Creating a link *)

Lemma LinkType_Load_ok d id t :
  LinkType_Load d id = Ok t → t ∈ link_types d ∧ lt_ID t = id ∧ lt_live t = true.
Proof.
  unfold LinkType_Load. destruct (List.find _ _) eqn:E; [|done]. intros [= ->].
  apply find_some in E as [Hin [Hl Hid%bool_decide_eq_true]%andb_prop].
  split; [by apply list_elem_of_In|done].
Qed.

Lemma insert_link_ok l d d' :
  insert_link l d = (Ok tt, d') →
  d' = set_links d (links d ++ [l]) ∧ l_ID l ∉ map l_ID (links d).
Proof.
  unfold insert_link. destruct (existsb _ _) eqn:E; [done|].
  repeat (case_match; try done). intros [= <-]. split; [done|].
  intros (k & Hk & Hin)%list_elem_of_fmap. apply not_true_iff_false in E. apply E.
  apply existsb_exists. exists k. split; [by apply list_elem_of_In|]. by rewrite bool_decide_true.
Qed.

(** What a successful creation has checked and done. *)
Lemma Create_ok now newID s t ty who d l d' :
  Create now newID s t ty who d = (Ok l, d') →
  ∃ lt, LinkType_Load d ty = Ok lt ∧ ValidateTopology d s t lt = Ok tt ∧
    l = {| l_Lifecycle := created now; l_ID := newID; l_Version := 0;
           SourceID := s; TargetID := t; LinkTypeID := ty |} ∧
    links d' = links d ++ [l] ∧ link_types d' = link_types d ∧ items d' = items d ∧
    newID ∉ map l_ID (links d).
Proof.
  unfold Create, Create_locked, s_bind, s_query, s_map.
  destruct (Create_check d s t ty); [|done..].
  destruct (LinkType_Load d ty) as [lt| |] eqn:EL; [|done..]. cbn [wrapf].
  destruct (ValidateTopology d s t lt) as [[]| |] eqn:EV; [|done..]. cbn [wrapf].
  destruct (insert_link _ d) as [[[]| |] d1] eqn:EI; [|done..].
  apply insert_link_ok in EI as [-> Hid]. simpl. intros [= <- <-].
  exists lt. simpl. done.
Qed.

Lemma wf_add d d' l lt :
  wf d → lt ∈ link_types d → lt_ID lt = LinkTypeID l → SourceID l ≠ TargetID l →
  ValidateTopology d (SourceID l) (TargetID l) lt = Ok tt →
  l_ID l ∉ map l_ID (links d) → links d' = links d ++ [l] → link_types d' = link_types d →
  wf d'.
Proof.
  intros [HU HN HF HT] Hlt Hid Hne HV Hnew Hl Ht.
  unfold ValidateTopology in HV. apply bind_ok in HV as ([] & HP & HC).
  rewrite check_single_parent_ok in HP. rewrite check_no_cycle_ok in HC by done. split.
  - unfold unique_ids. rewrite Hl, map_app. apply NoDup_app. split_and!; [done| |apply NoDup_singleton].
    intros x Hx ->%list_elem_of_singleton. done.
  - by rewrite Ht.
  - intros k. rewrite Hl, Ht. intros [Hk|Hk%list_elem_of_singleton]%elem_of_app; [by apply HF|].
    subst k. rewrite <- Hid. by apply list_elem_of_fmap_2.
  - intros t. rewrite Ht, Hl. intros Hin. destruct (HT t Hin) as [H1 H2].
    assert (HE : in_play (lt_ID t) l = true → t = lt).
    { intros [Hty _]%in_play_true. rewrite <- Hid in Hty.
      clear -HN Hin Hlt Hty. induction (link_types d) as [|a ts IH]; [set_solver|].
      simpl in HN. apply NoDup_cons in HN as [Ha HN].
      apply elem_of_cons in Hin as [->|Hin]; apply elem_of_cons in Hlt as [->|Hlt];
        [done|exfalso; apply Ha..|by apply IH].
      - rewrite <- Hty. by apply list_elem_of_fmap_2.
      - rewrite Hty. by apply list_elem_of_fmap_2. }
    split; intros HK.
    + intros c p q Hp Hq. apply edge_app in Hp, Hq.
      assert (HN' : ∀ p, edge (links d) (lt_ID t) c p → edge [l] (lt_ID t) c q → False).
      { intros p' He (m & ->%list_elem_of_singleton & Hm & Hmt & _).
        pose proof (HE Hm) as ->. apply (HP HK p'). by rewrite Hmt. }
      assert (HN2 : ∀ q, edge (links d) (lt_ID t) c q → edge [l] (lt_ID t) c p → False).
      { intros p' He (m & ->%list_elem_of_singleton & Hm & Hmt & _).
        pose proof (HE Hm) as ->. apply (HP HK p'). by rewrite Hmt. }
      destruct Hp as [Hp|Hp], Hq as [Hq|Hq]; [by apply (H1 HK c)|naive_solver..|].
      destruct Hp as (m & ->%list_elem_of_singleton & _ & _ & <-).
      by destruct Hq as (m & ->%list_elem_of_singleton & _ & _ & <-).
    + apply acyclic_add; [by apply H2|done|]. intros Hp.
      pose proof (HE Hp) as ->. by apply HC.
Qed.

(** ** Link types *)

Lemma same_row (ts : list WorkItemLinkType) t u :
  NoDup (map lt_ID ts) → t ∈ ts → u ∈ ts → lt_ID t = lt_ID u → t = u.
Proof.
  intros HN Ht Hu Heq. induction ts as [|a ts IH]; [set_solver|].
  simpl in HN. apply NoDup_cons in HN as [Ha HN].
  apply elem_of_cons in Ht as [->|Ht]; apply elem_of_cons in Hu as [->|Hu];
    [done|exfalso; apply Ha..|by apply IH].
  - rewrite Heq. by apply list_elem_of_fmap_2.
  - rewrite <- Heq. by apply list_elem_of_fmap_2.
Qed.

Lemma LinkType_Create_ok now newID lt d t d' :
  LinkType_Create now newID lt d = (Ok t, d') →
  d' = set_link_types d (link_types d ++ [t]) ∧ lt_ID t ∉ map lt_ID (link_types d).
Proof.
  unfold LinkType_Create. destruct (LinkType_CheckValidForCreation lt); [|done..].
  destruct (existsb _ _) eqn:E; [done|]. destruct (name_taken _ _); [done|]. intros [= <- <-].
  split; [done|]. intros (u & Hu & Hin)%list_elem_of_fmap.
  apply not_true_iff_false in E. apply E. apply existsb_exists.
  exists u. split; [by apply list_elem_of_In|]. by apply bool_decide_eq_true.
Qed.

Lemma LinkType_Save_ok now lt d t d' :
  LinkType_Save now lt d = (Ok t, d') →
  ∃ old, LinkType_Load d (lt_ID lt) = Ok old ∧
    LinkType_CheckValidForCreation lt = Ok tt ∧
    lt_Version old = lt_Version lt ∧ lt_SpaceTemplateID old = lt_SpaceTemplateID lt ∧
    lt_ID t = lt_ID lt ∧ lt_Topology t = lt_Topology lt ∧
    lt_Version t = wrap64 (lt_Version lt + 1) ∧
    d' = set_link_types d (map (λ u, if lt_live u && bool_decide (lt_ID u = lt_ID t)
                                     then t else u) (link_types d)).
Proof.
  unfold LinkType_Save. destruct (LinkType_Load d (lt_ID lt)) as [old| |] eqn:EL; [|done..].
  destruct (LinkType_CheckValidForCreation lt) as [[]| |]; [|done..].
  destruct (lt_Version old =? lt_Version lt) eqn:EV; [|done].
  destruct (bool_decide _) eqn:ES; [|done]. simpl.
  destruct (is_err _); [done|]. case_match; [done|]. intros [= <- <-].
  exists old. apply bool_decide_eq_true in ES. z_bool. done.
Qed.

Lemma wf_create_type d t :
  wf d → lt_ID t ∉ map lt_ID (link_types d) → wf (set_link_types d (link_types d ++ [t])).
Proof.
  intros [HU HN HF HT] Hnew. split; simpl; [done| | |].
  - rewrite map_app. apply NoDup_app. split_and!; [done| |apply NoDup_singleton].
    by intros x Hx ->%list_elem_of_singleton.
  - intros l Hl. rewrite map_app. apply elem_of_app. left. by apply HF.
  - intros u [Hu|Hu%list_elem_of_singleton]%elem_of_app; [by apply HT|]. subst u.
    assert (HE : ∀ c p, ¬ edge (links d) (lt_ID t) c p).
    { intros c p (l & Hl & [Hty _]%in_play_true & _). apply Hnew. rewrite <- Hty. by apply HF. }
    split; intros _; [intros c p q Hp; by apply HE in Hp|].
    intros x Hx. by destruct Hx as [x y He|x y z He _]; apply HE in He.
Qed.

Lemma wf_save_type d t old :
  wf d → old ∈ link_types d → lt_ID old = lt_ID t → lt_Topology old = lt_Topology t →
  wf (set_link_types d (map (λ u, if lt_live u && bool_decide (lt_ID u = lt_ID t)
                                  then t else u) (link_types d))).
Proof.
  intros [HU HN HF HT] Hold Hid Htop.
  assert (HI : map lt_ID (map (λ u, if lt_live u && bool_decide (lt_ID u = lt_ID t)
                                    then t else u) (link_types d)) = map lt_ID (link_types d)).
  { rewrite map_map. apply map_ext. intros u. case_match eqn:E; [|done].
    by apply andb_prop in E as [_ E%bool_decide_eq_true]. }
  split; simpl; [done|by rewrite HI|by rewrite HI|].
  intros u (v & Hu & Hv)%list_elem_of_fmap. case_match; [|subst u; by apply HT].
  subst u. destruct (HT old Hold) as [H1 H2]. unfold topology_ok, tree_like, cycle_free in *.
  by rewrite <- Hid, <- Htop.
Qed.

(** ** The invariant *)

Lemma run_op_wf o d d' : wf d → proviso d o → run_op o d = (Ok tt, d') → wf d'.
Proof.
  intros Hwf Hpro. destruct o as [now newID s t ty who|now l who|now wi who|now newID lt|now lt];
    simpl in *; unfold discard, s_bind, s_ret.
  - destruct (Create now newID s t ty who d) as [[l| |] d1] eqn:E; [|done..]. intros [= <-].
    apply Create_ok in E as (lt & [Hin [Hid _]]%LinkType_Load_ok & HV & -> & Hl & Ht & _ & Hnew).
    by eapply (wf_add d d1 _ lt Hwf Hin); [..|exact Hl|exact Ht].
  - intros E. eapply wf_shrinks, Hwf. pose proof (Delete_shrinks now l who d) as H.
    by rewrite E in H.
  - intros E. eapply wf_shrinks, Hwf. pose proof (DeleteRelatedLinks_shrinks now wi who d) as H.
    by rewrite E in H.
  - destruct (LinkType_Create now newID lt d) as [[t| |] d1] eqn:E; [|done..]. intros [= <-].
    apply LinkType_Create_ok in E as [-> Hnew]. by apply wf_create_type.
  - destruct (LinkType_Save now lt d) as [[t| |] d1] eqn:E; [|done..]. intros [= <-].
    apply LinkType_Save_ok in E
      as (old & [Hin [Hid _]]%LinkType_Load_ok & _ & _ & _ & Hti & Htt & _ & ->).
    apply (wf_save_type d t old); [done..|congruence|]. rewrite Htt. by apply Hpro.
Qed.

(** C1: Every sequence of committed calls of the link and link type repositories, in which no Create links an item to
    itself and no Save changes the topology of a link type, keeps a well-formed link table well-formed: in a tree every
    item has at most one parent and no item is its own ancestor, in a dependency graph no item is its own ancestor,
    whatever fails, panics, times out or is rolled back on the way.  The code rejects neither of the two, and each
    breaks it ([Create_self_link], [LinkType_Save_topology_unchecked]). *)
Theorem committed_wf d d' (Hstar : rtc committed d d') (Hwf : wf d) : wf d'.
Proof.
  revert Hwf. induction Hstar as [|d d1 d2 [o be tmo co r Hpro HT] _ IH]; intros Hwf; [done|].
  apply IH. pose proof (Transactional_outcome be tmo co (run_op o) d) as H. rewrite HT in H.
  destruct H as (_ & [->|(_ & _ & Hrun)] & _); [done|]. by eapply run_op_wf.
Qed.

(** Nothing rejects a link from an item to itself: when Create accepts one, whatever the topology of its type,
    the item has become its own ancestor. *)
Theorem Create_self_link now newID x ty who d l d'
    (H : Create now newID x x ty who d = (Ok l, d')) : ¬ acyclic (links d') ty.
Proof.
  apply Create_ok in H as (lt & _ & _ & -> & Hl & _). intros Hac. apply (Hac x).
  apply tc_once. eexists. rewrite Hl. split; [apply elem_of_app; right; by left|].
  unfold in_play, l_live, live. simpl. by rewrite !bool_decide_true.
Qed.

End Invariant.

(** ** A concrete store *)

Module Sample.
Definition t0 : Time := {| instant := 1000; representation := 0 |}.
Definition space : uuid := uuid_of 7.
Definition item (n : N) : item_row :=
  {| i_ID := uuid_of n; i_SpaceID := space; i_Type := uuid_of 50;
     i_ExecutionOrder := inject_Z (Z.of_N n); i_DeletedAt := None |}.
Definition ty : uuid := uuid_of 100.
Definition tree : WorkItemLinkType :=
  {| lt_Lifecycle := created t0; lt_ID := ty; lt_Name := "parenting"; lt_Description := None;
     lt_Version := 0; lt_Topology := TopologyTree; lt_ForwardName := "parent of";
     lt_ForwardDescription := None; lt_ReverseName := "child of";
     lt_ReverseDescription := None; lt_SpaceTemplateID := SystemBaseTemplateID |}.
Definition empty : db :=
  {| links := []; link_types := [tree]; items := [item 1; item 2; item 3];
     revisions := []; space_templates := [SystemBaseTemplateID] |}.
#[global] Instance access : WorkItemAccess :=
  {| witr_Load := λ _, Ok tt; ConvertItem := λ _, Ok tt |}.
Definition link (n : N) (s t : N) : WorkItemLink :=
  {| l_Lifecycle := created t0; l_ID := uuid_of n; l_Version := 0;
     SourceID := uuid_of s; TargetID := uuid_of t; LinkTypeID := ty |}.
(** 1 is the parent of 2, and 2 of 3. *)
Definition chain : db := set_links empty [link 201 1 2; link 202 2 3].

Lemma empty_wf : wf empty.
Proof.
  split; [constructor| |set_solver|].
  - apply (bool_decide_unpack _). by vm_compute.
  - intros t _. split; intros _; [intros c p q (l & Hl & _); set_solver|].
    intros x Hx. by destruct Hx as [x y (l & Hl & _)|x y z (l & Hl & _) _]; set_solver.
Qed.
Lemma chain_unique : unique_ids (links chain).
Proof. apply (bool_decide_unpack _). by vm_compute. Qed.
End Sample.

Lemma GetAncestors_all_witness :
  unique_ids (links Sample.chain) ∧
  ∃ l, GetAncestors Sample.chain Sample.ty AncestorLevelAll [uuid_of 3] = Ok l ∧
  ∀ c x, (∃ a, a ∈ l ∧ OriginalChildID a = c ∧ a_ID a = x) ↔
         c ∈ [uuid_of 3] ∧ tc (edge (links Sample.chain) Sample.ty) c x.
Proof.
  split; [apply Sample.chain_unique|]. apply GetAncestors_all. apply Sample.chain_unique.
Defined.
Lemma GetAncestors_level_witness :
  ∃ l, GetAncestors Sample.chain Sample.ty 1 [uuid_of 3] = Ok l ∧
  (∀ a, a ∈ l → 1 ≤ Level a ≤ 1 ∧
     nsteps (edge (links Sample.chain) Sample.ty) (Z.to_nat (Level a)) (OriginalChildID a) (a_ID a) ∧
     edge (links Sample.chain) Sample.ty (DirectChildID a) (a_ID a)) ∧
  ∀ c x, (∃ a, a ∈ l ∧ OriginalChildID a = c ∧ a_ID a = x) ↔
    c ∈ [uuid_of 3] ∧ ∃ k, 1 ≤ Z.of_nat k ≤ 1 ∧
      nsteps (edge (links Sample.chain) Sample.ty) k c x.
Proof. apply GetAncestors_level; [apply Sample.chain_unique|lia]. Defined.
Lemma GetAncestors_IsRoot_witness :
  let l := [{| a_ID := uuid_of 1; DirectChildID := uuid_of 2; OriginalChildID := uuid_of 2;
               IsRoot := true; Level := 1 |}] in
  GetAncestors Sample.chain Sample.ty 1 [uuid_of 2] = Ok l ∧
  ∀ a, a ∈ l → IsRoot a = true ↔
    ∀ k, k ∈ links Sample.chain → TargetID k = a_ID a → LinkTypeID k ≠ Sample.ty.
Proof.
  cbv zeta. split; [by vm_compute|].
  apply (GetAncestors_IsRoot Sample.chain Sample.ty 1 [uuid_of 2]). by vm_compute.
Defined.
Lemma DetectCycle_witness :
  DetectCycle Sample.chain (uuid_of 3) (uuid_of 1) Sample.ty = Ok true ∧
  ∃ b, DetectCycle Sample.chain (uuid_of 3) (uuid_of 1) Sample.ty = Ok b ∧
       (b = true ↔ tc (edge (links Sample.chain) Sample.ty) (uuid_of 3) (uuid_of 1)).
Proof. split; [by vm_compute|]. apply DetectCycle_spec. apply Sample.chain_unique. Defined.

(** Creating the chain, link by link. *)
Lemma committed_wf_witness :
  rtc committed Sample.empty (Create Sample.t0 (uuid_of 201) (uuid_of 1) (uuid_of 2) Sample.ty
                                (uuid_of 9) Sample.empty).2 ∧
  wf (Create Sample.t0 (uuid_of 201) (uuid_of 1) (uuid_of 2) Sample.ty (uuid_of 9) Sample.empty).2.
Proof.
  assert (H : rtc committed Sample.empty
    (Create Sample.t0 (uuid_of 201) (uuid_of 1) (uuid_of 2) Sample.ty (uuid_of 9) Sample.empty).2).
  { apply rtc_once.
    apply (committed_op _ _ (OpCreate Sample.t0 (uuid_of 201) (uuid_of 1) (uuid_of 2) Sample.ty
                               (uuid_of 9)) None false true (Ok tt)); [|by vm_compute].
    apply (bool_decide_unpack _). by vm_compute. }
  split; [exact H|]. apply (committed_wf _ _ H Sample.empty_wf).
Defined.
Lemma Create_self_link_witness :
  is_ok (Create Sample.t0 (uuid_of 201) (uuid_of 1) (uuid_of 1) Sample.ty (uuid_of 9) Sample.empty).1
    = true ∧
  ¬ acyclic (links (Create Sample.t0 (uuid_of 201) (uuid_of 1) (uuid_of 1) Sample.ty (uuid_of 9)
                      Sample.empty).2) Sample.ty.
Proof.
  split; [by vm_compute|].
  apply (Create_self_link Sample.t0 (uuid_of 201) (uuid_of 1) Sample.ty (uuid_of 9) Sample.empty
           (Sample.link 201 1 1)). by vm_compute.
Defined.
