(* ===== verification/LinkLock.v ===== *)
(** * Concurrent creation of links

    [acquireLock] and the interleavings of several [Create] calls, each in its
    own READ COMMITTED transaction: a statement reads what is committed, and
    what a transaction wrote shows at its commit.  The transaction-level
    advisory lock on the space makes the topology checks of one transaction
    hold until it commits. *)

From Stdlib Require Import ZArith Lia Ascii String.
From stdpp Require Import relations.
From S2P Require Export LinkInvariant.

(** ** The key of the lock *)

(** [hash/fnv.New32]: 32-bit FNV-1. *)
Definition fnv32 (l : list ascii) : Z :=
  fold_left (λ h c, Z.lxor (h * 16777619 mod 2 ^ 32) (Z.of_nat (nat_of_ascii c))) l 2166136261.
Definition lock_key {HO : UuidOps} (spaceID : uuid) : Z :=
  fnv32 (chars ("links-" +:+ uuid_String spaceID)).

(** ** Transactions in flight *)

Inductive pc :=
  | PStart                                            (* nothing done yet *)
  | PWaiting (spaceID : uuid)                         (* about to take the lock *)
  | PLocked (spaceID : uuid)                          (* lock taken *)
  | PTyped (spaceID : uuid) (lt : WorkItemLinkType)   (* link type loaded *)
  | PSingle (spaceID : uuid) (lt : WorkItemLinkType)  (* single-parent rule checked *)
  | PValid (spaceID : uuid) (lt : WorkItemLinkType)   (* cycles checked *)
  | PDone                                             (* committed or rolled back *).

Record tx := {
  c_now : Time; c_newID : uuid; c_source : uuid; c_target : uuid;
  c_type : uuid; c_creator : uuid; c_pc : pc;
}.
Definition at_pc (t : tx) (p : pc) : tx :=
  {| c_now := c_now t; c_newID := c_newID t; c_source := c_source t; c_target := c_target t;
     c_type := c_type t; c_creator := c_creator t; c_pc := p |}.
Definition c_link (t : tx) : WorkItemLink :=
  {| l_Lifecycle := created (c_now t); l_ID := c_newID t; l_Version := 0;
     SourceID := c_source t; TargetID := c_target t; LinkTypeID := c_type t |}.

(** The space whose lock a transaction holds. *)
Definition holds (p : pc) : option uuid :=
  match p with
  | PLocked s | PTyped s _ | PSingle s _ | PValid s _ => Some s
  | PStart | PWaiting _ | PDone => None
  end.

Section Interleaving.
Context {HO : UuidOps} {HW : WorkItemAccess}.

Definition holds_key (t : tx) (k : Z) : Prop :=
  match holds (c_pc t) with Some s => lock_key s = k | None => False end.

(** One step of one transaction [t] on the committed store [d]; [free] are
    the keys no other transaction holds.  Inserting the link, storing its revision and
    committing are one step: a conflicting insertion would block until then. *)
Inductive tx_step (free : Z → Prop) (d : db) (t : tx) : db → tx → Prop :=
  | step_check s :
      c_pc t = PStart →
      Create_check d (c_source t) (c_target t) (c_type t) = Ok s →
      tx_step free d t d (at_pc t (PWaiting s))
  | step_lock s :
      c_pc t = PWaiting s →
      free (lock_key s) →
      tx_step free d t d (at_pc t (PLocked s))
  | step_type s lt :
      c_pc t = PLocked s →
      LinkType_Load d (c_type t) = Ok lt →
      tx_step free d t d (at_pc t (PTyped s lt))
  | step_single s lt :
      c_pc t = PTyped s lt →
      check_single_parent d (c_target t) lt = Ok tt →
      tx_step free d t d (at_pc t (PSingle s lt))
  | step_cycle s lt :
      c_pc t = PSingle s lt →
      check_no_cycle d (c_source t) (c_target t) lt = Ok tt →
      tx_step free d t d (at_pc t (PValid s lt))
  | step_commit s lt d1 d2 :
      c_pc t = PValid s lt →
      insert_link (c_link t) d = (Ok tt, d1) →
      Revision_Create (c_now t) (c_creator t) RevisionTypeCreate (c_link t) d1 = (Ok tt, d2) →
      tx_step free d t d2 (at_pc t PDone)
  | step_abort :
      tx_step free d t d (at_pc t PDone).

(** The system: any transaction steps, or some other caller deletes links. *)
Definition free_of (i : nat) (ts : list tx) (k : Z) : Prop :=
  ∀ j u, j ≠ i → ts !! j = Some u → ¬ holds_key u k.
Inductive sys_step : db * list tx → db * list tx → Prop :=
  | sys_tx d ts i t d' t' :
      ts !! i = Some t →
      tx_step (free_of i ts) d t d' t' →
      sys_step (d, ts) (d', <[i := t']> ts)
  | sys_delete d d' ts :
      (∃ now id who, d' = (Delete now id who d).2) ∨
      (∃ now id who, d' = (DeleteRelatedLinks now id who d).2) →
      sys_step (d, ts) (d', ts).

Lemma tx_step_free (free free' : Z → Prop) d t d' t' :
  (∀ k, free k → free' k) → tx_step free d t d' t' → tx_step free' d t d' t'.
Proof.
  intros Hf [s|s|s lt|s lt|s lt|s lt d1 d2|]; intros;
    [eapply step_check|eapply step_lock|eapply step_type|eapply step_single|eapply step_cycle
    |eapply step_commit|eapply step_abort]; eauto.
Qed.

(** A transaction alone does what [Create] does. *)
Lemma Create_runs_alone now newID s t ty who d l d' :
  Create now newID s t ty who d = (Ok l, d') →
  let x p := {| c_now := now; c_newID := newID; c_source := s; c_target := t; c_type := ty;
                c_creator := who; c_pc := p |} in
  l = c_link (x PStart) ∧ rtc sys_step (d, [x PStart]) (d', [x PDone]).
Proof.
  intros H x. unfold Create, Create_locked, s_bind, s_query, s_map in H.
  destruct (Create_check d s t ty) as [sp| |] eqn:EC; [|done..].
  destruct (LinkType_Load d ty) as [lt| |] eqn:EL; [|done..]. cbn [wrapf] in H.
  destruct (ValidateTopology d s t lt) as [[]| |] eqn:EV; [|done..]. cbn [wrapf] in H.
  change {| l_Lifecycle := created now; l_ID := newID; l_Version := 0;
            SourceID := s; TargetID := t; LinkTypeID := ty |} with (c_link (x PStart)) in H.
  destruct (insert_link _ d) as [[[]| |] d1] eqn:EI; [|done..].
  simpl in H. injection H as <- <-. split; [done|].
  unfold ValidateTopology in EV. apply bind_ok in EV as ([] & E1 & E2).
  assert (HS : ∀ d p d' p', tx_step (λ _, True) d (x p) d' (x p') →
                            sys_step (d, [x p]) (d', [x p'])).
  { intros e p e' p' Hs. apply (sys_tx e [x p] 0 (x p) e' (x p')); [done|].
    eapply tx_step_free, Hs. by intros k _ [|j] u Hj Hu. }
  eapply rtc_l; [apply HS; by eapply (step_check _ d (x PStart))|].
  eapply rtc_l; [apply HS; by eapply (step_lock _ d (x (PWaiting sp)))|].
  eapply rtc_l; [apply HS; by eapply (step_type _ d (x (PLocked sp)))|].
  eapply rtc_l; [apply HS; by eapply (step_single _ d (x (PTyped sp lt)))|].
  eapply rtc_l; [apply HS; by eapply (step_cycle _ d (x (PSingle sp lt)))|].
  eapply rtc_l; [apply HS; by eapply (step_commit _ d (x (PValid sp lt)))|]. done.
Qed.

(** ** The invariant of the system *)

(** The work items stay as they are meanwhile; [space_of] reads their spaces. *)
Context (its : list item_row) (space_of : uuid → uuid).
Context (Hspace : ∀ i, i ∈ its → space_of (i_ID i) = i_SpaceID i).

Definition loadable (x : uuid) : Prop := ∃ i, i ∈ its ∧ i_live i = true ∧ i_ID i = x.
Definition local_link (l : WorkItemLink) : Prop := space_of (SourceID l) = space_of (TargetID l).
(** Both ends are there, and are not one. *)
Definition local_tx (t : tx) : Prop :=
  c_source t ≠ c_target t ∧ loadable (c_source t) ∧ loadable (c_target t).
Definition in_space (s : uuid) (t : tx) : Prop :=
  s = space_of (c_source t) ∧ s = space_of (c_target t).

(** What a transaction knows about the committed store at its point. *)
Definition knows (d : db) (t : tx) : Prop :=
  match c_pc t with
  | PStart | PDone => True
  | PWaiting s | PLocked s => in_space s t
  | PTyped s lt => in_space s t ∧ lt ∈ link_types d ∧ lt_ID lt = c_type t
  | PSingle s lt => in_space s t ∧ lt ∈ link_types d ∧ lt_ID lt = c_type t ∧
      (tree_like lt → ∀ p, ¬ edge (links d) (lt_ID lt) (c_target t) p)
  | PValid s lt => in_space s t ∧ lt ∈ link_types d ∧ lt_ID lt = c_type t ∧
      (tree_like lt → ∀ p, ¬ edge (links d) (lt_ID lt) (c_target t) p) ∧
      (cycle_free lt → ¬ tc (edge (links d) (lt_ID lt)) (c_source t) (c_target t))
  end.

Record sys_ok (x : db * list tx) : Prop := {
  ok_wf : wf x.1;
  ok_items : items x.1 = its;
  ok_local : ∀ l, l ∈ links x.1 → l_live l = true → local_link l;
  ok_txs : ∀ t, t ∈ x.2 → local_tx t ∧ knows x.1 t;
  ok_lock : ∀ i t, x.2 !! i = Some t → ∀ k, holds_key t k → free_of i x.2 k;
}.

(** The cross-space check, on items that can be loaded. *)
Lemma same_space_ok sp l i : same_space sp l = Ok tt → Some i ∈ l → i_SpaceID i = sp.
Proof.
  induction l as [|[j|] l IH]; simpl; [set_solver| |done].
  destruct (bool_decide _) eqn:E; [|done]. apply bool_decide_eq_true in E.
  intros H [Hi|Hi]%elem_of_cons; [by simplify_eq|by apply IH].
Qed.
Lemma Create_check_space d s t ty sp x :
  items d = its → Create_check d s t ty = Ok sp → x ∈ [s; t] → loadable x → sp = space_of x.
Proof.
  intros Hits H Hx (i & Hi & Hlive & Hid). unfold Create_check in H.
  apply bind_ok in H as (u & _ & H). apply bind_ok in H as (l & Hl & H).
  rewrite wrapf_ok in Hl. unfold LoadBatchByID in Hl. apply mapM_ok in Hl.
  assert (Some i ∈ l ∨ None ∈ l) as HI.
  { assert (Hin : i ∈ List.filter (λ i, i_live i && bool_decide (i_ID i ∈ [s; t])) (items d)).
    { rewrite list_elem_of_In, filter_In, <- list_elem_of_In, Hits, Hlive, Hid.
      by rewrite bool_decide_true. }
    apply list_elem_of_lookup in Hin as [n Hn].
    destruct (Forall2_lookup_l _ _ _ _ _ Hl Hn) as (o & Ho & Heq).
    apply list_elem_of_lookup_2 in Ho.
    destruct (witr_Load (i_Type i)); [|done..]. destruct (ConvertItem i); naive_solver. }
  assert (HS : ∀ q l, same_space q l = Ok tt → None ∉ l).
  { clear. induction l as [|[j|] l IH]; simpl; [set_solver| |done].
    case_match; [done|]. intros HS. specialize (IH HS). set_solver. }
  unfold spaceID_of_items in H. destruct l as [|[j|] l]; [done| |done].
  apply bind_ok in H as ([] & HSS & [= <-]).
  destruct HI as [HI|HI]; [|by apply HS in HSS].
  rewrite <- Hid, (Hspace i Hi). symmetry. by eapply same_space_ok.
Qed.

(** Fewer links: all that a transaction knows stays true. *)
Lemma knows_shrinks d d' t : shrinks d d' → knows d t → knows d' t.
Proof.
  intros [Ht _ _ _ Hl]. unfold knows. rewrite Ht.
  assert (HE : ∀ ty c p, edge (links d') ty c p → edge (links d) ty c p).
  { intros ty c p. apply edge_mono. intros l Hin Hp. apply Hl; [done|by eapply in_play_live]. }
  assert (HT : ∀ ty c p, tc (edge (links d') ty) c p → tc (edge (links d) ty) c p).
  { intros ty c p. induction 1 as [|? ? ? He _ IH]; [apply tc_once|eapply tc_l]; eauto. }
  destruct (c_pc t); naive_solver.
Qed.

(** The links of one space are all that is reached from it. *)
Lemma rtc_same_space ls ty x y :
  (∀ l, l ∈ ls → l_live l = true → local_link l) → rtc (edge ls ty) x y → space_of x = space_of y.
Proof.
  intros HL. induction 1 as [|x z y (l & Hl & Hp & <- & <-) _ IH]; [done|].
  rewrite <- IH. symmetry. apply HL; [done|by eapply in_play_live].
Qed.

(** A link of another space leaves it true as well. *)
Lemma knows_other d d' t l :
  (∀ k, k ∈ links d → l_live k = true → local_link k) → local_link l →
  (∀ s, holds (c_pc t) = Some s → space_of (SourceID l) ≠ s) →
  links d' = links d ++ [l] → link_types d' = link_types d →
  knows d t → knows d' t.
Proof.
  intros HL Hl Hne Hd Ht. unfold knows. rewrite Ht, Hd.
  assert (HE : ∀ s ty p, in_space s t → holds (c_pc t) = Some s →
    edge (links d ++ [l]) ty (c_target t) p → edge (links d) ty (c_target t) p).
  { intros s ty p [_ Hs] Hh [He|(k & ->%list_elem_of_singleton & _ & Hk & _)]%edge_app; [done|].
    destruct (Hne s Hh). rewrite Hs, <- Hk. apply Hl. }
  assert (HT : ∀ s ty, in_space s t → holds (c_pc t) = Some s →
    tc (edge (links d ++ [l]) ty) (c_source t) (c_target t) →
    tc (edge (links d) ty) (c_source t) (c_target t)).
  { intros s ty [Hs _] Hh [?|[_ Hr]]%tc_app_new; [done|]. destruct (Hne s Hh).
    apply (rtc_same_space _ _ _ _ HL) in Hr. rewrite Hs, Hr. apply Hl. }
  destruct (c_pc t); simpl in *; naive_solver.
Qed.

(** ** Every step keeps it *)

Lemma sys_ok_update i ts d t d' t' :
  sys_ok (d, ts) → ts !! i = Some t →
  wf d' → items d' = its → (∀ l, l ∈ links d' → l_live l = true → local_link l) →
  local_tx t' → knows d' t' →
  (∀ k, holds_key t' k → free_of i ts k) →
  (∀ j u, j ≠ i → ts !! j = Some u → knows d' u) →
  sys_ok (d', <[i := t']> ts).
Proof.
  intros [_ _ _ HT HX] Hi Hwf Hits Hl Hlt Hk Hfree Hothers. split; simpl in *; [done..| |].
  - intros u [j Hj]%list_elem_of_lookup. apply list_lookup_insert_Some in Hj
      as [(<- & <- & _)|[Hne Hj]]; [done|].
    split; [by apply HT, list_elem_of_lookup; exists j|by eapply Hothers].
  - intros j u Hj k Hu. apply list_lookup_insert_Some in Hj as [(<- & <- & _)|[Hne Hj]].
    + intros m v Hm Hv. rewrite list_lookup_insert_ne in Hv by done. by eapply Hfree.
    + intros m v Hm Hv. apply list_lookup_insert_Some in Hv as [(<- & <- & _)|[_ Hv]].
      * intros Ht'. by apply (Hfree k Ht' j u).
      * by apply (HX j u Hj k Hu m).
Qed.

(** The commit. *)
Lemma commit_ok ts i t d s lt d1 d2 :
  sys_ok (d, ts) → ts !! i = Some t → c_pc t = PValid s lt →
  insert_link (c_link t) d = (Ok tt, d1) →
  Revision_Create (c_now t) (c_creator t) RevisionTypeCreate (c_link t) d1 = (Ok tt, d2) →
  wf d2 ∧ items d2 = its ∧ (∀ l, l ∈ links d2 → l_live l = true → local_link l) ∧
  (∀ j u, j ≠ i → ts !! j = Some u → knows d2 u).
Proof.
  intros [Hwf Hits HL HT HX] Hi Hpc [-> Hnew]%insert_link_ok [= <-]. simpl in *.
  destruct (HT t) as [(Hne & _) Hk]; [by apply list_elem_of_lookup; exists i|].
  unfold knows in Hk. rewrite Hpc in Hk. destruct Hk as ([Hs1 Hs2] & Hin & Hid & HP & HC).
  assert (Hloc : local_link (c_link t)) by (unfold local_link; simpl; congruence).
  split_and!; [|done| |].
  - apply (wf_add d _ (c_link t) lt); [done..| | |done|done]; simpl; [|done].
    apply ValidateTopology_spec; [apply Hwf|done].
  - intros l [Hl| ->%list_elem_of_singleton]%elem_of_app; [by apply HL|done].
  - intros j u Hj Hu. apply (knows_other d _ u (c_link t)); [done|done| |done|done|].
    + intros q Hq. simpl. intros <-.
      apply (HX i t Hi (lock_key s)) with j u; [by unfold holds_key; rewrite Hpc|done..|].
      unfold holds_key. by rewrite Hq, Hs1.
    + apply HT, list_elem_of_lookup. by exists j.
Qed.

Lemma tx_step_ok i ts d t d' t' :
  sys_ok (d, ts) → ts !! i = Some t → tx_step (free_of i ts) d t d' t' →
  sys_ok (d', <[i := t']> ts).
Proof.
  intros Hok Hi Hstep. pose proof Hok as [Hwf Hits HL HT HX]. simpl in *.
  destruct (HT t) as [Hlt Hk]; [by apply list_elem_of_lookup; exists i|].
  assert (Hsame : ∀ j u, j ≠ i → ts !! j = Some u → knows d u).
  { intros j u _ Hu. apply HT, list_elem_of_lookup. by exists j. }
  assert (Hkeep : ∀ p, (∀ k, holds_key (at_pc t p) k → holds_key t k) →
    knows d (at_pc t p) → sys_ok (d, <[i := at_pc t p]> ts)).
  { intros p Hh Hkn. apply (sys_ok_update i ts d t); try done. intros k Hp. by eapply HX, Hh. }
  unfold knows in Hk. destruct Hstep as [s Hpc HC|s Hpc Hf|s lt Hpc HLd|s lt Hpc HS
    |s lt Hpc HC|s lt d1 d2 Hpc HI HR|]; try rewrite Hpc in Hk.
  - apply Hkeep; [done|]. destruct Hlt as (_ & Hs & Ht).
    split; [apply (Create_check_space d _ _ _ _ _ Hits HC)|apply (Create_check_space d _ _ _ _ _ Hits HC)];
      [set_solver|done|set_solver|done].
  - apply (sys_ok_update i ts d t); try done. by intros k <-.
  - apply LinkType_Load_ok in HLd as (? & ? & _).
    apply Hkeep; [|done]. unfold holds_key. by rewrite Hpc.
  - rewrite check_single_parent_ok in HS.
    apply Hkeep; [unfold holds_key; by rewrite Hpc|]. unfold knows. simpl. naive_solver.
  - rewrite check_no_cycle_ok in HC by apply Hwf.
    apply Hkeep; [unfold holds_key; by rewrite Hpc|]. unfold knows. simpl. naive_solver.
  - destruct (commit_ok ts i t d s lt d1 d2) as (? & ? & ? & ?); [done..|].
    by apply (sys_ok_update i ts d t).
  - by apply Hkeep.
Qed.

Lemma sys_step_ok x y : sys_step x y → sys_ok x → sys_ok y.
Proof.
  intros [d ts i t d' t' Hi Hstep|d d' ts Hdel]; intros Hok; [by eapply tx_step_ok|].
  assert (shrinks d d') as Hsh.
  { destruct Hdel as [(now & id & who & ->)|(now & id & who & ->)];
      [apply Delete_shrinks|apply DeleteRelatedLinks_shrinks]. }
  destruct Hok as [Hwf Hi HL HT HX]. split; simpl in *; [by eapply wf_shrinks| | | |done].
  - rewrite <- Hi. apply Hsh.
  - intros l Hl Hlive. apply HL; [by apply (sh_live _ _ Hsh)|done].
  - intros t Ht. destruct (HT t Ht). split; [done|by eapply knows_shrinks].
Qed.

(** C2: However the transactions of several Create calls on one store interleave with each other and with deletions,
    every store that is committed on the way keeps trees forests and dependency graphs acyclic: the advisory
    lock taken on the space makes the checks of one call hold until it commits, also when two spaces share a
    lock key.  No call links an item to itself, which Create does not reject, both ends of every call can be loaded, and
    the live links there are join items of one space. *)
Theorem interleaving_wf d ts d' ts'
    (Hrun : rtc sys_step (d, ts) (d', ts')) (Hwf : wf d) (Hits : items d = its)
    (Hlocal : ∀ l, l ∈ links d → l_live l = true → local_link l)
    (Hstart : ∀ t, t ∈ ts → c_pc t = PStart ∧ local_tx t) : wf d'.
Proof.
  assert (sys_ok (d', ts')) as [H _ _ _ _]; [|exact H].
  assert (sys_ok (d, ts)) as Hok.
  { split; simpl; [done..| |].
    - intros t Ht. destruct (Hstart t Ht) as [Hpc ?]. unfold knows. by rewrite Hpc.
    - intros i t Hi k Hk. apply list_elem_of_lookup_2 in Hi. destruct (Hstart t Hi) as [Hpc _].
      unfold holds_key in Hk. by rewrite Hpc in Hk. }
  remember (d, ts) as x eqn:Ex. remember (d', ts') as y eqn:Ey. clear -Hrun Hok Hspace.
  induction Hrun as [|x z y Hs _ IH]; [done|]. apply IH. by eapply sys_step_ok.
Qed.
End Interleaving.

(** Two calls that want the two directions of one link: the first commits
    while the second waits for the lock. *)
Module Race.
Definition start (id s t : N) (p : pc) : tx :=
  {| c_now := Sample.t0; c_newID := uuid_of id; c_source := uuid_of s; c_target := uuid_of t;
     c_type := Sample.ty; c_creator := uuid_of 9; c_pc := p |}.
Definition final : db :=
  (Create Sample.t0 (uuid_of 201) (uuid_of 1) (uuid_of 2) Sample.ty (uuid_of 9) Sample.empty).2.
Definition waiting : list tx := [start 201 1 2 PDone; start 202 2 1 (PWaiting Sample.space)].

Lemma run : rtc sys_step (Sample.empty, [start 201 1 2 PStart; start 202 2 1 PStart])
                         (final, waiting).
Proof.
  eapply rtc_l; [eapply (sys_tx _ _ 0); [done|eapply (step_check _ _ _ Sample.space); by vm_compute]|].
  eapply rtc_l; [eapply (sys_tx _ _ 1); [done|eapply (step_check _ _ _ Sample.space); by vm_compute]|].
  eapply rtc_l; [eapply (sys_tx _ _ 0); [done|eapply (step_lock _ _ _ Sample.space); [done|]]|].
  { intros [|[|j]] u Hj Hu; simplify_eq/=; by intros ?. }
  eapply rtc_l; [eapply (sys_tx _ _ 0); [done|eapply (step_type _ _ _ Sample.space Sample.tree); by vm_compute]|].
  eapply rtc_l; [eapply (sys_tx _ _ 0); [done|eapply (step_single _ _ _ Sample.space Sample.tree); by vm_compute]|].
  eapply rtc_l; [eapply (sys_tx _ _ 0); [done|eapply (step_cycle _ _ _ Sample.space Sample.tree); by vm_compute]|].
  eapply rtc_l; [eapply (sys_tx _ _ 0); [done|eapply (step_commit _ _ _ Sample.space Sample.tree);
    [done|reflexivity|reflexivity]]|].
  match goal with |- rtc _ ?x ?y => replace x with y by by vm_compute end. apply rtc_refl.
Qed.
End Race.

Lemma interleaving_wf_witness :
  rtc sys_step (Sample.empty, [Race.start 201 1 2 PStart; Race.start 202 2 1 PStart])
               (Race.final, Race.waiting) ∧ wf Race.final.
Proof.
  split; [apply Race.run|].
  apply (interleaving_wf (items Sample.empty) (λ _, Sample.space)) with
    (d := Sample.empty) (ts := [Race.start 201 1 2 PStart; Race.start 202 2 1 PStart])
    (ts' := Race.waiting).
  - intros i Hi. repeat (apply elem_of_cons in Hi as [->|Hi]; [done|]). by apply elem_of_nil in Hi.
  - apply Race.run.
  - apply Sample.empty_wf.
  - done.
  - intros l Hl. by apply elem_of_nil in Hl.
  - intros t Ht.
    assert (Hload : ∀ n, n ∈ [1; 2; 3]%N → loadable (items Sample.empty) (uuid_of n)).
    { intros n Hn. exists (Sample.item n). split_and!; [|done|done]. simpl.
      repeat (apply elem_of_cons in Hn as [->|Hn]; [set_solver|]). by apply elem_of_nil in Hn. }
    repeat (apply elem_of_cons in Ht as [->|Ht];
      [split; [done|split_and!; [apply (bool_decide_unpack _); by vm_compute|apply Hload; set_solver..]]|]).
    by apply elem_of_nil in Ht.
Defined.
