(* ===== verification/LinkBehaviour.v ===== *)
(** * Single operations of the link repositories

    What one call does on each branch: optimistic locking of link types, the
    listing of children with its total, links to items that are gone. *)

From Stdlib Require Import ZArith Lia Ascii String QArith.
From stdpp Require Import relations.
From S2P Require Export LinkInvariant.
Local Open Scope Z_scope.

Section Behaviour.
Context {HO : UuidOps} {HW : WorkItemAccess}.

(** ** Link types *)

(** Save succeeds only on the version it was read at and bumps it, so that of two savers of one version the
    second gets a version conflict and changes nothing. *)
Theorem LinkType_Save_optimistic now lt d t d'
    (H : LinkType_Save now lt d = (Ok t, d')) (HN : NoDup (map lt_ID (link_types d)))
    (Hlive : lt_live lt = true) (Hrange : in_int (lt_Version lt + 1)) :
  LinkType_Load d' (lt_ID lt) = Ok t ∧ lt_Version t = lt_Version lt + 1 ∧
  ∀ now' other, lt_ID other = lt_ID lt → lt_Version other = lt_Version lt →
    LinkType_CheckValidForCreation other = Ok tt →
    LinkType_Save now' other d' = (Err (VersionConflictError "version conflict"), d').
Proof.
  pose proof H as H'. apply LinkType_Save_ok in H'
    as (old & HLo & _ & _ & _ & Hid & _ & Hv & Hd').
  rewrite wrap64_id in Hv by done.
  assert (Hlt : lt_live t = true).
  { unfold LinkType_Save in H. rewrite HLo in H. repeat (case_match; try done).
    simplify_eq. simpl. unfold lt_live, live in *. simpl in *. done. }
  assert (HL : LinkType_Load d' (lt_ID lt) = Ok t).
  { subst d'. unfold LinkType_Load in *. simpl. rewrite <- Hid in *.
    clear -HLo Hlt. induction (link_types d) as [|u ts IH]; simpl in *; [done|].
    destruct (lt_live u && bool_decide (lt_ID u = lt_ID t)) eqn:E; simpl.
    - by rewrite Hlt, bool_decide_true.
    - rewrite E. by apply IH. }
  split_and!; [done|done|]. intros now' other Hoid Hov HC. unfold LinkType_Save.
  rewrite Hoid, HL, HC, Hv, Hov. rewrite (proj2 (Z.eqb_neq _ _)) by lia. done.
Qed.

(** ** Creating links *)

Lemma filter_none {A} (f : A → bool) l : (∀ x, In x l → f x = false) → List.filter f l = [].
Proof.
  induction l as [|x l IH]; intros H; [done|]. simpl. rewrite (H x (or_introl eq_refl)).
  apply IH. intros y Hy. apply H. by right.
Qed.

(** When neither end can be loaded, Create does not report a missing item: it panics on the empty batch. *)
Theorem Create_no_items_panics now newID s t ty who d
    (Hty : ty ≠ uuid_Nil) (Hs : find_item d s = None) (Ht : find_item d t = None) :
  Create now newID s t ty who d = (Panic "index out of range", d).
Proof.
  unfold Create, Create_check, s_bind, s_query, LoadBatchByID, Link_CheckValidForCreation. simpl.
  rewrite bool_decide_false by done. cbn.
  rewrite filter_none; [done|]. intros i Hi.
  assert (HF : ∀ x, find_item d x = None → i_live i && bool_decide (i_ID i = x) = false)
    by (intros x Hx; by eapply find_none in Hx).
  apply HF in Hs, Ht. destruct (i_live i); [|done]. simpl in *.
  apply bool_decide_eq_false in Hs, Ht. apply bool_decide_eq_false. set_solver.
Qed.

(** A link whose source cannot be loaded any more is stuck: Delete refuses it, and so does the deletion of all
    links of its target, when it comes first, which blocks the deletion of the target itself. *)
Theorem undeletable_link d l (Hl : find_link d (l_ID l) = Some l)
    (Hs : find_item d (SourceID l) = None) :
  let e := Err (Wrapped "failed to load source work item for: %s"
             (Stacked (NotFoundError "work item" (uuid_String (SourceID l)) None))) in
  (∀ now who, Delete now (l_ID l) who d = (e, d)) ∧
  (∀ now who rest,
     List.filter (λ k, l_live k && related (TargetID l) k) (links d) = l :: rest →
     DeleteRelatedLinks now (TargetID l) who d = (e, d)).
Proof.
  cbv zeta. split.
  - intros now who. unfold Delete, s_bind, s_query, s_map, Load. rewrite Hl.
    unfold LoadByID, LoadFromDB. by rewrite Hs.
  - intros now who rest Hrest. unfold DeleteRelatedLinks, s_bind, s_query. rewrite Hrest. simpl.
    unfold lock_once, s_bind, s_query, s_map, LoadByID, LoadFromDB. by rewrite Hs.
Qed.

(** ** Children *)

(** A page of children is a window of the live children sorted by descending execution order; the total that
    goes with it counts all of them unless the page is empty, when it is 0 whatever their number. *)
Theorem ListWorkItemChildren_spec d parentID start limit its count
    (H : ListWorkItemChildren d parentID start limit = Ok (its, count)) :
  ∃ all, Sorted order_ge all ∧
    all ≡ₚ List.filter (λ i, i_live i && is_child_of d parentID i) (items d) ∧
    its = window start limit all ∧
    count = if bool_decide (its = []) then 0 else Z.of_nat (length all).
Proof.
  unfold ListWorkItemChildren in H. apply bind_ok in H as ([] & HS & H).
  apply bind_ok in H as ([] & HL & H). cbv zeta in H.
  set (all := merge_sort order_ge _) in *. exists all.
  apply bind_ok in H as (its' & Hits & [= <- <-]).
  assert (Hpage : its' = window start limit all).
  { apply mapM_ok in Hits. clear -Hits. induction Hits as [|i j l k Hij _ IH]; [done|].
    f_equal; [|exact IH]. destruct (witr_Load (i_Type i)); [|done..].
    destruct (ConvertItem i); by simplify_eq. }
  split_and!; [| |done|].
  - apply Sorted_merge_sort. intros x y. unfold order_ge.
    destruct (Qlt_le_dec (i_ExecutionOrder x) (i_ExecutionOrder y)) as [?|?];
      [right; by apply Qlt_le_weak|by left].
  - apply merge_sort_Permutation.
  - rewrite <- Hpage. destruct its' as [|i its']; [|done]. simpl.
    assert (Hne : ∀ n, limit = Some n → 0 < n).
    { intros n ->. destruct (n <=? 0) eqn:E; [done|]. by z_bool. }
    assert (Hge : ∀ n, start = Some n → 0 ≤ n).
    { intros n ->. destruct (n <? 0) eqn:E; [done|]. by z_bool. }
    clearbody all. unfold window in Hpage |- *. destruct start as [s|].
    + specialize (Hge s eq_refl). destruct (Z.to_nat s) as [|m] eqn:Es.
      * change (drop 0 all) with all in *. destruct limit as [n|].
        -- specialize (Hne n eq_refl). destruct (Z.to_nat n) eqn:En; [lia|].
           by destruct all.
        -- by subst all.
      * simpl. rewrite drop_nil. destruct limit; [by rewrite take_nil|done].
    + destruct limit as [n|]; [|by subst all].
      specialize (Hne n eq_refl). destruct (Z.to_nat n) eqn:En; [lia|].
      by destruct all.
Qed.
End Behaviour.

(** ** Concrete stores *)

Module Stores.
(** A network type under which item 3 has the two parents 1 and 2. *)
Definition network : WorkItemLinkType :=
  {| lt_Lifecycle := created Sample.t0; lt_ID := Sample.ty; lt_Name := "related";
     lt_Description := None; lt_Version := 0; lt_Topology := TopologyNetwork;
     lt_ForwardName := "relates to"; lt_ForwardDescription := None;
     lt_ReverseName := "is related to"; lt_ReverseDescription := None;
     lt_SpaceTemplateID := SystemBaseTemplateID |}.
Definition two_parents : db :=
  set_link_types (set_links Sample.empty [Sample.link 201 1 3; Sample.link 202 2 3]) [network].
(** Item 1 was deleted. *)
Definition deleted_item : item_row :=
  {| i_ID := uuid_of 1; i_SpaceID := Sample.space; i_Type := uuid_of 50;
     i_ExecutionOrder := 1; i_DeletedAt := Some Sample.t0 |}.
Definition gone : db := set_items Sample.empty [deleted_item; Sample.item 2; Sample.item 3].
Definition linked_to_gone : db :=
  (Create Sample.t0 (uuid_of 201) (uuid_of 1) (uuid_of 2) Sample.ty (uuid_of 9) gone).2.
(** The chain 1 -> 2 -> 3 under the system's own parent-child type. *)
Definition family : db :=
  set_links Sample.empty
    [{| l_Lifecycle := created Sample.t0; l_ID := uuid_of 201; l_Version := 0;
        SourceID := uuid_of 1; TargetID := uuid_of 2;
        LinkTypeID := SystemWorkItemLinkTypeParentChildID |}].
End Stores.

(** Save lets a link type become a tree although links of that type already break the rules of a tree. *)
Theorem LinkType_Save_topology_unchecked :
  ∃ d now lt t d', wf d ∧ lt_Topology lt = TopologyTree ∧
    LinkType_Save now lt d = (Ok t, d') ∧ ¬ wf d'.
Proof.
  exists Stores.two_parents, Sample.t0, Sample.tree.
  destruct (LinkType_Save Sample.t0 Sample.tree Stores.two_parents) as [[t|e|s] d'] eqn:E;
    [|vm_compute in E; done..].
  exists t, d'. split_and!; [|done|done|].
  - split; [apply (bool_decide_unpack _); by vm_compute..| |].
    + intros l Hl. repeat (apply elem_of_cons in Hl as [->|Hl]; [by left|]). by apply elem_of_nil in Hl.
    + intros u Hu. apply list_elem_of_singleton in Hu as ->. by split; [|intros [?|?]].
  - intros [_ _ _ HT].
    assert (Ht : t ∈ link_types d' ∧ tree_like t ∧ lt_ID t = Sample.ty ∧
                 links d' = links Stores.two_parents).
    { vm_compute in E. injection E as <- <-. split_and!; [by left|done..]. }
    destruct Ht as (Hin & Htree & Hid & Hl).
    destruct (HT t Hin) as [HS _]. specialize (HS Htree (uuid_of 3) (uuid_of 1) (uuid_of 2)).
    rewrite Hid, Hl in HS.
    assert (uuid_of 1 ≠ uuid_of 2) as Hne by (apply (bool_decide_unpack _); by vm_compute).
    apply Hne, HS; [exists (Sample.link 201 1 3); split; [by left|done]
                   |exists (Sample.link 202 2 3); split; [right; by left|done]].
Qed.

Lemma LinkType_Save_optimistic_witness :
  ∃ t d', LinkType_Save Sample.t0 Sample.tree Sample.empty = (Ok t, d') ∧
  lt_Version t = 1 ∧
  LinkType_Save Sample.t0 Sample.tree d' = (Err (VersionConflictError "version conflict"), d').
Proof.
  destruct (LinkType_Save Sample.t0 Sample.tree Sample.empty) as [[t|e|s] d'] eqn:E;
    [|vm_compute in E; done..].
  exists t, d'. split; [done|].
  destruct (LinkType_Save_optimistic Sample.t0 Sample.tree Sample.empty t d' E) as (_ & Hv & Hc).
  - apply (wf_types _ Sample.empty_wf).
  - done.
  - by apply in_intb_spec.
  - split; [exact Hv|]. by apply Hc.
Defined.

Lemma Create_no_items_panics_witness :
  Create Sample.t0 (uuid_of 201) (uuid_of 77) (uuid_of 78) Sample.ty (uuid_of 9) Sample.empty
    = (Panic "index out of range", Sample.empty).
Proof.
  apply Create_no_items_panics; [|by vm_compute..].
  apply (bool_decide_unpack _). by vm_compute.
Defined.

(** The link was created after the deletion of its source. *)
Lemma undeletable_link_witness :
  is_ok (Create Sample.t0 (uuid_of 201) (uuid_of 1) (uuid_of 2) Sample.ty (uuid_of 9)
           Stores.gone).1 = true ∧
  (Delete Sample.t0 (uuid_of 201) (uuid_of 9) Stores.linked_to_gone).2 = Stores.linked_to_gone ∧
  is_err (DeleteRelatedLinks Sample.t0 (uuid_of 2) (uuid_of 9) Stores.linked_to_gone).1 = true.
Proof.
  destruct (undeletable_link Stores.linked_to_gone (Sample.link 201 1 2)) as [H1 H2];
    [by vm_compute..|].
  split; [by vm_compute|]. split.
  - pose proof (H1 Sample.t0 (uuid_of 9)) as H.
    exact (f_equal snd H).
  - pose proof (H2 Sample.t0 (uuid_of 9) []) as H.
    assert (HF : List.filter (λ k, l_live k && related (TargetID (Sample.link 201 1 2)) k)
                   (links Stores.linked_to_gone) = [Sample.link 201 1 2]) by by vm_compute.
    apply H in HF. change (uuid_of 2) with (TargetID (Sample.link 201 1 2)). by rewrite HF.
Defined.

Lemma ListWorkItemChildren_witness :
  ListWorkItemChildren Stores.family (uuid_of 1) (Some 1) (Some 10) = Ok ([], 0) ∧
  ∃ all, Sorted order_ge all ∧
    all ≡ₚ List.filter (λ i, i_live i && is_child_of Stores.family (uuid_of 1) i)
             (items Stores.family) ∧
    [] = window (Some 1) (Some 10) all ∧
    0 = if bool_decide (@nil item_row = []) then 0 else Z.of_nat (length all).
Proof.
  assert (H : ListWorkItemChildren Stores.family (uuid_of 1) (Some 1) (Some 10) = Ok ([], 0))
    by by vm_compute.
  split; [exact H|]. apply (ListWorkItemChildren_spec _ _ _ _ _ _ H).
Defined.
