(* ===== verification/TableJoin.v ===== *)
(** * Joinable tables

    [workitem/table_join.go]: which table join handles a field name, how the
    name is translated to a column, and how the joins a query needs are
    activated and ordered.  A [map[string]*TableJoin] is a finite map whose
    keys also stand for the pointers; a [range] over it is a list of its keys
    in the order the runtime picks, an argument of the definitions. *)

From Stdlib Require Import ZArith Lia Ascii String.
From stdpp Require Import relations.
From S2P Require Export Prelude.

Record TableJoin := {
  Active : bool;
  TableName : string;
  TableAlias : string;
  On : string;
  Where : string;
  PrefixActivators : list string;
  AllowedColumns : list string;
  DisallowedColumns : list string;
  HandledFields : list string;
  ActivateOtherJoins : list string;
  DelegateTo : list (string * option string);  (* prefix, join or nil *)
}.
Notation TableJoinMap := (gmap string TableJoin).

Definition with_Active (j : TableJoin) : TableJoin :=
  {| Active := true; TableName := TableName j; TableAlias := TableAlias j; On := On j;
     Where := Where j; PrefixActivators := PrefixActivators j;
     AllowedColumns := AllowedColumns j; DisallowedColumns := DisallowedColumns j;
     HandledFields := HandledFields j; ActivateOtherJoins := ActivateOtherJoins j;
     DelegateTo := DelegateTo j |}.
Definition with_HandledField (col : string) (j : TableJoin) : TableJoin :=
  {| Active := Active j; TableName := TableName j; TableAlias := TableAlias j; On := On j;
     Where := Where j; PrefixActivators := PrefixActivators j;
     AllowedColumns := AllowedColumns j; DisallowedColumns := DisallowedColumns j;
     HandledFields := HandledFields j ++ [col]; ActivateOtherJoins := ActivateOtherJoins j;
     DelegateTo := DelegateTo j |}.

(** [Column]: a quoted column of a quoted table. *)
Definition Column (table column : string) : string :=
  dquote +:+ table +:+ dquote +:+ "." +:+ dquote +:+ column +:+ dquote.

(** ** One join *)

(** [Validate]: the columns of the joined tables are the database's. *)
Definition Validate (HasColumn : string → string → bool) (j : TableJoin) : res unit :=
  if Active j
  then if forallb (λ f, bool_decide (f ∈ AllowedColumns j) || HasColumn (TableName j) f)
                  (HandledFields j)
       then Ok tt
       else Err (Plain "table '%s' has no column '%s'")
  else Ok tt.

Definition GetJoinExpression (j : TableJoin) : string :=
  "LEFT JOIN " +:+ TableName j +:+ " " +:+ dquote +:+ TableAlias j +:+ dquote
  +:+ " ON " +:+ On j.

Definition HandlesFieldName (j : TableJoin) (fieldName : string) : bool :=
  existsb (HasPrefix fieldName) (PrefixActivators j).

Definition column_is_allowed (j : TableJoin) (col : string) : bool :=
  (match AllowedColumns j with [] => true | _ => bool_decide (col ∈ AllowedColumns j) end)
  && negb (bool_decide (col ∈ DisallowedColumns j)).

(** The column name behind the prefix, or the complaint about it. *)
Definition column_of (j : TableJoin) (fieldName : string) : res string :=
  let prefix := match List.find (HasPrefix fieldName) (PrefixActivators j) with
                | Some t => t | None => "" end in
  let col := TrimSpace (TrimPrefix fieldName prefix) in
  if String.eqb col ""
  then Err (Plain "field name '%s' contains an empty column name after prefix '%s'")
  else if Contains col "'"
  then Err (Plain "single quote not allowed in field name: '%s'")
  else Ok col.

(** The key of the join that takes over: the first of [DelegateTo] whose
    prefix fits, else the join itself. *)
Definition delegate_of (k : string) (j : TableJoin) (fieldName : string) : res string :=
  match List.find (λ d, HasPrefix fieldName d.1) (DelegateTo j) with
  | None => Ok k
  | Some (_, Some d) => Ok d
  | Some (_, None) => Err (Plain "delegated join '%s' for field '%s' must not point to nil")
  end.

Definition set_active (k : string) (js : TableJoinMap) : TableJoinMap := alter with_Active k js.

Definition TranslateFieldName (k fieldName : string) (js : TableJoinMap)
    : res string * TableJoinMap :=
  match js !! k with
  | None => (Panic "invalid memory address or nil pointer dereference", js)
  | Some j =>
      if negb (HandlesFieldName j fieldName)
      then (Err (Plain "field name '%s' not handled by this table join"), js)
      else
        let js := set_active k js in
        match column_of j fieldName with
        | Err e => (Err e, js)
        | Panic s => (Panic s, js)
        | Ok col =>
            match delegate_of k j fieldName with
            | Err e => (Err e, js)
            | Panic s => (Panic s, js)
            | Ok d =>
                let js := set_active d js in
                match js !! d with
                | None => (Panic "invalid memory address or nil pointer dereference", js)
                | Some delegator =>
                    if negb (column_is_allowed delegator col)
                    then (Err (Plain "column is not allowed: %s"), js)
                    else (Ok (Column (TableAlias delegator) col),
                          alter (with_HandledField col) d js)
                end
            end
        end
  end.

(** ** Activating the joins a join needs *)

Section Activation.
Context (ks : list string).   (* the order of [range *joins] *)

Fixpoint activate_names (again : TableJoinMap → option (res TableJoinMap)) (names : list string)
    (js : TableJoinMap) : option (res TableJoinMap) :=
  match names with
  | [] => Some (Ok js)
  | name :: names =>
      match js !! name with
      | None => Some (Err (Plain "join '%s' not found for '%s' join"))
      | Some other =>
          if Active other then activate_names again names js
          else match again (set_active name js) with
               | Some (Ok js') => activate_names again names js'
               | r => wrapf "failed to activate required joins for '%s' join" <$> r
               end
      end
  end.
Fixpoint activate_loop (again : TableJoinMap → option (res TableJoinMap)) (keys : list string)
    (js : TableJoinMap) : option (res TableJoinMap) :=
  match keys with
  | [] => Some (Ok js)
  | k :: keys =>
      match js !! k with
      | Some j =>
          if Active j
          then match activate_names again (ActivateOtherJoins j) js with
               | Some (Ok js') => activate_loop again keys js'
               | r => r
               end
          else activate_loop again keys js
      | None => activate_loop again keys js
      end
  end.
(** [None]: out of fuel. *)
Fixpoint activate (fuel : nat) (js : TableJoinMap) : option (res TableJoinMap) :=
  match fuel with
  | O => None
  | S fuel => activate_loop (activate fuel) ks js
  end.
(** Each recursive call follows the activation of one more join. *)
Definition ActivateRequiredJoins (js : TableJoinMap) : res TableJoinMap :=
  match activate (S (size js)) js with
  | Some r => r
  | None => Panic "the activation did not end"
  end.
End Activation.

(** ** Ordering the active joins *)

Record orderer := { alreadyVisited : gset string; orderedActivatedJoins : list string }.

Section Order.
Context (js : TableJoinMap).

Fixpoint visit_all (failed : res orderer → res orderer)
    (visit : string → orderer → option (res orderer)) (names : list string)
    (o : orderer) : option (res orderer) :=
  match names with
  | [] => Some (Ok o)
  | name :: names =>
      match visit name o with
      | Some (Ok o') => visit_all failed visit names o'
      | r => failed <$> r
      end
  end.
Fixpoint visitDepthFirst (fuel : nat) (name : string) (o : orderer) : option (res orderer) :=
  match fuel with
  | O => None
  | S fuel =>
      match js !! name with
      | None => Some (Err (Plain "join '%s' not found"))
      | Some j =>
          if bool_decide (name ∈ alreadyVisited o) then Some (Ok o)
          else
            let o := {| alreadyVisited := {[name]} ∪ alreadyVisited o;
                        orderedActivatedJoins := orderedActivatedJoins o |} in
            if negb (Active j) then Some (Ok o)
            else match visit_all (replace_err (Plain "failed to visit '%s' join"))
                         (visitDepthFirst fuel) (ActivateOtherJoins j) o with
                 | Some (Ok o) =>
                     Some (Ok {| alreadyVisited := alreadyVisited o;
                                 orderedActivatedJoins := orderedActivatedJoins o ++ [name] |})
                 | r => r
                 end
      end
  end.
End Order.

(** The keys of the active joins, in an order in which they can be joined,
    with the joins as the activation left them. *)
Definition GetOrderdActivatedJoins (ks ks' : list string) (js : TableJoinMap)
    : res (list string * TableJoinMap) :=
  js ← wrapf "failed to get activate required joins" (ActivateRequiredJoins ks js);
  match visit_all (wrapf "failed to visit '%s' join") (visitDepthFirst js (S (size js))) ks'
          {| alreadyVisited := ∅; orderedActivatedJoins := [] |} with
  | Some r => o ← r; Ok (orderedActivatedJoins o, js)
  | None => Panic "the visit did not end"
  end.

(** ** Lemmas on the activation *)

Definition active (js : TableJoinMap) (k : string) : Prop :=
  ∃ j, js !! k = Some j ∧ Active j = true.
(** [k] names [n] among the joins it activates. *)
Definition requires (js : TableJoinMap) (k n : string) : Prop :=
  ∃ j, js !! k = Some j ∧ n ∈ ActivateOtherJoins j.
Definition closed (js : TableJoinMap) : Prop :=
  ∀ k n, active js k → requires js k n → active js n.
(** Only activations happened. *)
Definition grows (js js' : TableJoinMap) : Prop :=
  ∀ k, js' !! k = js !! k ∨ js' !! k = with_Active <$> js !! k.
Definition inactive (js : TableJoinMap) : nat :=
  size (filter (λ p, Active p.2 = false) js).

Lemma with_Active_idemp j : with_Active (with_Active j) = with_Active j.
Proof. done. Qed.
Lemma grows_refl js : grows js js.
Proof. by left. Qed.
Lemma grows_trans js1 js2 js3 : grows js1 js2 → grows js2 js3 → grows js1 js3.
Proof.
  intros H1 H2 k. destruct (H1 k) as [E1|E1], (H2 k) as [E2|E2]; rewrite E2, E1;
    [by left|by right|by right|right]. by destruct (js1 !! k).
Qed.
Lemma grows_set_active js k : grows js (set_active k js).
Proof.
  intros k'. unfold set_active. destruct (decide (k = k')) as [->|];
    [right; apply lookup_alter_eq|left; by apply lookup_alter_ne].
Qed.
#[export] Hint Resolve grows_refl grows_set_active : golib.
Lemma grows_active js js' k : grows js js' → active js k → active js' k.
Proof. intros H (j & Hj & Ha). destruct (H k) as [E|E]; rewrite Hj in E; eexists; eauto. Qed.
Lemma grows_requires js js' k n : grows js js' → requires js' k n ↔ requires js k n.
Proof.
  intros H. unfold requires. destruct (H k) as [-> | ->]; [done|].
  destruct (js !! k) as [j|]; simpl; [|naive_solver].
  split; intros (j' & [= <-] & Hn); [by exists j|by exists (with_Active j)].
Qed.
Lemma grows_None js js' k : grows js js' → js !! k = None → js' !! k = None.
Proof. intros H HN. by destruct (H k) as [-> | ->]; rewrite HN. Qed.

(** An activation that is new to [js'] is reached from an old one. *)
Definition justified (js js' : TableJoinMap) : Prop :=
  grows js js' ∧ ∀ k, active js' k → ∃ k0, active js k0 ∧ rtc (requires js) k0 k.
Lemma justified_refl js : justified js js.
Proof. split; [apply grows_refl|]. intros k Hk. by exists k. Qed.
Lemma rtc_requires_grows js js' k n :
  grows js js' → rtc (requires js') k n → rtc (requires js) k n.
Proof.
  intros HG. induction 1 as [|x y z H _ IH]; [done|]. eapply rtc_l; [|done].
  by apply (grows_requires js js').
Qed.
Lemma justified_trans js1 js2 js3 :
  justified js1 js2 → justified js2 js3 → justified js1 js3.
Proof.
  intros [G1 J1] [G2 J2]. split; [by eapply grows_trans|].
  intros k Hk. destruct (J2 k Hk) as (k1 & H1 & R1). destruct (J1 k1 H1) as (k0 & H0 & R0).
  exists k0. split; [done|]. etrans; [done|]. by eapply rtc_requires_grows.
Qed.
Lemma justified_set_active js k n :
  active js k → requires js k n → justified js (set_active n js).
Proof.
  intros Hk Hn. split; [apply grows_set_active|]. intros m (j & Hj & Ha).
  unfold set_active in Hj. destruct (decide (n = m)) as [<-|Hne].
  - exists k. split; [done|]. by apply rtc_once.
  - rewrite lookup_alter_ne in Hj by done. exists m. split; [by exists j|done].
Qed.

(** What a call promises, when the range visits every key. *)
Definition covers (ks : list string) (js : TableJoinMap) : Prop :=
  ∀ k, is_Some (js !! k) → k ∈ ks.
Lemma covers_grows ks js js' : grows js js' → covers ks js → covers ks js'.
Proof.
  intros HG H k [j Hj]. apply H. destruct (HG k) as [E|E]; rewrite Hj in E; [by eexists|].
  destruct (js !! k); [by eexists|done].
Qed.
Definition activation_spec (ks : list string)
    (again : TableJoinMap → option (res TableJoinMap)) : Prop :=
  ∀ js js', covers ks js → again js = Some (Ok js') → justified js js' ∧ closed js'.

Lemma activate_names_spec ks again names js js' k :
  activation_spec ks again → covers ks js → active js k → (∀ n, n ∈ names → requires js k n) →
  activate_names again names js = Some (Ok js') →
  justified js js' ∧ ((js' = js ∧ ∀ n, n ∈ names → active js n) ∨ closed js').
Proof.
  intros HA. revert js. induction names as [|n names IH]; intros js Hcov Hk Hreq; simpl.
  { intros [= ->]. split; [apply justified_refl|left]. split; [done|set_solver]. }
  destruct (js !! n) as [other|] eqn:En; [|done]. destruct (Active other) eqn:Ea.
  - intros H. destruct (IH js Hcov Hk) as [HJ [[-> Hall]|HC]]; [set_solver|done| |].
    + split; [done|left]. split; [done|]. intros m [->|Hm]%elem_of_cons; [by exists other|by apply Hall].
    + split; [done|by right].
  - destruct (again (set_active n js)) as [[js1|e|s]|] eqn:Eg; try done.
    intros H. destruct (HA _ _ (covers_grows _ _ _ (grows_set_active _ _) Hcov) Eg) as [HJ1 HC1].
    assert (HJ : justified js js1).
    { eapply justified_trans; [|exact HJ1]. eapply justified_set_active; [done|]. apply Hreq; set_solver. }
    destruct (IH js1) as [HJ2 Hres];
      [by eapply covers_grows; [apply HJ|]|by eapply grows_active; [apply HJ|]| |done|].
    + intros m Hm. apply (grows_requires js js1); [apply HJ|]. apply Hreq. set_solver.
    + split; [by eapply justified_trans|]. destruct Hres as [[-> _]|HC]; by right.
Qed.

Lemma activate_loop_spec ks again keys js js' :
  activation_spec ks again → covers ks js → activate_loop again keys js = Some (Ok js') →
  justified js js' ∧
  ((js' = js ∧ ∀ k n, k ∈ keys → active js k → requires js k n → active js n) ∨ closed js').
Proof.
  intros HA. revert js. induction keys as [|k keys IH]; intros js Hcov; simpl.
  { intros [= ->]. split; [apply justified_refl|left]. split; [done|set_solver]. }
  destruct (js !! k) as [j|] eqn:Ek; [destruct (Active j) eqn:Ea|]; cycle 1.
  1, 2: intros H; destruct (IH js Hcov H) as [HJ [[-> Hall]|HC]]; (split; [done|]); [left|by right];
    (split; [done|]); intros m n [->|Hm]%elem_of_cons Hact; [|by apply Hall];
    destruct Hact as (j' & Hj' & Ha'); congruence.
  assert (Hk : active js k) by by exists j.
  destruct (activate_names again (ActivateOtherJoins j) js) as [[js1|e|s]|] eqn:En; try done.
  intros H. destruct (activate_names_spec ks again (ActivateOtherJoins j) js js1 k HA Hcov Hk) as [HJ1 H1];
    [intros n Hn; by exists j|exact En|].
  destruct (IH js1) as [HJ2 H2]; [by eapply covers_grows; [apply HJ1|]|done|].
  split; [by eapply justified_trans|].
  destruct H1 as [[-> Hall1]|HC1].
  - destruct H2 as [[-> Hall2]|HC]; [left|by right]. split; [done|].
    intros m n [->|Hm]%elem_of_cons Hact Hreq; [|by eapply Hall2].
    destruct Hreq as (j' & Hj' & Hn). rewrite Ek in Hj'. simplify_eq. by apply Hall1.
  - destruct H2 as [[-> _]|HC]; by right.
Qed.

Lemma activate_spec ks fuel : activation_spec ks (activate ks fuel).
Proof.
  induction fuel as [|fuel IH]; intros js js' Hcov; [done|]. simpl. intros H.
  destruct (activate_loop_spec _ _ _ _ _ IH Hcov H) as [HJ [[-> Hall]|HC]]; [|done].
  split; [done|]. intros k n Hk Hreq. apply (Hall k); [|done..]. apply Hcov.
  destruct Hk as (j & Hj & _). by exists j.
Qed.

(** It ends: every recursive call has one inactive join less. *)
Lemma inactive_set_active js n j :
  js !! n = Some j → Active j = false → S (inactive (set_active n js)) = inactive js.
Proof.
  intros Hj Ha. unfold inactive.
  assert (filter (λ p, Active p.2 = false) js =
          <[n := j]> (filter (λ p, Active p.2 = false) (set_active n js))) as ->.
  { apply map_eq. intros k. destruct (decide (n = k)) as [<-|Hne].
    - rewrite lookup_insert_eq. by apply map_lookup_filter_Some_2.
    - rewrite lookup_insert_ne by done. rewrite !map_lookup_filter.
      unfold set_active. by rewrite lookup_alter_ne. }
  rewrite map_size_insert_None; [done|].
  apply map_lookup_filter_None. right. unfold set_active.
  intros x. rewrite lookup_alter_eq, Hj. by intros [= <-].
Qed.
Lemma inactive_grows js js' : grows js js' → (inactive js' ≤ inactive js)%nat.
Proof.
  intros H. unfold inactive. apply map_subseteq_size, map_subseteq_spec.
  intros k j [Hj Ha]%map_lookup_filter_Some. apply map_lookup_filter_Some. split; [|done].
  destruct (H k) as [E|E]; rewrite Hj in E; [done|].
  destruct (js !! k); [|done]. simplify_eq/=.
Qed.
Lemma inactive_size js : (inactive js ≤ size js)%nat.
Proof. unfold inactive. apply map_subseteq_size, map_filter_subseteq. Qed.

Lemma activate_names_total ks fuel (IH : ∀ js, (inactive js < fuel)%nat → covers ks js →
      ∃ r, activate ks fuel js = Some r) names js :
  (inactive js ≤ fuel)%nat → covers ks js → is_Some (activate_names (activate ks fuel) names js).
Proof.
  revert js. induction names as [|n names IHn]; intros js Hf Hcov; simpl; [by eexists|].
  destruct (js !! n) as [other|] eqn:En; [|by eexists]. destruct (Active other) eqn:Ea; [by apply IHn|].
  pose proof (inactive_set_active _ _ _ En Ea) as Hin.
  pose proof (covers_grows _ _ _ (grows_set_active js n) Hcov) as Hcov1.
  destruct (IH (set_active n js)) as [[js1|e|s] Hr]; [lia|done|rewrite Hr..]; [|by eexists..].
  destruct (activate_spec ks fuel _ _ Hcov1 Hr) as [[HG _] _].
  apply IHn; [|by eapply covers_grows]. pose proof (inactive_grows _ _ HG). lia.
Qed.
Lemma activate_loop_total ks fuel (IH : ∀ js, (inactive js < fuel)%nat → covers ks js →
      ∃ r, activate ks fuel js = Some r) keys js :
  (inactive js ≤ fuel)%nat → covers ks js → is_Some (activate_loop (activate ks fuel) keys js).
Proof.
  revert js. induction keys as [|k keys IHk]; intros js Hf Hcov; simpl; [by eexists|].
  destruct (js !! k) as [j|] eqn:Ek; [|by apply IHk]. destruct (Active j) eqn:Ea; [|by apply IHk].
  destruct (activate_names_total ks fuel IH (ActivateOtherJoins j) js Hf Hcov) as [[js1|e|s] Hr];
    rewrite Hr; [|by eexists..].
  destruct (activate_names_spec ks (activate ks fuel) (ActivateOtherJoins j) js js1 k)
    as [[HG _] _]; [apply activate_spec|done|by exists j|intros n Hn; by exists j|done|].
  apply IHk; [|by eapply covers_grows]. pose proof (inactive_grows _ _ HG). lia.
Qed.
Lemma activate_total ks fuel js :
  (inactive js < fuel)%nat → covers ks js → ∃ r, activate ks fuel js = Some r.
Proof.
  revert js. induction fuel as [|fuel IH]; intros js Hf Hcov; [lia|].
  simpl. destruct (activate_loop_total ks fuel IH ks js) as [r Hr]; [lia|done|by exists r].
Qed.

(** It fails only on a required join that does not exist. *)
Definition dangling (js : TableJoinMap) : Prop := ∃ k n, requires js k n ∧ js !! n = None.
Definition fails_dangling (ks : list string)
    (again : TableJoinMap → option (res TableJoinMap)) : Prop :=
  ∀ js r, covers ks js → again js = Some r → is_ok r = true ∨ (is_err r = true ∧ dangling js).
Lemma dangling_grows js js' : grows js js' → dangling js' → dangling js.
Proof.
  intros HG (k & n & Hreq & Hn). exists k, n. split; [by apply (grows_requires js js')|].
  destruct (HG n) as [E|E]; rewrite Hn in E; [done|]. by destruct (js !! n).
Qed.
Lemma activate_names_fails ks again names js k r :
  activation_spec ks again → covers ks js → fails_dangling ks again →
  (∀ n, n ∈ names → requires js k n) → activate_names again names js = Some r →
  is_ok r = true ∨ (is_err r = true ∧ dangling js).
Proof.
  intros HA Hcov HF. revert js Hcov. induction names as [|n names IH]; intros js Hcov Hreq; simpl.
  { intros [= <-]. by left. }
  destruct (js !! n) as [other|] eqn:En.
  2: { intros [= <-]. right. split; [done|]. exists k, n. split; [apply Hreq; set_solver|done]. }
  destruct (Active other); [apply IH; [done|set_solver]|].
  assert (HG := grows_set_active js n).
  destruct (again (set_active n js)) as [[js1|e|s]|] eqn:Eg; simpl; [|intros [= <-]..|done].
  - destruct (HA _ _ (covers_grows _ _ _ HG Hcov) Eg) as [[HG1 _] _].
    assert (HG2 : grows js js1) by by eapply grows_trans.
    intros H. destruct (IH js1) as [?|[? Hd]]; [by eapply covers_grows| |done|by left|].
    + intros m Hm. apply (grows_requires js js1); [done|]. apply Hreq. set_solver.
    + right. split; [done|]. by eapply dangling_grows.
  - destruct (HF _ _ (covers_grows _ _ _ HG Hcov) Eg) as [?|[_ Hd]]; [done|]. right. split; [done|]. by eapply dangling_grows.
  - by destruct (HF _ _ (covers_grows _ _ _ HG Hcov) Eg) as [?|[? _]].
Qed.
Lemma activate_fails ks fuel : fails_dangling ks (activate ks fuel).
Proof.
  induction fuel as [|fuel IHf]; intros js r Hcov; simpl; [done|].
  assert (HL : ∀ keys js, covers ks js → ∀ r, activate_loop (activate ks fuel) keys js = Some r →
    is_ok r = true ∨ (is_err r = true ∧ dangling js)); [|by apply HL].
  clear js r Hcov. induction keys as [|k keys IH]; intros js Hcov r; simpl.
  { intros [= <-]. by left. }
  destruct (js !! k) as [j|] eqn:Ek; [|by apply IH]. destruct (Active j) eqn:Ea; [|by apply IH].
  assert (HN : ∀ r, activate_names (activate ks fuel) (ActivateOtherJoins j) js = Some r →
    is_ok r = true ∨ (is_err r = true ∧ dangling js)).
  { intros r' Hr'. apply (activate_names_fails ks (activate ks fuel) (ActivateOtherJoins j) js k);
      [apply activate_spec|done|done|intros n Hn; by exists j|done]. }
  destruct (activate_names _ _ js) as [[js1|e|s]|] eqn:En; [|intros [= <-]; by apply HN..|done].
  destruct (activate_names_spec ks (activate ks fuel) (ActivateOtherJoins j) js js1 k)
    as [[HG _] _]; [apply activate_spec|done|by exists j|intros n Hn; by exists j|done|].
  intros H. destruct (IH js1 (covers_grows _ _ _ HG Hcov) r H) as [?|[? Hd]]; [by left|].
  right. split; [done|]. by eapply dangling_grows.
Qed.

Lemma ActivateRequiredJoins_closed ks js (Hcov : covers ks js) :
  match ActivateRequiredJoins ks js with
  | Ok js' => grows js js' ∧ closed js' ∧
      ∀ k, active js' k ↔ ∃ k0, active js k0 ∧ rtc (requires js) k0 k
  | Err _ => dangling js
  | Panic _ => False
  end.
Proof.
  unfold ActivateRequiredJoins.
  destruct (activate_total ks (S (size js)) js) as [r Hr]; [pose proof (inactive_size js); lia|done|].
  rewrite Hr. pose proof (activate_fails _ _ _ _ Hcov Hr) as Hf.
  destruct r as [js'|e|s]; [|by destruct Hf as [?|[_ ?]]|by destruct Hf as [?|[? _]]].
  destruct (activate_spec _ _ _ _ Hcov Hr) as [[HG HJ] HC]. split_and!; [done|done|].
  intros k. split; [apply HJ|]. intros (k0 & H0 & HR).
  apply (grows_active _ _ _ HG) in H0. revert H0. clear -HR HC HG.
  induction HR as [|x y z Hxy _ IH]; intros Hx; [done|]. apply IH.
  apply (HC x); [done|]. by apply (grows_requires js js').
Qed.

(** ** Lemmas on the order *)

Section Topological.
Context (js : TableJoinMap) (Hclosed : closed js).
Context (rank : string → nat) (Hrank : ∀ k n, requires js k n → (rank n < rank k)%nat).

Definition topological (out : list string) : Prop :=
  ∀ l1 k l2, out = l1 ++ k :: l2 → ∀ n, requires js k n → n ∈ l1.
Record order_ok (P : string → Prop) (o : orderer) : Prop := {
  oo_nodup : NoDup (orderedActivatedJoins o);
  oo_visited : ∀ k, k ∈ orderedActivatedJoins o → k ∈ alreadyVisited o ∧ active js k;
  oo_pending : ∀ k, k ∈ alreadyVisited o → active js k → k ∈ orderedActivatedJoins o ∨ P k;
  oo_done : ∀ k, k ∈ orderedActivatedJoins o → ¬ P k;
  oo_topological : topological (orderedActivatedJoins o);
}.
Definition extends (o o' : orderer) : Prop :=
  alreadyVisited o ⊆ alreadyVisited o' ∧
  orderedActivatedJoins o ⊆ orderedActivatedJoins o'.
Definition unvisited (o : orderer) : nat := size (dom js ∖ alreadyVisited o).
Definition below (P : string → Prop) (name : string) : Prop :=
  is_Some (js !! name) ∧ ∀ k, P k → (rank name < rank k)%nat.
(** What a visit of [name] promises while the joins of [P] are in progress. *)
Definition visited_ok (P : string → Prop) (name : string) (o : orderer)
    (r : option (res orderer)) : Prop :=
  ∃ o', r = Some (Ok o') ∧ order_ok P o' ∧ extends o o' ∧
        (active js name → name ∈ orderedActivatedJoins o') ∧ name ∈ alreadyVisited o'.

Lemma extends_unvisited o o' : extends o o' → (unvisited o' ≤ unvisited o)%nat.
Proof. intros [H _]. unfold unvisited. apply subseteq_size. set_solver. Qed.

Lemma visit_all_ok P failed visit names bound o :
  (unvisited o ≤ bound)%nat →
  (∀ n o, n ∈ names → order_ok P o → (unvisited o ≤ bound)%nat → visited_ok P n o (visit n o)) →
  order_ok P o →
  ∃ o', visit_all failed visit names o = Some (Ok o') ∧ order_ok P o' ∧ extends o o' ∧
        ∀ n, n ∈ names → (active js n → n ∈ orderedActivatedJoins o') ∧ n ∈ alreadyVisited o'.
Proof.
  revert o. induction names as [|n names IH]; intros o Hb HV Ho; simpl.
  { exists o. split_and!; [done|done|done|set_solver]. }
  destruct (HV n o) as (o1 & -> & Ho1 & He1 & Ha1 & Hv1); [set_solver|done|done|].
  destruct (IH o1) as (o2 & -> & Ho2 & [He2 He2'] & Hall);
    [pose proof (extends_unvisited _ _ He1); lia| |done|].
  { intros m o' Hm. apply HV. set_solver. }
  exists o2. destruct He1 as [He1 He1']. split_and!; [done|done|split; set_solver|].
  intros m [->|Hm]%elem_of_cons; [|by apply Hall]. split; [|set_solver].
  intros Hm. by apply He2', Ha1.
Qed.

Lemma topological_snoc out name :
  topological out → (∀ n, requires js name n → n ∈ out) → topological (out ++ [name]).
Proof.
  intros HT Hn l1 k l2 Heq n Hreq.
  destruct (decide (l2 = [])) as [->|Hl2].
  - apply app_inj_tail in Heq as [-> <-]. by apply Hn.
  - destruct (exists_last Hl2) as (l3 & x & ->).
    rewrite app_comm_cons, app_assoc in Heq. apply app_inj_tail in Heq as [-> _].
    by eapply HT.
Qed.

Lemma visitDepthFirst_ok fuel : ∀ P name o,
  (unvisited o < fuel)%nat → below P name → order_ok P o →
  visited_ok P name o (visitDepthFirst js fuel name o).
Proof.
  induction fuel as [|fuel IH]; intros P name o Hf [[j Hj] Hbelow] Ho; [lia|].
  simpl. rewrite Hj. case_bool_decide as Hv.
  { exists o. split_and!; [done|done|done| |done]. intros Ha.
    destruct (oo_pending _ _ Ho name Hv Ha) as [?|HP]; [done|]. apply Hbelow in HP. lia. }
  destruct (Active j) eqn:Ea; simpl; cycle 1.
  { eexists. split; [done|]. destruct Ho as [H1 H2 H3 H4 H5]. split_and!.
    - split; simpl; [done| |intros k|done|done].
      + intros k Hk. destruct (H2 k Hk). set_solver.
      + intros [->%elem_of_singleton|Hk]%elem_of_union Hact; [|by apply H3].
        destruct Hact as (j' & Hj' & Ha'). congruence.
    - split; simpl; set_solver.
    - intros (j' & Hj' & Ha'). congruence.
    - simpl. set_solver. }
  set (o1 := {| alreadyVisited := _; orderedActivatedJoins := _ |}).
  assert (Hact : active js name) by by exists j.
  assert (Ho1 : order_ok (λ k, P k ∨ k = name) o1).
  { destruct Ho as [H1 H2 H3 H4 H5]. split; simpl; [done| |intros k|intros k Hk|done].
    - intros k Hk. destruct (H2 k Hk). set_solver.
    - intros [->%elem_of_singleton|Hk]%elem_of_union Ha; [by right; right|].
      destruct (H3 k Hk Ha); [by left|by right; left].
    - intros [HP| ->]; [by eapply H4|]. by destruct (H2 name Hk). }
  assert (Hu : (unvisited o1 < unvisited o)%nat).
  { unfold unvisited. apply subset_size. simpl. split; [set_solver|]. intros Hsub.
    assert (name ∈ dom js ∖ alreadyVisited o) as Hin.
    { apply elem_of_difference. split; [by apply elem_of_dom_2 in Hj|done]. }
    apply Hsub in Hin. set_solver. }
  destruct (visit_all_ok (λ k, P k ∨ k = name)
    (replace_err (Plain "failed to visit '%s' join")) (visitDepthFirst js fuel)
    (ActivateOtherJoins j) (unvisited o1) o1) as (o2 & -> & Ho2 & [He He'] & Hall);
    [done| |done|].
  { intros n o' Hn Ho' Hb. assert (Hreq : requires js name n) by by exists j.
    apply IH; [lia| |done]. split.
    - destruct (Hclosed name n Hact Hreq) as (j' & Hj' & _). by exists j'.
    - apply Hrank in Hreq. intros k [HP| ->]; [|done]. apply Hbelow in HP. lia. }
  eexists. split; [done|]. destruct Ho2 as [H1 H2 H3 H4 H5].
  assert (Hin : name ∈ alreadyVisited o2) by (apply He; simpl; set_solver). split_and!.
  - split; simpl.
    + apply NoDup_app. split_and!; [done| |apply NoDup_singleton].
      intros k Hk ->%list_elem_of_singleton. apply (H4 name Hk). by right.
    + intros k [Hk| ->%list_elem_of_singleton]%elem_of_app; [by apply H2|done].
    + intros k Hk Ha. rewrite elem_of_app, list_elem_of_singleton.
      destruct (H3 k Hk Ha) as [?|[?|?]]; naive_solver.
    + intros k [Hk| ->%list_elem_of_singleton]%elem_of_app HP;
        [apply (H4 k Hk); by left|]. apply Hbelow in HP. lia.
    + apply topological_snoc; [done|]. intros n (j' & Hj' & Hn). simplify_eq.
      apply (Hall n Hn). apply (Hclosed name); [done|by exists j].
  - split; simpl; [set_solver|]. intros k Hk. apply elem_of_app. left. by apply He'.
  - intros _. simpl. apply elem_of_app. right. by left.
  - done.
Qed.

Lemma visit_from_start ks :
  (∀ k, k ∈ ks → is_Some (js !! k)) →
  ∃ o, visit_all (wrapf "failed to visit '%s' join") (visitDepthFirst js (S (size js))) ks
         {| alreadyVisited := ∅; orderedActivatedJoins := [] |} = Some (Ok o) ∧
    NoDup (orderedActivatedJoins o) ∧ topological (orderedActivatedJoins o) ∧
    (∀ k, k ∈ orderedActivatedJoins o → active js k) ∧
    (∀ k, k ∈ ks → active js k → k ∈ orderedActivatedJoins o).
Proof.
  intros Hks. set (o0 := {| alreadyVisited := ∅; orderedActivatedJoins := [] |}).
  assert (Hu : (unvisited o0 ≤ size js)%nat).
  { unfold unvisited. simpl. rewrite difference_empty_L. by rewrite size_dom. }
  destruct (visit_all_ok (λ _, False) (wrapf "failed to visit '%s' join")
    (visitDepthFirst js (S (size js))) ks (size js) o0) as (o & -> & [H1 H2 H3 H4 H5] & _ & Hall);
    [done| | |].
  - intros n o Hn Ho Hb. apply visitDepthFirst_ok; [lia| |done]. split; [by apply Hks|done].
  - split; simpl; [constructor|set_solver..|].
    intros l1 k l2 Heq. by destruct l1.
  - exists o. split_and!; [done|done|done|intros k Hk; by apply H2|].
    intros k Hk. by apply Hall.
Qed.
End Topological.

Lemma GetOrderdActivatedJoins_ordered ks ks' js (rank : string → nat)
    (Hks : ∀ k, k ∈ ks ↔ is_Some (js !! k)) (Hks' : ks' ≡ₚ ks)
    (Hrank : ∀ k n, requires js k n → (rank n < rank k)%nat) (Hexist : ¬ dangling js) :
  ∃ out js', GetOrderdActivatedJoins ks ks' js = Ok (out, js') ∧ grows js js' ∧ NoDup out ∧
    (∀ k, k ∈ out ↔ ∃ k0, active js k0 ∧ rtc (requires js) k0 k) ∧
    (∀ l1 k l2, out = l1 ++ k :: l2 → ∀ n, requires js k n → n ∈ l1).
Proof.
  assert (Hcov : covers ks js) by (intros k Hk; by apply Hks).
  pose proof (ActivateRequiredJoins_closed ks js Hcov) as HA. unfold GetOrderdActivatedJoins.
  destruct (ActivateRequiredJoins ks js) as [js'|e|s]; [|done..].
  destruct HA as (HG & HC & Hact).
  destruct (visit_from_start js' HC rank) with (ks := ks') as (o & Ho & HN & HT & H1 & H2).
  - intros k n Hreq. apply Hrank. by apply (grows_requires js js').
  - intros k Hk. rewrite Hks' in Hk. apply Hks in Hk as [j Hj].
    destruct (HG k) as [E|E]; rewrite E, Hj; by eexists.
  - cbn [wrapf mbind res_bind]. rewrite Ho. exists (orderedActivatedJoins o), js'. split_and!; [done|done|done| |].
    + intros k. rewrite <- Hact. split; [apply H1|]. intros Hk. apply H2; [|done].
      rewrite Hks'. destruct Hk as (j & Hj & _). apply Hks.
      destruct (HG k) as [E|E]; rewrite Hj in E; [by eexists|]. destruct (js !! k); [by eexists|done].
    + intros l1 k l2 Heq n Hreq. eapply HT; [done|]. by apply (grows_requires js js').
Qed.

Lemma order_activated ks ks' js out js' :
  GetOrderdActivatedJoins ks ks' js = Ok (out, js') → covers ks js →
  ∀ k, active js' k ↔ ∃ k0, active js k0 ∧ rtc (requires js) k0 k.
Proof.
  intros H Hcov. pose proof (ActivateRequiredJoins_closed ks js Hcov) as HA.
  unfold GetOrderdActivatedJoins in H.
  destruct (ActivateRequiredJoins ks js) as [js1|e|s]; [|done..]. cbn [wrapf mbind res_bind] in H.
  destruct (visit_all _ _ _ _) as [[o|e|s]|]; simplify_eq/=. apply HA.
Qed.

(** Given joins that do not require one another in a circle and require only existing joins, the joins come out
    ordered whatever order the map is walked in: each active join exactly once, and after every join that
    it requires. *)
Theorem GetOrderdActivatedJoins_topological ks ks' js (rank : string → nat)
    (Hks : ∀ k, k ∈ ks ↔ is_Some (js !! k)) (Hks' : ks' ≡ₚ ks)
    (Hrank : ∀ k n, requires js k n → (rank n < rank k)%nat) (Hexist : ¬ dangling js) :
  ∃ out js', GetOrderdActivatedJoins ks ks' js = Ok (out, js') ∧ grows js js' ∧ NoDup out ∧
    (∀ k, k ∈ out ↔ ∃ k0, active js k0 ∧ rtc (requires js) k0 k) ∧
    (∀ l1 k l2, out = l1 ++ k :: l2 → ∀ n, requires js k n → n ∈ l1).
Proof. by apply (GetOrderdActivatedJoins_ordered ks ks' js rank). Qed.

(** ActivateRequiredJoins ends whatever the joins require of each other; it fails only if some join requires
    one that does not exist, and otherwise the active joins are exactly those reached from a join that was
    active before, so that each has all it requires. *)
Theorem ActivateRequiredJoins_closure ks js (Hcov : covers ks js) :
  match ActivateRequiredJoins ks js with
  | Ok js' => grows js js' ∧ closed js' ∧
      ∀ k, active js' k ↔ ∃ k0, active js k0 ∧ rtc (requires js) k0 k
  | Err _ => dangling js
  | Panic _ => False
  end.
Proof. by apply ActivateRequiredJoins_closed. Qed.
