(* ===== verification/ExpressionCompiler.v ===== *)
(** * Compiling criteria to SQL

    [workitem/expression_compiler.go] on the expressions of [criteria/]: the
    where clause, its parameters, the joins it needs and the errors. *)

From Stdlib Require Import ZArith Lia Ascii String.
From S2P Require Export Values TableJoin.

(** ** Expressions

    The tree the constructors of [criteria/] build. *)

Inductive literal :=
  | LFloat64 (f : float64) | LInt (z : Z) | LInt64 (z : Z) | LUint (z : Z) | LUint64 (z : Z)
  | LString (s : string) | LBool (b : bool) | LUUID (u : uuid) | LStrings (l : list string) | LUUIDs (l : list uuid)
  | LOther.                                     (* any other dynamic type, nil included *)
Inductive Expression :=
  | Field (FieldName : string)
  | And (left right : Expression)
  | Or (left right : Expression)
  | Equals (left right : Expression)
  | Substring (left right : Expression)
  | ParameterExp
  | Literal (Value : literal)
  | Not (left right : Expression)
  | Child (left right : Expression)
  | IsNull (FieldName : string).

(** [^] stands for the double quote in the texts below. *)
Definition quoted (s : string) : string := replace_char "^" (ascii_of_nat 34) s.

(** ** The default joins *)

Definition work_items : string := "work_items".
Definition SystemIteration : string := "system.iteration".
Definition SystemArea : string := "system.area".
Definition SystemCodebase : string := "system.codebase".
Definition SystemCreator : string := "system.creator".
Definition SystemBoardcolumns : string := "system.boardcolumns".
Definition SystemRemoteTrackerID : string := "system_remote_tracker_id".

Definition JoinOnJSONField (jsonField foreignCol : string) : string :=
  Column work_items "fields" +:+ quoted " @> concat('{^" +:+ jsonField +:+ quoted "^: ^', "
  +:+ foreignCol +:+ quoted ", '^}')::jsonb".

Definition join (table alias on where_ : string) (prefixes allowed others : list string)
    (delegate : list (string * option string)) : TableJoin :=
  {| Active := false; TableName := table; TableAlias := alias; On := on; Where := where_;
     PrefixActivators := prefixes; AllowedColumns := allowed; DisallowedColumns := [];
     HandledFields := []; ActivateOtherJoins := others; DelegateTo := delegate |}.
Definition same_space (alias : string) : string :=
  Column alias "space_id" +:+ "=" +:+ Column work_items "space_id".

Definition DefaultTableJoins : TableJoinMap := list_to_map [
  ("iteration", join "iterations" "iter"
     (JoinOnJSONField SystemIteration "iter.id" +:+ " AND " +:+ same_space "iter") ""
     ["iteration."] ["name"; "created_at"; "number"] [] []);
  ("area", join "areas" "ar"
     (JoinOnJSONField SystemArea "ar.id" +:+ " AND " +:+ same_space "ar") ""
     ["area."] ["name"; "number"] [] []);
  ("codebase", join "codebases" "cb"
     (JoinOnJSONField SystemCodebase "cb.id" +:+ " AND " +:+ same_space "cb") ""
     ["codebase."] ["url"] [] []);
  ("work_item_type", join "work_item_types" "wit"
     ("wit.id = " +:+ work_items +:+ ".type") ""
     ["wit."; "workitemtype."; "work_item_type."; "type."] ["name"] [] []);
  ("creator", join "users" "creator" (JoinOnJSONField SystemCreator "creator.id") ""
     ["creator."; "author."] ["full_name"] [] []);
  ("space", join "spaces" "space"
     (Column "space" "id" +:+ "=" +:+ Column work_items "space_id") ""
     ["space."] ["name"] [] []);
  ("boardcolumns", join
     "(SELECT id colid, board_id id, jsonb_agg(id::text) AS colids FROM work_item_board_columns GROUP BY 1,2)"
     "boardcolumns"
     (Column "boardcolumns" "colid" +:+ "::text IN (
				SELECT jsonb_array_elements_text(jsonb_strip_nulls(" +:+ Column work_items "fields"
      +:+ ")->'" +:+ SystemBoardcolumns +:+ "')
			)") ""
     ["board."] ["id"] [] []);
  ("typegroup", join "work_item_type_groups" "witg"
     (Column "witg" "space_template_id" +:+ "=" +:+ Column "space" "space_template_id")
     (Column "witg_members" "type_group_id" +:+ "=" +:+ Column "witg" "id" +:+ " AND "
      +:+ Column work_items "type" +:+ "=" +:+ Column "witg_members" "work_item_type_id")
     [] ["name"] ["space"] []);
  ("label", join "labels" "lbl"
     (same_space "lbl" +:+ "
		                    AND lbl.id::text IN (
		                        SELECT
						jsonb_array_elements_text(" +:+ Column work_items "fields" +:+ "->'system.labels')
					FROM labels)") ""
     ["label."] ["name"] [] []);
  ("trackerquery", join "tracker_queries" "tq"
     (JoinOnJSONField SystemRemoteTrackerID "tq.id" +:+ " AND " +:+ same_space "tq") ""
     ["trackerquery."] ["id"] [] []);
  ("typegroup_members", join "work_item_type_group_members" "witg_members"
     (Column "witg_members" "type_group_id" +:+ "=" +:+ Column "witg" "id") ""
     ["typegroup_members."; "typegroup."] ["work_item_type_id"] ["typegroup"]
     [("typegroup.", Some "typegroup")]);
  ("parent_link", join "work_item_links" "parent_link"
     (Column "parent_link" "link_type_id" +:+ "= '25C326A7-6D03-4F5A-B23B-86A9EE4171E9' AND "
      +:+ Column "parent_link" "target_id" +:+ "=" +:+ Column work_items "id") ""
     [] [] [] []);
  ("parent", join work_items "parent"
     (Column "parent_link" "source_id" +:+ "=" +:+ Column "parent" "id") ""
     ["parent."] ["id"; "number"] ["parent_link"] [])
].

(** ** Field names *)

Definition fieldMap (fieldName : string) : option string :=
  if String.eqb fieldName "ID" then Some "id"
  else if String.eqb fieldName "Type" then Some "type"
  else if String.eqb fieldName "Version" then Some "version"
  else if String.eqb fieldName "Number" then Some "number"
  else if String.eqb fieldName "SpaceID" then Some "space_id"
  else None.

(** The first join of the range that handles the name. *)
Definition handler (ks : list string) (js : TableJoinMap) (fieldName : string) : option string :=
  List.find (λ k, match js !! k with
                  | Some j => HandlesFieldName j fieldName | None => false end) ks.

Definition getFieldName (ks : list string) (js : TableJoinMap) (fieldName : string)
    : string * bool :=
  match handler ks js fieldName with
  | Some _ => (fieldName, false)
  | None =>
      match fieldMap fieldName with
      | Some mapped => (Column work_items mapped, false)
      | None =>
          if Contains fieldName "." || Contains fieldName "_" then (fieldName, true)
          else (Column work_items fieldName, false)
      end
  end.

(** ** The JSON annotation

    [bubbleUpJSONContext], run in post order: whether a node carries the
    annotation once the walk is over. *)
Fixpoint annotated (ks : list string) (js : TableJoinMap) (e : Expression) : bool :=
  match e with
  | Field f => (getFieldName ks js f).2
  | Equals l r | Substring l r | Not l r => annotated ks js l || annotated ks js r
  | And _ _ | Or _ _ | Child _ _ | ParameterExp | Literal _ | IsNull _ => false
  end.

(** ** The visitor *)

Record compiler := {
  parameters : list literal;
  err : list error;
  joins : TableJoinMap;
}.
Definition add_parameter (p : literal) (c : compiler) : compiler :=
  {| parameters := parameters c ++ [p]; err := err c; joins := joins c |}.
Definition add_err (e : error) (c : compiler) : compiler :=
  {| parameters := parameters c; err := err c ++ [e]; joins := joins c |}.
Definition set_joins (js : TableJoinMap) (c : compiler) : compiler :=
  {| parameters := parameters c; err := err c; joins := js |}.
Definition newExpressionCompiler : compiler :=
  {| parameters := []; err := []; joins := DefaultTableJoins |}.

Section Compile.
Context (FormatShortest : float64 → string).    (* strconv.FormatFloat(f, 'f', -1, 64) *)
Context {HO : UuidOps}.
Context (ks : list string).                     (* the order of [range c.joins] *)

Definition FormatBool (b : bool) : string := if b then "true" else "false".
Definition convertToString (value : literal) : res string :=
  match value with
  | LFloat64 f => Ok (FormatShortest f)
  | LInt z | LInt64 z | LUint z | LUint64 z => Ok (Itoa z)
  | LString s => Ok (dquote +:+ s +:+ dquote)
  | LBool b => Ok (FormatBool b)
  | LUUID u => Ok (uuid_String u)
  | LStrings _ | LUUIDs _ | LOther => Err (Plain "unknown value type '%T': %+v")
  end.
Definition wrapStrings (value : list string) : string :=
  Join (map (λ v, dquote +:+ v +:+ dquote) value) ",".

(** The result of a visit: [None] is nil. *)
Notation visit := (compiler → option string * compiler).

Definition visit_Field (fieldName : string) : visit := λ c,
  if Contains fieldName dquote
  then (None, add_err (Plain "field name must not contain double quotes: %s") c)
  else if Contains fieldName "'"
  then (None, add_err (Plain "field name must not contain single quotes: %s") c)
  else
    let '(mappedFieldName, isJSONField) := getFieldName ks (joins c) fieldName in
    match handler ks (joins c) mappedFieldName with
    | Some k =>
        let c := set_joins (set_active k (joins c)) c in
        let '(col, js) := TranslateFieldName k mappedFieldName (joins c) in
        let c := set_joins js c in
        match col with
        | Ok col => (Some col, c)
        | Err e => (Some "", add_err (Wrapped "failed to translate field '%s'" e) c)
        | Panic s => (Some "", add_err (Plain s) c)
        end
    | None =>
        if negb isJSONField then (Some mappedFieldName, c)
        else if Contains mappedFieldName "'"
        then (None, add_err (Plain "single quote not allowed in field name: %s") c)
        else (Some (Column work_items "fields" +:+ quoted " @> '{^" +:+ mappedFieldName +:+ dquote), c)
    end.

Definition visit_Literal (inJSON : bool) (value : literal) : visit := λ c,
  if inJSON
  then match convertToString value with
       | Ok stringVal => (Some (stringVal +:+ "}'"), c)
       | Err e =>
           match value with
           | LStrings stringArr => (Some ("[" +:+ wrapStrings stringArr +:+ "]}'"), c)
           | _ => (None, add_err e c)
           end
       | Panic _ => (None, c)
       end
  else (Some "?", add_parameter value c).

Definition visit_binary (op : string) (left right : visit) : visit := λ c,
  let '(l, c) := left c in
  let '(r, c) := right c in
  match l, r with
  | Some l, Some r => (Some ("(" +:+ l +:+ " " +:+ op +:+ " " +:+ r +:+ ")"), c)
  | _, _ => (None, c)
  end.

(** [expressionRefersToJoinedData] activates the join it finds. *)
Definition expressionRefersToJoinedData (e : Expression) (c : compiler)
    : option string * compiler :=
  match e with
  | Field f =>
      match handler ks (joins c) f with
      | Some k => (Some k, set_joins (set_active k (joins c)) c)
      | None => (None, c)
      end
  | _ => (None, c)
  end.

Definition visit_IsNull (fieldName : string) : visit := λ c,
  let '(mappedFieldName, isJSONField) := getFieldName ks (joins c) fieldName in
  if isJSONField
  then (Some ("(" +:+ Column work_items "fields" +:+ "->>'" +:+ mappedFieldName +:+ "' IS NULL)"), c)
  else (Some ("(" +:+ mappedFieldName +:+ " IS NULL)"), c).

(** The part of [Substring] that does not fall back to [binary]. *)
Definition visit_Substring_field (inJSONContext : bool) (joined : option string)
    (left right : Expression) : visit := λ c,
  match left with
  | Field f =>
      if Contains f "'"
      then (None, add_err (Plain "single quote not allowed in field name: %s") c)
      else
        match right with
        | Literal (LString r) =>
            if inJSONContext
            then (Some (Column work_items "fields" +:+ "->>'" +:+ f +:+ "' ILIKE ?"),
                  add_parameter (LString ("%" +:+ r +:+ "%")) c)
            else
              match joined with
              | Some k =>
                  let '(col, js) := TranslateFieldName k f (joins c) in
                  let c := set_joins js c in
                  match col with
                  | Ok col => (Some col, c)
                  | Err e => (None, add_err (Wrapped "failed to translate field name: '%s'" e) c)
                  | Panic s => (None, add_err (Plain s) c)
                  end
              | None => (None, c)
              end
        | Literal _ =>
            (None, add_err (Plain "failed to convert value of right literal expression to string: %+v") c)
        | _ => (None, add_err (Plain "failed to convert right expression to literal expression: %+v") c)
        end
  | _ => (None, add_err (Plain "invalid left expression (not a field expression): %+v") c)
  end.

Definition child_clause (fieldName tblAlias tblName : string) : string :=
  quoted "(uuid(^work_items^.fields->>'" +:+ fieldName +:+ "') IN (
				SELECT " +:+ tblAlias +:+ ".id
					WHERE
						(SELECT j.path
							FROM " +:+ tblName +:+ quoted " j
							WHERE j.space_id = ^work_items^.^space_id^ AND j.id = ? 
						) @> " +:+ tblAlias +:+ ".path
							  ))".
Definition visit_Child (left right : Expression) : visit := λ c,
  match left with
  | Field f =>
      if Contains f "'"
      then (None, add_err (Plain "single quote not allowed in field name: %s") c)
      else
        match right with
        | Literal (LString r) =>
            if Contains r "'"
            then (None, add_err (Plain "single quote not allowed in field value: %s") c)
            else if String.eqb f SystemIteration
            then (Some (child_clause f "iter" "iterations"),
                  add_parameter (LString r) (set_joins (set_active "iteration" (joins c)) c))
            else if String.eqb f SystemArea
            then (Some (child_clause f "ar" "areas"),
                  add_parameter (LString r) (set_joins (set_active "area" (joins c)) c))
            else (None, add_err (Plain "invalid field name for child expression: %+v") c)
        | Literal _ =>
            (None, add_err (Plain "failed to convert value of right literal expression to string: %+v") c)
        | _ => (None, add_err (Plain "failed to convert right expression to literal expression: %+v") c)
        end
  | _ => (None, add_err (Plain "invalid left expression (not a field expression): %+v") c)
  end.

(** [inJSON]: a proper ancestor carries the annotation, which is what
    [isInJSONContext] finds on the parent chain. *)
Fixpoint accept (inJSON : bool) (e : Expression) : visit := λ c,
  let below := inJSON || annotated ks DefaultTableJoins e in
  match e with
  | Field f => visit_Field f c
  | And l r => visit_binary "AND" (accept below l) (accept below r) c
  | Or l r => visit_binary "OR" (accept below l) (accept below r) c
  | Equals l r =>
      let '(joined, c) := expressionRefersToJoinedData l c in
      let op := if joined then "=" else if below then ":" else "=" in
      visit_binary op (accept below l) (accept below r) c
  | Substring l r =>
      let '(joined, c) := expressionRefersToJoinedData l c in
      if below || (if joined then true else false)
      then visit_Substring_field below joined l r c
      else visit_binary "ILIKE" (accept below l) (accept below r) c
  | ParameterExp => (None, add_err (Plain "parameter expression not supported") c)
  | Literal v => visit_Literal inJSON v c
  | Not l r =>
      if below
      then let '(cond, c) := visit_binary ":" (accept below l) (accept below r) c in
           (String.append "NOT " <$> cond, c)
      else visit_binary "!=" (accept below l) (accept below r) c
  | Child l r => visit_Child l r c
  | IsNull f => visit_IsNull f c
  end.

(** Appends the conditions the joins bring along. *)
Definition add_wheres (js : TableJoinMap) (ordered : list string) (c : string) : string :=
  fold_left (λ c k, match js !! k with
                    | Some j => if String.eqb (Where j) "" then c
                                else (if String.eqb c "" then c else c +:+ " AND ") +:+ Where j
                    | None => c
                    end) ordered c.

Record compiled := {
  whereClause : string;
  bound : list literal;
  joined : list TableJoin;
  errors : list error;
}.
(** [ks'], [ks'']: the orders of the ranges of the activation and of the visit. *)
Definition Compile (ks' ks'' : list string) (where_ : Expression) : compiled :=
  let '(c, s) := accept false where_ newExpressionCompiler in
  let c := default "" c in
  match GetOrderdActivatedJoins ks' ks'' (joins s) with
  | Ok (ordered, js) =>
      {| whereClause := add_wheres js ordered c; bound := parameters s;
         joined := omap (λ k, js !! k) ordered; errors := err s |}
  | Err e => {| whereClause := c; bound := parameters s; joined := []; errors := err s ++ [e] |}
  | Panic m => {| whereClause := c; bound := parameters s; joined := []; errors := err s ++ [Plain m] |}
  end.

End Compile.
