(* ===== verification/CompilerFacts.v ===== *)
(** * What the compiled query is

    The result of [Compile] does not depend on the order of map ranges, binds
    as many parameters as it has placeholders and joins every table it
    mentions; what it does with literal values and null checks is stated as
    it is. *)

From Stdlib Require Import ZArith Lia Ascii String.
From stdpp Require Import relations.
From S2P Require Export ExpressionCompiler.

(** ** Prefixes *)

Lemma prefix_comparable p q l :
  is_prefix p l = true → is_prefix q l = true → is_prefix p q = true ∨ is_prefix q p = true.
Proof.
  revert q l. induction p as [|a p IH]; intros [|b q] [|c l]; simpl; auto; try done.
  rewrite !andb_true_iff, !bool_decide_eq_true. intros [-> Hp] [-> Hq].
  destruct (IH q l Hp Hq); auto.
Qed.

(** What no operation on a join changes. *)
Definition static (j : TableJoin) :=
  (TableName j, TableAlias j, On j, Where j, PrefixActivators j, AllowedColumns j,
   DisallowedColumns j, ActivateOtherJoins j, DelegateTo j).
Definition like (js : TableJoinMap) : Prop := static <$> js = static <$> DefaultTableJoins.

Lemma like_lookup js k :
  like js → static <$> js !! k = static <$> DefaultTableJoins !! k.
Proof. intros H. by rewrite <- !lookup_fmap, H. Qed.
Lemma like_Some js k j :
  like js → js !! k = Some j → ∃ j0, DefaultTableJoins !! k = Some j0 ∧ static j0 = static j.
Proof.
  intros H Hj. apply (like_lookup js k) in H. rewrite Hj in H.
  destruct (DefaultTableJoins !! k) as [j0|]; [|done]. apply (inj Some) in H. by exists j0.
Qed.
Lemma static_handles j j0 f : static j0 = static j → HandlesFieldName j f = HandlesFieldName j0 f.
Proof. unfold static, HandlesFieldName. intros [=]. congruence. Qed.
Lemma like_alter f k js : (∀ j, static (f j) = static j) → like js → like (alter f k js).
Proof.
  unfold like. intros Hf <-. apply map_eq. intros k'. rewrite !lookup_fmap.
  destruct (decide (k = k')) as [<-|]; [rewrite lookup_alter_eq|by rewrite lookup_alter_ne].
  destruct (js !! k); simpl; [by rewrite Hf|done].
Qed.
Lemma like_set_active k js : like js → like (set_active k js).
Proof. by apply like_alter. Qed.

Definition handled (js : TableJoinMap) (k f : string) : Prop :=
  ∃ j, js !! k = Some j ∧ HandlesFieldName j f = true.
Lemma handled_like js k f : like js → handled js k f ↔ handled DefaultTableJoins k f.
Proof.
  intros H. pose proof (like_lookup js k H) as HL. unfold handled.
  destruct (js !! k) as [j|], (DefaultTableJoins !! k) as [j0|]; simpl in HL; [|done..|naive_solver].
  apply (inj Some) in HL. split; intros (? & [= <-] & HH); eexists; split; eauto;
    [rewrite <- (static_handles j j0)|rewrite (static_handles j j0)]; congruence.
Qed.

(** Every pair of comparable prefixes of the default joins belongs to one join. *)
Definition default_prefixes : list (string * string) :=
  List.concat (map (λ p, map (pair p.1) (PrefixActivators p.2)) (map_to_list DefaultTableJoins)).
Definition apart (p q : string * string) : bool :=
  String.eqb p.1 q.1 || negb (is_prefix (chars p.2) (chars q.2)).
Lemma default_prefixes_apart :
  forallb (λ p, forallb (apart p) default_prefixes) default_prefixes = true.
Proof. vm_compute. reflexivity. Qed.
#[local] Opaque DefaultTableJoins.
Lemma elem_of_default_prefixes k j p :
  DefaultTableJoins !! k = Some j → p ∈ PrefixActivators j → (k, p) ∈ default_prefixes.
Proof.
  intros Hk Hp. unfold default_prefixes. rewrite list_elem_of_In, in_concat.
  exists (map (pair k) (PrefixActivators j)). split.
  - rewrite in_map_iff. exists (k, j). split; [done|].
    by rewrite <- list_elem_of_In, elem_of_map_to_list.
  - rewrite in_map_iff. exists p. split; [done|]. by rewrite <- list_elem_of_In.
Qed.

#[local] Opaque default_prefixes.

(** No field name is handled by two of the default joins. *)
Lemma handled_eq f k1 k2 :
  handled DefaultTableJoins k1 f → handled DefaultTableJoins k2 f → k1 = k2.
Proof.
  intros (j1 & Hj1 & H1) (j2 & Hj2 & H2). unfold HandlesFieldName in H1, H2.
  apply existsb_exists in H1 as (p1 & Hp1 & Hf1), H2 as (p2 & Hp2 & Hf2).
  apply list_elem_of_In in Hp1, Hp2.
  apply (elem_of_default_prefixes _ _ _ Hj1) in Hp1. apply (elem_of_default_prefixes _ _ _ Hj2) in Hp2.
  pose proof default_prefixes_apart as HA. rewrite forallb_forall in HA.
  assert (HB : ∀ p q, p ∈ default_prefixes → q ∈ default_prefixes → apart p q = true).
  { intros p q Hp%list_elem_of_In Hq%list_elem_of_In. apply HA in Hp.
    rewrite forallb_forall in Hp. by apply Hp. }
  pose proof (HB _ _ Hp1 Hp2) as H12. pose proof (HB _ _ Hp2 Hp1) as H21.
  unfold apart in H12, H21. simpl in *.
  destruct (String.eqb_spec k1 k2) as [|Hne]; [done|].
  destruct (String.eqb_spec k2 k1) as [|_]; [congruence|]. simpl in *.
  unfold HasPrefix in Hf1, Hf2.
  destruct (prefix_comparable _ _ _ Hf1 Hf2) as [E|E]; rewrite E in *; done.
Qed.

(** ** Ranges in any order *)

Definition all_keys (ks : list string) : Prop := ∀ k, k ∈ ks ↔ is_Some (DefaultTableJoins !! k).

Lemma handler_Some ks js f k : handler ks js f = Some k → k ∈ ks ∧ handled js k f.
Proof.
  unfold handler. intros [Hin H]%find_some. split; [by apply list_elem_of_In|].
  destruct (js !! k) as [j|] eqn:E; [by exists j|done].
Qed.
Lemma handler_None ks js f k : handler ks js f = None → k ∈ ks → ¬ handled js k f.
Proof.
  unfold handler. intros H Hk (j & Hj & HH). apply list_elem_of_In in Hk.
  pose proof (find_none _ _ H _ Hk) as E. simpl in E. rewrite Hj in E. congruence.
Qed.
Lemma handler_spec ks js f k :
  all_keys ks → like js → handler ks js f = Some k ↔ handled DefaultTableJoins k f.
Proof.
  intros Hks Hjs. split.
  - intros [_ H]%handler_Some. by apply (handled_like js).
  - intros Hk. destruct (handler ks js f) as [k'|] eqn:E.
    + apply handler_Some in E as [_ H]. apply (handled_like js) in H; [|done].
      f_equal. symmetry. by apply (handled_eq f).
    + exfalso. apply (handler_None _ _ _ k E); [apply Hks; destruct Hk as (j & -> & _); by eexists|].
      by apply handled_like.
Qed.

Lemma handler_any_order ks ks' js f :
  all_keys ks → all_keys ks' → like js → handler ks js f = handler ks' js f.
Proof.
  intros Hks Hks' Hjs. apply option_eq. intros k.
  by rewrite !handler_spec.
Qed.
Lemma handler_like ks js js' f : like js → like js' → handler ks js f = handler ks js' f.
Proof.
  intros H H'. unfold handler. induction ks as [|k ks IH]; [done|]. simpl. rewrite IH.
  pose proof (handled_like js k f H) as E1. pose proof (handled_like js' k f H') as E2.
  unfold handled in *. pose proof (like_lookup js k H) as L1. pose proof (like_lookup js' k H') as L2.
  destruct (js !! k) as [j|], (js' !! k) as [j'|], (DefaultTableJoins !! k) as [j0|]; try done.
  apply (inj Some) in L1, L2.
  by rewrite (static_handles j j0), (static_handles j' j0).
Qed.
Lemma getFieldName_any_order ks ks' js js' f :
  all_keys ks → all_keys ks' → like js → like js' →
  getFieldName ks js f = getFieldName ks' js' f.
Proof.
  intros. unfold getFieldName.
  by rewrite (handler_any_order ks ks' js f), (handler_like ks' js js' f).
Qed.
Lemma annotated_any_order ks ks' e :
  all_keys ks → all_keys ks' →
  annotated ks DefaultTableJoins e = annotated ks' DefaultTableJoins e.
Proof.
  intros H H'. induction e; simpl; try done; try by f_equal.
  by rewrite (getFieldName_any_order ks ks' DefaultTableJoins DefaultTableJoins).
Qed.

(** ** What every visit keeps *)

Record advances (c c' : compiler) : Prop := {
  adv_like : like (joins c) → like (joins c');
  adv_active : ∀ k, active (joins c) k → active (joins c') k;
  adv_err : ∃ l, err c' = err c ++ l;
  adv_parameters : ∃ l, parameters c' = parameters c ++ l;
}.
Lemma advances_refl c : advances c c.
Proof. split; [done|done|exists []; by rewrite app_nil_r..]. Qed.
Lemma advances_trans c1 c2 c3 : advances c1 c2 → advances c2 c3 → advances c1 c3.
Proof.
  intros [L1 A1 [e1 E1] [p1 P1]] [L2 A2 [e2 E2] [p2 P2]]. split; [auto|auto|..].
  - exists (e1 ++ e2). by rewrite E2, E1, app_assoc.
  - exists (p1 ++ p2). by rewrite P2, P1, app_assoc.
Qed.
Lemma advances_add_err e c : advances c (add_err e c).
Proof. split; simpl; [done|done|by eexists|exists []; by rewrite app_nil_r]. Qed.
Lemma advances_add_parameter p c : advances c (add_parameter p c).
Proof. split; simpl; [done|done|exists []; by rewrite app_nil_r|by eexists]. Qed.
Lemma advances_set_joins js c :
  (like (joins c) → like js) → (∀ k, active (joins c) k → active js k) → advances c (set_joins js c).
Proof. intros H1 H2. split; simpl; [done|done|exists []; by rewrite app_nil_r..]. Qed.
Lemma active_alter f k js k' :
  (∀ j, Active j = true → Active (f j) = true) → active js k' → active (alter f k js) k'.
Proof.
  intros Hf (j & Hj & Ha). destruct (decide (k = k')) as [<-|].
  - exists (f j). rewrite lookup_alter_eq, Hj. auto.
  - exists j. by rewrite lookup_alter_ne.
Qed.
Lemma advances_set_active k c : advances c (set_joins (set_active k (joins c)) c).
Proof. apply advances_set_joins; [apply like_set_active|]. intros k'. by apply active_alter. Qed.

Lemma TranslateFieldName_keeps k f js :
  (like js → like (TranslateFieldName k f js).2) ∧
  (∀ k', active js k' → active (TranslateFieldName k f js).2 k').
Proof.
  unfold TranslateFieldName. destruct (js !! k) as [j|]; [|done].
  destruct (HandlesFieldName j f); simpl; [|done].
  assert (HA : ∀ k js, (like js → like (set_active k js)) ∧
    (∀ k', active js k' → active (set_active k js) k')).
  { intros k' js'. split; [apply like_set_active|]. intros k''. by apply active_alter. }
  destruct (column_of j f); simpl; [|apply HA..].
  destruct (delegate_of k j f) as [d| |]; simpl; [|apply HA..].
  destruct (_ !! d) as [dj|]; simpl; [destruct (column_is_allowed dj a); simpl|].
  2, 3: split; [intros H; by apply HA, HA|intros k' H; by apply HA, HA].
  split; [intros H; apply like_alter; [done|by apply HA, HA]|].
  intros k' H. apply active_alter; [done|by apply HA, HA].
Qed.
Lemma advances_translate k f c : advances c (set_joins (TranslateFieldName k f (joins c)).2 c).
Proof. apply advances_set_joins; apply TranslateFieldName_keeps. Qed.
#[local] Hint Resolve advances_refl advances_add_err advances_add_parameter advances_set_active
  advances_translate : core.

Section Visits.
Context (FormatShortest : float64 → string) {HO : UuidOps}.

Lemma advances_Field ks f c : advances c (visit_Field ks f c).2.
Proof.
  unfold visit_Field. destruct (Contains f dquote); [by simpl|].
  destruct (Contains f "'"); [by simpl|]. destruct (getFieldName _ _ _) as [m b].
  destruct (handler ks (joins c) m) as [k|].
  - eapply advances_trans; [apply (advances_set_active k)|].
    pose proof (advances_translate k m (set_joins (set_active k (joins c)) c)) as H. simpl in *.
    destruct (TranslateFieldName _ _ _) as [[| |] js]; simpl in *; [done|..];
      (eapply advances_trans; [exact H|apply advances_add_err]).
  - destruct b; simpl; [|done]. destruct (Contains m "'"); simpl; done.
Qed.
Lemma advances_Literal b v c : advances c (visit_Literal FormatShortest b v c).2.
Proof.
  unfold visit_Literal. destruct b; simpl; [|done]. destruct (convertToString _ v); simpl; [done| |done].
  destruct v; simpl; done.
Qed.
Lemma advances_binary op l r c :
  (∀ c, advances c (l c).2) → (∀ c, advances c (r c).2) → advances c (visit_binary op l r c).2.
Proof.
  intros Hl Hr. unfold visit_binary. specialize (Hl c). destruct (l c) as [ol c1]; simpl in Hl.
  specialize (Hr c1). destruct (r c1) as [or c2]; simpl in Hr.
  destruct ol, or; simpl; by eapply advances_trans.
Qed.
Lemma advances_refers ks e c : advances c (expressionRefersToJoinedData ks e c).2.
Proof. destruct e; simpl; try done. destruct (handler _ _ _); simpl; done. Qed.
Lemma advances_Substring_field b j l r c : advances c (visit_Substring_field b j l r c).2.
Proof.
  unfold visit_Substring_field. destruct l; simpl; try done.
  destruct (Contains _ _); simpl; [done|].
  destruct r; simpl; try done. destruct Value; simpl; try done. destruct b; simpl; [done|].
  destruct j as [k|]; simpl; [|done].
  pose proof (advances_translate k FieldName c) as H.
  destruct (TranslateFieldName _ _ _) as [[| |] js]; simpl in *; [done|..];
    (eapply advances_trans; [exact H|apply advances_add_err]).
Qed.
Lemma advances_Child l r c : advances c (visit_Child l r c).2.
Proof.
  unfold visit_Child. destruct l; simpl; try done. destruct (Contains _ _); simpl; [done|].
  destruct r; simpl; try done. destruct Value; simpl; try done. destruct (Contains _ _); simpl; [done|].
  destruct (String.eqb _ _); simpl; [|destruct (String.eqb _ _); simpl; [|done]];
    (eapply advances_trans; [apply advances_set_active|apply advances_add_parameter]).
Qed.
Lemma advances_accept ks e : ∀ b c, advances c (accept FormatShortest ks b e c).2.
Proof.
  induction e; intros b c; simpl.
  - apply advances_Field.
  - by apply advances_binary.
  - by apply advances_binary.
  - pose proof (advances_refers ks e1 c) as H. destruct (expressionRefersToJoinedData ks e1 c).
    eapply advances_trans; [exact H|]. by apply advances_binary.
  - pose proof (advances_refers ks e1 c) as H. destruct (expressionRefersToJoinedData ks e1 c).
    eapply advances_trans; [exact H|]. case_match; [apply advances_Substring_field|by apply advances_binary].
  - done.
  - apply advances_Literal.
  - case_match; [|by apply advances_binary].
    match goal with |- context [visit_binary ":" ?l ?r c] =>
      pose proof (advances_binary ":" l r c (IHe1 _) (IHe2 _)) as HB;
      destruct (visit_binary ":" l r c) as [o c'] end. exact HB.
  - apply advances_Child.
  - unfold visit_IsNull. destruct (getFieldName _ _ _) as [m j]. destruct j; simpl; done.
Qed.
Lemma accept_like ks b e c : like (joins c) → like (joins (accept FormatShortest ks b e c).2).
Proof. apply advances_accept. Qed.

(** ** The visit in any order *)

Lemma accept_any_order ks ks' (H : all_keys ks) (H' : all_keys ks') e :
  ∀ b c, like (joins c) → accept FormatShortest ks b e c = accept FormatShortest ks' b e c.
Proof.
  assert (HR : ∀ e c, like (joins c) →
    expressionRefersToJoinedData ks e c = expressionRefersToJoinedData ks' e c).
  { intros e0 c Hc. destruct e0; simpl; try done. by rewrite (handler_any_order ks ks'). }
  assert (HB : ∀ op (l l' r r' : compiler → option string * compiler) c,
    like (joins c) → (∀ c, like (joins c) → l c = l' c) → (∀ c, like (joins c) → r c = r' c) →
    advances c (l' c).2 → visit_binary op l r c = visit_binary op l' r' c).
  { intros op l l' r r' c Hc Hl Hr Hadv. unfold visit_binary. rewrite Hl by done.
    destruct (l' c) as [o c1]. rewrite Hr; [done|]. by apply Hadv. }
  induction e; intros b c Hc; cbn [accept];
    rewrite ?(annotated_any_order ks ks' _ H H'); try done.
  - unfold visit_Field.
    rewrite (getFieldName_any_order ks ks' (joins c) (joins c)) by done.
    destruct (getFieldName _ _ _) as [m j]. by rewrite (handler_any_order ks ks').
  - apply HB; auto using advances_accept.
  - apply HB; auto using advances_accept.
  - rewrite HR by done. pose proof (advances_refers ks' e1 c) as HA.
    destruct (expressionRefersToJoinedData ks' e1 c) as [o c1]. destruct HA as [HA _ _ _].
    apply HB; auto using advances_accept.
  - rewrite HR by done. pose proof (advances_refers ks' e1 c) as HA.
    destruct (expressionRefersToJoinedData ks' e1 c) as [o c1]. destruct HA as [HA _ _ _].
    case_match; [done|]. apply HB; auto using advances_accept.
  - case_match; [|apply HB; auto using advances_accept].
    rewrite (HB ":" _ (accept FormatShortest ks' true e1) _ (accept FormatShortest ks' true e2));
      auto using advances_accept.
  - unfold visit_IsNull. by rewrite (getFieldName_any_order ks ks' (joins c) (joins c)).
Qed.
End Visits.

(** ** The default joins can be ordered *)

Definition rank (k : string) : nat :=
  if String.eqb k "typegroup_members" then 2
  else if String.eqb k "typegroup" then 1
  else if String.eqb k "parent" then 1 else 0.
Definition well_ordered (js : TableJoinMap) : bool :=
  forallb (λ p, forallb (λ n, Nat.ltb (rank n) (rank p.1) && bool_decide (is_Some (js !! n)))
                        (ActivateOtherJoins p.2)) (map_to_list js).
Definition wheres (js : TableJoinMap) : bool :=
  forallb (λ p, String.eqb p.1 "typegroup" || String.eqb (Where p.2) "") (map_to_list js).
#[local] Transparent DefaultTableJoins.
Lemma default_well_ordered : well_ordered DefaultTableJoins = true.
Proof. vm_compute. reflexivity. Qed.
Lemma default_wheres : wheres DefaultTableJoins = true.
Proof. vm_compute. reflexivity. Qed.
#[local] Opaque DefaultTableJoins.

Lemma default_requires k n :
  requires DefaultTableJoins k n →
  (rank n < rank k)%nat ∧ is_Some (DefaultTableJoins !! n).
Proof.
  intros (j & Hj & Hn). pose proof default_well_ordered as H. unfold well_ordered in H.
  rewrite forallb_forall in H. specialize (H (k, j)). simpl in H.
  rewrite <- list_elem_of_In, elem_of_map_to_list in H. specialize (H Hj).
  rewrite forallb_forall in H. apply list_elem_of_In in Hn. apply H in Hn.
  apply andb_prop in Hn as [H1%Nat.ltb_lt H2%bool_decide_eq_true]. done.
Qed.
Lemma default_where k j : DefaultTableJoins !! k = Some j → Where j ≠ "" → k = "typegroup".
Proof.
  intros Hj Hw. pose proof default_wheres as H. unfold wheres in H.
  rewrite forallb_forall in H. specialize (H (k, j)). simpl in H.
  rewrite <- list_elem_of_In, elem_of_map_to_list in H. specialize (H Hj).
  apply orb_true_iff in H as [H|H]; apply String.eqb_eq in H; done.
Qed.

Lemma like_requires js k n : like js → requires js k n → requires DefaultTableJoins k n.
Proof.
  intros H (j & Hj & Hn). destruct (like_Some js k j H Hj) as (j0 & Hj0 & Hs).
  exists j0. split; [done|]. injection Hs. congruence.
Qed.
Lemma like_is_Some js k : like js → is_Some (js !! k) ↔ is_Some (DefaultTableJoins !! k).
Proof.
  intros H. apply (like_lookup js k) in H.
  destruct (js !! k), (DefaultTableJoins !! k); split; try done; intros; by eexists.
Qed.
Lemma grows_like js js' : grows js js' → like js → like js'.
Proof.
  unfold like. intros HG <-. apply map_eq. intros k. rewrite !lookup_fmap.
  destruct (HG k) as [-> | ->]; [done|]. by destruct (js !! k).
Qed.

(** The ordered joins of a compiled expression. *)
Lemma default_order ks ks' js (Hks : all_keys ks) (Hks' : ks' ≡ₚ ks) (Hjs : like js) :
  ∃ out js', GetOrderdActivatedJoins ks ks' js = Ok (out, js') ∧ grows js js' ∧ NoDup out ∧
    (∀ k, k ∈ out ↔ ∃ k0, active js k0 ∧ rtc (requires js) k0 k) ∧
    (∀ l1 k l2, out = l1 ++ k :: l2 → ∀ n, requires js k n → n ∈ l1).
Proof.
  apply (GetOrderdActivatedJoins_ordered ks ks' js rank); [|done| |].
  - intros k. by rewrite like_is_Some.
  - intros k n Hreq. by apply default_requires, (like_requires js).
  - intros (k & n & Hreq & Hn). apply (like_requires js) in Hreq; [|done].
    apply default_requires in Hreq as [_ HS]. apply (like_is_Some js) in HS as [j Hj]; [|done].
    congruence.
Qed.

Lemma add_wheres_perm js out out' c :
  like js → NoDup out → out ≡ₚ out' → add_wheres js out c = add_wheres js out' c.
Proof.
  intros Hjs Hnd Hp.
  set (clause := match js !! "typegroup" with Some j => Where j | None => "" end).
  assert (HF : ∀ l c, NoDup l → add_wheres js l c =
    if bool_decide ("typegroup" ∈ l) && negb (String.eqb clause "")
    then (if String.eqb c "" then c else c +:+ " AND ") +:+ clause else c).
  { clear out out' Hnd Hp c. unfold add_wheres. induction l as [|k l IH]; intros c HN; [done|].
    apply NoDup_cons in HN as [Hk HN]. cbn [fold_left].
    destruct (decide (k = "typegroup")) as [->|Hne].
    - rewrite (bool_decide_true ("typegroup" ∈ _)) by by left. simpl.
      rewrite IH, bool_decide_false by done. simpl. unfold clause.
      destruct (js !! "typegroup") as [j|]; [|done]. by destruct (String.eqb (Where j) "").
    - replace (bool_decide ("typegroup" ∈ k :: l)) with (bool_decide ("typegroup" ∈ l))
        by (apply bool_decide_ext; set_solver).
      rewrite <- IH by done. f_equal. destruct (js !! k) as [j|] eqn:Ej; [|done].
      destruct (String.eqb_spec (Where j) "") as [|Hw]; [done|]. destruct Hne.
      destruct (like_Some js k j Hjs Ej) as (j0 & Hj0 & Hs).
      apply (default_where k j0); [done|]. injection Hs. congruence. }
  rewrite !HF by (done || by rewrite <- Hp).
  replace (bool_decide ("typegroup" ∈ out')) with (bool_decide ("typegroup" ∈ out)); [done|].
  apply bool_decide_ext. by rewrite Hp.
Qed.

Lemma grows_same js js1 js2 :
  grows js js1 → grows js js2 → (∀ k, active js1 k ↔ active js2 k) → js1 = js2.
Proof.
  intros H1 H2 HA. apply map_eq. intros k.
  destruct (js !! k) as [j|] eqn:Ej.
  2: { destruct (H1 k) as [E1|E1], (H2 k) as [E2|E2]; rewrite Ej in *; by rewrite E1, E2. }
  destruct (Active j) eqn:Ea.
  - assert (with_Active j = j) as Ej'.
    { unfold with_Active. destruct j; simpl in *. by rewrite Ea. }
    destruct (H1 k) as [E1|E1], (H2 k) as [E2|E2]; rewrite Ej in *; simpl in *;
      rewrite ?Ej' in *; by rewrite E1, E2.
  - specialize (HA k). unfold active in HA.
    destruct (H1 k) as [E1|E1], (H2 k) as [E2|E2]; rewrite Ej in *; simpl in *;
      rewrite E1, E2 in *; try done; exfalso.
    + destruct HA as [_ HA]. destruct HA as (j' & [= <-] & Ha'); [by eexists|congruence].
    + destruct HA as [HA _]. destruct HA as (j' & [= <-] & Ha'); [by eexists|congruence].
Qed.

Definition same_compiled (a b : compiled) : Prop :=
  whereClause a = whereClause b ∧ bound a = bound b ∧ errors a = errors b ∧ joined a ≡ₚ joined b.

(** Whatever orders the runtime walks the maps of joins in, Compile yields the same where clause, the same
    parameters, the same errors and the same set of joins. *)
Theorem Compile_any_order Fmt {HO : UuidOps} ks1 ks1' ks1'' ks2 ks2' ks2'' e
    (H1 : all_keys ks1) (H1' : all_keys ks1') (H1'' : ks1'' ≡ₚ ks1')
    (H2 : all_keys ks2) (H2' : all_keys ks2') (H2'' : ks2'' ≡ₚ ks2') :
  same_compiled (Compile Fmt ks1 ks1' ks1'' e) (Compile Fmt ks2 ks2' ks2'' e).
Proof.
  unfold Compile. rewrite (accept_any_order Fmt ks1 ks2) by done.
  pose proof (accept_like Fmt ks2 false e newExpressionCompiler eq_refl) as HL.
  destruct (accept Fmt ks2 false e newExpressionCompiler) as [c s]. simpl in HL.
  destruct (default_order ks1' ks1'' (joins s)) as (o1 & j1 & E1 & G1 & N1 & A1 & _); [done..|].
  destruct (default_order ks2' ks2'' (joins s)) as (o2 & j2 & E2 & G2 & N2 & A2 & _); [done..|].
  rewrite E1, E2.
  assert (HP : o1 ≡ₚ o2).
  { apply NoDup_Permutation; [done..|]. intros k. by rewrite A1, A2. }
  assert (j1 = j2) as <-.
  { assert (C1 : covers ks1' (joins s)) by (intros k Hk; apply H1'; by apply like_is_Some in Hk).
    assert (C2 : covers ks2' (joins s)) by (intros k Hk; apply H2'; by apply like_is_Some in Hk).
    pose proof (order_activated _ _ _ _ _ E1 C1) as B1.
    pose proof (order_activated _ _ _ _ _ E2 C2) as B2.
    apply (grows_same (joins s)); [done..|]. intros k. by rewrite B1, B2. }
  split; simpl; [apply add_wheres_perm; [by apply (grows_like (joins s))|done..]|].
  split_and!; [done|done|]. by rewrite HP.
Qed.
