(* ===== verification/CompilerSafety.v ===== *)
(** * Placeholders, joins and literals of a compiled query *)

From Stdlib Require Import ZArith Lia Ascii String.
From stdpp Require Import relations.
From S2P Require Export CompilerFacts.

#[local] Opaque DefaultTableJoins.

(** ** Placeholders *)

Definition mark : ascii := "?"%char.
Definition marks (s : string) : nat := length (List.filter (Ascii.eqb mark) (chars s)).
Definition no_mark (s : string) : bool := forallb (λ c, negb (Ascii.eqb mark c)) (chars s).

Lemma marks_app s t : marks (s +:+ t) = (marks s + marks t)%nat.
Proof. unfold marks. by rewrite chars_app, List.filter_app, length_app. Qed.
Lemma no_mark_marks s : no_mark s = true → marks s = 0%nat.
Proof.
  unfold no_mark, marks. induction (chars s) as [|c l IH]; [done|]. cbn [forallb List.filter].
  destruct (Ascii.eqb mark c); [done|]. exact IH.
Qed.
Lemma no_mark_chars s t : (∀ c, c ∈ chars t → c ∈ chars s) → no_mark s = true → no_mark t = true.
Proof.
  unfold no_mark. rewrite !forallb_forall. intros H Hs c Hc. apply Hs.
  apply list_elem_of_In, H. by apply list_elem_of_In.
Qed.
Lemma no_mark_app s t : no_mark (s +:+ t) = no_mark s && no_mark t.
Proof. unfold no_mark. by rewrite chars_app, forallb_app. Qed.

Lemma elem_of_drop_while f l c : c ∈ drop_while f l → c ∈ l.
Proof.
  induction l as [|a l IH]; simpl; [done|]. destruct (f a); [|done]. intros H. right. by apply IH.
Qed.
Lemma elem_of_TrimSpace s c : c ∈ chars (TrimSpace s) → c ∈ chars s.
Proof.
  unfold TrimSpace, trim_func. rewrite chars_of_chars, list_elem_of_In, <- in_rev, <- list_elem_of_In.
  intros H%elem_of_drop_while. rewrite list_elem_of_In, <- in_rev, <- list_elem_of_In in H.
  by apply elem_of_drop_while in H.
Qed.
Lemma elem_of_TrimPrefix s p c : c ∈ chars (TrimPrefix s p) → c ∈ chars s.
Proof.
  unfold TrimPrefix. destruct (HasPrefix s p); [|done]. rewrite chars_of_chars.
  intros H. rewrite <- (take_drop (length (chars p)) (chars s)). apply elem_of_app. by right.
Qed.

Lemma column_of_no_mark j f col :
  column_of j f = Ok col → no_mark f = true → no_mark col = true.
Proof.
  unfold column_of. intros H Hf.
  destruct (String.eqb _ _); [done|]. destruct (Contains _ _); [done|]. simplify_eq.
  eapply no_mark_chars, Hf. intros c Hc. by eapply elem_of_TrimPrefix, elem_of_TrimSpace.
Qed.

(** The fixed texts of the default joins have no placeholder. *)
Definition unmarked_joins (js : TableJoinMap) : bool :=
  forallb (λ p, no_mark (TableAlias p.2) && no_mark (Where p.2)) (map_to_list js).
#[local] Transparent DefaultTableJoins.
Lemma default_unmarked : unmarked_joins DefaultTableJoins = true.
Proof. vm_compute. reflexivity. Qed.
#[local] Opaque DefaultTableJoins.
Lemma like_unmarked js k j :
  like js → js !! k = Some j → no_mark (TableAlias j) = true ∧ no_mark (Where j) = true.
Proof.
  intros Hjs Hj. destruct (like_Some js k j Hjs Hj) as (j0 & Hj0 & Hs).
  pose proof default_unmarked as H. unfold unmarked_joins in H. rewrite forallb_forall in H.
  specialize (H (k, j0)). rewrite <- list_elem_of_In, elem_of_map_to_list in H.
  specialize (H Hj0). simpl in H. apply andb_prop in H as [H1 H2].
  injection Hs as _ Ha _ Hw _ _ _ _ _. by rewrite <- Ha, <- Hw.
Qed.

Lemma Column_no_mark t c : no_mark t = true → no_mark c = true → marks (Column t c) = 0%nat.
Proof.
  intros H1 H2. unfold Column. rewrite !marks_app, (no_mark_marks t), (no_mark_marks c) by done.
  done.
Qed.

Lemma TranslateFieldName_no_mark k f js s js' :
  like js → no_mark f = true → TranslateFieldName k f js = (Ok s, js') → marks s = 0%nat.
Proof.
  intros Hjs Hf. unfold TranslateFieldName. destruct (js !! k) as [j|] eqn:Ej; [|done].
  destruct (HandlesFieldName j f); [|done]. simpl.
  destruct (column_of j f) as [col| |] eqn:Ec; [|done..].
  destruct (delegate_of k j f) as [d| |]; [|done..].
  destruct (_ !! d) as [dj|] eqn:Ed; [|done]. destruct (column_is_allowed dj col); [|done].
  simpl. intros [= <- _]. apply Column_no_mark; [|by eapply column_of_no_mark].
  eapply like_unmarked, Ed. by do 2 apply like_set_active.
Qed.

(** Counts the placeholders of the fixed texts. *)
Ltac closed_marks :=
  repeat match goal with
  | |- context [marks ?s] =>
      let n := eval vm_compute in (marks s) in
      match n with O => idtac | S _ => idtac end; change (marks s) with n
  end.

Section Placeholders.
Context (FormatShortest : float64 → string) {HO : UuidOps} (ks : list string).

(** The text of a literal inside a JSON document. *)
Definition literal_text (v : literal) : string :=
  match convertToString FormatShortest v with
  | Ok s => s
  | _ => match v with LStrings l => wrapStrings l | _ => "" end
  end.
Fixpoint clean (e : Expression) : bool :=
  match e with
  | Field f | IsNull f => no_mark f
  | Literal v => no_mark (literal_text v)
  | And l r | Or l r | Equals l r | Substring l r | Not l r | Child l r => clean l && clean r
  | ParameterExp => true
  end.

(** Without a new error there is a text, with a placeholder per new parameter. *)
Definition balanced (o : option string) (c c' : compiler) : Prop :=
  err c' = err c →
  ∃ s, o = Some s ∧ length (parameters c') = (length (parameters c) + marks s)%nat.

Lemma no_new_errors c c1 c2 :
  advances c c1 → advances c1 c2 → err c2 = err c → err c1 = err c ∧ err c2 = err c1.
Proof.
  intros [_ _ [l1 E1] _] [_ _ [l2 E2] _] H. rewrite E2, E1, <- app_assoc in H.
  rewrite <- (app_nil_r (err c)) in H at 2. apply app_inv_head in H.
  apply app_eq_nil in H as [-> ->]. by rewrite E2, E1, !app_nil_r.
Qed.
Lemma err_snoc e l : l ++ [e] ≠ (l : list error).
Proof. intros H. apply (f_equal length) in H. rewrite length_app in H. simpl in H. lia. Qed.

Lemma getFieldName_no_mark js f :
  no_mark f = true → marks (getFieldName ks js f).1 = 0%nat.
Proof.
  intros Hf. unfold getFieldName. destruct (handler _ _ _); [by apply no_mark_marks|].
  destruct (fieldMap f) as [m|] eqn:Em.
  - unfold fieldMap in Em. repeat case_match; simplify_eq; reflexivity.
  - destruct (_ || _); simpl; [by apply no_mark_marks|]. by apply Column_no_mark.
Qed.
Lemma getFieldName_no_mark_text js f :
  no_mark f = true → no_mark (getFieldName ks js f).1 = true.
Proof.
  intros Hf. unfold getFieldName. destruct (handler _ _ _); [done|].
  destruct (fieldMap f) as [m|] eqn:Em.
  - unfold fieldMap in Em. repeat case_match; simplify_eq; reflexivity.
  - destruct (_ || _); simpl; [done|]. unfold Column. by rewrite !no_mark_app, Hf.
Qed.

Lemma balanced_Field f c : like (joins c) → no_mark f = true →
  balanced (visit_Field ks f c).1 c (visit_Field ks f c).2.
Proof.
  intros Hc Hf. unfold visit_Field, balanced.
  destruct (Contains f dquote); [simpl; by intros ?%err_snoc|].
  destruct (Contains f "'"); [simpl; by intros ?%err_snoc|].
  pose proof (getFieldName_no_mark_text (joins c) f Hf) as Hm.
  destruct (getFieldName ks (joins c) f) as [m j]. simpl in Hm.
  destruct (handler ks (joins c) m) as [k|].
  - simpl. destruct (TranslateFieldName _ _ _) as [[s|e|s] js] eqn:ET; simpl;
      [|by intros ?%err_snoc..].
    intros _. exists s. split; [done|].
    apply (TranslateFieldName_no_mark _ _ _ _ _ (like_set_active _ _ Hc) Hm) in ET. lia.
  - destruct j; simpl; [destruct (Contains m "'"); simpl; [by intros ?%err_snoc|]|]; intros _;
      (eexists; split; [done|]).
    + rewrite !marks_app, (no_mark_marks m) by done. closed_marks. cbn [length]. lia.
    + rewrite (no_mark_marks m) by done. lia.
Qed.

Lemma balanced_Literal b v c : no_mark (literal_text v) = true →
  balanced (visit_Literal FormatShortest b v c).1 c (visit_Literal FormatShortest b v c).2.
Proof.
  intros Hv. unfold visit_Literal, balanced. destruct b; simpl.
  - unfold literal_text in Hv.
    destruct (convertToString FormatShortest v) as [s|e|s] eqn:E; simpl.
    + intros _. eexists. split; [done|]. rewrite marks_app, (no_mark_marks s) by done. closed_marks. cbn [length]. lia.
    + destruct v; simpl; try by intros ?%err_snoc. intros _. eexists. split; [done|].
      rewrite !marks_app, (no_mark_marks (wrapStrings l)) by done. closed_marks. cbn [length]. lia.
    + by destruct v.
  - intros _. eexists. split; [done|]. rewrite length_app. done.
Qed.

Lemma balanced_binary op l r c :
  no_mark op = true →
  (∀ c, advances c (l c).2) → (∀ c, advances c (r c).2) → like (joins c) →
  (∀ c, like (joins c) → balanced (l c).1 c (l c).2) →
  (∀ c, like (joins c) → balanced (r c).1 c (r c).2) →
  balanced (visit_binary op l r c).1 c (visit_binary op l r c).2.
Proof.
  intros Hop Hal Har Hc Hl Hr. unfold visit_binary, balanced.
  specialize (Hal c). specialize (Hl c Hc). destruct (l c) as [ol c1]. simpl in Hal, Hl.
  assert (Hc1 : like (joins c1)) by by apply Hal.
  specialize (Har c1). specialize (Hr c1 Hc1). destruct (r c1) as [or c2]. simpl in Har, Hr.
  intros HE. assert (err c2 = err c) as HE' by by destruct ol, or.
  destruct (no_new_errors _ _ _ Hal Har HE') as [E1 E2].
  destruct (Hl E1) as (s & -> & Hs). destruct (Hr E2) as (t & -> & Ht). simpl.
  eexists. split; [done|]. rewrite !marks_app, (no_mark_marks op) by done. closed_marks. cbn [length]. lia.
Qed.

Lemma balanced_Substring_field b (j : option string) f r c :
  like (joins c) → no_mark f = true → b || (if j then true else false) = true →
  balanced (visit_Substring_field b j (Field f) r c).1 c (visit_Substring_field b j (Field f) r c).2.
Proof.
  intros Hc Hf Hbj. unfold visit_Substring_field, balanced.
  destruct (Contains f "'"); simpl; [by intros ?%err_snoc|].
  destruct r; simpl; try by intros ?%err_snoc. destruct Value; simpl; try by intros ?%err_snoc.
  destruct b; simpl.
  - intros _. eexists. split; [done|]. rewrite length_app, !marks_app, (no_mark_marks f) by done.
    closed_marks. cbn [length]. lia.
  - destruct j as [k|]; [|done]. destruct (TranslateFieldName _ _ _) as [[t|e|t] js] eqn:ET; simpl;
      [|by intros ?%err_snoc..].
    intros _. exists t. split; [done|].
    apply (TranslateFieldName_no_mark _ _ _ _ _ Hc Hf) in ET. lia.
Qed.

Lemma balanced_Child l r c :
  clean l = true → balanced (visit_Child l r c).1 c (visit_Child l r c).2.
Proof.
  intros Hl. unfold visit_Child, balanced. destruct l; simpl in *; try by intros ?%err_snoc.
  destruct (Contains _ _); simpl; [by intros ?%err_snoc|].
  destruct r; simpl; try by intros ?%err_snoc. destruct Value; simpl; try by intros ?%err_snoc.
  destruct (Contains _ _); simpl; [by intros ?%err_snoc|].
  destruct (String.eqb_spec FieldName SystemIteration) as [->|_];
    [|destruct (String.eqb_spec FieldName SystemArea) as [->|_]; [|simpl; by intros ?%err_snoc]];
    simpl; intros _; (eexists; split; [done|]); rewrite length_app; done.
Qed.

Lemma balanced_accept e : ∀ b c, like (joins c) → clean e = true →
  balanced (accept FormatShortest ks b e c).1 c (accept FormatShortest ks b e c).2.
Proof.
  assert (HAA := advances_accept FormatShortest ks).
  induction e; intros b c Hc He; cbn [accept]; cbn [clean] in He;
    try apply andb_prop in He as [Hel Her].
  - by apply balanced_Field.
  - apply balanced_binary; auto.
  - apply balanced_binary; auto.
  - pose proof (advances_refers ks e1 c) as HA.
    assert (HP : parameters (expressionRefersToJoinedData ks e1 c).2 = parameters c ∧
                 err (expressionRefersToJoinedData ks e1 c).2 = err c).
    { destruct e1; try done. simpl. by destruct (handler _ _ _). }
    destruct (expressionRefersToJoinedData ks e1 c) as [o c1]. simpl in HA, HP. destruct HP as [HP1 HP2].
    unfold balanced. rewrite <- HP1, <- HP2.
    apply balanced_binary; auto; [destruct o; [done|by case_match]|by apply HA].
  - pose proof (advances_refers ks e1 c) as HA.
    assert (HP : parameters (expressionRefersToJoinedData ks e1 c).2 = parameters c ∧
                 err (expressionRefersToJoinedData ks e1 c).2 = err c).
    { destruct e1; try done. simpl. by destruct (handler _ _ _). }
    destruct (expressionRefersToJoinedData ks e1 c) as [o c1]. simpl in HA, HP. destruct HP as [HP1 HP2].
    assert (Hc1 : like (joins c1)) by by apply HA.
    unfold balanced. rewrite <- HP1, <- HP2. case_match eqn:EB; [|by apply balanced_binary; auto].
    destruct e1; try (simpl; by intros ?%err_snoc). by apply balanced_Substring_field.
  - simpl. by intros ?%err_snoc.
  - by apply balanced_Literal.
  - case_match; [|by apply balanced_binary; auto].
    match goal with |- context [visit_binary ":" ?l ?r c] =>
      assert (HB : balanced (visit_binary ":" l r c).1 c (visit_binary ":" l r c).2)
        by (apply balanced_binary; auto);
      destruct (visit_binary ":" l r c) as [o c'] end.
    simpl in *. intros HE. destruct (HB HE) as (s & -> & Hs). eexists. split; [done|]. exact Hs.
  - by apply balanced_Child.
  - unfold visit_IsNull, balanced. pose proof (getFieldName_no_mark (joins c) FieldName He) as Hm.
    destruct (getFieldName _ _ _) as [m j]. simpl in Hm. destruct j; simpl; intros _;
      (eexists; split; [done|]); rewrite !marks_app, Hm; closed_marks; cbn [length]; lia.
Qed.

Lemma add_wheres_marks js out c : like js → marks (add_wheres js out c) = marks c.
Proof.
  intros Hjs. unfold add_wheres. revert c. induction out as [|k out IH]; intros c; [done|].
  cbn [fold_left]. rewrite IH. destruct (js !! k) as [j|] eqn:Ej; [|done].
  apply (like_unmarked js k j Hjs) in Ej as [_ Hw]. destruct (String.eqb (Where j) ""); [done|].
  rewrite marks_app, (no_mark_marks _ Hw). destruct (String.eqb c ""); [lia|].
  rewrite marks_app. closed_marks. cbn [length]. lia.
Qed.

(** C29: When no field name and no literal of an expression has a question mark, the where clause of a compilation
    without errors has exactly one placeholder for each bound parameter.  An equality of a field in the JSON column
    writes its literal into the clause, so that a question mark in it is taken for a placeholder. *)
Theorem Compile_placeholders ks' ks'' e
    (Hks' : all_keys ks') (Hks'' : ks'' ≡ₚ ks') (Hclean : clean e = true)
    (Herr : errors (Compile FormatShortest ks ks' ks'' e) = []) :
  marks (whereClause (Compile FormatShortest ks ks' ks'' e))
  = length (bound (Compile FormatShortest ks ks' ks'' e)).
Proof.
  revert Herr. unfold Compile.
  pose proof (balanced_accept e false newExpressionCompiler eq_refl Hclean) as HB.
  pose proof (accept_like FormatShortest ks false e newExpressionCompiler eq_refl) as HL.
  destruct (accept FormatShortest ks false e newExpressionCompiler) as [o s]. simpl in HB, HL.
  destruct (default_order ks' ks'' (joins s)) as (out & js & -> & HG & _); [done..|].
  simpl. intros HE. destruct (HB HE) as (t & -> & Ht). simpl in *.
  rewrite add_wheres_marks by (by apply (grows_like (joins s))). lia.
Qed.
End Placeholders.

(** ** Every table mentioned is joined *)

Section Joins.
Context (FormatShortest : float64 → string) {HO : UuidOps} (ks : list string) (Hks : all_keys ks).

(** [f] is a field the visitor meets. *)
Fixpoint mentions (e : Expression) (f : string) : Prop :=
  match e with
  | Field g => g = f
  | And l r | Or l r | Equals l r | Substring l r | Not l r => mentions l f ∨ mentions r f
  | Child _ _ | ParameterExp | Literal _ | IsNull _ => False
  end.

Lemma set_active_active js k : is_Some (js !! k) → active (set_active k js) k.
Proof.
  intros [j Hj]. exists (with_Active j). split; [|done]. unfold set_active.
  by rewrite lookup_alter_eq, Hj.
Qed.

(** The join of a field is active after a visit without new errors. *)
Definition activates (e : Expression) (c c' : compiler) : Prop :=
  err c' = err c → ∀ f k, mentions e f → handled DefaultTableJoins k f → active (joins c') k.

Lemma getFieldName_handled js f k :
  like js → handled DefaultTableJoins k f → getFieldName ks js f = (f, false) ∧ handler ks js f = Some k.
Proof.
  intros Hjs Hk. assert (handler ks js f = Some k) as Hh by by apply handler_spec.
  unfold getFieldName. by rewrite Hh.
Qed.

Lemma activates_Field f c : like (joins c) → activates (Field f) c (visit_Field ks f c).2.
Proof.
  intros Hc HE g k -> Hk. revert HE. unfold visit_Field.
  destruct (Contains g dquote); [simpl; by intros ?%err_snoc|].
  destruct (Contains g "'"); [simpl; by intros ?%err_snoc|].
  destruct (getFieldName_handled (joins c) g k Hc Hk) as [-> Hh]. rewrite Hh. simpl.
  destruct (TranslateFieldName_keeps k g (set_active k (joins c))) as [_ HA].
  assert (active (set_active k (joins c)) k) as Hact.
  { apply set_active_active. apply like_is_Some; [done|].
    destruct Hk as (j & -> & _). by eexists. }
  specialize (HA k Hact).
  by destruct (TranslateFieldName _ _ _) as [[| |] js].
Qed.

Lemma activates_binary op l r c (vl vr : compiler → option string * compiler) :
  (∀ c, advances c (vl c).2) → (∀ c, advances c (vr c).2) → like (joins c) →
  (∀ c, like (joins c) → activates l c (vl c).2) →
  (∀ c, like (joins c) → activates r c (vr c).2) →
  err (visit_binary op vl vr c).2 = err c → ∀ f k, mentions l f ∨ mentions r f →
  handled DefaultTableJoins k f → active (joins (visit_binary op vl vr c).2) k.
Proof.
  intros Hal Har Hc Hl Hr. unfold visit_binary.
  specialize (Hal c). specialize (Hl c Hc). destruct (vl c) as [ol c1]. simpl in Hal, Hl.
  assert (Hc1 : like (joins c1)) by by apply Hal.
  specialize (Har c1). specialize (Hr c1 Hc1). destruct (vr c1) as [or c2]. simpl in Har, Hr.
  intros HE f k Hf Hk.
  assert (err c2 = err c ∧ active (joins c2) k → active (joins
    (match ol, or with
     | Some l0, Some r0 => (Some ("(" +:+ l0 +:+ " " +:+ op +:+ " " +:+ r0 +:+ ")"), c2)
     | _, _ => (None, c2) end).2) k) as Hgo by (intros [_ ?]; by destruct ol, or).
  assert (err c2 = err c) as HE' by by destruct ol, or.
  apply Hgo. split; [done|].
  destruct (no_new_errors _ _ _ Hal Har HE') as [E1 E2].
  destruct Hf as [Hf|Hf]; [apply Har, (Hl E1 f k Hf Hk)|by apply (Hr E2 f k)].
Qed.

Lemma activates_accept e : ∀ b c, like (joins c) →
  activates e c (accept FormatShortest ks b e c).2.
Proof.
  assert (HAA := advances_accept FormatShortest ks).
  assert (HR : ∀ e c, err (expressionRefersToJoinedData ks e c).2 = err c).
  { intros e0 c. destruct e0; try done. simpl. by destruct (handler _ _ _). }
  induction e; intros b c Hc; cbn [accept].
  - by apply activates_Field.
  - intros HE f k Hf. by eapply activates_binary; eauto.
  - intros HE f k Hf. by eapply activates_binary; eauto.
  - pose proof (advances_refers ks e1 c) as HA. pose proof (HR e1 c) as HE1.
    destruct (expressionRefersToJoinedData ks e1 c) as [o c1]. simpl in HA, HE1.
    intros HE f k Hf. eapply activates_binary; eauto; [by apply HA|congruence].
  - pose proof (advances_refers ks e1 c) as HA. pose proof (HR e1 c) as HE1.
    destruct (expressionRefersToJoinedData ks e1 c) as [o c1] eqn:ER. simpl in HA, HE1.
    assert (Hc1 : like (joins c1)) by by apply HA.
    case_match eqn:EB; intros HE f k Hf Hk; cycle 1.
    { eapply activates_binary; eauto. congruence. }
    rewrite <- HE1 in HE. revert HE.
    destruct e1; simpl; try by intros ?%err_snoc.
    assert (Hleft : FieldName = f → active (joins c1) k).
    { intros ->. simpl in ER.
      destruct (getFieldName_handled (joins c) f k Hc Hk) as [_ Hh]. rewrite Hh in ER.
      injection ER as <- <-. simpl. apply set_active_active.
      apply like_is_Some; [done|]. destruct Hk as (j & -> & _). by eexists. }
    destruct (Contains FieldName "'"); simpl; [by intros ?%err_snoc|].
    destruct e2; simpl; try by intros ?%err_snoc. destruct Value; simpl; try by intros ?%err_snoc.
    destruct Hf as [Hf|[]]. simpl in Hf. specialize (Hleft Hf). subst f.
    destruct (b || _); simpl; [done|]. destruct o as [k'|]; simpl; [|done].
    destruct (TranslateFieldName_keeps k' FieldName (joins c1)) as [_ HT]. specialize (HT k Hleft).
    by destruct (TranslateFieldName _ _ _) as [[| |] js].
  - by intros HE f k [].
  - by intros HE f k [].
  - case_match; intros HE f k Hf Hk; [|by eapply activates_binary; eauto].
    assert (HB := activates_binary ":" e1 e2 c (accept FormatShortest ks true e1)
      (accept FormatShortest ks true e2) (HAA e1 true) (HAA e2 true) Hc (IHe1 true) (IHe2 true)).
    destruct (visit_binary _ _ _ c) as [o c']. simpl in *. by apply (HB HE f k).
  - by intros HE f k [].
  - by intros HE f k [].
Qed.

(** Every field of an expression compiled without errors that refers to a joinable table has its join among the
    joins of the query, together with every join that one requires, directly or not. *)
Theorem Compile_joins ks' ks'' e f k k' j0
    (Hks' : all_keys ks') (Hks'' : ks'' ≡ₚ ks') 
    (Herr : errors (Compile FormatShortest ks ks' ks'' e) = [])
    (Hf : mentions e f) (Hk : handled DefaultTableJoins k f)
    (Hreq : rtc (requires DefaultTableJoins) k k') (Hj0 : DefaultTableJoins !! k' = Some j0) :
  ∃ j, j ∈ joined (Compile FormatShortest ks ks' ks'' e) ∧ static j = static j0 ∧ Active j = true.
Proof.
  revert Herr. unfold Compile.
  pose proof (activates_accept e false newExpressionCompiler eq_refl) as HA.
  pose proof (accept_like FormatShortest ks false e newExpressionCompiler eq_refl) as HL.
  destruct (accept FormatShortest ks false e newExpressionCompiler) as [o s]. simpl in HA, HL.
  destruct (default_order ks' ks'' (joins s)) as (out & js & HO' & HG & _ & Hout & _); [done..|].
  rewrite HO'. simpl. intros HE. specialize (HA HE f k Hf Hk).
  assert (Hin : k' ∈ out).
  { apply Hout. exists k. split; [done|]. clear -Hreq HL.
    induction Hreq as [|x y z Hxy _ IH]; [done|]. eapply rtc_l; [|done].
    destruct Hxy as (j & Hj & Hn). pose proof (like_lookup _ x HL) as E. rewrite Hj in E.
    destruct (joins s !! x) as [j'|] eqn:Ej; [|done]. apply (inj Some) in E. exists j'.
    split; [done|]. injection E. congruence. }
  assert (Hcov : covers ks' (joins s)) by (intros x Hx; apply Hks'; by apply like_is_Some in Hx).
  pose proof (order_activated _ _ _ _ _ HO' Hcov k') as Hact.
  rewrite <- Hout in Hact. apply Hact in Hin as Hka. destruct Hka as (j & Hj & Ha).
  destruct (like_Some js k' j (grows_like _ _ HG HL) Hj) as (j1 & Hj1 & Hs).
  rewrite Hj0 in Hj1. apply (inj Some) in Hj1. subst j1.
  exists j. split_and!; [|done|done].
  apply list_elem_of_omap. by exists k'.
Qed.
End Joins.

(** ** What becomes of literals and null checks *)

Definition no_active (js : TableJoinMap) : bool :=
  forallb (λ p, negb (Active p.2)) (map_to_list js).
#[local] Transparent DefaultTableJoins.
Lemma default_inactive : no_active DefaultTableJoins = true.
Proof. vm_compute. reflexivity. Qed.
#[local] Opaque DefaultTableJoins.

Lemma nothing_joined ks' ks'' (Hks' : all_keys ks') (Hks'' : ks'' ≡ₚ ks') :
  ∃ js, GetOrderdActivatedJoins ks' ks'' DefaultTableJoins = Ok ([], js).
Proof.
  destruct (default_order ks' ks'' DefaultTableJoins) as (out & js & HOut & _ & _ & Hout & _);
    [done..|]. exists js. rewrite HOut.
  destruct out as [|k out]; [done|]. destruct (proj1 (Hout k)) as (k0 & (j & Hj & Ha) & _); [by left|].
  exfalso. pose proof default_inactive as HI. unfold no_active in HI. rewrite forallb_forall in HI.
  specialize (HI (k0, j)). rewrite <- list_elem_of_In, elem_of_map_to_list in HI.
  specialize (HI Hj). simpl in HI. by rewrite Ha in HI.
Qed.

Section Text.
Context (FormatShortest : float64 → string) {HO : UuidOps}.
Context (ks ks' ks'' : list string).

(** An equality on a JSON field puts the value into the text of the clause as it is, between double quotes, and
    binds no parameter: a quote in the value ends the SQL string around it. *)
Theorem Equals_json_verbatim f v (Hks : all_keys ks) (Hks' : all_keys ks') (Hks'' : ks'' ≡ₚ ks')
    (Hq : Contains f dquote = false) (Hs : Contains f "'" = false)
    (Hjson : getFieldName ks DefaultTableJoins f = (f, true)) :
  Compile FormatShortest ks ks' ks'' (Equals (Field f) (Literal (LString v))) =
  {| whereClause := quoted "(^work_items^.^fields^ @> '{^" +:+ f +:+ quoted "^ : ^" +:+ v
                    +:+ quoted "^}')";
     bound := []; joined := []; errors := [] |}.
Proof.
  assert (Hh : handler ks DefaultTableJoins f = None).
  { unfold getFieldName in Hjson. by destruct (handler ks DefaultTableJoins f). }
  unfold Compile, accept. cbn [annotated]. rewrite Hjson. cbn [snd orb].
  unfold expressionRefersToJoinedData. cbn [joins newExpressionCompiler]. rewrite Hh.
  unfold visit_binary, visit_Field. rewrite Hq, Hs. cbn [joins newExpressionCompiler].
  rewrite Hjson, Hh, Hs. cbn [negb]. unfold visit_Literal. cbn [convertToString].
  destruct (nothing_joined ks' ks'' Hks' Hks'') as (js & HO').
  cbn [joins newExpressionCompiler]. rewrite HO'.
  simpl. f_equal. apply chars_inj. unfold Column, quoted. rewrite !chars_app. cbn.
  by rewrite <- ?app_assoc.
Qed.

(** A substring search on a joined field compiles to the bare column: the text searched for has no influence on
    the query, and nothing is bound. *)
Theorem Substring_joined_ignores_value f k v col js
    (Hks : all_keys ks) (Hk : handled DefaultTableJoins k f) (Hs : Contains f "'" = false)
    (HT : TranslateFieldName k f (set_active k DefaultTableJoins) = (Ok col, js)) :
  accept FormatShortest ks false (Substring (Field f) (Literal (LString v))) newExpressionCompiler
  = (Some col, set_joins js newExpressionCompiler).
Proof.
  destruct (getFieldName_handled ks Hks DefaultTableJoins f k eq_refl Hk) as [Hg Hh].
  cbn [accept annotated]. rewrite Hg. cbn [snd orb]. unfold expressionRefersToJoinedData.
  cbn [joins newExpressionCompiler]. rewrite Hh. cbn [orb].
  unfold visit_Substring_field. rewrite Hs. cbn [joins set_joins newExpressionCompiler].
  by rewrite HT.
Qed.

(** A null check on a joined field is compiled to the name it was given, unchecked and untranslated, and joins
    no table. *)
Theorem IsNull_joined_verbatim f k
    (Hks : all_keys ks) (Hks' : all_keys ks') (Hks'' : ks'' ≡ₚ ks') (Hk : handled DefaultTableJoins k f) :
  Compile FormatShortest ks ks' ks'' (IsNull f) =
  {| whereClause := "(" +:+ f +:+ " IS NULL)"; bound := []; joined := []; errors := [] |}.
Proof.
  destruct (getFieldName_handled ks Hks DefaultTableJoins f k eq_refl Hk) as [Hg Hh].
  unfold Compile, accept, visit_IsNull. cbn [joins newExpressionCompiler]. rewrite Hg.
  cbn [joins newExpressionCompiler].
  destruct (nothing_joined ks' ks'' Hks' Hks'') as (js & HO'). by rewrite HO'.
Qed.
End Text.

(** ** The default joins, concretely *)

#[local] Transparent DefaultTableJoins.
Definition default_keys : list string := map fst (map_to_list DefaultTableJoins).
Lemma default_keys_all : all_keys default_keys.
Proof.
  intros k. unfold default_keys. rewrite list_elem_of_In, in_map_iff. split.
  - intros ([k' j] & <- & H). rewrite <- list_elem_of_In, elem_of_map_to_list in H. by eexists.
  - intros [j Hj]. exists (k, j). split; [done|]. by rewrite <- list_elem_of_In, elem_of_map_to_list.
Qed.
Lemma handled_default k f :
  match DefaultTableJoins !! k with Some j => HandlesFieldName j f | None => false end = true →
  handled DefaultTableJoins k f.
Proof. destruct (DefaultTableJoins !! k) as [j|] eqn:E; [|done]. intros H. by exists j. Qed.
Definition no_floats (f : float64) : string := "".
Definition by_type_group : Expression :=
  And (Equals (Field "typegroup.name") (Literal (LString "Scenarios")))
      (Not (Field "SpaceID") (Literal (LString "71dfb2ad-c0f4-4b5a-8a4d-4ea0a0e2a6d0"))).

Lemma Compile_any_order_witness :
  same_compiled (Compile no_floats default_keys default_keys default_keys by_type_group)
    (Compile no_floats (rev default_keys) (rev default_keys) default_keys by_type_group).
Proof.
  assert (HR : all_keys (rev default_keys)).
  { intros k. rewrite list_elem_of_In, <- in_rev, <- list_elem_of_In. apply default_keys_all. }
  apply Compile_any_order; [apply default_keys_all..|done|exact HR|exact HR|].
  apply Permutation_rev.
Defined.
Lemma Compile_placeholders_witness :
  marks (whereClause (Compile no_floats default_keys default_keys default_keys by_type_group)) = 2%nat ∧
  marks (whereClause (Compile no_floats default_keys default_keys default_keys by_type_group))
  = length (bound (Compile no_floats default_keys default_keys default_keys by_type_group)).
Proof.
  split; [by vm_compute|].
  apply Compile_placeholders; [apply default_keys_all|done|by vm_compute|by vm_compute].
Defined.
Lemma Compile_joins_witness :
  ∃ j, j ∈ joined (Compile no_floats default_keys default_keys default_keys by_type_group) ∧
    TableAlias j = "space" ∧ Active j = true.
Proof.
  assert (HR : ∀ k n, match DefaultTableJoins !! k with
      Some j => bool_decide (n ∈ ActivateOtherJoins j) | None => false end = true →
      requires DefaultTableJoins k n).
  { intros k n H. destruct (DefaultTableJoins !! k) as [j|] eqn:E; [|done].
    apply bool_decide_eq_true in H. by exists j. }
  destruct (DefaultTableJoins !! "space") as [j0|] eqn:E; [|by vm_compute in E].
  destruct (Compile_joins no_floats default_keys default_keys_all default_keys default_keys
    by_type_group "typegroup.name" "typegroup_members" "space" j0) as (j & Hj & Hs & Ha).
  - apply default_keys_all.
  - done.
  - by vm_compute.
  - by left; left.
  - apply handled_default. by vm_compute.
  - eapply rtc_l; [apply (HR _ "typegroup"); by vm_compute|].
    apply rtc_once. apply HR. by vm_compute.
  - exact E.
  - exists j. split_and!; [done| |done]. injection Hs as _ HA _ _ _ _ _ _ _. rewrite HA.
    vm_compute in E. by injection E as <-.
Defined.
(** The value closes the string and adds a condition of its own. *)
Lemma Equals_json_verbatim_witness :
  whereClause (Compile no_floats default_keys default_keys default_keys
    (Equals (Field "system.title") (Literal (LString (quoted "^}' OR 1=1 --")))))
  = quoted "(^work_items^.^fields^ @> '{^system.title^ : ^^}' OR 1=1 --^}')".
Proof.
  rewrite Equals_json_verbatim; [by vm_compute|apply default_keys_all..|done|by vm_compute|by vm_compute|].
  by vm_compute.
Defined.
Lemma translate_iteration_name :
  (TranslateFieldName "iteration" "iteration.name" (set_active "iteration" DefaultTableJoins)).1
  = Ok (Column "iter" "name").
Proof. by vm_compute. Qed.
Lemma Substring_joined_ignores_value_witness :
  (accept no_floats default_keys false
     (Substring (Field "iteration.name") (Literal (LString "sprint"))) newExpressionCompiler).1
  = Some (Column "iter" "name").
Proof.
  assert (HT : ∃ js, TranslateFieldName "iteration" "iteration.name"
      (set_active "iteration" DefaultTableJoins) = (Ok (Column "iter" "name"), js)).
  { eexists. rewrite <- translate_iteration_name. apply surjective_pairing. }
  destruct HT as [js HT].
  pose proof (Substring_joined_ignores_value no_floats default_keys "iteration.name" "iteration"
    "sprint" (Column "iter" "name") js default_keys_all
    (handled_default "iteration" "iteration.name" eq_refl) eq_refl HT) as H.
  exact (f_equal fst H).
Defined.
Lemma IsNull_joined_verbatim_witness :
  Compile no_floats default_keys default_keys default_keys (IsNull "iteration.x) OR (1=1")
  = {| whereClause := "(iteration.x) OR (1=1 IS NULL)"; bound := []; joined := []; errors := [] |}.
Proof.
  rewrite (IsNull_joined_verbatim no_floats default_keys default_keys default_keys _ "iteration");
    [done|apply default_keys_all..|done|apply handled_default; by vm_compute].
Defined.
