(* ===== verification/Criteria.v ===== *)
(** * Criteria expressions in memory

    [criteria/]: expression nodes are heap objects that know their parent and
    carry annotations; constructors of binary nodes re-parent their children.
    The walks [IterateParents] and [IteratePostOrder], and the two uses the
    expression compiler makes of them, [bubbleUpJSONContext] and
    [isInJSONContext], are run on that heap and related to the expression
    trees on which the compiler is modelled. *)

From Stdlib Require Import ZArith Lia Ascii String.
From S2P Require Export ExpressionCompiler.

(** ** The heap *)

Notation loc := positive.
Inductive binop := OpAnd | OpOr | OpEquals | OpSubstring | OpNot | OpChild.
Inductive kind :=
  | KField (FieldName : string)
  | KParameter
  | KLiteral (Value : literal)
  | KIsNull (FieldName : string)
  | KBinary (op : binop) (left right : loc).
Record node := {
  n_kind : kind;
  n_parent : option loc;
  n_annotations : gmap string bool;      (* the values used are booleans *)
}.
Record heap := { cells : gmap loc node; next : loc }.

Definition set_parent (p : option loc) (n : node) : node :=
  {| n_kind := n_kind n; n_parent := p; n_annotations := n_annotations n |}.
Definition annotate (key : string) (v : bool) (n : node) : node :=
  {| n_kind := n_kind n; n_parent := n_parent n; n_annotations := <[key := v]> (n_annotations n) |}.
Definition update (l : loc) (f : node → node) (h : heap) : heap :=
  {| cells := alter f l (cells h); next := next h |}.
Definition alloc (k : kind) (h : heap) : loc * heap :=
  (next h, {| cells := <[next h := {| n_kind := k; n_parent := None; n_annotations := ∅ |}]> (cells h);
              next := Pos.succ (next h) |}).

(** [setParent], [SetAnnotation], [Annotation], [Parent] *)
Definition setParent (l : loc) (p : loc) (h : heap) : heap := update l (set_parent (Some p)) h.
Definition SetAnnotation (l : loc) (key : string) (v : bool) (h : heap) : heap :=
  update l (annotate key v) h.
Definition Annotation (h : heap) (l : loc) (key : string) : option bool :=
  n ← cells h !! l; n_annotations n !! key.
Definition Parent (h : heap) (l : loc) : option loc := n ← cells h !! l; n_parent n.

(** ** Constructors *)

Definition new_leaf (k : kind) (h : heap) : loc * heap := alloc k h.
(** [reparent]: a nil child panics. *)
Definition reparent (parent left right : loc) (h : heap) : heap :=
  setParent right parent (setParent left parent h).
Definition new_binary (op : binop) (left right : loc) (h : heap) : res (loc * heap) :=
  if bool_decide (is_Some (cells h !! left)) && bool_decide (is_Some (cells h !! right))
  then let '(p, h) := alloc (KBinary op left right) h in Ok (p, reparent p left right h)
  else Panic "invalid memory address or nil pointer dereference".

Definition new_Field (FieldName : string) : heap → loc * heap := new_leaf (KField FieldName).
Definition new_Literal (Value : literal) : heap → loc * heap := new_leaf (KLiteral Value).
Definition new_IsNull (FieldName : string) : heap → loc * heap := new_leaf (KIsNull FieldName).
Definition new_Parameter : heap → loc * heap := new_leaf KParameter.
Definition new_And (l r : loc) : heap → res (loc * heap) := new_binary OpAnd l r.
Definition new_Or (l r : loc) : heap → res (loc * heap) := new_binary OpOr l r.
Definition new_Equals (l r : loc) : heap → res (loc * heap) := new_binary OpEquals l r.
Definition new_Substring (l r : loc) : heap → res (loc * heap) := new_binary OpSubstring l r.
Definition new_Not (l r : loc) : heap → res (loc * heap) := new_binary OpNot l r.
Definition new_Child (l r : loc) : heap → res (loc * heap) := new_binary OpChild l r.

(** ** Walks *)


(** [IterateParents]: the proper ancestors handed to [f], nearest first, up to the
    one at which it stops the iteration. *)
Fixpoint parents_seen (fuel : nat) (h : heap) (f : loc → bool) (exp : option loc) : option (list loc) :=
  match exp, fuel with
  | None, _ => Some []
  | Some l, O => None
  | Some l, S fuel =>
      if f l then cons l <$> parents_seen fuel h f (Parent h l) else Some [l]
  end.
Definition IterateParents (h : heap) (exp : loc) (f : loc → bool) : option (list loc) :=
  parents_seen (Pos.to_nat (next h)) h f (Parent h exp).

(** [IteratePostOrder]; [visit] may change annotations. *)
Fixpoint iterate_post_order (fuel : nat) (visit : loc → heap → bool * heap) (exp : loc) (h : heap)
    : option (bool * heap) :=
  match fuel with
  | O => None
  | S fuel =>
      match n_kind <$> cells h !! exp with
      | Some (KBinary _ l r) =>
          match iterate_post_order fuel visit l h with
          | Some (true, h) =>
              match iterate_post_order fuel visit r h with
              | Some (true, h) => Some (visit exp h)
              | stopped => stopped
              end
          | stopped => stopped
          end
      | _ => Some (visit exp h)
      end
  end.
Definition IteratePostOrder (exp : loc) (visit : loc → heap → bool * heap) (h : heap)
    : option (bool * heap) :=
  iterate_post_order (Pos.to_nat (next h)) visit exp h.

(** ** The compiler's use of them *)

Definition jsonAnnotation : string := "JSON".
Definition has_json (h : heap) (l : loc) : bool :=
  bool_decide (Annotation h l jsonAnnotation = Some true).
Definition bubbleUpJSONContext (ks : list string) (js : TableJoinMap) (exp : loc) (h : heap)
    : bool * heap :=
  let mark b := if (b : bool) then SetAnnotation exp jsonAnnotation true h else h in
  (true,
   match n_kind <$> cells h !! exp with
   | Some (KField f) => mark (getFieldName ks js f).2
   | Some (KBinary (OpEquals | OpSubstring | OpNot) l r) => mark (has_json h l || has_json h r)
   | _ => h
   end).
Definition isInJSONContext (h : heap) (exp : loc) : option bool :=
  seen ← IterateParents h exp (λ l, negb (has_json h l));
  Some (existsb (has_json h) seen).

(** ** Trees in the heap *)

Definition bin (op : binop) (l r : Expression) : Expression :=
  match op with
  | OpAnd => And l r | OpOr => Or l r | OpEquals => Equals l r
  | OpSubstring => Substring l r | OpNot => Not l r | OpChild => Child l r
  end.
Definition leaf_kind (e : Expression) : option kind :=
  match e with
  | Field f => Some (KField f)
  | ParameterExp => Some KParameter
  | Literal v => Some (KLiteral v)
  | IsNull f => Some (KIsNull f)
  | _ => None
  end.

(** [h] has the tree [e] at [l], under the parent [p], in the cells [F]. *)
Inductive tree_at (h : heap) : loc → option loc → gset loc → Expression → Prop :=
  | at_leaf l p n k e :
      cells h !! l = Some n → n_kind n = k → n_parent n = p → leaf_kind e = Some k →
      tree_at h l p {[l]} e
  | at_bin l p n op l1 l2 F1 F2 e1 e2 :
      cells h !! l = Some n → n_kind n = KBinary op l1 l2 → n_parent n = p →
      tree_at h l1 (Some l) F1 e1 → tree_at h l2 (Some l) F2 e2 →
      F1 ## F2 → l ∉ F1 → l ∉ F2 →
      tree_at h l p ({[l]} ∪ F1 ∪ F2) (bin op e1 e2).

(** How the code builds an expression: children first. *)
Fixpoint build (e : Expression) (h : heap) : res (loc * heap) :=
  let binary (new : loc → loc → heap → res (loc * heap)) l r :=
    '(l1, h) ← build l h; '(l2, h) ← build r h; new l1 l2 h in
  match e with
  | Field f => Ok (new_Field f h)
  | ParameterExp => Ok (new_Parameter h)
  | Literal v => Ok (new_Literal v h)
  | IsNull f => Ok (new_IsNull f h)
  | And l r => binary new_And l r
  | Or l r => binary new_Or l r
  | Equals l r => binary new_Equals l r
  | Substring l r => binary new_Substring l r
  | Not l r => binary new_Not l r
  | Child l r => binary new_Child l r
  end.

(** ** Lemmas on trees *)

Definition heap_wf (h : heap) : Prop := ∀ l, is_Some (cells h !! l) → (l < next h)%positive.

Lemma tree_at_frame h h' l p F e :
  (∀ x, x ∈ F → cells h' !! x = cells h !! x) → tree_at h l p F e → tree_at h' l p F e.
Proof.
  intros HF HT. induction HT as [l p n k e Hl Hk Hp He|l p n op l1 l2 F1 F2 e1 e2 Hl Hk Hp _ IH1 _ IH2 HD H1 H2].
  - apply at_leaf with n k; try done. rewrite HF by set_solver. done.
  - apply at_bin with n l1 l2; try done; [rewrite HF by set_solver; done|apply IH1|apply IH2];
      intros x Hx; apply HF; set_solver.
Qed.
Lemma tree_at_root h l p F e : tree_at h l p F e → l ∈ F ∧ Parent h l = p ∧ is_Some (cells h !! l).
Proof.
  destruct 1 as [l p n k e Hl Hk Hp He|l p n op l1 l2 F1 F2 e1 e2 Hl Hk Hp];
    (split; [set_solver|]); unfold Parent; rewrite Hl; simpl; (split; [done|by eexists]).
Qed.
Lemma tree_at_cells h l p F e x : tree_at h l p F e → x ∈ F → is_Some (cells h !! x).
Proof.
  induction 1 as [l p n k e Hl|l p n op l1 l2 F1 F2 e1 e2 Hl _ _ _ IH1 _ IH2]; intros Hx.
  - apply elem_of_singleton in Hx as ->. by eexists.
  - apply elem_of_union in Hx as [[->%elem_of_singleton|Hx]%elem_of_union|Hx]; [by eexists|auto..].
Qed.
Lemma update_ne l f h x : x ≠ l → cells (update l f h) !! x = cells h !! x.
Proof. intros H. simpl. by rewrite lookup_alter_ne. Qed.
Lemma update_eq l f h : cells (update l f h) !! l = f <$> cells h !! l.
Proof. simpl. by rewrite lookup_alter_eq. Qed.
Lemma tree_at_setParent h l p q F e :
  tree_at h l p F e → tree_at (setParent l q h) l (Some q) F e.
Proof.
  intros HT. destruct HT as [l p n k e Hl Hk Hp He|l p n op l1 l2 F1 F2 e1 e2 Hl Hk Hp T1 T2 HD H1 H2].
  - apply at_leaf with (set_parent (Some q) n) k; try done. unfold setParent.
    by rewrite update_eq, Hl.
  - apply at_bin with (set_parent (Some q) n) l1 l2; try done.
    + unfold setParent. by rewrite update_eq, Hl.
    + eapply tree_at_frame, T1. intros x Hx. apply update_ne. by intros ->.
    + eapply tree_at_frame, T2. intros x Hx. apply update_ne. by intros ->.
Qed.

(** What building one expression gives. *)
Definition built (e : Expression) (h : heap) (l : loc) (h' : heap) (F : gset loc) : Prop :=
  tree_at h' l None F e ∧ heap_wf h' ∧ (next h ≤ next h')%positive ∧
  (∀ x, x ∈ F → (next h ≤ x < next h')%positive) ∧
  (∀ x, (x < next h)%positive → cells h' !! x = cells h !! x).

Lemma built_leaf e k h : leaf_kind e = Some k → heap_wf h →
  built e h (alloc k h).1 (alloc k h).2 {[(alloc k h).1]}.
Proof.
  intros Hk Hwf. split_and!; simpl.
  - eapply at_leaf; [apply lookup_insert_eq|done..].
  - intros l. simpl. destruct (decide (next h = l)) as [<-|Hne]; [lia|].
    rewrite lookup_insert_ne by done. intros Hl%Hwf. lia.
  - lia.
  - intros x ->%elem_of_singleton. lia.
  - intros x Hx. rewrite lookup_insert_ne by lia. done.
Qed.

Lemma built_binary op e1 e2 h h1 h2 l1 l2 F1 F2 :
  heap_wf h → built e1 h l1 h1 F1 → built e2 h1 l2 h2 F2 →
  ∃ l h' F, new_binary op l1 l2 h2 = Ok (l, h') ∧ built (bin op e1 e2) h l h' F.
Proof.
  intros Hwf (T1 & W1 & N1 & B1 & C1) (T2 & W2 & N2 & B2 & C2).
  assert (T1' : tree_at h2 l1 None F1 e1).
  { eapply tree_at_frame, T1. intros x Hx. apply C2. apply B1 in Hx. lia. }
  destruct (tree_at_root _ _ _ _ _ T1') as (HF1 & _ & HS1).
  destruct (tree_at_root _ _ _ _ _ T2) as (HF2 & _ & HS2).
  pose proof (B1 _ HF1) as R1. pose proof (B2 _ HF2) as R2.
  unfold new_binary. rewrite !bool_decide_true by done. simpl.
  set (p := next h2). eexists p, _, ({[p]} ∪ F1 ∪ F2). split; [done|].
  set (h3 := {| cells := <[p := _]> (cells h2); next := Pos.succ p |}).
  assert (F3 : ∀ x, x ≠ p → cells h3 !! x = cells h2 !! x).
  { intros x Hx. simpl. by rewrite lookup_insert_ne. }
  assert (D : ∀ x, x ∈ F1 → x ∉ F2).
  { intros x Hx1 Hx2. apply B1 in Hx1. apply B2 in Hx2. lia. }
  assert (P1 : ∀ x, x ∈ F1 → x ≠ p) by (intros x Hx; apply B1 in Hx; unfold p; lia).
  assert (P2 : ∀ x, x ∈ F2 → x ≠ p) by (intros x Hx; apply B2 in Hx; unfold p; lia).
  unfold reparent. split_and!.
  - apply at_bin with {| n_kind := KBinary op l1 l2; n_parent := None; n_annotations := ∅ |} l1 l2;
      try done.
    + unfold setParent. rewrite !update_ne; [apply lookup_insert_eq|..].
      * intros ->. by apply (P1 l1).
      * intros ->. by apply (P2 l2).
    + apply (tree_at_frame (setParent l1 p h3)).
      { intros x Hx. apply update_ne. intros ->. by apply (D l2). }
      apply (tree_at_setParent _ _ None). eapply tree_at_frame, T1'. intros x Hx. by apply F3, P1.
    + apply (tree_at_setParent _ _ None). eapply tree_at_frame, T2. intros x Hx.
      unfold setParent. rewrite update_ne; [by apply F3, P2|]. intros ->. by apply (D l1).
    + intros Hp. by apply (P1 p).
    + intros Hp. by apply (P2 p).
  - intros x. simpl. destruct (decide (x = p)) as [->|Hne]; [lia|].
    intros Hx. assert (is_Some (cells h2 !! x)) as Hx2.
    { destruct (decide (x = l2)) as [->|]; [done|]. rewrite lookup_alter_ne in Hx by done.
      destruct (decide (x = l1)) as [->|]; [done|]. rewrite lookup_alter_ne in Hx by done.
      by rewrite lookup_insert_ne in Hx. }
    apply W2 in Hx2. unfold p. lia.
  - simpl. unfold p. lia.
  - intros x Hx. simpl. unfold p in *.
    apply elem_of_union in Hx as [[->%elem_of_singleton|Hx]%elem_of_union|Hx];
      [lia|apply B1 in Hx; lia|apply B2 in Hx; lia].
  - intros x Hx. unfold setParent. rewrite !update_ne by (intros ->; lia).
    rewrite F3 by (unfold p; lia). rewrite C2 by lia. by apply C1.
Qed.

(** Nothing is annotated while building. *)
Definition no_annotations (h : heap) : Prop :=
  ∀ x n, cells h !! x = Some n → n_annotations n = ∅.
Lemma update_no_annotations l q h : no_annotations h → no_annotations (setParent l q h).
Proof.
  intros H x n. unfold setParent. destruct (decide (x = l)) as [->|];
    [rewrite update_eq|rewrite update_ne by done; apply H].
  destruct (cells h !! l) as [m|] eqn:E; intros [= <-]. simpl. by eapply H.
Qed.
Lemma alloc_no_annotations k h : no_annotations h → no_annotations (alloc k h).2.
Proof.
  intros H x n. simpl. rewrite lookup_insert. case_decide; [by intros [= <-]|apply H].
Qed.
Lemma build_no_annotations e : ∀ h l h',
  no_annotations h → build e h = Ok (l, h') → no_annotations h'.
Proof.
  assert (HB : ∀ op e1 e2,
    (∀ h l h', no_annotations h → build e1 h = Ok (l, h') → no_annotations h') →
    (∀ h l h', no_annotations h → build e2 h = Ok (l, h') → no_annotations h') →
    ∀ h l h', no_annotations h →
      ('(l1, h) ← build e1 h; '(l2, h) ← build e2 h; new_binary op l1 l2 h) = Ok (l, h') →
      no_annotations h').
  { intros op e1 e2 IH1 IH2 h l h' HN. destruct (build e1 h) as [[l1 h1]| |] eqn:E1; simpl; [|done..].
    destruct (build e2 h1) as [[l2 h2]| |] eqn:E2; simpl; [|done..].
    unfold new_binary. destruct (_ && _); [|done]. intros H.
    apply IH1 in E1; [|done]. apply IH2 in E2; [|done].
    pose proof (alloc_no_annotations (KBinary op l1 l2) h2 E2) as HA.
    simpl in H. injection H as <- <-. by apply update_no_annotations, update_no_annotations. }
  induction e; intros h l h' HN H;
    first [simpl in H; injection H as <- <-; by apply (alloc_no_annotations _ h)
          |exact (HB OpAnd _ _ IHe1 IHe2 h l h' HN H)|exact (HB OpOr _ _ IHe1 IHe2 h l h' HN H)
          |exact (HB OpEquals _ _ IHe1 IHe2 h l h' HN H)|exact (HB OpSubstring _ _ IHe1 IHe2 h l h' HN H)
          |exact (HB OpNot _ _ IHe1 IHe2 h l h' HN H)|exact (HB OpChild _ _ IHe1 IHe2 h l h' HN H)].
Qed.

(** Building never panics and lays the expression out as a tree of its own. *)
Lemma build_ok e : ∀ h, heap_wf h → ∃ l h' F, build e h = Ok (l, h') ∧ built e h l h' F.
Proof.
  assert (HB : ∀ op e1 e2,
    (∀ h, heap_wf h → ∃ l h' F, build e1 h = Ok (l, h') ∧ built e1 h l h' F) →
    (∀ h, heap_wf h → ∃ l h' F, build e2 h = Ok (l, h') ∧ built e2 h l h' F) →
    ∀ h, heap_wf h → ∃ l h' F,
      ('(l1, h) ← build e1 h; '(l2, h) ← build e2 h; new_binary op l1 l2 h) = Ok (l, h') ∧
      built (bin op e1 e2) h l h' F).
  { intros op e1 e2 IH1 IH2 h Hwf. destruct (IH1 h Hwf) as (l1 & h1 & F1 & E1 & B1). rewrite E1. simpl.
    destruct (IH2 h1) as (l2 & h2 & F2 & E2 & B2); [apply B1|]. rewrite E2. simpl.
    by eapply built_binary. }
  induction e; intros h Hwf;
    first [eexists _, _, _; split; [reflexivity|by apply built_leaf]
          |apply (HB OpAnd); done|apply (HB OpOr); done|apply (HB OpEquals); done
          |apply (HB OpSubstring); done|apply (HB OpNot); done|apply (HB OpChild); done].
Qed.

(** ** Positions *)

Definition subterm1 (d : bool) (e : Expression) : option Expression :=
  match e with
  | And l r | Or l r | Equals l r | Substring l r | Not l r | Child l r =>
      Some (if d then r else l)
  | _ => None
  end.
Definition loc1 (h : heap) (d : bool) (l : loc) : option loc :=
  match n_kind <$> cells h !! l with
  | Some (KBinary _ l1 l2) => Some (if d then l2 else l1)
  | _ => None
  end.
(** The flag with which the compiler visits the node at a position ([accept]). *)
Fixpoint context (ks : list string) (inJSON : bool) (e : Expression) (path : list bool)
    : option bool :=
  match path with
  | [] => Some inJSON
  | d :: path =>
      e' ← subterm1 d e; context ks (inJSON || annotated ks DefaultTableJoins e) e' path
  end.
Fixpoint loc_at (h : heap) (l : loc) (path : list bool) : option loc :=
  match path with
  | [] => Some l
  | d :: path => l' ← loc1 h d l; loc_at h l' path
  end.

Lemma tree_at_child h l p F e d e' :
  tree_at h l p F e → subterm1 d e = Some e' →
  ∃ l' F', loc1 h d l = Some l' ∧ tree_at h l' (Some l) F' e' ∧ F' ⊆ F ∧ l ∉ F' ∧ l ∈ F.
Proof.
  destruct 1 as [l p n k e Hl Hk Hp He|l p n op l1 l2 F1 F2 e1 e2 Hl Hk Hp T1 T2 HD H1 H2].
  - intros Hs. by destruct e.
  - intros Hs. assert (e' = if d then e2 else e1) as -> by by destruct op; simplify_eq/=.
    unfold loc1. rewrite Hl. simpl. rewrite Hk.
    destruct d; eexists _, _; (split; [done|]); split_and!; try done; set_solver.
Qed.

Inductive parent_chain (h : heap) : option loc → list loc → Prop :=
  | chain_nil : parent_chain h None []
  | chain_cons l c : parent_chain h (Parent h l) c → parent_chain h (Some l) (l :: c).

Lemma parents_seen_existsb h P o c fuel :
  parent_chain h o c → (length c ≤ fuel)%nat →
  ∃ seen, parents_seen fuel h (λ l, negb (P l)) o = Some seen ∧ existsb P seen = existsb P c.
Proof.
  intros HC. revert fuel. induction HC as [|l c _ IH]; intros fuel Hf.
  - exists []. by destruct fuel.
  - destruct fuel as [|fuel]; [simpl in Hf; lia|]. simpl in *. destruct (P l) eqn:EP; simpl.
    + exists [l]. simpl. by rewrite EP.
    + destruct (IH fuel) as (seen & -> & Hs); [lia|]. exists (l :: seen). simpl. by rewrite EP, Hs.
Qed.

(** The annotations say what [annotated] says. *)
Inductive marked (ks : list string) (h : heap) : loc → Expression → Prop :=
  | mk_marked l e :
      has_json h l = annotated ks DefaultTableJoins e →
      (∀ d l' e', loc1 h d l = Some l' → subterm1 d e = Some e' → marked ks h l' e') →
      marked ks h l e.

Lemma context_chain ks h path : ∀ l p F e c b,
  tree_at h l p F e → marked ks h l e → parent_chain h p c →
  context ks (existsb (has_json h) c) e path = Some b →
  ∃ l' c', loc_at h l path = Some l' ∧ parent_chain h (Parent h l') c' ∧
           existsb (has_json h) c' = b ∧ (length c' < length c + size F)%nat.
Proof.
  induction path as [|d path IH]; intros l p F e c b HT HM HC Hb; simpl in *.
  - destruct (tree_at_root _ _ _ _ _ HT) as (HlF & HP & _). simplify_eq.
    exists l, c. split_and!; [done|done|done|].
    assert (0 < size F)%nat; [|lia]. destruct (decide (size F = 0%nat)) as [E|]; [|lia].
    apply size_empty_inv in E. set_solver.
  - destruct (subterm1 d e) as [e'|] eqn:Es; [|done]. simpl in Hb.
    destruct (tree_at_child _ _ _ _ _ _ _ HT Es) as (l' & F' & Hl' & HT' & HFF & HlF' & HlF).
    rewrite Hl'. simpl. destruct HM as [l e HJ HM].
    destruct (IH l' (Some l) F' e' (l :: c) b) as (l2 & c2 & E1 & E2 & E3 & E4); [done|by eapply HM| | |].
    + constructor. destruct (tree_at_root _ _ _ _ _ HT) as (_ & -> & _). done.
    + simpl. rewrite HJ, orb_comm. done.
    + exists l2, c2. split_and!; [done..|]. simpl in E4.
      assert (size F' < size F)%nat; [|lia]. apply subset_size. set_solver.
Qed.

(** ** The annotation pass *)

Fixpoint height (e : Expression) : nat :=
  match e with
  | And l r | Or l r | Equals l r | Substring l r | Not l r | Child l r =>
      S (Nat.max (height l) (height r))
  | _ => 1
  end.
Lemma height_bin op a b : height (bin op a b) = S (Nat.max (height a) (height b)).
Proof. by destruct op. Qed.
Lemma height_footprint h l p F e : tree_at h l p F e → (height e ≤ size F)%nat.
Proof.
  induction 1 as [l p n k e _ _ _ He|l p n op l1 l2 F1 F2 e1 e2 _ _ _ _ IH1 _ IH2 HD H1 H2].
  - rewrite size_singleton. destruct e; simplify_eq/=; lia.
  - rewrite height_bin, !size_union, size_singleton by set_solver. lia.
Qed.

Definition fresh_marks (h : heap) (F : gset loc) : Prop :=
  ∀ x, x ∈ F → Annotation h x jsonAnnotation = None.
(** The pass changes annotations in [F] only. *)
Definition agree_outside (h h' : heap) (F : gset loc) : Prop :=
  next h' = next h ∧
  (∀ x, x ∉ F → cells h' !! x = cells h !! x) ∧
  (∀ x, n_kind <$> cells h' !! x = n_kind <$> cells h !! x) ∧
  (∀ x, n_parent <$> cells h' !! x = n_parent <$> cells h !! x).

Lemma agree_refl h F : agree_outside h h F.
Proof. done. Qed.
Lemma agree_trans h1 h2 h3 F G H :
  agree_outside h1 h2 F → agree_outside h2 h3 G → F ⊆ H → G ⊆ H → agree_outside h1 h3 H.
Proof.
  intros (N1 & C1 & K1 & P1) (N2 & C2 & K2 & P2) HF HG. split_and!; [congruence| | |].
  - intros x Hx. rewrite C2, C1; set_solver.
  - intros x. by rewrite K2, K1.
  - intros x. by rewrite P2, P1.
Qed.
Lemma agree_SetAnnotation l key v h : agree_outside h (SetAnnotation l key v h) {[l]}.
Proof.
  split_and!; [done| | |]; intros x.
  - intros Hx. apply update_ne. set_solver.
  - unfold SetAnnotation. destruct (decide (x = l)) as [->|]; [|by rewrite update_ne].
    rewrite update_eq. by destruct (cells h !! l).
  - unfold SetAnnotation. destruct (decide (x = l)) as [->|]; [|by rewrite update_ne].
    rewrite update_eq. by destruct (cells h !! l).
Qed.
Lemma agree_tree h h' F l p G e : agree_outside h h' F → tree_at h l p G e → tree_at h' l p G e.
Proof.
  intros (_ & _ & K & P) HT.
  assert (HN : ∀ x n, cells h !! x = Some n → ∃ n', cells h' !! x = Some n' ∧
    n_kind n' = n_kind n ∧ n_parent n' = n_parent n).
  { intros x n Hx. pose proof (K x) as Kx. pose proof (P x) as Px. rewrite Hx in Kx, Px.
    destruct (cells h' !! x) as [n'|]; simplify_eq/=. by exists n'. }
  induction HT as [l p n k e Hl Hk Hp He|l p n op l1 l2 F1 F2 e1 e2 Hl Hk Hp _ IH1 _ IH2 HD H1 H2].
  - destruct (HN l n Hl) as (n' & Hl' & Hk' & Hp'). apply at_leaf with n' k; congruence.
  - destruct (HN l n Hl) as (n' & Hl' & Hk' & Hp'). apply at_bin with n' l1 l2; try done; congruence.
Qed.
Lemma agree_marked ks h h' F l p G e :
  agree_outside h h' F → F ## G → tree_at h l p G e → marked ks h l e → marked ks h' l e.
Proof.
  intros HA HD HT HM. revert p G HT HD. induction HM as [l e HJ _ IH]. intros p G HT HD.
  pose proof HA as (_ & C & K & _).
  destruct (tree_at_root _ _ _ _ _ HT) as (HlG & _). constructor.
  - rewrite <- HJ. unfold has_json, Annotation. by rewrite C by set_solver.
  - intros d l' e' Hl' He'. unfold loc1 in Hl'. rewrite K in Hl'.
    destruct (tree_at_child _ _ _ _ _ _ _ HT He') as (l2 & F' & Hl2 & HT' & HFF & _).
    assert (l2 = l') as -> by (unfold loc1 in Hl2; congruence).
    eapply IH; [done|done|done|set_solver].
Qed.

Lemma bubble_bin ks h l n op l1 l2 e1 e2 :
  cells h !! l = Some n → n_kind n = KBinary op l1 l2 →
  has_json h l1 = annotated ks DefaultTableJoins e1 → has_json h l2 = annotated ks DefaultTableJoins e2 →
  Annotation h l jsonAnnotation = None →
  let h' := (bubbleUpJSONContext ks DefaultTableJoins l h).2 in
  agree_outside h h' {[l]} ∧ has_json h' l = annotated ks DefaultTableJoins (bin op e1 e2).
Proof.
  intros Hl Hk H1 H2 HN. unfold bubbleUpJSONContext. rewrite Hl. simpl. rewrite Hk.
  assert (HF : has_json h l = false) by (unfold has_json; by rewrite HN).
  assert (HS : has_json (SetAnnotation l jsonAnnotation true h) l = true).
  { unfold has_json, Annotation, SetAnnotation. rewrite update_eq, Hl. simpl.
    by rewrite lookup_insert_eq. }
  rewrite H1, H2.
  destruct op; simpl; try (split; [apply agree_refl|done]);
    destruct (annotated ks DefaultTableJoins e1 || annotated ks DefaultTableJoins e2);
    (split; [apply agree_SetAnnotation || apply agree_refl|done]).
Qed.
Lemma bubble_leaf ks h l n k e :
  cells h !! l = Some n → n_kind n = k → leaf_kind e = Some k →
  Annotation h l jsonAnnotation = None →
  let h' := (bubbleUpJSONContext ks DefaultTableJoins l h).2 in
  agree_outside h h' {[l]} ∧ has_json h' l = annotated ks DefaultTableJoins e.
Proof.
  intros Hl Hk He HN. unfold bubbleUpJSONContext. rewrite Hl. simpl. rewrite Hk. clear Hk.
  assert (HF : has_json h l = false) by (unfold has_json; by rewrite HN).
  assert (HS : has_json (SetAnnotation l jsonAnnotation true h) l = true).
  { unfold has_json, Annotation, SetAnnotation. rewrite update_eq, Hl. simpl.
    by rewrite lookup_insert_eq. }
  destruct e; simplify_eq/=; try (split; [apply agree_refl|done]).
  destruct (getFieldName ks DefaultTableJoins FieldName).2;
    (split; [apply agree_SetAnnotation || apply agree_refl|done]).
Qed.

(** One round of the pass on a binary node, its children done. *)
Lemma post_order_bin ks fuel h h1 h2 l n op l1 l2 F1 F2 e1 e2 :
  cells h !! l = Some n → n_kind n = KBinary op l1 l2 →
  iterate_post_order fuel (bubbleUpJSONContext ks DefaultTableJoins) l1 h = Some (true, h1) →
  agree_outside h h1 F1 → marked ks h1 l1 e1 →
  iterate_post_order fuel (bubbleUpJSONContext ks DefaultTableJoins) l2 h1 = Some (true, h2) →
  agree_outside h1 h2 F2 → marked ks h2 l2 e2 →
  tree_at h l1 (Some l) F1 e1 → tree_at h l2 (Some l) F2 e2 → F1 ## F2 → l ∉ F1 → l ∉ F2 →
  Annotation h l jsonAnnotation = None →
  ∃ h', iterate_post_order (S fuel) (bubbleUpJSONContext ks DefaultTableJoins) l h = Some (true, h') ∧
        agree_outside h h' ({[l]} ∪ F1 ∪ F2) ∧ marked ks h' l (bin op e1 e2).
Proof.
  intros Hl Hk E1 A1 M1 E2 A2 M2 T1 T2 HD H1 H2 HN.
  assert (A12 : agree_outside h h2 (F1 ∪ F2)) by (eapply agree_trans; [done|done|set_solver..]).
  assert (Hl2 : cells h2 !! l = Some n) by (rewrite <- Hl; apply A12; set_solver).
  assert (M1' : marked ks h2 l1 e1).
  { eapply agree_marked; [exact A2| |eapply agree_tree, T1; exact A1|done]. set_solver. }
  assert (HN2 : Annotation h2 l jsonAnnotation = None).
  { unfold Annotation in *. by rewrite Hl2, <- Hl. }
  destruct (bubble_bin ks h2 l n op l1 l2 e1 e2 Hl2 Hk) as [A3 HJ]; [by inversion M1'|by inversion M2|done|].
  exists (bubbleUpJSONContext ks DefaultTableJoins l h2).2. split_and!.
  - transitivity (Some (bubbleUpJSONContext ks DefaultTableJoins l h2)); [|reflexivity].
    cbn [iterate_post_order]. rewrite Hl. cbn [fmap option_fmap option_map]. by rewrite Hk, E1, E2.
  - eapply agree_trans; [exact A12|exact A3|set_solver..].
  - constructor; [done|]. intros d l' e' Hl' He'.
    pose proof A3 as (_ & C3 & K3 & _). unfold loc1 in Hl'. rewrite K3, Hl2 in Hl'. simpl in Hl'.
    rewrite Hk in Hl'. assert (e' = if d then e2 else e1) as -> by by destruct op; simplify_eq/=.
    assert (T1' : tree_at h2 l1 (Some l) F1 e1) by (eapply agree_tree, T1; exact A12).
    assert (T2' : tree_at h2 l2 (Some l) F2 e2) by (eapply agree_tree, T2; exact A12).
    destruct d; simplify_eq; (eapply agree_marked; [exact A3| |done|done]; set_solver).
Qed.

Lemma post_order_marks ks h0 l p F e : tree_at h0 l p F e → ∀ h fuel,
  (∀ x, x ∈ F → cells h !! x = cells h0 !! x) →
  fresh_marks h F → (height e ≤ fuel)%nat →
  ∃ h', iterate_post_order fuel (bubbleUpJSONContext ks DefaultTableJoins) l h = Some (true, h') ∧
        agree_outside h h' F ∧ marked ks h' l e.
Proof.
  induction 1 as [l p n k e Hl Hk _ He|l p n op l1 l2 F1 F2 e1 e2 Hl Hk _ T1 IH1 T2 IH2 HD H1 H2];
    intros h fuel HF HN Hf.
  - destruct fuel as [|fuel]; [destruct e; simpl in Hf; lia|].
    rewrite <- HF in Hl by set_solver.
    destruct (bubble_leaf ks h l n k e Hl Hk He) as [HA HJ]; [apply HN; set_solver|].
    exists (bubbleUpJSONContext ks DefaultTableJoins l h).2. split_and!; [|done|].
    + transitivity (Some (bubbleUpJSONContext ks DefaultTableJoins l h)); [|reflexivity].
      cbn [iterate_post_order]. rewrite Hl. cbn [fmap option_fmap option_map]. rewrite Hk.
      destruct k; try reflexivity. exfalso. clear -He. destruct e; discriminate.
    + constructor; [done|]. intros d l' e' _ Hs. by destruct e.
  - rewrite height_bin in Hf. destruct fuel as [|fuel]; [lia|].
    rewrite <- HF in Hl by set_solver.
    assert (T1' : tree_at h l1 (Some l) F1 e1)
      by (eapply tree_at_frame, T1; intros x Hx; apply HF; set_solver).
    assert (T2' : tree_at h l2 (Some l) F2 e2)
      by (eapply tree_at_frame, T2; intros x Hx; apply HF; set_solver).
    destruct (IH1 h fuel) as (h1 & E1 & A1 & M1); [intros x Hx; apply HF; set_solver
      |intros x Hx; apply HN; set_solver|lia|].
    pose proof A1 as (_ & C1 & _ & _).
    destruct (IH2 h1 fuel) as (h2 & E2 & A2 & M2); [| |lia|].
    + intros x Hx. rewrite C1 by set_solver. apply HF. set_solver.
    + intros x Hx. unfold Annotation. rewrite C1 by set_solver. apply HN. set_solver.
    + eapply post_order_bin; try done. apply HN. set_solver.
Qed.

(** ** The flag of the compiler is what the heap says *)

Lemma footprint_size h l p F e : heap_wf h → tree_at h l p F e → (size F ≤ Pos.to_nat (next h))%nat.
Proof.
  intros Hwf HT.
  assert (HS : size F = length (map Pos.to_nat (elements F))) by by rewrite length_map.
  rewrite HS. apply Nat.le_trans with (length (seq 0 (Pos.to_nat (next h)))); [|by rewrite length_seq].
  apply NoDup_incl_length.
  - apply Finite.Injective_map_NoDup; [intros x y; apply Pos2Nat.inj|].
    apply NoDup_ListNoDup, NoDup_elements.
  - intros n (x & <- & Hx)%in_map_iff. apply list_elem_of_In, elem_of_elements in Hx.
    apply (tree_at_cells _ _ _ _ _ _ HT), Hwf in Hx. apply in_seq. lia.
Qed.
Definition empty_heap : heap := {| cells := ∅; next := 1 |}.

(** Built by the constructors and annotated by the pass of Compile, every node of an expression answers
    isInJSONContext with the flag the compiler's visit carries to its position: the parent pointers and
    annotations in memory are faithfully replaced by an argument of the visit. *)
Theorem isInJSONContext_context ks e path b
    (Hb : context ks false e path = Some b) :
  ∃ l h h' l', build e empty_heap = Ok (l, h) ∧
    IteratePostOrder l (bubbleUpJSONContext ks DefaultTableJoins) h = Some (true, h') ∧
    loc_at h' l path = Some l' ∧ isInJSONContext h' l' = Some b.
Proof.
  destruct (build_ok e empty_heap) as (l & h & F & HB & HT & Hwf & _ & _).
  { intros x [n Hn]. by apply (lookup_empty_Some (M := gmap loc) x n) in Hn. }
  pose proof (footprint_size _ _ _ _ _ Hwf HT) as Hsize.
  destruct (post_order_marks ks h l None F e HT h (Pos.to_nat (next h)))
    as (h' & HI & HA & HM); [done| |pose proof (height_footprint _ _ _ _ _ HT); lia|].
  { intros x Hx. destruct (tree_at_cells _ _ _ _ _ _ HT Hx) as [n Hn].
    unfold Annotation. rewrite Hn. simpl. assert (n_annotations n = ∅) as ->; [|done].
    eapply (build_no_annotations e empty_heap); [|exact HB|exact Hn].
    intros y m Hm. by apply (lookup_empty_Some (M := gmap loc) y m) in Hm. }
  assert (HT' : tree_at h' l None F e) by by eapply agree_tree.
  destruct (context_chain ks h' path l None F e [] b HT' HM (chain_nil h') Hb)
    as (l' & c & El & HC & Hc & Hlen).
  exists l, h, h', l'. split_and!; [done|done|done|].
  unfold isInJSONContext, IterateParents. simpl in Hlen.
  destruct HA as (HNext & _). rewrite HNext.
  destruct (parents_seen_existsb h' (has_json h') _ _ (Pos.to_nat (next h)) HC) as (seen & -> & Hs); [lia|].
  simpl. by rewrite Hs, Hc.
Qed.

(** The value under system.title is visited in a JSON context, the one under ID is not. *)
Definition default_order_of_keys : list string := map fst (map_to_list DefaultTableJoins).
Definition mixed : Expression :=
  And (Equals (Field "system.title") (Literal (LString "a")))
      (Equals (Field "ID") (Literal (LString "b"))).
Lemma isInJSONContext_context_witness :
  (context default_order_of_keys false mixed [false; true] = Some true ∧
   context default_order_of_keys false mixed [true; true] = Some false) ∧
  ∃ l h h' l', build mixed empty_heap = Ok (l, h) ∧
    IteratePostOrder l (bubbleUpJSONContext default_order_of_keys DefaultTableJoins) h = Some (true, h') ∧
    loc_at h' l [false; true] = Some l' ∧ isInJSONContext h' l' = Some true.
Proof.
  split; [split; by vm_compute|].
  apply (isInJSONContext_context default_order_of_keys mixed [false; true] true). by vm_compute.
Defined.
