(* ===== verification/Search.v ===== *)
(** * Searching work items

    [search/search_repository.go]: full-text search strings, known URLs, and
    the JSON filter language with its translation to criteria expressions.  A
    JSON object is the list of its members in the order a map range visits
    them. *)

From Stdlib Require Import ZArith Lia Ascii String.
From S2P Require Export ExpressionCompiler.

Definition EQ : string := "$EQ".
Definition NE : string := "$NE".
Definition AND : string := "$AND".
Definition OR : string := "$OR".
Definition NOT : string := "$NOT".
Definition IN : string := "$IN".
Definition SUBSTR : string := "$SUBSTR".
Definition OPTS : string := "$OPTS".
Definition TypeGroupName : string := "typegroup.name".
Definition OptParentExistsKey : string := "parent-exists".
Definition OptTreeViewKey : string := "tree-view".

(** ** The filter language *)

Record QueryOptions := { TreeView : bool; ParentExists : bool }.
Inductive Query := MkQuery {
  Name : string;
  Value : option string;
  Negate : bool;
  is_Substring : bool;
  Children : list Query;
  Options : option QueryOptions;
  is_Child : bool;
}.
Definition empty_Query : Query := MkQuery "" None false false [] None false.
Definition q_Name (n : string) (q : Query) : Query :=
  MkQuery n (Value q) (Negate q) (is_Substring q) (Children q) (Options q) (is_Child q).
Definition q_Value (v : option string) (q : Query) : Query :=
  MkQuery (Name q) v (Negate q) (is_Substring q) (Children q) (Options q) (is_Child q).
Definition q_Negate (b : bool) (q : Query) : Query :=
  MkQuery (Name q) (Value q) b (is_Substring q) (Children q) (Options q) (is_Child q).
Definition q_Substring (b : bool) (q : Query) : Query :=
  MkQuery (Name q) (Value q) (Negate q) b (Children q) (Options q) (is_Child q).
Definition q_Children (l : list Query) (q : Query) : Query :=
  MkQuery (Name q) (Value q) (Negate q) (is_Substring q) l (Options q) (is_Child q).
Definition q_Options (o : option QueryOptions) (q : Query) : Query :=
  MkQuery (Name q) (Value q) (Negate q) (is_Substring q) (Children q) o (is_Child q).
Definition q_Child (b : bool) (q : Query) : Query :=
  MkQuery (Name q) (Value q) (Negate q) (is_Substring q) (Children q) (Options q) b.

(** A type assertion [v.(string)], [v.([]interface{})], [v.(bool)]. *)
Definition assert_string (v : gval) : res string :=
  match v with VString s => Ok s | _ => Panic "interface conversion" end.
Definition assert_array (v : gval) : res (list gval) :=
  match v with VSlice l => Ok l | _ => Panic "interface conversion" end.
Definition assert_bool (v : gval) : res bool :=
  match v with VBool b => Ok b | _ => Panic "interface conversion" end.

(** The children a [$IN] list stands for. *)
Definition in_child (key : string) (vl : gval) : res Query :=
  t ← assert_string vl; Ok (q_Value (Some t) (q_Name key empty_Query)).

(** One member of an object that is neither an array nor a string, a boolean
    or null: the operator objects. *)
Definition parse_operator (key : string) (concreteVal : list (string * gval)) (q : Query)
    : res Query :=
  let q := q_Name key q in
  match map_get concreteVal IN with
  | Some v =>
      l ← assert_array v;
      sqs ← mapM (in_child key) l;
      Ok (q_Children (Children q ++ sqs) (q_Name OR q))
  | None =>
      match map_get concreteVal EQ with
      | Some (VString s) => Ok (q_Value (Some s) q)
      | Some VNil => Ok (q_Value None q)
      | Some _ => Ok q
      | None =>
          match map_get concreteVal NE with
          | Some v => s ← assert_string v; Ok (q_Negate true (q_Value (Some s) q))
          | None =>
              match map_get concreteVal SUBSTR with
              | Some v => s ← assert_string v; Ok (q_Substring true (q_Value (Some s) q))
              | None => Ok q
              end
          end
      end
  end.

(** [parseMap] and [parseArray]; the boolean is [childSet]. *)
Fixpoint parse_object (v : gval) (q : Query) {struct v} : res Query :=
  match v with
  | VMap m =>
      (fix members (m : list (string * gval)) (childSet : bool) (q : Query) {struct m} : res Query :=
         match m with
         | [] => Ok q
         | (key, val) :: m =>
             match val with
             | VSlice l =>
                 children ← (fix elements (l : list gval) : res (list Query) :=
                    match l with
                    | [] => Ok []
                    | (VMap _ as o) :: l =>
                        sq ← parse_object o empty_Query; sqs ← elements l; Ok (sq :: sqs)
                    | _ :: l => elements l
                    end) l;
                 members m childSet (q_Children (Children q ++ children) (q_Name key q))
             | VString s =>
                 let q := q_Value (Some s) (q_Name key q) in
                 let q := if String.eqb key "iteration" || String.eqb key "area"
                          then (if negb childSet then q_Child true q else q) else q in
                 members m childSet q
             | VBool s =>
                 if String.eqb key "negate" then members m childSet (q_Negate s q)
                 else if String.eqb key "child" then members m true (q_Child s q)
                 else members m childSet q
             | VNil => members m childSet (q_Value None (q_Name key q))
             | VMap concreteVal =>
                 if String.eqb key OPTS then members m childSet q
                 else q ← parse_operator key concreteVal q; members m childSet q
             | _ => members m childSet q
             end
         end) m false q
  | _ => Ok q
  end.
Definition parseMap (queryMap : list (string * gval)) (q : Query) : res Query :=
  parse_object (VMap queryMap) q.

(** The options of the first member [$OPTS] that is an object. *)
Fixpoint option_members (m : list (string * gval)) (o : QueryOptions) : res QueryOptions :=
  match m with
  | [] => Ok o
  | (k, v) :: m =>
      if String.eqb k OptParentExistsKey
      then b ← assert_bool v; option_members m {| TreeView := TreeView o; ParentExists := b |}
      else if String.eqb k OptTreeViewKey
      then b ← assert_bool v; option_members m {| TreeView := b; ParentExists := ParentExists o |}
      else option_members m o
  end.
Fixpoint parseOptions (queryMap : list (string * gval)) : res (option QueryOptions) :=
  match queryMap with
  | [] => Ok None
  | (key, VMap ifArr) :: queryMap =>
      if String.eqb key OPTS
      then o ← option_members ifArr {| TreeView := false; ParentExists := false |}; Ok (Some o)
      else parseOptions queryMap
  | _ :: queryMap => parseOptions queryMap
  end.

Definition isOperator (str : string) : bool := String.eqb str AND || String.eqb str OR.

Definition SystemAssignees : string := "system.assignees".
Definition SystemTitle : string := "system.title".
Definition SystemLabels : string := "system.labels".
Definition SystemState : string := "system.state".
Definition SystemBoard : string := "Board".
Definition searchKeyMap : gmap string string := list_to_map [
  ("area", SystemArea); ("iteration", SystemIteration); ("assignee", SystemAssignees);
  ("title", SystemTitle); ("creator", SystemCreator); ("label", SystemLabels);
  ("state", SystemState); ("boardcolumn", SystemBoardcolumns); ("type", "Type");
  ("workitemtype", "Type"); ("space", "SpaceID"); ("number", "Number")].

Definition determineLiteralType (key val : string) : Expression :=
  if bool_decide (key ∈ [SystemAssignees; SystemLabels; SystemBoardcolumns; SystemBoard])
  then Literal (LStrings [val]) else Literal (LString val).

(** The field a name of the filter language stands for. *)
Definition searchKey (ks : list string) (name : string) : res string :=
  match handler ks DefaultTableJoins name with
  | Some _ => Ok name
  | None =>
      match searchKeyMap !! name with
      | Some key => Ok key
      | None => Err (BadParameterError "key not found" name None None)
      end
  end.

(** The comparison one query with a value or null stands for. *)
Definition comparison (ks : list string) (q : Query) : res Expression :=
  key ← searchKey ks (Name q);
  match Value q with
  | Some v =>
      let left := Field key in
      let right := determineLiteralType key v in
      Ok (if Negate q then Not left right
          else if is_Substring q then Substring left right
          else if is_Child q then Child left right
          else Equals left right)
  | None =>
      if Negate q then Err (BadParameterError "negate for null not supported" (Name q) None None)
      else Ok (IsNull key)
  end.

(** [criteria.And(res, exp)] re-parents both: a nil one panics.  [res] is not
    nil once the first expression is in. *)
Definition combine (op : Expression → Expression → Expression) (res_ : option Expression)
    (exp : option Expression) : res (option Expression) :=
  match res_, exp with
  | None, _ => Ok exp
  | Some l, Some r => Ok (Some (op l r))
  | Some _, None => Panic "invalid memory address or nil pointer dereference"
  end.
Fixpoint combine_all (op : Expression → Expression → Expression) (res_ : option Expression)
    (l : list (option Expression)) : res (option Expression) :=
  match l with
  | [] => Ok res_
  | exp :: l => r ← combine op res_ exp; combine_all op r l
  end.
Definition join_expressions (currentOperator : string) (myexpr : list (option Expression))
    : res (option Expression) :=
  if String.eqb currentOperator AND then combine_all And None myexpr
  else if String.eqb currentOperator OR then combine_all Or None myexpr
  else Ok (fold_left (λ r e, match r with None => e | Some _ => r end) myexpr None).

Fixpoint generateExpression (ks : list string) (q : Query) {struct q} : res (option Expression) :=
  match q with
  | MkQuery currentOperator value negate substring children _ child =>
      own ← (if negb (isOperator currentOperator) || String.eqb currentOperator OPTS
             then e ← comparison ks q; Ok [Some e] else Ok []);
      others ← (fix each (l : list Query) : res (list (option Expression)) :=
         match l with
         | [] => Ok []
         | c :: l =>
             e ← (if isOperator (Name c) || String.eqb currentOperator OPTS
                  then generateExpression ks c
                  else e ← comparison ks c; Ok (Some e));
             es ← each l; Ok (e :: es)
         end) children;
      join_expressions currentOperator (own ++ others)
  end.

(** [ParseFilterString] once [json.Unmarshal] has read the object. *)
Definition ParseFilterString (ks : list string) (fm : list (string * gval))
    : res (option Expression) * option QueryOptions :=
  match parseMap fm empty_Query with
  | Ok q =>
      match parseOptions fm with
      | Ok o => (generateExpression ks (q_Options o q), o)
      | Err e => (Err e, None)
      | Panic s => (Panic s, None)
      end
  | Err e => (Err e, None)
  | Panic s => (Panic s, None)
  end.

(** ** Full-text search strings *)

Record searchKeyword := {
  workItemTypes : list uuid;
  number : list string;
  words : list string;
}.

(** [strings.Fields] on ASCII white space *)
Fixpoint fields_of (cur l : list ascii) : list (list ascii) :=
  match l with
  | [] => match cur with [] => [] | _ => [rev cur] end
  | c :: l =>
      if is_space c then match cur with [] => fields_of [] l | _ => rev cur :: fields_of [] l end
      else fields_of (c :: cur) l
  end.
Definition Fields (s : string) : list string := map of_chars (fields_of [] (chars s)).

(** [url.QueryUnescape]: the empty string and an error on a malformed escape. *)
Definition unhex (c : ascii) : option N :=
  let n := N_of_ascii c in
  if ((48 <=? n) && (n <=? 57))%N then Some (n - 48)%N
  else if ((97 <=? n) && (n <=? 102))%N then Some (n - 87)%N
  else if ((65 <=? n) && (n <=? 70))%N then Some (n - 55)%N
  else None.
Fixpoint query_unescape (l : list ascii) : option (list ascii) :=
  match l with
  | [] => Some []
  | "%"%char :: a :: b :: l =>
      x ← unhex a; y ← unhex b; r ← query_unescape l; Some (ascii_of_N (16 * x + y) :: r)
  | "%"%char :: _ => None
  | "+"%char :: l => cons " "%char <$> query_unescape l
  | c :: l => cons c <$> query_unescape l
  end.
Definition QueryUnescape (s : string) : string :=
  match query_unescape (chars s) with Some l => of_chars l | None => "" end.

Definition trimProtocolFromURLString (urlString : string) : string :=
  TrimPrefix (TrimPrefix urlString "http://") "https://".
(** The replacer of [escapeCharFromURLString]. *)
Definition escape_char (c : ascii) : list ascii :=
  if bool_decide (c ∈ [":"%char; "("%char; ")"%char]) then ["\"%char; c]
  else if bool_decide (c = "'"%char) then [] else [c].
Definition escapeCharFromURLString (urlString : string) : string :=
  of_chars (List.concat (map escape_char (chars urlString))).
Definition sanitizeURL (urlString : string) : string :=
  escapeCharFromURLString (trimProtocolFromURLString urlString).

(** A registered URL: its compiled expression is the library's. *)
Record KnownURL := {
  URLRegex : string;
  FindStringSubmatch : string → list string;
  groupNamesInRegex : list string;
}.
Notation registry := (gmap string KnownURL).
(** [regexp.MustCompile] yields the matcher and [SubexpNames]. *)
Definition RegisterAsKnownURL (MustCompile : string → option ((string → list string) * list string))
    (name urlRegex : string) (r : registry) : res registry :=
  match MustCompile urlRegex with
  | Some (m, names) =>
      Ok (<[name := {| URLRegex := urlRegex; FindStringSubmatch := m; groupNamesInRegex := names |}]> r)
  | None => Panic "regexp: Compile"
  end.

(** [order]: the order of the range over the registered URLs. *)
Definition isKnownURL (order : list string) (r : registry) (url : string) : option string :=
  let best := fold_left (λ b name,
    match r !! name with
    | Some known =>
        let match_ := FindStringSubmatch known url in
        if Nat.ltb b.1 (length match_) then (length match_, name) else b
    | None => b
    end) order (0%nat, "") in
  if String.eqb best.2 "" then None else Some best.2.

Fixpoint group_values (names : list string) (match_ : list string) (i : nat)
    (acc : gmap string string) : gmap string string :=
  match names with
  | [] => acc
  | name :: names =>
      group_values names match_ (S i)
        (if Nat.eqb i 0 then acc
         else if Nat.ltb (length match_ - 1) i then <[name := ""]> acc
         else <[name := default "" (match_ !! i)]> acc)
  end.
(** [strings.Replace(s, c, with, -1)] *)
Definition replace_all (c : ascii) (with_ : list ascii) (s : string) : string :=
  of_chars (List.concat (map (λ a, if bool_decide (a = c) then with_ else [a]) (chars s))).
Definition getSearchQueryFromURLPattern (r : registry) (patternName stringToMatch : string)
    : res string :=
  match r !! patternName with
  | None => Panic "invalid memory address or nil pointer dereference"
  | Some pattern =>
      let match_ := FindStringSubmatch pattern stringToMatch in
      let result := group_values (groupNamesInRegex pattern) match_ 0 ∅ in
      match match_ with
      | [] => Panic "index out of range"
      | [m0] => Ok (m0 +:+ ":*")
      | _ :: rest =>
          let searchQueryString := replace_all ":" ["\"%char; ":"%char] (Join rest "") +:+ ":*" in
          let id := default "" (result !! "id") in
          Ok (if String.eqb id "" then searchQueryString
              else "(" +:+ id +:+ ":*A | " +:+ searchQueryString +:+ ")")
      end
  end.
Definition getSearchQueryFromURLString (order : list string) (r : registry) (url : string)
    : res string :=
  match isKnownURL order r url with
  | Some patternName => getSearchQueryFromURLPattern r patternName url
  | None => Ok (sanitizeURL url +:+ ":*")
  end.

Section FullText.
Context {HO : UuidOps} (IsURL : string → bool) (order : list string) (known : registry).

Definition add_part (part : string) (k : searchKeyword) : res searchKeyword :=
  let part := QueryUnescape part in
  if HasPrefix part "number:"
  then Ok {| workItemTypes := workItemTypes k;
             number := number k ++ [TrimPrefix part "number:" +:+ ":*A"]; words := words k |}
  else if HasPrefix part "type:"
  then
    let typeIDStr := TrimPrefix part "type:" in
    if String.eqb typeIDStr "" then Err (BadParameterError "Type ID must not be empty" part None None)
    else match uuid_FromString typeIDStr with
         | None => Err (BadParameterError "failed to parse type ID string as UUID" typeIDStr None None)
         | Some typeID =>
             Ok {| workItemTypes := workItemTypes k ++ [typeID]; number := number k;
                   words := words k |}
         end
  else if IsURL part
  then
    q ← getSearchQueryFromURLString order known (trimProtocolFromURLString (ToLower part));
    Ok {| workItemTypes := workItemTypes k; number := number k; words := words k ++ [q] |}
  else Ok {| workItemTypes := workItemTypes k; number := number k;
             words := words k ++ [sanitizeURL (ToLower part) +:+ ":*"] |}.
Fixpoint add_parts (parts : list string) (k : searchKeyword) : res searchKeyword :=
  match parts with
  | [] => Ok k
  | part :: parts => k ← add_part part k; add_parts parts k
  end.
Definition is_char (c x : ascii) : bool := bool_decide (x = c).
Definition parseSearchString (rawSearchString : string) : res searchKeyword :=
  let s := trim_func (is_char "/") rawSearchString in
  let s := trim_func (is_char (ascii_of_nat 34)) s in
  add_parts (Fields s) {| workItemTypes := []; number := []; words := [] |}.

Definition generateSQLSearchInfo (keywords : searchKeyword) : string :=
  Join (List.filter (λ v, negb (String.eqb v ""))
          [Join (number keywords) " & "; Join (words keywords) " & "]) " & ".
End FullText.
