(* ===== verification/SearchFacts.v ===== *)
(** * What filters and search strings mean

    The expression of a filter has the truth value its tree has; the order of
    a range over an object matters exactly when two members name a field; a
    filter on plain fields compiles.  Search strings: every part becomes one
    keyword, and a registered URL never panics. *)

From Stdlib Require Import ZArith Lia Ascii String.
From S2P Require Export CompilerSafety Search.

#[local] Opaque DefaultTableJoins.

(** ** The meaning of a filter *)

(** The truth value of an expression, given that of every comparison. *)
Fixpoint eval (ev : Expression → bool) (e : Expression) : bool :=
  match e with
  | And l r => eval ev l && eval ev r
  | Or l r => eval ev l || eval ev r
  | _ => ev e
  end.

(** The truth value of a tree whose comparisons are those of [comparison]. *)
Fixpoint holds (ks : list string) (ev : Expression → bool) (q : Query) : bool :=
  match q with
  | MkQuery name _ _ _ children _ _ =>
      if String.eqb name AND then forallb (holds ks ev) children
      else if String.eqb name OR then existsb (holds ks ev) children
      else match comparison ks q with Ok e => ev e | _ => false end
  end.

(** Operators have children, comparisons have none and name a known field, and
    a null is not negated. *)
Fixpoint well_formed (ks : list string) (q : Query) : bool :=
  match q with
  | MkQuery name _ _ _ children _ _ =>
      if isOperator name
      then negb (bool_decide (children = [])) && forallb (well_formed ks) children
      else bool_decide (children = []) && is_ok (comparison ks q)
  end.

Section Query_induction.
Context (P : Query → Prop)
  (step : ∀ n v b s children o c, Forall P children → P (MkQuery n v b s children o c)).
Fixpoint Query_ind' (q : Query) : P q :=
  match q with
  | MkQuery n v b s children o c =>
      step n v b s children o c
        ((fix each (l : list Query) : Forall P l :=
            match l with
            | [] => List.Forall_nil P
            | x :: l => List.Forall_cons P x l (Query_ind' x) (each l)
            end) children)
  end.
End Query_induction.

Section Meaning.
Context (ks : list string).

(** One child, as the loop of [generateExpression] treats it. *)
Definition child_expression (currentOperator : string) (c : Query) : res (option Expression) :=
  if isOperator (Name c) || String.eqb currentOperator OPTS
  then generateExpression ks c
  else e ← comparison ks c; Ok (Some e).

Lemma generateExpression_eq q :
  generateExpression ks q =
  (own ← (if negb (isOperator (Name q)) || String.eqb (Name q) OPTS
          then e ← comparison ks q; Ok [Some e] else Ok []);
   others ← mapM (child_expression (Name q)) (Children q);
   join_expressions (Name q) (own ++ others)).
Proof.
  destruct q as [name v b s children o c]. cbn [generateExpression Name Children].
  destruct (if negb _ || _ then _ else _) as [own|e|p]; [|done..]. simpl.
  match goal with |- mbind ?f (?g children) = mbind ?f' ?r =>
    assert (H : ∀ l, g l = mapM (child_expression name) l) end.
  { induction l as [|x l IH]; [done|]. simpl. unfold child_expression.
    destruct (if isOperator (Name x) || _ then _ else _); [|done..]. simpl. by rewrite IH. }
  by rewrite H.
Qed.

Lemma isOperator_cases n : isOperator n = true → n = AND ∨ n = OR.
Proof. unfold isOperator. intros [H|H]%orb_prop; apply String.eqb_eq in H; auto. Qed.
Lemma isOperator_not_OPTS n : isOperator n = true → String.eqb n OPTS = false.
Proof. by intros [->| ->]%isOperator_cases. Qed.

Lemma combine_all_some op e l :
  ∃ e', combine_all op (Some e) (map Some l) = Ok (Some e') ∧ e' = fold_left op l e.
Proof. revert e. induction l as [|x l IH]; intros e; simpl; [by eexists|]. apply IH. Qed.
Lemma combine_all_cons op e l :
  combine_all op None (Some e :: map Some l) = Ok (Some (fold_left op l e)).
Proof. simpl. by destruct (combine_all_some op e l) as (e' & -> & ->). Qed.

Lemma eval_fold_And ev l e : eval ev (fold_left And l e) = eval ev e && forallb (eval ev) l.
Proof.
  revert e. induction l as [|x l IH]; intros e; simpl; [by rewrite andb_true_r|].
  rewrite IH. simpl. by rewrite andb_assoc.
Qed.
Lemma eval_fold_Or ev l e : eval ev (fold_left Or l e) = eval ev e || existsb (eval ev) l.
Proof.
  revert e. induction l as [|x l IH]; intros e; simpl; [by rewrite orb_false_r|].
  rewrite IH. simpl. by rewrite orb_assoc.
Qed.

Lemma comparison_eval q e ev : comparison ks q = Ok e → eval ev e = ev e.
Proof.
  unfold comparison. destruct (searchKey ks (Name q)); [|done..]. simpl.
  destruct (Value q), (Negate q); try done; repeat case_match; by intros [= <-].
Qed.

Lemma forallb_same {A B} (f : A → bool) (g : B → bool) l k :
  map f l = map g k → forallb f l = forallb g k.
Proof.
  revert k. induction l as [|x l IH]; intros [|y k]; simpl; try done.
  intros [= -> H]. by rewrite (IH k).
Qed.
Lemma existsb_same {A B} (f : A → bool) (g : B → bool) l k :
  map f l = map g k → existsb f l = existsb g k.
Proof.
  revert k. induction l as [|x l IH]; intros [|y k]; simpl; try done.
  intros [= -> H]. by rewrite (IH k).
Qed.

(** The expression an operator builds from those of its children. *)
Lemma join_operator_means name e l :
  isOperator name = true →
  ∃ e', join_expressions name (Some e :: map Some l) = Ok (Some e') ∧
    ∀ ev, eval ev e' = (if String.eqb name AND then forallb (eval ev) (e :: l)
                        else existsb (eval ev) (e :: l)).
Proof.
  intros [->| ->]%isOperator_cases; unfold join_expressions; cbn [String.eqb AND OR Ascii.eqb Bool.eqb];
    rewrite combine_all_cons; (eexists; split; [done|]); intros ev.
  - apply eval_fold_And.
  - apply eval_fold_Or.
Qed.

(** The children of a well-formed operator. *)
Lemma children_mean name children :
  isOperator name = true → Forall (λ c, well_formed ks c = true → ∃ e,
    generateExpression ks c = Ok (Some e) ∧ ∀ ev, eval ev e = holds ks ev c) children →
  forallb (well_formed ks) children = true →
  ∃ l, mapM (child_expression name) children = Ok (map Some l) ∧
    ∀ ev, map (eval ev) l = map (holds ks ev) children.
Proof.
  intros Hn HF. induction HF as [|c children Hc HF IH]; intros HW; [by exists []|].
  simpl in HW. apply andb_prop in HW as [Hwc HW]. destruct (IH HW) as (l & El & Hl).
  assert (Hce : ∃ e, child_expression name c = Ok (Some e) ∧ ∀ ev, eval ev e = holds ks ev c).
  { unfold child_expression. rewrite (isOperator_not_OPTS name Hn), orb_false_r.
    destruct (isOperator (Name c)) eqn:Eo; [by apply Hc|].
    destruct c as [n v b s cs o d]. simpl in Eo, Hwc |- *. rewrite Eo in Hwc.
    apply andb_prop in Hwc as [_ Hok]. destruct (comparison ks _) as [e|?|?] eqn:Ee; [|done..].
    exists e. split; [done|]. intros ev. rewrite (comparison_eval _ _ ev Ee).
    unfold isOperator in Eo. apply orb_false_iff in Eo as [-> ->]. done. }
  destruct Hce as (e & Ee & He). exists (e :: l). simpl. rewrite Ee. simpl. rewrite El. split; [done|].
  intros ev. by rewrite He, Hl.
Qed.

Lemma generateExpression_eval q (Hq : well_formed ks q = true) :
  ∃ e, generateExpression ks q = Ok (Some e) ∧ ∀ ev, eval ev e = holds ks ev q.
Proof.
  revert Hq. induction q as [name v b s children o c IH] using Query_ind'. intros Hq.
  rewrite generateExpression_eq. cbn [Name Children]. cbn [well_formed] in Hq.
  destruct (isOperator name) eqn:Eo; cbn [negb orb].
  - apply andb_prop in Hq as [Hne HW]. rewrite (isOperator_not_OPTS name Eo). simpl.
    destruct (children_mean name children Eo IH HW) as (l & -> & Hl). simpl.
    destruct l as [|e l]; [by destruct children; [|specialize (Hl (λ _, true))]|].
    destruct (join_operator_means name e l Eo) as (e' & He' & Hev).
    exists e'. split; [done|]. intros ev. rewrite Hev. cbn [holds]. specialize (Hl ev).
    rewrite (forallb_same _ _ _ _ Hl), (existsb_same _ _ _ _ Hl).
    by apply isOperator_cases in Eo as [->| ->].
  - apply andb_prop in Hq as [Hnil Hok]. apply bool_decide_eq_true in Hnil as ->.
    destruct (comparison ks _) as [e|?|?] eqn:Ee; [|done..]. simpl.
    assert (Hj : join_expressions name [Some e] = Ok (Some e)).
    { unfold join_expressions. unfold isOperator in Eo. by apply orb_false_iff in Eo as [-> ->]. }
    exists e. split; [done|]. intros ev. cbn [holds].
    rewrite (comparison_eval _ _ ev Ee). unfold isOperator in Eo.
    apply orb_false_iff in Eo as [-> ->]. by rewrite Ee.
Qed.

(** ** What a filter says of an item

    An item is seen by the texts its fields have, none for a null and any number for a field with a list. *)

Record item_view := {
  values : string → list string;
  within : string → string → string → bool;     (* the text of the field has this text in it *)
  under : string → string → string → bool;      (* the area or iteration of the field is below this one *)
}.
Section View.
Context (I : item_view).
Definition has_list (f : string) : bool := bool_decide (f ∈ [SystemAssignees; SystemLabels; SystemBoardcolumns; SystemBoard]).
Definition has_value (f v : string) : bool := bool_decide (v ∈ values I f).
(** What a comparison of the database says: a field with a list is compared with a list, another one with a text. *)
Definition compares (e : Expression) : bool :=
  match e with
  | Equals (Field f) (Literal (LString v)) => negb (has_list f) && has_value f v
  | Equals (Field f) (Literal (LStrings [v])) => has_list f && has_value f v
  | Not (Field f) (Literal (LString v)) => negb (has_list f) && negb (has_value f v)
  | Not (Field f) (Literal (LStrings [v])) => has_list f && negb (has_value f v)
  | Substring (Field f) (Literal (LString v)) | Substring (Field f) (Literal (LStrings [v])) => existsb (λ x, within I f x v) (values I f)
  | Child (Field f) (Literal (LString v)) | Child (Field f) (Literal (LStrings [v])) => existsb (λ x, under I f x v) (values I f)
  | IsNull f => bool_decide (values I f = [])
  | _ => false
  end.
(** The filter read as a tree of conditions on the item. *)
Definition condition (f : string) (q : Query) : bool :=
  match Value q with
  | None => bool_decide (values I f = [])
  | Some v =>
      if Negate q then negb (has_value f v)
      else if is_Substring q then existsb (λ x, within I f x v) (values I f)
      else if is_Child q then existsb (λ x, under I f x v) (values I f)
      else has_value f v
  end.
Fixpoint satisfies (q : Query) : bool :=
  match q with
  | MkQuery name _ _ _ children _ _ =>
      if String.eqb name AND then forallb satisfies children
      else if String.eqb name OR then existsb satisfies children
      else match searchKey ks name with Ok f => condition f q | _ => false end
  end.
Lemma comparison_condition q f e : searchKey ks (Name q) = Ok f → comparison ks q = Ok e → compares e = condition f q.
Proof.
  intros Hf. unfold comparison, condition. rewrite Hf. cbn [mbind res_bind].
  assert (HL : ∀ v, determineLiteralType f v = if has_list f then Literal (LStrings [v]) else Literal (LString v)) by done.
  destruct (Value q) as [v|]; [|by destruct (Negate q); [done|intros [= <-]]].
  rewrite HL. intros [= <-]. destruct (Negate q), (is_Substring q), (is_Child q), (has_list f) eqn:El; cbn [compares]; by rewrite ?El.
Qed.
Lemma holds_satisfies q : well_formed ks q = true → holds ks compares q = satisfies q.
Proof.
  induction q as [name v b s children o c IH] using Query_ind'. cbn [well_formed holds satisfies]. unfold isOperator.
  assert (HC : forallb (well_formed ks) children = true → map (holds ks compares) children = map satisfies children).
  { rewrite forallb_forall. intros HW. apply map_ext_in. intros q Hq. rewrite Forall_forall in IH.
    apply IH; [by apply list_elem_of_In|by apply HW]. }
  destruct (String.eqb name AND); cbn [orb]; [intros [_ HW]%andb_prop; by apply forallb_same, HC|].
  destruct (String.eqb name OR); cbn [orb]; [intros [_ HW]%andb_prop; by apply existsb_same, HC|].
  intros [_ Hok]%andb_prop. destruct (comparison ks _) as [e|?|?] eqn:E; [|done..].
  destruct (searchKey ks name) as [f|?|?] eqn:Ef; [|unfold comparison in E; cbn [Name] in E; by rewrite Ef in E..].
  by eapply comparison_condition.
Qed.
End View.

(** A filter that can be read: operators have members, comparisons have none and name a known field, and a null is not
    negated. *)
Fixpoint readable (q : Query) : bool :=
  match q with
  | MkQuery name v negate _ children _ _ =>
      if isOperator name then negb (bool_decide (children = [])) && forallb readable children
      else bool_decide (children = []) && is_ok (searchKey ks name) && (bool_decide (is_Some v) || negb negate)
  end.
Lemma readable_well_formed q : readable q = well_formed ks q.
Proof.
  induction q as [name v b s children o c IH] using Query_ind'. cbn [readable well_formed]. destruct (isOperator name).
  - f_equal. apply forallb_same, map_ext_in. intros q Hq. rewrite Forall_forall in IH. by apply IH, list_elem_of_In.
  - unfold comparison. cbn [Name Value Negate]. rewrite <- andb_assoc. f_equal.
    destruct (searchKey ks name) as [f|?|?]; [|done..]. destruct v, b; cbn; by rewrite ?bool_decide_true, ?bool_decide_false by (by intros [? ?]).
Qed.

(** C32: A filter that can be read, in which no operator is empty, gets an expression that holds of exactly the items the
    filter describes: [$AND] when all its members do, [$OR] when one does, at every depth; a value when the field has it,
    a negated one when it has not, a substring, a value below another one, and a null when the field has no value.  A
    negated value is the negation of the equality, whatever else the member says. *)
Theorem generateExpression_means q (Hq : readable q = true) :
  ∃ e, generateExpression ks q = Ok (Some e) ∧ ∀ I, eval (compares I) e = satisfies I q.
Proof.
  rewrite readable_well_formed in Hq. destruct (generateExpression_eval q Hq) as (e & He & Hev). exists e.
  split; [done|]. intros I. by rewrite Hev, holds_satisfies.
Qed.
End Meaning.

(** ** Lists of values *)

Section Lists.
Context (ks : list string).

Definition in_query (key : string) (vs : list string) : Query :=
  MkQuery OR None false false (map (λ v, q_Value (Some v) (q_Name key empty_Query)) vs) None false.

Lemma parse_in key ops vs :
  key ≠ OPTS → map_get ops IN = Some (VSlice (map VString vs)) →
  parseMap [(key, VMap ops)] empty_Query = Ok (in_query key vs).
Proof.
  intros Hk Hin. unfold parseMap. cbn [parse_object].
  destruct (String.eqb_spec key OPTS) as [|_]; [done|].
  unfold parse_operator. rewrite Hin. simpl.
  assert (H : mapM (in_child key) (map VString vs)
              = Ok (map (λ v, q_Value (Some v) (q_Name key empty_Query)) vs)).
  { clear Hin. induction vs as [|v vs IH]; [done|]. simpl. by rewrite IH. }
  by rewrite H.
Qed.

(** [{"key": {"$IN": [v1, ..., vn]}}] stands for the disjunction of the equalities with the values of the list;
    of the empty list it is no expression at all, not one that is false. *)
Theorem IN_means key ops vs f
    (Hk : key ≠ OPTS) (Hop : isOperator key = false) (Hkey : searchKey ks key = Ok f)
    (Hin : map_get ops IN = Some (VSlice (map VString vs))) :
  match (ParseFilterString ks [(key, VMap ops)]).1 with
  | Ok None => vs = []
  | Ok (Some e) => vs ≠ [] ∧ ∀ ev,
      eval ev e = existsb (λ v, ev (Equals (Field f) (determineLiteralType f v))) vs
  | _ => False
  end.
Proof.
  unfold ParseFilterString. rewrite (parse_in key ops vs Hk Hin).
  assert (HO : parseOptions [(key, VMap ops)] = Ok None).
  { simpl. by destruct (String.eqb_spec key OPTS). }
  rewrite HO. cbn [fst].
  assert (HC : ∀ v, comparison ks (q_Value (Some v) (q_Name key empty_Query))
                    = Ok (Equals (Field f) (determineLiteralType f v))).
  { intros v. unfold comparison. simpl. by rewrite Hkey. }
  destruct vs as [|v vs]; [done|].
  assert (HW : well_formed ks (q_Options None (in_query key (v :: vs))) = true).
  { simpl. rewrite !Hop. simpl. change (MkQuery key (Some v) false false [] None false)
      with (q_Value (Some v) (q_Name key empty_Query)). rewrite HC. simpl.
    apply forallb_forall. intros q Hq. rewrite in_map_iff in Hq. destruct Hq as (w & <- & _).
    simpl. rewrite Hop. simpl. change (MkQuery key (Some w) false false [] None false)
      with (q_Value (Some w) (q_Name key empty_Query)). by rewrite HC. }
  destruct (generateExpression_eval ks _ HW) as (e & -> & He). split; [done|].
  intros ev. rewrite He. unfold in_query. cbn [q_Options Name Value Negate is_Substring Children is_Child holds].
  cbn [String.eqb OR AND Ascii.eqb Bool.eqb].
  apply existsb_same. rewrite map_map. apply map_ext. intros w. cbn [q_Value q_Name empty_Query holds Name Value Negate is_Substring Children Options is_Child].
  unfold isOperator in Hop. apply orb_false_iff in Hop as [-> ->].
  change (MkQuery key (Some w) false false [] None false)
    with (q_Value (Some w) (q_Name key empty_Query)). by rewrite HC.
Qed.
End Lists.

(** ** The order of the members of an object *)

Definition parse_elements : list gval → res (list Query) :=
  fix elements (l : list gval) : res (list Query) :=
    match l with
    | [] => Ok []
    | (VMap _ as o) :: l =>
        sq ← parse_object o empty_Query; sqs ← elements l; Ok (sq :: sqs)
    | _ :: l => elements l
    end.

(** One turn of the loop of [parseMap]; the state is [childSet] and the query. *)
Definition member_step (st : bool * Query) (p : string * gval) : res (bool * Query) :=
  let '(childSet, q) := st in
  let '(key, val) := p in
  match val with
  | VSlice l =>
      children ← parse_elements l;
      Ok (childSet, q_Children (Children q ++ children) (q_Name key q))
  | VString s =>
      let q := q_Value (Some s) (q_Name key q) in
      Ok (childSet, if (String.eqb key "iteration" || String.eqb key "area") && negb childSet
                    then q_Child true q else q)
  | VBool s =>
      if String.eqb key "negate" then Ok (childSet, q_Negate s q)
      else if String.eqb key "child" then Ok (true, q_Child s q)
      else Ok (childSet, q)
  | VNil => Ok (childSet, q_Value None (q_Name key q))
  | VMap concreteVal =>
      if String.eqb key OPTS then Ok (childSet, q)
      else q ← parse_operator key concreteVal q; Ok (childSet, q)
  | _ => Ok (childSet, q)
  end.
Fixpoint members (st : bool * Query) (m : list (string * gval)) : res (bool * Query) :=
  match m with
  | [] => Ok st
  | p :: m => st ← member_step st p; members st m
  end.

Lemma parseMap_members m q : parseMap m q = snd <$> members (false, q) m.
Proof.
  unfold parseMap. cbn [parse_object].
  match goal with |- ?F m false q = _ =>
    assert (H : ∀ m cs q, F m cs q = snd <$> members (cs, q) m); [|apply H] end.
  clear m q. induction m as [|[key val] m IH]; intros cs q; [done|]. cbn [members member_step].
  destruct val; cbn [mbind res_bind]; try apply IH.
  - rewrite IH. by destruct (String.eqb key "iteration" || String.eqb key "area"), cs.
  - destruct (String.eqb key "negate"); [apply IH|]. destruct (String.eqb key "child"); apply IH.
  - destruct (String.eqb key OPTS); [apply IH|].
    destruct (parse_operator key m0 q); [apply IH|done..].
  - change ((fix elements (l : list gval) : res (list Query) :=
      match l with
      | [] => Ok []
      | (VMap _ as o) :: l => sq ← parse_object o empty_Query; sqs ← elements l; Ok (sq :: sqs)
      | _ :: l => elements l
      end) l) with (parse_elements l).
    destruct (parse_elements l); [apply IH|done..].
Qed.
Lemma members_app st m m' : members st (m ++ m') = (st ← members st m; members st m').
Proof.
  revert st. induction m as [|p m IH]; intros st; [done|]. simpl.
  destruct (member_step st p); simpl; [apply IH|done..].
Qed.

(** A member that names a field or an operator, and one that negates by [$NE]. *)
Definition naming (p : string * gval) : bool :=
  match p.2 with
  | VSlice _ | VString _ | VNil => true
  | VMap _ => negb (String.eqb p.1 OPTS)
  | _ => false
  end.
Definition negating (p : string * gval) : bool :=
  match p.2 with
  | VMap c => match map_get c NE with Some _ => true | None => false end
  | _ => false
  end.
Definition is_negate (p : string * gval) : bool :=
  match p.2 with VBool _ => String.eqb p.1 "negate" | _ => false end.
Definition unambiguous (m : list (string * gval)) : bool :=
  Nat.leb (length (List.filter naming m)) 1 && negb (existsb negating m && existsb is_negate m).

Lemma parse_operator_Child key c b q :
  parse_operator key c (q_Child b q) = q_Child b <$> parse_operator key c q.
Proof.
  unfold parse_operator.
  destruct (map_get c IN) as [v|].
  { destruct (assert_array v) as [l| |]; [|done..]. simpl. by destruct (mapM _ l). }
  destruct (map_get c EQ) as [[]|]; try done.
  destruct (map_get c NE) as [v|]; [by destruct v|].
  by destruct (map_get c SUBSTR) as [[]|].
Qed.
Lemma parse_operator_Negate key c b q : map_get c NE = None →
  parse_operator key c (q_Negate b q) = q_Negate b <$> parse_operator key c q.
Proof.
  intros HN. unfold parse_operator. rewrite HN.
  destruct (map_get c IN) as [v|].
  { destruct (assert_array v) as [l| |]; [|done..]. simpl. by destruct (mapM _ l). }
  destruct (map_get c EQ) as [[]|]; try done.
  by destruct (map_get c SUBSTR) as [[]|].
Qed.

(** A member that names nothing: no effect, [negate] or [child]. *)
Inductive modifies : string * gval → (bool * Query → bool * Query) → Prop :=
  | modifies_nothing p : modifies p id
  | modifies_negate b : modifies ("negate", VBool b) (λ st, (st.1, q_Negate b st.2))
  | modifies_child b : modifies ("child", VBool b) (λ st, (true, q_Child b st.2)).
Lemma modifier_step x : naming x = false →
  ∃ f, modifies x f ∧ ∀ st, member_step st x = Ok (f st).
Proof.
  destruct x as [k v]. unfold naming. cbn [fst snd]. intros H.
  destruct v; try done; try (exists id; split; [constructor|by intros []]).
  - destruct (String.eqb_spec k "negate") as [->|Hn];
      [|destruct (String.eqb_spec k "child") as [->|Hc]].
    + eexists. split; [apply modifies_negate|by intros []].
    + eexists. split; [apply modifies_child|by intros []].
    + exists id. split; [constructor|]. intros []. unfold member_step.
      by destruct (String.eqb_spec k "negate"), (String.eqb_spec k "child").
  - apply negb_false_iff in H. exists id. split; [constructor|]. intros []. simpl. by rewrite H.
Qed.
Lemma modifies_commutes x y f st :
  modifies x f → x.1 ≠ y.1 → is_negate x && negating y = false →
  member_step (f st) y = f <$> member_step st y.
Proof.
  destruct st as [cs q], y as [k v]. intros Hx Hk Hn. destruct Hx as [p|b|b].
  - by destruct (member_step _ _).
  - cbn [fst snd is_negate String.eqb Ascii.eqb Bool.eqb andb negating] in *.
    destruct v; cbn [member_step]; try done.
    + by destruct ((_ || _) && _).
    + destruct (String.eqb_spec k "negate"); [congruence|]. by destruct (String.eqb k "child").
    + destruct (String.eqb k OPTS); [done|]. rewrite parse_operator_Negate.
      * by destruct (parse_operator k m q).
      * cbn [negating snd] in Hn. by destruct (map_get m NE).
    + by destruct (parse_elements l).
  - cbn [fst snd] in *. destruct v; cbn [member_step]; try done.
    + rewrite andb_false_r. by destruct (String.eqb k "iteration" || String.eqb k "area"), cs.
    + destruct (String.eqb k "negate"); [done|].
      destruct (String.eqb_spec k "child"); [congruence|done].
    + destruct (String.eqb k OPTS); [done|]. rewrite parse_operator_Child.
      by destruct (parse_operator k m q).
    + by destruct (parse_elements l).
Qed.
(** A member that names nothing commutes with one of another key. *)
Lemma modifier_commutes st x y :
  naming x = false → x.1 ≠ y.1 → is_negate x && negating y = false →
  (st ← member_step st x; member_step st y) = (st ← member_step st y; member_step st x).
Proof.
  intros Hx Hk Hn. destruct (modifier_step x Hx) as (f & Hf & E). rewrite E. cbn [mbind res_bind].
  rewrite (modifies_commutes x y f st Hf Hk Hn).
  destruct (member_step st y); cbn [mbind res_bind fmap res_fmap]; [by rewrite E|done..].
Qed.
Lemma members_swap st x y m :
  naming x && naming y = false → x.1 ≠ y.1 →
  is_negate x && negating y = false → is_negate y && negating x = false →
  members st (x :: y :: m) = members st (y :: x :: m).
Proof.
  intros HN Hk H1 H2.
  assert (HC : (st ← member_step st x; member_step st y) = (st ← member_step st y; member_step st x)).
  { destruct (naming x) eqn:Hx; [|by apply modifier_commutes].
    symmetry. by apply modifier_commutes. }
  change (members st (x :: y :: m)) with (st' ← member_step st x; st'' ← member_step st' y; members st'' m).
  change (members st (y :: x :: m)) with (st' ← member_step st y; st'' ← member_step st' x; members st'' m).
  trans (st'' ← (st' ← member_step st x; member_step st' y); members st'' m).
  - by destruct (member_step st x).
  - rewrite HC. by destruct (member_step st y).
Qed.

Lemma filter_length_perm {A} (f : A → bool) l l' :
  l ≡ₚ l' → length (List.filter f l) = length (List.filter f l').
Proof. intros H. induction H; simpl; repeat case_match; simpl; congruence. Qed.
Lemma existsb_perm {A} (f : A → bool) l l' : l ≡ₚ l' → existsb f l = existsb f l'.
Proof.
  intros H. induction H; simpl; [done|by f_equal| |congruence].
  by rewrite !orb_assoc, (orb_comm (f y)).
Qed.
Lemma unambiguous_perm m m' : m ≡ₚ m' → unambiguous m = unambiguous m'.
Proof.
  intros H. unfold unambiguous.
  by rewrite (filter_length_perm _ _ _ H), !(existsb_perm _ _ _ H).
Qed.
Lemma unambiguous_tail x m : unambiguous (x :: m) = true → unambiguous m = true.
Proof.
  unfold unambiguous. simpl. rewrite !andb_true_iff, !Nat.leb_le, !negb_true_iff, !andb_false_iff,
    !orb_false_iff. intros [H1 H2]. split; [destruct (naming x); simpl in H1; lia|tauto].
Qed.
Lemma unambiguous_pair x y m : unambiguous (x :: y :: m) = true →
  naming x && naming y = false ∧ is_negate x && negating y = false ∧ is_negate y && negating x = false.
Proof.
  unfold unambiguous. simpl.
  destruct (naming x), (naming y), (is_negate x), (is_negate y), (negating x), (negating y); simpl;
    rewrite ?andb_true_iff; try done; by intros [? ?].
Qed.

(** When at most one member of an object names a field or an operator, and [$NE] does not meet [negate], the
    query does not depend on the order in which the range over the object visits the members. *)
Theorem parseMap_any_order m m' q
    (Hm : m ≡ₚ m') (Hkeys : NoDup (m.*1)) (Hone : unambiguous m = true) :
  parseMap m q = parseMap m' q.
Proof.
  rewrite !parseMap_members. f_equal. generalize (false, q) as st.
  induction Hm as [|x m m' Hm IH|x y m|m m1 m2 H1 IH1 H2 IH2]; intros st.
  - done.
  - simpl. apply unambiguous_tail in Hone. apply NoDup_cons in Hkeys as [_ Hkeys].
    destruct (member_step st x); simpl; [by apply IH|done..].
  - apply unambiguous_pair in Hone as (HN & Hx & Hy).
    apply members_swap; try done. simpl in Hkeys. apply NoDup_cons in Hkeys as [Hk _]. set_solver.
  - rewrite IH1 by done. apply IH2; [by rewrite <- H1|by rewrite <- (unambiguous_perm _ _ H1)].
Qed.

(** Otherwise the member visited last decides: an object that names two fields keeps one of them, whichever
    comes last in the range. *)
Theorem parseMap_last_name_wins m k s q q' (Hm : parseMap m q = Ok q') :
  ∃ q'', parseMap (m ++ [(k, VString s)]) q = Ok q'' ∧ Name q'' = k ∧ Value q'' = Some s.
Proof.
  revert Hm. rewrite !parseMap_members, members_app.
  destruct (members (false, q) m) as [[cs q1]|?|?]; [|done..]. intros [= <-]. simpl.
  eexists. split; [done|]. by destruct (_ && _).
Qed.

(** ** Operators without members *)

Lemma empty_operator ks op v b s o c :
  isOperator op = true → generateExpression ks (MkQuery op v b s [] o c) = Ok None.
Proof. by intros [->| ->]%isOperator_cases. Qed.

Definition is_nil (e : option Expression) : bool :=
  match e with None => true | Some _ => false end.
Lemma combine_all_panic op e es :
  is_panic (combine_all op (Some e) es) = existsb is_nil es.
Proof. revert e. induction es as [|[x|] es IH]; intros e; simpl; [done|apply IH|done]. Qed.

(** An operator panics exactly when a member after the first expression is an operator without members: the
    nil expression it stands for is handed to [criteria.And] or [criteria.Or]. *)
Theorem nil_operand_panics ks q e es
    (Hop : isOperator (Name q) = true)
    (Hes : mapM (child_expression ks (Name q)) (Children q) = Ok (Some e :: es)) :
  is_panic (generateExpression ks q) = existsb is_nil es.
Proof.
  rewrite generateExpression_eq, Hop, (isOperator_not_OPTS _ Hop). simpl. rewrite Hes. simpl.
  apply isOperator_cases in Hop as [->| ->]; unfold join_expressions;
    cbn [String.eqb OR AND Ascii.eqb Bool.eqb combine_all combine mbind res_bind];
    apply combine_all_panic.
Qed.

(** ** Filters on plain fields compile *)

Definition list_field (f : string) : bool :=
  bool_decide (f ∈ [SystemAssignees; SystemLabels; SystemBoardcolumns; SystemBoard]).
Definition plain_leaf (q : Query) : bool :=
  match searchKeyMap !! Name q with
  | None => false
  | Some f =>
      match Value q with
      | None => negb (Negate q)
      | Some v =>
          if Negate q then true
          else if is_Substring q then negb (list_field f)
          else if is_Child q
          then (String.eqb f SystemIteration || String.eqb f SystemArea) && negb (Contains v "'")
          else true
      end
  end.
Fixpoint admissible (q : Query) : bool :=
  match q with
  | MkQuery name _ _ _ children _ _ =>
      if isOperator name
      then negb (bool_decide (children = [])) && forallb admissible children
      else bool_decide (children = []) && plain_leaf q
  end.

(** The column or JSON key of a field that no join handles. *)
Definition plain_name (f : string) : string :=
  match fieldMap f with
  | Some m => Column work_items m
  | None => if Contains f "." || Contains f "_" then f else Column work_items f
  end.
Definition unjoined (f : string) : bool := forallb (λ p, negb (HasPrefix f p.2)) default_prefixes.
Definition plain_field (f : string) : bool :=
  unjoined f && unjoined (plain_name f) && negb (Contains f dquote) && negb (Contains f "'")
  && negb (Contains (plain_name f) "'").
Lemma search_keys_plain :
  forallb (λ p, unjoined p.1 && plain_field p.2) (map_to_list searchKeyMap) = true.
Proof. vm_compute. reflexivity. Qed.
Lemma searchKeyMap_plain n f :
  searchKeyMap !! n = Some f → unjoined n = true ∧ plain_field f = true.
Proof.
  intros H. pose proof search_keys_plain as HF. rewrite forallb_forall in HF.
  specialize (HF (n, f)). rewrite <- list_elem_of_In, elem_of_map_to_list in HF.
  by apply andb_prop, HF.
Qed.

Section Plain.
Context (FormatShortest : float64 → string) {HO : UuidOps} (ks : list string) (Hks : all_keys ks).

Lemma unjoined_handler js f : like js → unjoined f = true → handler ks js f = None.
Proof.
  intros Hjs Hf. destruct (handler ks js f) as [k|] eqn:E; [|done]. exfalso.
  apply handler_spec in E; [|done..]. destruct E as (j & Hj & HH). unfold HandlesFieldName in HH.
  apply existsb_exists in HH as (p & Hp & HH). apply list_elem_of_In in Hp.
  pose proof (elem_of_default_prefixes _ _ _ Hj Hp) as Hin. apply list_elem_of_In in Hin.
  unfold unjoined in Hf. rewrite forallb_forall in Hf. apply Hf in Hin. simpl in Hin.
  by rewrite HH in Hin.
Qed.
Lemma searchKey_plain n f : searchKeyMap !! n = Some f → searchKey ks n = Ok f.
Proof.
  intros H. destruct (searchKeyMap_plain n f H) as [Hn _]. unfold searchKey.
  by rewrite (unjoined_handler DefaultTableJoins n eq_refl Hn), H.
Qed.

(** A visit that gives a text and no error. *)
Definition succeeds (v : compiler → option string * compiler) : Prop :=
  ∀ c, like (joins c) → is_Some (v c).1 ∧ err (v c).2 = err c ∧ like (joins (v c).2).

Lemma binary_succeeds op l r : succeeds l → succeeds r → succeeds (visit_binary op l r).
Proof.
  intros Hl Hr c Hc. unfold visit_binary. destruct (Hl c Hc) as ([s Hs] & E1 & L1).
  destruct (l c) as [ol c1]. simpl in *. subst ol. destruct (Hr c1 L1) as ([t Ht] & E2 & L2).
  destruct (r c1) as [or c2]. simpl in *. subst or. simpl. split_and!; [by eexists|congruence|done].
Qed.
Lemma plain_field_parts f : plain_field f = true →
  unjoined f = true ∧ unjoined (plain_name f) = true ∧ Contains f dquote = false ∧
  Contains f "'" = false ∧ Contains (plain_name f) "'" = false.
Proof. unfold plain_field. rewrite !andb_true_iff, !negb_true_iff. tauto. Qed.
Lemma getFieldName_plain js f : like js → plain_field f = true →
  (getFieldName ks js f).1 = plain_name f ∧ handler ks js f = None ∧
  handler ks js (plain_name f) = None.
Proof.
  intros Hjs Hf. apply plain_field_parts in Hf as (H1 & H2 & _).
  pose proof (unjoined_handler js f Hjs H1) as E. split_and!; [|done|by apply unjoined_handler].
  unfold getFieldName, plain_name. rewrite E. destruct (fieldMap f); [done|].
  by destruct (_ || _).
Qed.
Lemma field_succeeds f : plain_field f = true → succeeds (visit_Field ks f).
Proof.
  intros Hf c Hc. unfold visit_Field.
  destruct (getFieldName_plain (joins c) f Hc Hf) as (H1 & _ & H2).
  apply plain_field_parts in Hf as (_ & _ & -> & -> & H3).
  destruct (getFieldName ks (joins c) f) as [m j]. simpl in H1. subst m. rewrite H2, H3.
  destruct j; simpl; split_and!; try done; by eexists.
Qed.
Lemma literal_succeeds b k v :
  succeeds (accept FormatShortest ks b (determineLiteralType k v)).
Proof.
  intros c Hc. unfold determineLiteralType. case_bool_decide; cbn [accept]; unfold visit_Literal;
    destruct b; simpl; split_and!; try done; by eexists.
Qed.

(** The comparison of a plain leaf. *)
Lemma leaf_succeeds q : plain_leaf q = true →
  ∃ e, comparison ks q = Ok e ∧ succeeds (accept FormatShortest ks false e).
Proof.
  unfold plain_leaf, comparison. destruct (searchKeyMap !! Name q) as [f|] eqn:Ef; [|done].
  rewrite (searchKey_plain _ _ Ef). cbn [mbind res_bind].
  apply searchKeyMap_plain in Ef as [_ Hf].
  destruct (Value q) as [v|].
  2: { intros ->%negb_true_iff. eexists. split; [done|]. intros c Hc. cbn [accept].
       unfold visit_IsNull. destruct (getFieldName ks (joins c) f) as [m []]; simpl; split_and!;
         try done; by eexists. }
  pose proof (λ b, literal_succeeds b f v) as HL. pose proof (field_succeeds f Hf) as HF.
  destruct (Negate q).
  - intros _. eexists. split; [done|]. intros c Hc. cbn [accept]. case_match.
    + pose proof (binary_succeeds ":" _ _ HF (HL true) c Hc) as ([s Hs] & E & L).
      cbn [orb]. destruct (visit_binary _ _ _ c) as [o c']. simpl in *. subst o. simpl.
      split_and!; [by eexists|done..].
    + apply binary_succeeds; [apply HF|apply HL|done].
  - destruct (is_Substring q); [|destruct (is_Child q)].
    + intros Hlf%negb_true_iff. specialize (HL false) as HLf.
      assert (HD : determineLiteralType f v = Literal (LString v)).
      { unfold determineLiteralType. unfold list_field in Hlf. by rewrite Hlf. }
      rewrite HD in *. eexists. split; [done|]. intros c Hc.
      destruct (getFieldName_plain (joins c) f Hc Hf) as (_ & Hh & _).
      cbn [accept]. unfold expressionRefersToJoinedData. rewrite Hh. case_match eqn:EB.
      * unfold visit_Substring_field. apply plain_field_parts in Hf as (_ & _ & _ & -> & _).
        rewrite orb_false_r in EB. cbn [orb] in EB |- *. rewrite EB. simpl.
        split_and!; [by eexists|done..].
      * apply binary_succeeds; [apply HF| |done].
        rewrite orb_false_r in EB. rewrite EB. exact HLf.
    + intros [Hfi Hv]%andb_prop. apply negb_true_iff in Hv. eexists. split; [done|]. intros c Hc.
      cbn [accept]. unfold visit_Child. apply plain_field_parts in Hf as (_ & _ & _ & -> & _).
      unfold determineLiteralType. rewrite bool_decide_false.
      * rewrite Hv. destruct (String.eqb_spec f SystemIteration) as [->|Hi];
          [|destruct (String.eqb_spec f SystemArea) as [->|Ha]; [|done]];
          simpl; (split_and!; [by eexists|done|by apply like_set_active]).
      * intros Hin. apply orb_prop in Hfi as [->%String.eqb_eq| ->%String.eqb_eq];
          by rewrite !elem_of_cons in Hin; destruct Hin as [|[|[|[|?%elem_of_nil]]]].
    + intros _. eexists. split; [done|]. intros c Hc.
      destruct (getFieldName_plain (joins c) f Hc Hf) as (_ & Hh & _).
      cbn [accept]. unfold expressionRefersToJoinedData. rewrite Hh.
      apply binary_succeeds; [apply HF|apply HL|done].
Qed.

Notation sound e := (succeeds (accept FormatShortest ks false e)).

Lemma fold_sound op l e :
  (∀ x y, sound x → sound y → sound (op x y)) → sound e → Forall (λ x, sound x) l →
  sound (fold_left op l e).
Proof. intros Hop He HF. revert e He. induction HF; intros e He; simpl; auto. Qed.
Lemma And_sound l r : sound l → sound r → sound (And l r).
Proof. intros Hl Hr. exact (binary_succeeds "AND" _ _ Hl Hr). Qed.
Lemma Or_sound l r : sound l → sound r → sound (Or l r).
Proof. intros Hl Hr. exact (binary_succeeds "OR" _ _ Hl Hr). Qed.

Lemma children_sound name children :
  isOperator name = true → Forall (λ c, admissible c = true → ∃ e,
    generateExpression ks c = Ok (Some e) ∧ sound e) children →
  forallb admissible children = true →
  ∃ l, mapM (child_expression ks name) children = Ok (map Some l) ∧ Forall (λ e, sound e) l.
Proof.
  intros Hn HF. induction HF as [|c children Hc HF IH]; intros HW; [by exists []|].
  simpl in HW. apply andb_prop in HW as [Hwc HW]. destruct (IH HW) as (l & El & Hl).
  assert (Hce : ∃ e, child_expression ks name c = Ok (Some e) ∧ sound e).
  { unfold child_expression. rewrite (isOperator_not_OPTS name Hn), orb_false_r.
    destruct (isOperator (Name c)) eqn:Eo; [by apply Hc|].
    destruct c as [n v b s cs o d]. cbn [Name] in Eo. cbn [admissible] in Hwc. rewrite Eo in Hwc.
    apply andb_prop in Hwc as [_ Hok]. destruct (leaf_succeeds _ Hok) as (e & -> & He).
    by exists e. }
  destruct Hce as (e & Ee & He). exists (e :: l). simpl. rewrite Ee. simpl. rewrite El.
  split; [done|by constructor].
Qed.
Lemma admissible_sound q : admissible q = true →
  ∃ e, generateExpression ks q = Ok (Some e) ∧ sound e.
Proof.
  induction q as [name v b s children o c IH] using Query_ind'. intros Hq.
  rewrite generateExpression_eq. cbn [Name Children]. cbn [admissible] in Hq.
  destruct (isOperator name) eqn:Eo; cbn [negb orb].
  - apply andb_prop in Hq as [Hne HW]. rewrite (isOperator_not_OPTS name Eo). cbn [mbind res_bind].
    destruct (children_sound name children Eo IH HW) as (l & El & Hl). rewrite El.
    destruct l as [|e l].
    { destruct children as [|x children]; [done|]. simpl in El.
      destruct (child_expression ks name x); [|done..]. simpl in El.
      by destruct (mapM _ children). }
    apply Forall_cons in Hl as [He Hl].
    apply isOperator_cases in Eo as [->| ->]; unfold join_expressions;
      cbn [String.eqb OR AND Ascii.eqb Bool.eqb mbind res_bind map app]; rewrite combine_all_cons;
      (eexists; split; [done|]); apply fold_sound; auto using And_sound, Or_sound.
  - apply andb_prop in Hq as [Hnil Hok]. apply bool_decide_eq_true in Hnil as ->.
    destruct (leaf_succeeds _ Hok) as (e & -> & He). exists e. split; [|done]. simpl.
    unfold join_expressions. unfold isOperator in Eo. by apply orb_false_iff in Eo as [-> ->].
Qed.

(** A filter on fields that need no join, whose operators have members, is turned into an expression that
    compiles to a where clause without errors, in any order of the ranges; a filter on [child] relations must
    name an iteration or area and hold no quote. *)
Theorem filter_compiles ks' ks'' q (Hks' : all_keys ks') (Hks'' : ks'' ≡ₚ ks')
    (Hq : admissible q = true) :
  ∃ e, generateExpression ks q = Ok (Some e) ∧
    errors (Compile FormatShortest ks ks' ks'' e) = [].
Proof.
  destruct (admissible_sound q Hq) as (e & He & Hs). exists e. split; [done|].
  destruct (Hs newExpressionCompiler eq_refl) as ([t Ht] & HE & HL). unfold Compile.
  destruct (accept FormatShortest ks false e newExpressionCompiler) as [o s]. simpl in *. subst o.
  destruct (default_order ks' ks'' (joins s)) as (out & js & -> & HG & _); [done..|]. exact HE.
Qed.
End Plain.

(** ** Search strings *)

(** A special character of the search syntax stands behind a backslash. *)
Definition special (c : ascii) : bool := bool_decide (c ∈ [":"%char; "("%char; ")"%char]).
Fixpoint guarded (prev : ascii) (l : list ascii) : bool :=
  match l with
  | [] => true
  | c :: l => (negb (special c) || Ascii.eqb prev "\"%char) && guarded c l
  end.
Lemma last_cons_default {A} (x p : A) l : List.last (x :: l) p = List.last l x.
Proof.
  revert x p. induction l as [|y l IH]; intros x p; [done|].
  change (List.last (y :: l) p = List.last (y :: l) x). by rewrite !IH.
Qed.
Lemma guarded_app p l k : guarded p (l ++ k) = guarded p l && guarded (List.last l p) k.
Proof.
  revert p. induction l as [|c l IH]; intros p; [done|].
  rewrite last_cons_default. simpl. by rewrite IH, andb_assoc.
Qed.
(** Of a URL the escaped form holds no quote, and every colon and parenthesis of it stands behind a backslash;
    without its backslashes it is the URL without backslashes, protocol and quotes. *)
Theorem sanitizeURL_guarded url :
  let out := chars (sanitizeURL url) in
  guarded " " out = true ∧ "'"%char ∉ out ∧
  List.filter (λ c, negb (Ascii.eqb c "\"%char)) out =
  List.filter (λ c, negb (Ascii.eqb c "\"%char) && negb (Ascii.eqb c "'"%char))
    (chars (trimProtocolFromURLString url)).
Proof.
  unfold sanitizeURL, escapeCharFromURLString. rewrite chars_of_chars.
  generalize (chars (trimProtocolFromURLString url)) as l. intros l. cbn zeta.
  assert (H : ∀ p, guarded p (List.concat (map escape_char l)) = true).
  { induction l as [|c l IH]; intros p; [done|]. simpl. rewrite guarded_app, IH, andb_true_r.
    unfold escape_char. case_bool_decide as Hc.
    - cbn [guarded]. change (Ascii.eqb "\" "\") with true. change (special "\") with false.
      by rewrite orb_true_r.
    - case_bool_decide; [done|]. simpl. unfold special. by rewrite bool_decide_false. }
  split_and!; [apply H| |]; clear H; induction l as [|c l IH]; simpl; try done; try set_solver.
  - intros [Hc|Hc]%elem_of_app; [|done]. unfold escape_char in Hc.
    repeat case_bool_decide; set_solver.
  - rewrite List.filter_app, IH. unfold escape_char. case_bool_decide as Hc.
    + rewrite !elem_of_cons in Hc. by destruct Hc as [->|[->|[->|[]%elem_of_nil]]].
    + case_bool_decide as Hq; [by subst c|]. simpl. destruct (Ascii.eqb_spec c "'"); [done|].
      by destruct (Ascii.eqb c "\").
Qed.

Section Keywords.
Context {HO : UuidOps} (IsURL : string → bool) (order : list string) (known : registry).

(** A pattern that matches best: its match is longest, and not empty. *)
Definition matches (url name : string) : nat :=
  match known !! name with Some k => length (FindStringSubmatch k url) | None => 0 end.
Definition best_match (url : string) (l : list string) (b : nat * string) : nat * string :=
  fold_left (λ b name, match known !! name with
    | Some k => let match_ := FindStringSubmatch k url in
                if Nat.ltb b.1 (length match_) then (length match_, name) else b
    | None => b
    end) l b.
Lemma best_match_spec url l b :
  let r := best_match url l b in
  (b.1 ≤ r.1)%nat ∧ (∀ n, n ∈ l → (matches url n ≤ r.1)%nat) ∧
  (r = b ∨ r.2 ∈ l ∧ matches url r.2 = r.1 ∧ (b.1 < r.1)%nat).
Proof.
  unfold best_match. revert b. induction l as [|n l IH]; intros b; simpl.
  { split_and!; [lia|set_solver|by left]. }
  set (b' := match known !! n with Some _ => _ | None => _ end).
  assert (Hb : (b.1 ≤ b'.1)%nat ∧ (matches url n ≤ b'.1)%nat ∧
               (b' = b ∨ b'.2 = n ∧ matches url n = b'.1 ∧ (b.1 < b'.1)%nat)).
  { unfold b', matches. destruct (known !! n) as [k|]; [|split_and!; [lia|lia|by left]].
    destruct (Nat.ltb_spec b.1 (length (FindStringSubmatch k url))); simpl;
      (split_and!; [lia|lia|]); [by right|by left]. }
  destruct Hb as (H1 & H2 & H3). specialize (IH b'). cbn zeta in IH.
  destruct IH as (I1 & I2 & I3). split_and!; [lia| |].
  - intros m [->|Hm]%elem_of_cons; [lia|by apply I2].
  - destruct I3 as [E|(Hin & Hm & Hlt)]; [rewrite E|].
    + destruct H3 as [->|(Hn & Hm & Hlt)]; [by left|]. right. rewrite Hn. split_and!; [by left|done|done].
    + right. split_and!; [by right|done|lia].
Qed.

(** When the range visits the registered names and none of them is empty, a URL is known exactly when one of the
    patterns matches it, the name found is that of a pattern with the most groups, and the query of a URL never
    indexes an empty match. *)
Theorem isKnownURL_spec url
    (Horder : ∀ n, n ∈ order ↔ is_Some (known !! n)) (Hname : known !! "" = None) :
  match isKnownURL order known url with
  | Some n => is_Some (known !! n) ∧ (0 < matches url n)%nat ∧
              ∀ m, (matches url m ≤ matches url n)%nat
  | None => ∀ m, matches url m = 0%nat
  end ∧ is_ok (getSearchQueryFromURLString order known url) = true.
Proof.
  assert (HI : match isKnownURL order known url with
    | Some n => is_Some (known !! n) ∧ (0 < matches url n)%nat ∧
                ∀ m, (matches url m ≤ matches url n)%nat
    | None => ∀ m, matches url m = 0%nat end).
  { unfold isKnownURL. pose proof (best_match_spec url order (0%nat, "")) as HB.
    unfold best_match in HB. cbn zeta in HB. simpl in HB.
    destruct (fold_left _ order (0%nat, "")) as [c n]. simpl in *.
    destruct HB as (_ & Hmax & Hn).
    assert (Hm : ∀ m, (matches url m ≤ c)%nat).
    { intros m. destruct (known !! m) as [k|] eqn:E.
      - apply Hmax. apply Horder. by eexists.
      - unfold matches. rewrite E. lia. }
    destruct Hn as [[= -> ->]|(Hin & Hc & Hlt)]; simpl.
    - intros m. specialize (Hm m). lia.
    - apply Horder in Hin. destruct (String.eqb_spec n "") as [->|_].
      { rewrite Hname in Hin. by destruct Hin. }
      subst c. split_and!; [done|lia|done]. }
  split; [done|]. unfold getSearchQueryFromURLString.
  destruct (isKnownURL order known url) as [n|]; [|done]. destruct HI as ([k Hk] & Hpos & _).
  unfold getSearchQueryFromURLPattern. unfold matches in Hpos. rewrite Hk in *.
  by destruct (FindStringSubmatch k url) as [|m0 [|m1 rest]]; [simpl in Hpos; lia|..].
Qed.

Definition keyword_count (k : searchKeyword) : nat :=
  length (workItemTypes k) + length (number k) + length (words k).
Lemma add_part_count part k k' :
  add_part IsURL order known part k = Ok k' → keyword_count k' = S (keyword_count k).
Proof.
  unfold add_part, keyword_count.
  destruct (HasPrefix _ "number:"); [intros [= <-]; simpl; rewrite length_app; simpl; lia|].
  destruct (HasPrefix _ "type:").
  - destruct (String.eqb _ ""); [done|]. destruct (uuid_FromString _); [|done].
    intros [= <-]. simpl. rewrite length_app. simpl. lia.
  - destruct (IsURL _).
    + destruct (getSearchQueryFromURLString _ _ _); [|done..]. intros [= <-]. simpl.
      rewrite length_app. simpl. lia.
    + intros [= <-]. simpl. rewrite length_app. simpl. lia.
Qed.
(** Every white-space separated part of a search string that is accepted becomes exactly one keyword: a type, a
    number or a word. *)
Theorem parseSearchString_accounts raw k
    (Hk : parseSearchString IsURL order known raw = Ok k) :
  keyword_count k = length (Fields (trim_func (is_char (ascii_of_nat 34))
                                      (trim_func (is_char "/") raw))).
Proof.
  revert Hk. unfold parseSearchString. generalize (Fields
    (trim_func (is_char (ascii_of_nat 34)) (trim_func (is_char "/") raw))) as parts.
  intros parts. change (length parts) with (keyword_count
    {| workItemTypes := []; number := []; words := [] |} + length parts)%nat.
  generalize {| workItemTypes := []; number := []; words := [] |} as k0.
  induction parts as [|p parts IH]; intros k0; simpl.
  - intros [= <-]. lia.
  - destruct (add_part _ _ _ p k0) as [k1|?|?] eqn:E; [|done..]. simpl. intros H.
    rewrite (IH k1 H), (add_part_count _ _ _ E). lia.
Qed.

(** A part with a malformed escape is searched as the empty word, whatever it holds. *)
Theorem malformed_part_is_lost part k
    (Hpart : query_unescape (chars part) = None) (Hempty : IsURL "" = false) :
  add_part IsURL order known part k =
  Ok {| workItemTypes := workItemTypes k; number := number k; words := words k ++ [":*"] |}.
Proof. unfold add_part, QueryUnescape. rewrite Hpart. cbn. by rewrite Hempty. Qed.
End Keywords.

(** ** Concrete filters and searches *)

#[local] Transparent DefaultTableJoins.
Definition leaf (name v : string) : Query := MkQuery name (Some v) false false [] None false.
Definition node (op : string) (l : list Query) : Query := MkQuery op None false false l None false.
(** [{"$AND": [{"space": "A"}, {"$OR": [{"state": "open"}, {"state": "new"}]}]}] *)
Definition open_or_new : Query :=
  node AND [leaf "space" "A"; node OR [leaf "state" "open"; leaf "state" "new"]].

(** Not assigned to bob, with a part of the title. *)
Definition not_bob : Query :=
  node AND [open_or_new; MkQuery "assignee" (Some "bob") true false [] None false;
            MkQuery "title" (Some "crash") false true [] None false; MkQuery "label" None false false [] None false].
Definition an_item (state : string) : item_view :=
  {| values f := if String.eqb f "SpaceID" then ["A"] else if String.eqb f SystemState then [state]
                 else if String.eqb f SystemAssignees then ["ann"; "eve"] else if String.eqb f SystemTitle then ["crash on start"] else [];
     within _ x v := HasPrefix x v; under _ _ _ := false |}.
Lemma generateExpression_means_witness :
  ∃ e, generateExpression default_keys not_bob = Ok (Some e) ∧ eval (compares (an_item "new")) e = true ∧
    eval (compares (an_item "closed")) e = false.
Proof.
  destruct (generateExpression_means default_keys not_bob) as (e & He & HI); [by vm_compute|].
  exists e. split; [exact He|]. split; rewrite HI; vm_compute; reflexivity.
Defined.
Lemma IN_means_witness :
  match (ParseFilterString default_keys
           [("state", VMap [(IN, VSlice [VString "open"; VString "new"])])]).1 with
  | Ok (Some e) => ∀ ev, eval ev e =
      ev (Equals (Field SystemState) (Literal (LString "open")))
      || (ev (Equals (Field SystemState) (Literal (LString "new"))) || false)
  | _ => False
  end.
Proof.
  pose proof (IN_means default_keys "state" [(IN, VSlice (map VString ["open"; "new"]))]
    ["open"; "new"] SystemState) as H.
  specialize (H ltac:(done) eq_refl ltac:(by vm_compute) eq_refl). cbn [map] in H.
  destruct (ParseFilterString _ _).1 as [[e|]|?|?]; [|done..]. destruct H as [_ H].
  intros ev. rewrite H. reflexivity.
Defined.
Lemma parseMap_any_order_witness :
  parseMap [("iteration", VString "A"); ("child", VBool false); ("negate", VBool true)] empty_Query
  = parseMap [("negate", VBool true); ("child", VBool false); ("iteration", VString "A")] empty_Query.
Proof.
  apply parseMap_any_order; [|by apply (bool_decide_unpack _)|by vm_compute].
  etrans; [apply Permutation_swap|]. etrans; [|apply Permutation_swap].
  apply Permutation_skip, Permutation_swap.
Defined.
(** The same object in two orders of the range: two filters. *)
Lemma parseMap_last_name_wins_witness :
  (∃ q, parseMap ([("space", VString "A")] ++ [("state", VString "open")]) empty_Query = Ok q ∧
        Name q = "state" ∧ Value q = Some "open") ∧
  ∃ q, parseMap ([("state", VString "open")] ++ [("space", VString "A")]) empty_Query = Ok q ∧
       Name q = "space" ∧ Value q = Some "A".
Proof. split; eapply parseMap_last_name_wins; by vm_compute. Defined.
Lemma nil_operand_panics_witness :
  is_panic (generateExpression default_keys (node AND [leaf "space" "A"; node OR []])) = true.
Proof.
  rewrite (nil_operand_panics default_keys _ (Equals (Field "SpaceID") (Literal (LString "A"))) [None]);
    [done..|by vm_compute].
Defined.
Lemma filter_compiles_witness :
  ∃ e, generateExpression default_keys open_or_new = Ok (Some e) ∧
    errors (Compile no_floats default_keys default_keys default_keys e) = [].
Proof. apply filter_compiles; [apply default_keys_all..|done|by vm_compute]. Defined.

(** A registered URL whose pattern has one group, for the page of a work item. *)
Definition detail_page : KnownURL := {|
  URLRegex := "openshift.io/(?P<id>\d*)";
  FindStringSubmatch := λ url,
    if HasPrefix url "openshift.io/" then [url; TrimPrefix url "openshift.io/"] else [];
  groupNamesInRegex := [""; "id"] |}.
Lemma isKnownURL_spec_witness :
  getSearchQueryFromURLString ["details"] {["details" := detail_page]} "openshift.io/42"
  = Ok "(42:*A | 42:*)" ∧
  is_ok (getSearchQueryFromURLString ["details"] {["details" := detail_page]} "openshift.io/42") = true.
Proof.
  split; [by vm_compute|].
  apply (isKnownURL_spec ["details"] {["details" := detail_page]} "openshift.io/42"); [|done].
  intros n. rewrite list_elem_of_singleton. split.
  - intros ->. by eexists.
  - intros [k [<- _]%lookup_singleton_Some]. done.
Defined.
Lemma parseSearchString_accounts_witness :
  ∃ k, parseSearchString (HO := HexUuidOps) (λ _, false) [] ∅ "number:42 Crash report/" = Ok k ∧
    keyword_count k = 3%nat ∧ words k = ["crash:*"; "report:*"].
Proof.
  eexists. split; [by vm_compute|]. split; [|done].
  rewrite (parseSearchString_accounts (HO := HexUuidOps) (λ _, false) [] ∅ "number:42 Crash report/");
    [by vm_compute|by vm_compute].
Defined.
Lemma malformed_part_is_lost_witness :
  add_part (HO := HexUuidOps) (λ _, false) [] ∅ "100%" {| workItemTypes := []; number := []; words := [] |}
  = Ok {| workItemTypes := []; number := []; words := [":*"] |}.
Proof. by apply malformed_part_is_lost. Defined.
