(* ===== verification/Tables.v ===== *)
(** * Tables with soft deletion

    What the repositories of the smaller entities share: rows with a lifecycle,
    the constraints of their table, the statements gorm makes of [First],
    [Find], [Create], [Save] and [Delete], and [gormsupport/postgres.go] and
    [application/repository] on top.  A query is its result on the rows in the
    order they were stored. *)

From Stdlib Require Import ZArith Lia Ascii String.
From S2P Require Export Links.

(** ** Rows *)

Class Row (A : Type) := {
  row_ID : A → uuid;
  row_life : A → Lifecycle;
  with_life : Lifecycle → A → A;
}.
Class RowLaws (A : Type) `{Row A} := {
  with_life_ID : ∀ lc a, row_ID (with_life lc a) = row_ID a;
  with_life_life : ∀ lc a, row_life (with_life lc a) = lc;
}.

(** ** Violated constraints, as the driver reports them *)

Inductive violation :=
  | ViolatesCheck (constraint : string)
  | ViolatesUnique (index : string)
  | ViolatesForeignKey (constraint : string).
Definition IsCheckViolation (v : violation) (constraintName : string) : bool :=
  match v with ViolatesCheck n => String.eqb n constraintName | _ => false end.
Definition IsUniqueViolation (v : violation) (indexName : string) : bool :=
  match v with ViolatesUnique n => String.eqb n indexName | _ => false end.
Definition IsForeignKeyViolation (v : violation) (indexName : string) : bool :=
  match v with ViolatesForeignKey n => String.eqb n indexName | _ => false end.
Definition driver_error (v : violation) : error :=
  Plain match v with
        | ViolatesCheck n => "pq: new row violates check constraint " +:+ n
        | ViolatesUnique n => "pq: duplicate key value violates unique constraint " +:+ n
        | ViolatesForeignKey n => "pq: insert or update violates foreign key constraint " +:+ n
        end.

Section Tables.
Context {A : Type} `{HR : Row A}.

Definition row_live (a : A) : bool := live (row_life a).
Definition has_ID (id : uuid) (a : A) : bool := bool_decide (row_ID a = id).

(** A constraint holds of a row and the other rows, or names what it reports. *)
Record constraint := { reported : violation; violated : A → list A → bool }.
Definition check (name : string) (p : A → bool) : constraint :=
  {| reported := ViolatesCheck name; violated := λ a _, negb (p a) |}.
Definition primary_key (name : string) : constraint :=
  {| reported := ViolatesUnique name; violated := λ a others, existsb (has_ID (row_ID a)) others |}.
(** [CREATE UNIQUE INDEX ... WHERE deleted_at IS NULL] *)
Definition unique_index {K} `{EqDecision K} (name : string) (key : A → K) : constraint :=
  {| reported := ViolatesUnique name;
     violated := λ a others, row_live a && existsb (λ x, row_live x && bool_decide (key x = key a)) others |}.
Definition foreign_key (name : string) (refers : A → bool) : constraint :=
  {| reported := ViolatesForeignKey name; violated := λ a _, negb (refers a) |}.
Definition first_violation (cs : list constraint) (a : A) (others : list A) : option violation :=
  reported <$> List.find (λ c, violated c a others) cs.

(** ** Statements *)

(** [Find] *)
Definition t_where (p : A → bool) (t : list A) : list A := List.filter (λ a, row_live a && p a) t.
(** [First]: ordered by the primary key *)
Definition ID_le (a b : A) : Prop := (uuid_bits (row_ID a) ≤ uuid_bits (row_ID b))%N.
#[export] Instance ID_le_dec a b : Decision (ID_le a b).
Proof. unfold ID_le. apply _. Defined.
Definition t_first (p : A → bool) (t : list A) : option A := head (merge_sort ID_le (t_where p t)).

Definition stamped (now : Time) : Lifecycle := {| CreatedAt := now; UpdatedAt := now; DeletedAt := None |}.
(** [Create]; the timestamps and the deletion mark of the value are blank. *)
Definition t_insert (cs : list constraint) (now : Time) (a : A) (t : list A) : violation + A * list A :=
  let a := with_life (stamped now) a in
  match first_violation cs a t with
  | Some v => inl v
  | None => inr (a, t ++ [a])
  end.
(** [Where(cond).Save(&a)] of a value whose primary key is set: all columns of the live row. *)
Definition hit (cond : A → bool) (a x : A) : bool := row_live x && has_ID (row_ID a) x && cond x.
Definition t_update (cs : list constraint) (now : Time) (cond : A → bool) (a : A) (t : list A)
    : violation + A * nat * list A :=
  let a := with_life {| CreatedAt := CreatedAt (row_life a); UpdatedAt := now;
                        DeletedAt := DeletedAt (row_life a) |} a in
  let n := length (List.filter (hit cond a) t) in
  if Nat.eqb n 0 then inr (a, O, t)
  else match first_violation cs a (List.filter (λ x, negb (hit cond a x)) t) with
       | Some v => inl v
       | None => inr (a, n, map (λ x, if hit cond a x then a else x) t)
       end.
(** [Delete] with the conditions [p]: rows affected, and the rows after. *)
Definition soft_delete (now : Time) (a : A) : A :=
  with_life {| CreatedAt := CreatedAt (row_life a); UpdatedAt := UpdatedAt (row_life a);
               DeletedAt := Some now |} a.
Definition t_delete (now : Time) (p : A → bool) (t : list A) : nat * list A :=
  (length (t_where p t), map (λ a, if row_live a && p a then soft_delete now a else a) t).
(** gorm deletes by the primary key of the value, and every row when it is blank. *)
Definition by_primary_key (id : uuid) (a : A) : bool := bool_decide (id = uuid_Nil) || has_ID id a.

(** [repository.Exists] and [repository.CheckExists] *)
Context {HO : UuidOps}.
Definition Exists (tableName : string) (t : list A) (id : string) : res bool :=
  if existsb (λ a, row_live a && String.eqb (uuid_String (row_ID a)) id) t then Ok true
  else Err (NotFoundError tableName id None).
Definition CheckExists (tableName : string) (t : list A) (id : uuid) : res unit :=
  match Exists tableName t (uuid_String id) with
  | Ok _ => Ok tt
  | Err e => Err e
  | Panic m => Panic m
  end.

(** A page of a sorted list and the total of all rows: the window function gives it with the first row of
    the page, a second query when the page has no row. *)
Definition page {B} (start limit : option Z) (l : list B) : list B :=
  let l := match start with Some s => drop (Z.to_nat s) l | None => l end in
  match limit with Some n => take (Z.to_nat n) l | None => l end.
Definition page_limits (start limit : option Z) : res unit :=
  match start with
  | Some s => if s <? 0 then Err (BadParameterError "start" (Itoa s) None None) else Ok tt
  | None => Ok tt
  end ≫= λ _,
  match limit with
  | Some n => if n <=? 0 then Err (BadParameterError "limit" (Itoa n) None None) else Ok tt
  | None => Ok tt
  end.
End Tables.
Arguments constraint : clear implicits.

(** [LIKE]: a percent sign stands for any text, an underscore for any character, a backslash quotes. *)
Fixpoint like_chars (p : list ascii) : list ascii → bool :=
  match p with
  | [] => λ l, match l with [] => true | _ => false end
  | c :: p =>
      if bool_decide (c = "%"%char) then
        fix any (l : list ascii) : bool :=
          like_chars p l || match l with [] => false | _ :: l => any l end
      else if bool_decide (c = "_"%char) then λ l, match l with [] => false | _ :: l => like_chars p l end
      else if bool_decide (c = "\"%char) then λ l,
        match p, l with
        | c :: p, x :: l => bool_decide (c = x) && like_chars p l
        | _, _ => false
        end
      else λ l, match l with x :: l => bool_decide (c = x) && like_chars p l | [] => false end
  end.
Definition like (text pattern : string) : bool := like_chars (chars pattern) (chars text).

(** ** What the statements keep *)

Lemma Forall2_map_self {A B} (P : A → B → Prop) (g : A → B) (l : list A) :
  (∀ x, x ∈ l → P x (g x)) → Forall2 P l (map g l).
Proof. induction l as [|x l IH]; intros H; constructor; [apply H; by left|apply IH; intros y Hy; apply H; by right]. Qed.

Section Facts.
Context {A : Type} {HR : Row A} {HL : RowLaws A}.

Definition ids_unique (t : list A) : Prop := NoDup (map row_ID t).
Definition unique_on {K} (key : A → K) (t : list A) : Prop :=
  ∀ x y, x ∈ t → y ∈ t → row_live x = true → row_live y = true → key x = key y → row_ID x = row_ID y.

Lemma has_ID_true id (a : A) : has_ID id a = true ↔ row_ID a = id.
Proof. unfold has_ID. apply bool_decide_eq_true. Qed.
Lemma ids_unique_eq (t : list A) x y : ids_unique t → x ∈ t → y ∈ t → row_ID x = row_ID y → x = y.
Proof.
  unfold ids_unique. induction t as [|z t IH]; [by intros _ ?%elem_of_nil|].
  cbn [map]. intros [Hz Hn]%NoDup_cons.
  assert (Hin : ∀ u, u ∈ t → row_ID u ≠ row_ID z).
  { intros u Hu E. apply Hz. rewrite <- E. rewrite list_elem_of_In, in_map_iff. exists u.
    by rewrite <- list_elem_of_In. }
  intros [->|Hx]%elem_of_cons [->|Hy]%elem_of_cons E; try done.
  - exfalso. by apply (Hin y).
  - exfalso. by apply (Hin x).
  - by apply IH.
Qed.
Lemma elem_of_t_where p (t : list A) a : a ∈ t_where p t ↔ a ∈ t ∧ row_live a = true ∧ p a = true.
Proof. unfold t_where. rewrite list_elem_of_In, List.filter_In, andb_true_iff, <- list_elem_of_In. done. Qed.
Lemma t_first_some p (t : list A) a : t_first p t = Some a → a ∈ t ∧ row_live a = true ∧ p a = true.
Proof.
  unfold t_first. intros H%head_Some_elem_of. rewrite merge_sort_Permutation in H. by apply elem_of_t_where.
Qed.
Lemma t_first_none p (t : list A) : t_first p t = None ↔ ∀ a, a ∈ t → row_live a = true → p a = false.
Proof.
  unfold t_first. split.
  - intros H%head_None a Ha Hl. apply not_true_iff_false. intros Hp.
    assert (HA : a ∈ merge_sort ID_le (t_where p t)) by (rewrite merge_sort_Permutation; by apply elem_of_t_where).
    rewrite H in HA. by apply elem_of_nil in HA.
  - intros H. apply head_None. apply Permutation_nil_r. rewrite <- (merge_sort_Permutation ID_le).
    destruct (t_where p t) as [|a l] eqn:E; [done|].
    assert (HA : a ∈ t_where p t) by (rewrite E; by left). apply elem_of_t_where in HA as (Ha & Hl & Hp).
    by rewrite H in Hp.
Qed.
(** A live row is found by its id. *)
Lemma t_first_ID (t : list A) a : ids_unique t → a ∈ t → row_live a = true → t_first (has_ID (row_ID a)) t = Some a.
Proof.
  intros Hn Ha Hl. destruct (t_first _ t) as [b|] eqn:E.
  - apply t_first_some in E as (Hb & _ & Hid). apply has_ID_true in Hid.
    f_equal. by eapply ids_unique_eq.
  - rewrite t_first_none in E. specialize (E a Ha Hl). apply not_true_iff_false in E. by rewrite has_ID_true in E.
Qed.

Lemma first_violation_none cs (a : A) others :
  first_violation cs a others = None ↔ ∀ c, c ∈ cs → violated c a others = false.
Proof.
  unfold first_violation. split.
  - intros H c Hc. destruct (List.find _ cs) eqn:E; [done|].
    eapply List.find_none in E; [exact E|]. by apply list_elem_of_In.
  - intros H. destruct (List.find _ cs) as [c|] eqn:E; [|done]. apply List.find_some in E as [Hc E].
    apply list_elem_of_In in Hc. by rewrite H in E.
Qed.
Lemma t_insert_ok cs now (a b : A) t t' : t_insert cs now a t = inr (b, t') →
  b = with_life (stamped now) a ∧ t' = t ++ [b] ∧ ∀ c, c ∈ cs → violated c b t = false.
Proof.
  unfold t_insert. destruct (first_violation _ _ _) eqn:E; [done|]. intros [= <- <-].
  by rewrite first_violation_none in E.
Qed.
Lemma t_insert_ids cs name now (a b : A) t t' : primary_key name ∈ cs →
  t_insert cs now a t = inr (b, t') → ids_unique t → ids_unique t'.
Proof.
  intros Hpk (_ & -> & HV)%t_insert_ok Hn. specialize (HV _ Hpk). cbn [violated primary_key] in HV. unfold ids_unique.
  rewrite map_app. apply NoDup_app. split_and!; [done| |apply NoDup_singleton].
  intros x Hx ->%list_elem_of_singleton. apply not_true_iff_false in HV. apply HV, existsb_exists.
  rewrite list_elem_of_In, in_map_iff in Hx. destruct Hx as (y & E & Hy). exists y. split; [done|].
  by apply has_ID_true.
Qed.
Lemma index_holds {K} `{EqDecision K} name (key : A → K) (a : A) others x :
  violated (unique_index name key) a others = false →
  row_live a = true → x ∈ others → row_live x = true → key x ≠ key a.
Proof.
  unfold unique_index. cbn [violated]. intros HV Ha Hx Hl E. apply not_true_iff_false in HV. apply HV. rewrite Ha.
  apply existsb_exists. exists x.
  rewrite Hl, bool_decide_true by done. split; [by apply list_elem_of_In|done].
Qed.
Lemma t_insert_unique {K} `{EqDecision K} cs name (key : A → K) now (a b : A) t t' :
  unique_index name key ∈ cs → t_insert cs now a t = inr (b, t') → unique_on key t → unique_on key t'.
Proof.
  intros Hix (_ & -> & HV)%t_insert_ok Hu x y Hx Hy Lx Ly E. specialize (HV _ Hix).
  rewrite elem_of_app, list_elem_of_singleton in Hx, Hy.
  destruct Hx as [Hx|Hx], Hy as [Hy|Hy].
  - by apply (Hu x y).
  - subst y. destruct (index_holds _ _ _ _ x HV); done.
  - subst x. destruct (index_holds _ _ _ _ y HV); done.
  - by subst.
Qed.

(** The row an update writes, and what it replaces. *)
Lemma t_update_ok cs now cond (a b : A) n t t' : t_update cs now cond a t = inr (b, n, t') →
  row_ID b = row_ID a ∧ DeletedAt (row_life b) = DeletedAt (row_life a) ∧ t' = map (λ x, if hit cond b x then b else x) t ∧
  (n = O ∧ t' = t ∨ (0 < n)%nat ∧ (∃ x, x ∈ t ∧ hit cond b x = true) ∧
     ∀ c, c ∈ cs → violated c b (List.filter (λ x, negb (hit cond b x)) t) = false).
Proof.
  unfold t_update. set (b0 := with_life _ a).
  assert (HID : row_ID b0 = row_ID a) by apply with_life_ID.
  assert (HD : DeletedAt (row_life b0) = DeletedAt (row_life a)) by (unfold b0; by rewrite with_life_life).
  destruct (Nat.eqb_spec (length (List.filter (hit cond b0) t)) 0) as [E|E].
  - intros [= <- <- <-]. split_and!; [done|done| |by left]. rewrite <- (map_id t) at 1. apply map_ext_in.
    intros x Hx. destruct (hit cond b0 x) eqn:Eh; [|done]. exfalso.
    assert (HF : In x (List.filter (hit cond b0) t)) by (by apply List.filter_In).
    by destruct (List.filter _ t).
  - destruct (first_violation _ _ _) eqn:EV; [done|]. intros [= <- <- <-].
    split_and!; [done..|]. right. split; [lia|]. split; [|by rewrite first_violation_none in EV].
    destruct (List.filter (hit cond b0) t) as [|x l] eqn:EF; [done|].
    exists x. rewrite list_elem_of_In, <- List.filter_In, EF. by left.
Qed.
Lemma t_update_ids cs now cond (a b : A) n t t' : t_update cs now cond a t = inr (b, n, t') → ids_unique t → ids_unique t'.
Proof.
  intros (_ & _ & -> & _)%t_update_ok Hn. unfold ids_unique. rewrite map_map, (map_ext _ row_ID); [done|].
  intros x. destruct (hit cond b x) eqn:E; [|done]. unfold hit in E. rewrite !andb_true_iff, has_ID_true in E.
  symmetry. apply E.
Qed.
Lemma elem_of_updated (t : list A) cond b x : x ∈ map (λ x, if hit cond b x then b else x) t →
  x = b ∨ x ∈ List.filter (λ x, negb (hit cond b x)) t.
Proof.
  rewrite !list_elem_of_In, in_map_iff, List.filter_In. intros (y & E & Hy).
  destruct (hit cond b y) eqn:Eh; [by left|]. right. subst. by rewrite Eh.
Qed.
Lemma t_update_unique {K} `{EqDecision K} cs name (key : A → K) now cond (a b : A) n t t' :
  unique_index name key ∈ cs → t_update cs now cond a t = inr (b, n, t') → unique_on key t → unique_on key t'.
Proof.
  intros Hix (_ & _ & -> & [[_ ->]|(_ & _ & HV)])%t_update_ok Hu; [done|]. specialize (HV _ Hix).
  intros x y Hx Hy Lx Ly E. apply elem_of_updated in Hx, Hy.
  destruct Hx as [->|Hx], Hy as [->|Hy]; [done| | |].
  - by destruct (index_holds _ _ _ _ y HV).
  - by destruct (index_holds _ _ _ _ x HV).
  - rewrite list_elem_of_In, List.filter_In, <- list_elem_of_In in Hx, Hy. destruct Hx, Hy. by apply Hu.
Qed.

Lemma soft_delete_ID now (a : A) : row_ID (soft_delete now a) = row_ID a.
Proof. apply with_life_ID. Qed.
Lemma soft_delete_dead now (a : A) : row_live (soft_delete now a) = false.
Proof. unfold row_live, soft_delete. by rewrite with_life_life. Qed.
Lemma elem_of_deleted now p (t : list A) x : x ∈ (t_delete now p t).2 →
  (x ∈ t ∧ (row_live x && p x) = false) ∨ ∃ a, x = soft_delete now a ∧ a ∈ t_where p t.
Proof.
  unfold t_delete. cbn [snd]. rewrite list_elem_of_In, in_map_iff. intros (y & E & Hy%list_elem_of_In).
  destruct (row_live y && p y) eqn:Ep.
  - right. exists y. split; [done|]. apply elem_of_t_where. apply andb_prop in Ep as [? ?].
    by split_and!.
  - left. by subst.
Qed.
Lemma t_delete_ids now p (t : list A) : ids_unique t → ids_unique (t_delete now p t).2.
Proof.
  unfold ids_unique, t_delete. cbn [snd]. intros Hn. rewrite map_map, (map_ext _ row_ID); [done|].
  intros x. destruct (_ && _); [apply soft_delete_ID|done].
Qed.
Lemma t_delete_unique {K} (key : A → K) now p (t : list A) : unique_on key t → unique_on key (t_delete now p t).2.
Proof.
  intros Hu x y Hx Hy Lx Ly E.
  apply elem_of_deleted in Hx as [[Hx _]|(a & -> & _)]; [|by rewrite soft_delete_dead in Lx].
  apply elem_of_deleted in Hy as [[Hy _]|(a & -> & _)]; [|by rewrite soft_delete_dead in Ly].
  by apply Hu.
Qed.
(** No live row that meets the condition is left. *)
Lemma t_delete_gone now p (t : list A) x : (∀ a lc, p (with_life lc a) = p a) →
  x ∈ (t_delete now p t).2 → row_live x = true → p x = false ∧ x ∈ t.
Proof.
  intros Hp Hx Hl. apply elem_of_deleted in Hx as [[Hx E]|(a & -> & _)]; [|by rewrite soft_delete_dead in Hl].
  by rewrite Hl in E.
Qed.
(** Of two updates made from the same state of a row, by a condition the first one makes false, the second hits
    no row. *)
Lemma t_update_once cs now cond (a b : A) n t t' : ids_unique t →
  t_update cs now cond a t = inr (b, S n, t') → cond b = false →
  ∀ cs' now' (a2 : A), row_ID a2 = row_ID a → ∃ b2, t_update cs' now' cond a2 t' = inr (b2, O, t').
Proof.
  intros Hn H Hb cs' now' a2 H2. pose proof (t_update_ids _ _ _ _ _ _ _ _ H Hn) as Hn'.
  apply t_update_ok in H as (HID & _ & -> & [[? _]|(_ & (x & Hx & Hhit) & _)]); [done|].
  unfold t_update. set (b2 := with_life _ a2).
  assert (E : List.filter (hit cond b2) (map (λ x, if hit cond b x then b else x) t) = []).
  { assert (HID2 : row_ID b2 = row_ID b) by (unfold b2; rewrite with_life_ID; congruence).
    assert (Hbin : b ∈ map (λ x, if hit cond b x then b else x) t).
    { rewrite list_elem_of_In, in_map_iff. exists x. rewrite Hhit. split; [done|by apply list_elem_of_In]. }
    destruct (List.filter _ _) as [|y l] eqn:E; [done|]. exfalso.
    assert (Hy : y ∈ List.filter (hit cond b2) (map (λ x, if hit cond b x then b else x) t)) by (rewrite E; by left).
    rewrite list_elem_of_In, List.filter_In, <- list_elem_of_In in Hy. destruct Hy as [Hy Hh].
    unfold hit in Hh. rewrite !andb_true_iff, has_ID_true in Hh. destruct Hh as [[_ Hyid] Hc].
    assert (y = b) as -> by (eapply ids_unique_eq; [exact Hn'|done|done|congruence]). by rewrite Hc in Hb. }
  rewrite E. simpl. by eexists.
Qed.
(** A read by id is what a table with unique ids holds. *)
Lemma t_first_ID_iff (t : list A) id a : ids_unique t →
  t_first (has_ID id) t = Some a ↔ a ∈ t ∧ row_live a = true ∧ row_ID a = id.
Proof.
  intros Hn. split.
  - intros (? & ? & ?%has_ID_true)%t_first_some. done.
  - intros (Ha & Hl & <-). by apply t_first_ID.
Qed.
End Facts.

#[export] Hint Resolve t_insert_ids t_update_ids t_delete_ids t_delete_unique : golib.
