(* ===== verification/Trees.v ===== *)
(** * Human-friendly numbers

    [numbersequence/human_friendly_number.go]: the number embedded in
    iterations and areas, with the callbacks gorm runs before an insert and
    before an update. *)

From Stdlib Require Import ZArith Lia Ascii String.
From stdpp Require Import relations.
From S2P Require Export Tables.

Record HumanFriendlyNumber := { Number : Z; hf_spaceID : uuid; hf_tableName : string }.
#[export] Instance HumanFriendlyNumber_eq_dec : EqDecision HumanFriendlyNumber.
Proof. solve_decision. Defined.

Definition NewHumanFriendlyNumber (spaceID : uuid) (tableName : string) (number : list Z)
    : HumanFriendlyNumber :=
  let n := match number with [] => 0 | n :: _ => n end in
  {| Number := n; hf_spaceID := spaceID; hf_tableName := tableName |}.
Definition HumanFriendlyNumber_Equal (n other : HumanFriendlyNumber) : bool :=
  if negb (Number n =? Number other) then false
  else if negb (bool_decide (hf_spaceID n = hf_spaceID other)) then false
  else if negb (String.eqb (hf_tableName n) (hf_tableName other)) then false
  else true.
Definition HumanFriendlyNumber_EqualValue : HumanFriendlyNumber → HumanFriendlyNumber → bool :=
  HumanFriendlyNumber_Equal.
(** What is read back from a row: the other members are no columns. *)
Definition number_column (n : HumanFriendlyNumber) : HumanFriendlyNumber :=
  {| Number := Number n; hf_spaceID := uuid_Nil; hf_tableName := "" |}.

(** The table [number_sequences], by space and table name. *)
Notation number_sequences := (gmap (uuid * string) Z).

(** The space must exist, the table name is not blank, and the column is a 32-bit integer. *)
Definition BeforeCreate (space_ids : list uuid) (n : HumanFriendlyNumber) (seqs : number_sequences)
    : res HumanFriendlyNumber * number_sequences :=
  let failed e := (Err (Wrapped "failed to obtain next val for space %q and table %q" (Plain e)), seqs) in
  let set v := (Ok {| Number := v; hf_spaceID := hf_spaceID n; hf_tableName := hf_tableName n |},
                <[(hf_spaceID n, hf_tableName n) := v]> seqs) in
  if String.eqb (TrimSpace (hf_tableName n)) "" then failed "violates check constraint"
  else match seqs !! (hf_spaceID n, hf_tableName n) with
       | Some v => if v =? 2 ^ 31 - 1 then failed "integer out of range" else set (v + 1)
       | None => if bool_decide (hf_spaceID n ∈ space_ids) then set 1
                 else failed "violates foreign key constraint"
       end.
(** The condition an update gets. *)
Definition BeforeUpdate (n stored : HumanFriendlyNumber) : bool := Number stored =? Number n.

(** A number is the successor of the last one of its space and table. *)
Lemma BeforeCreate_ok ids n seqs n' seqs' : BeforeCreate ids n seqs = (Ok n', seqs') →
  Number n' = default 0 (seqs !! (hf_spaceID n, hf_tableName n)) + 1 ∧
  hf_spaceID n' = hf_spaceID n ∧ hf_tableName n' = hf_tableName n ∧
  seqs' = <[(hf_spaceID n, hf_tableName n) := Number n']> seqs.
Proof.
  unfold BeforeCreate. destruct (String.eqb _ _); [done|].
  destruct (seqs !! _) as [v|]; [destruct (v =? _)|case_bool_decide]; intros [= <- <-]; done.
Qed.

(** * Rows that form trees

    Areas and iterations keep the ids from the root of their tree down to
    themselves.  When the tree of a table is well formed and which changes keep
    it so. *)

Class Node (A : Type) `{Row A} := {
  n_space : A → uuid;
  n_path : A → list uuid;
}.
Class NodeLaws (A : Type) `{Node A} := {
  with_life_space : ∀ lc a, n_space (with_life lc a) = n_space a;
  with_life_path : ∀ lc a, n_path (with_life lc a) = n_path a;
}.

Section Trees.
Context {A : Type} {HR : Row A} {HL : RowLaws A} {HN : Node A} {HNL : NodeLaws A}.

(** A root, or a child of a live row of the same space. *)
Definition rooted (t : list A) (a : A) : Prop :=
  n_path a = [row_ID a] ∨
  ∃ p, p ∈ t ∧ row_live p = true ∧ n_space p = n_space a ∧ n_path a = n_path p ++ [row_ID a].
Record tree (t : list A) : Prop := {
  tree_ids : ids_unique t;
  tree_rooted : ∀ a, a ∈ t → row_live a = true → rooted t a;
}.

(** [a] is a child of [p]. *)
Definition child_of (t : list A) (a p : A) : Prop :=
  a ∈ t ∧ p ∈ t ∧ row_live a = true ∧ row_live p = true ∧ n_path a = n_path p ++ [row_ID a].

Lemma path_not_nil t a : tree t → a ∈ t → row_live a = true → n_path a ≠ [] .
Proof.
  intros [_ H] Ha Hl. destruct (H a Ha Hl) as [E|(p & _ & _ & _ & E)]; rewrite E; [done|by destruct (n_path p)].
Qed.
Lemma path_last t a : tree t → a ∈ t → row_live a = true → last (n_path a) = Some (row_ID a).
Proof.
  intros [_ H] Ha Hl. destruct (H a Ha Hl) as [E|(p & _ & _ & _ & E)]; rewrite E; [done|apply last_snoc].
Qed.

(** Every id on a path is that of a live row of the space, whose path ends there. *)
Lemma path_prefix t a : tree t → a ∈ t → row_live a = true → ∀ q id r, n_path a = q ++ id :: r →
  ∃ p, p ∈ t ∧ row_live p = true ∧ n_space p = n_space a ∧ row_ID p = id ∧ n_path p = q ++ [id].
Proof.
  intros HT. remember (length (n_path a)) as n eqn:En. revert a En.
  induction n as [n IH] using lt_wf_ind. intros a -> Ha Hl q id r Hp.
  destruct (decide (r = [])) as [->|Hr].
  { exists a. split_and!; try done. pose proof (path_last t a HT Ha Hl) as HL'.
    rewrite Hp, last_snoc in HL'. by injection HL' as ->. }
  destruct (tree_rooted t HT a Ha Hl) as [E|(p & Hpin & Hpl & Hps & E)].
  - rewrite E in Hp. by destruct q as [|? [|? ?]], r; simplify_eq/=.
  - destruct r as [|x r _] using rev_ind; [done|].
    assert (Hpp : n_path p = q ++ id :: r).
    { rewrite Hp in E. replace (q ++ id :: r ++ [x]) with ((q ++ id :: r) ++ [x]) in E by (by rewrite <- app_assoc).
      by apply app_inj_tail in E as [-> _]. }
    destruct (IH (length (n_path p))) with (a := p) (q := q) (id := id) (r := r)
      as (u & Hu & Hul & Hus & Huid & Hup); try done.
    + rewrite E, length_app. simpl. lia.
    + exists u. split_and!; try done. congruence.
Qed.

(** No id occurs twice on a path: a tree has no circle. *)
Lemma path_NoDup t a : tree t → a ∈ t → row_live a = true → NoDup (n_path a).
Proof.
  intros HT Ha Hl. apply NoDup_alt. intros i j x Hi Hj.
  assert (Hup : ∀ k, n_path a !! k = Some x → ∃ p, p ∈ t ∧ row_ID p = x ∧ n_path p = take (S k) (n_path a)).
  { intros k Hk. pose proof (take_drop_middle _ _ _ Hk) as E.
    destruct (path_prefix t a HT Ha Hl (take k (n_path a)) x (drop (S k) (n_path a))) as (p & Hp & _ & _ & Hid & Hpath);
      [done|]. exists p. split_and!; [done..|]. by rewrite Hpath, (take_S_r _ _ x Hk). }
  destruct (Hup i Hi) as (p & Hp & Hpi & Epi). destruct (Hup j Hj) as (q & Hq & Hqi & Eqi).
  assert (p = q) as -> by (eapply ids_unique_eq; [apply HT|done..|congruence]).
  rewrite Epi in Eqi. apply (f_equal length) in Eqi. rewrite !length_take in Eqi.
  apply lookup_lt_Some in Hi, Hj. lia.
Qed.

(** A path with the path of [p] before its end is that of a descendant of [p], and the other way round. *)
Lemma descendant_path t a p : tree t → p ∈ t → row_live p = true → a ∈ t → row_live a = true →
  (∃ r, r ≠ [] ∧ n_path a = n_path p ++ r) ↔ tc (child_of t) a p.
Proof.
  intros HT Hp Hpl Ha Hl. split.
  - intros (r & Hr & E). remember (length r) as n eqn:En. revert a r Hr En E Ha Hl.
    induction n as [n IH] using lt_wf_ind. intros a r Hr -> E Ha Hl.
    destruct (tree_rooted t HT a Ha Hl) as [E'|(u & Hu & Hul & Hus & E')].
    { exfalso. rewrite E' in E. apply (f_equal length) in E. rewrite length_app in E. simpl in E.
      pose proof (path_not_nil t p HT Hp Hpl). destruct (n_path p), r; simpl in E; done || lia. }
    destruct r as [|x r _] using rev_ind; [done|].
    assert (Hup : n_path u = n_path p ++ r).
    { rewrite E, app_assoc in E'. by apply app_inj_tail in E' as [-> _]. }
    destruct (decide (r = [])) as [->|Hr'].
    + rewrite app_nil_r in Hup. constructor. split_and!; try done. by rewrite E', Hup.
    + eapply tc_l; [split_and!; [exact Ha|exact Hu|done|done|exact E']|].
      eapply (IH (length r)) with (r := r); try done. rewrite length_app. simpl. lia.
  - intros H. clear Ha Hl. induction H as [a b (_ & _ & _ & _ & E)|a b c (_ & _ & _ & _ & E) _ IH].
    + by exists [row_ID a].
    + destruct IH as (r & Hr & Er); [done..|]. exists (r ++ [row_ID a]). split; [by destruct r|].
      by rewrite E, Er, app_assoc.
Qed.

(** ** Changes that keep the tree *)

Lemma rooted_mono (t t' : list A) a :
  (∀ p, p ∈ t → row_live p = true → ∃ p', p' ∈ t' ∧ row_live p' = true ∧ n_space p' = n_space p ∧ n_path p' = n_path p) →
  rooted t a → rooted t' a.
Proof.
  intros H [E|(p & Hp & Hpl & Hs & E)]; [by left|]. right. destruct (H p Hp Hpl) as (p' & ? & ? & ? & Ep).
  exists p'. split_and!; [done|done|congruence|by rewrite Ep].
Qed.
Lemma tree_add t a : tree t → (∀ x, x ∈ t → row_ID x ≠ row_ID a) → rooted t a → tree (t ++ [a]).
Proof.
  intros HT Hf Hr. assert (Hm : ∀ x, rooted t x → rooted (t ++ [a]) x).
  { intros x. apply rooted_mono. intros p Hp Hpl. exists p. set_solver. }
  split.
  - unfold ids_unique. rewrite map_app. apply NoDup_app. split_and!; [apply HT| |apply NoDup_singleton].
    intros x Hx ->%list_elem_of_singleton. rewrite list_elem_of_In, in_map_iff in Hx.
    destruct Hx as (y & E & Hy%list_elem_of_In). by apply (Hf y).
  - intros x [Hx| ->%list_elem_of_singleton]%elem_of_app Hl; [|by apply Hm]. by apply Hm, HT.
Qed.
(** The live rows may change otherwise as long as their ids, spaces and paths stay. *)
Lemma tree_same_paths t t' : tree t → map row_ID t' = map row_ID t →
  (∀ a, a ∈ t' → row_live a = true → ∃ b, b ∈ t ∧ row_live b = true ∧ row_ID b = row_ID a ∧ n_space b = n_space a ∧ n_path b = n_path a) →
  (∀ b, b ∈ t → row_live b = true → ∃ a, a ∈ t' ∧ row_live a = true ∧ n_space a = n_space b ∧ n_path a = n_path b) →
  tree t'.
Proof.
  intros HT Hids Hback Hforth. split; [unfold ids_unique; rewrite Hids; apply HT|].
  intros a Ha Hl. destruct (Hback a Ha Hl) as (b & Hb & Hbl & Eid & Es & Ep).
  destruct (tree_rooted t HT b Hb Hbl) as [E|(p & Hp & Hpl & Hs & E)].
  - left. congruence.
  - right. destruct (Hforth p Hp Hpl) as (p' & ? & ? & Es' & Ep').
    exists p'. split_and!; [done|done|congruence|]. rewrite Ep'. congruence.
Qed.
(** Rows are deleted together with all their descendants. *)
Lemma tree_delete t now (q : A → bool) : tree t →
  (∀ a p, a ∈ t → p ∈ t → row_live a = true → row_live p = true → q p = true →
          n_path a = n_path p ++ [row_ID a] → q a = true) →
  tree (t_delete now q t).2.
Proof.
  intros HT Hq. split; [apply t_delete_ids, HT|]. intros a Ha Hl.
  apply elem_of_deleted in Ha as [[Ha Hqa]|(b & -> & _)]; [|by rewrite soft_delete_dead in Hl].
  rewrite Hl in Hqa. cbn in Hqa.
  destruct (tree_rooted t HT a Ha Hl) as [E|(p & Hp & Hpl & Hs & E)]; [by left|]. right. exists p.
  split_and!; try done. unfold t_delete. cbn [snd]. rewrite list_elem_of_In, in_map_iff. exists p.
  destruct (q p) eqn:Ep; [by rewrite (Hq a p) in Hqa|]. rewrite andb_false_r. split; [done|by apply list_elem_of_In].
Qed.

(** ** Rows that get other paths *)

Definition new_path (f : gmap uuid (list uuid)) (x : A) : list uuid :=
  if row_live x then default (n_path x) (f !! row_ID x) else n_path x.
Definition repathed (f : gmap uuid (list uuid)) : list A → list A → Prop :=
  Forall2 (λ x y, row_ID y = row_ID x ∧ n_space y = n_space x ∧ row_live y = row_live x ∧ n_path y = new_path f x).

Lemma repathed_ids f t t' : repathed f t t' → map row_ID t' = map row_ID t.
Proof. induction 1 as [|x y t t' (E & _) _ IH]; [done|]. simpl. by rewrite E, IH. Qed.
Lemma repathed_back f t t' y : repathed f t t' → y ∈ t' →
  ∃ x, x ∈ t ∧ row_ID y = row_ID x ∧ n_space y = n_space x ∧ row_live y = row_live x ∧ n_path y = new_path f x.
Proof. intros H (k & Hk)%list_elem_of_lookup. destruct (Forall2_lookup_r _ _ _ _ _ H Hk) as (x & Hx & E). exists x.
  split; [by eapply list_elem_of_lookup_2|done]. Qed.
Lemma repathed_forth f t t' x : repathed f t t' → x ∈ t →
  ∃ y, y ∈ t' ∧ row_ID y = row_ID x ∧ n_space y = n_space x ∧ row_live y = row_live x ∧ n_path y = new_path f x.
Proof. intros H (k & Hk)%list_elem_of_lookup. destruct (Forall2_lookup_l _ _ _ _ _ H Hk) as (y & Hy & E). exists y.
  split; [by eapply list_elem_of_lookup_2|done]. Qed.

(** The paths of one row and of all rows below it: the row goes below [p], and the others become its children. *)
Record flattens (t : list A) (m p : A) (f : gmap uuid (list uuid)) : Prop := {
  fl_self : f !! row_ID m = Some (n_path p ++ [row_ID m]);
  fl_below : ∀ x r, x ∈ t → row_live x = true → r ≠ [] → n_path x = n_path m ++ r →
                    f !! row_ID x = Some ((n_path p ++ [row_ID m]) ++ [row_ID x]);
  fl_rest : ∀ x, x ∈ t → row_live x = true → is_Some (f !! row_ID x) → ∃ r, n_path x = n_path m ++ r;
}.
Lemma below_same_space t m x r : tree t → m ∈ t → row_live m = true → x ∈ t → row_live x = true →
  n_path x = n_path m ++ r → n_space x = n_space m.
Proof.
  intros HT Hm Hl Hx Hlx E. destruct (exists_last (path_not_nil t m HT Hm Hl)) as (q & id & Eq).
  pose proof (path_last t m HT Hm Hl) as HL'. rewrite Eq, last_snoc in HL'. injection HL' as ->.
  rewrite Eq, <- app_assoc in E.
  destruct (path_prefix t x HT Hx Hlx _ _ _ E) as (u & Hu & _ & Hs & Hid & _).
  assert (u = m) as -> by (eapply ids_unique_eq; [apply HT|done|done|done]). done.
Qed.
Lemma tree_flatten t t' m p f : tree t → m ∈ t → row_live m = true → p ∈ t → row_live p = true →
  n_space p = n_space m → (∀ r, n_path p ≠ n_path m ++ r) → flattens t m p f → repathed f t t' → tree t'.
Proof.
  intros HT Hm Hlm Hp Hlp Hs Hnb HF HRe. split; [unfold ids_unique; rewrite (repathed_ids _ _ _ HRe); apply HT|].
  assert (Hpath : ∀ x y, x ∈ t → row_live x = true → y ∈ t → row_live y = true → row_ID x = row_ID y → x = y).
  { intros x y Hx _ Hy _ E. eapply ids_unique_eq; [apply HT|done|done|done]. }
  assert (Hkeep : ∀ x, x ∈ t → row_live x = true → (∀ r, n_path x ≠ n_path m ++ r) →
    ∃ y, y ∈ t' ∧ row_live y = true ∧ n_space y = n_space x ∧ n_path y = n_path x).
  { intros x Hx Hlx Hnx. destruct (repathed_forth _ _ _ _ HRe Hx) as (y & Hy & _ & ? & El & Ep).
    exists y. split_and!; [done|by rewrite El|done|]. rewrite Ep. unfold new_path. rewrite Hlx.
    destruct (f !! row_ID x) eqn:Ef; [|done]. destruct (fl_rest _ _ _ _ HF x Hx Hlx) as [r E]; [by rewrite Ef|].
    by destruct (Hnx r). }
  intros y Hy Hly. destruct (repathed_back _ _ _ _ HRe Hy) as (x & Hx & Eid & Es & El & Ep).
  rewrite Hly in El. symmetry in El. unfold new_path in Ep. rewrite El in Ep.
  destruct (decide (row_ID x = row_ID m)) as [->%(Hpath x m Hx El Hm Hlm)|Hxm].
  { rewrite (fl_self _ _ _ _ HF) in Ep. simpl in Ep. right.
    destruct (Hkeep p Hp Hlp Hnb) as (p' & ? & ? & ? & Epp). exists p'.
    split_and!; [done|done|congruence|]. by rewrite Epp, Eid. }
  destruct (decide (take (length (n_path m)) (n_path x) = n_path m)) as [Hbelow|Hnot].
  - assert (Er : n_path x = n_path m ++ drop (length (n_path m)) (n_path x)) by (by rewrite <- Hbelow at 1; rewrite take_drop).
    assert (Hr : drop (length (n_path m)) (n_path x) ≠ []).
    { intros E. rewrite E, app_nil_r in Er. apply Hxm.
      pose proof (path_last t x HT Hx El) as L1. pose proof (path_last t m HT Hm Hlm) as L2. congruence. }
    rewrite (fl_below _ _ _ _ HF x _ Hx El Hr Er) in Ep. simpl in Ep. right.
    destruct (repathed_forth _ _ _ _ HRe Hm) as (m' & Hm' & _ & Es' & El' & Ep').
    unfold new_path in Ep'. rewrite Hlm, (fl_self _ _ _ _ HF) in Ep'. simpl in Ep'.
    exists m'. split_and!; [done|congruence| |by rewrite Ep', Eid].
    rewrite Es', Es. symmetry. by eapply below_same_space.
  - assert (Hnx : ∀ r, n_path x ≠ n_path m ++ r) by (intros r E; apply Hnot; by rewrite E, take_app_length).
    assert (Ef : f !! row_ID x = None).
    { destruct (f !! row_ID x) eqn:Ef; [|done]. destruct (fl_rest _ _ _ _ HF x Hx El) as [r E]; [by rewrite Ef|].
      by destruct (Hnx r). }
    rewrite Ef in Ep. simpl in Ep. destruct (tree_rooted t HT x Hx El) as [E|(q & Hq & Hql & Hqs & E)].
    + left. congruence.
    + right. destruct (Hkeep q Hq Hql) as (q' & ? & ? & ? & Eq').
      { intros r Er. apply (Hnx (r ++ [row_ID x])). by rewrite E, Er, app_assoc. }
      exists q'. split_and!; [done|done|congruence|]. rewrite Eq'. congruence.
Qed.
End Trees.
