(* ===== verification/Iterations.v ===== *)
(** * Iterations

    [iteration/iteration.go] and [iteration/state.go]: iterations, their
    states, and the operations of [GormIterationRepository] on the tables of
    iterations and of numbers. *)

From Stdlib Require Import ZArith Lia Ascii String.
From S2P Require Export Path Trees.
Import Path.

(** ** States *)

Notation State := string (only parsing).
Definition StateNew : State := "new".
Definition StateStart : State := "start".
Definition StateClose : State := "close".
Definition IsSet (s : State) : bool := negb (String.eqb s "").
Definition State_CheckValid (s : State) : res unit :=
  if bool_decide (s ∈ [StateNew; StateStart; StateClose]) then Ok tt
  else Err (BadParameterError "iteration state" s (Some "new|start|close") None).
(** What is handed to [Scan]; the state is assigned before it is checked. *)
Inductive state_source := SState (s : State) | SString (s : string) | SBytes (b : string) | SNil
  | SOther (printed : string).
Definition State_Scan (value : state_source) : State * res unit :=
  let s := match value with
           | SState s | SString s | SBytes s => s
           | SNil => "illegal value: nil"
           | SOther printed => "illegal value: " +:+ printed
           end in
  (s, State_CheckValid s).
Definition State_Value (s : State) : string := s.

(** ** The data *)

Record Iteration := {
  it_Lifecycle : Lifecycle;
  it_Number : HumanFriendlyNumber;
  it_ID : uuid;
  it_SpaceID : uuid;
  it_Path : list uuid;
  StartAt : option Time;
  EndAt : option Time;
  it_Name : string;
  it_Description : option string;
  it_State : State;
  UserActive : bool;
  it_RelationShipsChangedAt : option Time;
}.
Definition it_with (i : Iteration) (lc : Lifecycle) (number : HumanFriendlyNumber) (ID : uuid)
    (path : list uuid) (state : State) : Iteration :=
  {| it_Lifecycle := lc; it_Number := number; it_ID := ID; it_SpaceID := it_SpaceID i; it_Path := path;
     StartAt := StartAt i; EndAt := EndAt i; it_Name := it_Name i; it_Description := it_Description i;
     it_State := state; UserActive := UserActive i;
     it_RelationShipsChangedAt := it_RelationShipsChangedAt i |}.
#[export] Instance Iteration_Row : Row Iteration :=
  {| row_ID := it_ID; row_life := it_Lifecycle;
     with_life := λ lc i, it_with i lc (it_Number i) (it_ID i) (it_Path i) (it_State i) |}.
#[export] Instance Iteration_RowLaws : RowLaws Iteration.
Proof. by split. Qed.
#[export] Instance Iteration_Node : Node Iteration := {| n_space := it_SpaceID; n_path := it_Path |}.
#[export] Instance Iteration_NodeLaws : NodeLaws Iteration.
Proof. by split. Qed.

Definition it_set_path (i : Iteration) (p : list uuid) : Iteration :=
  it_with i (it_Lifecycle i) (it_Number i) (it_ID i) p (it_State i).
Definition it_set_state (i : Iteration) (s : State) : Iteration :=
  it_with i (it_Lifecycle i) (it_Number i) (it_ID i) (it_Path i) s.

(** [newID]: what [uuid.NewV4] returns.  In Go the path may share its array with that of the parent; every caller
    stores it before the next child of the same parent is made. *)
Definition MakeChildOf (newID : uuid) (m parent : Iteration) : Iteration :=
  let ID := if bool_decide (it_ID m = uuid_Nil) then newID else it_ID m in
  it_with m (it_Lifecycle m) (it_Number m) ID (it_Path parent ++ [ID]) (it_State m).
Definition FullPath {HO : UuidOps} (m : Iteration) : string :=
  PathString (it_Path m) +:+ SepInService +:+ uuid_String (it_ID m).
Definition IsRoot (m : Iteration) (spaceID : uuid) : bool :=
  bool_decide (it_SpaceID m = spaceID) && Nat.eqb (length (it_Path m)) 1
  && bool_decide (it_Path m !! 0%nat = Some (it_ID m)).
Definition Parent_ (m : Iteration) : uuid := ParentID (it_Path m).
Definition GetLastModified (m : Iteration) : Time :=
  let lastModified := UpdatedAt (it_Lifecycle m) in
  match it_RelationShipsChangedAt m with
  | Some t => if instant lastModified <? instant t then t else lastModified
  | None => lastModified
  end.

(** [now] and [now']: two readings of the clock. *)
Definition inTimeframe (now now' startAt endAt : Time) : bool :=
  (instant startAt <? instant now) && (instant now' <? instant endAt).
Definition IsActive (now now' : Time) (m : Iteration) : bool :=
  if UserActive m then true
  else match StartAt m with
       | None => false
       | Some startAt =>
           match EndAt m with
           | None => instant startAt <? instant now
           | Some endAt => inTimeframe now now' startAt endAt
           end
       end.

(** ** The tables *)

Record it_db := {
  iterations : list Iteration;
  it_sequences : number_sequences;
  it_spaces : list uuid;              (* the ids of all rows of spaces *)
}.
Definition set_iterations (t : list Iteration) (d : it_db) : it_db :=
  {| iterations := t; it_sequences := it_sequences d; it_spaces := it_spaces d |}.
Notation itm A := (it_db → res A * it_db).

(** The index is over the space, the common ancestor of the path with itself and the name. *)
Definition it_key (i : Iteration) : uuid * list uuid * string :=
  (it_SpaceID i, removelast (it_Path i), it_Name i).
Definition it_constraints (d : it_db) : list (constraint Iteration) :=
  [check "iteration_state" (λ i, is_ok (State_CheckValid (it_State i)));
   check "non_empty_path_check" (λ i, negb (IsEmpty (it_Path i)));
   primary_key "iterations_pkey";
   unique_index "iterations_name_space_id_path_unique" it_key;
   foreign_key "iterations_space_id_spaces_id_fk" (λ i, bool_decide (it_SpaceID i ∈ it_spaces d))].

Section Repository.
Context {HO : UuidOps}.
Definition TableName : string := "iterations".

(** [Or] conditions pile up in the repository: [conds] are the ids of the calls of LoadMultiple made on it
    before. *)
Definition LoadMultiple (conds ids : list uuid) (d : it_db) : list Iteration * list uuid :=
  if Nat.eqb (length ids) 0 then ([], conds)
  else let conds := conds ++ ids in
       (t_where (λ i, bool_decide (it_ID i ∈ conds)) (iterations d), conds).
Definition Load_after (conds : list uuid) (id : uuid) (d : it_db) : res Iteration :=
  match t_first (λ i, has_ID id i || bool_decide (it_ID i ∈ conds)) (iterations d) with
  | Some i => Ok i
  | None => Err (NotFoundError "Iteration" (uuid_String id) None)
  end.
(** From here on on a repository as the application hands it out, without conditions. *)
Definition Load (id : uuid) (d : it_db) : res Iteration :=
  match t_first (has_ID id) (iterations d) with
  | Some i => Ok i
  | None => Err (NotFoundError "Iteration" (uuid_String id) None)
  end.

(** The id and the path [Create] gives the value, unless it is refused. *)
Definition prepare (newID : uuid) (u : Iteration) : res Iteration :=
  let u := if bool_decide (it_ID u = uuid_Nil)
           then it_with u (it_Lifecycle u) (it_Number u) newID [newID] (it_State u) else u in
  if Nat.eqb (length (it_Path u)) 0 then Ok (it_set_path u [it_ID u])
  else if negb (bool_decide (This (it_Path u) = it_ID u))
       then Err (Plain "iteration path has to end with iteration ID %s") else Ok u.
Definition Create (now : Time) (newID : uuid) (u : Iteration) : itm Iteration := λ d,
  let u := it_with u (it_Lifecycle u) (NewHumanFriendlyNumber (it_SpaceID u) TableName []) (it_ID u)
             (it_Path u) (it_State u) in
  match prepare newID u with
  | Err e => (Err e, d)
  | Panic m => (Panic m, d)
  | Ok u =>
      let u := if IsSet (it_State u) then u else it_set_state u StateNew in
      match BeforeCreate (it_spaces d) (it_Number u) (it_sequences d) with
      | (Err e, _) => (Err (Stacked e), d)
      | (Panic m, _) => (Panic m, d)
      | (Ok n, seqs) =>
          let u := it_with u (it_Lifecycle u) n (it_ID u) (it_Path u) (it_State u) in
          let row := it_with u (it_Lifecycle u) (number_column n) (it_ID u) (it_Path u) (it_State u) in
          match t_insert (it_constraints d) now row (iterations d) with
          | inl v =>
              if IsUniqueViolation v "iterations_name_space_id_path_unique"
              then (Err (DataConflictError "iteration already exists with name = %s , space_id = %s , path = %s "), d)
              else (Err (Stacked (driver_error v)), d)
          | inr (row, t) =>
              (Ok (with_life (row_life row) u),
               {| iterations := t; it_sequences := seqs; it_spaces := it_spaces d |})
          end
      end
  end.

Definition List_ (spaceID : uuid) (d : it_db) : list Iteration :=
  t_where (λ i, bool_decide (it_SpaceID i = spaceID)) (iterations d).
Definition Root_ (spaceID : uuid) (d : it_db) : res Iteration :=
  match t_first (λ i, bool_decide (it_SpaceID i = spaceID) && Nat.eqb (length (it_Path i)) 1) (iterations d) with
  | Some i => Ok i
  | None => Err (NotFoundError "root iteration for space" (uuid_String spaceID) None)
  end.
Definition CheckExists_ (id : uuid) (d : it_db) : res unit := CheckExists TableName (iterations d) id.

(** No version is compared.  When no row is updated, since the number differs, gorm reads the stored row
    into the value. *)
Definition Save (now : Time) (i : Iteration) : itm Iteration := λ d,
  match t_first (has_ID (it_ID i)) (iterations d) with
  | None => (Err (NotFoundError "iteration" (uuid_String (it_ID i)) None), d)
  | Some stored =>
      let row := it_with i (it_Lifecycle i) (number_column (it_Number i)) (it_ID i) (it_Path i) (it_State i) in
      match t_update (it_constraints d) now (λ x, BeforeUpdate (it_Number i) (it_Number x)) row (iterations d) with
      | inl v => (Err (InternalError (driver_error v)), d)
      | inr (row, O, _) => (Ok stored, d)
      | inr (row, _, t) => (Ok (with_life (row_life row) i), set_iterations t d)
      end
  end.

Definition CanStart (i : Iteration) (d : it_db) : res bool :=
  rootItr ← Root_ (it_SpaceID i) d;
  if bool_decide (it_ID i = it_ID rootItr)
  then Err (BadParameterError "iteration" "Root iteration can not be started." None None)
  else if negb (Nat.eqb (length (t_where (λ x, bool_decide (it_SpaceID x = it_SpaceID i)
                                               && String.eqb (it_State x) StateStart) (iterations d))) 0)
  then Err (BadParameterError "state" "One iteration from given space is already running" None None)
  else Ok true.

(** [path ~ 'parent.*{1,}']: the labels of the parent, then at least one more. *)
Definition below (parent x : Iteration) : bool :=
  let l := map ConvertToLtree (it_Path parent) in
  let k := map ConvertToLtree (it_Path x) in
  bool_decide (take (length l) k = l) && Nat.ltb (length l) (length k).
Definition updated_le (a b : Iteration) : Prop :=
  instant (UpdatedAt (it_Lifecycle a)) ≤ instant (UpdatedAt (it_Lifecycle b)).
#[export] Instance updated_le_dec a b : Decision (updated_le a b).
Proof. unfold updated_le. apply _. Defined.
Definition LoadChildren (parentIterationID : uuid) (d : it_db) : res (list Iteration) :=
  match Load parentIterationID d with
  | Ok parent => Ok (merge_sort updated_le (t_where (below parent) (iterations d)))
  | Err _ => Err (NotFoundError "iteration" (uuid_String parentIterationID) None)
  | Panic m => Panic m
  end.

Definition Delete (now : Time) (ID : uuid) : itm unit := λ d,
  if bool_decide (ID = uuid_Nil) then (Err (NotFoundError "iteration" (uuid_String ID) None), d)
  else let '(n, t) := t_delete now (by_primary_key ID) (iterations d) in
       if Nat.eqb n 0 then (Err (NotFoundError "iteration" (uuid_String ID) None), d)
       else (Ok tt, set_iterations t d).
End Repository.
