(* ===== verification/IterationFacts.v ===== *)
(** * What the repository of iterations keeps

    The invariant of the table: the live iterations of every space form trees,
    siblings have different names, numbers are never given twice.  Which
    statements keep it, and what [LoadChildren], [Save] and [CanStart] do. *)

From Stdlib Require Import ZArith Lia Ascii String.
From stdpp Require Import relations.
From S2P Require Export Iterations.
Import Path.

Definition it_place (i : Iteration) : uuid * Z := (it_SpaceID i, Number (it_Number i)).
Record it_wf (d : it_db) : Prop := {
  iw_tree : tree (iterations d);
  iw_keys : unique_on it_key (iterations d);
  iw_places : NoDup (map it_place (iterations d));
  iw_sequence : ∀ i, i ∈ iterations d →
    Number (it_Number i) ≤ default 0 (it_sequences d !! (it_SpaceID i, TableName));
  iw_nil : ∀ i, i ∈ iterations d → it_ID i ≠ uuid_Nil;
  iw_states : ∀ i, i ∈ iterations d → row_live i = true → is_ok (State_CheckValid (it_State i)) = true;
}.

Section Facts.
Context {HO : UuidOps}.

(** ** Create *)

Lemma prepare_ok newID u v : prepare newID u = Ok v →
  it_SpaceID v = it_SpaceID u ∧ it_State v = it_State u ∧ it_Number v = it_Number u ∧
  it_ID v = (if bool_decide (it_ID u = uuid_Nil) then newID else it_ID u) ∧
  (it_Path v = [it_ID v] ∨ (it_ID u ≠ uuid_Nil ∧ it_ID v = it_ID u ∧ it_Path v = it_Path u)).
Proof.
  unfold prepare. case_bool_decide; cbn -[This].
  - destruct (negb _); [done|]. intros [= <-]. cbn. by split_and!; [..|left].
  - destruct (Nat.eqb _ 0); [intros [= <-]; by split_and!; [..|left]|].
    destruct (negb _); [done|]. intros [= <-]. by split_and!; [..|right].
Qed.
(** The row [Create] adds. *)
Record it_creation (newID : uuid) (u r : Iteration) (d d' : it_db) (row : Iteration) : Prop := {
  ic_rows : iterations d' = iterations d ++ [row];
  ic_sequences : it_sequences d' = <[(it_SpaceID u, TableName) := Number (it_Number row)]> (it_sequences d);
  ic_number : Number (it_Number row) = default 0 (it_sequences d !! (it_SpaceID u, TableName)) + 1;
  ic_space : it_SpaceID row = it_SpaceID u;
  ic_place : it_Path row = [it_ID row] ∨ (it_ID u ≠ uuid_Nil ∧ it_ID row = it_ID u ∧ it_Path row = it_Path u);
  ic_ID : it_ID row = (if bool_decide (it_ID u = uuid_Nil) then newID else it_ID u);
  ic_state : it_State row = (if IsSet (it_State u) then it_State u else StateNew);
  ic_live : row_live row = true;
  ic_same : it_ID r = it_ID row ∧ it_Path r = it_Path row ∧ it_SpaceID r = it_SpaceID row;
  ic_holds : ∀ c, c ∈ it_constraints d → violated c row (iterations d) = false;
}.
Lemma Create_row now newID u d r d' : Create now newID u d = (Ok r, d') → ∃ row, it_creation newID u r d d' row.
Proof.
  unfold Create. destruct (prepare _ _) as [v|e|m] eqn:Ep; [|done..].
  apply prepare_ok in Ep as (Hs & Hst & Hn & Hnew & Hplace). cbn in Hs, Hst, Hn, Hnew, Hplace.
  set (w := if IsSet (it_State v) then v else it_set_state v StateNew).
  assert (Hw : it_ID w = it_ID v ∧ it_Path w = it_Path v ∧ it_SpaceID w = it_SpaceID v ∧ it_Number w = it_Number v)
    by (unfold w; by destruct (IsSet _)).
  destruct Hw as (Wi & Wp & Ws & Wn).
  destruct (BeforeCreate _ _ _) as [[n|e|m] seqs] eqn:Eb; [|done..].
  apply BeforeCreate_ok in Eb as (En & _ & _ & Eseq). rewrite Wn, Hn in En, Eseq. cbn in En, Eseq.
  destruct (t_insert _ _ _ _) as [v0|[row t]] eqn:Et; [by destruct (IsUniqueViolation _ _)|].
  intros [= <- <-]. apply t_insert_ok in Et as (-> & -> & HV).
  eexists. split; try reflexivity; cbn.
  - done.
  - done.
  - congruence.
  - rewrite Wi, Wp. by destruct Hplace as [E|(? & ? & ?)]; [left|right].
  - by rewrite Wi.
  - unfold w. rewrite Hst. by destruct (IsSet (it_State u)) eqn:Es; cbn; rewrite ?Hst.
  - split_and!; congruence.
  - exact HV.
Qed.
Lemma creation_fresh newID u r d d' row : it_creation newID u r d d' row → ∀ x, x ∈ iterations d → it_ID x ≠ it_ID row.
Proof.
  intros C x Hx E. pose proof (ic_holds _ _ _ _ _ _ C (primary_key "iterations_pkey")) as HV.
  specialize (HV ltac:(set_solver)). apply not_true_iff_false in HV. apply HV. cbn. apply existsb_exists.
  exists x. split; [by apply list_elem_of_In|by apply has_ID_true].
Qed.
(** A value that is a root, or below a live iteration of its space. *)
Definition well_placed (d : it_db) (u : Iteration) : Prop :=
  it_ID u = uuid_Nil ∨ it_Path u = [] ∨ rooted (iterations d) u.
Lemma it_creation_wf newID u r d d' row : it_creation newID u r d d' row → well_placed d u →
  (it_ID u = uuid_Nil → newID ≠ uuid_Nil) → it_wf d → it_wf d'.
Proof.
  intros C Hp Hne0 H. pose proof (creation_fresh _ _ _ _ _ _ C) as Hf. pose proof (ic_holds _ _ _ _ _ _ C) as HV.
  pose proof (ic_number _ _ _ _ _ _ C) as Hnum. pose proof (ic_space _ _ _ _ _ _ C) as Hsp.
  split; rewrite ?(ic_rows _ _ _ _ _ _ C), ?(ic_sequences _ _ _ _ _ _ C).
  - apply tree_add; [apply H|done|]. destruct (ic_place _ _ _ _ _ _ C) as [E|(Hne & Hid & Hpath)]; [by left|].
    destruct Hp as [?|[E|[E|(p & Hp & Hl & Hs & E)]]]; [done| | |].
    + specialize (HV (check "non_empty_path_check" (λ i, negb (IsEmpty (it_Path i)))) ltac:(set_solver)).
      cbn in HV. by rewrite Hpath, E in HV.
    + left. cbn in *. congruence.
    + right. exists p. cbn in *. split_and!; [done|done|congruence|]. by rewrite Hpath, E, Hid.
  - intros x y Hx Hy Lx Ly E. rewrite elem_of_app, list_elem_of_singleton in Hx, Hy.
    specialize (HV (unique_index "iterations_name_space_id_path_unique" it_key) ltac:(set_solver)).
    destruct Hx as [Hx|Hx], Hy as [Hy|Hy].
    + by apply (iw_keys _ H).
    + subst y. destruct (index_holds _ _ _ _ x HV); done.
    + subst x. destruct (index_holds _ _ _ _ y HV); done.
    + by subst.
  - rewrite map_app. apply NoDup_app. split_and!; [apply H| |apply NoDup_singleton].
    intros q Hq ->%list_elem_of_singleton. rewrite list_elem_of_In, in_map_iff in Hq.
    destruct Hq as (x & [= E1 E2] & Hx%list_elem_of_In). pose proof (iw_sequence _ H x Hx) as Hle.
    rewrite E1, E2, Hsp, Hnum in Hle. lia.
  - intros i [Hi| ->%list_elem_of_singleton]%elem_of_app.
    + pose proof (iw_sequence _ H i Hi) as Hle.
      destruct (decide ((it_SpaceID i, TableName) = (it_SpaceID u, TableName))) as [E|Hne].
      * rewrite E in *. rewrite lookup_insert_eq. simpl. lia.
      * by rewrite lookup_insert_ne.
    + rewrite Hsp, lookup_insert_eq. done.
  - intros i [Hi| ->%list_elem_of_singleton]%elem_of_app; [by apply (iw_nil _ H)|].
    rewrite (ic_ID _ _ _ _ _ _ C). case_bool_decide; [by apply Hne0|done].
  - intros i [Hi| ->%list_elem_of_singleton]%elem_of_app Hl; [by apply (iw_states _ H)|].
    specialize (HV (check "iteration_state" (λ i, is_ok (State_CheckValid (it_State i)))) ltac:(set_solver)).
    cbn in HV. by apply negb_false_iff in HV.
Qed.

(** ** Save *)

(** The value is that of a stored iteration up to what an update of it may change. *)
Definition same_identity (s i : Iteration) : Prop :=
  it_ID s = it_ID i ∧ it_SpaceID s = it_SpaceID i ∧ Number (it_Number s) = Number (it_Number i).
Definition stored_as (t : list Iteration) (i : Iteration) : Prop :=
  DeletedAt (it_Lifecycle i) = None ∧ ∃ s, s ∈ t ∧ row_live s = true ∧ same_identity s i.
(** The rows after updates that leave places alone. *)
Definition resaved (f : gmap uuid (list uuid)) (t t' : list Iteration) : Prop :=
  Forall2 (λ x y, it_ID y = it_ID x ∧ it_SpaceID y = it_SpaceID x ∧ row_live y = row_live x ∧
                  it_Path y = new_path f x ∧ Number (it_Number y) = Number (it_Number x)) t t'.
Lemma resaved_repathed f t t' : resaved f t t' → repathed f t t'.
Proof. intros H. eapply Forall2_impl; [exact H|]. cbn. naive_solver. Qed.
Lemma resaved_places f t t' : resaved f t t' → map it_place t' = map it_place t.
Proof.
  induction 1 as [|x y t t' (_ & Es & _ & _ & En) _ IH]; [done|]. simpl. unfold it_place at 1 3. by rewrite Es, En, IH.
Qed.
Lemma resaved_stored f t t' i : resaved f t t' → stored_as t i → stored_as t' i.
Proof.
  intros H (Hd & s & (k & Hk)%list_elem_of_lookup & Hl & Hs). split; [done|].
  destruct (Forall2_lookup_l _ _ _ _ _ H Hk) as (y & Hy & E1 & E2 & E3 & _ & E5). exists y.
  split_and!; [by eapply list_elem_of_lookup_2|congruence|]. unfold same_identity in *. split_and!; naive_solver congruence.
Qed.
Lemma resaved_trans f g t1 t2 t3 : resaved f t1 t2 → resaved g t2 t3 → resaved (g ∪ f) t1 t3.
Proof.
  intros H1. revert t3. induction H1 as [|x y t1 t2 (Ei & Es & El & Ep & En) _ IH]; intros t3 H2.
  - apply Forall2_nil_inv_l in H2 as ->. constructor.
  - apply Forall2_cons_inv_l in H2 as (z & t3' & (Ei' & Es' & El' & Ep' & En') & H2 & ->).
    constructor; [|by apply IH]. split_and!; try congruence. rewrite Ep'. unfold new_path in *. cbn in *.
    rewrite El, Ei, Ep. destruct (row_live x); [|done]. rewrite lookup_union.
    by destruct (g !! it_ID x), (f !! it_ID x).
Qed.

Record it_save (i r : Iteration) (d d' : it_db) : Prop := {
  is_rows : resaved {[it_ID i := it_Path i]} (iterations d) (iterations d');
  is_sequences : it_sequences d' = it_sequences d;
  is_keys : unique_on it_key (iterations d) → unique_on it_key (iterations d');
  is_states : (∀ x, x ∈ iterations d → row_live x = true → is_ok (State_CheckValid (it_State x)) = true) →
              ∀ x, x ∈ iterations d' → row_live x = true → is_ok (State_CheckValid (it_State x)) = true;
  is_elems : ∀ y, y ∈ iterations d' → y ∈ iterations d ∨
    (it_ID y = it_ID i ∧ it_SpaceID y = it_SpaceID i ∧ it_State y = it_State i);
  is_new : ∀ y, y ∈ iterations d' → row_live y = true → it_ID y = it_ID i → it_State y = it_State i;
  is_result : it_ID r = it_ID i ∧ it_Path r = it_Path i ∧ it_SpaceID r = it_SpaceID i ∧
              it_Number r = it_Number i ∧ DeletedAt (it_Lifecycle r) = None;
}.
Lemma Save_rows now i d r d' : ids_unique (iterations d) → stored_as (iterations d) i →
  Save now i d = (Ok r, d') → it_save i r d d'.
Proof.
  intros Hn (Hd & s & Hs & Hl & Hsame). unfold Save.
  rewrite (proj2 (t_first_ID_iff _ (it_ID i) s Hn)) by (destruct Hsame; done).
  set (row0 := it_with _ _ _ _ _ _). set (cond := λ x, BeforeUpdate (it_Number i) (it_Number x)).
  destruct (t_update _ _ _ _ _) as [v|[[row n] t]] eqn:Et; [done|].
  pose proof Et as Et2. apply t_update_ok in Et as (Eid & Ed & Et & Hcase).
  assert (Hrow : ∃ lc, row = with_life lc row0).
  { unfold t_update in Et2. destruct (Nat.eqb _ 0); [|destruct (first_violation _ _ _); [done|]];
      injection Et2 as <- _ _; by eexists. }
  destruct Hrow as [lc ->]. cbn in Eid, Ed.
  assert (Hhit : ∀ x, x ∈ iterations d → hit cond (with_life lc row0) x = true ↔ x = s).
  { intros x Hx. unfold hit. rewrite !andb_true_iff, has_ID_true. cbn. split.
    - intros [[_ E] _]. apply (ids_unique_eq (iterations d)); [done..|]. cbn. destruct Hsame. congruence.
    - intros ->. destruct Hsame as (? & _ & En). split_and!; [done|done|]. unfold cond, BeforeUpdate. by apply Z.eqb_eq. }
  assert (Hpos : n ≠ O).
  { intros ->. destruct Hcase as [[_ E]|[? _]]; [|lia]. unfold t_update in Et2.
    destruct (Nat.eqb_spec (length (List.filter (hit cond (with_life {| CreatedAt := CreatedAt (row_life row0); UpdatedAt := now;
      DeletedAt := DeletedAt (row_life row0) |} row0)) (iterations d))) 0) as [E0|E0].
    - apply length_zero_iff_nil in E0. assert (Hin : In s []); [|done]. rewrite <- E0, List.filter_In.
      split; [by apply list_elem_of_In|]. unfold hit. rewrite !andb_true_iff, has_ID_true. cbn.
      destruct Hsame as (? & _ & En). split_and!; [done|done|]. unfold cond, BeforeUpdate. by apply Z.eqb_eq.
    - destruct (first_violation _ _ _); [done|]. injection Et2 as _ E2 _. done. }
  destruct n as [|n]; [done|]. intros [= <- <-]. destruct Hcase as [[? _]|(_ & _ & HV)]; [done|].
  split; cbn [set_iterations iterations it_sequences].
  - rewrite Et. apply Forall2_map_self. intros x Hx.
    destruct (hit cond (with_life lc row0) x) eqn:Eh.
    + apply (Hhit x Hx) in Eh as ->. unfold new_path. rewrite Hl. cbn. destruct Hsame as (E1 & E2 & E3).
      split_and!; [done..|unfold row_live, live; cbn; by rewrite Ed, Hd| |done]. by rewrite E1, lookup_singleton_eq.
    + split_and!; try done. unfold new_path. destruct (row_live x) eqn:Elx; [|done]. cbn.
      rewrite lookup_singleton_ne; [done|]. intros E. apply not_true_iff_false in Eh. apply Eh, Hhit; [done|].
      apply (ids_unique_eq (iterations d)); [done..|]. cbn. destruct Hsame. congruence.
  - done.
  - intros Hu. eapply (t_update_unique (it_constraints d) "iterations_name_space_id_path_unique" it_key); [set_solver|exact Et2|exact Hu].
  - intros HS x Hx Hlx. rewrite Et in Hx. apply elem_of_updated in Hx as [->|Hx].
    + specialize (HV (check "iteration_state" (λ i, is_ok (State_CheckValid (it_State i)))) ltac:(set_solver)).
      cbn in HV. by apply negb_false_iff in HV.
    + rewrite list_elem_of_In, List.filter_In, <- list_elem_of_In in Hx. destruct Hx. by apply HS.
  - intros y Hy. rewrite Et in Hy. apply elem_of_updated in Hy as [->|Hy]; [by right|].
    rewrite list_elem_of_In, List.filter_In, <- list_elem_of_In in Hy. left. apply Hy.
  - intros y Hy Hly E. rewrite Et in Hy. apply elem_of_updated in Hy as [->|Hy]; [done|]. exfalso.
    rewrite list_elem_of_In, List.filter_In, <- list_elem_of_In in Hy. destruct Hy as [Hy Hny].
    apply negb_true_iff, not_true_iff_false in Hny. apply Hny, Hhit; [done|].
    apply (ids_unique_eq (iterations d)); [done..|]. cbn. destruct Hsame. congruence.
  - cbn. split_and!; congruence.
Qed.
(** Saving a value in its place keeps the invariant. *)
Lemma resaved_same_paths f t t' : ids_unique t → (∀ x, x ∈ t → row_live x = true → new_path f x = it_Path x) →
  resaved f t t' → tree t → tree t'.
Proof.
  intros Hn Hf H HT. apply (tree_same_paths t).
  - done.
  - eapply repathed_ids, resaved_repathed, H.
  - intros a Ha Hl. destruct (repathed_back _ _ _ _ (resaved_repathed _ _ _ H) Ha) as (x & Hx & Ei & Es & El & Ep).
    exists x. rewrite Hl in El. split_and!; try done. by rewrite Ep, Hf.
  - intros b Hb Hl. destruct (repathed_forth _ _ _ _ (resaved_repathed _ _ _ H) Hb) as (y & Hy & Ei & Es & El & Ep).
    exists y. split_and!; [done|congruence|done|]. by rewrite Ep, Hf.
Qed.
Lemma resaved_wf f d d' : it_wf d → resaved f (iterations d) (iterations d') → it_sequences d' = it_sequences d →
  unique_on it_key (iterations d') →
  (∀ x, x ∈ iterations d' → row_live x = true → is_ok (State_CheckValid (it_State x)) = true) →
  tree (iterations d') → it_wf d'.
Proof.
  intros H HR Hseq Hk Hst HT. split; [done|done| | | |done].
  - rewrite (resaved_places _ _ _ HR). apply H.
  - intros y Hy. rewrite Hseq. apply list_elem_of_lookup in Hy as (k & Hk').
    destruct (Forall2_lookup_r _ _ _ _ _ HR Hk') as (x & Hx & _ & -> & _ & _ & ->).
    apply (iw_sequence _ H). by eapply list_elem_of_lookup_2.
  - intros y Hy. apply list_elem_of_lookup in Hy as (k & Hk').
    destruct (Forall2_lookup_r _ _ _ _ _ HR Hk') as (x & Hx & -> & _).
    apply (iw_nil _ H). by eapply list_elem_of_lookup_2.
Qed.
Lemma Save_wf now i d r d' : it_wf d → stored_as (iterations d) i →
  (∀ s, s ∈ iterations d → row_live s = true → it_ID s = it_ID i → it_Path s = it_Path i) →
  Save now i d = (Ok r, d') → it_wf d'.
Proof.
  intros H Hst Hp HS. apply Save_rows in HS; [|apply H|done]. destruct HS as [HR Hseq Hk Hs _].
  eapply resaved_wf; [done|exact HR|done|by apply Hk, H|by apply Hs, H|].
  eapply resaved_same_paths; [apply H| |exact HR|apply H].
  intros x Hx Hl. unfold new_path. rewrite Hl. cbn. destruct (decide (it_ID x = it_ID i)) as [E|Hne].
  - rewrite E, lookup_singleton_eq. simpl. symmetry. by apply Hp.
  - by rewrite lookup_singleton_ne.
Qed.

(** ** Delete *)

Lemma t_delete_twice now (p q : Iteration → bool) t :
  (t_delete now q (t_delete now p t).2).2 = (t_delete now (λ a, p a || q a) t).2.
Proof.
  unfold t_delete. cbn [snd]. rewrite map_map. apply map_ext. intros a.
  destruct (row_live a) eqn:El, (p a) eqn:Ep; cbn; rewrite ?El, ?soft_delete_dead; done.
Qed.
Definition delete_ids (now : Time) (ids : list uuid) (t : list Iteration) : list Iteration :=
  (t_delete now (λ a, bool_decide (it_ID a ∈ ids)) t).2.
Lemma delete_ids_app now ids ids' t : delete_ids now ids' (delete_ids now ids t) = delete_ids now (ids ++ ids') t.
Proof.
  unfold delete_ids. rewrite t_delete_twice. unfold t_delete. cbn [snd]. apply map_ext. intros a.
  destruct (row_live a); [|done]. cbn [andb].
  by destruct (decide (it_ID a ∈ ids)), (decide (it_ID a ∈ ids'));
    repeat first [rewrite bool_decide_true by set_solver | rewrite bool_decide_false by set_solver].
Qed.
Lemma Delete_rows now ID d u d' : Delete now ID d = (Ok u, d') →
  d' = set_iterations (delete_ids now [ID] (iterations d)) d ∧ ∃ x, x ∈ iterations d ∧ row_live x = true ∧ it_ID x = ID.
Proof.
  unfold Delete. case_bool_decide as Hn; [done|]. destruct (t_delete _ _ _) as [n t] eqn:E.
  destruct (Nat.eqb_spec n 0) as [|Hpos]; [done|]. intros [= <- <-]. unfold t_delete in E. injection E as <- <-.
  assert (Hk : ∀ a, by_primary_key ID a = bool_decide (it_ID a ∈ [ID])).
  { intros a. unfold by_primary_key. rewrite bool_decide_false by done. cbn. apply bool_decide_ext. set_solver. }
  split.
  - f_equal. unfold delete_ids, t_delete. cbn [snd]. apply map_ext. intros a. by rewrite Hk.
  - destruct (t_where _ (iterations d)) as [|x l] eqn:Ew; [done|].
    assert (Hx : x ∈ t_where (by_primary_key ID) (iterations d)) by (rewrite Ew; by left).
    apply elem_of_t_where in Hx as (Hx & Hl & Hid). rewrite Hk, bool_decide_eq_true in Hid. exists x. set_solver.
Qed.
Lemma delete_ids_wf now ids d : it_wf d →
  (∀ a p, a ∈ iterations d → p ∈ iterations d → row_live a = true → row_live p = true → it_ID p ∈ ids →
          it_Path a = it_Path p ++ [it_ID a] → it_ID a ∈ ids) →
  it_wf (set_iterations (delete_ids now ids (iterations d)) d).
Proof.
  intros H Hc. split; cbn [set_iterations iterations it_sequences].
  - apply tree_delete; [apply H|]. intros a p Ha Hp La Lp. rewrite !bool_decide_eq_true. by apply Hc.
  - apply t_delete_unique, H.
  - unfold delete_ids, t_delete. cbn [snd]. rewrite map_map, (map_ext _ it_place); [apply H|].
    intros a. by destruct (_ && _).
  - intros i Hi. apply elem_of_deleted in Hi as [[Hi _]|(a & -> & Ha)]; [by apply H|].
    apply elem_of_t_where in Ha as (Ha & _). by apply (iw_sequence _ H a).
  - intros i Hi. apply elem_of_deleted in Hi as [[Hi _]|(a & -> & Ha)]; [by apply (iw_nil _ H)|].
    apply elem_of_t_where in Ha as (Ha & _). by apply (iw_nil _ H a).
  - intros i Hi Hl. apply elem_of_deleted in Hi as [[Hi _]|(a & -> & _)]; [by apply H|].
    by rewrite soft_delete_dead in Hl.
Qed.

(** ** LoadChildren *)

Section Laws.
Context {HL : UuidLaws}.
Lemma below_spec p x : below p x = true ↔ ∃ r, r ≠ [] ∧ it_Path x = it_Path p ++ r.
Proof.
  unfold below. rewrite andb_true_iff, bool_decide_eq_true, Nat.ltb_lt, !length_map. split.
  - intros [E Hl]. assert (Ep : take (length (it_Path p)) (it_Path x) = it_Path p).
    { apply Path.map_ltree_inj. by rewrite <- firstn_map. }
    exists (drop (length (it_Path p)) (it_Path x)). split.
    + intros Hd. apply (f_equal length) in Hd. rewrite length_drop in Hd. simpl in Hd. lia.
    + rewrite <- (take_drop (length (it_Path p)) (it_Path x)) at 1. by rewrite Ep.
  - intros (r & Hr & ->). rewrite firstn_map, take_app_length, length_app. split; [done|].
    destruct r; [done|]. simpl. lia.
Qed.
Lemma LoadChildren_ok id d l : LoadChildren id d = Ok l →
  ∃ p, Load id d = Ok p ∧ ∀ x, x ∈ l ↔ x ∈ iterations d ∧ row_live x = true ∧ ∃ r, r ≠ [] ∧ it_Path x = it_Path p ++ r.
Proof.
  unfold LoadChildren. destruct (Load id d) as [p|e|m]; [|done..]. intros [= <-]. exists p. split; [done|].
  intros x. by rewrite merge_sort_Permutation, elem_of_t_where, below_spec.
Qed.
Lemma Load_ok id d i : Load id d = Ok i → i ∈ iterations d ∧ row_live i = true ∧ it_ID i = id.
Proof.
  unfold Load. destruct (t_first _ _) as [x|] eqn:E; [|done]. intros [= ->].
  apply t_first_some in E as (? & ? & ?%has_ID_true). done.
Qed.
Lemma Load_live d i : ids_unique (iterations d) → i ∈ iterations d → row_live i = true → Load (it_ID i) d = Ok i.
Proof. intros Hn Hi Hl. unfold Load. change (it_ID i) with (row_ID i). by rewrite t_first_ID. Qed.

(** C30: the children of an iteration are loaded by a pattern on the text of the paths; in a well-formed table they
    are its descendants: the iterations reached from it by any number of steps down, each exactly once, the ones
    updated first in front. *)
Theorem LoadChildren_descendants d p (Hwf : it_wf d) (Hp : p ∈ iterations d) (Hl : row_live p = true) :
  ∃ l, LoadChildren (it_ID p) d = Ok l ∧ NoDup l ∧ StronglySorted updated_le l ∧
    ∀ a, a ∈ l ↔ tc (child_of (iterations d)) a p.
Proof.
  pose proof (iw_tree _ Hwf) as HT. unfold LoadChildren. rewrite Load_live by (done || apply HT).
  eexists. split; [done|]. split_and!.
  - rewrite merge_sort_Permutation. apply NoDup_ListNoDup, List.NoDup_filter, NoDup_ListNoDup.
    eapply NoDup_fmap_1, (tree_ids _ HT).
  - apply StronglySorted_merge_sort; [intros x y z; unfold updated_le; lia|intros x y; unfold updated_le; lia].
  - intros a. rewrite merge_sort_Permutation, elem_of_t_where, below_spec. split.
    + intros (Ha & La & Hr). by apply (descendant_path _ _ _ HT).
    + intros H. assert (Ha : a ∈ iterations d ∧ row_live a = true) by (destruct H as [? ? (?&?&?&?&?)|? ? ? (?&?&?&?&?) _]; done).
      destruct Ha as [Ha La]. split_and!; [done|done|]. by apply (descendant_path _ _ _ HT).
Qed.
End Laws.
End Facts.
