(* ===== verification/Spaces.v ===== *)
(** * Spaces and space templates

    [spacetemplate/template.go], [spacetemplate/repository.go] and
    [space/space.go]: the two tables and the operations of their
    repositories. *)

From Stdlib Require Import ZArith Lia Ascii String.
From S2P Require Export Tables.

(** ** Space templates *)

Record SpaceTemplate := {
  tp_Lifecycle : Lifecycle;
  tp_ID : uuid;
  tp_Version : Z;
  tp_Name : string;
  tp_Description : option string;
  tp_CanConstruct : bool;
}.
Definition tp_with (s : SpaceTemplate) (lc : Lifecycle) (ID : uuid) (version : Z) : SpaceTemplate :=
  {| tp_Lifecycle := lc; tp_ID := ID; tp_Version := version; tp_Name := tp_Name s;
     tp_Description := tp_Description s; tp_CanConstruct := tp_CanConstruct s |}.
#[export] Instance SpaceTemplate_Row : Row SpaceTemplate :=
  {| row_ID := tp_ID; row_life := tp_Lifecycle; with_life := λ lc s, tp_with s lc (tp_ID s) (tp_Version s) |}.
#[export] Instance SpaceTemplate_RowLaws : RowLaws SpaceTemplate.
Proof. by split. Qed.

(** ** Spaces *)

Record Space := {
  sp_Lifecycle : Lifecycle;
  sp_ID : uuid;
  sp_Version : Z;
  sp_Name : string;
  sp_Description : string;
  OwnerID : uuid;
  sp_SpaceTemplateID : uuid;
}.
Definition sp_with (p : Space) (lc : Lifecycle) (ID : uuid) (version : Z) : Space :=
  {| sp_Lifecycle := lc; sp_ID := ID; sp_Version := version; sp_Name := sp_Name p;
     sp_Description := sp_Description p; OwnerID := OwnerID p; sp_SpaceTemplateID := sp_SpaceTemplateID p |}.
#[export] Instance Space_Row : Row Space :=
  {| row_ID := sp_ID; row_life := sp_Lifecycle; with_life := λ lc p, sp_with p lc (sp_ID p) (sp_Version p) |}.
#[export] Instance Space_RowLaws : RowLaws Space.
Proof. by split. Qed.

Definition Space_Equal (p other : Space) : bool :=
  if negb (Lifecycle_Equal (sp_Lifecycle p) (sp_Lifecycle other)) then false
  else if negb (bool_decide (sp_ID p = sp_ID other)) then false
  else if negb (sp_Version p =? sp_Version other) then false
  else if negb (String.eqb (sp_Name p) (sp_Name other)) then false
  else if negb (bool_decide (sp_SpaceTemplateID p = sp_SpaceTemplateID other)) then false
  else if negb (String.eqb (sp_Description p) (sp_Description other)) then false
  else if negb (bool_decide (OwnerID p = OwnerID other)) then false
  else true.
Definition Space_EqualValue (p other : Space) : bool :=
  Space_Equal (sp_with p (sp_Lifecycle other) (sp_ID p) (sp_Version other)) other.

Record space_db := { space_rows : list Space; template_rows : list SpaceTemplate }.
Definition set_spaces (t : list Space) (d : space_db) : space_db :=
  {| space_rows := t; template_rows := template_rows d |}.
Definition set_templates (t : list SpaceTemplate) (d : space_db) : space_db :=
  {| space_rows := space_rows d; template_rows := t |}.
Notation spm A := (space_db → res A * space_db).

Section Repositories.
Context {HO : UuidOps}.

Definition SpaceTemplate_Validate (s : SpaceTemplate) : res unit :=
  if String.eqb (tp_Name s) "" then Err (BadParameterError "name" (tp_Name s) (Some "not empty") None)
  else if bool_decide (tp_ID s = uuid_Nil)
  then Err (BadParameterError "template id" (uuid_String (tp_ID s)) (Some "non-nil UUID") None)
  else Ok tt.
Definition SpaceTemplate_Equal (s other : SpaceTemplate) : bool :=
  if negb (bool_decide (tp_ID s = tp_ID other)) then false
  else if negb (String.eqb (tp_Name s) (tp_Name other)) then false
  else if negb (tp_Version s =? tp_Version other) then false
  else if negb (Lifecycle_Equal (tp_Lifecycle s) (tp_Lifecycle other)) then false
  else if negb (Bool.eqb (tp_CanConstruct s) (tp_CanConstruct other)) then false
  else if negb (bool_decide (tp_Description s = tp_Description other)) then false
  else true.
Definition SpaceTemplate_EqualValue (s other : SpaceTemplate) : bool :=
  SpaceTemplate_Equal (tp_with s (tp_Lifecycle other) (tp_ID s) (tp_Version other)) other.

Definition template_constraints : list (constraint SpaceTemplate) :=
  [check "space_templates_name_check" (λ s, negb (String.eqb (tp_Name s) ""));
   primary_key "space_templates_pkey";
   unique_index "space_templates_name_uidx" tp_Name].
Definition template_List (d : space_db) : list SpaceTemplate := t_where (λ _, true) (template_rows d).
Definition template_CheckExists (d : space_db) (id : uuid) : res unit :=
  CheckExists "space_templates" (template_rows d) id.
Definition template_Load (d : space_db) (spaceTemplateID : uuid) : res SpaceTemplate :=
  match t_first (has_ID spaceTemplateID) (template_rows d) with
  | Some s => Ok s
  | None => Err (NotFoundError "space_template" (uuid_String spaceTemplateID) None)
  end.
Definition template_Create (now : Time) (newID : uuid) (s : SpaceTemplate) : spm SpaceTemplate := λ d,
  let s := if bool_decide (tp_ID s = uuid_Nil) then tp_with s (tp_Lifecycle s) newID (tp_Version s) else s in
  match SpaceTemplate_Validate s with
  | Err e => (Err (Wrapped "space template is invalid" e), d)
  | Panic m => (Panic m, d)
  | Ok _ =>
      match t_insert template_constraints now s (template_rows d) with
      | inl v => (Err (if IsUniqueViolation v "space_templates_name_uidx"
                       then BadParameterError "name" (tp_Name s) (Some "unique") None
                       else Wrapped "failed to create space template" (driver_error v)), d)
      | inr (s, t) => (Ok s, set_templates t d)
      end
  end.

(** [spaces_name_idx] is on the owner and the lower-case name. *)
Definition sp_key (p : Space) : uuid * string := (OwnerID p, ToLower (sp_Name p)).
Definition space_constraints (d : space_db) : list (constraint Space) :=
  [check "spaces_name_check" (λ p, negb (String.eqb (sp_Name p) ""));
   primary_key "spaces_pkey";
   unique_index "spaces_name_idx" sp_key;
   foreign_key "spaces_space_template_id_fkey"
     (λ p, existsb (has_ID (sp_SpaceTemplateID p)) (template_rows d))].

Definition space_Load (d : space_db) (ID : uuid) : res Space :=
  match t_first (has_ID ID) (space_rows d) with
  | Some p => Ok p
  | None => Err (NotFoundError "space" (uuid_String ID) None)
  end.
Definition space_LoadMany (d : space_db) (IDs : list uuid) : list Space :=
  if Nat.eqb (length IDs) 0 then [] else t_where (λ p, bool_decide (sp_ID p ∈ IDs)) (space_rows d).
Definition space_CheckExists (d : space_db) (id : uuid) : res unit := CheckExists "spaces" (space_rows d) id.

Definition space_Create (now : Time) (newID : uuid) (space : Space) : spm Space := λ d,
  let space := if bool_decide (sp_ID space = uuid_Nil)
               then sp_with space (sp_Lifecycle space) newID (sp_Version space) else space in
  match template_Load d (sp_SpaceTemplateID space) with
  | Err _ => (Err (NotFoundError "space template" (uuid_String (sp_SpaceTemplateID space)) None), d)
  | Panic m => (Panic m, d)
  | Ok templ =>
      if negb (tp_CanConstruct templ)
      then (Err (ForbiddenError "space template %q (ID: %s) cannot create spaces"), d)
      else match t_insert (space_constraints d) now space (space_rows d) with
           | inl v => (Err (if IsCheckViolation v "spaces_name_check"
                            then BadParameterError "Name" (sp_Name space) (Some "not empty") None
                            else if IsUniqueViolation v "spaces_name_idx"
                            then DataConflictError "space already exists ( for this user ) : %s "
                            else InternalError (driver_error v)), d)
           | inr (space, t) => (Ok space, set_spaces t d)
           end
  end.
Definition space_Save (now : Time) (p : Space) : spm Space := λ d,
  let oldVersion := sp_Version p in
  let p := sp_with p (sp_Lifecycle p) (sp_ID p) (wrap64 (sp_Version p + 1)) in
  match t_first (has_ID (sp_ID p)) (space_rows d) with
  | None => (Err (NotFoundError "space" (uuid_String (sp_ID p)) None), d)
  | Some _ =>
      match t_update (space_constraints d) now (λ x, sp_Version x =? oldVersion) p (space_rows d) with
      | inl v => (Err (if IsCheckViolation v "spaces_name_check"
                       then BadParameterError "Name" (sp_Name p) (Some "not empty") None
                       else if IsUniqueViolation v "spaces_name_idx"
                       then BadParameterError "Name" (sp_Name p) (Some "unique") None
                       else InternalError (driver_error v)), d)
      | inr (_, O, _) => (Err (VersionConflictError "version conflict"), d)
      | inr (p, _, t) => (Ok p, set_spaces t d)
      end
  end.
Definition space_Delete (now : Time) (ID : uuid) : spm unit := λ d,
  if bool_decide (ID = uuid_Nil) then (Err (NotFoundError "space" (uuid_String ID) None), d)
  else let '(n, t) := t_delete now (by_primary_key ID) (space_rows d) in
       if Nat.eqb n 0 then (Err (NotFoundError "space" (uuid_String ID) None), d)
       else (Ok tt, set_spaces t d).
(** [Unscoped]: the row itself, deleted or not; rows that refer to it go with it. *)
Definition space_PermanentDelete (ID : uuid) : spm unit := λ d,
  if bool_decide (ID = uuid_Nil) then (Err (NotFoundError "space" (uuid_String ID) None), d)
  else let t := List.filter (λ p, negb (by_primary_key ID p)) (space_rows d) in
       if Nat.eqb (length t) (length (space_rows d))
       then (Err (NotFoundError "space" (uuid_String ID) None), d)
       else (Ok tt, set_spaces t d).

(** ** Lists of spaces *)

Definition updated_desc (a b : Space) : Prop :=
  instant (UpdatedAt (sp_Lifecycle b)) ≤ instant (UpdatedAt (sp_Lifecycle a)).
#[export] Instance updated_desc_dec a b : Decision (updated_desc a b).
Proof. unfold updated_desc. apply _. Defined.
(** The conditions are joined as [(name AND owner) OR description]. *)
Definition space_matches (q : option string) (userID : option uuid) (p : Space) : bool :=
  let owner := match userID with Some u => bool_decide (OwnerID p = u) | None => true end in
  match q with
  | Some q => let pattern := "%" +:+ ToLower q +:+ "%" in
              (like (ToLower (sp_Name p)) pattern && owner) || like (ToLower (sp_Description p)) pattern
  | None => owner
  end.
(** The total of an empty page is counted without the owner. *)
Definition listSpaceFromDB (q : option string) (userID : option uuid) (start limit : option Z)
    (d : space_db) : res (list Space * Z) :=
  _ ← page_limits start limit;
  let all := merge_sort updated_desc (t_where (space_matches q userID) (space_rows d)) in
  let result := page start limit all in
  let count := match result with
               | [] => match q with
                       | Some _ => 0
                       | None => Z.of_nat (length (t_where (λ _, true) (space_rows d)))
                       end
               | _ => Z.of_nat (length all)
               end in
  Ok (result, count).
Definition space_List (start limit : option Z) (d : space_db) : res (list Space * Z) :=
  with_stack (listSpaceFromDB None None start limit d).
Definition space_Search (q : option string) (start limit : option Z) (d : space_db) : res (list Space * Z) :=
  with_stack (listSpaceFromDB q None start limit d).
Definition LoadByOwner (userID : option uuid) (start limit : option Z) (d : space_db) : res (list Space * Z) :=
  with_stack (listSpaceFromDB None userID start limit d).
Definition LoadByOwnerAndName (userID : uuid) (spaceName : string) (d : space_db) : res Space :=
  match t_first (λ p, bool_decide (OwnerID p = userID)
                      && String.eqb (ToLower (sp_Name p)) (ToLower spaceName)) (space_rows d) with
  | Some p => Ok p
  | None => Err (NotFoundError "space" spaceName None)
  end.
End Repositories.
