(* ===== verification/Areas.v ===== *)
(** * Areas

    [area/area.go]: the tree of areas of a space and the operations of
    [GormAreaRepository]. *)

From Stdlib Require Import ZArith Lia Ascii String.
From S2P Require Export Path Trees.
Import Path.

Record Area := {
  ar_Lifecycle : Lifecycle;
  ar_Number : HumanFriendlyNumber;
  ar_ID : uuid;
  ar_SpaceID : uuid;
  ar_Path : list uuid;
  ar_Name : string;
  ar_Version : Z;
}.
Definition ar_with (a : Area) (lc : Lifecycle) (number : HumanFriendlyNumber) (ID : uuid) (path : list uuid)
    : Area :=
  {| ar_Lifecycle := lc; ar_Number := number; ar_ID := ID; ar_SpaceID := ar_SpaceID a; ar_Path := path;
     ar_Name := ar_Name a; ar_Version := ar_Version a |}.
#[export] Instance Area_Row : Row Area :=
  {| row_ID := ar_ID; row_life := ar_Lifecycle;
     with_life := λ lc a, ar_with a lc (ar_Number a) (ar_ID a) (ar_Path a) |}.
#[export] Instance Area_RowLaws : RowLaws Area.
Proof. by split. Qed.
#[export] Instance Area_Node : Node Area := {| n_space := ar_SpaceID; n_path := ar_Path |}.
#[export] Instance Area_NodeLaws : NodeLaws Area.
Proof. by split. Qed.

Definition area_MakeChildOf (newID : uuid) (m parent : Area) : Area :=
  let ID := if bool_decide (ar_ID m = uuid_Nil) then newID else ar_ID m in
  ar_with m (ar_Lifecycle m) (ar_Number m) ID (ar_Path parent ++ [ID]).

Record area_db := {
  areas : list Area;
  ar_sequences : number_sequences;
  ar_spaces : list uuid;
}.
Notation arm A := (area_db → res A * area_db).

(** The index is over the space, the common ancestor of the path with itself and the name. *)
Definition ar_key (a : Area) : uuid * list uuid * string := (ar_SpaceID a, removelast (ar_Path a), ar_Name a).
Definition ar_constraints (d : area_db) : list (constraint Area) :=
  [check "non_empty_path_check" (λ a, negb (IsEmpty (ar_Path a)));
   primary_key "areas_pkey";
   unique_index "areas_name_space_id_path_unique" ar_key;
   foreign_key "areas_space_id_spaces_id_fk" (λ a, bool_decide (ar_SpaceID a ∈ ar_spaces d))].

Section Repository.
Context {HO : UuidOps}.

Definition area_prepare (newID : uuid) (u : Area) : res Area :=
  let u := if bool_decide (ar_ID u = uuid_Nil)
           then ar_with u (ar_Lifecycle u) (ar_Number u) newID [newID] else u in
  if Nat.eqb (length (ar_Path u)) 0
  then Ok (ar_with u (ar_Lifecycle u) (ar_Number u) (ar_ID u) [ar_ID u])
  else if negb (bool_decide (This (ar_Path u) = ar_ID u))
       then Err (Plain "area path has to end with area ID %s") else Ok u.
Definition area_Create (now : Time) (newID : uuid) (u : Area) : arm Area := λ d,
  let u := ar_with u (ar_Lifecycle u) (NewHumanFriendlyNumber (ar_SpaceID u) "areas" []) (ar_ID u) (ar_Path u) in
  match area_prepare newID u with
  | Err e => (Err e, d)
  | Panic m => (Panic m, d)
  | Ok u =>
      match BeforeCreate (ar_spaces d) (ar_Number u) (ar_sequences d) with
      | (Err e, _) => (Err e, d)
      | (Panic m, _) => (Panic m, d)
      | (Ok n, seqs) =>
          let u := ar_with u (ar_Lifecycle u) n (ar_ID u) (ar_Path u) in
          let row := ar_with u (ar_Lifecycle u) (number_column n) (ar_ID u) (ar_Path u) in
          match t_insert (ar_constraints d) now row (areas d) with
          | inl v => (Err (if IsUniqueViolation v "areas_name_space_id_path_unique"
                           then DataConflictError "area already exists with name = %s , space_id = %s , path = %s "
                           else driver_error v), d)
          | inr (row, t) =>
              (Ok (with_life (row_life row) u),
               {| areas := t; ar_sequences := seqs; ar_spaces := ar_spaces d |})
          end
      end
  end.
Definition area_List (spaceID : uuid) (d : area_db) : list Area :=
  t_where (λ a, bool_decide (ar_SpaceID a = spaceID)) (areas d).
Definition area_Load (id : uuid) (d : area_db) : res Area :=
  match t_first (has_ID id) (areas d) with
  | Some a => Ok a
  | None => Err (NotFoundError "Area" (uuid_String id) None)
  end.
Definition area_CheckExists (id : uuid) (d : area_db) : res unit := CheckExists "areas" (areas d) id.
(** The conditions pile up in the repository, as those of iterations do. *)
Definition area_LoadMultiple (conds ids : list uuid) (d : area_db) : list Area * list uuid :=
  if Nat.eqb (length ids) 0 then ([], conds)
  else let conds := conds ++ ids in (t_where (λ a, bool_decide (ar_ID a ∈ conds)) (areas d), conds).
(** [path ~ (parent || '.*{1}')] *)
Definition area_ListChildren (parentArea : Area) (d : area_db) : list Area :=
  let l := map ConvertToLtree (ar_Path parentArea) in
  t_where (λ x, let k := map ConvertToLtree (ar_Path x) in
                bool_decide (take (length l) k = l) && Nat.eqb (length k) (S (length l))) (areas d).

(** [Query] with its scopes; a raw query on the table of areas, which finds live rows. *)
Definition area_Query (scopes : list (Area → bool)) (d : area_db) : list Area :=
  t_where (λ a, forallb (λ f, f a) scopes) (areas d).
Definition FilterBySpaceID (spaceID : uuid) (a : Area) : bool := bool_decide (ar_SpaceID a = spaceID).
Definition area_Root (spaceID : uuid) (d : area_db) : res Area :=
  match area_Query [FilterBySpaceID spaceID;
                    λ a, bool_decide (ar_SpaceID a = spaceID) && Nat.eqb (length (ar_Path a)) 1] d with
  | [a] => Ok a
  | _ => Err (InternalError (Plain "single Root area not found for space %s"))
  end.

(** [CreateChild] of [controller/area.go] inside its transaction: [owner] is what loading the space gives. *)
Definition area_CreateChild (now : Time) (newID newID' : uuid) (owner : uuid → res uuid) (currentUser parentID : uuid)
    (name : option string) : arm Area := λ d,
  match area_Load parentID d with
  | Ok parent =>
      match owner (ar_SpaceID parent) with
      | Ok o =>
          if negb (bool_decide (currentUser = o)) then (Err (ForbiddenError "user is not the space owner"), d)
          else match name with
               | None => (Err (BadParameterError "data.attributes.name" "<nil>" (Some "not nil") None), d)
               | Some name =>
                   let a := {| ar_Lifecycle := stamped now; ar_Number := NewHumanFriendlyNumber uuid_Nil "" [];
                               ar_ID := uuid_Nil; ar_SpaceID := ar_SpaceID parent; ar_Path := [];
                               ar_Name := name; ar_Version := 0 |} in
                   area_Create now newID' (area_MakeChildOf newID a parent) d
               end
      | Err e => (Err e, d)
      | Panic m => (Panic m, d)
      end
  | Err e => (Err e, d)
  | Panic m => (Panic m, d)
  end.
End Repository.

(** [getResolvePath]: the names on the way from the root down to the parent. *)
Definition getAreaByID (id : uuid) (areas : list Area) : option Area :=
  List.find (λ a, bool_decide (ar_ID a = id)) areas.
Definition getResolvePath (a : Area) (d : area_db) : string :=
  let parentUuids := ParentPath (ar_Path a) in
  let parentAreas := (area_LoadMultiple [] parentUuids d).1 in
  let pathResolved := fold_left (λ s id, match getAreaByID id parentAreas with
                                         | None => s
                                         | Some area => s +:+ SepInService +:+ ar_Name area
                                         end) parentUuids "" in
  if String.eqb pathResolved "" then "/" else pathResolved.
