(* ===== verification/Labels.v ===== *)
(** * Labels

    [label/label.go]: the labels of a space and the operations of
    [GormLabelRepository]. *)

From Stdlib Require Import ZArith Lia Ascii String.
From S2P Require Export Tables.

Record Label_ := {
  lb_Lifecycle : Lifecycle;
  lb_ID : uuid;
  lb_SpaceID : uuid;
  lb_Name : string;
  TextColor : string;
  BackgroundColor : string;
  BorderColor : string;
  lb_Version : Z;
}.
Definition lb_with (l : Label_) (lc : Lifecycle) (ID : uuid) (text background border : string) (version : Z)
    : Label_ :=
  {| lb_Lifecycle := lc; lb_ID := ID; lb_SpaceID := lb_SpaceID l; lb_Name := lb_Name l; TextColor := text;
     BackgroundColor := background; BorderColor := border; lb_Version := version |}.
Definition lb_set (l : Label_) (lc : Lifecycle) (ID : uuid) (version : Z) : Label_ :=
  lb_with l lc ID (TextColor l) (BackgroundColor l) (BorderColor l) version.
#[export] Instance Label_Row : Row Label_ :=
  {| row_ID := lb_ID; row_life := lb_Lifecycle; with_life := λ lc l, lb_set l lc (lb_ID l) (lb_Version l) |}.
#[export] Instance Label_RowLaws : RowLaws Label_.
Proof. by split. Qed.

(** ['^#[A-Fa-f0-9]{6}$'] *)
Definition hex_digit (c : ascii) : bool :=
  let n := nat_of_ascii c in
  (Nat.leb 48 n && Nat.leb n 57) || (Nat.leb 65 n && Nat.leb n 70) || (Nat.leb 97 n && Nat.leb n 102).
Definition is_color (s : string) : bool :=
  match chars s with
  | c :: l => bool_decide (c = "#"%char) && Nat.eqb (length l) 6 && forallb hex_digit l
  | [] => false
  end.
Definition lb_key (l : Label_) : uuid * string := (lb_SpaceID l, lb_Name l).
Definition label_constraints (spaces : list uuid) : list (constraint Label_) :=
  [check "labels_name_check" (λ l, negb (String.eqb (lb_Name l) ""));
   check "labels_text_color_check" (λ l, is_color (TextColor l));
   check "labels_background_color_check" (λ l, is_color (BackgroundColor l));
   check "labels_border_color_check" (λ l, is_color (BorderColor l));
   primary_key "labels_pkey";
   unique_index "labels_name_space_id_unique_idx" lb_key;
   foreign_key "labels_space_id_fkey" (λ l, bool_decide (lb_SpaceID l ∈ spaces))].

Record label_db := { labels : list Label_; lb_spaces : list uuid }.
Definition set_labels (t : list Label_) (d : label_db) : label_db :=
  {| labels := t; lb_spaces := lb_spaces d |}.
Notation lbm A := (label_db → res A * label_db).

Section Repository.
Context {HO : UuidOps}.

Definition empty_label_name (name : string) : error :=
  BadParameterError "label name cannot be empty string" name (Some "non empty string") None.
(** The insert leaves a blank column out, and the database fills in the default. *)
Definition default_color (s default : string) : string := if String.eqb s "" then default else s.
Definition label_Create (now : Time) (newID : uuid) (u : Label_) : lbm Label_ := λ d,
  let u := lb_set u (lb_Lifecycle u) newID (lb_Version u) in
  if String.eqb (TrimSpace (lb_Name u)) "" then (Err (empty_label_name (lb_Name u)), d)
  else
    let u := lb_with u (lb_Lifecycle u) newID (default_color (TextColor u) "#000000")
               (default_color (BackgroundColor u) "#FFFFFF") (default_color (BorderColor u) "#000000")
               (lb_Version u) in
    match t_insert (label_constraints (lb_spaces d)) now u (labels d) with
    | inl v => (Err (if IsUniqueViolation v "labels_name_space_id_unique_idx"
                     then DataConflictError "label already exists with name = %s , space_id = %s"
                     else driver_error v), d)
    | inr (u, t) => (Ok u, set_labels t d)
    end.
Definition label_Save (now : Time) (l : Label_) : lbm Label_ := λ d,
  if String.eqb (TrimSpace (lb_Name l)) "" then (Err (empty_label_name (lb_Name l)), d)
  else
    let oldVersion := lb_Version l in
    match t_first (has_ID (lb_ID l)) (labels d) with
    | None => (Err (NotFoundError "label" (uuid_String (lb_ID l)) None), d)
    | Some lbl =>
        let l := lb_set l (lb_Lifecycle l) (lb_ID l) (wrap64 (lb_Version lbl + 1)) in
        match t_update (label_constraints (lb_spaces d)) now (λ x, lb_Version x =? oldVersion) l (labels d) with
        | inl v => (Err (if IsUniqueViolation v "labels_name_space_id_unique_idx"
                         then DataConflictError "label already exists with name = %s , space_id = %s"
                         else InternalError (driver_error v)), d)
        | inr (_, O, _) => (Err (VersionConflictError "version conflict"), d)
        | inr (l, _, t) => (Ok l, set_labels t d)
        end
    end.
Definition label_List (d : label_db) (spaceID : uuid) : list Label_ :=
  t_where (λ l, bool_decide (lb_SpaceID l = spaceID)) (labels d).
Definition label_IsValid (d : label_db) (id : uuid) : bool := is_ok (CheckExists "labels" (labels d) id).
Definition label_Load (d : label_db) (ID : uuid) : res Label_ :=
  match t_first (has_ID ID) (labels d) with
  | Some l => Ok l
  | None => Err (NotFoundError "label" (uuid_String ID) None)
  end.
End Repository.
