(* ===== verification/Queries.v ===== *)
(** * Saved queries

    [query/query.go]: the filters users save, which the parser of the search
    must accept, and the operations of [GormQueryRepository]. *)

From Stdlib Require Import ZArith Lia Ascii String SpecFloat.
From S2P Require Export Search Tables.

Record SavedQuery := {
  q_Lifecycle : Lifecycle;
  q_ID : uuid;
  q_SpaceID : uuid;
  Creator : uuid;
  Title : string;
  q_Fields : string;
  q_Version : Z;
}.
Definition q_with (q : SavedQuery) (lc : Lifecycle) (ID : uuid) (version : Z) : SavedQuery :=
  {| q_Lifecycle := lc; q_ID := ID; q_SpaceID := q_SpaceID q; Creator := Creator q; Title := Title q;
     q_Fields := q_Fields q; q_Version := version |}.
#[export] Instance SavedQuery_Row : Row SavedQuery :=
  {| row_ID := q_ID; row_life := q_Lifecycle; with_life := λ lc q, q_with q lc (q_ID q) (q_Version q) |}.
#[export] Instance SavedQuery_RowLaws : RowLaws SavedQuery.
Proof. by split. Qed.

Definition q_key (q : SavedQuery) : string * uuid * uuid := (Title q, q_SpaceID q, Creator q).
Definition query_constraints (spaces : list uuid) : list (constraint SavedQuery) :=
  [check "queries_title_check" (λ q, negb (String.eqb (Title q) ""));
   primary_key "queries_pkey";
   unique_index "queries_title_space_id_creator_unique" q_key;
   foreign_key "queries_space_id_fkey" (λ q, bool_decide (q_SpaceID q ∈ spaces))].

Record query_db := { queries : list SavedQuery; q_spaces : list uuid }.
Definition set_queries (t : list SavedQuery) (d : query_db) : query_db :=
  {| queries := t; q_spaces := q_spaces d |}.
Notation qm A := (query_db → res A * query_db).

Section Repository.
Context {HO : UuidOps}.
(** [json.Unmarshal] into a map: the members, in the order a range visits them; [None]: an error. *)
Context (unmarshal : string → option (list (string * gval))) (ks : list string).

Definition invalid_json (fields : string) : error :=
  BadParameterError "query field is invalid JSON syntax" fields (Some "valid JSON") None.
(** [Some None]: the parser made no expression of the filter, and reported no error. *)
Definition parse_fields (fields : string) : res (option Expression) :=
  match unmarshal fields with
  | None => Err (invalid_json fields)
  | Some m => (ParseFilterString ks m).1
  end.
(** A filter without an expression is not stored, yet no error is returned: [None]. *)
Definition query_Create (now : Time) (newID : uuid) (q : SavedQuery) : qm (option SavedQuery) := λ d,
  let q := q_with q (q_Lifecycle q) newID (q_Version q) in
  if bool_decide (Creator q = uuid_Nil)
  then (Err (BadParameterError "creator cannot be nil" (uuid_String (Creator q)) (Some "valid user ID") None), d)
  else match parse_fields (q_Fields q) with
       | Err e => (Err e, d)
       | Panic m => (Panic m, d)
       | Ok None => (Ok None, d)
       | Ok (Some _) =>
           match t_insert (query_constraints (q_spaces d)) now q (queries d) with
           | inl v => (Err (if IsCheckViolation v "queries_title_check"
                            then BadParameterError "Title" (Title q) (Some "not empty") None
                            else if IsUniqueViolation v "queries_title_space_id_creator_unique"
                            then DataConflictError "query already exists with title = %s , space_id = %s, creator = %s"
                            else driver_error v), d)
           | inr (q, t) => (Ok (Some q), set_queries t d)
           end
       end.
(** The filter is only checked for its JSON syntax here. *)
Definition query_Save (now : Time) (q : SavedQuery) : qm SavedQuery := λ d,
  if String.eqb (TrimSpace (Title q)) ""
  then (Err (BadParameterError "query title cannot be empty string" (Title q) (Some "non empty string") None), d)
  else match unmarshal (q_Fields q) with
       | None => (Err (invalid_json (q_Fields q)), d)
       | Some _ =>
           let oldVersion := q_Version q in
           match t_first (has_ID (q_ID q)) (queries d) with
           | None => (Err (NotFoundError "query" (uuid_String (q_ID q)) None), d)
           | Some qry =>
               let q := q_with q (q_Lifecycle q) (q_ID q) (wrap64 (q_Version qry + 1)) in
               match t_update (query_constraints (q_spaces d)) now (λ x, q_Version x =? oldVersion) q (queries d) with
               | inl v => (Err (if IsUniqueViolation v "queries_title_space_id_creator_unique"
                                then DataConflictError "query already exists with title = %s , space_id = %s"
                                else InternalError (driver_error v)), d)
               | inr (_, O, _) => (Err (VersionConflictError "version conflict"), d)
               | inr (q, _, t) => (Ok q, set_queries t d)
               end
           end
       end.
Definition query_CheckExists (id : uuid) (d : query_db) : res unit := CheckExists "queries" (queries d) id.
Definition query_List (spaceID : uuid) (d : query_db) : list SavedQuery :=
  t_where (λ q, bool_decide (q_SpaceID q = spaceID)) (queries d).
Definition ListByCreator (spaceID creatorID : uuid) (d : query_db) : list SavedQuery :=
  t_where (λ q, bool_decide (q_SpaceID q = spaceID) && bool_decide (Creator q = creatorID)) (queries d).
Definition query_Load (ID spaceID : uuid) (d : query_db) : res SavedQuery :=
  match t_first (λ q, has_ID ID q && bool_decide (q_SpaceID q = spaceID)) (queries d) with
  | Some q => Ok q
  | None => Err (NotFoundError "query" (uuid_String ID) None)
  end.
(** Unlike the other repositories this one does not turn down the nil id. *)
Definition query_Delete (now : Time) (ID : uuid) : qm unit := λ d,
  let '(n, t) := t_delete now (by_primary_key ID) (queries d) in
  if Nat.eqb n 0 then (Err (NotFoundError "query" (uuid_String ID) None), d)
  else (Ok tt, set_queries t d).
End Repository.
