(* ===== verification/Codebases.v ===== *)
(** * Codebases

    [codebase/codebase.go]: the codebases of a space and the operations of
    [GormCodebaseRepository], and [setupCodebase] of [controller/workitem.go],
    which gives the contents of a field its codebase. *)

From Stdlib Require Import ZArith Lia Ascii String SpecFloat.
From S2P Require Export Values Tables.

Record Codebase := {
  cb_Lifecycle : Lifecycle;
  cb_ID : uuid;
  cb_SpaceID : uuid;
  cb_Type : string;
  cb_URL : string;
  StackID : option string;
  LastUsedWorkspace : string;
  CVEScan : bool;
}.
Definition cb_set (c : Codebase) (lc : Lifecycle) (ID : uuid) : Codebase :=
  {| cb_Lifecycle := lc; cb_ID := ID; cb_SpaceID := cb_SpaceID c; cb_Type := cb_Type c; cb_URL := cb_URL c;
     StackID := StackID c; LastUsedWorkspace := LastUsedWorkspace c; CVEScan := CVEScan c |}.
#[export] Instance Codebase_Row : Row Codebase :=
  {| row_ID := cb_ID; row_life := cb_Lifecycle; with_life := λ lc c, cb_set c lc (cb_ID c) |}.
#[export] Instance Codebase_RowLaws : RowLaws Codebase.
Proof. by split. Qed.

Definition cb_key (c : Codebase) : string * uuid := (cb_URL c, cb_SpaceID c).
Definition codebase_constraints (spaces : list uuid) : list (constraint Codebase) :=
  [primary_key "codebases_pkey";
   unique_index "codebases_spaceid_url_idx" cb_key;
   foreign_key "codebases_space_id_fkey" (λ c, bool_decide (cb_SpaceID c ∈ spaces))].

Record codebase_db := { codebases : list Codebase; cb_spaces : list uuid }.
Definition set_codebases (t : list Codebase) (d : codebase_db) : codebase_db :=
  {| codebases := t; cb_spaces := cb_spaces d |}.
Notation cbm A := (codebase_db → res A * codebase_db).

Section Repository.
Context {HO : UuidOps}.

Definition codebase_Create (now : Time) (newID : uuid) (c : Codebase) : cbm Codebase := λ d,
  let c := if bool_decide (cb_ID c = uuid_Nil) then cb_set c (cb_Lifecycle c) newID else c in
  match t_insert (codebase_constraints (cb_spaces d)) now c (codebases d) with
  | inl v => (Err (if IsUniqueViolation v "codebases_spaceid_url_idx"
                   then DataConflictError "codebase already exists with URL = %s, space_id = %s"
                   else Stacked (driver_error v)), d)
  | inr (c, t) => (Ok c, set_codebases t d)
  end.
Definition codebase_Delete (now : Time) (ID : uuid) : cbm unit := λ d,
  if bool_decide (ID = uuid_Nil) then (Err (NotFoundError "codebase" (uuid_String ID) None), d)
  else match t_delete now (by_primary_key ID) (codebases d) with
       | (O, _) => (Err (NotFoundError "codebase" (uuid_String ID) None), d)
       | (_, t) => (Ok tt, set_codebases t d)
       end.
Definition codebase_Save (now : Time) (c : Codebase) : cbm Codebase := λ d,
  match t_first (has_ID (cb_ID c)) (codebases d) with
  | None => (Err (NotFoundError "codebase" (uuid_String (cb_ID c)) None), d)
  | Some _ =>
      match t_update (codebase_constraints (cb_spaces d)) now (λ _, true) c (codebases d) with
      | inl v => (Err (InternalError (driver_error v)), d)
      | inr (c, _, t) => (Ok c, set_codebases t d)
      end
  end.
(** The rows have no order of their own: they come in the order of the table. *)
Definition codebase_page (p : Codebase → bool) (start limit : option Z) (d : codebase_db) : res (list Codebase * Z) :=
  _ ← page_limits start limit;
  let all := t_where p (codebases d) in
  Ok (page start limit all, Z.of_nat (length all)).
Definition codebase_List (spaceID : uuid) (start limit : option Z) (d : codebase_db) : res (list Codebase * Z) :=
  codebase_page (λ c, bool_decide (cb_SpaceID c = spaceID)) start limit d.
Definition codebase_SearchByURL (url : string) (start limit : option Z) (d : codebase_db) : res (list Codebase * Z) :=
  codebase_page (λ c, String.eqb (cb_URL c) url) start limit d.
Definition codebase_CheckExists (d : codebase_db) (id : uuid) : res unit := CheckExists "codebases" (codebases d) id.
Definition codebase_Load (id : uuid) (d : codebase_db) : res Codebase :=
  match t_first (has_ID id) (codebases d) with
  | Some c => Ok c
  | None => Err (NotFoundError "codebase" (uuid_String id) None)
  end.
Definition codebase_LoadByRepo (spaceID : uuid) (repository : string) (d : codebase_db) : res Codebase :=
  match t_first (λ c, String.eqb (cb_URL c) repository && bool_decide (cb_SpaceID c = spaceID)) (codebases d) with
  | Some c => Ok c
  | None => Err (NotFoundError "codebase url" repository None)
  end.

(** [newID] is the id that [Create] draws.  The callers drop the error. *)
Definition with_CodebaseID (cb : Content) (ID : string) : Content :=
  {| Repository := Repository cb; Branch := Branch cb; FileName := FileName cb; LineNumber := LineNumber cb;
     CodebaseID := ID |}.
Definition setupCodebase (now : Time) (newID : uuid) (cb : Content) (spaceID : uuid) : codebase_db → Content * res unit * codebase_db :=
  λ d,
  if String.eqb (CodebaseID cb) "" then
    let newCodeBase := {| cb_Lifecycle := stamped {| instant := 0; representation := 0 |}; cb_ID := uuid_Nil;
                          cb_SpaceID := spaceID; cb_Type := "git"; cb_URL := Repository cb;
                          StackID := Some "java-centos"; LastUsedWorkspace := ""; CVEScan := false |} in
    match codebase_LoadByRepo spaceID (Repository cb) d with
    | Ok existingCB => (with_CodebaseID cb (uuid_String (cb_ID existingCB)), Ok tt, d)
    | _ => match codebase_Create now newID newCodeBase d with
           | (Ok c, d) => (with_CodebaseID cb (uuid_String (cb_ID c)), Ok tt, d)
           | (Err e, d) => (cb, Err (InternalError e), d)
           | (Panic m, d) => (cb, Panic m, d)
           end
    end
  else (cb, Ok tt, d).
End Repository.

(** ** What holds of the table *)

Record cb_wf (d : codebase_db) : Prop := {
  cb_ids : ids_unique (codebases d);
  cb_urls : unique_on cb_key (codebases d);
}.

Section Facts.
Context {HO : UuidOps}.

Lemma codebase_Create_ok now newID c c' d d' : codebase_Create now newID c d = (Ok c', d') →
  t_insert (codebase_constraints (cb_spaces d)) now
    (if bool_decide (cb_ID c = uuid_Nil) then cb_set c (cb_Lifecycle c) newID else c) (codebases d) = inr (c', codebases d')
  ∧ cb_spaces d' = cb_spaces d.
Proof. unfold codebase_Create. destruct (t_insert _ _ _ _) as [v|[x t]]; [done|]. by intros [= <- <-]. Qed.
Lemma codebase_Create_failed now newID c d : is_ok (codebase_Create now newID c d).1 = false → (codebase_Create now newID c d).2 = d.
Proof. unfold codebase_Create. by destruct (t_insert _ _ _ _) as [v|[x t]]. Qed.
Lemma insert_wf d now c c' t : t_insert (codebase_constraints (cb_spaces d)) now c (codebases d) = inr (c', t) →
  cb_wf d → cb_wf (set_codebases t d).
Proof.
  intros H [Hi Hu]. split; cbn.
  - eapply t_insert_ids; [|done..]. apply list_elem_of_here.
  - eapply t_insert_unique; [|done..]. right. apply list_elem_of_here.
Qed.
Lemma codebase_Create_wf now newID c d : cb_wf d → cb_wf (codebase_Create now newID c d).2.
Proof.
  intros Hwf. unfold codebase_Create. destruct (t_insert _ _ _ _) as [v|[c' t]] eqn:E; [done|]. by eapply insert_wf.
Qed.
Lemma codebase_Delete_wf now ID d : cb_wf d → cb_wf (codebase_Delete now ID d).2.
Proof.
  intros [Hi Hu]. unfold codebase_Delete. case_bool_decide; [done|].
  pose proof (t_delete_ids now (by_primary_key ID) _ Hi) as HI.
  pose proof (t_delete_unique cb_key now (by_primary_key ID) _ Hu) as HU.
  destruct (t_delete now _ _) as [[|n] t]; [done|by split].
Qed.
Lemma codebase_Save_wf now c d : cb_wf d → cb_wf (codebase_Save now c d).2.
Proof.
  intros [Hi Hu]. unfold codebase_Save. destruct (t_first _ _); [|done].
  destruct (t_update _ _ _ _ _) as [v|[[c' n] t]] eqn:E; [done|]. split; cbn.
  - by eapply t_update_ids.
  - eapply t_update_unique; [|done..]. right. apply list_elem_of_here.
Qed.
Lemma setupCodebase_wf now newID cb spaceID d : cb_wf d → cb_wf (setupCodebase now newID cb spaceID d).2.
Proof.
  intros Hwf. unfold setupCodebase. destruct (String.eqb _ _); [|done]. destruct (codebase_LoadByRepo _ _ _) as [c|e|m]; [done| |].
  all: match goal with |- context [codebase_Create ?now ?i ?c ?d] =>
         pose proof (codebase_Create_wf now i c d Hwf) as H; destruct (codebase_Create now i c d) as [[x|e'|m'] d'] end; exact H.
Qed.

(** The live codebase of a repository in a space. *)
Definition codebase_of (spaceID : uuid) (url : string) (c : Codebase) (d : codebase_db) : Prop :=
  c ∈ codebases d ∧ row_live c = true ∧ cb_URL c = url ∧ cb_SpaceID c = spaceID.
Lemma LoadByRepo_some spaceID url d c : codebase_LoadByRepo spaceID url d = Ok c → codebase_of spaceID url c d.
Proof.
  unfold codebase_LoadByRepo. destruct (t_first _ _) as [x|] eqn:E; [|done]. intros [= <-].
  apply t_first_some in E as (Hin & Hl & [Hu%String.eqb_eq Hs%bool_decide_eq_true]%andb_prop). done.
Qed.
Lemma LoadByRepo_of spaceID url d c : cb_wf d → codebase_of spaceID url c d → codebase_LoadByRepo spaceID url d = Ok c.
Proof.
  intros [Hi Hu] (Hin & Hl & Hurl & Hs). destruct (codebase_LoadByRepo spaceID url d) as [x|e|m] eqn:E.
  - apply LoadByRepo_some in E as (Hx & Lx & Ux & Sx). f_equal. apply (ids_unique_eq (codebases d)); [done..|].
    apply Hu; [done..|]. unfold cb_key. congruence.
  - exfalso. unfold codebase_LoadByRepo in E. destruct (t_first _ _) eqn:EF; [done|].
    rewrite t_first_none in EF. specialize (EF c Hin Hl). by rewrite Hurl, Hs, String.eqb_refl, bool_decide_true in EF.
  - unfold codebase_LoadByRepo in E. by destruct (t_first _ _).
Qed.

(** Contents without a codebase that name the same repository of a space get the same codebase, whether it was there
    or the first of them had it created; nothing is created by the second. *)
Theorem setupCodebase_shares now newID cb spaceID d cb' d' (Hwf : cb_wf d) (Hnew : newID ≠ uuid_Nil)
    (Hno : CodebaseID cb = "") (H : setupCodebase now newID cb spaceID d = (cb', Ok tt, d')) :
  (∃ c, codebase_of spaceID (Repository cb) c d' ∧ cb' = with_CodebaseID cb (uuid_String (cb_ID c))) ∧
  ∀ now2 newID2 cb2, CodebaseID cb2 = "" → Repository cb2 = Repository cb →
    setupCodebase now2 newID2 cb2 spaceID d' = (with_CodebaseID cb2 (CodebaseID cb'), Ok tt, d').
Proof.
  assert (HC : cb_wf d' ∧ ∃ c, codebase_of spaceID (Repository cb) c d' ∧ cb' = with_CodebaseID cb (uuid_String (cb_ID c))).
  { pose proof (setupCodebase_wf now newID cb spaceID d Hwf) as HW. rewrite H in HW. split; [exact HW|].
    unfold setupCodebase in H. rewrite Hno in H. cbn [String.eqb] in H.
    destruct (codebase_LoadByRepo _ _ _) as [c|e|m] eqn:EL.
    - simplify_eq. exists c. split; [by apply LoadByRepo_some|done].
    - destruct (codebase_Create _ _ _ _) as [[c|e'|m] d2] eqn:EC; [|done..]. simplify_eq.
      apply codebase_Create_ok in EC as [(Hc & Ht & _)%t_insert_ok _]. exists c. split; [|done].
      rewrite bool_decide_true in Hc by done. unfold codebase_of. rewrite Ht. subst c. split_and!; [|done..].
      apply elem_of_app. right. apply list_elem_of_here.
    - unfold codebase_LoadByRepo in EL. by destruct (t_first _ _). }
  destruct HC as [HW (c & Hc & ->)]. split; [by exists c|]. intros now2 newID2 cb2 Hno2 HR. unfold setupCodebase.
  rewrite Hno2, HR, (LoadByRepo_of _ _ _ _ HW Hc). done.
Qed.
End Facts.
