(* ===== verification/Accounts.v ===== *)
(** * Users and identities

    [account/identity.go], [account/user.go] and [account/context_information.go]:
    the two tables and every operation of their repositories.  The user that an
    identity may carry along is a second result instead of a field. *)

From Stdlib Require Import ZArith Lia Ascii String SpecFloat.
From S2P Require Export Values Tables.

(** A context is a nil map or a map. *)
Notation ContextInformation := (option (gmap string gval)).

Record User := {
  us_Lifecycle : Lifecycle;
  us_ID : uuid;
  Email : string;
  FullName : string;
  ImageURL : string;
  Bio : string;
  us_URL : string;
  Company : string;
  us_Context : ContextInformation;
}.
Definition us_set (u : User) (lc : Lifecycle) (ID : uuid) : User :=
  {| us_Lifecycle := lc; us_ID := ID; Email := Email u; FullName := FullName u; ImageURL := ImageURL u; Bio := Bio u;
     us_URL := us_URL u; Company := Company u; us_Context := us_Context u |}.
#[export] Instance User_Row : Row User :=
  {| row_ID := us_ID; row_life := us_Lifecycle; with_life := λ lc u, us_set u lc (us_ID u) |}.
#[export] Instance User_RowLaws : RowLaws User.
Proof. by split. Qed.

Record Identity := {
  id_Lifecycle : Lifecycle;
  id_ID : uuid;
  Username : string;
  RegistrationCompleted : bool;
  ProviderType : string;
  ProfileURL : option string;
  UserID : option uuid;
}.
Definition id_set (i : Identity) (lc : Lifecycle) (ID : uuid) : Identity :=
  {| id_Lifecycle := lc; id_ID := ID; Username := Username i; RegistrationCompleted := RegistrationCompleted i;
     ProviderType := ProviderType i; ProfileURL := ProfileURL i; UserID := UserID i |}.
#[export] Instance Identity_Row : Row Identity :=
  {| row_ID := id_ID; row_life := id_Lifecycle; with_life := λ lc i, id_set i lc (id_ID i) |}.
#[export] Instance Identity_RowLaws : RowLaws Identity.
Proof. by split. Qed.

Record account_db := { identities : list Identity; users : list User }.
Definition set_identities (t : list Identity) (d : account_db) : account_db := {| identities := t; users := users d |}.
Definition set_users (t : list User) (d : account_db) : account_db := {| identities := identities d; users := t |}.
Notation acm A := (account_db → res A * account_db).

(** The index on the e-mail counts deleted rows too; profiles that are NULL never clash. *)
Definition email_index : constraint User :=
  {| reported := ViolatesUnique "uix_users_email"; violated := λ u others, existsb (λ x, String.eqb (Email x) (Email u)) others |}.
Definition user_constraints : list (constraint User) :=
  [check "email_notempty_check" (λ u, negb (String.eqb (trim_func (λ c, bool_decide (c = " "%char)) (Email u)) ""));
   primary_key "users_pkey"; email_index].
Definition same_profile (a b : Identity) : bool :=
  match ProfileURL a, ProfileURL b with Some x, Some y => String.eqb x y | _, _ => false end.
Definition profile_index : constraint Identity :=
  {| reported := ViolatesUnique "uix_identity_profileurl";
     violated := λ i others, row_live i && existsb (λ x, row_live x && same_profile x i) others |}.
Definition identity_constraints (d : account_db) : list (constraint Identity) :=
  [primary_key "identities_pkey"; profile_index;
   foreign_key "identities_user_id_fkey" (λ i, match UserID i with
                                                | Some u => existsb (has_ID u) (users d)
                                                | None => true
                                                end)].

(** [Save] of gorm: an update of the live row, an insertion when there is none. *)
Definition t_save {A} `{Row A} (cs : list (constraint A)) (now : Time) (a : A) (t : list A) : violation + A * list A :=
  match t_update cs now (λ _, true) a t with
  | inl v => inl v
  | inr (_, O, _) => t_insert cs now a t
  | inr (a, _, t) => inr (a, t)
  end.

Section Repositories.
Context {HO : UuidOps}.

(** ** Identities *)

Definition identity_Load (id : uuid) (d : account_db) : res Identity :=
  match t_first (has_ID id) (identities d) with
  | Some i => Ok i
  | None => Err (Stacked (NotFoundError "identity" (uuid_String id) None))
  end.
Definition identity_CheckExists (d : account_db) (id : uuid) : res unit := CheckExists "identities" (identities d) id.
Definition identity_IsValid (d : account_db) (id : uuid) : bool := is_ok (identity_CheckExists d id).
Definition identity_Create (now : Time) (newID : uuid) (i : Identity) : acm Identity := λ d,
  let i := if bool_decide (id_ID i = uuid_Nil) then id_set i (id_Lifecycle i) newID else i in
  match t_insert (identity_constraints d) now i (identities d) with
  | inl v => (Err (Stacked (driver_error v)), d)
  | inr (i, t) => (Ok i, set_identities t d)
  end.
Definition identity_Save (now : Time) (i : Identity) : acm Identity := λ d,
  match t_save (identity_constraints d) now i (identities d) with
  | inl v => (Err (Stacked (driver_error v)), d)
  | inr (i, t) => (Ok i, set_identities t d)
  end.
Definition identity_Delete (now : Time) (id : uuid) : acm unit := λ d,
  match t_delete now (by_primary_key id) (identities d) with
  | (O, _) => (Err (NotFoundError "identity" (uuid_String id) None), d)
  | (_, t) => (Ok tt, set_identities t d)
  end.

(** Filters are conditions and limits put on a query; [lower] is ASCII here as in [ToLower]. *)
Record filter_ := { f_where : Identity → bool; f_limit : option nat }.
Definition IdentityFilterByUserID (userID : uuid) : filter_ :=
  {| f_where := λ i, bool_decide (UserID i = Some userID); f_limit := None |}.
Definition IdentityFilterByUsername (username : string) : filter_ :=
  {| f_where := λ i, String.eqb (ToLower (Username i)) (ToLower username); f_limit := Some 1%nat |}.
Definition IdentityFilterByProfileURL (profileURL : string) : filter_ :=
  {| f_where := λ i, bool_decide (ProfileURL i = Some profileURL); f_limit := Some 1%nat |}.
Definition IdentityFilterByID (identityID : uuid) : filter_ := {| f_where := has_ID identityID; f_limit := None |}.
Definition IdentityFilterByProviderType (providerType : string) : filter_ :=
  {| f_where := λ i, String.eqb (ProviderType i) providerType; f_limit := None |}.
Definition IdentityFilterByRegistrationCompleted (registrationCompleted : bool) : filter_ :=
  {| f_where := λ i, Bool.eqb (RegistrationCompleted i) registrationCompleted; f_limit := None |}.
Definition identity_Query (funcs : list filter_) (d : account_db) : list Identity :=
  let all := t_where (λ i, forallb (λ f, f_where f i) funcs) (identities d) in
  match last (omap f_limit funcs) with Some n => take n all | None => all end.
Definition identity_First (funcs : list filter_) (d : account_db) : option Identity :=
  t_first (λ i, forallb (λ f, f_where f i) funcs) (identities d).
Definition identity_Lookup (now : Time) (newID : uuid) (username profileURL providerType : string) : acm Identity := λ d,
  if String.eqb username "" || String.eqb profileURL "" || String.eqb providerType ""
  then (Err (Plain "Cannot lookup identity with empty username, profile URL or provider type"), d)
  else match identity_First [IdentityFilterByProfileURL profileURL] d with
       | Some i => (Ok i, d)
       | None => s_map (wrapf "failed to create identity during lookup")
                   (identity_Create now newID
                      {| id_Lifecycle := stamped {| instant := 0; representation := 0 |}; id_ID := uuid_Nil;
                         Username := username; RegistrationCompleted := false; ProviderType := providerType;
                         ProfileURL := Some profileURL; UserID := None |}) d
       end.
Definition username_le (a b : Identity) : Prop := string_le (Username a) (Username b).
#[export] Instance username_le_dec a b : Decision (username_le a b).
Proof. unfold username_le. apply _. Defined.
Definition identity_List (d : account_db) : list Identity := merge_sort username_le (t_where (λ _, true) (identities d)).

(** Each hit with the user it is joined to; the value the rows are scanned into is the same for all of them, so a hit
    without a user shows the user of the hit before it. *)
Definition no_user : User :=
  {| us_Lifecycle := stamped {| instant := 0; representation := 0 |}; us_ID := uuid_Nil; Email := ""; FullName := "";
     ImageURL := ""; Bio := ""; us_URL := ""; Company := ""; us_Context := None |}.
Fixpoint scan_users (value : User) (hits : list (Identity * option User)) : list (uuid * string * User) :=
  match hits with
  | [] => []
  | (i, u) :: hits => let value := default value u in (id_ID i, Username i, value) :: scan_users value hits
  end.
Definition joined_user (d : account_db) (i : Identity) : option User :=
  u ← UserID i; List.find (has_ID u) (users d).
Definition search_hits (q : string) (d : account_db) : list (Identity * option User) :=
  let pattern := "%" +:+ ToLower q +:+ "%" in
  List.filter (λ h, match h.2 with
                    | Some u => like (ToLower (FullName u)) pattern || like (Email u) pattern
                    | None => false
                    end || like (ToLower (Username h.1)) pattern)
    (map (λ i, (i, joined_user d i)) (t_where (λ _, true) (identities d))).
Definition identity_Search (q : string) (start limit : Z) (d : account_db) : list (uuid * string * User) * Z :=
  let hits := page (Some start) (Some limit) (search_hits q d) in
  (scan_users no_user hits, if bool_decide (hits = []) then 0 else Z.of_nat (length (search_hits q d))).

(** ** Users *)

Definition user_Load (id : uuid) (d : account_db) : res User :=
  match t_first (has_ID id) (users d) with
  | Some u => Ok u
  | None => Err (NotFoundError "user" (uuid_String id) None)
  end.
(** A raw query: deleted rows count; the users come with their id and e-mail. *)
Definition LoadByUsername (username : string) (d : account_db) : list User :=
  map (λ u, {| us_Lifecycle := us_Lifecycle no_user; us_ID := us_ID u; Email := Email u; FullName := ""; ImageURL := "";
               Bio := ""; us_URL := ""; Company := ""; us_Context := None |})
    (List.filter (λ u, existsb (λ i, bool_decide (UserID i = Some (us_ID u)) && String.eqb (Username i) username)
                         (identities d)) (users d)).
Definition user_CheckExists (d : account_db) (id : uuid) : res unit := CheckExists "users" (users d) id.
Definition user_Create (now : Time) (newID : uuid) (u : User) : acm User := λ d,
  let u := if bool_decide (us_ID u = uuid_Nil) then us_set u (us_Lifecycle u) newID else u in
  match t_insert user_constraints now u (users d) with
  | inl v => (Err (Stacked (driver_error v)), d)
  | inr (u, t) => (Ok u, set_users t d)
  end.
Definition user_Save (now : Time) (u : User) : acm User := λ d,
  match t_save user_constraints now u (users d) with
  | inl v => (Err (Stacked (driver_error v)), d)
  | inr (u, t) => (Ok u, set_users t d)
  end.
Definition user_Delete (now : Time) (id : uuid) : acm unit := λ d,
  (Ok tt, set_users (t_delete now (by_primary_key id) (users d)).2 d).
(** The foreign key of the identities cascades. *)
Definition user_PermanentDelete (ID : uuid) : acm unit := λ d,
  let gone := List.filter (by_primary_key ID) (users d) in
  if Nat.eqb (length gone) 0 then (Err (NotFoundError "user" (uuid_String ID) None), d)
  else (Ok tt, {| identities := List.filter (λ i, negb (existsb (λ u, bool_decide (UserID i = Some (us_ID u))) gone))
                                  (identities d);
                  users := List.filter (λ u, negb (by_primary_key ID u)) (users d) |}).
Definition email_le (a b : User) : Prop := string_le (Email a) (Email b).
#[export] Instance email_le_dec a b : Decision (email_le a b).
Proof. unfold email_le. apply _. Defined.
Definition user_List (d : account_db) : list User := merge_sort email_le (t_where (λ _, true) (users d)).
Definition UserFilterByID (userID : uuid) : User → bool := has_ID userID.
Definition UserFilterByEmail (email : string) : User → bool := λ u, String.eqb (Email u) email.
Definition user_Query (funcs : list (User → bool)) (d : account_db) : list User :=
  t_where (λ u, forallb (λ f, f u) funcs) (users d).
End Repositories.
