(* ===== verification/UsersController.v ===== *)
(** * The requests of the auth service on users

    [controller/users.go]: obfuscating, deleting, creating and updating users.
    Who asks, and the random string, are arguments; the other handlers of the
    file pass the request on to the auth service. *)

From Stdlib Require Import ZArith Lia Ascii String SpecFloat.
From S2P Require Export Transactions Errors Spaces Accounts.
Import Transactions.

Record users_db := { accounts : account_db; owned : space_db }.
Notation usm A := (users_db → res A * users_db).
Definition on_accounts {A} (m : acm A) : usm A := λ d,
  let '(r, t) := m (accounts d) in (r, {| accounts := t; owned := owned d |}).
Definition on_owned {A} (m : spm A) : usm A := λ d,
  let '(r, t) := m (owned d) in (r, {| accounts := accounts d; owned := t |}).
Fixpoint for_each {S A} (f : A → S → res unit * S) (l : list A) : S → res unit * S :=
  match l with
  | [] => s_ret tt
  | a :: l => let* _ := f a in for_each f l
  end.
Definition bad_request (detail : string) : error := GoaServiceError 400 "" detail (Some ("bad_request", detail)).
Definition unauthorized (detail : string) : error := GoaServiceError 401 "" detail (Some ("unauthorized", detail)).

Section Controller.
Context {HO : UuidOps}.

Definition service_only (isServiceAccount : res bool) (message : string) : res unit :=
  b ← isServiceAccount; if negb b then Err (UnauthorizedError message) else Ok tt.

(** ** Obfuscating *)

Definition obfuscated_user (obfStr : string) (u : User) : User :=
  {| us_Lifecycle := us_Lifecycle u; us_ID := us_ID u; Email := obfStr +:+ "@mail.com"; FullName := obfStr;
     ImageURL := obfStr; Bio := obfStr; us_URL := obfStr; Company := obfStr; us_Context := None |}.
Definition obfuscated_identity (obfStr : string) (i : Identity) : Identity :=
  {| id_Lifecycle := id_Lifecycle i; id_ID := id_ID i; Username := obfStr;
     RegistrationCompleted := RegistrationCompleted i; ProviderType := ProviderType i; ProfileURL := Some obfStr;
     UserID := UserID i |}.
Definition obfuscate_in_db (now : Time) (u : uuid) (obfStr : string) : acm unit :=
  let* user := s_query (user_Load u) in
  let* _ := user_Save now (obfuscated_user obfStr user) in
  let* found := s_query (λ d, Ok (identity_Query [IdentityFilterByUserID u] d)) in
  if Nat.eqb (length found) 0 then s_fail (NotFoundError "user" (uuid_String u) None)
  else for_each (λ i, let* _ := identity_Save now (obfuscated_identity obfStr i) in s_ret tt) found.
Definition Obfuscate (now : Time) (isServiceAccount : res bool) (ID : string) (obfStr : string) : usm unit :=
  let* _ := s_query (λ _, service_only isServiceAccount "account used to call obfuscate API is not a service account") in
  let* u := s_query (λ _, match uuid_FromString ID with
                          | Some u => Ok u
                          | None => Err (BadParameterError "invalid user id" ID (Some "user id should be a UUID") None)
                          end) in
  transact (on_accounts (obfuscate_in_db now u obfStr)).

(** ** Deleting *)

Definition delete_in_db (username : string) : usm unit :=
  let* found := s_query (λ d, Ok (identity_Query [IdentityFilterByUsername username] (accounts d))) in
  let* _ := s_query (λ _, if Nat.eqb (length found) 0 then Err (NotFoundError "user" username None) else Ok tt) in
  let* named := s_query (λ d, Ok (LoadByUsername username (accounts d))) in
  let* _ := s_query (λ _, if Nat.eqb (length named) 0 then Err (NotFoundError "user" username None) else Ok tt) in
  let* _ := for_each (λ u, on_accounts (user_PermanentDelete (us_ID u))) named in
  for_each (λ i,
    let* p := s_query (λ d, LoadByOwner (Some (id_ID i)) None None (owned d)) in
    for_each (λ sp, on_owned (space_PermanentDelete (sp_ID sp))) p.1) found.
Definition Delete (isServiceAccount : res bool) (username : string) : usm unit :=
  let* _ := s_query (λ _, service_only isServiceAccount
                            "account used to call delete API is not a admin-console service account") in
  if String.eqb username ""
  then s_fail (BadParameterError "invalid username" username (Some "user name should not be empty") None)
  else transact (delete_in_db username).

(** ** Creating and updating *)

Record UserPayload := {
  up_Email : option string;
  up_Username : option string;
  up_RegistrationCompleted : option bool;
  up_Bio : option string;
  up_FullName : option string;
  up_ImageURL : option string;
  up_URL : option string;
  up_Company : option string;
  up_ContextInformation : option (gmap string gval);
}.
(** The first level of the given context goes over the one there is. *)
Definition patched_context (given : option (gmap string gval)) (c : ContextInformation) : ContextInformation :=
  match given with
  | Some m => Some (m ∪ default ∅ c)
  | None => c
  end.
Definition with_profile (p : UserPayload) (u : User) : User :=
  {| us_Lifecycle := us_Lifecycle u; us_ID := us_ID u; Email := default (Email u) (up_Email p);
     FullName := default (FullName u) (up_FullName p); ImageURL := default (ImageURL u) (up_ImageURL p);
     Bio := default (Bio u) (up_Bio p); us_URL := default (us_URL u) (up_URL p);
     Company := default (Company u) (up_Company p);
     us_Context := patched_context (up_ContextInformation p) (us_Context u) |}.
(** Any value given for the registration counts as true. *)
Definition with_name (p : UserPayload) (i : Identity) : Identity :=
  {| id_Lifecycle := id_Lifecycle i; id_ID := id_ID i; Username := default (Username i) (up_Username p);
     RegistrationCompleted := RegistrationCompleted i || bool_decide (is_Some (up_RegistrationCompleted p));
     ProviderType := ProviderType i; ProfileURL := ProfileURL i; UserID := UserID i |}.

(** The only errors are those of the database, after which its commit rolls back. *)
Definition createUserInDB (now : Time) (newID newID' : uuid) (userID id : option uuid) (email username providerType : string)
    (p : UserPayload) : usm unit :=
  let* userID := s_query (λ _, match userID with Some u => Ok u | None => Err (bad_request "invalid user id") end) in
  let* id := s_query (λ _, match id with Some i => Ok i | None => Err (bad_request "incorrect identity id") end) in
  let user := with_profile p {| us_Lifecycle := us_Lifecycle no_user; us_ID := userID; Email := email; FullName := "";
                                ImageURL := ""; Bio := ""; us_URL := ""; Company := ""; us_Context := None |} in
  let identity := with_name p {| id_Lifecycle := us_Lifecycle no_user; id_ID := id; Username := username;
                                 RegistrationCompleted := false; ProviderType := providerType; ProfileURL := None;
                                 UserID := Some userID |} in
  transact (on_accounts (
    let* _ := user_Create now newID user in
    let* _ := identity_Create now newID' identity in
    s_ret tt)).
Definition CreateUserAsServiceAccount (now : Time) (newID newID' : uuid) (isServiceAccount : res bool) (ID userID : string)
    (email username providerType : string) (p : UserPayload) : usm unit :=
  let* b := s_query (λ _, match isServiceAccount with Err e => Err (unauthorized (Errors.ErrorMsg e)) | r => r end) in
  if negb b then s_fail (unauthorized "a non-service account tried to create a user.")
  else createUserInDB now newID newID' (uuid_FromString userID) (uuid_FromString ID) email username providerType p.

Definition updateUserInDB (now : Time) (id : uuid) (p : UserPayload) : usm unit :=
  transact (on_accounts (
    let* identity := s_query (identity_Load id) in
    let* user := s_query (λ d, match UserID identity with
                               | Some u => wrapf "Can't load user with id %s" (user_Load u d)
                               | None => Panic "invalid memory address or nil pointer dereference"
                               end) in
    let* _ := user_Save now (with_profile p user) in
    let* _ := identity_Save now (with_name p identity) in
    s_ret tt)).
Definition UpdateUserAsServiceAccount (now : Time) (isServiceAccount : res bool) (ID : string) (p : UserPayload) : usm unit :=
  let* b := s_query (λ _, match isServiceAccount with Err e => Err (unauthorized (Errors.ErrorMsg e)) | r => r end) in
  if negb b then s_fail (unauthorized "a non-service account tried to updated a user.")
  else let* id := s_query (λ _, match uuid_FromString ID with
                                | Some i => Ok i
                                | None => Err (bad_request "incorrect identity")
                                end) in
       updateUserInDB now id p.
End Controller.

(** * Users: what the requests of the auth service do

    Obfuscation erases what is stored of a user with one identity and always
    fails for a user with several; a deletion removes every user the exact name
    belongs to, but only the spaces of the first identity it finds. *)

Section Facts.
Context {HO : UuidOps}.

(** ** Saving a row that is there *)

Lemma hit_all {A} `{Row A} (b y : A) : hit (λ _, true) b y = row_live y && has_ID (row_ID b) y.
Proof. unfold hit. by rewrite andb_true_r. Qed.
Lemma t_save_ok {A} `{HR : Row A} `{HL : !RowLaws A} cs now (a b : A) x t t' :
  x ∈ t → row_live x = true → row_ID x = row_ID a → t_save cs now a t = inr (b, t') →
  (∀ c, c ∈ cs → violated c b (List.filter (λ y, negb (hit (λ _, true) b y)) t) = false) ∧
  t' = map (λ y, if hit (λ _, true) b y then b else y) t ∧
  ∃ lc, DeletedAt lc = DeletedAt (row_life a) ∧ b = with_life lc a.
Proof.
  intros Hx Lx Ix. unfold t_save, t_update. set (a0 := with_life _ a).
  assert (HI : row_ID a0 = row_ID a) by apply with_life_ID.
  assert (Hn : length (List.filter (hit (λ _, true) a0) t) ≠ 0%nat).
  { intros H%length_zero_iff_nil. assert (HF : x ∈ List.filter (hit (λ _, true) a0) t).
    { apply elem_of_bfilter. rewrite hit_all, Lx. split; [done|]. apply has_ID_true. by rewrite HI. }
    rewrite H in HF. by apply elem_of_nil in HF. }
  apply Nat.eqb_neq in Hn as Hn'. rewrite Hn'. destruct (first_violation _ _ _) as [v|] eqn:EV; [done|].
  destruct (length _); [done|]. intros [= <- <-]. rewrite first_violation_none in EV.
  split_and!; [done|done|]. eexists. split; [|done]. done.
Qed.

(** ** Obfuscating *)

(** A user's own rows. *)
Definition identity_of (u : uuid) (i : Identity) : Prop := row_live i = true ∧ UserID i = Some u.
Lemma identities_of_user u d : identity_Query [IdentityFilterByUserID u] d
  = List.filter (λ i, row_live i && bool_decide (UserID i = Some u)) (identities d).
Proof.
  unfold identity_Query, t_where. cbn. apply List.filter_ext. intros i. by rewrite andb_true_r.
Qed.
Definition save_obfuscated now obfStr (i : Identity) : acm unit :=
  let* _ := identity_Save now (obfuscated_identity obfStr i) in s_ret tt.
Lemma save_obfuscated_ok now obfStr i d d' : i ∈ identities d → row_live i = true →
  save_obfuscated now obfStr i d = (Ok tt, d') →
  users d' = users d ∧ ∃ lc, DeletedAt lc = None ∧ identities d' =
    map (λ y, if row_live y && has_ID (id_ID i) y then id_set (obfuscated_identity obfStr i) lc (id_ID i) else y) (identities d) ∧
    ∀ y, y ∈ identities d → row_live y = true → id_ID y ≠ id_ID i → ProfileURL y ≠ Some obfStr.
Proof.
  intros Hi Li H. unfold save_obfuscated, s_bind, identity_Save in H.
  destruct (t_save _ _ _ _) as [v|[b t]] eqn:E; [done|]. unfold s_ret in H. simplify_eq. cbn.
  apply (t_save_ok _ _ _ _ i) in E as (Hv & -> & lc & Hlc & ->); [|done..].
  split; [done|]. exists lc.
  assert (HD : DeletedAt (id_Lifecycle i) = None) by (by apply bool_decide_eq_true in Li).
  cbn in Hlc. rewrite HD in Hlc. split; [done|]. split; [apply map_ext; intros y; by rewrite hit_all|].
  intros y Hy Ly Hne HP. specialize (Hv profile_index). apply not_true_iff_false in Hv; [|set_solver].
  apply Hv. cbn. rewrite andb_true_iff. split; [unfold row_live, live; cbn; by rewrite Hlc|].
  apply existsb_elem. exists y. rewrite elem_of_bfilter, hit_all, Ly. cbn. split.
  - split; [done|]. apply negb_true_iff, not_true_iff_false. by rewrite has_ID_true.
  - unfold same_profile. rewrite HP. cbn. apply String.eqb_refl.
Qed.

(** Two identities of a user end up with the same profile, which the index does not allow. *)
Lemma obfuscate_found now obfStr d d' a b l : ids_unique (identities d) → id_ID a ≠ id_ID b →
  a ∈ identities d → row_live a = true → b ∈ identities d → row_live b = true →
  for_each (save_obfuscated now obfStr) (a :: b :: l) d = (Ok tt, d') → False.
Proof.
  intros Hn Hne Ha La Hb Lb H. cbn [for_each] in H.
  apply s_bind_ok in H as ([] & d1 & H1 & H). apply s_bind_ok in H as ([] & d2 & H2 & _).
  apply save_obfuscated_ok in H1 as (_ & lc & Hlc & HI & _); [|done..].
  apply save_obfuscated_ok in H2 as (_ & lc2 & _ & _ & HP); [| |done].
  - apply (HP (id_set (obfuscated_identity obfStr a) lc (id_ID a))); [| |done|done].
    + rewrite HI. apply list_elem_of_fmap. exists a. split; [|done]. by rewrite La, (proj2 (has_ID_true _ _)).
    + unfold row_live, live. cbn. by rewrite Hlc.
  - rewrite HI. apply list_elem_of_fmap. exists b. split; [|done].
    destruct (row_live b && _) eqn:E; [|done]. by apply andb_prop in E as [_ E%has_ID_true].
Qed.
Lemma obfuscate_in_db_ok now u obfStr d d' : ids_unique (identities d) →
  obfuscate_in_db now u obfStr d = (Ok tt, d') →
  ∃ user i lc lc', user ∈ users d ∧ row_live user = true ∧ us_ID user = u ∧ DeletedAt lc = None ∧ DeletedAt lc' = None ∧
    List.filter (λ i, row_live i && bool_decide (UserID i = Some u)) (identities d) = [i] ∧
    users d' = map (λ y, if row_live y && has_ID u y then us_set (obfuscated_user obfStr user) lc u else y) (users d) ∧
    identities d' = map (λ y, if row_live y && has_ID (id_ID i) y
                              then id_set (obfuscated_identity obfStr i) lc' (id_ID i) else y) (identities d).
Proof.
  intros Hn H. unfold obfuscate_in_db in H.
  apply s_bind_ok in H as (user & d1 & [HL ->]%s_query_ok & H). apply s_bind_ok in H as (w & d2 & HS & H).
  apply s_bind_ok in H as (found & d3 & [[= HF] ->]%s_query_ok & H).
  unfold user_Load in HL. destruct (t_first _ _) as [x|] eqn:EF; [|done]. injection HL as ->.
  apply t_first_some in EF as (Hu & Lu & Iu%has_ID_true). unfold user_Save in HS.
  destruct (t_save _ _ _ _) as [v|[w' t]] eqn:ES; [done|]. simplify_eq.
  apply (t_save_ok _ _ _ _ user) in ES as (_ & -> & lc & Hlc & ->); [|done..].
  assert (HD : DeletedAt (us_Lifecycle user) = None) by (by apply bool_decide_eq_true in Lu).
  cbn in Hlc. rewrite HD in Hlc.
  change (IdentityFilterByUserID (us_ID user)) with (IdentityFilterByUserID (row_ID user)) in H.
  rewrite identities_of_user in H. cbn [set_users identities] in H. set (found := List.filter _ _) in *.
  assert (HI : ∀ i, i ∈ found → i ∈ identities d ∧ row_live i = true).
  { intros i [Hi [Li _]%andb_prop]%elem_of_bfilter. done. }
  assert (HN : NoDup (map id_ID found)).
  { unfold found. clear -Hn. unfold ids_unique in Hn. induction (identities d) as [|i l IH]; cbn in *; [constructor|].
    apply NoDup_cons in Hn as [Hi Hn]. destruct (_ && _); [|by apply IH]. cbn. constructor; [|by apply IH].
    intros (j & E & [Hj _]%elem_of_bfilter)%list_elem_of_fmap. apply Hi. apply list_elem_of_fmap. by exists j. }
  destruct found as [|i [|j l]] eqn:EFo; [done| |].
  - cbn [length Nat.eqb] in H. change (for_each (save_obfuscated now obfStr) [i] (set_users
      (map (λ y, if hit (λ _, true) (us_set (obfuscated_user obfStr user) lc (us_ID user)) y
                 then us_set (obfuscated_user obfStr user) lc (us_ID user) else y) (users d)) d) = (Ok tt, d')) in H.
    apply s_bind_ok in H as ([] & d1 & H & [= <-]).
    destruct (HI i (list_elem_of_here _ _)) as [Hi Li].
    apply save_obfuscated_ok in H as (HU & lc' & Hlc' & HD' & _); [|done..].
    exists user, i, lc, lc'. split_and!; try done. rewrite HU. cbn. apply map_ext. intros y. by rewrite hit_all.
  - exfalso. destruct (HI i) as [Hi Li]; [apply list_elem_of_here|].
    destruct (HI j) as [Hj Lj]; [right; apply list_elem_of_here|].
    eapply (obfuscate_found now obfStr _ d' i j l); [..|exact H]; try done.
    cbn in HN. apply NoDup_cons in HN as [HN _]. intros E. apply HN. rewrite E. apply list_elem_of_here.
Qed.

(** An obfuscation that succeeds is one of a user with a single identity; it overwrites what the live rows of the user
    and the identity say, keeps ids and the link between them, and touches no other row. *)
Theorem Obfuscate_erases now ID u obfStr d d' (Hid : uuid_FromString ID = Some u)
    (Hn : ids_unique (identities (accounts d))) (H : Obfuscate now (Ok true) ID obfStr d = (Ok tt, d')) :
  (∃ i, List.filter (λ i, row_live i && bool_decide (UserID i = Some u)) (identities (accounts d)) = [i]) ∧
  (∀ x, x ∈ users (accounts d') → row_live x = true → us_ID x = u →
     Email x = obfStr +:+ "@mail.com" ∧ us_Context x = None ∧
     [FullName x; ImageURL x; Bio x; us_URL x; Company x] = [obfStr; obfStr; obfStr; obfStr; obfStr]) ∧
  (∀ i, i ∈ identities (accounts d') → row_live i = true → UserID i = Some u →
     Username i = obfStr ∧ ProfileURL i = Some obfStr) ∧
  (∀ x, us_ID x ≠ u → x ∈ users (accounts d') ↔ x ∈ users (accounts d)) ∧
  (∀ i, UserID i ≠ Some u → i ∈ identities (accounts d') ↔ i ∈ identities (accounts d)) ∧ owned d' = owned d.
Proof.
  unfold Obfuscate, service_only in H. apply s_bind_ok in H as ([] & d1 & [_ ->]%s_query_ok & H).
  apply s_bind_ok in H as (v & d1 & [Hv ->]%s_query_ok & H). rewrite Hid in Hv. injection Hv as <-.
  rewrite transact_ok in H. unfold on_accounts in H. destruct (obfuscate_in_db _ _ _ _) as [r t] eqn:E. simplify_eq. cbn.
  apply obfuscate_in_db_ok in E as (x & i & lc & lc' & Hx & Lx & <- & Hlc & Hlc' & HF & HU & HI); [|done].
  assert (Hi : i ∈ [i]) by apply list_elem_of_here. rewrite <- HF in Hi.
  apply elem_of_bfilter in Hi as [Hi [Li Ui%bool_decide_eq_true]%andb_prop].
  split_and!; [by exists i| | | | |done].
  - rewrite HU. intros y (z & -> & Hz)%list_elem_of_fmap Ly Iy. destruct (row_live z && _) eqn:Eb; [done|].
    rewrite Ly in Eb. cbn in Eb. apply not_true_iff_false in Eb. destruct Eb. by apply has_ID_true.
  - rewrite HI. intros y (z & -> & Hz)%list_elem_of_fmap Ly Iy. destruct (row_live z && _) eqn:Eb; [done|].
    exfalso. assert (Hin : z ∈ [i]) by (rewrite <- HF; apply elem_of_bfilter; by rewrite Ly, bool_decide_true).
    apply list_elem_of_singleton in Hin as ->. rewrite Li in Eb. cbn in Eb. apply not_true_iff_false in Eb. destruct Eb.
    by apply has_ID_true.
  - intros y Hy. rewrite HU, list_elem_of_fmap. split.
    + intros (z & -> & Hz). by destruct (row_live z && _).
    + intros Hz. exists y. split; [|done]. destruct (row_live y && _) eqn:Eb; [|done].
      by apply andb_prop in Eb as [_ Eb%has_ID_true].
  - intros y Hy. rewrite HI, list_elem_of_fmap. split.
    + intros (z & -> & Hz). destruct (row_live z && _); [by destruct Hy|done].
    + intros Hz. exists y. split; [|done]. destruct (row_live y && _) eqn:Eb; [|done].
      apply andb_prop in Eb as [_ Eb%has_ID_true]. destruct Hy.
      by rewrite (ids_unique_eq (identities (accounts d)) y i).
Qed.
(** A user with two live identities cannot be obfuscated: the request fails whatever the random string, and nothing is
    erased. *)
Theorem Obfuscate_several_fails now ID u obfStr d i j (Hid : uuid_FromString ID = Some u)
    (Hn : ids_unique (identities (accounts d))) (Hi : i ∈ identities (accounts d)) (Hj : j ∈ identities (accounts d))
    (Hui : identity_of u i) (Huj : identity_of u j) (Hne : id_ID i ≠ id_ID j) :
  is_ok (Obfuscate now (Ok true) ID obfStr d).1 = false ∧ (Obfuscate now (Ok true) ID obfStr d).2 = d.
Proof.
  assert (HF : is_ok (Obfuscate now (Ok true) ID obfStr d).1 = false).
  { apply not_true_iff_false. intros H. destruct (Obfuscate _ _ _ _ d) as [[[]|e|m] d'] eqn:E; [|done..].
    apply (Obfuscate_erases _ _ _ _ _ _ Hid Hn) in E as [(k & HF) _].
    assert (Hk : ∀ z, z ∈ identities (accounts d) → identity_of u z → z = k).
    { intros z Hz [Lz Uz]. apply list_elem_of_singleton. rewrite <- HF. apply elem_of_bfilter. by rewrite Lz, bool_decide_true. }
    by rewrite (Hk i), (Hk j) in Hne. }
  split; [done|]. unfold Obfuscate, service_only, s_bind, s_query in *. cbn in *. rewrite Hid in *.
  unfold transact in *. by destruct (on_accounts _ _) as [[[]|e|m] d'].
Qed.

(** ** Deleting *)

Lemma filter_filter {A} (f g : A → bool) l : List.filter f (List.filter g l) = List.filter (λ x, g x && f x) l.
Proof. induction l as [|x l IH]; cbn; [done|]. destruct (g x); cbn; [destruct (f x); by rewrite IH|done]. Qed.

Lemma filter_all {A} (f : A → bool) l : (∀ x, f x = true) → List.filter f l = l.
Proof. intros H. induction l as [|x l IH]; cbn; [done|]. by rewrite H, IH. Qed.
Definition in_ids (l : list uuid) (x : uuid) : bool := bool_decide (x ∈ l).
Lemma in_ids_cons y l x : in_ids (y :: l) x = bool_decide (x = y) || in_ids l x.
Proof. unfold in_ids. apply eq_true_iff_eq. by rewrite orb_true_iff, !bool_decide_eq_true, elem_of_cons. Qed.
Definition user_in (l : list uuid) (i : Identity) : bool := match UserID i with Some u => in_ids l u | None => false end.

Lemma PermanentDelete_one ID d d' : ID ≠ uuid_Nil → user_PermanentDelete ID d = (Ok tt, d') →
  users d' = List.filter (λ u, negb (bool_decide (us_ID u = ID))) (users d) ∧
  identities d' = List.filter (λ i, negb (bool_decide (UserID i = Some ID))) (identities d).
Proof.
  intros Hnil. unfold user_PermanentDelete.
  assert (HB : ∀ u : User, by_primary_key ID u = bool_decide (us_ID u = ID)).
  { intros u. unfold by_primary_key. by rewrite bool_decide_false. }
  destruct (Nat.eqb_spec (length (List.filter (by_primary_key ID) (users d))) 0) as [|Hlen]; [done|]. intros [= <-]. cbn.
  split; apply List.filter_ext; intros x; f_equal; [apply HB|]. apply eq_true_iff_eq.
  rewrite existsb_elem, bool_decide_eq_true. setoid_rewrite bool_decide_eq_true. split.
  - intros (u & [_ Hu]%elem_of_bfilter & ->). rewrite HB, bool_decide_eq_true in Hu. by rewrite Hu.
  - intros Hx. destruct (List.filter _ _) as [|u l] eqn:E; [done|]. exists u. split; [apply list_elem_of_here|].
    assert (Hu : u ∈ List.filter (by_primary_key ID) (users d)) by (rewrite E; apply list_elem_of_here).
    apply elem_of_bfilter in Hu as [_ Hu]. rewrite HB, bool_decide_eq_true in Hu. by rewrite Hu.
Qed.
Lemma delete_users_ok (l : list User) d d' : (∀ u, u ∈ l → us_ID u ≠ uuid_Nil) →
  for_each (λ u, on_accounts (user_PermanentDelete (us_ID u))) l d = (Ok tt, d') →
  users (accounts d') = List.filter (λ u, negb (in_ids (map us_ID l) (us_ID u))) (users (accounts d)) ∧
  identities (accounts d') = List.filter (λ i, negb (user_in (map us_ID l) i)) (identities (accounts d)) ∧ owned d' = owned d.
Proof.
  revert d. induction l as [|u l IH]; intros d Hl H.
  - cbn in H. unfold s_ret in H. simplify_eq. split_and!; [symmetry; by apply filter_all|symmetry; apply filter_all|done].
    intros i. unfold user_in. by destruct (UserID i).
  - cbn [for_each] in H. apply s_bind_ok in H as ([] & d1 & H1 & H). unfold on_accounts in H1.
    destruct (user_PermanentDelete _ _) as [r t] eqn:E. simplify_eq.
    apply PermanentDelete_one in E as [HU HI]; [|apply Hl, list_elem_of_here].
    apply IH in H as (-> & -> & ->); [|intros x Hx; apply Hl; by right]. cbn. rewrite HU, HI, !filter_filter.
    split_and!; [apply List.filter_ext; intros x|apply List.filter_ext; intros i|done].
    + by rewrite in_ids_cons, negb_orb.
    + unfold user_in. destruct (UserID i) as [v|]; [|done]. rewrite in_ids_cons, negb_orb. f_equal. f_equal.
      apply bool_decide_ext. naive_solver.
Qed.
Lemma delete_spaces_ok (l : list Space) d d' :
  for_each (λ sp, on_owned (space_PermanentDelete (sp_ID sp))) l d = (Ok tt, d') →
  space_rows (owned d') = List.filter (λ p, negb (in_ids (map sp_ID l) (sp_ID p))) (space_rows (owned d)) ∧
  accounts d' = accounts d.
Proof.
  revert d. induction l as [|sp l IH]; intros d H.
  - cbn in H. unfold s_ret in H. simplify_eq. split; [symmetry; by apply filter_all|done].
  - cbn [for_each] in H. apply s_bind_ok in H as ([] & d1 & H1 & H). unfold on_owned, space_PermanentDelete in H1.
    case_bool_decide as Hnil; [simplify_eq|]. destruct (Nat.eqb _ _); simplify_eq.
    apply IH in H as (-> & ->). cbn. rewrite filter_filter. split; [|done]. apply List.filter_ext. intros x.
    rewrite in_ids_cons, negb_orb. f_equal. unfold by_primary_key. by rewrite bool_decide_false.
Qed.

(** A deletion that succeeds removes the users that an identity with exactly the given name belongs to, with all
    identities of these users, and the live spaces of one identity whose name agrees up to case: the spaces of any other
    identity stay, though their owner may be gone. *)
Theorem Delete_removes name d d' (Hu : ∀ u, u ∈ users (accounts d) → us_ID u ≠ uuid_Nil)
    (Hs : ids_unique (space_rows (owned d))) (H : Delete (Ok true) name d = (Ok tt, d')) :
  let named u := existsb (λ i, bool_decide (UserID i = Some u) && String.eqb (Username i) name) (identities (accounts d)) in
  users (accounts d') = List.filter (λ u, negb (named (us_ID u))) (users (accounts d)) ∧
  (∀ i, i ∈ identities (accounts d') ↔ i ∈ identities (accounts d) ∧
     ∀ u, u ∈ users (accounts d) → UserID i = Some (us_ID u) → named (us_ID u) = false) ∧
  ∃ f, f ∈ identities (accounts d) ∧ row_live f = true ∧ ToLower (Username f) = ToLower name ∧
    space_rows (owned d') = List.filter (λ p, negb (row_live p && bool_decide (OwnerID p = id_ID f))) (space_rows (owned d)).
Proof.
  intros named. unfold Delete, service_only in H. apply s_bind_ok in H as ([] & d1 & [_ ->]%s_query_ok & H).
  destruct (String.eqb name ""); [done|]. rewrite transact_ok in H. unfold delete_in_db in H.
  apply s_bind_ok in H as (found & d1 & [[= <-] ->]%s_query_ok & H).
  apply s_bind_ok in H as ([] & d1 & [Hf ->]%s_query_ok & H).
  apply s_bind_ok in H as (us & d1 & [[= <-] ->]%s_query_ok & H).
  apply s_bind_ok in H as ([] & d1 & [_ ->]%s_query_ok & H).
  apply s_bind_ok in H as ([] & d1 & H1 & H).
  assert (HM : map us_ID (LoadByUsername name (accounts d))
               = map us_ID (List.filter (λ u, named (us_ID u)) (users (accounts d)))).
  { unfold LoadByUsername. rewrite map_map. by apply map_ext. }
  apply delete_users_ok in H1 as (HU & HI & HO'); [|].
  2: { intros u (v & -> & [Hv _]%elem_of_bfilter)%list_elem_of_fmap. cbn. by apply Hu. }
  rewrite HM in HU, HI.
  assert (HN : ∀ u, u ∈ users (accounts d) →
    in_ids (map us_ID (List.filter (λ u, named (us_ID u)) (users (accounts d)))) (us_ID u) = named (us_ID u)).
  { intros u Hin. apply eq_true_iff_eq. unfold in_ids. rewrite bool_decide_eq_true, list_elem_of_fmap. split.
    - by intros (v & -> & [_ Hv]%elem_of_bfilter).
    - intros Hn. exists u. split; [done|]. by apply elem_of_bfilter. }
  unfold identity_Query in *. cbn [map omap list_omap f_limit last forallb IdentityFilterByUsername f_where] in *.
  set (all := t_where _ _) in *. assert (HA : ∀ f, f ∈ all → f ∈ identities (accounts d) ∧ row_live f = true ∧
    ToLower (Username f) = ToLower name).
  { intros f (Hin & Hl & [Hn _]%andb_prop)%elem_of_t_where. by apply String.eqb_eq in Hn. }
  destruct all as [|f l]; [done|]. cbn [take for_each] in H.
  apply s_bind_ok in H as ([] & d2 & H2 & [= <-]). apply s_bind_ok in H2 as ([sps n] & d3 & [HL ->]%s_query_ok & H2).
  apply delete_spaces_ok in H2 as [HS ->]. rewrite HO' in HL, HS. cbn [fst] in HS.
  split_and!.
  - rewrite HU. apply List.filter_ext_in. intros u Hin%list_elem_of_In. by rewrite HN.
  - intros i. rewrite HI, elem_of_bfilter, negb_true_iff. apply and_iff_compat_l. unfold user_in.
    destruct (UserID i) as [v|]; [|split; [intros _ u _ [=]|done]]. split.
    + intros Hv u Hin [= ->]. by rewrite HN in Hv.
    + intros Hall. apply not_true_iff_false. unfold in_ids. rewrite bool_decide_eq_true, list_elem_of_fmap.
      intros (u & -> & [Hin Hn]%elem_of_bfilter). by rewrite (Hall u) in Hn.
  - exists f. destruct (HA f) as (Hin & Hl & Hname); [apply list_elem_of_here|]. split_and!; [done..|]. rewrite HS.
    unfold LoadByOwner, listSpaceFromDB in HL. cbn in HL. injection HL as <- _.
    apply List.filter_ext_in. intros p Hp%list_elem_of_In. f_equal. apply eq_true_iff_eq. unfold in_ids.
    rewrite bool_decide_eq_true, list_elem_of_fmap, andb_true_iff, bool_decide_eq_true. split.
    + intros (q & E & Hq). rewrite merge_sort_Permutation in Hq. apply elem_of_t_where in Hq as (Hq & Lq & Oq%bool_decide_eq_true).
      by rewrite (ids_unique_eq _ _ _ Hs Hp Hq E).
    + intros [Lp Op]. exists p. split; [done|]. rewrite merge_sort_Permutation. apply elem_of_t_where.
      split_and!; [done..|]. by apply bool_decide_eq_true.
Qed.
End Facts.

(** ** Witnesses: two identities of different users whose names agree up to case, and one more of the first user *)

Definition jan : Time := {| instant := 1; representation := 0 |}.
Definition some_user (n : N) (email : string) : User :=
  {| us_Lifecycle := stamped jan; us_ID := uuid_of n; Email := email; FullName := "Full Name"; ImageURL := ""; Bio := "";
     us_URL := ""; Company := ""; us_Context := None |}.
Definition some_identity (n : N) (name : string) (profile : option string) (user : N) : Identity :=
  {| id_Lifecycle := stamped jan; id_ID := uuid_of n; Username := name; RegistrationCompleted := true; ProviderType := "kc";
     ProfileURL := profile; UserID := Some (uuid_of user) |}.
Definition some_space (n owner : N) (name : string) : Space :=
  {| sp_Lifecycle := stamped jan; sp_ID := uuid_of n; sp_Version := 0; sp_Name := name; sp_Description := "";
     OwnerID := uuid_of owner; sp_SpaceTemplateID := uuid_of 90 |}.
Definition ada := some_identity 21 "ada" None 11.
Definition ada_github := some_identity 22 "ada" (Some "github.com/ada") 11.
Definition Ada := some_identity 23 "Ada" None 12.
Definition people (l : list Identity) : users_db :=
  {| accounts := {| identities := l; users := [some_user 11 "ada@x"; some_user 12 "Ada@y"] |};
     owned := {| space_rows := [some_space 31 21 "first"; some_space 32 22 "second"; some_space 33 23 "third"];
                 template_rows := [] |} |}.
Lemma nodup_bool {A} `{EqDecision A} (l : list A) : bool_decide (NoDup l) = true → NoDup l.
Proof. apply bool_decide_eq_true. Qed.

Lemma Obfuscate_erases_witness : ∃ d',
  Obfuscate jan (Ok true) (uuid_String (uuid_of 11)) "xyz" (people [ada; Ada]) = (Ok tt, d') ∧
  ∀ i, i ∈ identities (accounts d') → row_live i = true → UserID i = Some (uuid_of 11) → Username i = "xyz".
Proof.
  assert (HO : is_ok (Obfuscate jan (Ok true) (uuid_String (uuid_of 11)) "xyz" (people [ada; Ada])).1 = true) by by vm_compute.
  destruct (Obfuscate jan (Ok true) _ "xyz" (people [ada; Ada])) as [[[]|e|m] d'] eqn:E; [|discriminate HO..].
  exists d'. split; [exact eq_refl|]. intros i Hi Li Ui.
  assert (Hid : uuid_FromString (uuid_String (uuid_of 11)) = Some (uuid_of 11)) by by vm_compute.
  assert (Hn : ids_unique (identities (accounts (people [ada; Ada])))) by (apply nodup_bool; by vm_compute).
  exact (proj1 (proj1 (proj2 (proj2 (Obfuscate_erases jan _ (uuid_of 11) "xyz" _ d' Hid Hn E))) i Hi Li Ui)).
Defined.
Lemma Obfuscate_several_fails_witness :
  (Obfuscate jan (Ok true) (uuid_String (uuid_of 11)) "xyz" (people [ada; ada_github])).2 = people [ada; ada_github].
Proof.
  assert (Hid : uuid_FromString (uuid_String (uuid_of 11)) = Some (uuid_of 11)) by by vm_compute.
  assert (Hn : ids_unique (identities (accounts (people [ada; ada_github])))) by (apply nodup_bool; by vm_compute).
  refine (proj2 (Obfuscate_several_fails jan _ (uuid_of 11) "xyz" (people [ada; ada_github]) ada ada_github Hid Hn _ _ _ _ _)).
  - apply list_elem_of_here.
  - apply list_elem_of_further, list_elem_of_here.
  - split; reflexivity.
  - split; reflexivity.
  - intros H%(f_equal uuid_bits). discriminate H.
Defined.
(** The second user keeps her account although her name matches, and the spaces of the second identity stay. *)
Lemma Delete_removes_witness : ∃ d',
  Delete (Ok true) "ada" (people [ada; ada_github; Ada]) = (Ok tt, d') ∧
  map us_ID (users (accounts d')) = [uuid_of 12] ∧ map sp_ID (space_rows (owned d')) = [uuid_of 32; uuid_of 33].
Proof.
  assert (HO : is_ok (Delete (Ok true) "ada" (people [ada; ada_github; Ada])).1 = true) by by vm_compute.
  destruct (Delete (Ok true) "ada" (people [ada; ada_github; Ada])) as [[[]|e|m] d'] eqn:E; [|discriminate HO..].
  assert (Hu : ∀ u, u ∈ users (accounts (people [ada; ada_github; Ada])) → us_ID u ≠ uuid_Nil).
  { intros u [->|Hu%list_elem_of_singleton]%elem_of_cons; [|subst u]; intros H%(f_equal uuid_bits); discriminate H. }
  assert (Hs : ids_unique (space_rows (owned (people [ada; ada_github; Ada])))) by (apply nodup_bool; by vm_compute).
  destruct (Delete_removes "ada" _ d' Hu Hs E) as (HU & _ & f & Hf & _ & _ & HS).
  exists d'. split; [exact eq_refl|]. split; [rewrite HU; by vm_compute|].
  pose proof (f_equal (map sp_ID) (f_equal (λ r, space_rows (owned r.2)) E)) as HE. cbn [snd] in HE. rewrite <- HE. by vm_compute.
Defined.
