(* ===== verification/Comments.v ===== *)
(** * Comments

    [comment/comment.go], [comment_repository.go], [comment_revision.go] and
    [comment_revision_repository.go]: comments, the history of their changes
    and the operations on both. *)

From Stdlib Require Import ZArith Lia Ascii String.
From stdpp Require Import relations.
From S2P Require Export Values Tables Transactions.
Import Transactions.

Record Comment := {
  cm_Lifecycle : Lifecycle;
  cm_ID : uuid;
  ParentID : uuid;
  ParentCommentID : option uuid;
  cm_Creator : uuid;
  Body : string;
  cm_Markup : string;
}.
Definition cm_with (c : Comment) (lc : Lifecycle) (ID : uuid) (markup : string) : Comment :=
  {| cm_Lifecycle := lc; cm_ID := ID; ParentID := ParentID c; ParentCommentID := ParentCommentID c;
     cm_Creator := cm_Creator c; Body := Body c; cm_Markup := markup |}.
#[export] Instance Comment_Row : Row Comment :=
  {| row_ID := cm_ID; row_life := cm_Lifecycle; with_life := λ lc c, cm_with c lc (cm_ID c) (cm_Markup c) |}.
#[export] Instance Comment_RowLaws : RowLaws Comment.
Proof. by split. Qed.

Inductive RevisionType := RevisionTypeCreate | RevisionTypeDelete | RevisionTypeUpdate.
#[export] Instance RevisionType_eq_dec : EqDecision RevisionType.
Proof. solve_decision. Defined.
Record Revision := {
  cr_Time : Time;
  cr_Type : RevisionType;
  cr_ModifierIdentity : uuid;
  CommentID : uuid;
  CommentParentID : uuid;
  CommentParentCommentID : option uuid;
  CommentBody : option string;
  CommentMarkup : option string;
}.

Record comment_db := { comments : list Comment; comment_revisions : list Revision }.
Definition set_comments (t : list Comment) (d : comment_db) : comment_db :=
  {| comments := t; comment_revisions := comment_revisions d |}.
Notation cmm A := (comment_db → res A * comment_db).

(** The comment a comment answers must exist, deleted or not. *)
Definition comment_constraints (t : list Comment) : list (constraint Comment) :=
  [primary_key "comments_pkey";
   foreign_key "comments_parent_comment_id_comment_id_fk"
     (λ c, match ParentCommentID c with Some id => existsb (has_ID id) (c :: t) | None => true end)].

Section Repository.
Context {HO : UuidOps}.

(** The comment of a revision must exist, deleted or not. *)
Definition Revision_Create (now : Time) (modifierID : uuid) (revisionType : RevisionType) (c : Comment)
    : cmm unit := λ d,
  let keep (s : string) := match revisionType with RevisionTypeDelete => None | _ => Some s end in
  if existsb (has_ID (cm_ID c)) (comments d)
  then (Ok tt,
        {| comments := comments d;
           comment_revisions := comment_revisions d ++
             [{| cr_Time := now; cr_Type := revisionType; cr_ModifierIdentity := modifierID;
                 CommentID := cm_ID c; CommentParentID := ParentID c;
                 CommentParentCommentID := ParentCommentID c;
                 CommentBody := keep (Body c); CommentMarkup := keep (cm_Markup c) |}] |})
  else (Err (InternalError (Wrapped "failed to create new comment revision"
                              (driver_error (ViolatesForeignKey "comment_revisions_comments_fk")))), d).
Definition revision_le (a b : Revision) : Prop := instant (cr_Time a) ≤ instant (cr_Time b).
#[export] Instance revision_le_dec a b : Decision (revision_le a b).
Proof. unfold revision_le. apply _. Defined.
Definition Revision_List (d : comment_db) (commentID : uuid) : list Revision :=
  merge_sort revision_le (List.filter (λ r, bool_decide (CommentID r = commentID)) (comment_revisions d)).

Definition default_markup (m : string) : string := if String.eqb m "" then SystemMarkupDefault else m.

Definition comment_insert (now : Time) (c : Comment) : cmm Comment := λ d,
  match t_insert (comment_constraints (comments d)) now c (comments d) with
  | inl v => (Err (Stacked (driver_error v)), d)
  | inr (c, t) => (Ok c, set_comments t d)
  end.
Definition comment_Create (now now' : Time) (newID : uuid) (comment : Comment) (creatorID : uuid)
    : cmm Comment :=
  let comment := cm_with comment (cm_Lifecycle comment) newID (default_markup (cm_Markup comment)) in
  let* comment := comment_insert now comment in
  let* _ := s_map (wrapf "error while creating comment")
              (Revision_Create now' creatorID RevisionTypeCreate comment) in
  s_ret comment.

Definition comment_update (now : Time) (c : Comment) : cmm Comment := λ d,
  match t_update (comment_constraints (comments d)) now (λ _, true) c (comments d) with
  | inl v => (Err (InternalError (driver_error v)), d)
  | inr (c, _, t) => (Ok c, set_comments t d)
  end.
Definition comment_Save (now now' : Time) (comment : Comment) (modifierID : uuid) : cmm Comment :=
  let* _ := s_query (λ d, match t_first (has_ID (cm_ID comment)) (comments d) with
                          | Some _ => Ok tt
                          | None => Err (NotFoundError "comment" (uuid_String (cm_ID comment)) None)
                          end) in
  let comment := cm_with comment (cm_Lifecycle comment) (cm_ID comment) (default_markup (cm_Markup comment)) in
  let* comment := comment_update now comment in
  let* _ := s_map (wrapf "error while saving work item")
              (Revision_Create now' modifierID RevisionTypeUpdate comment) in
  s_ret comment.

(** Only the id and the parents are read back of the deleted comment. *)
Definition comment_Delete (now now' : Time) (commentID suppressorID : uuid) : cmm unit :=
  let* c := s_query (λ d,
    if bool_decide (commentID = uuid_Nil) then Err (NotFoundError "comment" (uuid_String commentID) None)
    else match t_where (has_ID commentID) (comments d) with
         | [c] => Ok {| cm_Lifecycle := stamped {| instant := 0; representation := 0 |}; cm_ID := cm_ID c;
                        ParentID := ParentID c; ParentCommentID := ParentCommentID c;
                        cm_Creator := uuid_Nil; Body := ""; cm_Markup := "" |}
         | _ => Err (NotFoundError "comment" (uuid_String commentID) None)
         end) in
  let* _ := (λ d, (Ok tt, set_comments (t_delete now (by_primary_key (cm_ID c)) (comments d)).2 d)) in
  s_map (wrapf "error while deleting work item") (Revision_Create now' suppressorID RevisionTypeDelete c).

Definition created_desc (a b : Comment) : Prop :=
  instant (CreatedAt (cm_Lifecycle b)) ≤ instant (CreatedAt (cm_Lifecycle a)).
#[export] Instance created_desc_dec a b : Decision (created_desc a b).
Proof. unfold created_desc. apply _. Defined.
Definition of_parent (parentID : uuid) (d : comment_db) : list Comment :=
  t_where (λ c, bool_decide (ParentID c = parentID)) (comments d).
Definition comment_List (parentID : uuid) (start limit : option Z) (d : comment_db) : res (list Comment * Z) :=
  _ ← page_limits start limit;
  let all := merge_sort created_desc (of_parent parentID d) in
  let result := page start limit all in
  let count := match result with
               | [] => Z.of_nat (length (of_parent parentID d))
               | _ => Z.of_nat (length all)
               end in
  Ok (result, count).
Definition comment_Count (parentID : uuid) (d : comment_db) : Z := Z.of_nat (length (of_parent parentID d)).
Definition comment_Load (id : uuid) (d : comment_db) : res Comment :=
  match t_first (has_ID id) (comments d) with
  | Some c => Ok c
  | None => Err (NotFoundError "comment" (uuid_String id) None)
  end.
Definition comment_CheckExists (id : uuid) (d : comment_db) : res unit :=
  CheckExists "comments" (comments d) id.
End Repository.

(** * The history of comments

    Every committed change of a comment leaves a revision, and the last revision
    of a comment is its present state. *)

Definition cm_records (r : Revision) (c : Comment) : Prop :=
  CommentParentID r = ParentID c ∧ CommentParentCommentID r = ParentCommentID c ∧
  if row_live c then cr_Type r ≠ RevisionTypeDelete ∧ CommentBody r = Some (Body c) ∧ CommentMarkup r = Some (cm_Markup c)
  else cr_Type r = RevisionTypeDelete ∧ CommentBody r = None ∧ CommentMarkup r = None.
Definition history (id : uuid) (d : comment_db) : list Revision :=
  List.filter (λ r, bool_decide (CommentID r = id)) (comment_revisions d).
Record cm_wf (d : comment_db) : Prop := {
  cw_ids : ids_unique (comments d);
  cw_history : ∀ c, c ∈ comments d → ∃ r, last (history (cm_ID c) d) = Some r ∧ cm_records r c;
  cw_revisions : ∀ r, r ∈ comment_revisions d → ∃ c, c ∈ comments d ∧ cm_ID c = CommentID r;
  cw_markup : ∀ c, c ∈ comments d → cm_Markup c ≠ "";
}.

(** A change of the comment [r] is about. *)
Record cm_step (r : Revision) (d d' : comment_db) : Prop := {
  cs_revisions : comment_revisions d' = comment_revisions d ++ [r];
  cs_ids : ids_unique (comments d) → ids_unique (comments d');
  cs_comments : ∀ c, c ∈ comments d' → (cm_ID c = CommentID r ∧ cm_records r c ∧ cm_Markup c ≠ "") ∨
                                       (cm_ID c ≠ CommentID r ∧ c ∈ comments d);
  cs_kept : ∀ c, c ∈ comments d → ∃ c', c' ∈ comments d' ∧ cm_ID c' = cm_ID c;
  cs_there : ∃ c, c ∈ comments d' ∧ cm_ID c = CommentID r;
}.
Lemma cm_step_wf r d d' : cm_step r d d' → cm_wf d → cm_wf d'.
Proof.
  intros S H. split.
  - by apply (cs_ids _ _ _ S), H.
  - intros c Hc. unfold history. rewrite (cs_revisions _ _ _ S), List.filter_app. cbn [List.filter].
    destruct (cs_comments _ _ _ S c Hc) as [(E & Hr & _)|(E & Hin)].
    + rewrite bool_decide_true by done. exists r. split; [apply last_snoc|done].
    + rewrite bool_decide_false by done. rewrite app_nil_r. by apply H.
  - intros q. rewrite (cs_revisions _ _ _ S), elem_of_app, list_elem_of_singleton. intros [Hq| ->].
    + destruct (cw_revisions _ H q Hq) as (c & Hc & E). destruct (cs_kept _ _ _ S c Hc) as (c' & Hc' & E').
      exists c'. split; [done|congruence].
    + apply S.
  - intros c Hc. destruct (cs_comments _ _ _ S c Hc) as [(_ & _ & Hm)|(_ & Hin)]; [done|by apply (cw_markup _ H)].
Qed.

Section History.
Context {HO : UuidOps}.

Inductive comment_op :=
  | CCreate (now now' : Time) (newID : uuid) (c : Comment) (creatorID : uuid)
  | CSave (now now' : Time) (c : Comment) (modifierID : uuid)
  | CDelete (now now' : Time) (commentID suppressorID : uuid).
Definition run_comment_op (o : comment_op) : cmm unit :=
  match o with
  | CCreate now now' newID c creatorID => let* _ := comment_Create now now' newID c creatorID in s_ret tt
  | CSave now now' c modifierID => let* _ := comment_Save now now' c modifierID in s_ret tt
  | CDelete now now' commentID suppressorID => comment_Delete now now' commentID suppressorID
  end.
(** A comment is saved that was loaded, and is not marked as deleted. *)
Definition op_live (o : comment_op) : Prop :=
  match o with CSave _ _ c _ => DeletedAt (cm_Lifecycle c) = None | _ => True end.

Lemma default_markup_set m : default_markup m ≠ "".
Proof. unfold default_markup. by destruct (String.eqb_spec m ""). Qed.
Lemma comment_revision_ok now who ty c d u d' : Revision_Create now who ty c d = (Ok u, d') →
  comments d' = comments d ∧ ∃ r, comment_revisions d' = comment_revisions d ++ [r] ∧ CommentID r = cm_ID c ∧ cr_Type r = ty ∧
    CommentParentID r = ParentID c ∧ CommentParentCommentID r = ParentCommentID c ∧
    (ty ≠ RevisionTypeDelete → CommentBody r = Some (Body c) ∧ CommentMarkup r = Some (cm_Markup c)) ∧
    (ty = RevisionTypeDelete → CommentBody r = None ∧ CommentMarkup r = None).
Proof.
  unfold Revision_Create. destruct (existsb _ _); [|done]. intros [= _ <-]. split; [done|].
  eexists. split; [reflexivity|]. split_and!; try done; intros; destruct ty; done.
Qed.
Lemma comment_insert_ok now c d c' d' : comment_insert now c d = (Ok c', d') →
  c' = with_life (stamped now) c ∧ d' = set_comments (comments d ++ [c']) d ∧ ∀ x, x ∈ comments d → cm_ID x ≠ cm_ID c.
Proof.
  unfold comment_insert. destruct (t_insert _ _ _ _) as [v|[r t]] eqn:E; [done|]. intros [= <- <-].
  apply t_insert_ok in E as (-> & -> & HV). split_and!; [done|done|]. intros x Hx E.
  specialize (HV (primary_key "comments_pkey") ltac:(set_solver)). cbn in HV. apply not_true_iff_false in HV. apply HV.
  apply existsb_exists. exists x. split; [by apply list_elem_of_In|by apply has_ID_true].
Qed.
Lemma comment_Create_step now now' newID c who d c' d' : comment_Create now now' newID c who d = (Ok c', d') →
  ∃ r, cm_step r d d'.
Proof.
  unfold comment_Create. set (c0 := cm_with _ _ _ _). intros H. apply s_bind_ok in H as (c1 & d1 & H1 & H).
  apply comment_insert_ok in H1 as (-> & -> & Hf). apply s_bind_ok in H as (u & d2 & H2 & H). injection H as <- <-.
  rewrite s_map_ok in H2 by (intro; apply wrapf_ok).
  apply comment_revision_ok in H2 as (Hc & r & Hr & Eid & Ety & Ep & Epc & Hbody & _). cbn in Hc, Hr, Eid, Ep, Epc.
  destruct Hbody as [Eb Em]; [done|]. exists r. split.
  - done.
  - rewrite Hc. unfold ids_unique. rewrite map_app. intros Hn. apply NoDup_app. split_and!; [done| |apply NoDup_singleton].
    intros x Hx ->%list_elem_of_singleton. rewrite list_elem_of_In, in_map_iff in Hx.
    destruct Hx as (y & E & Hy%list_elem_of_In). by apply (Hf y).
  - rewrite Hc. intros x [Hx| ->%list_elem_of_singleton]%elem_of_app.
    + right. split; [rewrite Eid; by apply Hf|done].
    + left. split; [done|]. split; [|apply default_markup_set]. unfold cm_records. cbn. by rewrite Ety.
  - rewrite Hc. intros x Hx. exists x. set_solver.
  - rewrite Hc. eexists. split; [by apply elem_of_app; right; left|]. done.
Qed.
Lemma comment_Save_step now now' c who d c' d' : DeletedAt (cm_Lifecycle c) = None → ids_unique (comments d) →
  comment_Save now now' c who d = (Ok c', d') → ∃ r, cm_step r d d'.
Proof.
  intros Hd Hn. unfold comment_Save. intros H. apply s_bind_ok in H as ([] & d0 & H0 & H). apply s_query_ok in H0 as [H0 ->].
  destruct (t_first _ _) as [stored|] eqn:Ef; [|done]. apply t_first_some in Ef as (Hs & Hl & Hid%has_ID_true).
  set (c0 := cm_with _ _ _ _) in H. apply s_bind_ok in H as (c1 & d1 & H1 & H).
  apply s_bind_ok in H as (u & d2 & H2 & H). injection H as <- <-.
  rewrite s_map_ok in H2 by (intro; apply wrapf_ok).
  unfold comment_update in H1. destruct (t_update _ _ _ _ _) as [v|[[row n] t]] eqn:Et; [done|]. injection H1 as <- <-.
  pose proof (t_update_ids _ _ _ _ _ _ _ _ Et Hn) as Hn'.
  pose proof Et as Et2. apply t_update_ok in Et as (Eid & Ed & -> & Hcase).
  assert (Hrow : ∃ lc, row = with_life lc c0).
  { unfold t_update in Et2. destruct (Nat.eqb _ 0); [|destruct (first_violation _ _ _); [done|]];
      injection Et2 as <- _ _; by eexists. }
  destruct Hrow as [lc ->]. cbn in Eid, Ed.
  apply comment_revision_ok in H2 as (Hc & r & Hr & Rid & Ety & Ep & Epc & Hbody & _). cbn in Hc, Hr, Rid, Ep, Epc.
  destruct Hbody as [Eb Em]; [done|].
  assert (Hhit : ∀ x, x ∈ comments d → hit (λ _, true) (with_life lc c0) x = true ↔ x = stored).
  { intros x Hx. unfold hit. rewrite andb_true_r, andb_true_iff, has_ID_true. cbn. split.
    - intros [_ E]. apply (ids_unique_eq (comments d)); [done..|]. cbn in *. congruence.
    - intros ->. done. }
  exists r. split.
  - done.
  - rewrite Hc. done.
  - rewrite Hc. intros x Hx. apply elem_of_updated in Hx as [->|Hx].
    + left. split; [done|]. split; [|apply default_markup_set]. unfold cm_records, row_live, live. cbn. rewrite Ed, Hd.
      by rewrite Ety.
    + rewrite list_elem_of_In, List.filter_In, <- list_elem_of_In in Hx. destruct Hx as [Hx Eh]. right. split; [|done].
      rewrite Rid. intros E. apply negb_true_iff, not_true_iff_false in Eh. apply Eh, Hhit; [done|].
      apply (ids_unique_eq (comments d)); [done..|]. cbn in *. congruence.
  - rewrite Hc. intros x Hx. eexists. split; [rewrite list_elem_of_In; apply in_map, list_elem_of_In; exact Hx|].
    cbn beta. destruct (hit _ _ x) eqn:Eh; [|done]. apply Hhit in Eh as ->; [|done]. by rewrite <- Hid.
  - rewrite Hc. eexists. split; [rewrite list_elem_of_In; apply in_map, list_elem_of_In; exact Hs|].
    cbn beta. destruct (hit _ _ stored) eqn:Eh; [by rewrite Rid|].
    apply not_true_iff_false in Eh. destruct Eh. by apply Hhit.
Qed.
Lemma comment_Delete_step now now' id who d u d' : ids_unique (comments d) →
  (∀ c, c ∈ comments d → cm_Markup c ≠ "") →
  comment_Delete now now' id who d = (Ok u, d') → ∃ r, cm_step r d d'.
Proof.
  intros Hn Hmk. unfold comment_Delete. intros H. apply s_bind_ok in H as (c & d0 & H0 & H). apply s_query_ok in H0 as [H0 ->].
  case_bool_decide as Hnil; [done|]. destruct (t_where _ _) as [|s [|]] eqn:Ew; [done| |done].
  assert (Hs : s ∈ t_where (has_ID id) (comments d)) by (rewrite Ew; by left).
  apply elem_of_t_where in Hs as (Hs & Hl & Hid%has_ID_true). cbn in Hid. injection H0 as <-. cbn [cm_ID] in H.
  apply s_bind_ok in H as ([] & d1 & H1 & H). injection H1 as <-.
  rewrite s_map_ok in H by (intro; apply wrapf_ok).
  apply comment_revision_ok in H as (Hc & r & Hr & Rid & Ety & Ep & Epc & _ & Hbody).
  cbn [set_comments comments comment_revisions cm_ID ParentID ParentCommentID] in *. destruct Hbody as [Eb Em]; [done|].
  change (comments d' = (t_delete now (by_primary_key (cm_ID s)) (comments d)).2) in Hc.
  exists r. split.
  - done.
  - rewrite Hc. apply t_delete_ids.
  - rewrite Hc. intros x Hx. apply elem_of_deleted in Hx as [[Hx E]|(a & -> & Ha)].
    + destruct (decide (cm_ID x = cm_ID s)) as [Ex|Hne]; [exfalso|right; split; [congruence|done]].
      assert (x = s) as -> by by apply (ids_unique_eq (comments d)).
      assert (Eh : has_ID (cm_ID s) s = true) by by apply has_ID_true.
      unfold by_primary_key in E. by rewrite Hl, Eh, orb_true_r in E.
    + apply elem_of_t_where in Ha as (Ha & _ & Hk). left. unfold by_primary_key in Hk.
      rewrite bool_decide_false in Hk by congruence. apply has_ID_true in Hk. cbn in Hk.
      assert (a = s) as -> by by apply (ids_unique_eq (comments d)).
      split; [done|]. split; [|exact (Hmk s Hs)]. unfold cm_records. rewrite soft_delete_dead. by rewrite Ety.
  - rewrite Hc. intros x Hx. unfold t_delete. cbn [snd]. eexists.
    split; [rewrite list_elem_of_In; apply in_map, list_elem_of_In; exact Hx|]. cbn beta. by destruct (_ && _).
  - rewrite Hc. unfold t_delete. cbn [snd]. eexists.
    split; [rewrite list_elem_of_In; apply in_map, list_elem_of_In; exact Hs|]. cbn beta. rewrite Rid. by destruct (_ && _).
Qed.

(** Operations in transactions of their own. *)
Definition comment_committed (d d' : comment_db) : Prop :=
  ∃ o r, op_live o ∧ transact (run_comment_op o) d = (r, d').
Definition no_comments : comment_db := {| comments := []; comment_revisions := [] |}.
Lemma no_comments_wf : cm_wf no_comments.
Proof. split; [constructor|by intros ? ?%elem_of_nil..]. Qed.
Lemma comment_committed_wf d d' : comment_committed d d' → cm_wf d → cm_wf d'.
Proof.
  intros (o & r & Ho & H) Hwf. apply transact_err in H as Hr. destruct Hr as [->|Hr]; [done|].
  destruct r as [u|e|m]; [|unfold transact in H; rewrite Hr in H; injection H as _ <-; done..].
  destruct o as [now now' newID c who|now now' c who|now now' id who]; cbn [run_comment_op] in Hr.
  - apply s_bind_ok in Hr as (x & d1 & Hr & [= _ <-]). apply comment_Create_step in Hr as [q Hr]. by eapply cm_step_wf.
  - apply s_bind_ok in Hr as (x & d1 & Hr & [= _ <-]). apply comment_Save_step in Hr as [q Hr]; [|done|apply Hwf].
    by eapply cm_step_wf.
  - apply comment_Delete_step in Hr as [q Hr]; [|apply Hwf|apply (cw_markup _ Hwf)]. by eapply cm_step_wf.
Qed.
(** after any committed sequence of comments made, saved and deleted, the last revision of every comment says what
    the comment is now: its parents, and its text and markup, or that it is deleted; no revision is about a comment
    that never was, and a markup is always set. *)
Theorem comments_history d (Hd : rtc comment_committed no_comments d) : cm_wf d.
Proof.
  pose proof no_comments_wf as H. revert H. induction Hd as [|d0 d1 d Ha _ IH]; [done|].
  intros H. by eapply IH, comment_committed_wf.
Qed.
End History.

Definition a_comment : Comment :=
  {| cm_Lifecycle := stamped {| instant := 0; representation := 0 |}; cm_ID := uuid_of 1; ParentID := uuid_of 2;
     ParentCommentID := None; cm_Creator := uuid_of 3; Body := "first"; cm_Markup := "" |}.
Definition clock (n : Z) : Time := {| instant := n; representation := 0 |}.
Definition run_committed (o : comment_op) (d : comment_db) : comment_db := (transact (run_comment_op o) d).2.
Definition commented : comment_db :=
  run_committed (CDelete (clock 5) (clock 6) (uuid_of 1) (uuid_of 3))
    (run_committed (CSave (clock 3) (clock 4) a_comment (uuid_of 3))
      (run_committed (CCreate (clock 1) (clock 2) (uuid_of 1) a_comment (uuid_of 3)) no_comments)).
Lemma comments_history_witness : cm_wf commented ∧ length (comment_revisions commented) = 3%nat.
Proof.
  split; [|by vm_compute]. apply comments_history.
  do 2 (eapply rtc_l; [eexists _, _; split; [shelve|apply surjective_pairing]|]).
  apply rtc_once. eexists _, _. split; [|apply surjective_pairing]. done. Unshelve. all: done.
Defined.
