(* ===== verification/RepositoryFacts.v ===== *)
(** * Optimistic locking of the small repositories

    Spaces, labels and saved queries are saved on the version they were read
    at.  The interface of such a repository, what follows from it, and the three
    repositories that implement it. *)

From Stdlib Require Import ZArith Lia Ascii String SpecFloat.
From S2P Require Export Spaces Labels Queries.

(** A store [D] with a table of versioned rows. *)
Class Versioned (A D : Type) `{Row A} := {
  vs_rows : D → list A;
  vs_version : A → Z;
  vs_save : Time → A → D → res A * D;
}.
(** What a save promises: it succeeds only through an update of a row that still has the version of the value,
    leaves another version, and when no row has that version it fails and changes nothing. *)
Class VersionedLaws (A D : Type) `{Versioned A D} := {
  vs_version_life : ∀ lc a, vs_version (with_life lc a) = vs_version a;
  vs_save_ok : ∀ now a b d d', ids_unique (vs_rows d) → vs_save now a d = (Ok b, d') →
    ∃ cs a' row n, row_ID a' = row_ID a ∧ vs_version a' ≠ vs_version a ∧
      t_update cs now (λ x, vs_version x =? vs_version a) a' (vs_rows d) = inr (row, S n, vs_rows d');
  vs_save_stale : ∀ now a d,
    (∀ cs a', row_ID a' = row_ID a → ∃ row,
       t_update cs now (λ x, vs_version x =? vs_version a) a' (vs_rows d) = inr (row, O, vs_rows d)) →
    is_err (vs_save now a d).1 = true ∧ (vs_save now a d).2 = d;
}.

Section Interface.
Context {A D : Type} {HR : Row A} {HL : RowLaws A} {HV : Versioned A D} {HVL : VersionedLaws A D}.
Lemma vs_no_lost_update now now' (a a2 b : A) (d d' : D) : ids_unique (vs_rows d) →
  vs_save now a d = (Ok b, d') → row_ID a2 = row_ID a → vs_version a2 = vs_version a →
  is_err (vs_save now' a2 d').1 = true ∧ (vs_save now' a2 d').2 = d'.
Proof.
  intros Hn HS Hid Hv. destruct (vs_save_ok _ _ _ _ _ Hn HS) as (cs & a' & row & n & Hid' & Hv' & HT).
  assert (Hrow : vs_version row = vs_version a').
  { unfold t_update in HT. destruct (Nat.eqb _ 0); [done|]. destruct (first_violation _ _ _); [done|].
    injection HT as <- _ _. apply vs_version_life. }
  apply vs_save_stale. intros cs' a2' H2. rewrite Hv.
  eapply t_update_once; [exact Hn|exact HT| |congruence]. by apply Z.eqb_neq; rewrite Hrow.
Qed.
End Interface.

Lemma wrap64_next v : wrap64 (v + 1) ≠ v.
Proof.
  intros E. pose proof (wrap64_in (v + 1)) as Hv. rewrite E in Hv. unfold in_int, int_min, int_max, wrap64 in *.
  destruct (decide (v = 2 ^ 63 - 1)) as [->|Hne]; [done|]. rewrite Z.mod_small in E; lia.
Qed.
(** The stored row of an update that hit one. *)
Lemma update_hit {A} {HR : Row A} {HL : RowLaws A} cs now cond (a row : A) n t t' : t_update cs now cond a t = inr (row, S n, t') →
  ∃ x, x ∈ t ∧ row_live x = true ∧ row_ID x = row_ID a ∧ cond x = true.
Proof.
  intros H. apply t_update_ok in H as (Hid & _ & _ & [[? _]|(_ & (x & Hx & Hh) & _)]); [done|].
  unfold hit in Hh. rewrite !andb_true_iff, has_ID_true in Hh. destruct Hh as [[? ?] ?].
  exists x. split_and!; [done|done|congruence|done].
Qed.

(** ** Spaces *)

Section Instances.
Context {HO : UuidOps}.
#[export] Instance Space_Versioned : Versioned Space space_db :=
  {| vs_rows := space_rows; vs_version := sp_Version; vs_save := space_Save |}.
#[export] Instance Space_VersionedLaws : VersionedLaws Space space_db.
Proof.
  split; cbn -[t_update wrap64].
  - done.
  - intros now a b d d' _. unfold space_Save. destruct (t_first _ _); [|done].
    destruct (t_update _ _ _ _ _) as [v|[[row [|n]] t]] eqn:E; intros H; try done.
    injection H as <- <-. eexists _, _, _, _. split_and!; [| |exact E]; [done|]. cbn -[wrap64]. apply wrap64_next.
  - intros now a d H. unfold space_Save. destruct (t_first _ _); [|done].
    set (a' := sp_with _ _ _ _). destruct (H (space_constraints d) a' eq_refl) as [row E]. cbn in E. by rewrite E.
Qed.

(** ** Labels *)

#[export] Instance Label_Versioned : Versioned Label_ label_db :=
  {| vs_rows := labels; vs_version := lb_Version; vs_save := label_Save |}.
#[export] Instance Label_VersionedLaws : VersionedLaws Label_ label_db.
Proof.
  split; cbn -[t_update wrap64].
  - done.
  - intros now a b d d' Hn. unfold label_Save. destruct (String.eqb _ _); [done|].
    destruct (t_first _ _) as [x|] eqn:Ef; [|done].
    destruct (t_update _ _ _ _ _) as [v|[[row [|n]] t]] eqn:E; intros H; try done.
    injection H as <- <-. eexists _, _, _, _. split_and!; [| |exact E]; [done|]. cbn -[wrap64].
    apply update_hit in E as (y & Hy & _ & Hid & Hv). apply t_first_some in Ef as (Hx & _ & Hx2%has_ID_true).
    assert (y = x) as -> by (apply (ids_unique_eq (labels d)); [done..|cbn in *; congruence]).
    apply Z.eqb_eq in Hv. rewrite Hv. apply wrap64_next.
  - intros now a d H. unfold label_Save. destruct (String.eqb _ _); [done|]. destruct (t_first _ _); [|done].
    set (a' := lb_set _ _ _ _). destruct (H (label_constraints (lb_spaces d)) a' eq_refl) as [row E]. cbn in E. by rewrite E.
Qed.

(** ** Saved queries *)

Context (unmarshal : string → option (list (string * gval))).
Definition Query_Versioned : Versioned SavedQuery query_db :=
  {| vs_rows := queries; vs_version := q_Version; vs_save := query_Save unmarshal |}.
Definition Query_VersionedLaws : @VersionedLaws SavedQuery query_db _ Query_Versioned.
Proof.
  split; cbn -[t_update wrap64].
  - done.
  - intros now a b d d' Hn. unfold query_Save. destruct (String.eqb _ _); [done|]. destruct (unmarshal _); [|done].
    destruct (t_first _ _) as [x|] eqn:Ef; [|done].
    destruct (t_update _ _ _ _ _) as [v|[[row [|n]] t]] eqn:E; intros H; try done.
    injection H as <- <-. eexists _, _, _, _. split_and!; [| |exact E]; [done|]. cbn -[wrap64].
    apply update_hit in E as (y & Hy & _ & Hid & Hv). apply t_first_some in Ef as (Hx & _ & Hx2%has_ID_true).
    assert (y = x) as -> by (apply (ids_unique_eq (queries d)); [done..|cbn in *; congruence]).
    apply Z.eqb_eq in Hv. rewrite Hv. apply wrap64_next.
  - intros now a d H. unfold query_Save. destruct (String.eqb _ _); [done|]. destruct (unmarshal _); [|done].
    destruct (t_first _ _); [|done].
    set (a' := q_with _ _ _ _). destruct (H (query_constraints (q_spaces d)) a' eq_refl) as [row E]. cbn in E. by rewrite E.
Qed.

(** spaces, labels and saved queries lose no update: of two saves made from the same version of a row, whatever
    else they change, the second one is refused and changes nothing. *)
Theorem small_repositories_no_lost_update now now' :
  (∀ (p p2 : Space) b d d', ids_unique (space_rows d) → space_Save now p d = (Ok b, d') →
     sp_ID p2 = sp_ID p → sp_Version p2 = sp_Version p →
     is_err (space_Save now' p2 d').1 = true ∧ (space_Save now' p2 d').2 = d') ∧
  (∀ (l l2 : Label_) b d d', ids_unique (labels d) → label_Save now l d = (Ok b, d') →
     lb_ID l2 = lb_ID l → lb_Version l2 = lb_Version l →
     is_err (label_Save now' l2 d').1 = true ∧ (label_Save now' l2 d').2 = d') ∧
  (∀ (q q2 : SavedQuery) b d d', ids_unique (queries d) → query_Save unmarshal now q d = (Ok b, d') →
     q_ID q2 = q_ID q → q_Version q2 = q_Version q →
     is_err (query_Save unmarshal now' q2 d').1 = true ∧ (query_Save unmarshal now' q2 d').2 = d').
Proof.
  split_and!; intros a a2 b d d'.
  - apply (vs_no_lost_update (HV := Space_Versioned) now now' a a2 b d d').
  - apply (vs_no_lost_update (HV := Label_Versioned) now now' a a2 b d d').
  - apply (vs_no_lost_update (HV := Query_Versioned) (HVL := Query_VersionedLaws) now now' a a2 b d d').
Qed.
End Instances.

(** ** Boundary cases *)

Section Boundaries.
Context {HO : UuidOps}.

(** Deleting the query with the nil id deletes every query. *)
Theorem query_Delete_nil now (d : query_db) : (∃ q, q ∈ queries d ∧ row_live q = true) →
  ∃ d', query_Delete now uuid_Nil d = (Ok tt, d') ∧ ∀ q, q ∈ queries d' → row_live q = false.
Proof.
  intros (q & Hq & Hl). unfold query_Delete. destruct (t_delete _ _ _) as [n t] eqn:E.
  unfold t_delete in E. injection E as <- <-.
  assert (Hk : ∀ a : SavedQuery, by_primary_key uuid_Nil a = true) by (intros a; unfold by_primary_key; by rewrite bool_decide_true).
  destruct (t_where _ (queries d)) as [|x l] eqn:Ew.
  - exfalso. assert (Hin : q ∈ t_where (by_primary_key uuid_Nil) (queries d)) by (apply elem_of_t_where; done).
    rewrite Ew in Hin. by apply elem_of_nil in Hin.
  - eexists. split; [reflexivity|]. cbn [set_queries queries]. intros y. rewrite list_elem_of_In, in_map_iff.
    intros (z & <- & _). rewrite Hk, andb_true_r. destruct (row_live z) eqn:Ez; [exact (soft_delete_dead now z)|done].
Qed.
(** The owner of no space is told the number of all spaces. *)
Theorem LoadByOwner_total user (d : space_db) : (∀ p, p ∈ space_rows d → row_live p = true → OwnerID p ≠ user) →
  LoadByOwner (Some user) None None d = Ok ([], Z.of_nat (length (t_where (λ _, true) (space_rows d)))).
Proof.
  intros H. unfold LoadByOwner, listSpaceFromDB. cbn [page_limits mbind res_bind].
  assert (E : t_where (space_matches None (Some user)) (space_rows d) = []).
  { destruct (t_where _ _) as [|p l] eqn:E; [done|]. exfalso.
    assert (Hp : p ∈ t_where (space_matches None (Some user)) (space_rows d)) by (rewrite E; by left).
    apply elem_of_t_where in Hp as (Hp & Hl & Ho). apply bool_decide_eq_true in Ho. by apply (H p). }
  rewrite E. done.
Qed.
(** A page past the end of the results of a search comes with the total 0. *)
Theorem space_Search_past_end q start (d : space_db) :
  Z.of_nat (length (t_where (space_matches (Some q) None) (space_rows d))) ≤ start →
  space_Search (Some q) (Some start) None d = Ok ([], 0).
Proof.
  intros H. unfold space_Search, listSpaceFromDB, page_limits. destruct (Z.ltb_spec start 0); [lia|].
  cbn [mbind res_bind page]. rewrite drop_ge; [done|]. rewrite merge_sort_Permutation. lia.
Qed.
End Boundaries.

Definition a_time (n : Z) : Time := {| instant := n; representation := 0 |}.
Definition a_label : Label_ :=
  {| lb_Lifecycle := stamped (a_time 1); lb_ID := uuid_of 5; lb_SpaceID := uuid_of 6; lb_Name := "urgent";
     TextColor := "#000000"; BackgroundColor := "#FFFFFF"; BorderColor := "#000000"; lb_Version := 3 |}.
Definition label_store : label_db := {| labels := [a_label]; lb_spaces := [uuid_of 6] |}.
Definition saved_store : label_db := (label_Save (a_time 2) a_label label_store).2.
Lemma small_repositories_no_lost_update_witness :
  is_ok (label_Save (a_time 2) a_label label_store).1 = true ∧
  is_err (label_Save (a_time 3) a_label saved_store).1 = true ∧ (label_Save (a_time 3) a_label saved_store).2 = saved_store.
Proof.
  split; [by vm_compute|].
  destruct (label_Save (a_time 2) a_label label_store) as [[b|e|m] d'] eqn:E; [|by vm_compute in E..].
  assert (saved_store = d') as -> by (unfold saved_store; by rewrite E).
  apply (proj1 (proj2 (small_repositories_no_lost_update (λ _, None) (a_time 2) (a_time 3))) a_label a_label b label_store d').
  - apply NoDup_singleton.
  - exact E.
  - done.
  - done.
Defined.
