(* ===== verification/WorkItemTypes.v ===== *)
(** * Work item types

    [workitem/workitemtype.go], [workitemtype_cache.go] and
    [workitemtype_repository.go]: types, their table, the table of child types
    and the process-wide cache.  The field definitions of a type are listed in
    the order a range over the map visits them. *)

From Stdlib Require Import ZArith Lia Ascii String SpecFloat.
From S2P Require Export Json Links.

(** ** The type *)

Definition FieldDefinitions : Type := list (string * FieldDefinition).
Record WorkItemType := {
  t_Lifecycle : Lifecycle;
  t_ID : uuid;
  t_Name : string;
  t_Description : option string;
  t_Icon : string;
  t_Version : Z;
  t_Path : string;
  t_Fields : FieldDefinitions;
  t_SpaceTemplateID : uuid;
  t_Extends : uuid;
  t_CanConstruct : bool;
  t_ChildTypeIDs : list uuid;
}.
Definition t_with (t : WorkItemType) (lc : Lifecycle) (ID : uuid) (version : Z) (path : string)
    (fields : FieldDefinitions) (extends : uuid) (children : list uuid) : WorkItemType :=
  {| t_Lifecycle := lc; t_ID := ID; t_Name := t_Name t; t_Description := t_Description t;
     t_Icon := t_Icon t; t_Version := version; t_Path := path; t_Fields := fields;
     t_SpaceTemplateID := t_SpaceTemplateID t; t_Extends := extends;
     t_CanConstruct := t_CanConstruct t; t_ChildTypeIDs := children |}.
Definition t_with_ChildTypeIDs (t : WorkItemType) (children : list uuid) : WorkItemType :=
  t_with t (t_Lifecycle t) (t_ID t) (t_Version t) (t_Path t) (t_Fields t) (t_Extends t) children.

Definition fields_get (m : FieldDefinitions) (k : string) : option FieldDefinition :=
  snd <$> List.find (λ p, String.eqb p.1 k) m.
(** [m[k] = v] *)
Fixpoint fields_set (m : FieldDefinitions) (k : string) (v : FieldDefinition) : FieldDefinitions :=
  match m with
  | [] => [(k, v)]
  | (k', v') :: m => if String.eqb k' k then (k', v) :: m else (k', v') :: fields_set m k v
  end.

Definition strPtrIsNilOrContentIsEqual (l r : option string) : bool :=
  match l, r with
  | None, None => true
  | Some l, Some r => String.eqb l r
  | _, _ => false
  end.

(** The loop over the fields stops at the first difference. *)
Fixpoint fields_equal (byValue : bool) (l other : FieldDefinitions) : res bool :=
  match l with
  | [] => Ok true
  | (k, v) :: l =>
      match fields_get other k with
      | None => Ok false
      | Some w => and_then (FieldDefinition_Equal byValue v w) (fields_equal byValue l other)
      end
  end.
Definition WorkItemType_Equal_as (byValue : bool) (t other : WorkItemType) : res bool :=
  if negb (bool_decide (t_ID t = t_ID other)) then Ok false
  else if negb (Lifecycle_Equal (t_Lifecycle t) (t_Lifecycle other)) then Ok false
  else if negb (t_Version t =? t_Version other) then Ok false
  else if negb (String.eqb (t_Name t) (t_Name other)) then Ok false
  else if negb (bool_decide (t_Extends t = t_Extends other)) then Ok false
  else if negb (Bool.eqb (t_CanConstruct t) (t_CanConstruct other)) then Ok false
  else if negb (bool_decide (t_Description t = t_Description other)) then Ok false
  else if negb (String.eqb (t_Icon t) (t_Icon other)) then Ok false
  else if negb (String.eqb (t_Path t) (t_Path other)) then Ok false
  else if negb (bool_decide (t_ChildTypeIDs t = t_ChildTypeIDs other)) then Ok false
  else if negb (Nat.eqb (length (t_Fields t)) (length (t_Fields other))) then Ok false
  else and_then (fields_equal byValue (t_Fields t) (t_Fields other))
         (Ok (bool_decide (t_SpaceTemplateID t = t_SpaceTemplateID other))).
Definition WorkItemType_Equal : WorkItemType → WorkItemType → res bool :=
  WorkItemType_Equal_as false.
(** [EqualValue] calls [Equal] on a copy; [CascadeEqual] sees [EqualValue] two frames up. *)
Definition WorkItemType_EqualValue (t other : WorkItemType) : res bool :=
  WorkItemType_Equal_as true
    (t_with t (t_Lifecycle other) (t_ID t) (t_Version other) (t_Path t) (t_Fields t) (t_Extends t)
       (t_ChildTypeIDs t)) other.

Definition pathSep : string := ".".

(** ** The tables and the cache *)

Record ChildType := {
  ct_Lifecycle : Lifecycle;
  ct_ID : uuid;
  ParentWorkItemTypeID : uuid;
  ChildWorkItemTypeID : uuid;
  Position : Z;
}.
Record type_db := {
  wit_rows : list WorkItemType;           (* work_item_types *)
  child_rows : list ChildType;            (* work_item_child_types *)
  templates : list uuid;                  (* the live rows of space_templates *)
  all_templates : list uuid;              (* with the deleted ones *)
}.
(** The tables as a connection sees them, and the cache of the process. *)
Record types_state := { tdb : type_db; cache : gmap uuid WorkItemType }.
Notation tstm A := (types_state → res A * types_state).
Definition set_cache (c : gmap uuid WorkItemType) (s : types_state) : types_state :=
  {| tdb := tdb s; cache := c |}.
Definition set_wits (x : list WorkItemType) (s : types_state) : types_state :=
  {| tdb := {| wit_rows := x; child_rows := child_rows (tdb s); templates := templates (tdb s);
             all_templates := all_templates (tdb s) |};
     cache := cache s |}.
Definition set_children (x : list ChildType) (s : types_state) : types_state :=
  {| tdb := {| wit_rows := wit_rows (tdb s); child_rows := x; templates := templates (tdb s);
             all_templates := all_templates (tdb s) |};
     cache := cache s |}.

Definition Get (c : gmap uuid WorkItemType) (id : uuid) : option WorkItemType := c !! id.
Definition Put (c : gmap uuid WorkItemType) (wit : WorkItemType) : gmap uuid WorkItemType :=
  <[t_ID wit := wit]> c.
Definition Clear (c : gmap uuid WorkItemType) : gmap uuid WorkItemType := ∅.

Definition t_live (t : WorkItemType) : bool := live (t_Lifecycle t).
Definition ct_live (c : ChildType) : bool := live (ct_Lifecycle c).

Section Types.
Context {HO : UuidOps} (IsURL : string → bool).
Context (time_json : Z → string) (struct_json : string → option gval).

Definition WorkItemType_Validate (t : WorkItemType) : res unit :=
  if String.eqb (TrimSpace (t_Name t)) ""
  then Err (Plain "work item type name '%s' when trimmed has a zero-length")
  else wrapf "failed to validate work item type's fields"
         (FieldDefinitions_Validate IsURL (Some (t_Fields t))).

Definition LtreeSafeID (witID : uuid) : string := replace_char "-" "_" (uuid_String witID).
Definition IsTypeOrSubtypeOf (t : WorkItemType) (typeID : uuid) : bool :=
  bool_decide (t_ID t = typeID) || Contains (t_Path t) (LtreeSafeID typeID +:+ pathSep).

(** ** Loading *)

(** A row is scanned into the struct: its definitions are decoded. *)
Definition Fields_in_json (m : FieldDefinitions) : option FieldDefinitions :=
  mapM (λ p, d ← FieldDefinition_in_json time_json struct_json p.2; Some (p.1, d)) m.
Definition scan (t : WorkItemType) : res WorkItemType :=
  match Fields_in_json (t_Fields t) with
  | Some fields => Ok (t_with t (t_Lifecycle t) (t_ID t) (t_Version t) (t_Path t) fields uuid_Nil [])
  | None => Err (InternalError (Plain "sql: Scan error on column"))
  end.
(** [Where("id=?", id).First(&res)]; a missing record is [missing]. *)
Definition First_wit (d : type_db) (id : uuid) (missing : error) : res WorkItemType :=
  match List.find (λ t, t_live t && bool_decide (t_ID t = id)) (wit_rows d) with
  | Some t => scan t
  | None => Err missing
  end.

(** [order by position asc] *)
Definition position_le (a b : ChildType) : Prop := Position a ≤ Position b.
#[export] Instance position_le_dec a b : Decision (position_le a b).
Proof. unfold position_le. apply _. Defined.
Definition loadChildTypeList (d : type_db) (parentTypeID : uuid) : list uuid :=
  map ChildWorkItemTypeID (merge_sort position_le
    (List.filter (λ c, ct_live c && bool_decide (ParentWorkItemTypeID c = parentTypeID))
       (child_rows d))).

Definition load_row (d : type_db) (id : uuid) : res WorkItemType :=
  t ← First_wit d id (NotFoundError "work item type" (uuid_String id) None);
  Ok (t_with_ChildTypeIDs t (loadChildTypeList d (t_ID t))).
Definition Load (id : uuid) : tstm WorkItemType := λ s,
  match Get (cache s) id with
  | Some t => (Ok t, s)
  | None =>
      match load_row (tdb s) id with
      | Ok t => (Ok t, set_cache (Put (cache s) t) s)
      | Err e => (Err e, s)
      | Panic m => (Panic m, s)
      end
  end.

Definition CheckExists (id : uuid) : tstm unit := s_query (λ s,
  match Get (cache s) id with
  | Some _ => Ok tt
  | None => if existsb (λ t, t_live t && bool_decide (t_ID t = id)) (wit_rows (tdb s))
            then Ok tt else Err (NotFoundError "work_item_types" (uuid_String id) None)
  end).

(** ** Creating *)

(** The fields of the new type over those of the extended one. *)
Fixpoint merge_fields (fields allFields : FieldDefinitions) : res FieldDefinitions :=
  match fields with
  | [] => Ok allFields
  | (field, definition) :: fields =>
      ok ← match fields_get allFields field with
           | Some existing => compatibleFields existing definition
           | None => Ok true
           end;
      if (ok : bool) then merge_fields fields (fields_set allFields field definition)
      else Err (Plain "incompatible change for field %s")
  end.
Definition extended (d : type_db) (extends : uuid) (path : string)
    : res (FieldDefinitions * string) :=
  if bool_decide (extends = uuid_Nil) then Ok ([], path)
  else t ← First_wit d extends (BadParameterError "extendedTypeID" (uuid_String extends) None None);
       Ok (t_Fields t, t_Path t +:+ pathSep +:+ path).

(** The values of a definition can be marshalled. *)
Definition marshals (v : gval) : bool :=
  match in_json time_json struct_json v with Some _ => true | None => false end.
Definition type_marshals (t : FieldType) : bool :=
  match t with
  | FSimple t => marshals (simple_default t)
  | FEnum t => marshals (simple_default (enum_simple t)) && marshals (simple_default (BaseType t))
               && forallb marshals (values_of t) && marshals (enum_default t)
  | FList t => marshals (simple_default (list_simple t))
               && marshals (simple_default (ComponentType t)) && marshals (list_default t)
  end.

Definition created_at (now : Time) : Lifecycle :=
  {| CreatedAt := now; UpdatedAt := now; DeletedAt := None |}.
Definition insert_wit (row : WorkItemType) : tstm unit := λ s,
  if negb (forallb (λ p, type_marshals (Type_ p.2)) (t_Fields row))
  then (Err (InternalError (Plain "json: unsupported value")), s)
  else if existsb (λ t, bool_decide (t_ID t = t_ID row)) (wit_rows (tdb s))
  then (Err (InternalError (Plain "duplicate key value violates work_item_types_pkey")), s)
  else if negb (bool_decide (t_SpaceTemplateID row ∈ all_templates (tdb s)))
  then (Err (InternalError (Plain "violates foreign key constraint on space_template_id")), s)
  else (Ok tt, set_wits (wit_rows (tdb s) ++ [row]) s).
Definition CreateFromModel (now : Time) (newID : uuid) (model : WorkItemType)
    : tstm WorkItemType :=
  let ID := if bool_decide (t_ID model = uuid_Nil) then newID else t_ID model in
  let* base := s_query (λ s, extended (tdb s) (t_Extends model) (LtreeSafeID ID)) in
  let* allFields := s_query (λ _, merge_fields (t_Fields model) base.1) in
  let row := t_with model (created_at now) ID 0 base.2 allFields (t_Extends model)
               (t_ChildTypeIDs model) in
  let* _ := insert_wit row in
  s_ret row.
Definition Create_wit (now : Time) (newID newID' : uuid) (spaceTemplateID : uuid)
    (id extendedTypeID : option uuid) (name : string) (description : option string) (icon : string)
    (fields : FieldDefinitions) (canConstruct : bool) : tstm WorkItemType :=
  CreateFromModel now newID'
    {| t_Lifecycle := created_at now; t_ID := default newID id; t_Name := name;
       t_Description := description; t_Icon := icon; t_Version := 0; t_Path := "";
       t_Fields := fields; t_SpaceTemplateID := spaceTemplateID;
       t_Extends := default uuid_Nil extendedTypeID; t_CanConstruct := canConstruct;
       t_ChildTypeIDs := [] |}.

(** ** Listing *)

Definition created_le (a b : WorkItemType) : Prop :=
  instant (CreatedAt (t_Lifecycle a)) ≤ instant (CreatedAt (t_Lifecycle b)).
#[export] Instance created_le_dec a b : Decision (created_le a b).
Proof. unfold created_le. apply _. Defined.
Definition with_children (d : type_db) (t : WorkItemType) : res WorkItemType :=
  t ← scan t; Ok (t_with_ChildTypeIDs t (loadChildTypeList d (t_ID t))).
Definition List_wits (d : type_db) (spaceTemplateID : uuid) : res (list WorkItemType) :=
  if negb (bool_decide (spaceTemplateID ∈ templates d))
  then Err (NotFoundError "space template" (uuid_String spaceTemplateID) None)
  else mapM (with_children d) (merge_sort created_le
         (List.filter (λ t, t_live t && bool_decide (t_SpaceTemplateID t = spaceTemplateID))
            (wit_rows d))).
Definition SystemPlannerItem : uuid := uuid_of 0x86af51789b41469b909657e5155c3f31.
(** [LIKE 'planneritem.%'], where an underscore stands for any character; only the ids are selected. *)
Fixpoint like_prefix (p l : list ascii) : bool :=
  match p, l with
  | [], _ => true
  | a :: p, b :: l => (bool_decide (a = "_"%char) || bool_decide (a = b)) && like_prefix p l
  | _ :: _, [] => false
  end.
Definition ListPlannerItemTypes (d : type_db) (spaceTemplateID : uuid)
    : res (list (uuid * list uuid)) :=
  if negb (bool_decide (spaceTemplateID ∈ templates d))
  then Err (NotFoundError "space template" (uuid_String spaceTemplateID) None)
  else Ok (map (λ t, (t_ID t, loadChildTypeList d (t_ID t))) (merge_sort created_le
         (List.filter (λ t, t_live t && bool_decide (t_SpaceTemplateID t = spaceTemplateID)
             && like_prefix (chars (LtreeSafeID SystemPlannerItem +:+ pathSep)) (chars (t_Path t)))
            (wit_rows d)))).

(** ** Child types *)

(** Foreign keys, which deleted rows satisfy too, and work_item_child_types_uidx. *)
Definition insert_child (c : ChildType) : tstm unit := λ s,
  let exists_ id := existsb (λ t, bool_decide (t_ID t = id)) (wit_rows (tdb s)) in
  if negb (exists_ (ParentWorkItemTypeID c) && exists_ (ChildWorkItemTypeID c))
  then (Err (InternalError (Plain "violates foreign key constraint")), s)
  else if existsb (λ k, ct_live k
                        && bool_decide (ParentWorkItemTypeID k = ParentWorkItemTypeID c)
                        && bool_decide (ChildWorkItemTypeID k = ChildWorkItemTypeID c))
            (child_rows (tdb s))
  then (Err (InternalError (Plain "duplicate key value violates work_item_child_types_uidx")), s)
  else (Ok tt, set_children (child_rows (tdb s) ++ [c]) s).
(** [newIDs]: the ids the database gives the rows. *)
Fixpoint insert_children (now : Time) (newIDs : list uuid) (parentTypeID : uuid) (idx : Z)
    (childTypeIDs : list uuid) : tstm unit :=
  match childTypeIDs with
  | [] => s_ret tt
  | ID :: childTypeIDs =>
      let* _ := insert_child {| ct_Lifecycle := created_at now; ct_ID := default uuid_Nil (head newIDs);
                                ParentWorkItemTypeID := parentTypeID; ChildWorkItemTypeID := ID;
                                Position := idx |} in
      insert_children now (tail newIDs) parentTypeID (idx + 1) childTypeIDs
  end.
Definition ClearGlobalWorkItemTypeCache : tstm unit := λ s, (Ok tt, set_cache (Clear (cache s)) s).
Definition AddChildTypes (now : Time) (newIDs : list uuid) (parentTypeID : uuid)
    (childTypeIDs : list uuid) : tstm unit :=
  match childTypeIDs with
  | [] => s_ret tt
  | _ => let* _ := insert_children now newIDs parentTypeID 0 childTypeIDs in
         ClearGlobalWorkItemTypeCache
  end.
End Types.
