(* ===== verification/TypeFacts.v ===== *)
(** * The type cache and the type hierarchy

    Through one connection the cache never shows anything but the tables; with
    two it can keep a list of child types that is out of date.  A type is a
    subtype of exactly the types its chain of extensions goes through. *)

From Stdlib Require Import ZArith Lia Ascii String SpecFloat.
From stdpp Require Import relations.
From S2P Require Export WorkItemTypes.

Section Cache.
Context {HO : UuidOps} (time_json : Z → string) (struct_json : string → option gval).
Notation Load := (Load time_json struct_json).
Notation load_row := (load_row time_json struct_json).
Notation CreateFromModel := (CreateFromModel time_json struct_json).

Definition coherent (s : types_state) : Prop :=
  ∀ id t, cache s !! id = Some t → load_row (tdb s) id = Ok t.

Lemma load_row_ID d id t : load_row d id = Ok t → t_ID t = id.
Proof.
  unfold load_row, First_wit. destruct (List.find _ _) as [r|] eqn:E; [|done].
  apply List.find_some in E as [_ E]. apply andb_prop in E as [_ E].
  apply bool_decide_eq_true in E. unfold scan. destruct (Fields_in_json _ _ _); [|done].
  simpl. intros [= <-]. exact E.
Qed.

(** What [Load] returns is what the tables hold, and the cache stays right. *)
Lemma Load_reads s id : coherent s →
  (Load id s).1 = load_row (tdb s) id ∧ tdb (Load id s).2 = tdb s ∧ coherent (Load id s).2.
Proof.
  intros Hs. unfold WorkItemTypes.Load, Get. destruct (cache s !! id) as [t|] eqn:E.
  - simpl. split_and!; [by rewrite (Hs _ _ E)|done|done].
  - destruct (load_row (tdb s) id) as [t|e|m] eqn:EL; simpl; split_and!; try done.
    intros i u. simpl. unfold Put. rewrite (load_row_ID _ _ _ EL), lookup_insert_Some.
    intros [[<- <-]|[_ Hu]]; [exact EL|by apply Hs].
Qed.

Lemma find_app_some {A} (f : A → bool) l k x :
  List.find f l = Some x → List.find f (l ++ k) = Some x.
Proof. induction l as [|y l IH]; simpl; [done|]. by destruct (f y). Qed.
Lemma load_row_grows d row id t :
  load_row d id = Ok t →
  load_row {| wit_rows := wit_rows d ++ [row]; child_rows := child_rows d; templates := templates d;
              all_templates := all_templates d |} id = Ok t.
Proof.
  unfold WorkItemTypes.load_row, First_wit. simpl.
  destruct (List.find _ (wit_rows d)) as [r|] eqn:E; [|done].
  by rewrite (find_app_some _ _ _ _ E).
Qed.
Lemma insert_wit_coherent row s :
  coherent s → coherent (insert_wit time_json struct_json row s).2.
Proof.
  intros Hs. unfold insert_wit. case_match; [done|]. case_match; [done|]. case_match; [done|].
  intros id t Ht. apply load_row_grows, Hs, Ht.
Qed.
Lemma CreateFromModel_coherent now newID model s :
  coherent s → coherent (CreateFromModel now newID model s).2.
Proof.
  intros Hs. unfold WorkItemTypes.CreateFromModel, s_bind, s_query.
  destruct (extended _ _ _ _ _) as [base|e|m]; [|done..].
  destruct (merge_fields _ _) as [fs|e|m]; [|done..].
  match goal with |- context [insert_wit _ _ ?row s] =>
    pose proof (insert_wit_coherent row s Hs) as HC; destruct (insert_wit _ _ row s) as [[| |] s1] end;
    exact HC.
Qed.
Lemma insert_children_cache now ids p idx cs s :
  cache (insert_children now ids p idx cs s).2 = cache s.
Proof.
  revert ids idx s. induction cs as [|c cs IH]; intros ids idx s; [done|].
  cbn [insert_children]. unfold s_bind.
  match goal with |- context [insert_child ?row s] =>
    assert (HC : cache (insert_child row s).2 = cache s) by (unfold insert_child; by repeat case_match);
    destruct (insert_child row s) as [[u|e|m] s1] end; [|exact HC..].
  simpl in HC. by rewrite IH.
Qed.
(** It clears the cache when it succeeds. *)
Lemma AddChildTypes_cache now ids p cs s s' :
  AddChildTypes now ids p cs s = (Ok tt, s') → cs ≠ [] → cache s' = ∅.
Proof.
  intros H Hcs. destruct cs as [|c cs]; [done|]. unfold AddChildTypes, s_bind in H.
  destruct (insert_children _ _ _ _ _ _) as [[u|e|m] s1]; [|done..].
  unfold ClearGlobalWorkItemTypeCache in H. by injection H as <-.
Qed.

(** The committed calls of one connection; a failed one leaves nothing behind.  Not among them are the importer's save
    of a type that is there, and a [Load] in a transaction that is rolled back. *)
Inductive types_step (s : types_state) : types_state → Prop :=
  | step_Load id : types_step s (Load id s).2
  | step_CreateFromModel now newID model : types_step s (CreateFromModel now newID model s).2
  | step_AddChildTypes now ids p cs s' :
      AddChildTypes now ids p cs s = (Ok tt, s') → types_step s s'.

Lemma types_step_coherent s s' : types_step s s' → coherent s → coherent s'.
Proof.
  intros [id|now newID model|now ids p cs s'' H] Hs.
  - by apply Load_reads.
  - by apply CreateFromModel_coherent.
  - destruct (decide (cs = [])) as [->|Hcs]; [by injection H as <-|].
    apply AddChildTypes_cache in H; [|done]. intros i t. by rewrite H.
Qed.

(** C34: After any committed sequence of creations, child type additions and loads through one connection, from an
    empty cache, [Load] returns what the tables hold, whether it finds the type in the cache or not.  No transaction
    that loaded a type is rolled back, and the importer saves no type that is there: both leave in the cache what the
    tables do not hold. *)
Theorem Load_coherent d s id
    (Hs : rtc types_step {| tdb := d; cache := ∅ |} s) :
  (Load id s).1 = load_row (tdb s) id.
Proof.
  apply Load_reads. remember {| tdb := d; cache := ∅ |} as s0 eqn:E.
  assert (H0 : coherent s0) by (subst s0; by intros i t Ht). clear E.
  induction Hs as [s0|s0 s1 s2 H1 _ IH]; [done|]. by eapply IH, types_step_coherent.
Qed.

(** Two connections: one adds a child type and clears the cache before it commits; another loads the parent type
    in between.  From the commit on [Load] returns the type with its old list of children. *)
Theorem AddChildTypes_stale_cache d c now ids p cs s' t
    (Hadd : AddChildTypes now ids p cs {| tdb := d; cache := c |} = (Ok tt, s')) (Hcs : cs ≠ [])
    (Ht : load_row d p = Ok t) :
  let after := (Load p {| tdb := d; cache := cache s' |}).2 in
  (Load p {| tdb := tdb s'; cache := cache after |}).1 = Ok t.
Proof.
  intros after. assert (Ha : cache after = <[p := t]> ∅).
  { unfold after, WorkItemTypes.Load, Get. cbn [cache tdb].
    rewrite (AddChildTypes_cache _ _ _ _ _ _ Hadd Hcs), lookup_empty, Ht. cbn [snd set_cache cache].
    unfold Put. by rewrite (load_row_ID _ _ _ Ht). }
  unfold WorkItemTypes.Load at 1. unfold Get. cbn [cache]. by rewrite Ha, lookup_insert_eq.
Qed.
End Cache.

(** ** Subtypes *)

Section Hierarchy.
Context {HO : UuidOps} {HL : @UuidLaws HO}.
Context (time_json : Z → string) (struct_json : string → option gval).

Lemma canonical_not u c : canonical_char c = false → c ∉ chars (uuid_String u).
Proof.
  intros Hc Hin. pose proof (uuid_canonical u) as H. rewrite forallb_forall in H.
  apply list_elem_of_In in Hin. by rewrite (H _ Hin) in Hc.
Qed.
Lemma LtreeSafeID_inj u v : LtreeSafeID u = LtreeSafeID v → u = v.
Proof.
  intros H. apply uuid_String_inj.
  rewrite <- (replace_char_back "-" "_" (uuid_String u)) by by apply canonical_not.
  rewrite <- (replace_char_back "-" "_" (uuid_String v)) by by apply canonical_not.
  unfold LtreeSafeID in H. by rewrite H.
Qed.
Lemma LtreeSafeID_length u : length (chars (LtreeSafeID u)) = 36%nat.
Proof. unfold LtreeSafeID. by rewrite replace_char_chars, length_map, uuid_length. Qed.
Lemma LtreeSafeID_no_dot u : "."%char ∉ chars (LtreeSafeID u).
Proof.
  unfold LtreeSafeID. rewrite replace_char_chars, list_elem_of_In, in_map_iff.
  intros (c & Hc & Hin). apply list_elem_of_In in Hin. case_bool_decide; [done|]. subst c.
  by apply (canonical_not u "."%char).
Qed.

(** The ids a path spells. *)
Definition spells (path : string) (l : list uuid) : Prop := path = Join (map LtreeSafeID l) pathSep.


(** A dotted text that ends one piece of a path ends with the piece it belongs to. *)
Lemma piece_before_dot (l : list (list ascii)) s x q y :
  Forall (λ p, "."%char ∉ p) l → "."%char ∉ q → "."%char ∉ s →
  List.concat (map (λ p, p ++ ["."%char]) l) ++ s = x ++ q ++ "."%char :: y →
  ∃ p a, p ∈ l ∧ p = a ++ q.
Proof.
  intros Hl Hq Hs. revert x. induction Hl as [|p l Hp Hl IH]; intros x H; simpl in H.
  - exfalso. apply Hs. rewrite H. set_solver.
  - rewrite <- !app_assoc in H. simpl in H.
    destruct (decide (length (x ++ q) <= length p)%nat) as [Hle|Hgt].
    + exists p. rewrite app_assoc in H.
      assert (Hpq : ∃ z, p = (x ++ q) ++ z).
      { exists (drop (length (x ++ q)) p). rewrite <- (take_drop (length (x ++ q)) p) at 1. f_equal.
        apply (f_equal (take (length (x ++ q)))) in H.
        rewrite take_app_le in H by lia. by rewrite take_app_length in H. }
      destruct Hpq as [z ->]. destruct z as [|c z].
      * exists x. split; [by left|by rewrite app_nil_r].
      * exfalso. rewrite <- app_assoc in H. apply app_inv_head in H. simpl in H. injection H as -> _.
        apply Hp. set_solver.
    + rewrite length_app in Hgt.
      destruct (decide (S (length p) <= length x)%nat) as [Hx|Hx].
      * assert (Hx' : ∃ x', x = (p ++ ["."%char]) ++ x').
        { exists (drop (S (length p)) x). rewrite <- (take_drop (S (length p)) x) at 1. f_equal.
          apply (f_equal (take (S (length p)))) in H.
          change (p ++ "."%char :: ?r) with (p ++ ["."%char] ++ r) in H. rewrite (app_assoc p) in H.
          rewrite take_app_length' in H by (rewrite length_app; simpl; lia).
          rewrite take_app_le in H by lia. done. }
        destruct Hx' as [x' ->]. rewrite <- !app_assoc in H. apply app_inv_head in H. simpl in H.
        injection H as H. destruct (IH x') as (p' & a & Hin & E); [done|].
        exists p', a. split; [by right|done].
      * exfalso. apply Hq.
        assert (Hd : (x ++ q) !! length p = Some "."%char).
        { apply (f_equal (λ l, l !! length p)) in H.
          rewrite lookup_app_r in H by lia. rewrite Nat.sub_diag in H. simpl in H.
          rewrite app_assoc, lookup_app_l in H by (rewrite length_app; lia). done. }
        rewrite lookup_app_r in Hd by lia. by eapply list_elem_of_lookup_2.
Qed.

Lemma Join_pieces l s :
  chars (Join (l ++ [s]) pathSep) = List.concat (map (λ p, p ++ ["."%char]) (map chars l)) ++ chars s.
Proof.
  induction l as [|t l IH]; [done|].
  assert (HJ : Join ((t :: l) ++ [s]) pathSep = t +:+ pathSep +:+ Join (l ++ [s]) pathSep) by by destruct l.
  rewrite HJ, !chars_app, IH. cbn [map List.concat]. rewrite <- !app_assoc. done.
Qed.

(** A path contains an id before a dot exactly when the id is one of those before the last. *)
Lemma path_contains anc id a :
  Contains (Join (map LtreeSafeID (anc ++ [id])) pathSep) (LtreeSafeID a +:+ pathSep)
  = bool_decide (a ∈ anc).
Proof.
  apply eq_true_iff_eq. rewrite bool_decide_eq_true, Contains_spec, map_app. simpl map at 2. split.
  - intros (x & y & H). apply (f_equal chars) in H.
    rewrite Join_pieces, !chars_app in H. rewrite <- app_assoc in H. simpl in H.
    destruct (piece_before_dot (map chars (map LtreeSafeID anc)) (chars (LtreeSafeID id))
      (chars x) (chars (LtreeSafeID a)) (chars y)) as (p & z & Hp & Hz); try apply LtreeSafeID_no_dot.
    + rewrite Forall_forall. intros p Hp. rewrite map_map, list_elem_of_In, in_map_iff in Hp.
      destruct Hp as (u & <- & _). apply LtreeSafeID_no_dot.
    + exact H.
    + rewrite map_map, list_elem_of_In, in_map_iff in Hp. destruct Hp as (u & <- & Hu).
      pose proof (f_equal length Hz) as Hl. rewrite length_app, !LtreeSafeID_length in Hl.
      destruct z; [|simpl in Hl; lia]. apply chars_inj, LtreeSafeID_inj in Hz. subst u.
      by apply list_elem_of_In.
  - intros (k & l & ->)%list_elem_of_split.
    exists (of_chars (List.concat (map (λ p, p ++ ["."%char]) (map chars (map LtreeSafeID k))))),
           (Join (map LtreeSafeID (l ++ [id])) pathSep).
    apply chars_inj. rewrite !map_app. simpl map. 
    rewrite <- app_assoc. simpl. rewrite !chars_app, chars_of_chars. simpl (chars pathSep).
    change (LtreeSafeID a :: ?r ++ ?w) with ((LtreeSafeID a :: r) ++ w).
    rewrite app_assoc, !Join_pieces, map_app, map_app, concat_app. cbn [map List.concat].
    rewrite <- !app_assoc. done.
Qed.

(** The chain of extensions above a type, from the root down. *)
Inductive ancestry (rows : list WorkItemType) : WorkItemType → list uuid → Prop :=
  | ancestry_root t : t_Extends t = uuid_Nil → ancestry rows t []
  | ancestry_extends t p l :
      t_Extends t ≠ uuid_Nil → p ∈ rows → t_ID p = t_Extends t → ancestry rows p l →
      ancestry rows t (l ++ [t_ID p]).
Definition hierarchy (rows : list WorkItemType) : Prop :=
  ∀ t, t ∈ rows → ∃ l, ancestry rows t l ∧ spells (t_Path t) (l ++ [t_ID t]).

Lemma ancestry_grows rows rows' t l :
  (∀ p, p ∈ rows → p ∈ rows') → ancestry rows t l → ancestry rows' t l.
Proof. intros H. induction 1; econstructor; eauto. Qed.

Lemma First_wit_row d id e t : First_wit time_json struct_json d id e = Ok t →
  ∃ r, r ∈ wit_rows d ∧ t_ID r = id ∧ t_ID t = id ∧ t_Path t = t_Path r.
Proof.
  unfold First_wit. destruct (List.find _ _) as [r|] eqn:E; [|done].
  apply List.find_some in E as [Hr E]. apply andb_prop in E as [_ E].
  apply bool_decide_eq_true in E. unfold scan. destruct (Fields_in_json _ _ _); [|done].
  intros [= <-]. exists r. split_and!; try done. by apply list_elem_of_In.
Qed.
Lemma CreateFromModel_hierarchy now newID model s t s' :
  CreateFromModel time_json struct_json now newID model s = (Ok t, s') →
  hierarchy (wit_rows (tdb s)) → hierarchy (wit_rows (tdb s')).
Proof.
  unfold CreateFromModel, s_bind, s_query. intros H Hh.
  set (ID := if bool_decide (t_ID model = uuid_Nil) then newID else t_ID model) in *.
  destruct (extended _ _ _ _ _) as [[fs path]|e|m] eqn:EE; [|done..].
  destruct (merge_fields _ _) as [fields|e|m]; [|done..].
  destruct (insert_wit _ _ _ s) as [[u|e|m] s1] eqn:EI; [|done..]. injection H as <- <-.
  unfold insert_wit in EI. case_match; [done|]. case_match; [done|]. case_match; [done|].
  injection EI as _ <-. cbn [set_wits tdb wit_rows].
  set (row := t_with _ _ _ _ _ _ _ _).
  intros x [Hx|Hx%list_elem_of_singleton]%elem_of_app.
  { destruct (Hh x Hx) as (l & Hl & Hp). exists l. split; [|done].
    eapply ancestry_grows; [|exact Hl]. set_solver. }
  subst x. unfold extended in EE. destruct (decide (t_Extends model = uuid_Nil)) as [Hn|Hn];
    [rewrite bool_decide_true in EE by done|rewrite bool_decide_false in EE by done].
  - injection EE as <- <-. exists []. split; [by constructor|done].
  - destruct (First_wit _ _ _ _ _) as [p|e|m] eqn:EP; [|done..]. simpl in EE. injection EE as <- <-.
    apply First_wit_row in EP as (r & Hr & Hid & _ & Hpath).
    destruct (Hh r Hr) as (l & Hl & Hs). exists (l ++ [t_ID r]). split.
    + eapply ancestry_extends; [done| |done|].
      * set_solver.
      * eapply ancestry_grows; [|exact Hl]. set_solver.
    + unfold spells in *. cbn [row t_with t_Path t_ID]. rewrite Hpath, Hs.
      rewrite !map_app. simpl map. rewrite (Join_snoc (map LtreeSafeID l ++ _)); [done|].
      by destruct (map LtreeSafeID l).
Qed.

(** The types created one after the other, each by a call that succeeded. *)
Definition creates (s s' : types_state) : Prop :=
  ∃ now newID model t, CreateFromModel time_json struct_json now newID model s = (Ok t, s').

(** Of the types of an installation, created from empty tables, each is of the type or a subtype of exactly the
    types its chain of extensions goes through, itself included. *)
Theorem IsTypeOrSubtypeOf_spec s0 s t
    (Hempty : wit_rows (tdb s0) = []) (Hs : rtc creates s0 s) (Ht : t ∈ wit_rows (tdb s)) :
  ∃ l, ancestry (wit_rows (tdb s)) t l ∧
    ∀ a, IsTypeOrSubtypeOf t a = bool_decide (a ∈ l ++ [t_ID t]).
Proof.
  assert (Hh : hierarchy (wit_rows (tdb s))).
  { assert (H0 : hierarchy (wit_rows (tdb s0))).
    { rewrite Hempty. by intros x ?%elem_of_nil. }
    clear Hempty Ht. induction Hs as [s0|s0 s1 s2 H1 _ IH]; [done|]. apply IH.
    destruct H1 as (now & newID & model & u & H1). by eapply CreateFromModel_hierarchy. }
  destruct (Hh t Ht) as (l & Hl & Hp). exists l. split; [done|]. intros a.
  unfold IsTypeOrSubtypeOf. rewrite Hp, path_contains.
  apply eq_true_iff_eq. rewrite orb_true_iff, !bool_decide_eq_true. set_solver.
Qed.

End Hierarchy.

(** ** Inherited fields *)

Lemma fields_get_set m k v k' :
  fields_get (fields_set m k v) k' = if String.eqb k k' then Some v else fields_get m k'.
Proof.
  unfold fields_get. induction m as [|[k0 v0] m IH].
  - simpl. by destruct (String.eqb k k').
  - cbn [fields_set]. destruct (String.eqb_spec k0 k) as [->|Hk]; cbn [List.find fst].
    + by destruct (String.eqb_spec k k').
    + destruct (String.eqb_spec k0 k') as [->|Hk']; [|apply IH].
      by destruct (String.eqb_spec k k') as [->|].
Qed.
Lemma fields_get_cons k v m k' :
  fields_get ((k, v) :: m) k' = if String.eqb k k' then Some v else fields_get m k'.
Proof. unfold fields_get. simpl. by destruct (String.eqb k k'). Qed.
Lemma fields_get_fresh (m : FieldDefinitions) k : k ∉ m.*1 → fields_get m k = None.
Proof.
  induction m as [|[k' v] m IH]; [done|]. cbn [fmap list_fmap fst]. intros Hk.
  rewrite fields_get_cons. destruct (String.eqb_spec k' k) as [->|]; [set_solver|].
  apply IH. set_solver.
Qed.

(** The definitions of a created type are its own ones over all those of the type it extends, and where both
    define a field the two definitions are compatible. *)
Theorem merge_fields_spec fields allFields m (Hkeys : NoDup (fields.*1))
    (Hm : merge_fields fields allFields = Ok m) k :
  fields_get m k = match fields_get fields k with
                   | Some d => Some d
                   | None => fields_get allFields k
                   end ∧
  ∀ d0 d, fields_get allFields k = Some d0 → fields_get fields k = Some d →
          compatibleFields d0 d = Ok true.
Proof.
  revert allFields Hm. induction fields as [|[k' d'] fields IH]; intros all Hm.
  - injection Hm as <-. done.
  - cbn [fmap list_fmap fst] in Hkeys. apply NoDup_cons in Hkeys as [Hk' Hkeys].
    cbn [merge_fields] in Hm. apply bind_ok in Hm as ([|] & Hok & Hm); [|done].
    destruct (IH Hkeys _ Hm) as [E C]. rewrite E, fields_get_cons.
    setoid_rewrite fields_get_set in C. rewrite fields_get_set.
    destruct (String.eqb_spec k' k) as [->|Hne].
    + rewrite (fields_get_fresh fields k Hk'). split; [done|]. intros d0 d H0 [= <-].
      by rewrite H0 in Hok.
    + split; [done|]. intros d0 d H0 H1. by apply C.
Qed.

(** ** Concretely *)

Definition t0 : Time := {| instant := 0; representation := 0 |}.
Definition no_json_time (z : Z) : string := "".
Definition no_json_struct (s : string) : option gval := None.
Definition id_planner : uuid := uuid_of 1.
Definition id_bug : uuid := uuid_of 2.
Definition id_task : uuid := uuid_of 3.
Definition id_template : uuid := uuid_of 9.
Definition model_of (id extends : uuid) (name : string) (fields : FieldDefinitions) : WorkItemType :=
  {| t_Lifecycle := created_at t0; t_ID := id; t_Name := name; t_Description := None; t_Icon := "";
     t_Version := 0; t_Path := ""; t_Fields := fields; t_SpaceTemplateID := id_template;
     t_Extends := extends; t_CanConstruct := true; t_ChildTypeIDs := [] |}.
Definition state_field : FieldDefinition :=
  {| Required := true; ReadOnly := false; Label := "State"; Description := "";
     Type_ := FEnum state_enum |}.
Definition planner_model := model_of id_planner uuid_Nil "planneritem" [("system.title", title_field)].
Definition bug_model := model_of id_bug id_planner "bug" [("system.state", state_field)].
Definition no_types : types_state :=
  {| tdb := {| wit_rows := []; child_rows := []; templates := [id_template];
               all_templates := [id_template] |}; cache := ∅ |}.
Definition create_model (m : WorkItemType) (s : types_state) : types_state :=
  (CreateFromModel no_json_time no_json_struct t0 uuid_Nil m s).2.
Definition with_planner : types_state := create_model planner_model no_types.
Definition with_bug : types_state := create_model bug_model with_planner.

Lemma create_model_creates m s :
  is_ok (CreateFromModel no_json_time no_json_struct t0 uuid_Nil m s).1 = true →
  creates no_json_time no_json_struct s (create_model m s).
Proof.
  intros H. unfold create_model. exists t0, uuid_Nil, m.
  destruct (CreateFromModel _ _ _ _ _ _) as [[t| |] s'] eqn:E; [|done..]. by exists t.
Qed.

Lemma FieldType_in_json_valid_witness :
  FieldType_in_json no_json_time no_json_struct (FEnum state_enum) = Some (FEnum state_enum).
Proof. apply (FieldType_in_json_valid _ _ any_url); [reflexivity|done|reflexivity]. Defined.
Lemma Load_coherent_witness :
  (Load no_json_time no_json_struct id_bug (Load no_json_time no_json_struct id_bug with_bug).2).1
  = load_row no_json_time no_json_struct (tdb with_bug) id_bug.
Proof.
  change (tdb with_bug)
    with (tdb (Load no_json_time no_json_struct id_bug with_bug).2).
  apply (Load_coherent _ _ (tdb no_types)).
  eapply rtc_l; [apply (step_CreateFromModel _ _ _ t0 uuid_Nil planner_model)|].
  eapply rtc_l; [apply (step_CreateFromModel _ _ _ t0 uuid_Nil bug_model)|].
  apply rtc_once, step_Load.
Defined.
(** The bug type is given itself as a child, in a transaction another load meets. *)
Definition adding := AddChildTypes t0 [uuid_of 20] id_bug [id_bug] with_bug.
Lemma AddChildTypes_stale_cache_witness :
  ∃ t, t_ChildTypeIDs t = [] ∧
    loadChildTypeList (tdb adding.2) id_bug = [id_bug] ∧
    (Load no_json_time no_json_struct id_bug
      {| tdb := tdb adding.2;
         cache := cache (Load no_json_time no_json_struct id_bug
                           {| tdb := tdb with_bug; cache := cache adding.2 |}).2 |}).1 = Ok t.
Proof.
  destruct (load_row no_json_time no_json_struct (tdb with_bug) id_bug) as [t|e|m] eqn:E;
    [|by vm_compute in E..].
  exists t. split; [by vm_compute in E; injection E as <-|]. split; [by vm_compute|].
  eapply (AddChildTypes_stale_cache no_json_time no_json_struct (tdb with_bug) (cache with_bug) t0
           [uuid_of 20] id_bug [id_bug] adding.2 t); [|done|exact E].
  by vm_compute.
Defined.
Lemma IsTypeOrSubtypeOf_spec_witness :
  ∃ t l, t ∈ wit_rows (tdb with_bug) ∧ t_ID t = id_bug ∧
    ∀ a, IsTypeOrSubtypeOf t a = bool_decide (a ∈ l ++ [t_ID t]).
Proof.
  destruct (wit_rows (tdb with_bug)) as [|p [|t [|]]] eqn:E; try (by vm_compute in E).
  assert (Ht : t ∈ wit_rows (tdb with_bug)) by (rewrite E; right; by left).
  destruct (IsTypeOrSubtypeOf_spec no_json_time no_json_struct no_types with_bug t) as (l & _ & Hl).
  - done.
  - eapply rtc_l; [|apply rtc_once]; [apply (create_model_creates planner_model)
                                    |apply (create_model_creates bug_model)]; by vm_compute.
  - done.
  - exists t, l. split; [by rewrite <- E|]. split; [|exact Hl].
    by vm_compute in E; injection E as _ <-.
Defined.
Definition short_title : FieldDefinition :=
  {| Required := true; ReadOnly := false; Label := "Summary"; Description := "";
     Type_ := FSimple string_type |}.
Lemma merge_fields_spec_witness :
  fields_get [("system.title", short_title)] "system.title" = Some short_title ∧
  ∀ d0 d, fields_get [("system.title", title_field)] "system.title" = Some d0 →
          fields_get [("system.title", short_title)] "system.title" = Some d →
          compatibleFields d0 d = Ok true.
Proof.
  pose proof (merge_fields_spec [("system.title", short_title)] [("system.title", title_field)]
    [("system.title", short_title)] (proj2 (NoDup_cons _ _) (conj (not_elem_of_nil _) (NoDup_nil_2)))
    eq_refl "system.title") as [_ H].
  split; [reflexivity|exact H].
Defined.
