(* ===== verification/WorkItems.v ===== *)
(** * Work items

    [workitem/workitem.go], [workitem_storage.go], [workitem_revision.go],
    [workitem_revision_repository.go], [number_sequence/] and the operations of
    [workitem_repository.go] on single items.  A query is its result on the
    tables; [First] orders by the primary key; the numbers of the execution
    order are IEEE binary64 and no NaN. *)

From Stdlib Require Import ZArith Lia Ascii String SpecFloat.
From S2P Require Export WorkItemTypes.

(** ** Data *)

Notation Fields := (gmap string gval).
(** [m[k]] of a map to interface values: nil when there is no entry. *)
Definition fld (m : Fields) (k : string) : gval := default VNil (m !! k).

Record WorkItemStorage := {
  s_Lifecycle : Lifecycle;
  s_ID : uuid;
  s_Number : Z;
  s_Type : uuid;
  s_Version : Z;
  s_Fields : Fields;
  s_ExecutionOrder : float64;
  s_SpaceID : uuid;
  s_RelationShipsChangedAt : option Time;
}.
Record WorkItem := {
  w_ID : uuid;
  w_Number : Z;
  w_Type : uuid;
  w_Version : Z;
  w_SpaceID : uuid;
  w_Fields : Fields;
  w_relationShipsChangedAt : option Time;
}.
Definition s_with (w : WorkItemStorage) (lc : Lifecycle) (type : uuid) (version : Z)
    (fields : Fields) (order : float64) : WorkItemStorage :=
  {| s_Lifecycle := lc; s_ID := s_ID w; s_Number := s_Number w; s_Type := type;
     s_Version := version; s_Fields := fields; s_ExecutionOrder := order;
     s_SpaceID := s_SpaceID w; s_RelationShipsChangedAt := s_RelationShipsChangedAt w |}.
Definition s_live (w : WorkItemStorage) : bool := live (s_Lifecycle w).

Inductive RevisionType := RevisionTypeCreate | RevisionTypeDelete | RevisionTypeUpdate.
#[export] Instance RevisionType_eq_dec : EqDecision RevisionType.
Proof. solve_decision. Defined.
Definition RevisionType_int (t : RevisionType) : Z :=
  match t with RevisionTypeCreate => 1 | RevisionTypeDelete => 2 | RevisionTypeUpdate => 4 end.
Record Revision := {
  r_Time : Time;
  r_Type : RevisionType;
  r_ModifierIdentity : uuid;
  r_WorkItemID : uuid;
  r_WorkItemTypeID : uuid;
  r_WorkItemVersion : Z;
  r_WorkItemFields : Fields;
}.

Record wi_db := {
  rows : list WorkItemStorage;            (* work_items *)
  revs : list Revision;                   (* work_item_revisions *)
  sequences : gmap uuid Z;                (* work_item_number_sequences *)
  spaces : list (uuid * uuid);            (* id and template of spaces, the deleted ones too *)
  types : types_state;
}.
Notation wstm A := (wi_db → res A * wi_db).
Definition set_rows (x : list WorkItemStorage) (d : wi_db) : wi_db :=
  {| rows := x; revs := revs d; sequences := sequences d; spaces := spaces d; types := types d |}.
Definition set_revs (x : list Revision) (d : wi_db) : wi_db :=
  {| rows := rows d; revs := x; sequences := sequences d; spaces := spaces d; types := types d |}.
Definition set_sequences (x : gmap uuid Z) (d : wi_db) : wi_db :=
  {| rows := rows d; revs := revs d; sequences := x; spaces := spaces d; types := types d |}.
Definition set_types (x : types_state) (d : wi_db) : wi_db :=
  {| rows := rows d; revs := revs d; sequences := sequences d; spaces := spaces d; types := x |}.
(** A statement on the types. *)
Definition on_types {A} (m : tstm A) : wstm A := λ d,
  let '(r, t) := m (types d) in (r, set_types t d).

Definition SystemCreator : string := "system.creator".
Definition SystemDescription : string := "system.description".
Definition SystemState : string := "system.state".
Definition SystemCreatedAt : string := "system.created_at".
Definition SystemUpdatedAt : string := "system.updated_at".
Definition SystemOrder : string := "system.order".
Definition SystemNumber : string := "system.number".
Definition SystemIteration : string := "system.iteration".
Definition SystemMetaState : string := "system.metastate".

Definition orderValue : float64 := float_of_int 1000.
Definition f_add : float64 → float64 → float64 := SFadd 53 1024.
Definition f_half (x : float64) : float64 := SFdiv 53 1024 x (float_of_int 2).
Definition f_zero : float64 := S754_zero false.

Inductive DirectionType :=
  | DirectionAbove | DirectionBelow | DirectionTop | DirectionBottom
  | DirectionOther (s : string).

(** ** The order of the results of a list *)

Definition SortWorkItemsByDefault : string := "execution_order DESC".
Definition ParseSortWorkItemsBy (s : option string) : res string :=
  match s with
  | None => Ok SortWorkItemsByDefault
  | Some s =>
      if String.eqb s "execution" then Ok "execution_order ASC"
      else if String.eqb s "-execution" then Ok "execution_order DESC"
      else if String.eqb s "created" then Ok "created_at ASC"
      else if String.eqb s "-created" then Ok "created_at DESC"
      else if String.eqb s "updated" then Ok "updated_at ASC"
      else if String.eqb s "-updated" then Ok "updated_at DESC"
      else Err (BadParameterError "sort" s None None)
  end.

Section WorkItems.
Context {HO : UuidOps} (IsURL : string → bool).
Context (time_json : Z → string) (struct_json : string → option gval).
Notation LoadType := (Load time_json struct_json).

(** ** Revisions and numbers *)

(** A column of type jsonb; [None]: the value cannot be marshalled. *)
Definition column (m : Fields) : option Fields :=
  list_to_map <$> mapM (λ p, v ← in_json time_json struct_json p.2; Some (p.1, v)) (map_to_list m).

Definition Revision_Create (now : Time) (modifierID : uuid) (revisionType : RevisionType)
    (w : WorkItemStorage) : wstm Revision := λ d,
  let fields := match revisionType with RevisionTypeDelete => ∅ | _ => s_Fields w end in
  let rev f := {| r_Time := now; r_Type := revisionType; r_ModifierIdentity := modifierID;
                  r_WorkItemID := s_ID w; r_WorkItemTypeID := s_Type w;
                  r_WorkItemVersion := s_Version w; r_WorkItemFields := f |} in
  match column fields with
  | Some f => (Ok (rev fields), set_revs (revs d ++ [rev f]) d)
  | None => (Err (InternalError (Wrapped "failed to create new work item revision"
                                   (Plain "json: unsupported value"))), d)
  end.
Definition rev_time_le (a b : Revision) : Prop := instant (r_Time a) ≤ instant (r_Time b).
#[export] Instance rev_time_le_dec a b : Decision (rev_time_le a b).
Proof. unfold rev_time_le. apply _. Defined.
Definition Revision_List (d : wi_db) (workitemID : uuid) : list Revision :=
  merge_sort rev_time_le (List.filter (λ r, bool_decide (r_WorkItemID r = workitemID)) (revs d)).

(** The column is a 32-bit integer; the space must exist. *)
Definition NextVal (spaceID : uuid) : wstm Z := λ d,
  let failed := Wrapped "failed to obtain next val for space with ID=`%s`" in
  match sequences d !! spaceID with
  | Some v =>
      if v =? 2 ^ 31 - 1 then (Err (failed (Plain "integer out of range")), d)
      else (Ok (v + 1), set_sequences (<[spaceID := v + 1]> (sequences d)) d)
  | None =>
      if existsb (λ s, bool_decide (s.1 = spaceID)) (spaces d)
      then (Ok 1, set_sequences (<[spaceID := 1]> (sequences d)) d)
      else (Err (failed (Plain "violates foreign key constraint")), d)
  end.

(** ** Between storage and model *)

Definition convert_fields (w : WorkItemStorage) : FieldDefinitions → Fields → res Fields :=
  fix go (defs : FieldDefinitions) (acc : Fields) : res Fields :=
    match defs with
    | [] => Ok acc
    | (name, field) :: defs =>
        if String.eqb name SystemCreatedAt then go defs acc
        else v ← with_stack (FieldDefinition_ConvertFromModel field name (fld (s_Fields w) name));
             go defs (<[SystemOrder := VFloat64 (s_ExecutionOrder w)]> (<[name := v]> acc))
    end.
Definition WorkItemType_ConvertWorkItemStorageToModel (t : WorkItemType) (w : WorkItemStorage)
    : res WorkItem :=
  fields ← convert_fields w (t_Fields t) ∅;
  Ok {| w_ID := s_ID w; w_Number := s_Number w; w_Type := s_Type w; w_Version := s_Version w;
        w_SpaceID := s_SpaceID w; w_Fields := fields;
        w_relationShipsChangedAt := s_RelationShipsChangedAt w |}.
Definition has_field (t : WorkItemType) (name : string) : bool :=
  match fields_get (t_Fields t) name with Some _ => true | None => false end.
Definition ConvertWorkItemStorageToModel (t : WorkItemType) (w : WorkItemStorage) : res WorkItem :=
  result ← replace_err (ConversionError "%s") (WorkItemType_ConvertWorkItemStorageToModel t w);
  let set name v (m : Fields) := if has_field t name then <[name := v]> m else m in
  Ok {| w_ID := w_ID result; w_Number := w_Number result; w_Type := w_Type result;
        w_Version := w_Version result; w_SpaceID := w_SpaceID result;
        w_Fields :=
          set SystemNumber (VInt (s_Number w))
          (set SystemOrder (VFloat64 (s_ExecutionOrder w))
          (set SystemUpdatedAt (VTime (instant (UpdatedAt (s_Lifecycle w))))
          (set SystemCreatedAt (VTime (instant (CreatedAt (s_Lifecycle w)))) (w_Fields result))));
        w_relationShipsChangedAt := w_relationShipsChangedAt result |}.

(** ** Queries *)

(** [ORDER BY id LIMIT 1] among the live rows *)
Definition id_le (a b : WorkItemStorage) : Prop := (uuid_bits (s_ID a) ≤ uuid_bits (s_ID b))%N.
#[export] Instance id_le_dec a b : Decision (id_le a b).
Proof. unfold id_le. apply _. Defined.
Definition First (p : WorkItemStorage → bool) (d : wi_db) : option WorkItemStorage :=
  head (merge_sort id_le (List.filter (λ w, s_live w && p w) (rows d))).
(** [SELECT max(execution_order) ...], over the deleted rows too; [None] is NULL. *)
Definition aggregate (better : float64 → float64 → bool) (p : WorkItemStorage → bool) (d : wi_db)
    : option float64 :=
  fold_left (λ m w, if p w then
                      Some (match m with
                            | None => s_ExecutionOrder w
                            | Some x => if better (s_ExecutionOrder w) x then s_ExecutionOrder w else x
                            end)
                    else m) (rows d) None.
Definition max_order := aggregate (λ x y, SFltb y x).
Definition min_order := aggregate (λ x y, SFltb x y).
(** [execution_order = (SELECT ...)]: in any space. *)
Definition First_with_order (o : option float64) (d : wi_db) : option WorkItemStorage :=
  match o with
  | Some x => First (λ w, SFeqb (s_ExecutionOrder w) x) d
  | None => None
  end.
Definition in_space (spaceID : uuid) (w : WorkItemStorage) : bool :=
  bool_decide (s_SpaceID w = spaceID).

Definition LoadFromDB (d : wi_db) (id : uuid) : res WorkItemStorage :=
  match First (λ w, bool_decide (s_ID w = id)) d with
  | Some w => Ok w
  | None => Err (NotFoundError "work item" (uuid_String id) None)
  end.
Definition internal {A} (r : res A) : res A :=
  match r with Err e => Err (InternalError e) | r => r end.
Definition LoadByID (id : uuid) : wstm WorkItem :=
  let* w := s_map with_stack (s_query (λ d, LoadFromDB d id)) in
  let* t := s_map internal (on_types (LoadType (s_Type w))) in
  s_query (λ _, ConvertWorkItemStorageToModel t w).
(** A row that does not convert becomes a nil pointer. *)
Fixpoint convert_batch (l : list WorkItemStorage) : wstm (list (option WorkItem)) :=
  match l with
  | [] => s_ret []
  | w :: l =>
      let* t := s_map internal (on_types (LoadType (s_Type w))) in
      let* x := s_query (λ _, match ConvertWorkItemStorageToModel t w with
                              | Ok x => Ok (Some x) | Err _ => Ok None | Panic m => Panic m end) in
      let* xs := convert_batch l in
      s_ret (x :: xs)
  end.
Definition LoadBatchByID (ids : list uuid) : wstm (list (option WorkItem)) :=
  let* l := s_query (λ d, Ok (List.filter (λ w, s_live w && bool_decide (s_ID w ∈ ids)) (rows d))) in
  convert_batch l.
Fixpoint convert_all (l : list WorkItemStorage) : wstm (list WorkItem) :=
  match l with
  | [] => s_ret []
  | w :: l =>
      let* t := s_map internal (on_types (LoadType (s_Type w))) in
      let* x := s_map (wrapf "error when converting WI")
                  (s_query (λ _, ConvertWorkItemStorageToModel t w)) in
      let* xs := convert_all l in
      s_ret (x :: xs)
  end.
(** [fields @> '{"system.iteration":"..."}'] *)
Definition LoadByIteration (iterationID : uuid) : wstm (list WorkItem) :=
  let* l := s_query (λ d, Ok (List.filter (λ w, s_live w &&
      match fld (s_Fields w) SystemIteration with
      | VString s => String.eqb s (uuid_String iterationID) | _ => false end) (rows d))) in
  convert_all l.
Definition CheckExists (d : wi_db) (id : uuid) : res unit :=
  if existsb (λ w, s_live w && bool_decide (s_ID w = id)) (rows d) then Ok tt
  else Err (NotFoundError "work_items" (uuid_String id) None).

Definition loadWorkItemStorage (spaceID : uuid) (wiNumber : Z) : wstm (WorkItemStorage * WorkItemType) :=
  let* w := s_query (λ d,
    match First (λ w, (s_Number w =? wiNumber) && in_space spaceID w) d with
    | Some w => Ok w
    | None => Err (NotFoundError "work item" (Itoa wiNumber) None)
    end) in
  let* t := s_map internal (on_types (LoadType (s_Type w))) in
  s_ret (w, t).
Definition LoadWorkItem (spaceID : uuid) (wiNumber : Z) : wstm WorkItem :=
  let* p := loadWorkItemStorage spaceID wiNumber in
  s_query (λ _, ConvertWorkItemStorageToModel p.2 p.1).

(** The zero row stands for one that was not found. *)
Definition zero_row : WorkItemStorage :=
  {| s_Lifecycle := {| CreatedAt := {| instant := 0; representation := 0 |};
                       UpdatedAt := {| instant := 0; representation := 0 |}; DeletedAt := None |};
     s_ID := uuid_Nil; s_Number := 0; s_Type := uuid_Nil; s_Version := 0; s_Fields := ∅;
     s_ExecutionOrder := f_zero; s_SpaceID := uuid_Nil; s_RelationShipsChangedAt := None |}.
Definition load_extreme (agg : (WorkItemStorage → bool) → wi_db → option float64) (spaceID : uuid)
    : wstm WorkItem :=
  let* w := s_query (λ d, Ok (default zero_row (First_with_order (agg (in_space spaceID) d) d))) in
  let* t := s_map internal (on_types (LoadType (s_Type w))) in
  s_query (λ _, ConvertWorkItemStorageToModel t w).
Definition LoadTopWorkitem : uuid → wstm WorkItem := load_extreme max_order.
Definition LoadBottomWorkitem : uuid → wstm WorkItem := load_extreme min_order.
Definition LoadHighestOrder (d : wi_db) (spaceID : uuid) : float64 :=
  s_ExecutionOrder (default zero_row (First_with_order (max_order (in_space spaceID) d) d)).

(** ** Creating *)

Definition CheckTypeAndSpaceShareTemplate (d : wi_db) (wit : WorkItemType) (spaceID : uuid)
    : res bool :=
  if negb (t_CanConstruct wit)
  then Err (ForbiddenError "cannot construct work items from %q (%s)")
  else
    let template := snd <$> List.find (λ s, bool_decide (s.1 = spaceID)) (spaces d) in
    if existsb (λ t, bool_decide (t_ID t = t_ID wit)
                     && bool_decide (Some (t_SpaceTemplateID t) = template))
         (wit_rows (tdb (types d)))
    then Ok true
    else Err (BadParameterError "" "" None
                (Some "Workitem Type %q (ID: %s) does not belong to the current space template")).

Definition is_nil_value (v : gval) : bool := match v with VNil => true | _ => false end.
(** The check of a description, on the value as it was converted. *)
Definition check_description (name : string) (m : Fields) : res unit :=
  if String.eqb name SystemDescription && negb (is_nil_value (fld m name))
  then match fld m name with
       | VMap v => c ← NewMarkupContentFromMap v;
                   if IsMarkupSupported (Markup c) then Ok tt
                   else Err (BadParameterError name "%v" None None)
       | _ => Panic "interface conversion"
       end
  else Ok tt.
Definition store_field (name : string) (fieldDef : FieldDefinition) (value : gval) (m : Fields)
    : res Fields :=
  v ← replace_err (BadParameterError name "%v" None None)
        (FieldDefinition_ConvertToModel IsURL fieldDef name value);
  Ok (<[name := v]> m).
Fixpoint create_fields (defs : FieldDefinitions) (fields m : Fields) : res Fields :=
  match defs with
  | [] => Ok m
  | (name, def) :: defs =>
      if ReadOnly def then create_fields defs fields m
      else
        m ← store_field name def (fld fields name) m;
        let m := if bool_decide (GetKind (Type_ def) = KindList) && is_nil_value (fld fields name)
                 then delete name m else m in
        _ ← check_description name m;
        create_fields defs fields m
  end.

(** Row and columns are written when the values marshal; the indexes are
    [work_items_pkey] and [uix_work_items_spaceid_number]. *)
Definition insert_row (w : WorkItemStorage) : wstm unit := λ d,
  match column (s_Fields w) with
  | None => (Err (Wrapped "failed to create work item" (Plain "json: unsupported value")), d)
  | Some f =>
      if existsb (λ x, bool_decide (s_ID x = s_ID w)
                       || (in_space (s_SpaceID w) x && (s_Number x =? s_Number w))) (rows d)
      then (Err (Wrapped "failed to create work item" (Plain "duplicate key value")), d)
      else if negb (existsb (λ s, bool_decide (s.1 = s_SpaceID w)) (spaces d))
           || negb (existsb (λ t, bool_decide (t_ID t = s_Type w)) (wit_rows (tdb (types d))))
      then (Err (Wrapped "failed to create work item" (Plain "violates foreign key constraint")), d)
      else (Ok tt, set_rows (rows d ++ [s_with w (s_Lifecycle w) (s_Type w) (s_Version w) f
                                              (s_ExecutionOrder w)]) d)
  end.

Definition Create (now : Time) (newID spaceID typeID : uuid) (fields : Fields) (creatorID : uuid)
    : wstm (WorkItem * Revision) :=
  let* wiType := s_map (replace_err (BadParameterError "typeID" (uuid_String typeID) None None))
                   (on_types (LoadType typeID)) in
  let* _ := s_query (λ d, CheckTypeAndSpaceShareTemplate d wiType spaceID) in
  let* pos := s_query (λ d, Ok (f_add (LoadHighestOrder d spaceID) orderValue)) in
  let* number := s_map internal (NextVal spaceID) in
  let fields := <[SystemCreator := VString (uuid_String creatorID)]> fields in
  let* m := s_query (λ _, create_fields (t_Fields wiType) fields ∅) in
  let wi := {| s_Lifecycle := created_at now; s_ID := newID; s_Number := number; s_Type := typeID;
               s_Version := 0; s_Fields := m; s_ExecutionOrder := pos; s_SpaceID := spaceID;
               s_RelationShipsChangedAt := None |} in
  let* _ := insert_row wi in
  let* witem := s_query (λ _, ConvertWorkItemStorageToModel wiType wi) in
  let* rev := s_map (wrapf "error while creating work item")
                (Revision_Create now creatorID RevisionTypeCreate wi) in
  s_ret (witem, rev).

(** ** Deleting *)

Definition soft_delete_row (now : Time) (id : uuid) (w : WorkItemStorage) : WorkItemStorage :=
  if s_live w && bool_decide (s_ID w = id)
  then s_with w {| CreatedAt := CreatedAt (s_Lifecycle w); UpdatedAt := UpdatedAt (s_Lifecycle w);
                   DeletedAt := Some now |} (s_Type w) (s_Version w) (s_Fields w) (s_ExecutionOrder w)
  else w.
(** [Find] fills in id, version and type; its error is ignored. *)
Definition Delete (now : Time) (workitemID suppressorID : uuid) : wstm unit := λ d,
  match First (λ w, bool_decide (s_ID w = workitemID)) d with
  | None => (Err (NotFoundError "work item" (uuid_String workitemID) None), d)
  | Some w =>
      s_map (wrapf "error while deleting work item")
        (let* _ := Revision_Create now suppressorID RevisionTypeDelete w in s_ret tt)
        (set_rows (map (soft_delete_row now workitemID) (rows d)) d)
  end.

(** ** Reordering *)

Definition CalculateOrder (above below : float64) : float64 := f_half (f_add above below).

(** The id of the neighbour, and its order when there is one. *)
Definition FindSecondItem (d : wi_db) (order : float64) (spaceID : uuid)
    (secondItemDirection : DirectionType) : option (uuid * option float64) :=
  let found o := match First_with_order o d with
                 | Some w => Some (s_ID w, Some (s_ExecutionOrder w))
                 | None => Some (uuid_Nil, None)
                 end in
  match secondItemDirection with
  | DirectionAbove =>
      found (max_order (λ w, in_space spaceID w && SFltb (s_ExecutionOrder w) order) d)
  | DirectionBelow =>
      found (min_order (λ w, in_space spaceID w && SFltb order (s_ExecutionOrder w)) d)
  | _ => None
  end.
Definition FindFirstItem (d : wi_db) (spaceID id : uuid) : res float64 :=
  match First (λ w, bool_decide (s_ID w = id) && in_space spaceID w) d with
  | Some w => Ok (s_ExecutionOrder w)
  | None => Err (NotFoundError "work item" (uuid_String id) None)
  end.
(** [v.(float64)] *)
Definition assert_float64 (v : gval) : res float64 :=
  match v with VFloat64 f => Ok f | _ => Panic "interface conversion" end.

Definition target_not_nil : error := BadParameterError "target ID" "<nil>" (Some "not nil") None.
Definition target_nil : error := BadParameterError "target ID" "%v" (Some "nil") None.
(** The new order next to a target: [fallback] when there is no neighbour on that side. *)
Definition order_beside (d : wi_db) (spaceID : uuid) (targetID : option uuid) (dir : DirectionType)
    (fallback : float64 → float64) (res_ID : uuid) (wi : WorkItem) : res float64 :=
  match targetID with
  | None => Err target_not_nil
  | Some id =>
      first ← replace_err (NotFoundError "work item" (uuid_String id) None)
                (FindFirstItem d spaceID id);
      match FindSecondItem d first spaceID dir with
      | Some (secondID, Some second) =>
          if bool_decide (secondID = res_ID) then assert_float64 (fld (w_Fields wi) SystemOrder)
          else Ok (CalculateOrder first second)
      | _ => Ok (fallback first)
      end
  end.
(** The new order at an end of the list of the space. *)
Definition order_at_end (load : uuid → wstm WorkItem) (next : float64 → float64) (spaceID : uuid)
    (targetID : option uuid) (wi : WorkItem) : wstm float64 :=
  match targetID with
  | Some _ => s_fail target_nil
  | None =>
      let* r := s_map (wrapf "Failed to reorder") (load spaceID) in
      s_query (λ _,
        if bool_decide (w_ID wi = w_ID r) then assert_float64 (fld (w_Fields wi) SystemOrder)
        else o ← assert_float64 (fld (w_Fields r) SystemOrder); Ok (next o))
  end.
(** [None]: a direction that is not known. *)
Definition new_order (spaceID : uuid) (direction : DirectionType) (targetID : option uuid)
    (res_ID : uuid) (wi : WorkItem) : wstm (option float64) :=
  match direction with
  | DirectionBelow =>
      s_map (fmap Some) (s_query (λ d, order_beside d spaceID targetID DirectionAbove
                                         (λ o, CalculateOrder o f_zero) res_ID wi))
  | DirectionAbove =>
      s_map (fmap Some) (s_query (λ d, order_beside d spaceID targetID DirectionBelow
                                         (λ o, f_add o orderValue) res_ID wi))
  | DirectionTop =>
      s_map (fmap Some) (order_at_end LoadTopWorkitem (λ o, f_add o orderValue) spaceID targetID wi)
  | DirectionBottom =>
      s_map (fmap Some) (order_at_end LoadBottomWorkitem f_half spaceID targetID wi)
  | DirectionOther _ => s_ret None
  end.

Fixpoint update_fields (skip : FieldDefinition → gval → bool) (defs : FieldDefinitions)
    (fields m : Fields) : res Fields :=
  match defs with
  | [] => Ok m
  | (name, def) :: defs =>
      if ReadOnly def then update_fields skip defs fields m
      else if skip def (fld fields name) then update_fields skip defs fields (delete name m)
      else m ← store_field name def (fld fields name) m; update_fields skip defs fields m
  end.

(** [UPDATE ... WHERE version = ?] of every column; the index on space and number is kept since neither changes. *)
Definition update_row (now : Time) (version : Z) (w : WorkItemStorage) : wstm WorkItemStorage := λ d,
  match column (s_Fields w) with
  | None => (Err (InternalError (Plain "json: unsupported value")), d)
  | Some f =>
      let saved := s_with w {| CreatedAt := CreatedAt (s_Lifecycle w); UpdatedAt := now;
                               DeletedAt := DeletedAt (s_Lifecycle w) |}
                     (s_Type w) (s_Version w) in
      let hit x := s_live x && bool_decide (s_ID x = s_ID w) && (s_Version x =? version) in
      if existsb hit (rows d)
      then (Ok (saved (s_Fields w) (s_ExecutionOrder w)),
            set_rows (map (λ x, if hit x then saved f (s_ExecutionOrder w) else x) (rows d)) d)
      else (Err (VersionConflictError "version conflict"), d)
  end.

Definition Reorder (now : Time) (spaceID : uuid) (direction : DirectionType) (targetID : option uuid)
    (wi : WorkItem) (modifierID : uuid) : wstm WorkItem :=
  let* res_ := s_query (λ d, LoadFromDB d (w_ID wi)) in
  let* _ := s_query (λ _, if s_Version res_ =? w_Version wi then Ok tt
                          else Err (VersionConflictError "version conflict")) in
  let* wiType := s_map (replace_err (BadParameterError "Type" (uuid_String (w_Type wi)) None None))
                   (on_types (LoadType (w_Type wi))) in
  let* order := new_order spaceID direction targetID (s_ID res_) wi in
  match order with
  | None => s_ret wi
  | Some order =>
      let* m := s_query (λ _, update_fields (λ _ _, false) (t_Fields wiType) (w_Fields wi) ∅) in
      let* saved := update_row now (w_Version wi)
                      (s_with res_ (s_Lifecycle res_) (w_Type wi) (wrap64 (s_Version res_ + 1)) m order) in
      let* _ := Revision_Create now modifierID RevisionTypeUpdate saved in
      s_query (λ _, ConvertWorkItemStorageToModel wiType saved)
  end.

(** ** Changing the type *)

(** The rows relational values point to, as they are read by id. *)
Record related_rows := {
  identity_rows : gmap uuid (string * uuid);     (* user name, user id *)
  user_rows : gmap uuid string;                  (* full name *)
  area_rows : gmap uuid (string * string);       (* name, path *)
  column_rows : gmap uuid string;                (* name *)
  iteration_rows : gmap uuid (string * string);  (* name, path *)
  codebase_rows : gmap uuid string;              (* url *)
  label_rows : gmap uuid string;                 (* name *)
}.
Definition find_row {A} (what : string) (rs : gmap uuid A) (val : gval) : res A :=
  match AnyToUUID val with
  | Ok id => match rs !! id with
             | Some a => Ok a
             | None => Err (Wrapped what (Plain "record not found"))
             end
  | _ => Err (Wrapped what (Plain "invalid input syntax for uuid"))
  end.
Definition getValueOfRelationalKind (db : related_rows) (val : gval) (k : Kind) : res string :=
  match k with
  | KindList | KindEnum =>
      Err (InternalError (Plain "cannot resolve relational value for KindList or KindEnum"))
  | KindUser =>
      identity ← find_row "failed to find identity" (identity_rows db) val;
      fullName ← find_row "failed to find user" (user_rows db) (VUUID identity.2);
      Ok (fullName +:+ " (" +:+ identity.1 +:+ ")")
  | KindArea =>
      a ← find_row "failed to find area" (area_rows db) val; Ok (a.1 +:+ " (" +:+ a.2 +:+ ")")
  | KindBoardColumn => find_row "failed to find boardcolumn" (column_rows db) val
  | KindIteration =>
      i ← find_row "failed to find iteration" (iteration_rows db) val;
      Ok (i.1 +:+ " (" +:+ i.2 +:+ ")")
  | KindCodebase => find_row "failed to find codebase" (codebase_rows db) val
  | KindLabel => find_row "failed to find area" (label_rows db) val
  | _ => Err (InternalError (Plain "unknown field Kind"))
  end.

Section ChangeType.
(** [fmt.Sprint] *)
Context (Sprint : gval → string) (related : related_rows).

(** The loop over the old type: the fields kept, and the difference. *)
Fixpoint field_diff (oldFields newFields : FieldDefinitions) (m diff : Fields) : res (Fields * Fields) :=
  match oldFields with
  | [] => Ok (m, diff)
  | (name, oldDef) :: oldFields =>
      if String.eqb name SystemMetaState then field_diff oldFields newFields m diff
      else
        match fields_get newFields name with
        | Some newField =>
            match ConvertToModelWithType IsURL (embedded (Type_ oldDef)) (Type_ newField) (fld m name) with
            | Ok newVal => field_diff oldFields newFields (<[name := newVal]> m) diff
            | Err _ => field_diff oldFields newFields (delete name m) (<[name := fld m name]> diff)
            | Panic s => Panic s
            end
        | None =>
            if is_nil_value (fld m name) then field_diff oldFields newFields m diff
            else field_diff oldFields newFields (delete name m) (<[name := fld m name]> diff)
        end
  end.

Definition relational_or_text (k : Kind) (v : gval) : res string :=
  if IsRelational k
  then wrapf "failed to get relational value for field %s" (getValueOfRelationalKind related v k)
  else Ok (Sprint v).
(** The text of one lost field. *)
Definition lost_value (def : FieldDefinition) (v : gval) : res string :=
  match Type_ def with
  | FEnum t =>
      if bool_decide (kind (enum_simple t) = KindEnum) then
        if negb (bool_decide (kind (BaseType t) = KindList))
        then relational_or_text (kind (BaseType t)) v
        else Err (Plain "failed to convert field %q to list type: %+v")
      else if negb (bool_decide (kind (enum_simple t) = KindList))
      then relational_or_text (kind (enum_simple t)) v
      else Err (Plain "failed to convert field %q to list type: %+v")
  | FSimple t =>
      if bool_decide (kind t = KindEnum)
      then Err (Plain "failed to convert field %q to enum type: %+v")
      else if negb (bool_decide (kind t = KindList)) then relational_or_text (kind t) v
      else Err (Plain "failed to convert field %q to list type: %+v")
  | FList t =>
      if bool_decide (kind (list_simple t) = KindEnum)
      then Err (Plain "failed to convert field %q to enum type: %+v")
      else if negb (bool_decide (kind (list_simple t) = KindList))
      then relational_or_text (kind (list_simple t)) v
      else
        match v with
        | VSlice l =>
            texts ← mapM (relational_or_text (kind (ComponentType t))) l; Ok (Join texts ", ")
        | VNilSlice => Ok ""
        | _ => Err (Plain "failed to convert list value of field %q to []interface{}: %+v")
        end
  end.
Fixpoint lost_values (oldFields : FieldDefinitions) (diff : Fields) (names : list string)
    (acc : gmap string string) : res (gmap string string) :=
  match names with
  | [] => Ok acc
  | name :: names =>
      match fields_get oldFields name with
      | None => Panic "invalid memory address or nil pointer dereference"
      | Some def =>
          val ← lost_value def (fld diff name);
          lost_values oldFields diff names (<[Label def := val]> acc)
      end
  end.

Definition sorted_keys {A} (m : gmap string A) : list string :=
  merge_sort string_le (map fst (map_to_list m)).
Definition newline : string := String (ascii_of_nat 10) "".
(** What the template of the new description renders to. *)
Definition description_text (typeName : string) (values : gmap string string) (original : string)
    : string :=
  "```" +:+ newline +:+ "Missing fields in workitem type: " +:+ typeName +:+ newline +:+
  String.concat "" (map (λ l, newline +:+ l +:+ " : " +:+ default "" (values !! l)) (sorted_keys values))
  +:+ newline +:+ "```" +:+ newline +:+ original +:+ newline.
Definition describe_diff (oldWIType newWIType : WorkItemType) (diff m : Fields) : res Fields :=
  if bool_decide (diff = ∅) then Ok m
  else
    let m := if is_nil_value (fld m SystemDescription) then <[SystemDescription := VString ""]> m else m in
    original ← NewMarkupContentFromValue (fld m SystemDescription);
    match original with
    | None => Panic "invalid memory address or nil pointer dereference"
    | Some original =>
        values ← lost_values (t_Fields oldWIType) diff (sorted_keys diff) ∅;
        Ok (<[SystemDescription := VMarkup (NewMarkupContent
               (description_text (t_Name newWIType) values (Content_ original))
               SystemMarkupMarkdown)]> m)
    end.
(** The loop over the new type. *)
Fixpoint default_fields (newFields : FieldDefinitions) (m : Fields) : res Fields :=
  match newFields with
  | [] => Ok m
  | (name, def) :: newFields =>
      if String.eqb name SystemMetaState then default_fields newFields m
      else v ← wrapf "failed to convert field %q"
                 (FieldDefinition_ConvertToModel IsURL def name (fld m name));
           default_fields newFields (<[name := v]> m)
  end.
Definition ChangeWorkItemType (d : wi_db) (wiStorage : WorkItemStorage)
    (oldWIType newWIType : WorkItemType) (spaceID : uuid) : res WorkItemStorage :=
  allowedWIT ← wrapf "failed to check workitem type"
                 (CheckTypeAndSpaceShareTemplate d newWIType spaceID);
  if negb allowedWIT then Err (BadParameterError "typeID" (uuid_String (t_ID oldWIType)) None None)
  else
    kept ← field_diff (t_Fields oldWIType) (t_Fields newWIType) (s_Fields wiStorage) ∅;
    m ← describe_diff oldWIType newWIType kept.2 kept.1;
    m ← default_fields (t_Fields newWIType) m;
    Ok (s_with wiStorage (s_Lifecycle wiStorage) (t_ID newWIType) (s_Version wiStorage) m
          (s_ExecutionOrder wiStorage)).

(** ** Saving *)

(** An empty list is left out. *)
Definition empty_list (def : FieldDefinition) (v : gval) : bool :=
  bool_decide (GetKind (Type_ def) = KindList)
  && match v with VStrings [] | VSlice [] | VNilSlice => true | _ => false end.
Definition Save (now : Time) (spaceID : uuid) (updatedWorkItem : WorkItem) (modifierID : uuid)
    : wstm (WorkItem * Revision) :=
  let* p := loadWorkItemStorage spaceID (w_Number updatedWorkItem) in
  let '(wiStorage, wiType) := p in
  let* _ := s_query (λ _, if s_Version wiStorage =? w_Version updatedWorkItem then Ok tt
                          else Err (VersionConflictError "version conflict")) in
  let* m := s_query (λ _, update_fields empty_list (t_Fields wiType) (w_Fields updatedWorkItem) ∅) in
  let wiStorage := s_with wiStorage (s_Lifecycle wiStorage) (s_Type wiStorage)
                     (wrap64 (s_Version wiStorage + 1)) m (s_ExecutionOrder wiStorage) in
  let* q := (if bool_decide (s_Type wiStorage = w_Type updatedWorkItem) then s_ret (wiStorage, wiType)
             else
               let* newWiType := s_map (wrapf "failed to load workitemtype: %s ")
                                   (on_types (LoadType (w_Type updatedWorkItem))) in
               let* changed := s_map (wrapf "unable to change workitem type from %s (ID: %s) to %s (ID: %s)")
                                 (s_query (λ d, ChangeWorkItemType d wiStorage wiType newWiType spaceID)) in
               s_ret (changed, newWiType)) in
  let '(wiStorage, wiType) := q in
  let* saved := update_row now (w_Version updatedWorkItem) wiStorage in
  let* rev := s_map (wrapf "error while saving work item")
                (Revision_Create now modifierID RevisionTypeUpdate saved) in
  let* w := s_map with_stack (s_query (λ _, ConvertWorkItemStorageToModel wiType saved)) in
  s_ret (w, rev).
End ChangeType.
End WorkItems.
