(* ===== verification/WorkItemFacts.v ===== *)
(** * What the work item repository keeps

    The invariant of the work item tables under every committed operation:
    numbers are unique in a space and never used again, versions only grow, and
    every change of an item leaves a revision. *)

From Stdlib Require Import ZArith Lia Ascii String SpecFloat.
From stdpp Require Import relations.
From S2P Require Export WorkItems.

Lemma internal_ok {A} (r : res A) a : internal r = Ok a ↔ r = Ok a.
Proof. destruct r; naive_solver. Qed.

(** Splits a successful sequence of statements. *)
Ltac stm_inv :=
  repeat match goal with
  | H : s_bind _ _ _ = (Ok _, _) |- _ => apply s_bind_ok in H as (? & ? & ? & ?)
  | H : s_map (wrapf _) _ _ = (Ok _, _) |- _ => rewrite s_map_ok in H by (intro; apply wrapf_ok)
  | H : s_map with_stack _ _ = (Ok _, _) |- _ => rewrite s_map_ok in H by (intro; apply with_stack_ok)
  | H : s_map internal _ _ = (Ok _, _) |- _ => rewrite s_map_ok in H by (intro; apply internal_ok)
  | H : s_map (replace_err _) _ _ = (Ok _, _) |- _ => rewrite s_map_ok in H by (intro; apply replace_err_ok)
  | H : s_query _ _ = (Ok _, _) |- _ => apply s_query_ok in H as [? ->]
  | H : s_ret _ _ = (Ok _, _) |- _ => unfold s_ret in H; simplify_eq
  | H : (let '(_, _) := ?p in _) _ = (Ok _, _) |- _ => destruct p
  end.

Section Facts.
Context {HO : UuidOps} (IsURL : string → bool).
Context (time_json : Z → string) (struct_json : string → option gval).
Context (Sprint : gval → string) (related : related_rows).
Notation Create := (Create IsURL time_json struct_json).
Notation Save := (Save IsURL time_json struct_json Sprint related).
Notation Reorder := (Reorder IsURL time_json struct_json).
Notation Delete := (Delete time_json struct_json).

(** The tables but the types. *)
Definition same_tables (d d' : wi_db) : Prop :=
  rows d' = rows d ∧ revs d' = revs d ∧ sequences d' = sequences d ∧ spaces d' = spaces d.
Lemma on_types_same {A} (m : tstm A) d a d' : on_types m d = (a, d') → same_tables d d'.
Proof. unfold on_types. destruct (m (types d)). by intros [= <- <-]. Qed.
Lemma same_tables_trans d1 d2 d3 : same_tables d1 d2 → same_tables d2 d3 → same_tables d1 d3.
Proof. unfold same_tables. naive_solver congruence. Qed.

(** ** Single statements *)

Lemma First_In p d w : First p d = Some w → w ∈ rows d ∧ s_live w = true ∧ p w = true.
Proof.
  unfold First. intros H.
  assert (Hin : w ∈ merge_sort id_le (List.filter (λ w, s_live w && p w) (rows d))).
  { destruct (merge_sort _ _) as [|x l]; [done|]. injection H as ->. by left. }
  rewrite merge_sort_Permutation, list_elem_of_In, List.filter_In, andb_true_iff in Hin.
  by rewrite <- list_elem_of_In in Hin.
Qed.
Lemma First_None p d : First p d = None → ∀ w, w ∈ rows d → s_live w = true → p w = false.
Proof.
  unfold First. intros H w Hw Hl. destruct (p w) eqn:Hp; [|done].
  assert (Hin : w ∈ merge_sort id_le (List.filter (λ w, s_live w && p w) (rows d))).
  { rewrite merge_sort_Permutation, list_elem_of_In, List.filter_In, andb_true_iff.
    by rewrite <- list_elem_of_In. }
  destruct (merge_sort _ _) as [|x l]; [by apply elem_of_nil in Hin|done].
Qed.

Lemma Revision_Create_ok now who ty w d r d' :
  Revision_Create time_json struct_json now who ty w d = (Ok r, d') →
  ∃ f, column time_json struct_json
         (match ty with RevisionTypeDelete => ∅ | _ => s_Fields w end) = Some f ∧
    d' = set_revs (revs d ++ [{| r_Time := now; r_Type := ty; r_ModifierIdentity := who;
      r_WorkItemID := s_ID w; r_WorkItemTypeID := s_Type w; r_WorkItemVersion := s_Version w;
      r_WorkItemFields := f |}]) d.
Proof.
  unfold Revision_Create. destruct (column _ _ _) as [f|]; [|done].
  intros [= _ <-]. by exists f.
Qed.
Lemma NextVal_ok sp d n d' : NextVal sp d = (Ok n, d') →
  d' = set_sequences (<[sp := n]> (sequences d)) d ∧
  n = default 0 (sequences d !! sp) + 1.
Proof.
  unfold NextVal. destruct (sequences d !! sp) as [v|] eqn:E.
  - destruct (v =? _); [done|]. by intros [= <- <-].
  - destruct (existsb _ _); [|done]. by intros [= <- <-].
Qed.
Lemma insert_row_ok w d u d' : insert_row time_json struct_json w d = (Ok u, d') →
  ∃ f, column time_json struct_json (s_Fields w) = Some f ∧
    (∀ x, x ∈ rows d → s_ID x ≠ s_ID w) ∧
    (∀ x, x ∈ rows d → s_SpaceID x = s_SpaceID w → s_Number x ≠ s_Number w) ∧
    d' = set_rows (rows d ++ [s_with w (s_Lifecycle w) (s_Type w) (s_Version w) f
                                (s_ExecutionOrder w)]) d.
Proof.
  unfold insert_row. destruct (column _ _ _) as [f|]; [|done].
  destruct (existsb _ (rows d)) eqn:E; [done|]. destruct (_ || _); [done|].
  intros [= _ <-]. exists f.
  assert (HE : ∀ x, x ∈ rows d →
      bool_decide (s_ID x = s_ID w) || in_space (s_SpaceID w) x && (s_Number x =? s_Number w) = false).
  { intros x Hx. apply not_true_iff_false. intros HT. apply not_true_iff_false in E. apply E.
    apply existsb_exists. exists x. by rewrite <- list_elem_of_In. }
  split_and!; [done| | |done]; intros x Hx; specialize (HE x Hx); apply orb_false_iff in HE as [H1 H2].
  - by apply bool_decide_eq_false in H1.
  - intros Hs Hn. unfold in_space in H2. rewrite bool_decide_true in H2 by done.
    apply Z.eqb_neq in H2. done.
Qed.
(** The row a successful update writes, and the row it replaces. *)
Definition updated (now : Time) (w : WorkItemStorage) (f : Fields) : WorkItemStorage :=
  s_with w {| CreatedAt := CreatedAt (s_Lifecycle w); UpdatedAt := now;
              DeletedAt := DeletedAt (s_Lifecycle w) |} (s_Type w) (s_Version w) f
    (s_ExecutionOrder w).
Definition replace_version (ID : uuid) (version : Z) (new : WorkItemStorage) (x : WorkItemStorage)
    : WorkItemStorage :=
  if s_live x && bool_decide (s_ID x = ID) && (s_Version x =? version) then new else x.
Lemma update_row_ok now v w d saved d' :
  update_row time_json struct_json now v w d = (Ok saved, d') →
  ∃ f, column time_json struct_json (s_Fields w) = Some f ∧ saved = updated now w (s_Fields w) ∧
    d' = set_rows (map (replace_version (s_ID w) v (updated now w f)) (rows d)) d.
Proof.
  unfold update_row. destruct (column _ _ _) as [f|]; [|done].
  destruct (existsb _ (rows d)); [|done]. intros [= <- <-]. by exists f.
Qed.

(** ** Whole operations *)

Lemma First_same p d d' : rows d' = rows d → First p d' = First p d.
Proof. unfold First. by intros ->. Qed.
Lemma LoadHighestOrder_same d d' sp :
  rows d' = rows d → LoadHighestOrder d' sp = LoadHighestOrder d sp.
Proof.
  intros H. unfold LoadHighestOrder, First_with_order, max_order, aggregate. rewrite H.
  destruct (fold_left _ _ _); [|done]. by rewrite (First_same _ d d' H).
Qed.

Definition revision_of (now : Time) (who : uuid) (ty : RevisionType) (w : WorkItemStorage) (f : Fields)
    : Revision :=
  {| r_Time := now; r_Type := ty; r_ModifierIdentity := who; r_WorkItemID := s_ID w;
     r_WorkItemTypeID := s_Type w; r_WorkItemVersion := s_Version w; r_WorkItemFields := f |}.

(** A new row and its revision. *)
Record creation (now : Time) (newID sp typeID who : uuid) (d d' : wi_db) (row : WorkItemStorage)
    : Prop := {
  cr_rows : rows d' = rows d ++ [row];
  cr_revs : revs d' = revs d ++ [revision_of now who RevisionTypeCreate row (s_Fields row)];
  cr_sequences : sequences d' = <[sp := s_Number row]> (sequences d);
  cr_number : s_Number row = default 0 (sequences d !! sp) + 1;
  cr_ID : s_ID row = newID;
  cr_space : s_SpaceID row = sp;
  cr_type : s_Type row = typeID;
  cr_version : s_Version row = 0;
  cr_live : s_live row = true;
  cr_order : s_ExecutionOrder row = f_add (LoadHighestOrder d sp) orderValue;
  cr_fresh : ∀ x, x ∈ rows d → s_ID x ≠ s_ID row;
  cr_unique : ∀ x, x ∈ rows d → s_SpaceID x = s_SpaceID row → s_Number x ≠ s_Number row;
}.
Lemma Create_effect now newID sp typeID fields who d p d' :
  Create now newID sp typeID fields who d = (Ok p, d') →
  ∃ row, creation now newID sp typeID who d d' row.
Proof.
  unfold WorkItems.Create. intros H. stm_inv.
  match goal with H : on_types _ _ = _ |- _ => apply on_types_same in H as (Hr & Hv & Hs & Hp) end.
  match goal with H : NextVal _ _ = _ |- _ => apply NextVal_ok in H as [-> ->] end.
  match goal with H : insert_row _ _ _ _ = _ |- _ =>
    apply insert_row_ok in H as (f & Hf & Hid & Hnum & ->) end.
  match goal with H : Revision_Create _ _ _ _ _ _ _ = _ |- _ =>
    apply Revision_Create_ok in H as (f' & Hf' & ->) end.
  repeat match goal with H : Ok _ = Ok _ |- _ => injection H as <- end.
  cbn [s_Fields] in Hf, Hf'. rewrite Hf in Hf'. injection Hf' as <-.
  cbn [set_revs set_rows set_sequences rows revs sequences s_ID s_SpaceID s_Number] in *.
  eexists. split; cbn [set_revs set_rows set_sequences rows revs sequences]; rewrite ?Hr, ?Hv, ?Hs;
    try reflexivity.
  - cbn. by rewrite (LoadHighestOrder_same _ _ _ Hr).
  - rewrite <- Hr. exact Hid.
  - rewrite <- Hr, <- Hs. exact Hnum.
Qed.

(** One row replaced by its next version, and the revision of it. *)
Record update (now : Time) (who : uuid) (v : Z) (d d' : wi_db) (old new : WorkItemStorage) : Prop := {
  up_old : old ∈ rows d;
  up_live : s_live old = true;
  up_version : s_Version old = v;
  up_rows : rows d' = map (replace_version (s_ID old) v new) (rows d);
  up_revs : revs d' = revs d ++ [revision_of now who RevisionTypeUpdate new (s_Fields new)];
  up_sequences : sequences d' = sequences d;
  up_ID : s_ID new = s_ID old;
  up_space : s_SpaceID new = s_SpaceID old;
  up_number : s_Number new = s_Number old;
  up_new_version : s_Version new = wrap64 (v + 1);
  up_still_live : s_live new = true;
}.
Lemma update_effect now who v old w d d1 saved d2 r d3 :
  same_tables d d1 → old ∈ rows d → s_live old = true → s_Version old = v →
  s_ID w = s_ID old → s_SpaceID w = s_SpaceID old → s_Number w = s_Number old →
  s_Version w = wrap64 (v + 1) → s_Lifecycle w = s_Lifecycle old →
  update_row time_json struct_json now v w d1 = (Ok saved, d2) →
  Revision_Create time_json struct_json now who RevisionTypeUpdate saved d2 = (Ok r, d3) →
  ∃ f, update now who v d d3 old (updated now w f).
Proof.
  intros (Hr & Hv & Hs & Hp) Ho Hl Hver Hid Hsp Hn Hnv Hlc H1 H2.
  apply update_row_ok in H1 as (f & Hf & -> & ->). apply Revision_Create_ok in H2 as (f' & Hf' & ->).
  cbn [updated s_with s_Fields] in Hf'. rewrite Hf in Hf'. injection Hf' as <-. exists f.
  split; cbn [set_revs set_rows rows revs sequences]; rewrite ?Hr, ?Hv, ?Hs, ?Hid; try done.
  unfold s_live, live in *. cbn. by rewrite Hlc.
Qed.

Lemma loadWorkItemStorage_ok sp n d p d' :
  loadWorkItemStorage time_json struct_json sp n d = (Ok p, d') →
  same_tables d d' ∧ p.1 ∈ rows d ∧ s_live p.1 = true ∧ s_Number p.1 = n ∧ s_SpaceID p.1 = sp.
Proof.
  unfold loadWorkItemStorage. intros H. stm_inv.
  match goal with H : on_types _ _ = _ |- _ => apply on_types_same in H end.
  destruct (First _ _) as [w|] eqn:E; [|done].
  match goal with H : Ok _ = Ok _ |- _ => injection H as -> end.
  apply First_In in E as (Hin & Hl & Hp). apply andb_prop in Hp as [Hn Hsp].
  apply Z.eqb_eq in Hn. apply bool_decide_eq_true in Hsp. done.
Qed.
Lemma ChangeWorkItemType_keeps d w old new sp w' :
  ChangeWorkItemType IsURL Sprint related d w old new sp = Ok w' →
  s_ID w' = s_ID w ∧ s_SpaceID w' = s_SpaceID w ∧ s_Number w' = s_Number w ∧
  s_Version w' = s_Version w ∧ s_Lifecycle w' = s_Lifecycle w.
Proof.
  unfold ChangeWorkItemType. intros H. apply bind_ok in H as (b & _ & H). destruct b; [|done].
  simpl in H. repeat (apply bind_ok in H as (? & _ & H)). by injection H as <-.
Qed.
Lemma Save_effect now sp wi who d p d' :
  Save now sp wi who d = (Ok p, d') →
  ∃ old new, update now who (w_Version wi) d d' old new ∧
    s_Number old = w_Number wi ∧ s_SpaceID old = sp.
Proof.
  unfold WorkItems.Save. intros H. apply s_bind_ok in H as ([w t] & d1 & H1 & H).
  apply loadWorkItemStorage_ok in H1 as (Hst & Hin & Hl & Hn & Hsp). cbn [fst] in *.
  stm_inv. 
  match goal with H : (if s_Version w =? _ then _ else _) = _ |- _ =>
    destruct (Z.eqb_spec (s_Version w) (w_Version wi)) as [Hver|]; [|done] end.
  match goal with H : (if bool_decide _ then _ else _) _ = (Ok (?w', ?t'), ?d2) |- _ =>
    assert (Hq : same_tables d1 d2 ∧ s_ID w' = s_ID w ∧ s_SpaceID w' = s_SpaceID w ∧
      s_Number w' = s_Number w ∧ s_Version w' = wrap64 (s_Version w + 1) ∧
      s_Lifecycle w' = s_Lifecycle w) end.
  { case_bool_decide; stm_inv; [done|].
    match goal with H : on_types _ _ = _ |- _ => apply on_types_same in H end.
    match goal with H : ChangeWorkItemType _ _ _ _ _ _ _ _ = _ |- _ =>
      apply ChangeWorkItemType_keeps in H as (? & ? & ? & ? & ?) end. done. }
  destruct Hq as (Hst2 & Hid & Hsp2 & Hnum & Hv & Hlc).
  rewrite Hver in Hv.
  match goal with H1 : update_row _ _ _ _ _ _ = _, H2 : Revision_Create _ _ _ _ _ _ _ = _ |- _ =>
    destruct (update_effect _ _ _ w _ _ _ _ _ _ _ (same_tables_trans _ _ _ Hst Hst2) Hin Hl Hver
                Hid Hsp2 Hnum Hv Hlc H1 H2) as [f Hf] end.
  exists w. by eexists.
Qed.

Lemma LoadFromDB_ok d id w :
  LoadFromDB d id = Ok w → w ∈ rows d ∧ s_live w = true ∧ s_ID w = id.
Proof.
  unfold LoadFromDB. destruct (First _ _) as [x|] eqn:E; [|done]. intros [= <-].
  apply First_In in E as (? & ? & Hid). by apply bool_decide_eq_true in Hid.
Qed.
Lemma load_extreme_same agg sp d r d' :
  load_extreme time_json struct_json agg sp d = (r, d') → same_tables d d'.
Proof.
  unfold load_extreme, s_bind, s_query, s_map. intros H.
  destruct (on_types _ d) as [r1 d1] eqn:E. apply on_types_same in E.
  destruct r1 as [t|e|m]; simpl in H; by injection H as _ <-.
Qed.
Lemma order_at_end_same load next sp target wi d o d' :
  (∀ sp d r d', load sp d = (r, d') → same_tables d d') →
  order_at_end load next sp target wi d = (Ok o, d') → same_tables d d'.
Proof.
  intros Hload. unfold order_at_end. destruct target; [done|]. intros H. stm_inv.
  by eapply Hload.
Qed.
Lemma new_order_same sp dir target id wi d o d' :
  new_order time_json struct_json sp dir target id wi d = (Ok o, d') → same_tables d d'.
Proof.
  unfold new_order. intros H.
  destruct dir; try (unfold s_map in H;
    match type of H with (let '(_, _) := ?m in _) = _ => destruct m as [[x|e|m0] d1] eqn:E end;
    [|done..]; injection H as _ <-).
  - by apply s_query_ok in E as [_ ->].
  - by apply s_query_ok in E as [_ ->].
  - eapply order_at_end_same, E. intros *. apply load_extreme_same.
  - eapply order_at_end_same, E. intros *. apply load_extreme_same.
  - by injection H as _ <-.
Qed.
Lemma Reorder_effect now sp dir target wi who d w d' :
  Reorder now sp dir target wi who d = (Ok w, d') →
  (w = wi ∧ same_tables d d') ∨
  ∃ old new, update now who (w_Version wi) d d' old new ∧ s_ID old = w_ID wi.
Proof.
  unfold WorkItems.Reorder. intros H. stm_inv.
  match goal with H : LoadFromDB _ _ = _ |- _ => apply LoadFromDB_ok in H as (Hin & Hl & Hid) end.
  match goal with H : (if ?v =? ?u then _ else _) = _ |- _ =>
    destruct (Z.eqb_spec v u) as [Hver|]; [|done] end.
  match goal with H : on_types _ _ = _ |- _ => apply on_types_same in H as Hst end. 
  match goal with H : new_order _ _ _ _ _ _ _ _ = _ |- _ => apply new_order_same in H as Hst2 end. 
  match goal with H : match ?o with _ => _ end _ = _ |- _ => destruct o as [order|] end; stm_inv. 
  - right. 
    match goal with H1 : update_row _ _ _ _ _ _ = _, H2 : Revision_Create _ _ _ _ _ _ _ = _ |- _ =>
      eapply (update_effect now who (w_Version wi)) in H1 as [f Hf];
        [..|exact H2]; [|eapply same_tables_trans; [exact Hst|exact Hst2]|exact Hin|..]; try done;
        [|cbn; by rewrite Hver] end.
    eexists _, _. split; [exact Hf|done].
  - left. split; [done|]. by eapply same_tables_trans.
Qed.
End Facts.
