(* ===== verification/WorkItemInvariant.v ===== *)
(** * The invariant of the work item tables

    Kept by every committed operation: numbers are unique in a space and are
    never used again, versions only grow, an update is accepted only on the
    version it was made from, and every change leaves its revision. *)

From Stdlib Require Import ZArith Lia Ascii String SpecFloat.
From stdpp Require Import relations.
From S2P Require Export Transactions WorkItemFacts.
Import Transactions.

Definition is_delete (r : Revision) : bool := bool_decide (r_Type r = RevisionTypeDelete).
(** [r] records the present state of [w]. *)
Definition records (r : Revision) (w : WorkItemStorage) : Prop :=
  r_WorkItemID r = s_ID w ∧ r_WorkItemVersion r = s_Version w ∧
  if s_live w then is_delete r = false ∧ r_WorkItemTypeID r = s_Type w ∧ r_WorkItemFields r = s_Fields w
  else is_delete r = true ∧ r_WorkItemFields r = ∅.
Definition place (w : WorkItemStorage) : uuid * Z := (s_SpaceID w, s_Number w).
Definition edition (r : Revision) : uuid * Z := (r_WorkItemID r, r_WorkItemVersion r).

Record wf (d : wi_db) : Prop := {
  wf_ids : NoDup (map s_ID (rows d));
  wf_places : NoDup (map place (rows d));
  wf_sequence : ∀ w, w ∈ rows d → s_Number w ≤ default 0 (sequences d !! s_SpaceID w);
  wf_history : ∀ w, w ∈ rows d → ∃ r, r ∈ revs d ∧ records r w;
  wf_versions : ∀ r, r ∈ revs d → ∃ w, w ∈ rows d ∧ s_ID w = r_WorkItemID r ∧
                                       r_WorkItemVersion r ≤ s_Version w;
  wf_editions : NoDup (map edition (List.filter (λ r, negb (is_delete r)) (revs d)));
  wf_range : ∀ w, w ∈ rows d → 0 ≤ s_Version w ≤ int_max;
}.

Lemma same_tables_wf d d' : same_tables d d' → wf d → wf d'.
Proof. intros (Hr & Hv & Hs & Hp) [? ? ? ? ? ? ?]. split; rewrite ?Hr, ?Hv, ?Hs; done. Qed.

Lemma unique_row {A} (f : WorkItemStorage → A) l x y :
  NoDup (map f l) → x ∈ l → y ∈ l → f x = f y → x = y.
Proof.
  induction l as [|z l IH]; [by intros _ ?%elem_of_nil|]. cbn [map]. intros [Hz Hn]%NoDup_cons.
  assert (Hin : ∀ u, u ∈ l → f u ≠ f z).
  { intros u Hu E. apply Hz. rewrite <- E. rewrite list_elem_of_In, in_map_iff. exists u.
    by rewrite <- list_elem_of_In. }
  intros [->|Hx]%elem_of_cons [->|Hy]%elem_of_cons E; try done.
  - exfalso. by apply (Hin y).
  - exfalso. by apply (Hin x).
  - by apply IH.
Qed.
Lemma elem_of_map_image {A B} (f : A → B) l y : y ∈ map f l ↔ ∃ x, x ∈ l ∧ y = f x.
Proof.
  rewrite list_elem_of_In, in_map_iff. split; intros (x & H1 & H2); exists x;
    rewrite list_elem_of_In in *; by split.
Qed.

(** ** Creation *)

Lemma creation_wf now newID sp ty who d d' row :
  creation now newID sp ty who d d' row → wf d → wf d'.
Proof.
  intros C H. pose proof (cr_rows _ _ _ _ _ _ _ _ C) as Hr. pose proof (cr_revs _ _ _ _ _ _ _ _ C) as Hv.
  pose proof (cr_sequences _ _ _ _ _ _ _ _ C) as Hs. pose proof (cr_number _ _ _ _ _ _ _ _ C) as Hn.
  pose proof (cr_space _ _ _ _ _ _ _ _ C) as Hsp. pose proof (cr_version _ _ _ _ _ _ _ _ C) as Hver.
  pose proof (cr_live _ _ _ _ _ _ _ _ C) as Hl. pose proof (cr_fresh _ _ _ _ _ _ _ _ C) as Hf.
  assert (Hgrow : ∀ s, default 0 (sequences d !! s) ≤ default 0 (sequences d' !! s)).
  { intros s. rewrite Hs. destruct (decide (s = sp)) as [->|Hne].
    - rewrite lookup_insert_eq. simpl. lia.
    - by rewrite lookup_insert_ne by congruence. }
  split; rewrite ?Hr, ?Hv.
  - rewrite map_app. apply NoDup_app. split_and!; [apply H| |apply NoDup_singleton].
    intros x Hx Hx2. apply list_elem_of_singleton in Hx2 as ->.
    apply elem_of_map_image in Hx as (y & Hy & E). by apply (Hf y).
  - rewrite map_app. apply NoDup_app. split_and!; [apply H| |apply NoDup_singleton].
    intros x Hx Hx2. apply list_elem_of_singleton in Hx2 as ->.
    apply elem_of_map_image in Hx as (y & Hy & [= E1 E2]).
    by apply (cr_unique _ _ _ _ _ _ _ _ C y).
  - intros w [Hw|Hw%list_elem_of_singleton]%elem_of_app.
    + pose proof (wf_sequence _ H w Hw). specialize (Hgrow (s_SpaceID w)). lia.
    + subst w. rewrite Hsp, Hs, lookup_insert_eq. done.
  - intros w [Hw|Hw%list_elem_of_singleton]%elem_of_app.
    + destruct (wf_history _ H w Hw) as (r & Hin & Hrec). exists r. set_solver.
    + subst w. eexists. split; [by apply elem_of_app; right; left|].
      unfold records. by rewrite Hl.
  - intros r [Hin|Hin%list_elem_of_singleton]%elem_of_app.
    + destruct (wf_versions _ H r Hin) as (w & Hw & ? & ?). exists w. set_solver.
    + subst r. exists row. split_and!; [set_solver|done|simpl; lia].
  - rewrite List.filter_app, map_app. apply NoDup_app. split_and!; [apply H| |apply NoDup_singleton].
    intros x Hx Hx2. apply list_elem_of_singleton in Hx2 as ->.
    apply elem_of_map_image in Hx as (r & Hin & [= E1 E2]).
    rewrite list_elem_of_In, List.filter_In, <- list_elem_of_In in Hin. destruct Hin as [Hin _].
    destruct (wf_versions _ H r Hin) as (w & Hw & Hid & _). apply (Hf w Hw). congruence.
  - intros w [Hw|Hw%list_elem_of_singleton]%elem_of_app; [by apply H|].
    subst w. rewrite Hver. unfold int_max. lia.
Qed.

(** ** Update *)

Lemma replace_row {A} (f : WorkItemStorage → A) ID v old new l :
  NoDup (map s_ID l) → old ∈ l → s_ID old = ID → f new = f old →
  map f (map (replace_version ID v new) l) = map f l.
Proof.
  intros Hn Ho Hid Hf. rewrite map_map. apply map_ext_in. intros x Hx%list_elem_of_In.
  unfold replace_version. destruct (_ && _) eqn:E; [|done].
  rewrite !andb_true_iff, bool_decide_eq_true in E. destruct E as [[_ E] _].
  assert (x = old) as -> by (eapply (unique_row s_ID); eauto; congruence). done.
Qed.
Lemma elem_of_replaced d ID v old new w :
  NoDup (map s_ID (rows d)) → old ∈ rows d → s_ID old = ID → s_live old = true → s_Version old = v →
  w ∈ map (replace_version ID v new) (rows d) ↔ w = new ∨ (w ∈ rows d ∧ w ≠ old ∧ s_ID w ≠ ID).
Proof.
  intros Hn Ho Hid Hl Hv. rewrite elem_of_map_image. split.
  - intros (x & Hx & ->). unfold replace_version. destruct (_ && _) eqn:E; [by left|].
    right. assert (Hne : s_ID x ≠ ID).
    { intros Hx2. assert (x = old) as -> by (eapply (unique_row s_ID); eauto; congruence).
      rewrite Hl, Hid, Hv, Z.eqb_refl, bool_decide_true in E by done. done. }
    split_and!; [done| |done]. congruence.
  - intros [->|(Hw & Hne & Hid2)].
    + exists old. split; [done|]. unfold replace_version.
      by rewrite Hl, Hid, Hv, Z.eqb_refl, bool_decide_true by done.
    + exists w. split; [done|]. unfold replace_version.
      rewrite (bool_decide_false (s_ID w = ID)) by done. by rewrite andb_false_r.
Qed.
Lemma update_wf now who v d d' old new :
  update now who v d d' old new → v < int_max → wf d → wf d'.
Proof.
  intros U Hmax H. pose proof (up_rows _ _ _ _ _ _ _ U) as Hr. pose proof (up_revs _ _ _ _ _ _ _ U) as Hv.
  pose proof (up_old _ _ _ _ _ _ _ U) as Ho. pose proof (up_live _ _ _ _ _ _ _ U) as Hl.
  pose proof (up_version _ _ _ _ _ _ _ U) as Hver. pose proof (up_ID _ _ _ _ _ _ _ U) as Hid.
  pose proof (wf_ids _ H) as Hn.
  assert (Hnew : s_Version new = v + 1).
  { rewrite (up_new_version _ _ _ _ _ _ _ U). pose proof (wf_range _ H old Ho) as Hrange.
    rewrite Hver in Hrange. apply wrap64_id. unfold in_int, int_min, int_max in *. lia. }
  assert (Hel : ∀ w, w ∈ rows d' ↔ w = new ∨ (w ∈ rows d ∧ w ≠ old ∧ s_ID w ≠ s_ID old)).
  { intros w. rewrite Hr. by apply elem_of_replaced. }
  split.
  - rewrite Hr, (replace_row s_ID _ _ old) by done. done.
  - rewrite Hr, (replace_row place _ _ old); [apply H|done..|].
    unfold place. by rewrite (up_space _ _ _ _ _ _ _ U), (up_number _ _ _ _ _ _ _ U).
  - intros w Hw. rewrite (up_sequences _ _ _ _ _ _ _ U). apply Hel in Hw as [->|(Hw & _)]; [|by apply H].
    rewrite (up_space _ _ _ _ _ _ _ U), (up_number _ _ _ _ _ _ _ U). by apply H.
  - intros w Hw. rewrite Hv. apply Hel in Hw as [->|(Hw & _)].
    + eexists. split; [by apply elem_of_app; right; left|].
      unfold records. by rewrite (up_still_live _ _ _ _ _ _ _ U).
    + destruct (wf_history _ H w Hw) as (r & Hin & Hrec). exists r. set_solver.
  - intros r. rewrite Hv. intros [Hin|Hin%list_elem_of_singleton]%elem_of_app.
    + destruct (wf_versions _ H r Hin) as (w & Hw & Hwid & Hle).
      destruct (decide (s_ID w = s_ID old)) as [E|E].
      * exists new. split_and!; [by apply Hel; left|congruence|].
        assert (w = old) as -> by (eapply (unique_row s_ID); eauto). lia.
      * exists w. split_and!; [apply Hel; right; split_and!; [done|congruence|done]|done|done].
    + subst r. exists new. split_and!; [by apply Hel; left|done|simpl; lia].
  - rewrite Hv, List.filter_app, map_app. apply NoDup_app.
    split_and!; [apply H| |apply NoDup_singleton].
    intros x Hx Hx2. apply list_elem_of_singleton in Hx2 as ->.
    apply elem_of_map_image in Hx as (r & Hin & [= E1 E2]).
    rewrite list_elem_of_In, List.filter_In, <- list_elem_of_In in Hin. destruct Hin as [Hin _].
    destruct (wf_versions _ H r Hin) as (w & Hw & Hwid & Hle).
    assert (w = old) as -> by (eapply (unique_row s_ID); eauto; congruence). lia.
  - intros w Hw. apply Hel in Hw as [->|(Hw & _)]; [|by apply H].
    pose proof (wf_range _ H old Ho). lia.
Qed.

(** ** Deletion *)

Section Operations.
Context {HO : UuidOps} (IsURL : string → bool).
Context (time_json : Z → string) (struct_json : string → option gval).
Context (Sprint : gval → string) (related : related_rows).
Notation Create := (Create IsURL time_json struct_json).
Notation Save := (Save IsURL time_json struct_json Sprint related).
Notation Reorder := (Reorder IsURL time_json struct_json).
Notation Delete := (Delete time_json struct_json).

Lemma Delete_effect now id who d u d' : Delete now id who d = (Ok u, d') →
  ∃ w, w ∈ rows d ∧ s_live w = true ∧ s_ID w = id ∧
    rows d' = map (soft_delete_row now id) (rows d) ∧
    revs d' = revs d ++ [revision_of now who RevisionTypeDelete w ∅] ∧ sequences d' = sequences d.
Proof.
  unfold WorkItems.Delete. destruct (First _ d) as [w|] eqn:E; [|done].
  apply First_In in E as (Hin & Hl & Hid). apply bool_decide_eq_true in Hid.
  rewrite s_map_ok by (intro; apply wrapf_ok). intros H. apply s_bind_ok in H as (r & d1 & H & H2).
  unfold s_ret in H2. injection H2 as _ <-. apply Revision_Create_ok in H as (f & Hf & ->).
  unfold column in Hf. rewrite map_to_list_empty in Hf. injection Hf as <-.
  exists w. done.
Qed.
Lemma soft_delete_keeps now id w :
  s_ID (soft_delete_row now id w) = s_ID w ∧ place (soft_delete_row now id w) = place w ∧
  s_Version (soft_delete_row now id w) = s_Version w.
Proof. unfold soft_delete_row. by case_match. Qed.
Lemma Delete_wf now id who d u d' : Delete now id who d = (Ok u, d') → wf d → wf d'.
Proof.
  intros HD H. apply Delete_effect in HD as (w0 & Hin0 & Hl0 & Hid0 & Hr & Hv & Hs).
  split; rewrite ?Hr, ?Hv, ?Hs.
  - rewrite map_map, (map_ext _ s_ID); [apply H|]. intros w. apply soft_delete_keeps.
  - rewrite map_map, (map_ext _ place); [apply H|]. intros w. apply soft_delete_keeps.
  - intros w Hw. apply elem_of_map_image in Hw as (x & Hx & ->).
    destruct (soft_delete_keeps now id x) as (_ & [= -> ->] & _). by apply H.
  - intros w Hw. apply elem_of_map_image in Hw as (x & Hx & ->).
    destruct (decide (s_live x = true ∧ s_ID x = id)) as [[Hl Hid]|Hno].
    + assert (x = w0) as -> by (eapply (unique_row s_ID); [apply H|done..|congruence]).
      eexists. split; [apply elem_of_app; right; by left|].
      unfold soft_delete_row. rewrite Hl0, bool_decide_true by done. by vm_compute.
    + destruct (wf_history _ H x Hx) as (r & Hrin & Hrec). exists r. split; [set_solver|].
      unfold soft_delete_row. destruct (s_live x) eqn:Hl; simpl; [|exact Hrec].
      rewrite bool_decide_false by naive_solver. exact Hrec.
  - intros r [Hin|Hin%list_elem_of_singleton]%elem_of_app.
    + destruct (wf_versions _ H r Hin) as (w & Hw & Hwid & Hle).
      exists (soft_delete_row now id w). destruct (soft_delete_keeps now id w) as (-> & _ & ->).
      split_and!; [|done|done]. apply elem_of_map_image. by exists w.
    + subst r. exists (soft_delete_row now id w0).
      destruct (soft_delete_keeps now id w0) as (-> & _ & ->).
      split_and!; [|done|simpl; lia]. apply elem_of_map_image. by exists w0.
  - rewrite List.filter_app. simpl. rewrite app_nil_r. apply H.
  - intros w Hw. apply elem_of_map_image in Hw as (x & Hx & ->).
    destruct (soft_delete_keeps now id x) as (_ & _ & ->). by apply H.
Qed.

(** ** Committed operations *)

Inductive op :=
  | OpCreate (now : Time) (newID spaceID typeID : uuid) (fields : Fields) (creatorID : uuid)
  | OpSave (now : Time) (spaceID : uuid) (wi : WorkItem) (modifierID : uuid)
  | OpReorder (now : Time) (spaceID : uuid) (direction : DirectionType) (targetID : option uuid)
      (wi : WorkItem) (modifierID : uuid)
  | OpDelete (now : Time) (id suppressorID : uuid)
  | OpTypes (m : tstm unit).                  (* anything done to types and their cache *)
Definition discard {A} (m : wstm A) : wstm unit := let* _ := m in s_ret tt.
Definition run_op (o : op) : wstm unit :=
  match o with
  | OpCreate now newID sp ty fields who => discard (Create now newID sp ty fields who)
  | OpSave now sp wi who => discard (Save now sp wi who)
  | OpReorder now sp dir target wi who => discard (Reorder now sp dir target wi who)
  | OpDelete now id who => Delete now id who
  | OpTypes m => on_types m
  end.
(** Versions stay below the largest integer. *)
Definition in_range (o : op) : Prop :=
  match o with
  | OpSave _ _ wi _ | OpReorder _ _ _ _ wi _ => w_Version wi < int_max
  | _ => True
  end.
Inductive committed (d d' : wi_db) : Prop :=
  | committed_op o begin_err timed_out commit_ok r :
      in_range o →
      Transactional begin_err timed_out commit_ok (run_op o) d = (r, d') →
      committed d d'.

Lemma discard_ok {A} (m : wstm A) d u d' : discard m d = (Ok u, d') → ∃ a, m d = (Ok a, d').
Proof.
  unfold discard. intros H. apply s_bind_ok in H as (a & d1 & H & H2). injection H2 as _ <-. by exists a.
Qed.
Lemma run_item_op_wf o d u d' : in_range o → run_op o d = (Ok u, d') → wf d → wf d'.
Proof.
  intros Hr H Hwf. destruct o; simpl in *.
  - apply discard_ok in H as (p & H). apply Create_effect in H as (row & H).
    by eapply creation_wf.
  - apply discard_ok in H as (p & H). apply Save_effect in H as (old & new & H & _).
    by eapply update_wf.
  - apply discard_ok in H as (p & H). apply Reorder_effect in H as [(_ & H)|(old & new & H & _)].
    + by eapply same_tables_wf.
    + by eapply update_wf.
  - by eapply Delete_wf.
  - apply on_types_same in H. by eapply same_tables_wf.
Qed.

Definition no_items (sp : list (uuid * uuid)) (t : types_state) : wi_db :=
  {| rows := []; revs := []; sequences := ∅; spaces := sp; types := t |}.
Lemma no_items_wf sp t : wf (no_items sp t).
Proof. split; simpl; try apply NoDup_nil_2; by intros ? ?%elem_of_nil. Qed.

(** C3: Any committed sequence of creations, saves, reorderings and deletions leaves the tables well formed: ids and
    the numbers of a space are unique, no number exceeds the sequence of its space, the present state of every
    item is in its history, and no version of an item is recorded twice. *)
Theorem committed_items_wf sp t d (Hd : rtc committed (no_items sp t) d) : wf d.
Proof.
  remember (no_items sp t) as d0 eqn:E. assert (H0 : wf d0) by (subst; apply no_items_wf). clear E.
  induction Hd as [d0|d0 d1 d2 H1 _ IH]; [done|]. apply IH.
  destruct H1 as [o be tout ok r Hr HT].
  pose proof (Transactional_outcome be tout ok (run_op o) d0) as HA. rewrite HT in HA.
  destruct HA as (_ & [->|(_ & _ & HE)] & _); [done|]. by eapply run_item_op_wf.
Qed.

(** A new item gets a number above every number its space ever used, those of deleted items included. *)
Theorem Create_number_is_new now newID sp ty fields who d p d'
    (Hwf : wf d) (Hc : Create now newID sp ty fields who d = (Ok p, d')) :
  ∃ row, rows d' = rows d ++ [row] ∧ s_SpaceID row = sp ∧
    ∀ w, w ∈ rows d → s_SpaceID w = sp → s_Number w < s_Number row.
Proof.
  apply Create_effect in Hc as (row & C). exists row. split_and!; [apply C|apply C|].
  intros w Hw Hsp. pose proof (wf_sequence _ Hwf w Hw) as Hle. rewrite Hsp in Hle.
  rewrite (cr_number _ _ _ _ _ _ _ _ C). lia.
Qed.

Lemma find_by_number sp n d w :
  wf d → w ∈ rows d → s_live w = true → s_Number w = n → s_SpaceID w = sp →
  First (λ w, (s_Number w =? n) && in_space sp w) d = Some w.
Proof.
  intros H Hin Hl Hn Hsp. destruct (First _ d) as [x|] eqn:E.
  - apply First_In in E as (Hx & _ & Hp). apply andb_prop in Hp as [Hxn Hxs].
    apply Z.eqb_eq in Hxn. apply bool_decide_eq_true in Hxs. f_equal.
    eapply (unique_row place); [apply H|done..|]. unfold place. congruence.
  - exfalso. pose proof (First_None _ _ E w Hin Hl) as Hp. cbv beta in Hp. unfold in_space in Hp.
    by rewrite Hn, Z.eqb_refl, bool_decide_true in Hp.
Qed.
Lemma LoadType_not_panic id s m : (Load time_json struct_json id s).1 ≠ Panic m.
Proof.
  unfold Load. destruct (Get _ _); [done|]. unfold load_row, First_wit.
  destruct (List.find _ _); [|done]. unfold scan. by destruct (Fields_in_json _ _ _).
Qed.
(** A save made from a version that is not the stored one. *)
Lemma Save_conflict now sp wi who d w :
  First (λ w, (s_Number w =? w_Number wi) && in_space sp w) d = Some w →
  s_Version w ≠ w_Version wi →
  let '(r, d') := Save now sp wi who d in
  (r = Err (VersionConflictError "version conflict") ∨ ∃ e, r = Err (InternalError e)) ∧
  same_tables d d'.
Proof.
  intros HF Hne. unfold WorkItems.Save, loadWorkItemStorage.
  unfold s_bind at 1. unfold s_bind at 1. unfold s_query at 1. rewrite HF.
  unfold s_bind at 1. unfold s_map at 1.
  destruct (on_types (Load time_json struct_json (s_Type w)) d) as [r1 d1] eqn:E.
  pose proof (on_types_same _ _ _ _ E) as Hst.
  assert (HP : ∀ m, r1 ≠ Panic m).
  { intros m ->. unfold on_types in E.
    pose proof (LoadType_not_panic (s_Type w) (types d) m) as HP.
    destruct (Load _ _ _ _) as [r2 t2]. injection E as -> _. done. }
  destruct r1 as [t|e|m]; [|simpl; split; [right; by eexists|done]|by destruct (HP m)].
  cbn [internal s_ret]. unfold s_bind at 1. unfold s_query at 1.
  destruct (Z.eqb_spec (s_Version w) (w_Version wi)); [done|]. split; [by left|done].
Qed.

(** C5: Of two saves made from the same version of an item only one goes through: the other one is turned down with
    the version conflict, unless it cannot load the type, and changes no table. *)
Theorem Save_no_lost_update now now' sp wi wi' who who' d d' p
    (Hwf : wf d) (Hrange : w_Version wi < int_max)
    (Hsame : w_Number wi' = w_Number wi ∧ w_Version wi' = w_Version wi)
    (Hs : Save now sp wi who d = (Ok p, d')) :
  let '(r, d'') := Save now' sp wi' who' d' in
  (r = Err (VersionConflictError "version conflict") ∨ ∃ e, r = Err (InternalError e)) ∧
  same_tables d' d''.
Proof.
  apply Save_effect in Hs as (old & new & U & Hn & Hsp). destruct Hsame as [Hn' Hv'].
  pose proof (update_wf _ _ _ _ _ _ _ U Hrange Hwf) as Hwf'.
  apply (Save_conflict now' sp wi' who' d' new).
  - apply find_by_number; [done| |apply U| |].
    + rewrite (up_rows _ _ _ _ _ _ _ U). apply (elem_of_replaced d (s_ID old) (w_Version wi) old new new); [apply Hwf|apply U|done|apply U|apply U|].
      by left.
    + rewrite (up_number _ _ _ _ _ _ _ U). congruence.
    + by rewrite (up_space _ _ _ _ _ _ _ U).
  - rewrite (up_new_version _ _ _ _ _ _ _ U), Hv'.
    pose proof (wf_range _ Hwf old (up_old _ _ _ _ _ _ _ U)) as Hr.
    rewrite (up_version _ _ _ _ _ _ _ U) in Hr. rewrite wrap64_id; [lia|].
    unfold in_int, int_min, int_max in *. lia.
Qed.
End Operations.
