(* ===== verification/WorkItemOrder.v ===== *)
(** * The execution order

    Where [Reorder] and [Create] put an item: between the neighbours when the
    binary64 mean lies strictly between them; somewhere else when a deleted
    row carries the order that is looked up, or when the mean is rounded. *)

From Stdlib Require Import ZArith Lia Ascii String SpecFloat.
From S2P Require Export WorkItemInvariant.

(** ** Comparing floats *)

Definition rank (f : float64) : Z * Z * Z :=
  match f with
  | S754_nan => (3, 0, 0)
  | S754_infinity true => (-2, 0, 0)
  | S754_finite true m e => (-1, - e, - Zpos m)
  | S754_zero _ => (0, 0, 0)
  | S754_finite false m e => (1, e, Zpos m)
  | S754_infinity false => (2, 0, 0)
  end.
Definition lex_lt (a b : Z * Z * Z) : Prop :=
  a.1.1 < b.1.1 ∨ a.1.1 = b.1.1 ∧ (a.1.2 < b.1.2 ∨ a.1.2 = b.1.2 ∧ a.2 < b.2).
Definition number_ (f : float64) : Prop := f ≠ S754_nan.

Lemma SFcompare_rank f g : number_ f → number_ g →
  SFcompare f g = Some (match (rank f).1.1 ?= (rank g).1.1 with
                        | Eq => match (rank f).1.2 ?= (rank g).1.2 with
                                | Eq => (rank f).2 ?= (rank g).2
                                | c => c
                                end
                        | c => c
                        end).
Proof.
  intros Hf Hg. destruct f as [s1|s1| |s1 m1 e1], g as [s2|s2| |s2 m2 e2]; try done;
    try destruct s1; try destruct s2; try done; cbn [SFcompare rank fst snd Z.compare]; f_equal.
  - rewrite Z.compare_opp, (Z.compare_antisym e1 e2). destruct (e1 ?= e2); done.
Qed.
Lemma SFltb_rank f g : number_ f → number_ g → SFltb f g = true ↔ lex_lt (rank f) (rank g).
Proof.
  intros Hf Hg. unfold SFltb. rewrite (SFcompare_rank f g Hf Hg). unfold lex_lt.
  destruct (Z.compare_spec (rank f).1.1 (rank g).1.1); [|split; [lia|done]|split; [done|lia]].
  destruct (Z.compare_spec (rank f).1.2 (rank g).1.2); [|split; [lia|done]|split; [done|lia]].
  destruct (Z.compare_spec (rank f).2 (rank g).2); split; (done || lia).
Qed.
Lemma SFeqb_rank f g : number_ f → number_ g → SFeqb f g = true → rank f = rank g.
Proof.
  intros Hf Hg. unfold SFeqb. rewrite (SFcompare_rank f g Hf Hg).
  destruct (Z.compare_spec (rank f).1.1 (rank g).1.1); [|done..].
  destruct (Z.compare_spec (rank f).1.2 (rank g).1.2); [|done..].
  destruct (Z.compare_spec (rank f).2 (rank g).2); [|done..].
  intros _. destruct (rank f) as [[? ?] ?], (rank g) as [[? ?] ?]. simpl in *. congruence.
Qed.

(** ** The largest order *)

Definition orders_are_numbers (d : wi_db) : Prop := ∀ w, w ∈ rows d → number_ (s_ExecutionOrder w).

Lemma max_fold_spec (p : WorkItemStorage → bool) l : ∀ (acc : option float64) b,
  (∀ w, w ∈ l → number_ (s_ExecutionOrder w)) → (∀ m, acc = Some m → number_ m) →
  fold_left (λ m w, if p w then
                      Some (match m with
                            | None => s_ExecutionOrder w
                            | Some x => if SFltb x (s_ExecutionOrder w) then s_ExecutionOrder w else x
                            end)
                    else m) l acc = Some b →
  (acc = Some b ∨ ∃ w, w ∈ l ∧ p w = true ∧ s_ExecutionOrder w = b) ∧
  (∀ m, acc = Some m → ¬ lex_lt (rank b) (rank m)) ∧
  ∀ w, w ∈ l → p w = true → ¬ lex_lt (rank b) (rank (s_ExecutionOrder w)).
Proof.
  induction l as [|w l IH]; intros acc b Hn Hacc; cbn [fold_left].
  { intros ->. split_and!; [by left| |by intros w ?%elem_of_nil].
    intros m [= ->]. unfold lex_lt. lia. }
  intros H. assert (Hw : number_ (s_ExecutionOrder w)) by (apply Hn; by left). destruct (p w) eqn:Ep.
  - apply IH in H as (H1 & H2 & H3); [|intros x Hx; apply Hn; by right|].
    + specialize (H2 _ eq_refl).
      assert (Hkey : (∀ m, acc = Some m → ¬ lex_lt (rank b) (rank m)) ∧
                     ¬ lex_lt (rank b) (rank (s_ExecutionOrder w))).
      { destruct acc as [m|]; [|by split]. specialize (Hacc m eq_refl).
        pose proof (SFltb_rank m (s_ExecutionOrder w) Hacc Hw) as HS.
        destruct (SFltb m _).
        - destruct HS as [HS _]. specialize (HS eq_refl). split; [|done].
          intros m' [= <-]. unfold lex_lt in *. lia.
        - split; [by intros m' [= <-]|]. destruct HS as [_ HS].
          assert (¬ lex_lt (rank m) (rank (s_ExecutionOrder w))) by (intros HL; by apply HS in HL).
          unfold lex_lt in *. lia. }
      destruct Hkey as [K1 K2]. split_and!; [|exact K1|].
      * destruct H1 as [H1|(x & Hx & Hp & E)]; [|right; exists x; split_and!; [by right|done|done]].
        injection H1 as H1. destruct acc as [m|].
        -- destruct (SFltb m (s_ExecutionOrder w)); [|left; congruence].
           right. exists w. split_and!; [by left|done|done].
        -- right. exists w. split_and!; [by left|done|done].
      * intros x [->|Hx]%elem_of_cons Hp; [done|by apply H3].
    + intros m [= <-]. destruct acc as [m|]; [|done]. destruct (SFltb m _); [done|by apply Hacc].
  - apply IH in H as (H1 & H2 & H3); [|intros x Hx; apply Hn; by right|done].
    split_and!; [|exact H2|].
    + destruct H1 as [H1|(x & Hx & Hp & E)]; [by left|right; exists x; split_and!; [by right|done|done]].
    + intros x [->|Hx]%elem_of_cons Hp; [congruence|by apply H3].
Qed.
Lemma max_order_spec p d b (Hn : orders_are_numbers d) (Hb : max_order p d = Some b) :
  (∃ w, w ∈ rows d ∧ p w = true ∧ s_ExecutionOrder w = b) ∧
  ∀ w, w ∈ rows d → p w = true → ¬ lex_lt (rank b) (rank (s_ExecutionOrder w)).
Proof.
  apply max_fold_spec in Hb as ([|H1] & _ & H3); [done|by split|exact Hn|done].
Qed.

(** ** Reordering *)

Section Order.
Context {HO : UuidOps} (IsURL : string → bool).
Context (time_json : Z → string) (struct_json : string → option gval).
Notation Create := (Create IsURL time_json struct_json).
Notation Reorder := (Reorder IsURL time_json struct_json).

(** The order [Reorder] gives the row. *)
Lemma Reorder_order now sp dir target wi who d w d' :
  Reorder now sp dir target wi who d = (Ok w, d') →
  (∀ s, dir ≠ DirectionOther s) →
  ∃ order d1 d2 old new, same_tables d d1 ∧
    new_order time_json struct_json sp dir target (w_ID wi) wi d1 = (Ok (Some order), d2) ∧
    update now who (w_Version wi) d d' old new ∧ s_ID old = w_ID wi ∧ s_ExecutionOrder new = order.
Proof.
  unfold WorkItems.Reorder. intros H Hdir. stm_inv.
  match goal with H : LoadFromDB _ _ = _ |- _ => apply LoadFromDB_ok in H as (Hin & Hl & Hid) end.
  match goal with H : (if ?v =? ?u then _ else _) = _ |- _ =>
    destruct (Z.eqb_spec v u) as [Hver|]; [|done] end.
  match goal with H : on_types _ _ = _ |- _ => apply on_types_same in H as Hst end.
  match goal with H : new_order _ _ _ _ _ _ _ _ = _ |- _ =>
    pose proof (new_order_same _ _ _ _ _ _ _ _ _ _ H) as Hst2; rename H into HN end.
  match goal with H : match ?o with _ => _ end _ = _ |- _ => destruct o as [order|] end; stm_inv.
  - match goal with H1 : update_row _ _ _ _ _ _ = _, H2 : Revision_Create _ _ _ _ _ _ _ = _ |- _ =>
      eapply (update_effect time_json struct_json now who (w_Version wi)) in H1 as [f Hf];
        [..|exact H2]; [|eapply same_tables_trans; [exact Hst|exact Hst2]|exact Hin|..]; try done;
        [|cbn; by rewrite Hver] end.
    rewrite Hid in HN. eexists order, _, _, _, _. split_and!; [exact Hst|exact HN|exact Hf|done|done].
  - exfalso. unfold new_order in HN.
    destruct dir; try (unfold s_map in HN;
      match type of HN with (let '(_, _) := ?m in _) = _ => destruct m as [[x'|e|m0] d1] end; done).
    by eapply Hdir.
Qed.

(** Only of no row at all is the maximum NULL. *)
Lemma aggregate_some better p l (m : option float64) :
  is_Some m → is_Some (fold_left (λ m w, if p w : bool then
    Some (match m with Some x => if better (s_ExecutionOrder w) x : bool then s_ExecutionOrder w else x
          | None => s_ExecutionOrder w end) else m) l m).
Proof. revert m. induction l as [|w l IH]; intros m Hm; [done|]. cbn [fold_left]. apply IH. by destruct (p w). Qed.
Lemma max_order_nonempty p d x : x ∈ rows d → max_order p d = None → p x = true → False.
Proof.
  unfold max_order, aggregate. generalize (@None float64) at 1. generalize (rows d).
  induction l as [|w l IH]; intros m Hx EM Hp; [by apply elem_of_nil in Hx|].
  cbn [fold_left] in EM. apply elem_of_cons in Hx as [->|Hx]; [|by eapply IH].
  rewrite Hp in EM. destruct (aggregate_some (λ x y, SFltb y x) p l
    (Some (match m with Some x => if SFltb x (s_ExecutionOrder w) then s_ExecutionOrder w else x
           | None => s_ExecutionOrder w end)) ltac:(done)) as [z Hz].
  by rewrite Hz in EM.
Qed.
Lemma max_order_same d d' p : rows d' = rows d → max_order p d' = max_order p d.
Proof. unfold max_order, aggregate. by intros ->. Qed.
Lemma First_with_order_same d d' o : rows d' = rows d → First_with_order o d' = First_with_order o d.
Proof. intros H. destruct o; [|done]. by apply First_same. Qed.
Lemma order_beside_same d d' sp target dir fb id wi : rows d' = rows d →
  order_beside d' sp target dir fb id wi = order_beside d sp target dir fb id wi.
Proof.
  intros H. unfold order_beside, FindFirstItem, FindSecondItem, max_order, min_order, aggregate.
  rewrite H. destruct target as [t|]; [|done]. rewrite (First_same _ d d' H).
  destruct (First _ d) as [w|]; [|done]. cbn [replace_err mbind res_bind].
  destruct dir; try done; by rewrite !(First_with_order_same d d' _ H).
Qed.

(** The row [Reorder] writes, when it places it below a target. *)
Lemma Reorder_below_row now sp t wi who d w d' order :
  wf d → Reorder now sp DirectionBelow (Some t) wi who d = (Ok w, d') →
  order_beside d sp (Some t) DirectionAbove (λ o, CalculateOrder o f_zero) (w_ID wi) wi = Ok order →
  ∃ new, new ∈ rows d' ∧ s_ID new = w_ID wi ∧ s_ExecutionOrder new = order ∧
    ∀ x, x ∈ rows d' → s_ID x ≠ w_ID wi → x ∈ rows d.
Proof.
  intros Hwf HR HO'. apply Reorder_order in HR as (o & d1 & d2 & old & new & Hst & HN & U & Hid & Ho);
    [|done].
  unfold new_order, s_map, s_query in HN. rewrite (order_beside_same d d1) in HN by apply Hst.
  rewrite HO' in HN. injection HN as -> _. 
  assert (Hel : ∀ x, x ∈ rows d' ↔ x = new ∨ (x ∈ rows d ∧ x ≠ old ∧ s_ID x ≠ s_ID old)).
  { intros x. rewrite (up_rows _ _ _ _ _ _ _ U). apply elem_of_replaced; [apply Hwf|apply U|done|apply U..]. }
  exists new. split_and!; [apply Hel; by left| |done|].
  - rewrite (up_ID _ _ _ _ _ _ _ U). done.
  - intros x Hx Hne. apply Hel in Hx as [->|(Hx & _)]; [|done].
    rewrite (up_ID _ _ _ _ _ _ _ U) in Hne. congruence.
Qed.
Lemma SFltb_number f g : SFltb f g = true → number_ f ∧ number_ g.
Proof. unfold number_. destruct f as [[]|[]| |[]], g as [[]|[]| |[]]; done. Qed.

(** An item placed below a target whose next lower neighbour is found comes to lie directly below the target,
    whenever the binary64 mean of the two orders lies strictly between them. *)
Theorem Reorder_below_between now sp t wi who d w d' a second b
    (Hwf : wf d) (Hnum : orders_are_numbers d)
    (HR : Reorder now sp DirectionBelow (Some t) wi who d = (Ok w, d'))
    (Ha : FindFirstItem d sp t = Ok a)
    (Hb : FindSecondItem d a sp DirectionAbove = Some (second, Some b)) (Hsecond : second ≠ w_ID wi)
    (Hlow : SFltb b (CalculateOrder a b) = true) (Hhigh : SFltb (CalculateOrder a b) a = true) :
  ∃ new, new ∈ rows d' ∧ s_ID new = w_ID wi ∧ SFltb (s_ExecutionOrder new) a = true ∧
    ∀ x, x ∈ rows d' → s_SpaceID x = sp → s_ID x ≠ w_ID wi → SFltb (s_ExecutionOrder x) a = true →
         SFltb (s_ExecutionOrder x) (s_ExecutionOrder new) = true.
Proof.
  destruct (Reorder_below_row now sp t wi who d w d' (CalculateOrder a b) Hwf HR)
    as (new & Hnew & Hid & Ho & Hrest).
  { unfold order_beside. rewrite Ha. cbn [replace_err mbind res_bind]. rewrite Hb.
    by rewrite bool_decide_false. }
  exists new. rewrite Ho. split_and!; [done..|]. intros x Hx Hsp Hne Hlt.
  specialize (Hrest x Hx Hne).
  destruct (SFltb_number _ _ Hlow) as [Nb Nm]. destruct (SFltb_number _ _ Hlt) as [Nx Na].
  unfold FindSecondItem in Hb. destruct (max_order _ d) as [m|] eqn:EM; [|done].
  cbn [First_with_order] in Hb. destruct (First _ d) as [w2|] eqn:EF; [|done].
  injection Hb as _ E2. apply First_In in EF as (Hw2 & _ & Heq). rewrite E2 in Heq.
  apply max_order_spec in EM as ((w3 & Hw3 & _ & E3) & HM); [|done].
  assert (Nw : number_ m) by (rewrite <- E3; by apply Hnum).
  apply (SFeqb_rank b m Nb Nw) in Heq.
  assert (HL : ¬ lex_lt (rank m) (rank (s_ExecutionOrder x))).
  { apply HM; [done|]. unfold in_space. by rewrite bool_decide_true, Hlt. }
  apply SFltb_rank in Hlow; [|done..]. apply SFltb_rank; [done..|].
  rewrite Heq in Hlow. unfold lex_lt in *. lia.
Qed.

(** When the next lower order of the space is one only deleted rows have, the target is taken for the lowest item:
    the item gets half its order, however many items lie in between. *)
Theorem Reorder_below_deleted_neighbour now sp t wi who d w d' a b
    (Hwf : wf d)
    (HR : Reorder now sp DirectionBelow (Some t) wi who d = (Ok w, d'))
    (Ha : FindFirstItem d sp t = Ok a)
    (Hb : max_order (λ w, in_space sp w && SFltb (s_ExecutionOrder w) a) d = Some b)
    (Hdeleted : ∀ x, x ∈ rows d → s_live x = true → SFeqb (s_ExecutionOrder x) b = false) :
  ∃ new, new ∈ rows d' ∧ s_ID new = w_ID wi ∧ s_ExecutionOrder new = CalculateOrder a f_zero.
Proof.
  destruct (Reorder_below_row now sp t wi who d w d' (CalculateOrder a f_zero) Hwf HR)
    as (new & Hnew & Hid & Ho & _); [|by exists new].
  unfold order_beside. rewrite Ha. cbn [replace_err mbind res_bind]. unfold FindSecondItem. rewrite Hb.
  cbn [First_with_order]. destruct (First _ d) as [x|] eqn:E; [|done].
  apply First_In in E as (Hx & Hl & HE). by rewrite (Hdeleted x Hx Hl) in HE.
Qed.

(** When the highest order of a space is one only deleted rows have, a new item starts over at 1000 instead of on
    top of the list. *)
Theorem Create_after_deleting_top now newID sp ty fields who d p d' b
    (Hc : Create now newID sp ty fields who d = (Ok p, d'))
    (Hb : max_order (in_space sp) d = Some b)
    (Hdeleted : ∀ x, x ∈ rows d → s_live x = true → SFeqb (s_ExecutionOrder x) b = false) :
  ∃ row, rows d' = rows d ++ [row] ∧ SFeqb (s_ExecutionOrder row) orderValue = true.
Proof.
  apply Create_effect in Hc as (row & C). exists row. split; [apply C|].
  rewrite (cr_order _ _ _ _ _ _ _ _ C). unfold LoadHighestOrder. rewrite Hb. cbn [First_with_order].
  destruct (First _ d) as [x|] eqn:E; [|by vm_compute].
  apply First_In in E as (Hx & Hl & HE). by rewrite (Hdeleted x Hx Hl) in HE.
Qed.
Lemma SFeqb_refl b : number_ b → SFeqb b b = true.
Proof. intros H. unfold SFeqb. rewrite (SFcompare_rank b b H H). by rewrite !Z.compare_refl. Qed.

(** Otherwise, with no deleted item around, it goes on top of the list of the space, provided the addition of 1000
    is not rounded away. *)
Theorem Create_on_top now newID sp ty fields who d p d'
    (Hc : Create now newID sp ty fields who d = (Ok p, d')) (Hnum : orders_are_numbers d)
    (Hlive : ∀ w, w ∈ rows d → s_live w = true)
    (Hsum : ∀ w, w ∈ rows d → SFltb (s_ExecutionOrder w) (f_add (s_ExecutionOrder w) orderValue) = true) :
  ∃ row, rows d' = rows d ++ [row] ∧
    ∀ x, x ∈ rows d → s_SpaceID x = sp → SFltb (s_ExecutionOrder x) (s_ExecutionOrder row) = true.
Proof.
  apply Create_effect in Hc as (row & C). exists row. split; [apply C|]. intros x Hx Hsp.
  rewrite (cr_order _ _ _ _ _ _ _ _ C). unfold LoadHighestOrder.
  destruct (max_order (in_space sp) d) as [b|] eqn:EM.
  - apply max_order_spec in EM as ((m & Hm & _ & E) & HM); [|done].
    specialize (HM x Hx). unfold in_space in HM. rewrite bool_decide_true in HM by done.
    specialize (HM eq_refl). cbn [First_with_order].
    assert (Nb : number_ b) by (rewrite <- E; by apply Hnum).
    destruct (First _ d) as [y|] eqn:EF.
    + apply First_In in EF as (Hy & _ & HE). apply SFeqb_rank in HE; [|by apply Hnum|done].
      change (default zero_row (Some y)) with y. specialize (Hsum y Hy). destruct (SFltb_number _ _ Hsum) as [Ny Ns].
      apply SFltb_rank in Hsum; [|done..]. apply SFltb_rank; [by apply Hnum|done|].
      rewrite HE in Hsum. unfold lex_lt in *. lia.
    + pose proof (First_None _ _ EF m Hm (Hlive m Hm)) as HF. cbv beta in HF.
      by rewrite E, (SFeqb_refl b Nb) in HF.
  - exfalso. apply (max_order_nonempty _ _ _ Hx) in EM as []. unfold in_space. by rewrite bool_decide_true.
Qed.

(** Placing one item after the other directly below the same target halves the gap each time: from orders 2000 and
    1000 the mean meets the lower order with the 54th item, and no order is left between the two. *)
Theorem repeated_below_collides :
  let place n := Nat.iter n (λ x, CalculateOrder x (float_of_int 1000)) (float_of_int 2000) in
  (∀ n, (n < 54)%nat → SFltb (float_of_int 1000) (place n) = true) ∧
  SFeqb (place 54%nat) (float_of_int 1000) = true.
Proof.
  split; [|by vm_compute]. intros n Hn.
  assert (HA : forallb (λ n, SFltb (float_of_int 1000)
    (Nat.iter n (λ x, CalculateOrder x (float_of_int 1000)) (float_of_int 2000))) (seq 0 54) = true)
    by by vm_compute.
  rewrite forallb_forall in HA. apply HA. apply in_seq. lia.
Qed.
End Order.
