(* ===== verification/WorkItemChange.v ===== *)
(** * What a change of the type does to a work item

    Fields of the old type are carried over or written into the description;
    the fields of the new type get their values or defaults; fields nobody may
    write disappear from the row. *)

From Stdlib Require Import ZArith Lia Ascii String SpecFloat.
From S2P Require Import TypeFacts.
From S2P Require Export WorkItemFacts.

Section Change.
Context {HO : UuidOps} (IsURL : string → bool).
Context (time_json : Z → string) (struct_json : string → option gval).
Context (Sprint : gval → string) (related : related_rows).
Notation lost_value := (lost_value Sprint related).
Notation lost_values := (lost_values Sprint related).

Lemma fld_insert_eq m k v : fld (<[k := v]> m) k = v.
Proof. unfold fld. by rewrite lookup_insert_eq. Qed.
Lemma fld_insert_ne m k k' v : k ≠ k' → fld (<[k := v]> m) k' = fld m k'.
Proof. intros. unfold fld. by rewrite lookup_insert_ne. Qed.
Lemma fields_get_In (m : FieldDefinitions) k d : fields_get m k = Some d → (k, d) ∈ m.
Proof.
  induction m as [|[k' d'] m IH]; [done|]. rewrite fields_get_cons.
  destruct (String.eqb_spec k' k) as [->|_]; [intros [= ->]; by left|right; auto].
Qed.

(** The fields a save or a reordering stores are all of definitions that are not read only: what was stored under a
    read-only name before is dropped. *)
Lemma update_fields_writable skip defs fields : ∀ m m' k v,
  update_fields IsURL skip defs fields m = Ok m' → m' !! k = Some v →
  m !! k = Some v ∨ ∃ def, (k, def) ∈ defs ∧ ReadOnly def = false.
Proof.
  induction defs as [|[n d] defs IH]; intros m m' k v H Hk; [left; by injection H as <-|].
  cbn [update_fields] in H. destruct (ReadOnly d) eqn:ER.
  { destruct (IH _ _ _ _ H Hk) as [?|(x & ? & ?)]; [by left|right; exists x; split; [by right|done]]. }
  assert (Hstep : ∀ m1, update_fields IsURL skip defs fields m1 = Ok m' →
    (m1 !! k = Some v → k = n ∨ m !! k = Some v) →
    m !! k = Some v ∨ ∃ def, (k, def) ∈ (n, d) :: defs ∧ ReadOnly def = false).
  { intros m1 H1 Hm. destruct (IH _ _ _ _ H1 Hk) as [E|(x & ? & ?)].
    - destruct (Hm E) as [->|?]; [right; exists d; split; [by left|done]|by left].
    - right. exists x. split; [by right|done]. }
  destruct (skip d _).
  - eapply Hstep; [exact H|]. rewrite lookup_delete_Some. naive_solver.
  - apply bind_ok in H as (m1 & H1 & H). eapply Hstep; [exact H|]. unfold store_field in H1.
    apply bind_ok in H1 as (v1 & _ & [= <-]). rewrite lookup_insert_Some. naive_solver.
Qed.

(** The value a field of the old type keeps under the new type. *)
Definition carried (new : FieldDefinitions) (name : string) (def : FieldDefinition) (v : gval) : option gval :=
  match fields_get new name with
  | Some newField =>
      match ConvertToModelWithType IsURL (embedded (Type_ def)) (Type_ newField) v with
      | Ok v' => Some v'
      | _ => None
      end
  | None => None
  end.

Lemma field_diff_other old new : ∀ m diff kept k,
  field_diff IsURL old new m diff = Ok kept → k ∉ old.*1 → kept.1 !! k = m !! k ∧ kept.2 !! k = diff !! k.
Proof.
  induction old as [|[n def] old IH]; intros m diff kept k H Hk; [by injection H as <-|].
  cbn [fmap list_fmap fst] in Hk. apply not_elem_of_cons in Hk as [Hn Hk]. cbn [field_diff] in H.
  destruct (String.eqb n SystemMetaState); [by eapply IH|].
  destruct (fields_get new n) as [nf|].
  - destruct (ConvertToModelWithType _ _ _ _) as [v|e|s]; [| |done];
      apply (IH _ _ _ k) in H as [-> ->]; try done; split; by rewrite ?lookup_insert_ne, ?lookup_delete_ne by done.
  - destruct (is_nil_value _); apply (IH _ _ _ k) in H as [-> ->]; try done;
      split; by rewrite ?lookup_insert_ne, ?lookup_delete_ne by done.
Qed.
(** A field that is not nil is carried over or is in the difference. *)
Lemma field_diff_spec old new : ∀ m diff kept k def,
  NoDup old.*1 → field_diff IsURL old new m diff = Ok kept → fields_get old k = Some def →
  k ≠ SystemMetaState → fld m k ≠ VNil →
  match carried new k def (fld m k) with
  | Some v => kept.1 !! k = Some v
  | None => kept.2 !! k = Some (fld m k)
  end.
Proof.
  induction old as [|[n d0] old IH]; intros m diff kept k def Hnd H Hd Hk Hv; [done|].
  cbn [fmap list_fmap fst] in Hnd. apply NoDup_cons in Hnd as [Hn Hnd]. rewrite fields_get_cons in Hd.
  cbn [field_diff] in H. destruct (String.eqb_spec n k) as [->|Hne].
  - injection Hd as ->. unfold carried. destruct (String.eqb_spec k SystemMetaState); [done|].
    destruct (fields_get new k) as [nf|].
    + destruct (ConvertToModelWithType _ _ _ _) as [v|e|s]; [| |done];
        apply field_diff_other with (k := k) in H as [E1 E2]; try done;
        [rewrite E1|rewrite E2]; by rewrite lookup_insert_eq.
    + destruct (fld m k) eqn:E; try done; cbn [is_nil_value] in H;
        apply field_diff_other with (k := k) in H as [_ ->]; try done; by rewrite lookup_insert_eq.
  - destruct (String.eqb n SystemMetaState); [by eapply IH|].
    destruct (fields_get new n) as [nf|].
    + destruct (ConvertToModelWithType _ _ _ _) as [v|e|s]; [| |done].
      * apply (IH _ _ _ k def Hnd) in H; rewrite ?fld_insert_ne in * by done; done.
      * assert (E : fld (delete n m) k = fld m k) by (unfold fld; by rewrite lookup_delete_ne).
        apply (IH _ _ _ k def Hnd) in H; rewrite ?E in *; done.
    + assert (E : fld (delete n m) k = fld m k) by (unfold fld; by rewrite lookup_delete_ne).
      destruct (is_nil_value _); apply (IH _ _ _ k def Hnd) in H; rewrite ?E in *; done.
Qed.

(** ** The description *)

Definition labels_differ (old : FieldDefinitions) : Prop :=
  ∀ n1 n2 d1 d2, fields_get old n1 = Some d1 → fields_get old n2 = Some d2 → Label d1 = Label d2 → n1 = n2.

Lemma lost_values_other old diff names : ∀ acc values name d,
  labels_differ old → fields_get old name = Some d → name ∉ names →
  lost_values old diff names acc = Ok values → values !! Label d = acc !! Label d.
Proof.
  induction names as [|n names IH]; intros acc values name d HL Hd Hn H; [by injection H as <-|].
  apply not_elem_of_cons in Hn as [Hn Hns]. cbn [WorkItems.lost_values] in H.
  destruct (fields_get old n) as [dn|] eqn:E; [|done]. apply bind_ok in H as (t & _ & H).
  rewrite (IH _ _ _ _ HL Hd Hns H), lookup_insert_ne; [done|].
  intros HE. apply Hn. by eapply HL.
Qed.
Lemma lost_values_spec old diff names : ∀ acc values name,
  labels_differ old → NoDup names → lost_values old diff names acc = Ok values → name ∈ names →
  ∃ d text, fields_get old name = Some d ∧ lost_value d (fld diff name) = Ok text ∧
            values !! Label d = Some text.
Proof.
  induction names as [|n names IH]; intros acc values name HL Hnd H Hin; [by apply elem_of_nil in Hin|].
  apply NoDup_cons in Hnd as [Hn Hnd]. cbn [WorkItems.lost_values] in H.
  destruct (fields_get old n) as [dn|] eqn:E; [|done]. apply bind_ok in H as (t & Ht & H).
  apply elem_of_cons in Hin as [->|Hin]; [|by eapply IH].
  exists dn, t. split_and!; [done..|].
  by rewrite (lost_values_other _ _ _ _ _ _ _ HL E Hn H), lookup_insert_eq.
Qed.
Lemma elem_of_sorted_keys {A} (m : gmap string A) k : k ∈ sorted_keys m ↔ is_Some (m !! k).
Proof.
  unfold sorted_keys. rewrite merge_sort_Permutation. rewrite list_elem_of_In, in_map_iff. split.
  - intros ([k' v] & <- & H). apply list_elem_of_In, elem_of_map_to_list in H. by exists v.
  - intros [v H]. exists (k, v). split; [done|]. by apply list_elem_of_In, elem_of_map_to_list.
Qed.
Lemma sorted_keys_NoDup {A} (m : gmap string A) : NoDup (sorted_keys m).
Proof. unfold sorted_keys. rewrite merge_sort_Permutation. apply NoDup_fst_map_to_list. Qed.

Lemma Contains_app_l s p t : Contains s p = true → Contains (s +:+ t) p = true.
Proof. rewrite !Contains_spec. intros (a & b & ->). exists a, (b +:+ t). by rewrite !str_app_assoc. Qed.
Lemma Contains_app_r s p t : Contains s p = true → Contains (t +:+ s) p = true.
Proof. rewrite !Contains_spec. intros (a & b & ->). exists (t +:+ a), b. by rewrite !str_app_assoc. Qed.
Lemma Contains_self p : Contains p p = true.
Proof. rewrite Contains_spec. exists "", "". by rewrite str_app_nil_r. Qed.
Lemma Contains_concat l s : s ∈ l → Contains (String.concat "" l) s = true.
Proof.
  induction l as [|x l IH]; [by intros ?%elem_of_nil|]. intros [->|H]%elem_of_cons.
  - destruct l; simpl; [apply Contains_self|apply Contains_app_l, Contains_self].
  - destruct l as [|y l]; [by apply elem_of_nil in H|].
    change (String.concat "" (x :: y :: l)) with (x +:+ "" +:+ String.concat "" (y :: l)).
    apply Contains_app_r, Contains_app_r. by apply IH.
Qed.
Definition line (label text : string) : string := newline +:+ label +:+ " : " +:+ text.
Lemma description_text_line typeName values original l text :
  values !! l = Some text → Contains (description_text typeName values original) (line l text) = true.
Proof.
  intros H. unfold description_text. do 5 apply Contains_app_r. apply Contains_app_l, Contains_concat.
  rewrite list_elem_of_In, in_map_iff. exists l. rewrite H. split; [done|].
  apply list_elem_of_In, elem_of_sorted_keys. by exists text.
Qed.

(** ** Defaults *)

Lemma default_fields_other new : ∀ m m' k,
  default_fields IsURL new m = Ok m' → k ∉ new.*1 → m' !! k = m !! k.
Proof.
  induction new as [|[n def] new IH]; intros m m' k H Hk; [by injection H as <-|].
  cbn [fmap list_fmap fst] in Hk. apply not_elem_of_cons in Hk as [Hn Hk]. cbn [default_fields] in H.
  destruct (String.eqb n SystemMetaState); [by eapply IH|].
  apply bind_ok in H as (v & _ & H). apply (IH _ _ k) in H as ->; [|done]. by rewrite lookup_insert_ne.
Qed.
Lemma default_fields_spec new : ∀ m m' k def,
  NoDup new.*1 → default_fields IsURL new m = Ok m' → fields_get new k = Some def → k ≠ SystemMetaState →
  ∃ v, FieldDefinition_ConvertToModel IsURL def k (fld m k) = Ok v ∧ m' !! k = Some v.
Proof.
  induction new as [|[n d0] new IH]; intros m m' k def Hnd H Hd Hk; [done|].
  cbn [fmap list_fmap fst] in Hnd. apply NoDup_cons in Hnd as [Hn Hnd]. rewrite fields_get_cons in Hd.
  cbn [default_fields] in H. destruct (String.eqb_spec n k) as [->|Hne].
  - injection Hd as ->. destruct (String.eqb_spec k SystemMetaState); [done|].
    apply bind_ok in H as (v & Hv & H). apply wrapf_ok in Hv. exists v. split; [done|].
    apply default_fields_other with (k := k) in H as ->; [|done]. by rewrite lookup_insert_eq.
  - destruct (String.eqb n SystemMetaState); [by eapply IH|].
    apply bind_ok in H as (v & _ & H). destruct (IH _ _ k def Hnd H Hd Hk) as (v' & Hv & Hm).
    rewrite fld_insert_ne in Hv by done. by exists v'.
Qed.

(** ** The whole change *)

Lemma ChangeWorkItemType_steps d w old new sp w' :
  ChangeWorkItemType IsURL Sprint related d w old new sp = Ok w' →
  ∃ kept m, field_diff IsURL (t_Fields old) (t_Fields new) (s_Fields w) ∅ = Ok kept ∧
    describe_diff Sprint related old new kept.2 kept.1 = Ok m ∧
    default_fields IsURL (t_Fields new) m = Ok (s_Fields w') ∧ s_Type w' = t_ID new.
Proof.
  unfold ChangeWorkItemType. intros H. apply bind_ok in H as (b & _ & H). destruct b; [|done].
  cbn [negb] in H. apply bind_ok in H as (kept & H1 & H). apply bind_ok in H as (m & H2 & H).
  apply bind_ok in H as (m' & H3 & H). injection H as <-. by exists kept, m.
Qed.
Lemma describe_diff_other old new diff m m' k :
  describe_diff Sprint related old new diff m = Ok m' → k ≠ SystemDescription → m' !! k = m !! k.
Proof.
  unfold describe_diff. case_bool_decide; [by intros [= ->]|]. intros HD Hk.
  apply bind_ok in HD as ([c|] & _ & HD); [|done]. apply bind_ok in HD as (vs & _ & [= <-]).
  rewrite lookup_insert_ne by done. by destruct (is_nil_value _); rewrite ?lookup_insert_ne by done.
Qed.
(** A markup field stores the content of the value it is given. *)
Lemma markup_stored def name c v dt :
  Type_ def = FSimple {| kind := KindMarkup; simple_default := dt |} →
  FieldDefinition_ConvertToModel IsURL def name (VMarkup c) = Ok v → v = MarkupContent_ToMap c.
Proof.
  unfold FieldDefinition_ConvertToModel. intros Ht H. rewrite Ht in H.
  apply bind_ok in H as (_ & _ & H). unfold ConvertToModel, SimpleType_ConvertToModel in H. cbn [kind] in H.
  destruct (IsMarkupSupported (Markup c)); [by injection H as <-|done].
Qed.

(** C33: After a change of the type every field the item had, its metastate and its description apart, either has its
    converted value under the new type or, when it cannot be carried over, its text stands under its label in the new
    description; the fields of the old type have different labels, since of two lost fields with one label only one text
    is kept, and the new type has a description. *)
Theorem ChangeWorkItemType_loses_nothing d w old new sp w' name def ddef dt
    (Hc : ChangeWorkItemType IsURL Sprint related d w old new sp = Ok w')
    (Hold : NoDup (t_Fields old).*1) (Hnew : NoDup (t_Fields new).*1) (Hlabels : labels_differ (t_Fields old))
    (Hdef : fields_get (t_Fields old) name = Some def) (Hv : fld (s_Fields w) name ≠ VNil)
    (Hname : name ≠ SystemMetaState ∧ name ≠ SystemDescription)
    (Hdescr : fields_get (t_Fields new) SystemDescription = Some ddef)
    (Hmarkup : Type_ ddef = FSimple {| kind := KindMarkup; simple_default := dt |}) :
  (∃ newField v v', fields_get (t_Fields new) name = Some newField ∧
     ConvertToModelWithType IsURL (embedded (Type_ def)) (Type_ newField) (fld (s_Fields w) name) = Ok v ∧
     FieldDefinition_ConvertToModel IsURL newField name v = Ok v' ∧ s_Fields w' !! name = Some v') ∨
  (∃ text content, lost_value def (fld (s_Fields w) name) = Ok text ∧
     s_Fields w' !! SystemDescription = Some (MarkupContent_ToMap (NewMarkupContent content SystemMarkupMarkdown)) ∧
     Contains content (line (Label def) text) = true).
Proof.
  destruct Hname as [Hmeta Hnd]. apply ChangeWorkItemType_steps in Hc as (kept & m & HF & HD & HS & _).
  pose proof (field_diff_spec _ _ _ _ _ _ _ Hold HF Hdef Hmeta Hv) as Hk. unfold carried in Hk.
  destruct (fields_get (t_Fields new) name) as [nf|] eqn:EN.
  1: destruct (ConvertToModelWithType _ _ _ _) as [v|e|s] eqn:EC.
  { left. destruct (default_fields_spec _ _ _ _ _ Hnew HS EN Hmeta) as (v' & Hv' & E').
    unfold fld in Hv' at 1. rewrite (describe_diff_other _ _ _ _ _ _ HD Hnd), Hk in Hv'. by exists nf, v, v'. }
  all: right; unfold describe_diff in HD; rewrite bool_decide_false in HD
    by (intros E; by rewrite E in Hk);
    apply bind_ok in HD as ([c|] & _ & HD); [|done]; apply bind_ok in HD as (values & HL & [= <-]);
    destruct (lost_values_spec _ _ _ _ _ name Hlabels (sorted_keys_NoDup _) HL) as (def' & text & E1 & E2 & E3);
    [apply elem_of_sorted_keys; rewrite Hk; by eexists|];
    rewrite Hdef in E1; injection E1 as <-; unfold fld in E2 at 1; rewrite Hk in E2;
    destruct (default_fields_spec _ _ _ _ _ Hnew HS Hdescr ltac:(done)) as (v' & Hv' & E');
    rewrite fld_insert_eq in Hv'; apply (markup_stored _ _ _ _ dt Hmarkup) in Hv'; subst v';
    exists text; eexists; split_and!; [exact E2|exact E'|by apply description_text_line].
Qed.
End Change.
