(* ===== verification/WorkItemExamples.v ===== *)
(** * Work items: concrete stores

    A space with one constructible type, items created in it, and the theorems
    on work items applied to them. *)

From Stdlib Require Import ZArith Lia Ascii String SpecFloat.
From stdpp Require Import relations.
From S2P Require Import TypeFacts.
From S2P Require Export WorkItemOrder WorkItemChange.
Import Transactions.

Definition id_space : uuid := uuid_of 30.
Definition id_user : uuid := uuid_of 31.
Definition id_item (n : Z) : uuid := uuid_of (Z.to_N (1000 - n)).
Definition bug_fields (title : string) : Fields :=
  {[ "system.title" := VString title; "system.state" := VString "closed" ]}.
Definition no_text (v : gval) : string := "".
Definition no_related : related_rows :=
  {| identity_rows := ∅; user_rows := ∅; area_rows := ∅; column_rows := ∅; iteration_rows := ∅;
     codebase_rows := ∅; label_rows := ∅ |}.

Notation create_bug n := (Create any_url no_json_time no_json_struct t0 (id_item n) id_space id_bug
                            (bug_fields "crash") id_user).
Notation save_item wi := (Save any_url no_json_time no_json_struct no_text no_related t0 id_space wi id_user).
Notation place_item dir target wi :=
  (Reorder any_url no_json_time no_json_struct t0 id_space dir target wi id_user).
Notation delete_item n := (Delete no_json_time no_json_struct t0 (id_item n) id_user).
Notation run := (run_op any_url no_json_time no_json_struct no_text no_related).

Lemma ran {A} (m : wstm A) d : is_ok (m d).1 = true → ∃ a, m d = (Ok a, (m d).2).
Proof. destruct (m d) as [[a|e|p] d']; [|done..]. by exists a. Qed.
(** The state an operation leaves. *)
Definition after {A} (m : wstm A) (d : wi_db) : wi_db := (m d).2.
Lemma ran_after {A} (m : wstm A) d : is_ok (m d).1 = true → ∃ a, m d = (Ok a, after m d).
Proof. apply ran. Qed.

Definition store0 : wi_db := no_items [(id_space, id_template)] with_bug.
Definition store1 := after (create_bug 1) store0.
Definition store2 := after (create_bug 2) store1.
Definition store3 := after (create_bug 3) store2.
Definition store4 := after (create_bug 4) store3.
(** The third of four items deleted, and the second of two. *)
Definition store4_without3 := after (delete_item 3) store4.
Definition store2_without2 := after (delete_item 2) store2.

Lemma after_wf o d : in_range o → is_ok (run o d).1 = true → wf d → wf (after (run o) d).
Proof. intros Hr H. apply ran_after in H as [a H]. by eapply run_item_op_wf. Qed.
Lemma after_create_wf n d : is_ok (create_bug n d).1 = true → wf d → wf (after (create_bug n) d).
Proof. intros H Hwf. apply ran_after in H as [p H]. apply Create_effect in H as (row & H). by eapply creation_wf. Qed.
Lemma after_delete_wf n d : is_ok (delete_item n d).1 = true → wf d → wf (after (delete_item n) d).
Proof. intros H. apply ran_after in H as [p H]. by eapply Delete_wf. Qed.
Lemma store2_wf : wf store2.
Proof. do 2 (apply after_create_wf; [by vm_compute|]). apply no_items_wf. Qed.
Lemma store4_wf : wf store4.
Proof. do 2 (apply after_create_wf; [by vm_compute|]). apply store2_wf. Qed.

(** The item as it is loaded. *)
Definition zero_item : WorkItem :=
  {| w_ID := uuid_Nil; w_Number := 0; w_Type := uuid_Nil; w_Version := 0; w_SpaceID := uuid_Nil;
     w_Fields := ∅; w_relationShipsChangedAt := None |}.
Definition item (n : Z) (d : wi_db) : WorkItem :=
  match (LoadWorkItem no_json_time no_json_struct id_space n d).1 with Ok w => w | _ => zero_item end.
Lemma forall_rows (P : WorkItemStorage → bool) d : forallb P (rows d) = true → ∀ x, x ∈ rows d → P x = true.
Proof. rewrite forallb_forall. intros H x Hx. apply H. by apply list_elem_of_In. Qed.
Definition is_number (f : float64) : bool := match f with S754_nan => false | _ => true end.
Lemma numbers d : forallb (λ w, is_number (s_ExecutionOrder w)) (rows d) = true → orders_are_numbers d.
Proof. intros H w Hw E. apply (forall_rows _ _ H) in Hw. by rewrite E in Hw. Qed.

(** ** Witnesses *)

Definition commit (o : op) (d : wi_db) : wi_db := (Transactional None false true (run o) d).2.
Lemma commit_committed o d : in_range o →
  committed any_url no_json_time no_json_struct no_text no_related d (commit o d).
Proof. intros H. eapply (committed_op _ _ _ _ _ _ _ o None false true), surjective_pairing. done. Qed.
Definition create_op n := OpCreate t0 (id_item n) id_space id_bug (bug_fields "crash") id_user.
Definition two_committed := commit (OpDelete t0 (id_item 1) id_user) (commit (create_op 2) (commit (create_op 1) store0)).
Lemma committed_items_wf_witness : wf two_committed ∧ length (revs two_committed) = 3%nat.
Proof.
  split; [|by vm_compute].
  apply (committed_items_wf any_url no_json_time no_json_struct no_text no_related
           [(id_space, id_template)] with_bug).
  eapply rtc_l; [apply (commit_committed (create_op 1)); done|].
  eapply rtc_l; [apply (commit_committed (create_op 2)); done|].
  apply rtc_once. by apply (commit_committed (OpDelete t0 (id_item 1) id_user)).
Defined.
Lemma Create_number_is_new_witness :
  ∃ row, rows (after (create_bug 3) store2_without2) = rows store2_without2 ++ [row] ∧
    s_SpaceID row = id_space ∧
    ∀ w, w ∈ rows store2_without2 → s_SpaceID w = id_space → s_Number w < s_Number row.
Proof.
  destruct (ran_after (create_bug 3) store2_without2) as [p Hp]; [by vm_compute|].
  eapply Create_number_is_new, Hp. apply after_delete_wf; [by vm_compute|apply store2_wf].
Defined.
Lemma Save_no_lost_update_witness :
  let d' := after (save_item (item 1 store2)) store2 in
  let '(r, d'') := save_item (item 1 store2) d' in
  (r = Err (VersionConflictError "version conflict") ∨ ∃ e, r = Err (InternalError e)) ∧
  same_tables d' d''.
Proof.
  cbv zeta. destruct (ran_after (save_item (item 1 store2)) store2) as [p Hp]; [by vm_compute|].
  apply (Save_no_lost_update any_url no_json_time no_json_struct no_text no_related t0 t0 id_space
    (item 1 store2) (item 1 store2) id_user id_user store2 _ p store2_wf).
  - by vm_compute.
  - by split.
  - exact Hp.
Defined.
Definition placed := after (place_item DirectionBelow (Some (id_item 4)) (item 1 store4)) store4.
Definition placed_without3 :=
  after (place_item DirectionBelow (Some (id_item 4)) (item 1 store4_without3)) store4_without3.
Definition order_of (n : Z) (d : wi_db) : float64 :=
  match FindFirstItem d id_space (id_item n) with Ok o => o | _ => f_zero end.
Lemma Reorder_below_between_witness :
  ∃ new, new ∈ rows placed ∧
    s_ID new = id_item 1 ∧ SFltb (s_ExecutionOrder new) (order_of 4 store4) = true.
Proof.
  destruct (ran_after (place_item DirectionBelow (Some (id_item 4)) (item 1 store4)) store4) as [w Hw];
    [by vm_compute|].
  destruct (Reorder_below_between any_url no_json_time no_json_struct t0 id_space (id_item 4) (item 1 store4)
    id_user store4 w placed (order_of 4 store4) (id_item 3) (order_of 3 store4) store4_wf) as (new & H1 & H2 & H3 & _).
  - apply numbers. by vm_compute.
  - exact Hw.
  - by vm_compute.
  - by vm_compute.
  - intros H%(f_equal uuid_bits). by vm_compute in H.
  - by vm_compute.
  - by vm_compute.
  - exists new. split; [exact H1|]. split; [|exact H3]. rewrite H2. by vm_compute.
Defined.
(** The first of four items is placed below the fourth, after the third was deleted: it gets the order of the
    second one. *)
Lemma Reorder_below_deleted_neighbour_witness :
  ∃ new, new ∈ rows placed_without3 ∧
    s_ID new = id_item 1 ∧ s_ExecutionOrder new = order_of 2 store4.
Proof.
  destruct (ran_after (place_item DirectionBelow (Some (id_item 4)) (item 1 store4_without3)) store4_without3)
    as [w Hw]; [by vm_compute|].
  destruct (Reorder_below_deleted_neighbour any_url no_json_time no_json_struct t0 id_space (id_item 4)
    (item 1 store4_without3) id_user store4_without3 w placed_without3 (order_of 4 store4) (order_of 3 store4))
    as (new & H1 & H2 & H3).
  - apply after_delete_wf; [by vm_compute|apply store4_wf].
  - exact Hw.
  - by vm_compute.
  - by vm_compute.
  - intros x Hx Hl. 
    pose proof (forall_rows (λ x, negb (s_live x) || negb (SFeqb (s_ExecutionOrder x) (order_of 3 store4)))
      store4_without3 ltac:(by vm_compute) x Hx) as H. cbv beta in H. rewrite Hl in H. by apply negb_true_iff in H.
  - exists new. split; [exact H1|]. split; [|rewrite H3; by vm_compute]. rewrite H2. by vm_compute.
Defined.
Lemma Create_after_deleting_top_witness :
  ∃ row, rows (after (create_bug 3) store2_without2) = rows store2_without2 ++ [row] ∧
    SFeqb (s_ExecutionOrder row) orderValue = true.
Proof.
  destruct (ran_after (create_bug 3) store2_without2) as [p Hp]; [by vm_compute|].
  eapply Create_after_deleting_top; [exact Hp|by vm_compute|]. intros x Hx Hl.
  pose proof (forall_rows (λ x, negb (s_live x) || negb (SFeqb (s_ExecutionOrder x) (order_of 2 store2)))
      store2_without2 ltac:(by vm_compute) x Hx) as H. cbv beta in H. rewrite Hl in H. by apply negb_true_iff in H.
Defined.
Lemma Create_on_top_witness :
  ∃ row, rows store3 = rows store2 ++ [row] ∧
    ∀ x, x ∈ rows store2 → s_SpaceID x = id_space → SFltb (s_ExecutionOrder x) (s_ExecutionOrder row) = true.
Proof.
  destruct (ran_after (create_bug 3) store2) as [p Hp]; [by vm_compute|].
  eapply Create_on_top; [exact Hp|apply numbers; by vm_compute|..].
  - apply (forall_rows s_live). by vm_compute.
  - apply (forall_rows (λ w, SFltb (s_ExecutionOrder w) (f_add (s_ExecutionOrder w) orderValue))). by vm_compute.
Defined.

(** A field the new type does not have goes into the description. *)
Definition text_of (v : gval) : string := match v with VString s => s | _ => "" end.
Definition description_field : FieldDefinition :=
  {| Required := false; ReadOnly := false; Label := "Description"; Description := "";
     Type_ := FSimple {| kind := KindMarkup; simple_default := VNil |} |}.
Definition story_model := model_of id_task id_planner "story" [(SystemDescription, description_field)].
Definition store_types : wi_db := no_items [(id_space, id_template)] (create_model story_model with_bug).
Definition type_row (id : uuid) : WorkItemType :=
  default planner_model (List.find (λ t, bool_decide (t_ID t = id)) (wit_rows (tdb (types store_types)))).
Definition a_bug : WorkItemStorage :=
  s_with zero_row (s_Lifecycle zero_row) id_bug 0 (bug_fields "crash") f_zero.
Definition as_story : WorkItemStorage :=
  match ChangeWorkItemType any_url text_of no_related store_types a_bug (type_row id_bug) (type_row id_task) id_space
  with Ok w => w | _ => zero_row end.
Lemma two_labels : labels_differ (t_Fields (type_row id_bug)).
Proof.
  intros n1 n2 d1 d2. unfold type_row. vm_compute (t_Fields _). rewrite !fields_get_cons.
  repeat case_match; intros; simplify_eq;
    repeat match goal with H : String.eqb _ _ = true |- _ => apply String.eqb_eq in H end; congruence.
Qed.
Lemma ChangeWorkItemType_loses_nothing_witness :
  ∃ content, s_Fields as_story !! SystemDescription
      = Some (MarkupContent_ToMap (NewMarkupContent content SystemMarkupMarkdown)) ∧
    Contains content (line "State" "closed") = true.
Proof.
  destruct (ChangeWorkItemType_loses_nothing any_url text_of no_related store_types a_bug (type_row id_bug)
    (type_row id_task) id_space as_story "system.state" state_field description_field VNil)
    as [(nf & v & v' & H & _)|(text & content & H1 & H2 & H3)].
  - by vm_compute.
  - apply (bool_decide_unpack _). by vm_compute.
  - apply (bool_decide_unpack _). by vm_compute.
  - apply two_labels.
  - by vm_compute.
  - by vm_compute.
  - by split.
  - by vm_compute.
  - by vm_compute.
  - by vm_compute in H.
  - exists content. split; [exact H2|]. vm_compute in H1. injection H1 as <-. exact H3.
Defined.
