(* ===== verification/Actions.v ===== *)
(** * Actions on changes of work items

    [actions/actions.go], [actions/rules/], [actions/change/changeset.go] and
    [ChangeSet] of [workitem/workitem.go]: what changed between two states of an
    item, and the rules that are run on it.  A work item is passed by value but
    its map of fields is shared with the caller, so an action also leaves a
    state of that map.  The configuration of a rule is decoded by
    [encoding/json], a parameter; ranges over maps take the order of a list. *)

From Stdlib Require Import ZArith Lia Ascii String SpecFloat.
From S2P Require Import TypeFacts.
From S2P Require Export WorkItemInvariant WorkItemExamples.
Import Transactions.

(** ** Change sets *)

Record Change := { AttributeName : string; NewValue : gval; OldValue : gval }.

(** The values of the interface [change.Detector]: a work item, or a pointer to
    one, whose method set holds [ChangeSet] too.  A nil interface is [None]. *)
Inductive Detector := DWorkItem (wi : WorkItem) | DPointer (wi : WorkItem).

Definition SystemBoardcolumns : string := "system.boardcolumns".
Definition state_of (wi : WorkItem) : gval := fld (w_Fields wi) SystemState.
Definition columns_of (wi : WorkItem) : gval := fld (w_Fields wi) SystemBoardcolumns.
(** [v.([]interface{})] *)
Definition assert_slice (v : gval) : res (list gval) :=
  match v with VSlice l => Ok l | VNilSlice => Ok [] | _ => Panic "interface conversion" end.
Definition is_string_value (v : gval) : option string := match v with VString s => Some s | _ => None end.
Definition column_names (l : list gval) : res (list string) :=
  match mapM is_string_value l with
  | Some s => Ok s
  | None => Err (Plain "Boardcolumn slice values are not of type string")
  end.

(** Whether the columns differ.  The assertions before it make the error for a
    value that is no slice unreachable. *)
Definition columns_changed (this older : gval) : res bool :=
  if is_nil_value this && is_nil_value older then Ok false
  else if is_nil_value this || is_nil_value older then Ok true
  else
    bcThis ← assert_slice this;
    bcOlder ← assert_slice older;
    if bool_decide (bcThis = []) || bool_decide (bcOlder = [])
    then Ok (negb (bool_decide (bcThis = []) && bool_decide (bcOlder = [])))
    else if negb (Nat.eqb (length bcThis) (length bcOlder)) then Ok true
    else
      thisCopyStr ← column_names bcThis;
      olderCopyStr ← column_names bcOlder;
      Ok (negb (bool_decide (merge_sort string_le thisCopyStr = merge_sort string_le olderCopyStr))).

Definition ChangeSet (wi : WorkItem) (older : option Detector) : res (list Change) :=
  match older with
  | None =>
      let changeSet := [{| AttributeName := SystemState; NewValue := state_of wi; OldValue := VNil |}] in
      if is_nil_value (columns_of wi) then Ok changeSet
      else
        l ← assert_slice (columns_of wi);
        Ok (if bool_decide (l = []) then changeSet
            else changeSet ++
              [{| AttributeName := SystemBoardcolumns; NewValue := columns_of wi; OldValue := VNil |}])
  | Some (DPointer _) => Err (Plain "Other entity is not a WorkItem: ")
  | Some (DWorkItem olderWorkItem) =>
      if negb (bool_decide (w_ID wi = w_ID olderWorkItem)) then Err (Plain "Other entity has not the same ID: ")
      else
        same ← iface_eq (state_of wi) (state_of olderWorkItem);
        let changes := if same : bool then [] else
          [{| AttributeName := SystemState; NewValue := state_of wi; OldValue := state_of olderWorkItem |}] in
        changed ← columns_changed (columns_of wi) (columns_of olderWorkItem);
        Ok (if changed : bool
            then changes ++ [{| AttributeName := SystemBoardcolumns; NewValue := columns_of wi;
                                OldValue := columns_of olderWorkItem |}]
            else changes)
  end.
Definition Detector_ChangeSet (this : Detector) (older : option Detector) : res (list Change) :=
  match this with DWorkItem wi | DPointer wi => ChangeSet wi older end.

Definition ActionKeyNil : string := "Nil".
Definition ActionKeyFieldSet : string := "FieldSet".

(** The fields of an action, of which [nil] is the only thing that matters. *)
Record ActionFieldSet := { act_Db : bool; act_Ctx : bool; act_UserID : option uuid }.

Section Actions.
Context {HO : UuidOps} (IsURL : string → bool).
Context (time_json : Z → string) (struct_json : string → option gval).
Context (Sprint : gval → string) (related : related_rows).
(** [json.Unmarshal] into a map: the members in the order of the range. *)
Context (unmarshal : string → option (list (string * gval))).
Notation SaveItem := (Save IsURL time_json struct_json Sprint related).

(** The tables, and the map of fields the caller of an action shares with it. *)
Notation actm A := (wi_db * Fields → res A * (wi_db * Fields)).
Definition on_db {A} (m : wstm A) : actm A := λ e, let '(r, d) := m e.1 in (r, (d, e.2)).
Definition on_fields {A} (m : Fields → res A * Fields) : actm A := λ e, let '(r, f) := m e.2 in (r, (e.1, f)).

(** ** The rule FieldSet *)

Definition storeWorkItem (now : Time) (act : ActionFieldSet) (wi : WorkItem) : wstm WorkItem :=
  if negb (act_Ctx act) then s_fail (Plain "context is nil")
  else if negb (act_Db act) then s_fail (Plain "database is nil")
  else match act_UserID act with
       | None => s_fail (Plain "userID is nil")
       | Some user =>
           transact (
             let* p := s_map (wrapf "error updating work item") (SaveItem now (w_SpaceID wi) wi user) in
             s_ret p.1)
       end.

Fixpoint set_fields (wit : WorkItemType) (rawType : list (string * gval)) (actionChanges : list Change)
    : Fields → res (list Change) * Fields :=
  match rawType with
  | [] => s_ret actionChanges
  | (k, v) :: rawType =>
      let* old := s_query (λ f, Ok (fld f k)) in
      let* same := s_query (λ _, iface_eq old v) in
      if same : bool then set_fields wit rawType actionChanges
      else
        match fields_get (t_Fields wit) k with
        | None => s_fail (Plain "unknown field name: ")
        | Some fieldType =>
            let* newValue := s_query (λ _, wrapf "error converting new value to model"
                                             (ConvertToModel IsURL (Type_ fieldType) v)) in
            let* _ := (λ f, (Ok tt, <[k := newValue]> f)) in
            set_fields wit rawType
              (actionChanges ++ [{| AttributeName := k; NewValue := v; OldValue := old |}])
        end
  end.
Definition with_fields (wi : WorkItem) (f : Fields) : WorkItem :=
  {| w_ID := w_ID wi; w_Number := w_Number wi; w_Type := w_Type wi; w_Version := w_Version wi;
     w_SpaceID := w_SpaceID wi; w_Fields := f; w_relationShipsChangedAt := w_relationShipsChangedAt wi |}.
Definition has_keys (rawType : list (string * gval)) (w : WorkItem) : bool :=
  forallb (λ p, bool_decide (is_Some (w_Fields w !! p.1))) rawType.

(** The fields are those of the shared map, not those of the argument. *)
Definition FieldSet_OnChange (now : Time) (act : ActionFieldSet) (newContext : option Detector)
    (contextChanges : list Change) (configuration : string) (actionChanges : list Change)
    : actm (option Detector * list Change) :=
  match newContext with
  | None => s_query (λ _, Panic "invalid memory address or nil pointer dereference")
  | Some (DPointer _) => s_fail (Plain "given context is not a WorkItem: ")
  | Some (DWorkItem wiContext) =>
      match unmarshal configuration with
      | None => s_fail (Wrapped "failed to unmarshall from action configuration to a map: "
                          (Plain "json: cannot unmarshal"))
      | Some rawType =>
          if negb (act_Db act) then s_query (λ _, Panic "invalid memory address or nil pointer dereference")
          else
            let* wit := s_map (wrapf "error loading work item type: ")
                          (on_db (on_types (Load time_json struct_json (w_Type wiContext)))) in
            let* actionChanges := on_fields (set_fields wit rawType actionChanges) in
            let* fields := s_query (λ e, Ok e.2) in
            let* result := on_db (storeWorkItem now act (with_fields wiContext fields)) in
            let* _ := s_query (λ _, if has_keys rawType result then Ok tt
                                    else Err (Plain "field attribute unknown: ")) in
            s_ret (Some (DWorkItem result), actionChanges)
      end
  end.

(** ** The rule Nil *)

Definition Nil_OnChange (newContext : option Detector) (contextChanges : list Change) (configuration : string)
    (actionChanges : list Change) : actm (option Detector * list Change) :=
  s_ret (newContext, []).

(** ** Running rules *)

(** The keys of the map of configurations are distinct, so the context of the
    caller reaches at most one rule that writes to it. *)
Fixpoint run_actions (now : Time) (db ctx : bool) (userID : uuid) (newContext : option Detector)
    (contextChanges : list Change) (actionConfigs : list (string * string)) (actionChanges : list Change)
    : actm (option Detector * list Change) :=
  match actionConfigs with
  | [] => s_ret (newContext, actionChanges)
  | (actionKey, actionConfig) :: actionConfigs =>
      let* r := (if String.eqb actionKey ActionKeyNil
                 then Nil_OnChange newContext contextChanges actionConfig actionChanges
                 else if String.eqb actionKey ActionKeyFieldSet
                 then FieldSet_OnChange now {| act_Db := db; act_Ctx := ctx; act_UserID := Some userID |}
                        newContext contextChanges actionConfig actionChanges
                 else s_fail (Plain "action key is unknown")) in
      run_actions now db ctx userID r.1 contextChanges actionConfigs r.2
  end.
Definition ExecuteActionsByChangeset (now : Time) (db ctx : bool) (userID : uuid)
    (newContext : option Detector) (contextChanges : list Change) (actionConfigs : list (string * string))
    : actm (option Detector * list Change) :=
  run_actions now db ctx userID newContext contextChanges actionConfigs [].
Definition ExecuteActionsByOldNew (now : Time) (db ctx : bool) (userID : uuid)
    (oldContext newContext : option Detector) (actionConfigList : list (string * string))
    : actm (option Detector * list Change) :=
  match oldContext, newContext with
  | Some old, Some _ =>
      let* contextChanges := s_query (λ _, Detector_ChangeSet old newContext) in
      ExecuteActionsByChangeset now db ctx userID newContext contextChanges actionConfigList
  | _, _ => s_fail (Plain "execute actions called with nil entities")
  end.
End Actions.

(** * What actions do to work items

    Change sets name exactly the attributes that differ; the rule FieldSet makes
    one save or none, with one refusal that comes after the save; the rule Nil
    forgets the changes of the rules before it. *)

(** ** Change sets *)

(** The columns of an item: none, or the names of a list. *)
Definition board_columns (v : gval) (c : option (list string)) : Prop :=
  match c with None => v = VNil | Some names => v = VSlice (map VString names) end.
Definition same_columns : relation (option (list string)) := option_Forall2 Permutation.
#[export] Instance same_columns_equiv : Equivalence same_columns.
Proof. unfold same_columns. apply _. Qed.

Lemma column_names_strings l : column_names (map VString l) = Ok l.
Proof.
  unfold column_names. assert (mapM is_string_value (map VString l) = Some l) as ->; [|done].
  induction l as [|s l IH]; [done|]. simpl in *. by rewrite IH.
Qed.
Lemma columns_changed_spec u v a b : board_columns u a → board_columns v b →
  ∃ c, columns_changed u v = Ok c ∧ (c = false ↔ same_columns a b).
Proof.
  unfold same_columns. destruct a as [a|], b as [b|]; intros -> ->; unfold columns_changed; cbn [is_nil_value andb orb].
  2,3: eexists; split; [done|]; split; [done|inversion 1].
  2: eexists; split; [done|]; split; [constructor|done].
  cbn [assert_slice mbind res_bind]. rewrite !column_names_strings. cbn [mbind res_bind]. rewrite !length_map.
  destruct (bool_decide (map VString a = [])) eqn:Ea; [|destruct (bool_decide (map VString b = [])) eqn:Eb].
  - destruct a; [|by apply bool_decide_eq_true in Ea]. eexists; split; [done|]. destruct b; simpl.
    + split; [intros _; by constructor|done].
    + split; [done|]. inversion 1 as [? ? HP|]; subst. by apply Permutation_nil_cons in HP.
  - destruct b; [|by apply bool_decide_eq_true in Eb]. destruct a; [by apply bool_decide_eq_false in Ea|].
    eexists; split; [done|]; split; [done|]. inversion 1 as [? ? HP|]; subst. symmetry in HP. by apply Permutation_nil_cons in HP.
  - simpl. destruct (Nat.eqb_spec (length a) (length b)); simpl; eexists; (split; [done|]).
    + rewrite negb_false_iff, bool_decide_eq_true, merge_sort_strings. split; [by constructor|by inversion 1].
    + split; [done|]. inversion 1 as [? ? HP|]; subst. by apply Permutation_length in HP.
Qed.

(** The change set of two states of an item names the state when it differs and the columns when they differ as
    multisets, no columns at all counting as different from an empty list of them, and nothing else. *)
Theorem ChangeSet_spec wi o a b same (Hid : w_ID wi = w_ID o)
    (Hs : iface_eq (state_of wi) (state_of o) = Ok same)
    (Ha : board_columns (columns_of wi) a) (Hb : board_columns (columns_of o) b) :
  ∃ cs, ChangeSet wi (Some (DWorkItem o)) = Ok cs ∧ ∀ c, c ∈ cs ↔
    same = false ∧ c = {| AttributeName := SystemState; NewValue := state_of wi; OldValue := state_of o |} ∨
    ¬ same_columns a b ∧
      c = {| AttributeName := SystemBoardcolumns; NewValue := columns_of wi; OldValue := columns_of o |}.
Proof.
  destruct (columns_changed_spec _ _ a b Ha Hb) as (ch & Hch & Hsc).
  unfold ChangeSet. rewrite bool_decide_true by done. cbn [negb]. rewrite Hs, Hch. cbn [mbind res_bind].
  eexists. split; [done|]. intros c. destruct same, ch; set_solver.
Qed.

Section FieldSet.
Context {HO : UuidOps} (IsURL : string → bool).
Context (time_json : Z → string) (struct_json : string → option gval).
Context (Sprint : gval → string) (related : related_rows).
Context (unmarshal : string → option (list (string * gval))).
Notation FieldSet := (FieldSet_OnChange IsURL time_json struct_json Sprint related unmarshal).
Notation run_actions := (run_actions IsURL time_json struct_json Sprint related unmarshal).

(** ** The loop over the configured fields *)

Definition set_change (k : string) (v old : gval) : Change :=
  {| AttributeName := k; NewValue := v; OldValue := old |}.
(** The changes a configuration asks for on some fields. *)
Definition asked (raw : list (string * gval)) (f : Fields) (c : Change) : Prop :=
  ∃ k v, (k, v) ∈ raw ∧ iface_eq (fld f k) v = Ok false ∧ c = set_change k v (fld f k).
Lemma fld_elsewhere f k k' v : k' ≠ k → fld (<[k := v]> f) k' = fld f k'.
Proof. intros H. unfold fld. by rewrite lookup_insert_ne. Qed.
Lemma asked_elsewhere raw f k v c : k ∉ raw.*1 → asked raw (<[k := v]> f) c ↔ asked raw f c.
Proof.
  intros Hk. unfold asked. split; intros (k' & v' & Hin & H); exists k', v'.
  all: assert (k' ≠ k) by (intros ->; apply Hk, list_elem_of_fmap; by exists (k, v')).
  all: by rewrite fld_elsewhere in *.
Qed.
Lemma set_fields_ok wit raw : NoDup raw.*1 → ∀ cs f cs' f', set_fields IsURL wit raw cs f = (Ok cs', f') →
  ∃ diff, cs' = cs ++ diff ∧ ∀ c, c ∈ diff ↔ asked raw f c.
Proof.
  intros Hn. induction raw as [|[k v] raw IH]; intros cs f cs' f' H; cbn [set_fields] in H.
  - injection H as <- _. exists []. rewrite app_nil_r. split; [done|]. intros c. split; [by intros ?%elem_of_nil|].
    by intros (? & ? & ?%elem_of_nil & _).
  - apply NoDup_cons in Hn as [Hk Hn]. stm_inv. simplify_eq.
    match goal with H : (if ?b then _ else _) _ = _, Hb : iface_eq _ _ = Ok ?b |- _ => destruct b; rename H into HS end.
    + destruct (IH Hn _ _ _ _ HS) as (diff & -> & Hd). exists diff. split; [done|]. intros c. rewrite Hd.
      unfold asked. split; intros (k' & v' & Hin & E & Hc); exists k', v'; [by split_and!; [right|..]|].
      apply elem_of_cons in Hin as [[= -> ->]|Hin]; [congruence|done].
    + destruct (fields_get _ k) as [def|]; [|done]. stm_inv. simplify_eq/=.
      match goal with H : set_fields _ _ _ _ _ = _ |- _ => destruct (IH Hn _ _ _ _ H) as (diff & -> & Hd) end.
      exists (set_change k v (fld f k) :: diff). rewrite <- app_assoc. split; [done|]. intros c.
      rewrite elem_of_cons, Hd, asked_elsewhere by done. unfold asked. split.
      * intros [->|(k' & v' & Hin & E & Hc)]; [exists k, v|exists k', v']; (split; [|done]); [by left|by right].
      * intros (k' & v' & [[= -> ->]|Hin]%elem_of_cons & E & Hc); [by left|right; by exists k', v'].
Qed.
Lemma storeWorkItem_cases now act wi d r d' :
  storeWorkItem IsURL time_json struct_json Sprint related now act wi d = (r, d') →
  match r with
  | Ok w => ∃ user old new, act_UserID act = Some user ∧ update now user (w_Version wi) d d' old new ∧
              s_Number old = w_Number wi ∧ s_SpaceID old = w_SpaceID wi
  | _ => d' = d
  end.
Proof.
  unfold storeWorkItem. destruct (act_Ctx act), (act_Db act); cbn [negb]; try (by intros [= <- <-]).
  destruct (act_UserID act) as [user|]; [|by intros [= <- <-]]. intros H.
  destruct r as [w|e|m].
  - rewrite transact_ok in H. stm_inv. simplify_eq.
    match goal with H : Save _ _ _ _ _ _ _ _ _ _ = _ |- _ => apply Save_effect in H as (old & new & H) end.
    by exists user, old, new.
  - unfold transact in H. by destruct (s_bind _ _ d) as [[?|?|?] ?]; simplify_eq.
  - unfold transact in H. by destruct (s_bind _ _ d) as [[?|?|?] ?]; simplify_eq.
Qed.

(** ** One run of the rule *)

Lemma on_db_eq {A} (m : wstm A) d f r e : on_db m (d, f) = (r, e) → ∃ d', m d = (r, d') ∧ e = (d', f).
Proof. unfold on_db. cbn [fst snd]. destruct (m d) as [r' d']. intros [= <- <-]. by exists d'. Qed.
Lemma on_fields_eq {A} (m : Fields → res A * Fields) d f r e :
  on_fields m (d, f) = (r, e) → ∃ f', m f = (r, f') ∧ e = (d, f').
Proof. unfold on_fields. cbn [fst snd]. destruct (m f) as [r' f']. intros [= <- <-]. by exists f'. Qed.

(** The item saved, with the version it was read at. *)
Definition saved_once (now : Time) (act : ActionFieldSet) (wi : WorkItem) (d d' : wi_db) : Prop :=
  ∃ user old new, act_UserID act = Some user ∧ update now user (w_Version wi) d d' old new ∧
    s_Number old = w_Number wi ∧ s_SpaceID old = w_SpaceID wi.

(** The part after the type is loaded. *)
Lemma FieldSet_tail now act wi wit raw prior d f (Hn : NoDup raw.*1) r d' f' :
  (let* changes := on_fields (set_fields IsURL wit raw prior) in
   let* fields := s_query (λ e, Ok e.2) in
   let* result := on_db (storeWorkItem IsURL time_json struct_json Sprint related now act (with_fields wi fields)) in
   let* _ := s_query (λ _, if has_keys raw result then Ok tt else Err (Plain "field attribute unknown: ")) in
   s_ret (Some (DWorkItem result), changes)) (d, f) = (r, (d', f')) →
  match r with
  | Ok (context, changes) => saved_once now act wi d d' ∧
      (∃ diff, changes = prior ++ diff ∧ ∀ c, c ∈ diff ↔ asked raw f c) ∧
      ∃ w, context = Some (DWorkItem w) ∧ ∀ k v, (k, v) ∈ raw → is_Some (w_Fields w !! k)
  | Err e => d' = d ∨ e = Plain "field attribute unknown: " ∧ saved_once now act wi d d'
  | Panic _ => d' = d
  end.
Proof.
  unfold s_bind at 1. destruct (on_fields _ _) as [rf e1] eqn:E1. apply on_fields_eq in E1 as (f1 & E1 & ->).
  destruct rf as [changes|x|m]; [|intros [= <- <- <-]; by try left..].
  apply set_fields_ok in E1; [|done]. unfold s_bind at 1, s_query at 1. unfold s_bind at 1. cbn [snd].
  destruct (on_db _ _) as [rs e2] eqn:E2. apply on_db_eq in E2 as (d2 & E2 & ->).
  apply storeWorkItem_cases in E2. destruct rs as [w|x|m]; [|intros [= <- <- <-]; by try left..].
  change (saved_once now act wi d d2) in E2. unfold s_bind, s_query.
  destruct (has_keys raw w) eqn:Ek; intros [= <- <- <-]; [|by right].
  split; [done|]. split; [done|]. exists w. split; [done|]. intros k v Hk.
  unfold has_keys in Ek. rewrite forallb_forall in Ek. specialize (Ek (k, v)). cbn [fst] in Ek.
  apply list_elem_of_In, Ek in Hk. by apply bool_decide_eq_true in Hk.
Qed.

(** A run of the rule FieldSet that succeeds saves the item once, on the version it was read at, appends exactly the
    changes its configuration asks for and answers with an item that has every configured field; a run that fails
    leaves the tables alone, unless it fails for a field missing from the item it has already saved. *)
Theorem FieldSet_one_save now act wi contextChanges conf raw prior d f r d' f'
    (Hraw : unmarshal conf = Some raw) (Hn : NoDup raw.*1)
    (H : FieldSet now act (Some (DWorkItem wi)) contextChanges conf prior (d, f) = (r, (d', f'))) :
  match r with
  | Ok (context, changes) => ∃ d1, same_tables d d1 ∧ saved_once now act wi d1 d' ∧
      (∃ diff, changes = prior ++ diff ∧ ∀ c, c ∈ diff ↔ asked raw f c) ∧
      ∃ w, context = Some (DWorkItem w) ∧ ∀ k v, (k, v) ∈ raw → is_Some (w_Fields w !! k)
  | Err e => same_tables d d' ∨
      e = Plain "field attribute unknown: " ∧ ∃ d1, same_tables d d1 ∧ saved_once now act wi d1 d'
  | Panic _ => same_tables d d'
  end.
Proof.
  unfold FieldSet_OnChange in H. rewrite Hraw in H. destruct (act_Db act); cbn [negb] in H.
  2: by injection H as <- <- <-.
  unfold s_bind at 1, s_map at 1 in H. destruct (on_db _ _) as [rt e1] eqn:E1.
  apply on_db_eq in E1 as (d1 & E1 & ->). apply on_types_same in E1.
  destruct rt as [wit|x|m]; cbn [wrapf] in H; [|injection H as <- <- <-; by try left..].
  apply FieldSet_tail in H; [|done]. destruct r as [[context changes]|x|m].
  - exists d1. by split_and!; try apply H.
  - destruct H as [->|[-> H]]; [by left|]. right. split; [done|]. by exists d1.
  - by rewrite H.
Qed.

(** ** The order of the rules *)

(** The rules run in the order of a range over a map: when Nil comes after FieldSet the changes FieldSet made are
    not reported, when it comes before they are. *)
Theorem Nil_forgets_changes now db ctx user w cc cs cn e r e'
    (H : run_actions now db ctx user w cc [(ActionKeyFieldSet, cs)] [] e = (Ok r, e')) :
  run_actions now db ctx user w cc [(ActionKeyFieldSet, cs); (ActionKeyNil, cn)] [] e = (Ok (r.1, []), e') ∧
  run_actions now db ctx user w cc [(ActionKeyNil, cn); (ActionKeyFieldSet, cs)] [] e = (Ok r, e').
Proof.
  cbn in H |- *. unfold s_bind in H |- *. cbn. destruct (FieldSet _ _ _ _ _ _ e) as [[[c l]|x|m] e1]; [|done..].
  injection H as <- <-. done.
Qed.
End FieldSet.

(** ** Concrete runs *)

Definition configurations (s : string) : option (list (string * gval)) :=
  if String.eqb s "reopen" then Some [("system.state", VString "open")]
  else if String.eqb s "ghost" then Some [("nosuch", VNil)]
  else None.
Definition full_action : ActionFieldSet := {| act_Db := true; act_Ctx := true; act_UserID := Some id_user |}.
Definition item1 : WorkItem := item 1 store1.
Notation field_set conf := (FieldSet_OnChange any_url no_json_time no_json_struct no_text no_related configurations
  t0 full_action (Some (DWorkItem item1)) [] conf [] (store1, w_Fields item1)).
Notation rules l := (run_actions any_url no_json_time no_json_struct no_text no_related configurations
  t0 true true id_user (Some (DWorkItem item1)) [] l [] (store1, w_Fields item1)).

(** A configured null for a field no type has: the rule fails after it saved the item. *)
Theorem FieldSet_saves_and_fails :
  (field_set "ghost").1 = Err (Plain "field attribute unknown: ") ∧
  map s_Version (rows store1) = [0] ∧ map s_Version (rows (field_set "ghost").2.1) = [1].
Proof. split_and!; by vm_compute. Qed.

Definition one_change (r : res (option Detector * list Change)) : bool :=
  match r with Ok (_, cs) => Nat.eqb (length cs) 1 | _ => false end.
Lemma FieldSet_one_save_witness :
  let '(r, (d', _)) := field_set "reopen" in
  ∃ c cs, r = Ok (c, cs) ∧ length cs = 1%nat ∧ ∃ d1, same_tables store1 d1 ∧ saved_once t0 full_action item1 d1 d'.
Proof.
  assert (one_change (field_set "reopen").1 = true) as HL by (vm_compute; reflexivity).
  destruct (field_set "reopen") as [[[c cs]|e|m] [d' f']] eqn:E; [|done..].
  exists c, cs. split; [done|]. split; [by apply Nat.eqb_eq|].
  pose proof (FieldSet_one_save any_url no_json_time no_json_struct no_text no_related configurations t0 full_action item1
    [] "reopen" [("system.state", VString "open")] [] store1 (w_Fields item1) (Ok (c, cs)) d' f') as H.
  destruct H as (d1 & H1 & H2 & _); [done|apply NoDup_singleton|exact E|]. exists d1. exact (conj H1 H2).
Defined.
Lemma Nil_forgets_changes_witness :
  (∃ c, (rules [(ActionKeyFieldSet, "reopen"); (ActionKeyNil, "")]).1 = Ok (c, [])) ∧
  ∃ c ch, (rules [(ActionKeyNil, ""); (ActionKeyFieldSet, "reopen")]).1 = Ok (c, [ch]).
Proof.
  assert (one_change (rules [(ActionKeyFieldSet, "reopen")]).1 = true) as HL by (vm_compute; reflexivity).
  destruct (rules [(ActionKeyFieldSet, "reopen")]) as [[[c [|ch [|]]]|e|m] e'] eqn:E; [done| |done..].
  destruct (Nil_forgets_changes any_url no_json_time no_json_struct no_text no_related configurations t0 true true id_user
    (Some (DWorkItem item1)) [] "reopen" "" _ _ _ E) as [H1 H2].
  rewrite H1, H2. split; [by exists c|by exists c, ch].
Defined.
Definition on_columns (names : list string) : WorkItem :=
  with_fields item1 (<[SystemBoardcolumns := VSlice (map VString names)]> (w_Fields item1)).
Lemma ChangeSet_spec_witness :
  ∃ cs, ChangeSet (on_columns ["b"; "a"]) (Some (DWorkItem (on_columns ["a"; "b"]))) = Ok cs ∧ ∀ c, c ∉ cs.
Proof.
  destruct (ChangeSet_spec (on_columns ["b"; "a"]) (on_columns ["a"; "b"]) (Some ["b"; "a"]) (Some ["a"; "b"]) true)
    as (cs & H & Hc); [done|by vm_compute|by vm_compute|by vm_compute|].
  exists cs. split; [done|]. intros c [[? _]|[Hn _]]%Hc; [done|]. apply Hn. constructor. apply Permutation_swap.
Defined.
