(* ===== verification/Boards.v ===== *)
(** * Groups of work item types and boards

    [workitem/typegroup.go], [workitem/typegroup_repository.go],
    [workitem/board.go] and [workitem/board_repository.go]: both are rows of a
    space template with an ordered list of rows that belong to them. *)

From Stdlib Require Import ZArith Lia Ascii String.
From S2P Require Export Spaces.

(** ** Rows that belong to another row *)

Section Members.
Context {M : Type} {HR : Row M} (owner : M → uuid) (position : M → Z).

(** One insert after the other; what was inserted before a failure stays. *)
Fixpoint insert_all (cs : list (constraint M)) (now : Time) (l t : list M) : option violation * list M :=
  match l with
  | [] => (None, t)
  | m :: l => match t_insert cs now m t with
              | inl v => (Some v, t)
              | inr (_, t) => insert_all cs now l t
              end
  end.
Definition position_le (a b : M) : Prop := position a ≤ position b.
#[export] Instance position_le_dec a b : Decision (position_le a b).
Proof. unfold position_le. apply _. Defined.
Definition members_of (id : uuid) (t : list M) : list M :=
  merge_sort position_le (t_where (λ m, bool_decide (owner m = id)) t).
End Members.

(** ** Type groups *)

Definition BucketPortfolio : string := "portfolio".
Definition BucketRequirement : string := "requirement".
Definition BucketIteration : string := "iteration".

Record WorkItemTypeGroup := {
  tg_Lifecycle : Lifecycle;
  tg_ID : uuid;
  tg_SpaceTemplateID : uuid;
  Bucket : string;
  tg_Name : string;
  tg_Description : option string;
  tg_Icon : string;
  tg_Position : Z;
  TypeList : list uuid;
}.
Definition tg_with (g : WorkItemTypeGroup) (lc : Lifecycle) (ID : uuid) (types : list uuid) : WorkItemTypeGroup :=
  {| tg_Lifecycle := lc; tg_ID := ID; tg_SpaceTemplateID := tg_SpaceTemplateID g; Bucket := Bucket g;
     tg_Name := tg_Name g; tg_Description := tg_Description g; tg_Icon := tg_Icon g; tg_Position := tg_Position g;
     TypeList := types |}.
#[export] Instance WorkItemTypeGroup_Row : Row WorkItemTypeGroup :=
  {| row_ID := tg_ID; row_life := tg_Lifecycle; with_life := λ lc g, tg_with g lc (tg_ID g) (TypeList g) |}.
#[export] Instance WorkItemTypeGroup_RowLaws : RowLaws WorkItemTypeGroup.
Proof. by split. Qed.

(** Equal checks the lists element by element after their lengths. *)
Definition WorkItemTypeGroup_Equal (g other : WorkItemTypeGroup) : bool :=
  if negb (bool_decide (tg_ID g = tg_ID other)) then false
  else if negb (bool_decide (tg_SpaceTemplateID g = tg_SpaceTemplateID other)) then false
  else if negb (Lifecycle_Equal (tg_Lifecycle g) (tg_Lifecycle other)) then false
  else if negb (String.eqb (tg_Name g) (tg_Name other)) then false
  else if negb (bool_decide (tg_Description g = tg_Description other)) then false
  else if negb (String.eqb (Bucket g) (Bucket other)) then false
  else if negb (String.eqb (tg_Icon g) (tg_Icon other)) then false
  else if negb (tg_Position g =? tg_Position other) then false
  else if negb (Nat.eqb (length (TypeList g)) (length (TypeList other))) then false
  else forallb (λ p, bool_decide (p.1 = p.2)) (zip (TypeList g) (TypeList other)).
Definition WorkItemTypeGroup_EqualValue (g other : WorkItemTypeGroup) : bool :=
  WorkItemTypeGroup_Equal (tg_with g (tg_Lifecycle other) (tg_ID g) (TypeList g)) other.

Record typeGroupMember := {
  gm_Lifecycle : Lifecycle;
  gm_ID : uuid;
  TypeGroupID : uuid;
  WorkItemTypeID : uuid;
  gm_Position : Z;
}.
#[export] Instance typeGroupMember_Row : Row typeGroupMember :=
  {| row_ID := gm_ID; row_life := gm_Lifecycle;
     with_life := λ lc m, {| gm_Lifecycle := lc; gm_ID := gm_ID m; TypeGroupID := TypeGroupID m;
                             WorkItemTypeID := WorkItemTypeID m; gm_Position := gm_Position m |} |}.
#[export] Instance typeGroupMember_RowLaws : RowLaws typeGroupMember.
Proof. by split. Qed.

(** The tables, with the templates and types they refer to. *)
Record group_db := {
  groups : list WorkItemTypeGroup;
  members : list typeGroupMember;
  gr_templates : list SpaceTemplate;
  gr_types : list uuid;
}.
Definition set_groups (t : list WorkItemTypeGroup) (d : group_db) : group_db :=
  {| groups := t; members := members d; gr_templates := gr_templates d; gr_types := gr_types d |}.
Definition set_members (t : list typeGroupMember) (d : group_db) : group_db :=
  {| groups := groups d; members := t; gr_templates := gr_templates d; gr_types := gr_types d |}.
Notation grm A := (group_db → res A * group_db).

Definition group_constraints (d : group_db) : list (constraint WorkItemTypeGroup) :=
  [check "type_group_bucket_enum" (λ g, existsb (String.eqb (Bucket g)) [BucketPortfolio; BucketRequirement; BucketIteration]);
   check "work_item_type_groups_name_check" (λ g, negb (String.eqb (tg_Name g) ""));
   primary_key "work_item_type_groups_pkey";
   unique_index "work_item_type_groups_name_uidx" (λ g, (tg_Name g, tg_SpaceTemplateID g));
   foreign_key "work_item_type_groups_space_template_id_fkey"
     (λ g, existsb (has_ID (tg_SpaceTemplateID g)) (gr_templates d))].
Definition member_constraints (d : group_db) : list (constraint typeGroupMember) :=
  [primary_key "work_item_type_group_members_pkey";
   unique_index "work_item_type_group_members_uidx" (λ m, (TypeGroupID m, WorkItemTypeID m));
   foreign_key "work_item_type_group_members_type_group_id_fkey" (λ m, existsb (has_ID (TypeGroupID m)) (groups d));
   foreign_key "work_item_type_group_members_work_item_type_id_fkey"
     (λ m, bool_decide (WorkItemTypeID m ∈ gr_types d))].

Section Repositories.
Context {HO : UuidOps}.

Definition loadTypeList (d : group_db) (groupID : uuid) : list uuid :=
  map WorkItemTypeID (members_of TypeGroupID gm_Position groupID (members d)).
Definition group_Load (d : group_db) (groupID : uuid) : res WorkItemTypeGroup :=
  match t_first (has_ID groupID) (groups d) with
  | Some g => Ok (tg_with g (tg_Lifecycle g) (tg_ID g) (loadTypeList d (tg_ID g)))
  | None => Err (NotFoundError "work item type group" (uuid_String groupID) None)
  end.
Definition group_List (d : group_db) (spaceTemplateID : uuid) : res (list WorkItemTypeGroup) :=
  match CheckExists "space_templates" (gr_templates d) spaceTemplateID with
  | Ok _ => Ok (map (λ g, tg_with g (tg_Lifecycle g) (tg_ID g) (loadTypeList d (tg_ID g)))
                  (members_of tg_SpaceTemplateID tg_Position spaceTemplateID (groups d)))
  | _ => Err (NotFoundError "space template" (uuid_String spaceTemplateID) None)
  end.
Definition group_CheckExists (d : group_db) (id : uuid) : res unit :=
  CheckExists "work_item_type_groups" (groups d) id.
(** The ids of the members are generated by the database. *)
Definition group_member (memberID : nat → uuid) (groupID : uuid) (idx : nat) (ID : uuid) : typeGroupMember :=
  {| gm_Lifecycle := stamped {| instant := 0; representation := 0 |}; gm_ID := memberID idx; TypeGroupID := groupID;
     WorkItemTypeID := ID; gm_Position := Z.of_nat idx |}.
Definition group_Create (now : Time) (newID : uuid) (memberID : nat → uuid) (g : WorkItemTypeGroup)
    : grm WorkItemTypeGroup := λ d,
  if Nat.leb (length (TypeList g)) 0
  then (Err (BadParameterError "type_list" "[]" (Some "not empty") None), d)
  else
    let g := if bool_decide (tg_ID g = uuid_Nil) then tg_with g (tg_Lifecycle g) newID (TypeList g) else g in
    match t_insert (group_constraints d) now (tg_with g (tg_Lifecycle g) (tg_ID g) []) (groups d) with
    | inl v => (Err (InternalError (driver_error v)), d)
    | inr (row, t) =>
        let d := set_groups t d in
        let '(v, t) := insert_all (member_constraints d) now
                         (imap (group_member memberID (tg_ID g)) (TypeList g)) (members d) in
        (match v with
         | Some v => Err (InternalError (driver_error v))
         | None => Ok (tg_with g (tg_Lifecycle row) (tg_ID g) (TypeList g))
         end, set_members t d)
    end.

(** The groups a legacy template is made of. *)
Definition FromStringOrNil (s : string) : uuid := default uuid_Nil (uuid_FromString s).
Definition zero_life : Lifecycle := stamped {| instant := 0; representation := 0 |}.
Definition static_group (id bucket name icon : string) (types : list string) : WorkItemTypeGroup :=
  {| tg_Lifecycle := zero_life; tg_ID := FromStringOrNil id; tg_SpaceTemplateID := uuid_Nil; Bucket := bucket;
     tg_Name := name; tg_Description := None; tg_Icon := icon; tg_Position := 0;
     TypeList := map FromStringOrNil types |}.
Definition SystemTask : string := "bbf35418-04b6-426c-a60b-7f80beb0b624".
Definition SystemValueProposition : string := "3194ab60-855b-4155-9005-9dce4a05f1eb".
Definition SystemFundamental : string := "ee7ca005-f81d-4eea-9b9b-1965df0988d0".
Definition SystemExperience : string := "b9a71831-c803-4f66-8774-4193fffd1311".
Definition SystemFeature : string := "0a24d3c2-e0a6-4686-8051-ec0ea1915a28".
Definition SystemScenario : string := "71171e90-6d35-498f-a6a7-2083b5267c18".
Definition SystemBug : string := "26787039-b68f-4e28-8814-c2f93be1ef4e".
Definition SystemPapercuts : string := "6d603ab4-7c5e-4c5f-bba8-a3ba9d370985".
Definition TypeGroups : list WorkItemTypeGroup :=
  [static_group "feb28a28-44a6-43f8-946a-bae987713891" BucketPortfolio "Scenarios" "fa fa-bullseye"
     [SystemScenario; SystemFundamental; SystemPapercuts];
   static_group "d4e2c859-f416-4e9a-a3e0-e7bb4e1b454b" BucketPortfolio "Experiences" "pficon pficon-infrastructure"
     [SystemExperience; SystemValueProposition];
   static_group "bb1de8b6-3175-4821-abe9-50d0a64f19a2" BucketRequirement "Requirements" "fa fa-list-ul"
     [SystemFeature; SystemBug];
   static_group "7fdfde54-9cf2-4098-b33b-30cd505dcfc3" BucketIteration "Execution" "fa fa-repeat"
     [SystemTask; SystemBug; SystemFeature]].
Definition TypeGroupByName (name : string) : option WorkItemTypeGroup :=
  List.find (λ t, String.eqb (tg_Name t) name) TypeGroups.
Definition TypeGroupsByBucket (bucket : string) : list WorkItemTypeGroup :=
  List.filter (λ t, String.eqb (Bucket t) bucket) TypeGroups.
End Repositories.

(** * Boards and type groups

    [workitem/board.go] and [workitem/board_repository.go]: boards with their
    columns; and what the repositories of boards and of type groups give back
    for what was created. *)

Record BoardColumn := {
  bc_Lifecycle : Lifecycle;
  bc_ID : uuid;
  BoardID : uuid;
  bc_Name : string;
  Order : Z;
  TransRuleKey : string;
  TransRuleArgument : string;
}.
Definition bc_with (c : BoardColumn) (lc : Lifecycle) (ID board : uuid) : BoardColumn :=
  {| bc_Lifecycle := lc; bc_ID := ID; BoardID := board; bc_Name := bc_Name c; Order := Order c;
     TransRuleKey := TransRuleKey c; TransRuleArgument := TransRuleArgument c |}.
#[export] Instance BoardColumn_Row : Row BoardColumn :=
  {| row_ID := bc_ID; row_life := bc_Lifecycle; with_life := λ lc c, bc_with c lc (bc_ID c) (BoardID c) |}.
#[export] Instance BoardColumn_RowLaws : RowLaws BoardColumn.
Proof. by split. Qed.
Definition BoardColumn_Equal (c other : BoardColumn) : bool :=
  if negb (bool_decide (bc_ID c = bc_ID other)) then false
  else if negb (bool_decide (BoardID c = BoardID other)) then false
  else if negb (Lifecycle_Equal (bc_Lifecycle c) (bc_Lifecycle other)) then false
  else if negb (String.eqb (bc_Name c) (bc_Name other)) then false
  else if negb (Order c =? Order other) then false
  else if negb (String.eqb (TransRuleKey c) (TransRuleKey other)) then false
  else if negb (String.eqb (TransRuleArgument c) (TransRuleArgument other)) then false
  else true.
Definition BoardColumn_EqualValue (c other : BoardColumn) : bool :=
  BoardColumn_Equal (bc_with c (bc_Lifecycle other) (bc_ID c) (BoardID c)) other.

Record Board := {
  b_Lifecycle : Lifecycle;
  b_ID : uuid;
  b_SpaceTemplateID : uuid;
  b_Name : string;
  b_Description : string;
  Columns : list BoardColumn;
  b_Context : string;
  ContextType : string;
}.
Definition b_with (b : Board) (lc : Lifecycle) (ID : uuid) (columns : list BoardColumn) : Board :=
  {| b_Lifecycle := lc; b_ID := ID; b_SpaceTemplateID := b_SpaceTemplateID b; b_Name := b_Name b;
     b_Description := b_Description b; Columns := columns; b_Context := b_Context b; ContextType := ContextType b |}.
#[export] Instance Board_Row : Row Board :=
  {| row_ID := b_ID; row_life := b_Lifecycle; with_life := λ lc b, b_with b lc (b_ID b) (Columns b) |}.
#[export] Instance Board_RowLaws : RowLaws Board.
Proof. by split. Qed.
(** The columns are compared by Equal or EqualValue, after the caller. *)
Definition Board_Equal_as (byValue : bool) (b other : Board) : bool :=
  if negb (bool_decide (b_ID b = b_ID other)) then false
  else if negb (bool_decide (b_SpaceTemplateID b = b_SpaceTemplateID other)) then false
  else if negb (Lifecycle_Equal (b_Lifecycle b) (b_Lifecycle other)) then false
  else if negb (String.eqb (b_Name b) (b_Name other)) then false
  else if negb (String.eqb (b_Description b) (b_Description other)) then false
  else if negb (String.eqb (b_Context b) (b_Context other)) then false
  else if negb (String.eqb (ContextType b) (ContextType other)) then false
  else if negb (Nat.eqb (length (Columns b)) (length (Columns other))) then false
  else forallb (λ p, if byValue then BoardColumn_EqualValue p.1 p.2 else BoardColumn_Equal p.1 p.2)
               (zip (Columns b) (Columns other)).
Definition Board_Equal : Board → Board → bool := Board_Equal_as false.
Definition Board_EqualValue (b other : Board) : bool :=
  Board_Equal_as true (b_with b (b_Lifecycle other) (b_ID b) (Columns b)) other.

Record board_db := { boards : list Board; columns : list BoardColumn; bd_templates : list SpaceTemplate }.
Definition set_boards (t : list Board) (d : board_db) : board_db :=
  {| boards := t; columns := columns d; bd_templates := bd_templates d |}.
Definition set_columns (t : list BoardColumn) (d : board_db) : board_db :=
  {| boards := boards d; columns := t; bd_templates := bd_templates d |}.
Notation bdm A := (board_db → res A * board_db).

(** A table constraint, which counts deleted rows too. *)
Definition unique_always {A K} `{EqDecision K} (name : string) (key : A → K) : constraint A :=
  {| reported := ViolatesUnique name;
     violated := λ a others, existsb (λ x, bool_decide (key x = key a)) others |}.
Definition not_empty {A} (name : string) (text : A → string) : constraint A :=
  check name (λ a, negb (String.eqb (text a) "")).
Definition board_constraints (d : board_db) : list (constraint Board) :=
  [not_empty "work_item_boards_name_check" b_Name;
   not_empty "work_item_boards_description_check" b_Description;
   not_empty "work_item_boards_context_type_check" ContextType;
   not_empty "work_item_boards_context_check" b_Context;
   primary_key "work_item_boards_pkey";
   unique_always "work_item_board_name_space_template_id_unique" (λ b, (b_SpaceTemplateID b, b_Name b));
   foreign_key "work_item_boards_space_template_id_fkey" (λ b, existsb (has_ID (b_SpaceTemplateID b)) (bd_templates d))].
Definition column_constraints (d : board_db) : list (constraint BoardColumn) :=
  [not_empty "work_item_board_columns_name_check" bc_Name;
   not_empty "work_item_board_columns_trans_rule_key_check" TransRuleKey;
   not_empty "work_item_board_columns_trans_rule_argument_check" TransRuleArgument;
   primary_key "work_item_board_columns_pkey";
   unique_always "work_item_board_column_name_board_id_unique" (λ c, (BoardID c, bc_Name c));
   unique_always "work_item_board_id_order_unique" (λ c, (BoardID c, Order c));
   foreign_key "work_item_board_columns_board_id_fkey" (λ c, existsb (has_ID (BoardID c)) (boards d))].

Section Repository.
Context {HO : UuidOps}.

Definition loadColumns (d : board_db) (boardID : uuid) : list BoardColumn :=
  members_of BoardID Order boardID (columns d).
Definition with_columns (d : board_db) (b : Board) : Board :=
  b_with b (b_Lifecycle b) (b_ID b) (loadColumns d (b_ID b)).
Definition board_Load (d : board_db) (boardID : uuid) : res Board :=
  match t_first (has_ID boardID) (boards d) with
  | Some b => Ok (with_columns d b)
  | None => Err (NotFoundError "work item board" (uuid_String boardID) None)
  end.
Definition board_name_le (a b : Board) : Prop := string_le (b_Name a) (b_Name b).
#[export] Instance board_name_le_dec a b : Decision (board_name_le a b).
Proof. unfold board_name_le. apply _. Defined.
Definition board_List (d : board_db) (spaceTemplateID : uuid) : res (list Board) :=
  match CheckExists "space_templates" (bd_templates d) spaceTemplateID with
  | Ok _ => Ok (map (with_columns d) (merge_sort board_name_le
                  (t_where (λ b, bool_decide (b_SpaceTemplateID b = spaceTemplateID)) (boards d))))
  | _ => Err (NotFoundError "space template" (uuid_String spaceTemplateID) None)
  end.
Definition board_CheckExists (d : board_db) (id : uuid) : res unit := CheckExists "work_item_boards" (boards d) id.
(** The loop variable is a copy: the columns of the result keep their blank ids. *)
Definition board_column (columnID : nat → uuid) (boardID : uuid) (idx : nat) (c : BoardColumn) : BoardColumn :=
  bc_with c (bc_Lifecycle c) (if bool_decide (bc_ID c = uuid_Nil) then columnID idx else bc_ID c) boardID.
Definition board_Create (now : Time) (newID : uuid) (columnID : nat → uuid) (b : Board) : bdm Board := λ d,
  if Nat.leb (length (Columns b)) 0
  then (Err (BadParameterError "columns" "[]" (Some "not empty") None), d)
  else
    let b := if bool_decide (b_ID b = uuid_Nil) then b_with b (b_Lifecycle b) newID (Columns b) else b in
    match t_insert (board_constraints d) now (b_with b (b_Lifecycle b) (b_ID b) []) (boards d) with
    | inl v => (Err (InternalError (driver_error v)), d)
    | inr (row, t) =>
        let d := set_boards t d in
        let '(v, t) := insert_all (column_constraints d) now
                         (imap (board_column columnID (b_ID b)) (Columns b)) (columns d) in
        (match v with
         | Some v => Err (InternalError (driver_error v))
         | None => Ok (b_with b (b_Lifecycle row) (b_ID b) (Columns b))
         end, set_columns t d)
    end.
End Repository.

(** ** Owned rows *)

Section Owned.
Context {M : Type} {HR : Row M} {HL : RowLaws M} (owner : M → uuid) (position : M → Z).
Context (owner_life : ∀ lc m, owner (with_life lc m) = owner m).
Context (position_life : ∀ lc m, position (with_life lc m) = position m).

Lemma insert_all_ok cs now l t t' : insert_all cs now l t = (None, t') → t' = t ++ map (with_life (stamped now)) l.
Proof.
  revert t. induction l as [|m l IH]; intros t; cbn [insert_all map].
  - intros [= <-]. by rewrite app_nil_r.
  - destruct (t_insert _ _ _ _) as [v|[b t1]] eqn:E; [done|]. intros ->%IH.
    apply t_insert_ok in E as (-> & -> & _). by rewrite <- app_assoc.
Qed.
Lemma sort_sorted l : StronglySorted (λ a b, position a < position b) l → merge_sort (position_le position) l = l.
Proof.
  intros H. apply (StronglySorted_unique_strong (position_le position)).
  - intros a b Ha Hb H1 H2. rewrite merge_sort_Permutation in Ha.
    unfold position_le in *. assert (E : position a = position b) by lia. clear H1 H2.
    induction H as [|x l H IH HF]; [by apply elem_of_nil in Ha|]. rewrite Forall_forall in HF.
    apply elem_of_cons in Ha as [->|Ha], Hb as [->|Hb]; [done| | |by apply IH].
    + specialize (HF _ Hb). lia.
    + specialize (HF _ Ha). lia.
  - apply StronglySorted_merge_sort; unfold position_le; [intros x y z|intros x y]; lia.
  - induction H as [|x l H IH HF]; constructor; [done|]. eapply Forall_impl; [exact HF|].
    unfold position_le. intros y. lia.
  - apply merge_sort_Permutation.
Qed.
(** What is inserted for an owner without rows is what is read back, in the order of the positions. *)
Lemma members_inserted cs now id l t t' :
  (∀ m, m ∈ t → row_live m = true → owner m ≠ id) → Forall (λ m, owner m = id) l →
  insert_all cs now l t = (None, t') →
  members_of owner position id t' = merge_sort (position_le position) (map (with_life (stamped now)) l).
Proof.
  intros Ht Hl ->%insert_all_ok. unfold members_of, t_where. rewrite List.filter_app.
  assert (List.filter (λ a, row_live a && bool_decide (owner a = id)) t = []) as ->.
  { destruct (List.filter _ t) as [|m k] eqn:E; [done|]. exfalso.
    assert (Hm : m ∈ List.filter (λ a, row_live a && bool_decide (owner a = id)) t) by (rewrite E; by left).
    rewrite list_elem_of_In, List.filter_In, andb_true_iff, bool_decide_eq_true, <- list_elem_of_In in Hm.
    destruct Hm as (Hm & Hlive & Ho). by eapply Ht. }
  cbn [app]. f_equal. induction Hl as [|m l Hm Hl IH]; [done|]. cbn [map List.filter].
  unfold row_live at 1. rewrite with_life_life, owner_life, bool_decide_true by done. cbn. by f_equal.
Qed.
End Owned.

Section RoundTrips.
Context {HO : UuidOps}.

Lemma pk_fresh {A} {HR : Row A} cs name now (a b : A) t t' : primary_key name ∈ cs → RowLaws A →
  t_insert cs now a t = inr (b, t') → ∀ x, x ∈ t → row_ID x ≠ row_ID a.
Proof.
  intros Hpk HL (-> & _ & HV)%t_insert_ok x Hx E. specialize (HV _ Hpk). cbn [violated primary_key] in HV.
  rewrite with_life_ID in HV. apply not_true_iff_false in HV. apply HV, existsb_exists.
  exists x. split; [by apply list_elem_of_In|]. by apply has_ID_true.
Qed.
(** A row that was just inserted is found. *)
Lemma inserted_first {A} {HR : Row A} {HL : RowLaws A} cs name now (a b : A) t t' : primary_key name ∈ cs →
  t_insert cs now a t = inr (b, t') → ids_unique t → t_first (has_ID (row_ID a)) t' = Some b.
Proof.
  intros Hpk H Hn. pose proof (t_insert_ids _ _ _ _ _ _ _ Hpk H Hn) as Hn'. apply t_insert_ok in H as (-> & -> & _).
  apply t_first_ID_iff; [done|]. split_and!; [|unfold row_live; by rewrite with_life_life|apply with_life_ID].
  apply elem_of_app. right. by apply list_elem_of_singleton.
Qed.
Lemma imap_sorted memberID id k l :
  StronglySorted (λ a b, gm_Position a < gm_Position b) (imap (λ n, group_member memberID id (k + n)%nat) l).
Proof.
  revert k. induction l as [|x l IH]; intros k; cbn [imap]; constructor.
  - rewrite (imap_ext _ (λ n, group_member memberID id (S k + n)%nat)) by (intros; cbn; by rewrite Nat.add_succ_r). apply IH.
  - apply Forall_forall. intros m. rewrite elem_of_lookup_imap. intros (i & y & -> & _). cbn. lia.
Qed.
Lemma insert_row_groups now newID memberID g d g' d' : group_Create now newID memberID g d = (Ok g', d') →
  ∃ ID row, ID = (if bool_decide (tg_ID g = uuid_Nil) then newID else tg_ID g) ∧
    g' = tg_with g (stamped now) ID (TypeList g) ∧ row = tg_with g (stamped now) ID [] ∧
    t_insert (group_constraints d) now (tg_with g (tg_Lifecycle g) ID []) (groups d) = inr (row, groups d') ∧
    insert_all (member_constraints (set_groups (groups d') d)) now (imap (group_member memberID ID) (TypeList g)) (members d)
      = (None, members d').
Proof.
  unfold group_Create. destruct (Nat.leb _ _); [done|]. set (ID := if bool_decide (tg_ID g = uuid_Nil) then newID else tg_ID g).
  assert (E : (if bool_decide (tg_ID g = uuid_Nil) then tg_with g (tg_Lifecycle g) newID (TypeList g) else g)
              = tg_with g (tg_Lifecycle g) ID (TypeList g)) by (unfold ID; destruct g; by case_bool_decide).
  rewrite E. cbn [tg_with tg_Lifecycle tg_ID TypeList].
  destruct (t_insert _ _ _ _) as [v|[row t]] eqn:Ei; [done|].
  pose proof (proj1 (t_insert_ok _ _ _ _ _ _ Ei)) as ->.
  destruct (insert_all _ _ _ _) as [[v|] t2] eqn:Em; [done|]. intros [= <- <-]. exists ID. eexists. by split_and!.
Qed.

Lemma stamped_types memberID id now l :
  map WorkItemTypeID (map (with_life (stamped now)) (imap (group_member memberID id) l)) = l.
Proof.
  rewrite map_map. change (map ?f (imap ?h ?k)) with (f <$> imap h k). rewrite fmap_imap.
  apply list_eq. intros i. rewrite list_lookup_imap. by destruct (_ !! i).
Qed.
(** Members belong to groups there are. *)
Definition groups_wf (d : group_db) : Prop :=
  ids_unique (groups d) ∧ ∀ m, m ∈ members d → ∃ x, x ∈ groups d ∧ tg_ID x = TypeGroupID m.
(** The members of another group stay out of the way. *)
Lemma members_elsewhere id l t : Forall (λ m, TypeGroupID m ≠ id) l →
  members_of TypeGroupID gm_Position id (t ++ l) = members_of TypeGroupID gm_Position id t.
Proof.
  intros H. unfold members_of, t_where. rewrite List.filter_app.
  assert (List.filter (λ m, row_live m && bool_decide (TypeGroupID m = id)) l = []) as ->; [|by rewrite app_nil_r].
  induction H as [|m l Hm _ IH]; [done|]. cbn [List.filter]. by rewrite (bool_decide_false _ Hm), andb_false_r.
Qed.
Lemma group_created now newID memberID g d g' d' : groups_wf d → group_Create now newID memberID g d = (Ok g', d') →
  ∃ ID, let row := tg_with g (stamped now) ID [] in
    g' = tg_with g (stamped now) ID (TypeList g) ∧ groups d' = groups d ++ [row] ∧ groups_wf d' ∧
    t_first (has_ID ID) (groups d') = Some row ∧ loadTypeList d' ID = TypeList g ∧
    ∀ x, x ∈ groups d → loadTypeList d' (tg_ID x) = loadTypeList d (tg_ID x).
Proof.
  intros [Hn Hm] H. apply insert_row_groups in H as (ID & row & _ & -> & -> & Hg & Hms). exists ID. cbn zeta.
  assert (Hpk : primary_key "work_item_type_groups_pkey" ∈ group_constraints d) by (unfold group_constraints; set_solver).
  assert (Hfresh : ∀ x, x ∈ groups d → tg_ID x ≠ ID) by (intros x Hx; exact (pk_fresh _ _ _ _ _ _ _ Hpk _ Hg x Hx)).
  pose proof (inserted_first _ _ _ _ _ _ _ Hpk Hg Hn) as Hf. pose proof (t_insert_ids _ _ _ _ _ _ _ Hpk Hg Hn) as Hn'.
  assert (Hrows : groups d' = groups d ++ [tg_with g (stamped now) ID []]) by (by apply t_insert_ok in Hg as (_ & -> & _)).
  pose proof (insert_all_ok _ _ _ _ _ Hms) as Hmem.
  assert (Hown : Forall (λ m, TypeGroupID m = ID) (imap (group_member memberID ID) (TypeList g))).
  { apply Forall_forall. intros m. rewrite elem_of_lookup_imap. by intros (i & y & -> & _). }
  assert (Hown' : Forall (λ m, TypeGroupID m = ID) (map (with_life (stamped now)) (imap (group_member memberID ID) (TypeList g)))).
  { rewrite Forall_forall in Hown |- *. intros m (x & -> & Hx)%list_elem_of_fmap. by apply (Hown x). }
  split_and!; [done|done| |exact Hf| |].
  - split; [done|]. intros m. rewrite Hmem, elem_of_app, Hrows. intros [Hin|Hin].
    + destruct (Hm m Hin) as (x & Hx & E). exists x. split; [apply elem_of_app; by left|done].
    + rewrite Forall_forall in Hown'. exists (tg_with g (stamped now) ID []). split; [|by rewrite (Hown' m Hin)].
      apply elem_of_app. right. by apply list_elem_of_singleton.
  - unfold loadTypeList.
    erewrite (members_inserted (HR := typeGroupMember_Row) TypeGroupID gm_Position (λ _ _, eq_refl)); [|..|exact Hms]; [| |done].
    + rewrite sort_sorted; [apply stamped_types|].
      change (map ?f ?l) with (f <$> l). rewrite fmap_imap.
      pose proof (imap_sorted memberID ID 0 (TypeList g)) as HS.
      apply (StronglySorted_fmap (with_life (stamped now)) _ (λ a b, gm_Position a < gm_Position b)) in HS; [|done].
      by rewrite fmap_imap in HS.
    + intros m Hin _ E. destruct (Hm m Hin) as (x & Hx & Hid). apply (Hfresh x Hx). congruence.
  - intros x Hx. unfold loadTypeList. rewrite Hmem, members_elsewhere; [done|].
    eapply Forall_impl; [exact Hown'|]. intros m -> E. by apply (Hfresh x Hx).
Qed.

(** A group of types is read back as it was created, its types in their order. *)
Theorem group_Create_Load now newID memberID g d g' d' (Hd : groups_wf d)
    (H : group_Create now newID memberID g d = (Ok g', d')) :
  group_Load d' (tg_ID g') = Ok g' ∧ TypeList g' = TypeList g.
Proof.
  destruct (group_created _ _ _ _ _ _ _ Hd H) as (ID & -> & _ & _ & Hf & HT & _). split; [|done].
  unfold group_Load. cbn [tg_with tg_ID]. rewrite Hf. cbn [tg_with tg_ID tg_Lifecycle]. by rewrite HT.
Qed.

(** What a column keeps through its creation. *)
Definition column_content (c : BoardColumn) : string * Z * string * string :=
  (bc_Name c, Order c, TransRuleKey c, TransRuleArgument c).
Lemma insert_row_boards now newID columnID b d b' d' : board_Create now newID columnID b d = (Ok b', d') →
  ∃ ID row, b' = b_with b (stamped now) ID (Columns b) ∧ row = b_with b (stamped now) ID [] ∧
    t_insert (board_constraints d) now (b_with b (b_Lifecycle b) ID []) (boards d) = inr (row, boards d') ∧
    insert_all (column_constraints (set_boards (boards d') d)) now (imap (board_column columnID ID) (Columns b)) (columns d)
      = (None, columns d').
Proof.
  unfold board_Create. destruct (Nat.leb _ _); [done|]. set (ID := if bool_decide (b_ID b = uuid_Nil) then newID else b_ID b).
  assert (E : (if bool_decide (b_ID b = uuid_Nil) then b_with b (b_Lifecycle b) newID (Columns b) else b)
              = b_with b (b_Lifecycle b) ID (Columns b)) by (unfold ID; destruct b; by case_bool_decide).
  rewrite E. cbn [b_with b_Lifecycle b_ID Columns].
  destruct (t_insert _ _ _ _) as [v|[row t]] eqn:Ei; [done|].
  pose proof (proj1 (t_insert_ok _ _ _ _ _ _ Ei)) as ->.
  destruct (insert_all _ _ _ _) as [[v|] t2] eqn:Em; [done|]. intros [= <- <-]. exists ID. eexists. by split_and!.
Qed.
(** A board is read back with the columns it was created with, in their order; the board the creation itself returns
    has the columns as they were given, without the ids they got. *)
Theorem board_Create_Load now newID columnID b d b' d' (Hn : ids_unique (boards d))
    (Hm : ∀ c, c ∈ columns d → ∃ x, x ∈ boards d ∧ b_ID x = BoardID c)
    (H : board_Create now newID columnID b d = (Ok b', d')) :
  Columns b' = Columns b ∧ ∃ cols, board_Load d' (b_ID b') = Ok (b_with b' (b_Lifecycle b') (b_ID b') cols) ∧
    map column_content cols ≡ₚ map column_content (Columns b) ∧ StronglySorted (position_le Order) cols ∧
    ∀ c, c ∈ cols → BoardID c = b_ID b'.
Proof.
  apply insert_row_boards in H as (ID & row & -> & -> & Hg & Hms). split; [done|]. unfold board_Load.
  assert (Hpk : primary_key "work_item_boards_pkey" ∈ board_constraints d) by (unfold board_constraints; set_solver).
  pose proof (inserted_first _ _ _ _ _ _ _ Hpk Hg Hn) as Hf. cbn [row_ID Board_Row b_with b_ID] in Hf |- *.
  rewrite Hf. eexists. split; [reflexivity|]. unfold loadColumns.
  erewrite (members_inserted (HR := BoardColumn_Row) BoardID Order (λ _ _, eq_refl)); [|..|exact Hms].
  - change (map ?f (imap ?h ?l)) with (f <$> imap h l). rewrite fmap_imap. split_and!.
    + rewrite merge_sort_Permutation. change (map ?f (imap ?h ?l)) with (f <$> imap h l). rewrite fmap_imap.
      rewrite (imap_ext _ (λ _, column_content)) by done. change (λ _ : nat, column_content) with (@const _ nat column_content). by rewrite imap_const.
    + apply StronglySorted_merge_sort; unfold position_le; [intros x y z|intros x y]; lia.
    + intros c. rewrite merge_sort_Permutation, elem_of_lookup_imap. by intros (i & y & -> & _).
  - intros c Hin _ E. destruct (Hm c Hin) as (x & Hx & Hid).
    apply (pk_fresh _ _ _ _ _ _ _ Hpk _ Hg x Hx). change (b_ID x = ID). rewrite Hid. exact E.
  - apply Forall_forall. intros c. rewrite elem_of_lookup_imap. by intros (i & y & -> & _).
Qed.
End RoundTrips.

(** ** Concrete stores *)

Definition agile : SpaceTemplate :=
  {| tp_Lifecycle := zero_life; tp_ID := uuid_of 7; tp_Version := 0; tp_Name := "agile"; tp_Description := None;
     tp_CanConstruct := true |}.
Definition a_column (name : string) (order : Z) : BoardColumn :=
  {| bc_Lifecycle := zero_life; bc_ID := uuid_Nil; BoardID := uuid_Nil; bc_Name := name; Order := order;
     TransRuleKey := "updateStateFromColumnMove"; TransRuleArgument := "{}" |}.
Definition a_board : Board :=
  {| b_Lifecycle := zero_life; b_ID := uuid_Nil; b_SpaceTemplateID := uuid_of 7; b_Name := "Scenarios Board";
     b_Description := "the board"; Columns := [a_column "Done" 1; a_column "New" 0]; b_Context := "x";
     ContextType := "TypeLevelContext" |}.
Definition no_boards : board_db := {| boards := []; columns := []; bd_templates := [agile] |}.
Definition serial (n : nat) : uuid := uuid_of (100 + N.of_nat n).
Notation create_board := (board_Create {| instant := 5; representation := 0 |} (uuid_of 9) serial a_board no_boards).
Lemma board_Create_Load_witness :
  ∃ b d cols, create_board = (Ok b, d) ∧ board_Load d (b_ID b) = Ok (b_with b (b_Lifecycle b) (b_ID b) cols) ∧
    map bc_Name (Columns b) = ["Done"; "New"] ∧ map bc_Name cols = ["New"; "Done"].
Proof.
  destruct create_board as [[b|e|m] d] eqn:E; [|by vm_compute in E..].
  destruct (board_Create_Load _ _ _ _ _ _ _ (NoDup_nil_2 : ids_unique (boards no_boards))
    (λ c Hc, False_rect _ (not_elem_of_nil _ Hc)) E) as (HC & cols & HL & _ & _ & _).
  exists b, d, cols. split; [done|]. split; [exact HL|]. split; [by rewrite HC|].
  vm_compute in E. injection E as <- <-. vm_compute in HL. by injection HL as <-.
Defined.
Definition requirements : WorkItemTypeGroup :=
  {| tg_Lifecycle := zero_life; tg_ID := uuid_Nil; tg_SpaceTemplateID := uuid_of 7; Bucket := BucketRequirement;
     tg_Name := "Requirements"; tg_Description := None; tg_Icon := "fa fa-list-ul"; tg_Position := 0;
     TypeList := [uuid_of 12; uuid_of 11] |}.
Definition no_groups : group_db :=
  {| groups := []; members := []; gr_templates := [agile]; gr_types := [uuid_of 11; uuid_of 12] |}.
Notation create_group := (group_Create {| instant := 5; representation := 0 |} (uuid_of 9) serial requirements no_groups).
Lemma group_Create_Load_witness :
  ∃ g d, create_group = (Ok g, d) ∧ group_Load d (tg_ID g) = Ok g ∧ TypeList g = [uuid_of 12; uuid_of 11].
Proof.
  destruct create_group as [[g|e|m] d] eqn:E; [|by vm_compute in E..].
  destruct (group_Create_Load _ _ _ _ _ _ _ (conj NoDup_nil_2 (λ c Hc, False_rect _ (not_elem_of_nil _ Hc))
    : groups_wf no_groups) E) as [HL HT].
  exists g, d. split; [done|]. split; [exact HL|]. by rewrite HT.
Defined.
