(* ===== verification/Importer.v ===== *)
(** * Importing space templates

    [spacetemplate/importer/import_helper.go] and
    [spacetemplate/importer/repository.go]: a template with its work item types,
    link types, type groups and boards, and its creation or update in the
    tables.  YAML is parsed by a library, a parameter; the lists of a template
    hold no null.  A loaded type shares its map of fields with the cache of the
    process. *)

From Stdlib Require Import ZArith Lia Ascii String.
From S2P Require Import Errors LinkRepository.
From S2P Require Export WorkItemTypes Boards.
Import Errors.

(** ** Templates *)

Record ImportHelper := {
  Template : SpaceTemplate;
  WITs : list WorkItemType;
  WILTs : list WorkItemLinkType;
  WITGs : list WorkItemTypeGroup;
  WIBs : list Board;
}.
Definition wit_with_template (id : uuid) (t : WorkItemType) : WorkItemType :=
  {| t_Lifecycle := t_Lifecycle t; t_ID := t_ID t; t_Name := t_Name t; t_Description := t_Description t;
     t_Icon := t_Icon t; t_Version := t_Version t; t_Path := t_Path t; t_Fields := t_Fields t;
     t_SpaceTemplateID := id; t_Extends := t_Extends t; t_CanConstruct := t_CanConstruct t;
     t_ChildTypeIDs := t_ChildTypeIDs t |}.
Definition wilt_with (t : WorkItemLinkType) (lc : Lifecycle) (ID template : uuid) : WorkItemLinkType :=
  {| lt_Lifecycle := lc; lt_ID := ID; lt_Name := lt_Name t; lt_Description := lt_Description t;
     lt_Version := lt_Version t; lt_Topology := lt_Topology t; lt_ForwardName := lt_ForwardName t;
     lt_ForwardDescription := lt_ForwardDescription t; lt_ReverseName := lt_ReverseName t;
     lt_ReverseDescription := lt_ReverseDescription t; lt_SpaceTemplateID := template |}.
Definition witg_with (g : WorkItemTypeGroup) (template : uuid) (position : Z) : WorkItemTypeGroup :=
  {| tg_Lifecycle := tg_Lifecycle g; tg_ID := tg_ID g; tg_SpaceTemplateID := template; Bucket := Bucket g;
     tg_Name := tg_Name g; tg_Description := tg_Description g; tg_Icon := tg_Icon g; tg_Position := position;
     TypeList := TypeList g |}.
Definition wib_with_template (id : uuid) (b : Board) : Board :=
  {| b_Lifecycle := b_Lifecycle b; b_ID := b_ID b; b_SpaceTemplateID := id; b_Name := b_Name b;
     b_Description := b_Description b; Columns := Columns b; b_Context := b_Context b; ContextType := ContextType b |}.
Definition SetID (id : uuid) (s : ImportHelper) : ImportHelper :=
  {| Template := tp_with (Template s) (tp_Lifecycle (Template s)) id (tp_Version (Template s));
     WITs := map (wit_with_template id) (WITs s);
     WILTs := map (λ t, wilt_with t (lt_Lifecycle t) (lt_ID t) id) (WILTs s);
     WITGs := map (λ g, witg_with g id (tg_Position g)) (WITGs s);
     WIBs := map (wib_with_template id) (WIBs s) |}.

(** One element after the other, by the operation the caller's name selects. *)
Fixpoint all_equal {A} (equal : A → A → res bool) (l k : list A) : res bool :=
  match l, k with
  | x :: l, y :: k => e ← equal x y; if e : bool then all_equal equal l k else Ok false
  | _, _ => Ok true
  end.
Definition lists_equal {A} (equal : A → A → res bool) (l k : list A) : res bool :=
  if negb (Nat.eqb (length l) (length k)) then Ok false else all_equal equal l k.
Definition ImportHelper_Equal_as (byValue : bool) (s other : ImportHelper) : res bool :=
  if negb (if byValue then SpaceTemplate_EqualValue (Template s) (Template other)
           else SpaceTemplate_Equal (Template s) (Template other)) then Ok false
  else
    wits ← lists_equal (if byValue then WorkItemType_EqualValue else WorkItemType_Equal_as false) (WITs s) (WITs other);
    if negb wits then Ok false
    else
      wilts ← lists_equal (λ a b, Ok (if byValue then LinkType_EqualValue a b else LinkType_Equal a b))
                (WILTs s) (WILTs other);
      if negb wilts then Ok false
      else
        witgs ← lists_equal (λ a b, Ok (if byValue then WorkItemTypeGroup_EqualValue a b else WorkItemTypeGroup_Equal a b))
                  (WITGs s) (WITGs other);
        if negb witgs then Ok false
        else lists_equal (λ a b, Ok (if byValue then Board_EqualValue a b else Board_Equal a b)) (WIBs s) (WIBs other).
Definition ImportHelper_EqualValue : ImportHelper → ImportHelper → res bool := ImportHelper_Equal_as true.

Section Importer.
Context {HO : UuidOps} (IsURL : string → bool).
Context (time_json : Z → string) (struct_json : string → option gval).
Notation LoadType := (Load time_json struct_json).

Fixpoint check_each {A} (f : A → res unit) (l : list A) : res unit :=
  match l with [] => Ok tt | x :: l => _ ← f x; check_each f l end.
Definition same_template (what : string) (s : ImportHelper) (id : uuid) : res unit :=
  if bool_decide (id = tp_ID (Template s)) then Ok tt
  else Err (BadParameterError what (uuid_String id) (Some (uuid_String (tp_ID (Template s)))) None).
Definition ImportHelper_Validate (s : ImportHelper) : res unit :=
  _ ← wrapf "failed to validate space template" (SpaceTemplate_Validate (Template s));
  _ ← check_each (λ wit, _ ← same_template "work item types's space template ID" s (t_SpaceTemplateID wit);
                         wrapf "failed to validate work item type %s (ID=%s)" (WorkItemType_Validate IsURL wit)) (WITs s);
  _ ← check_each (λ wilt, same_template "work item link type's space template ID" s (lt_SpaceTemplateID wilt)) (WILTs s);
  _ ← check_each (λ witg, same_template "work item type group's space template ID" s (tg_SpaceTemplateID witg)) (WITGs s);
  check_each (λ wib, same_template "work item board's space template ID" s (b_SpaceTemplateID wib)) (WIBs s).

Definition FromString (unmarshal : string → option ImportHelper) (newID : uuid) (templ : string) : res ImportHelper :=
  match unmarshal templ with
  | None => Err (Wrapped "failed to parse YAML space template" (Plain "yaml: unmarshal error"))
  | Some s =>
      let s := SetID (if bool_decide (tp_ID (Template s) = uuid_Nil) then newID else tp_ID (Template s)) s in
      _ ← wrapf "failed to validate space template" (ImportHelper_Validate s);
      Ok s
  end.
(** BaseTemplate, LegacyTemplate, ScrumTemplate and AgileTemplate. *)
Definition built_in (unmarshal : string → option ImportHelper) (asset : res string) (newID id : uuid) : res ImportHelper :=
  bs ← wrapf "failed to load template" asset;
  s ← with_stack (FromString unmarshal newID bs);
  Ok (SetID id s).

(** ** The tables *)

Record import_db := {
  im_spaces : space_db;
  im_types : types_state;
  im_links : LinkRepository.db;
  im_groups : list WorkItemTypeGroup;
  im_members : list typeGroupMember;
  im_boards : list Board;
  im_columns : list BoardColumn;
}.
Notation imm A := (import_db → res A * import_db).
Definition im_with_types (t : types_state) (d : import_db) : import_db :=
  {| im_spaces := im_spaces d; im_types := t; im_links := im_links d; im_groups := im_groups d;
     im_members := im_members d; im_boards := im_boards d; im_columns := im_columns d |}.
Definition im_with_links (l : LinkRepository.db) (d : import_db) : import_db :=
  {| im_spaces := im_spaces d; im_types := im_types d; im_links := l; im_groups := im_groups d;
     im_members := im_members d; im_boards := im_boards d; im_columns := im_columns d |}.
(** Each repository sees the templates there are. *)
Definition types_view (d : import_db) : types_state :=
  let t := tdb (im_types d) in
  {| tdb := {| wit_rows := wit_rows t; child_rows := child_rows t;
               templates := map tp_ID (t_where (λ _, true) (template_rows (im_spaces d)));
               all_templates := map tp_ID (template_rows (im_spaces d)) |};
     cache := cache (im_types d) |}.
Definition on_spaces {A} (m : spm A) : imm A := λ d,
  let '(r, t) := m (im_spaces d) in
  (r, {| im_spaces := t; im_types := im_types d; im_links := im_links d; im_groups := im_groups d;
         im_members := im_members d; im_boards := im_boards d; im_columns := im_columns d |}).
Definition on_types {A} (m : tstm A) : imm A := λ d,
  let '(r, t) := m (types_view d) in (r, im_with_types t d).
Definition on_links {A} (m : LinkRepository.db → res A * LinkRepository.db) : imm A := λ d,
  let '(r, t) := m (im_links d) in (r, im_with_links t d).
Definition group_view (d : import_db) : group_db :=
  {| groups := im_groups d; members := im_members d; gr_templates := template_rows (im_spaces d);
     gr_types := map t_ID (wit_rows (tdb (im_types d))) |}.
Definition on_groups {A} (m : grm A) : imm A := λ d,
  let '(r, t) := m (group_view d) in
  (r, {| im_spaces := im_spaces d; im_types := im_types d; im_links := im_links d; im_groups := groups t;
         im_members := members t; im_boards := im_boards d; im_columns := im_columns d |}).
Definition board_view (d : import_db) : board_db :=
  {| boards := im_boards d; columns := im_columns d; bd_templates := template_rows (im_spaces d) |}.
Definition on_boards {A} (m : bdm A) : imm A := λ d,
  let '(r, t) := m (board_view d) in
  (r, {| im_spaces := im_spaces d; im_types := im_types d; im_links := im_links d; im_groups := im_groups d;
         im_members := im_members d; im_boards := boards t; im_columns := columns t |}).

(** The ids the database generates, by the position of what they are for. *)
Record generated := {
  wit_newID : nat → uuid; child_newIDs : nat → list uuid; wilt_newID : nat → uuid;
  group_newID : nat → uuid; member_newID : nat → nat → uuid;
  board_newID : nat → uuid; column_newID : nat → nat → uuid;
}.

(** ** Work item types *)

Definition is_not_found (e : error) : bool := match Cause e with NotFoundError _ _ _ => true | _ => false end.
Definition remaining (ids : list uuid) (imported : list uuid) : list uuid :=
  List.filter (λ i, negb (bool_decide (i ∈ imported))) ids.
(** The raw query counts deleted rows too. *)
Definition checkNoWITIsMissing (d : import_db) (s : ImportHelper) : res unit :=
  let IDs := map t_ID (List.filter (λ t, bool_decide (t_SpaceTemplateID t = tp_ID (Template s)))
                         (wit_rows (tdb (im_types d)))) in
  if bool_decide (remaining IDs (map t_ID (WITs s)) = []) then Ok tt
  else Err (Plain "work item types to be imported must not remove these existing work item types: %s").

(** The field types of the old and of the new definition, apart from their defaults. *)
Definition same_field_type (old new : FieldType) : res unit :=
  newFieldType ← wrapf "failed to temporarily overwrite default of new field type with %+v (%[1]T)"
                   (SetDefaultValue IsURL new (GetDefaultValue old));
  equal ← FieldType_Equal false newFieldType old;
  equal ← (if equal : bool then Ok true
           else match old, newFieldType with
                | FEnum origEnum, FEnum newEnum => EnumType_EqualEnclosing newEnum origEnum
                | _, _ => Ok false
                end);
  if equal : bool then Ok tt else Err (Plain "type of the field %s changed from %+v to %+v").
Fixpoint check_field_types (old new : FieldDefinitions) : res unit :=
  match new with
  | [] => Ok tt
  | (fieldName, fd) :: new =>
      _ ← match fields_get old fieldName with
          | Some oldDef => same_field_type (Type_ oldDef) (Type_ fd)
          | None => Ok tt
          end;
      check_field_types old new
  end.
Definition has_name (m : FieldDefinitions) (k : string) : bool := existsb (λ p, String.eqb p.1 k) m.
Definition removed_fields (old new extendedFields : FieldDefinitions) : FieldDefinitions :=
  List.filter (λ p, negb (has_name new p.1 || has_name extendedFields p.1)) old.
Definition over (base fields : FieldDefinitions) : FieldDefinitions :=
  fold_left (λ m p, fields_set m p.1 p.2) fields base.
Definition updated_wit (loaded wit : WorkItemType) (fields : FieldDefinitions) : WorkItemType :=
  {| t_Lifecycle := t_Lifecycle loaded; t_ID := t_ID loaded; t_Name := t_Name wit; t_Description := t_Description wit;
     t_Icon := t_Icon wit; t_Version := t_Version loaded; t_Path := t_Path loaded; t_Fields := fields;
     t_SpaceTemplateID := t_SpaceTemplateID loaded; t_Extends := t_Extends loaded;
     t_CanConstruct := t_CanConstruct wit; t_ChildTypeIDs := t_ChildTypeIDs loaded |}.
(** [db.Save(&loadedWIT)] *)
Definition save_wit (now : Time) (wit : WorkItemType) : tstm unit := λ s,
  if negb (forallb (λ p, type_marshals time_json struct_json (Type_ p.2)) (t_Fields wit))
  then (Err (Wrapped "failed to update work item type %s" (Plain "json: unsupported value")), s)
  else
    let row := t_with wit {| CreatedAt := CreatedAt (t_Lifecycle wit); UpdatedAt := now;
                             DeletedAt := DeletedAt (t_Lifecycle wit) |} (t_ID wit) (t_Version wit) (t_Path wit)
                 (t_Fields wit) (t_Extends wit) (t_ChildTypeIDs wit) in
    (Ok tt, set_wits (map (λ x, if t_live x && bool_decide (t_ID x = t_ID wit) then row else x)
                        (wit_rows (tdb s))) s).
(** The new fields are written into the map of the extended type, or of the type itself, which the cache holds too. *)
Definition share_fields (owner : uuid) (fields : FieldDefinitions) : tstm unit := λ s,
  (Ok tt, match cache s !! owner with
          | Some t => set_cache (<[owner := t_with t (t_Lifecycle t) (t_ID t) (t_Version t) (t_Path t) fields
                                              (t_Extends t) (t_ChildTypeIDs t)]> (cache s)) s
          | None => s
          end).
Definition update_wit (now : Time) (template : uuid) (wit loadedWIT : WorkItemType) : tstm unit :=
  if negb (bool_decide (t_SpaceTemplateID loadedWIT = template))
  then s_fail (Plain "work item type %s exists and is bound to space template %s instead of the new one %s")
  else
    let* _ := s_query (λ _, check_field_types (t_Fields loadedWIT) (t_Fields wit)) in
    let* extendedType := (if bool_decide (t_Extends wit = uuid_Nil) then s_ret None
                          else let* t := s_map (wrapf "failed to load WIT to be extended: %s") (LoadType (t_Extends wit)) in
                               s_ret (Some t)) in
    let extendedFields := match extendedType with Some t => t_Fields t | None => [] end in
    if negb (bool_decide (map fst (removed_fields (t_Fields loadedWIT) (t_Fields wit) extendedFields) = []))
    then s_fail (Plain "you must not remove these fields from the new work item type definition of %q: %+v")
    else
      let base := match extendedType with Some t => t_Fields t | None => t_Fields loadedWIT end in
      let fields := over base (t_Fields wit) in
      let* _ := share_fields (match extendedType with Some t => t_ID t | None => t_ID loadedWIT end) fields in
      let* _ := save_wit now (updated_wit loadedWIT wit fields) in
      ClearGlobalWorkItemTypeCache.
Definition createOrUpdateWIT (now : Time) (newID template : uuid) (wit : WorkItemType) : tstm unit := λ s,
  match LoadType (t_ID wit) s with
  | (Ok loadedWIT, s) => update_wit now template wit loadedWIT s
  | (Err e, s) =>
      if is_not_found e
      then s_map (wrapf "failed to create work item type '%s' from space template '%s'")
             (let* _ := CreateFromModel time_json struct_json now newID wit in s_ret tt) s
      else (Err (Wrapped "failed to load work item type %s" e), s)
  | (Panic m, s) => (Panic m, s)
  end.
Fixpoint each_wit (f : nat → WorkItemType → tstm unit) (i : nat) (l : list WorkItemType) : tstm unit :=
  match l with [] => s_ret tt | wit :: l => let* _ := f i wit in each_wit f (S i) l end.
(** The old rows of child types are deleted for good. *)
Definition wire_children (now : Time) (newIDs : list uuid) (wit : WorkItemType) : tstm unit :=
  let* _ := (λ s, (Ok tt, set_children (List.filter (λ c, negb (bool_decide (ParentWorkItemTypeID c = t_ID wit)))
                                         (child_rows (tdb s))) s)) in
  s_map (wrapf "failed to add child types to work item type %s (%s)")
    (AddChildTypes now newIDs (t_ID wit) (t_ChildTypeIDs wit)).
Definition createOrUpdateWITs (now : Time) (g : generated) (s : ImportHelper) : imm unit :=
  let* _ := s_map with_stack (s_query (λ d, checkNoWITIsMissing d s)) in
  on_types (
    let* _ := each_wit (λ i, createOrUpdateWIT now (wit_newID g i) (tp_ID (Template s))) 0 (WITs s) in
    each_wit (λ i, wire_children now (child_newIDs g i)) 0 (WITs s)).

(** ** Link types *)

Definition checkNoWILTIsMissing (d : import_db) (s : ImportHelper) : res unit :=
  let IDs := map lt_ID (List.filter (λ t, bool_decide (lt_SpaceTemplateID t = tp_ID (Template s)))
                          (link_types (im_links d))) in
  if bool_decide (remaining IDs (map lt_ID (WILTs s)) = []) then Ok tt
  else Err (Plain "work item link types to be imported must not remove these existing work item link types: %s").
(** [db.Save(&*wilt)] writes every column, version and creation time as the template gives them. *)
Definition save_wilt (now : Time) (wilt : WorkItemLinkType) : LinkRepository.db → res unit * LinkRepository.db := λ d,
  let row := wilt_with wilt {| CreatedAt := CreatedAt (lt_Lifecycle wilt); UpdatedAt := now;
                               DeletedAt := DeletedAt (lt_Lifecycle wilt) |} (lt_ID wilt) (lt_SpaceTemplateID wilt) in
  if lt_live row && name_taken d row
  then (Err (Wrapped "failed to update work item link type %s" (Plain "duplicate key value violates unique constraint")), d)
  else (Ok tt, set_link_types d (map (λ t, if lt_live t && bool_decide (lt_ID t = lt_ID row) then row else t)
                                   (link_types d))).
Definition createOrUpdateWILT (now : Time) (newID template : uuid) (wilt : WorkItemLinkType)
    : LinkRepository.db → res unit * LinkRepository.db := λ d,
  match LinkType_Load d (lt_ID wilt) with
  | Ok loadedWILT =>
      if negb (bool_decide (lt_SpaceTemplateID loadedWILT = template))
      then (Err (Plain "work item link type %s exists and is bound to space template %s instead of the new one %s"), d)
      else save_wilt now wilt d
  | Err e =>
      if is_not_found e
      then s_map (wrapf "failed to create work item link type '%s' from space template '%s'")
             (let* _ := LinkType_Create now newID
                          (wilt_with wilt (lt_Lifecycle wilt)
                             (if bool_decide (lt_ID wilt = uuid_Nil) then newID else lt_ID wilt) template) in
              s_ret tt) d
      else (Err (Wrapped "failed to load work item link type %s" e), d)
  | Panic m => (Panic m, d)
  end.
Fixpoint each_wilt (now : Time) (newID : nat → uuid) (template : uuid) (i : nat) (l : list WorkItemLinkType)
    : LinkRepository.db → res unit * LinkRepository.db :=
  match l with
  | [] => s_ret tt
  | wilt :: l => let* _ := createOrUpdateWILT now (newID i) template wilt in each_wilt now newID template (S i) l
  end.
Definition createOrUpdateWILTs (now : Time) (g : generated) (s : ImportHelper) : imm unit :=
  let* _ := s_map with_stack (s_query (λ d, checkNoWILTIsMissing d s)) in
  on_links (each_wilt now (wilt_newID g) (tp_ID (Template s)) 0 (WILTs s)).

(** ** Groups and boards, deleted for good and created anew *)

Definition delete_groups (template : uuid) : grm unit := λ d,
  let gone := List.filter (λ g, bool_decide (tg_SpaceTemplateID g = template)) (groups d) in
  (Ok tt, set_members (List.filter (λ m, negb (bool_decide (TypeGroupID m ∈ map tg_ID gone))) (members d))
            (set_groups (List.filter (λ g, negb (bool_decide (tg_SpaceTemplateID g = template))) (groups d)) d)).
Fixpoint create_groups (now : Time) (g : generated) (pos : nat) (l : list WorkItemTypeGroup) : grm unit :=
  match l with
  | [] => s_ret tt
  | group :: l =>
      let* _ := s_map (wrapf "failed to create work item type group '%s' from space template '%s'")
                  (group_Create now (group_newID g pos) (member_newID g pos)
                     (witg_with group (tg_SpaceTemplateID group) (Z.of_nat pos))) in
      create_groups now g (S pos) l
  end.
Definition createOrUpdateWITGs (now : Time) (g : generated) (s : ImportHelper) : imm unit :=
  on_groups (let* _ := delete_groups (tp_ID (Template s)) in create_groups now g 0 (WITGs s)).

Definition delete_boards (template : uuid) : bdm unit := λ d,
  let gone := List.filter (λ b, bool_decide (b_SpaceTemplateID b = template)) (boards d) in
  (Ok tt, set_columns (List.filter (λ c, negb (bool_decide (BoardID c ∈ map b_ID gone))) (columns d))
            (set_boards (List.filter (λ b, negb (bool_decide (b_SpaceTemplateID b = template))) (boards d)) d)).
Fixpoint create_boards (now : Time) (g : generated) (i : nat) (l : list Board) : bdm unit :=
  match l with
  | [] => s_ret tt
  | board :: l =>
      let* _ := s_map (wrapf "failed to create work item board '%s' from space template '%s'")
                  (board_Create now (board_newID g i) (column_newID g i) board) in
      create_boards now g (S i) l
  end.
Definition createOrUpdateWIBs (now : Time) (g : generated) (s : ImportHelper) : imm unit :=
  on_boards (let* _ := delete_boards (tp_ID (Template s)) in create_boards now g 0 (WIBs s)).

(** ** The import *)

Definition tp_updated (loaded new : SpaceTemplate) : SpaceTemplate :=
  {| tp_Lifecycle := tp_Lifecycle loaded; tp_ID := tp_ID loaded; tp_Version := tp_Version loaded;
     tp_Name := tp_Name new; tp_Description := tp_Description new; tp_CanConstruct := tp_CanConstruct new |}.
Definition createOrUpdateTemplate (now : Time) (newID : uuid) (s : ImportHelper) : spm SpaceTemplate := λ d,
  match template_Load d (tp_ID (Template s)) with
  | Err e =>
      if is_not_found e
      then s_map (wrapf "failed to create space template") (template_Create now newID (Template s)) d
      else (Err (Wrapped "failed to load space template %s" e), d)
  | Panic m => (Panic m, d)
  | Ok loaded =>
      let loaded := tp_updated loaded (Template s) in
      match SpaceTemplate_Validate loaded with
      | Err e => (Err (Wrapped "update space template is not valid %s" e), d)
      | Panic m => (Panic m, d)
      | Ok _ =>
          match t_update template_constraints now (λ _, true) loaded (template_rows d) with
          | inl v => (Err (Wrapped "failed to update space template %s" (driver_error v)), d)
          | inr (t, _, rows) => (Ok t, set_templates rows d)
          end
      end
  end.
Definition Import (now : Time) (newID : uuid) (g : generated) (s : ImportHelper) : imm ImportHelper :=
  let* _ := s_query (λ _, wrapf "space template is invalid" (ImportHelper_Validate s)) in
  let* template := on_spaces (createOrUpdateTemplate now newID s) in
  let res_ := {| Template := template; WITs := WITs s; WILTs := WILTs s; WITGs := WITGs s; WIBs := WIBs s |} in
  let* _ := s_map (wrapf "failed to create or update work item types") (createOrUpdateWITs now g res_) in
  let* _ := s_map (wrapf "failed to create or update work item link types") (createOrUpdateWILTs now g res_) in
  let* _ := s_map (wrapf "failed to create or update work item type groups") (createOrUpdateWITGs now g res_) in
  let* _ := s_map (wrapf "failed to create or update work item boards") (createOrUpdateWIBs now g res_) in
  s_ret res_.
End Importer.
