(* ===== verification/ImporterFacts.v ===== *)
(** * What an import keeps and what it replaces

    A successful import keeps every type with all its fields, replaces the type
    groups of the template by the imported ones in their order, and sets the
    versions of its link types back. *)

From Stdlib Require Import ZArith Lia Ascii String SpecFloat.
From S2P Require Import LinkRepository TypeFacts WorkItemFacts.
From S2P Require Export Importer.

(** ** Names of fields *)

Lemma has_name_spec m k : has_name m k = true ↔ k ∈ map fst m.
Proof.
  unfold has_name. rewrite existsb_exists, list_elem_of_In, in_map_iff. split.
  - intros ([k' v] & Hin & E%String.eqb_eq). by exists (k', v).
  - intros ([k' v] & <- & Hin). exists (k', v). split; [done|]. apply String.eqb_refl.
Qed.
Lemma fields_set_names m k v j : j ∈ map fst (fields_set m k v) ↔ j = k ∨ j ∈ map fst m.
Proof.
  induction m as [|[k' v'] m IH]; cbn [fields_set map fst]; [set_solver|].
  destruct (String.eqb_spec k' k); cbn [map fst]; set_solver.
Qed.
Lemma over_names base fields j : j ∈ map fst (over base fields) ↔ j ∈ map fst base ∨ j ∈ map fst fields.
Proof.
  unfold over. revert base. induction fields as [|[k v] fields IH]; intros base; cbn [fold_left map fst]; [set_solver|].
  rewrite IH, fields_set_names. set_solver.
Qed.
Lemma removed_none old new ext k : map fst (removed_fields old new ext) = [] → k ∈ map fst old →
  k ∈ map fst new ∨ k ∈ map fst ext.
Proof.
  intros H%map_eq_nil Hk. rewrite list_elem_of_In, in_map_iff in Hk. destruct Hk as (p & <- & Hp).
  destruct (has_name new p.1 || has_name ext p.1) eqn:E.
  - apply orb_prop in E as [E|E]; apply has_name_spec in E; auto.
  - exfalso. assert (Hin : In p (removed_fields old new ext)).
    { unfold removed_fields. apply List.filter_In. by rewrite E. }
    by rewrite H in Hin.
Qed.

(** ** Types *)

(** Every live type of [l] is still in [l'] with every field it had. *)
Definition types_kept (l l' : list WorkItemType) : Prop :=
  ∀ t, t ∈ l → t_live t = true → ∃ t', t' ∈ l' ∧ t_live t' = true ∧ t_ID t' = t_ID t ∧
    ∀ k, k ∈ map fst (t_Fields t) → k ∈ map fst (t_Fields t').
#[export] Instance types_kept_preorder : PreOrder types_kept.
Proof.
  split.
  - intros l t Ht Hl. by exists t.
  - intros l1 l2 l3 H1 H2 t Ht Hl. destruct (H1 t Ht Hl) as (t2 & Ht2 & Hl2 & E2 & F2).
    destruct (H2 t2 Ht2 Hl2) as (t3 & Ht3 & Hl3 & E3 & F3). exists t3. split_and!; [done|done|congruence|auto].
Qed.

Section Types.
Context {HO : UuidOps} (IsURL : string → bool).
Context (time_json : Z → string) (struct_json : string → option gval).
Notation coherent := (coherent time_json struct_json).
Notation createOrUpdateWIT := (createOrUpdateWIT IsURL time_json struct_json).
Notation update_wit := (update_wit IsURL time_json struct_json).
Notation Import := (Import IsURL time_json struct_json).

Definition ids_distinct (s : types_state) : Prop := NoDup (map t_ID (wit_rows (tdb s))).

Lemma Fields_in_json_names m m' : Fields_in_json time_json struct_json m = Some m' → map fst m' = map fst m.
Proof.
  unfold Fields_in_json. intros H. apply mapM_Some in H. induction H as [|p q m m' Hp _ IH]; [done|].
  cbn [map]. rewrite IH. f_equal. destruct (FieldDefinition_in_json _ _ _); [by injection Hp as <-|done].
Qed.
Lemma load_row_row d id t : load_row time_json struct_json d id = Ok t →
  ∃ r, r ∈ wit_rows d ∧ t_live r = true ∧ t_ID r = id ∧ map fst (t_Fields t) = map fst (t_Fields r) ∧
       t_Lifecycle t = t_Lifecycle r ∧ t_ID t = id.
Proof.
  intros H. pose proof (load_row_ID _ _ _ _ _ H) as Hid. revert H.
  unfold load_row, First_wit. destruct (List.find _ _) as [r|] eqn:E; [|done].
  apply List.find_some in E as [Hin E]. apply andb_prop in E as [Hl E]. apply bool_decide_eq_true in E.
  unfold scan. destruct (Fields_in_json _ _ _) as [m|] eqn:EF; [|done]. intros [= <-].
  exists r. apply list_elem_of_In in Hin. split_and!; try done. by apply Fields_in_json_names.
Qed.
Lemma row_unique s t r : ids_distinct s → t ∈ wit_rows (tdb s) → r ∈ wit_rows (tdb s) → t_ID t = t_ID r → t = r.
Proof.
  unfold ids_distinct. generalize (wit_rows (tdb s)) as l. induction l as [|x l IH]; [by intros _ ?%elem_of_nil|].
  cbn [map]. intros [Hx Hn]%NoDup_cons Ht Hr E.
  assert (HA : ∀ y, y ∈ l → t_ID y ≠ t_ID x) by (intros y Hy Eq; apply Hx; rewrite <- Eq, list_elem_of_In; by apply in_map, list_elem_of_In).
  apply elem_of_cons in Ht as [->|Ht], Hr as [->|Hr]; [done| | |by apply IH].
  - by destruct (HA _ Hr).
  - by destruct (HA _ Ht).
Qed.
Lemma empty_coherent s : cache s = ∅ → coherent s.
Proof. intros E id t H. by rewrite E, lookup_empty in H. Qed.

Lemma insert_wit_kept row s u s' : insert_wit time_json struct_json row s = (Ok u, s') → ids_distinct s →
  ids_distinct s' ∧ wit_rows (tdb s') = wit_rows (tdb s) ++ [row].
Proof.
  unfold insert_wit. case_match; [done|]. destruct (existsb _ (wit_rows (tdb s))) eqn:E; [done|]. case_match; [done|].
  intros [= _ <-] Hn. split; [|done]. unfold ids_distinct. cbn [set_wits tdb wit_rows]. rewrite map_app. apply NoDup_app.
  split_and!; [done| |apply NoDup_singleton]. intros i Hi ->%list_elem_of_singleton.
  rewrite list_elem_of_In, in_map_iff in Hi. destruct Hi as (t & Et & Ht). apply not_true_iff_false in E. apply E.
  apply existsb_exists. exists t. by rewrite bool_decide_true.
Qed.
Lemma CreateFromModel_kept now newID model s r s' : CreateFromModel time_json struct_json now newID model s = (Ok r, s') →
  ids_distinct s → ids_distinct s' ∧ types_kept (wit_rows (tdb s)) (wit_rows (tdb s')).
Proof.
  unfold CreateFromModel. intros H Hn. stm_inv.
  match goal with H : insert_wit _ _ _ _ = _ |- _ => apply insert_wit_kept in H as [H1 ->]; [|done] end.
  split; [done|]. intros t Ht Hl. exists t. split_and!; [|done..]. apply elem_of_app. by left.
Qed.

(** Saving a type with all the names its row has. *)
Lemma save_wit_kept now wit s u s' :
  save_wit time_json struct_json now wit s = (Ok u, s') → ids_distinct s → live (t_Lifecycle wit) = true →
  (∀ t, t ∈ wit_rows (tdb s) → t_live t = true → t_ID t = t_ID wit →
        ∀ k, k ∈ map fst (t_Fields t) → k ∈ map fst (t_Fields wit)) →
  ids_distinct s' ∧ types_kept (wit_rows (tdb s)) (wit_rows (tdb s')).
Proof.
  unfold save_wit. case_match; [done|]. intros [= _ <-] Hn Hlive HF. unfold ids_distinct. cbn [set_wits tdb wit_rows].
  set (row := t_with wit _ _ _ _ _ _ _).
  assert (Hid : ∀ x, t_ID (if t_live x && bool_decide (t_ID x = t_ID wit) then row else x) = t_ID x).
  { intros x. destruct (t_live x && bool_decide (t_ID x = t_ID wit)) eqn:E; [|done]. apply andb_prop in E as [_ E].
    by apply bool_decide_eq_true in E. }
  split; [by rewrite map_map, (map_ext _ _ Hid)|]. intros t Ht Hl.
  exists (if t_live t && bool_decide (t_ID t = t_ID wit) then row else t). split_and!.
  - rewrite list_elem_of_In, in_map_iff. exists t. split; [done|]. by apply list_elem_of_In.
  - by destruct (t_live t && _).
  - apply Hid.
  - intros k Hk. destruct (bool_decide_reflect (t_ID t = t_ID wit)) as [E|]; [|by rewrite andb_false_r].
    rewrite Hl. cbn [andb row t_with t_Fields]. by apply (HF t).
Qed.
Lemma update_wit_kept now template wit loaded s u s' :
  update_wit now template wit loaded s = (Ok u, s') → coherent s → ids_distinct s →
  load_row time_json struct_json (tdb s) (t_ID loaded) = Ok loaded →
  coherent s' ∧ ids_distinct s' ∧ types_kept (wit_rows (tdb s)) (wit_rows (tdb s')).
Proof.
  unfold Importer.update_wit. destruct (negb _); [done|]. intros H Hc Hn HL. stm_inv.
  match goal with H : (if bool_decide (t_Extends wit = uuid_Nil) then _ else _) _ = (Ok ?e, ?s1) |- _ =>
    rename e into ext; rename s1 into sx; assert (Hsx : tdb sx = tdb s) end.
  { destruct (bool_decide (t_Extends wit = uuid_Nil)); stm_inv; [by simplify_eq|]. simplify_eq.
    match goal with H : Load _ _ ?i s = _ |- _ => destruct (Load_reads _ _ _ i Hc) as (_ & HT & _); by rewrite H in HT end. }
  match goal with H : (if negb (bool_decide (map fst ?l = [])) then _ else _) _ = _ |- _ =>
    destruct (bool_decide_reflect (map fst l = [])) as [Hrem|]; [|done]; cbn [negb] in H end.
  stm_inv. unfold share_fields in *. simplify_eq.
  match goal with H : save_wit _ _ _ _ ?sy = (Ok _, ?sz) |- _ => rename H into HS; assert (Hsy : tdb sy = tdb s) by
    (rewrite <- Hsx; by destruct (cache sx !! _)) end.
  match goal with H : ClearGlobalWorkItemTypeCache _ = _ |- _ => unfold ClearGlobalWorkItemTypeCache in H; simplify_eq end.
  destruct (load_row_row _ _ _ HL) as (r & Hr & Hrl & Hrid & Hnames & Hlc & _).
  apply save_wit_kept in HS as [Hn' Hk].
  - rewrite Hsy in Hk. split_and!; [by apply empty_coherent|exact Hn'|exact Hk].
  - unfold ids_distinct. by rewrite Hsy.
  - cbn [updated_wit t_Lifecycle]. by rewrite Hlc.
  - rewrite Hsy. cbn [updated_wit t_ID t_Fields]. intros t Ht Htl Hid k Hkt.
    assert (t = r) as -> by (apply (row_unique s); [done..|congruence]).
    rewrite <- Hnames in Hkt. apply over_names. eapply removed_none in Hkt as [Hkt|Hkt]; [by right| |exact Hrem].
    left. destruct ext; [done|by apply elem_of_nil in Hkt].
Qed.
Lemma createOrUpdateWIT_kept now newID template wit s u s' :
  createOrUpdateWIT now newID template wit s = (Ok u, s') → coherent s → ids_distinct s →
  coherent s' ∧ ids_distinct s' ∧ types_kept (wit_rows (tdb s)) (wit_rows (tdb s')).
Proof.
  unfold Importer.createOrUpdateWIT. intros H Hc Hn.
  destruct (Load_reads time_json struct_json s (t_ID wit) Hc) as (HL & HT & Hc1).
  destruct (Load _ _ (t_ID wit) s) as [[loaded|e|m] s1]; cbn [fst snd] in HL, HT, Hc1; [| |done].
  - symmetry in HL. pose proof (load_row_ID _ _ _ _ _ HL) as Hid.
    apply update_wit_kept in H; [by rewrite HT in H|done|unfold ids_distinct; by rewrite HT|by rewrite HT, Hid].
  - destruct (is_not_found e); [|done]. stm_inv.
    match goal with H : CreateFromModel _ _ _ ?n _ _ = (Ok ?r, ?s2) |- _ =>
      pose proof (CreateFromModel_coherent time_json struct_json now n wit s1 Hc1) as Hc2; rewrite H in Hc2;
      apply CreateFromModel_kept in H as [Hn2 Hk]; [|unfold ids_distinct; by rewrite HT] end.
    rewrite HT in Hk. by split_and!.
Qed.
Lemma each_wit_kept now newID template i l s u s' :
  each_wit (λ i, createOrUpdateWIT now (newID i) template) i l s = (Ok u, s') → coherent s → ids_distinct s →
  types_kept (wit_rows (tdb s)) (wit_rows (tdb s')).
Proof.
  revert i s. induction l as [|wit l IH]; intros i s H Hc Hn; cbn [each_wit] in H; [by injection H as _ <-|].
  apply s_bind_ok in H as ([] & s1 & H1 & H). apply createOrUpdateWIT_kept in H1 as (Hc1 & Hn1 & Hk); [|done..].
  etrans; [exact Hk|]. by eapply IH.
Qed.
Lemma insert_children_rows now ids p idx cs s u s' :
  insert_children now ids p idx cs s = (Ok u, s') → wit_rows (tdb s') = wit_rows (tdb s).
Proof.
  revert ids idx s. induction cs as [|c cs IH]; intros ids idx s; cbn [insert_children]; [by intros [= _ <-]|].
  intros H. apply s_bind_ok in H as ([] & s1 & H1 & H). apply IH in H. rewrite H. unfold insert_child in H1.
  case_match; [done|]. case_match; [done|]. by injection H1 as <-.
Qed.
Lemma wire_children_rows now ids i l s u s' :
  each_wit (λ i, wire_children now (ids i)) i l s = (Ok u, s') → wit_rows (tdb s') = wit_rows (tdb s).
Proof.
  revert i s. induction l as [|wit l IH]; intros i s H; cbn [each_wit] in H; [by injection H as _ <-|].
  apply s_bind_ok in H as ([] & s1 & H1 & H). apply IH in H. rewrite H. unfold wire_children in H1. stm_inv. simplify_eq.
  match goal with H : AddChildTypes _ _ _ ?k _ = _ |- _ => destruct k as [|c0 k0]; unfold AddChildTypes in H end.
  - stm_inv. done.
  - stm_inv. match goal with H : insert_children _ _ _ _ _ _ = _ |- _ => apply insert_children_rows in H end.
    unfold ClearGlobalWorkItemTypeCache in *. simplify_eq/=. done.
Qed.

(** The steps of an import. *)
Lemma Import_parts now newID g s d r d' : Import now newID g s d = (Ok r, d') →
  ∃ t d1 d2 d3 d4, on_spaces (createOrUpdateTemplate now newID s) d = (Ok t, d1) ∧
    let s' := {| Template := t; WITs := WITs s; WILTs := WILTs s; WITGs := WITGs s; WIBs := WIBs s |} in
    createOrUpdateWITs IsURL time_json struct_json now g s' d1 = (Ok tt, d2) ∧
    createOrUpdateWILTs now g s' d2 = (Ok tt, d3) ∧
    createOrUpdateWITGs now g s' d3 = (Ok tt, d4) ∧ createOrUpdateWIBs now g s' d4 = (Ok tt, d').
Proof.
  unfold Importer.Import. intros H. stm_inv.
  repeat match goal with u : () |- _ => destruct u end. by repeat eexists.
Qed.

(** C27: A successful import keeps every live work item type and the name of every field it has, whatever types the
    template brings; new fields may come. *)
Theorem Import_keeps_fields now newID g s d r d' (Hc : coherent (types_view d)) (Hn : ids_distinct (im_types d))
    (H : Import now newID g s d = (Ok r, d')) :
  types_kept (wit_rows (tdb (im_types d))) (wit_rows (tdb (im_types d'))).
Proof.
  destruct (Import_parts _ _ _ _ _ _ _ H) as (t & d1 & d2 & d3 & d4 & H1 & H2 & H3 & H4 & H5).
  assert (E1 : im_types d1 = im_types d).
  { unfold on_spaces in H1. destruct (createOrUpdateTemplate _ _ _ _). by injection H1 as _ <-. }
  assert (E' : wit_rows (tdb (im_types d')) = wit_rows (tdb (im_types d2))).
  { unfold createOrUpdateWILTs, createOrUpdateWITGs, createOrUpdateWIBs, on_links, on_groups, on_boards in *. stm_inv.
    repeat match goal with H : (let '(_, _) := ?m in _) = _ |- _ => destruct m; simplify_eq end. done. }
  rewrite E'. unfold createOrUpdateWITs in H2. stm_inv. unfold on_types in *.
  match goal with H : (let '(_, _) := ?m in _) = _ |- _ => destruct m as [r1 s1] eqn:Es; simplify_eq end.
  apply s_bind_ok in Es as ([] & s2 & Es1 & Es2). apply wire_children_rows in Es2.
  cbn [im_with_types im_types]. rewrite Es2. apply each_wit_kept in Es1.
  - unfold types_view in Es1. cbn [tdb wit_rows] in Es1. by rewrite E1 in Es1.
  - unfold types_view in Hc |- *. by rewrite E1.
  - unfold ids_distinct, types_view. cbn [tdb wit_rows]. by rewrite E1.
Qed.

(** ** Type groups *)

(** What a list of groups shows. *)
Definition shown (types : WorkItemTypeGroup → list uuid) (g : WorkItemTypeGroup) : string * list uuid :=
  (tg_Name g, types g).
Definition of_template (id : uuid) (g : WorkItemTypeGroup) : bool := bool_decide (tg_SpaceTemplateID g = id).

Lemma create_groups_ok now g template l : ∀ pos d u d', groups_wf d → create_groups now g pos l d = (Ok u, d') →
  Forall (λ x, tg_SpaceTemplateID x = template) l →
  ∃ rows, groups d' = groups d ++ rows ∧ gr_templates d' = gr_templates d ∧ groups_wf d' ∧
    Forall (λ x, tg_SpaceTemplateID x = template ∧ row_live x = true) rows ∧
    Forall (λ x, Z.of_nat pos ≤ tg_Position x) rows ∧ StronglySorted (λ a b, tg_Position a < tg_Position b) rows ∧
    map (shown (λ x, loadTypeList d' (tg_ID x))) rows = map (shown TypeList) l ∧
    ∀ x, x ∈ groups d → loadTypeList d' (tg_ID x) = loadTypeList d (tg_ID x).
Proof.
  induction l as [|grp l IH]; intros pos d u d' Hd H Hl; cbn [create_groups] in H.
  - injection H as _ <-. exists []. rewrite app_nil_r. by split_and!; try constructor; try apply Hd.
  - apply Forall_cons in Hl as [Hgt Hl]. apply s_bind_ok in H as (g1 & d1 & H1 & H). rewrite s_map_ok in H1 by (intro; apply wrapf_ok).
    assert (HT1 : gr_templates d1 = gr_templates d).
    { unfold group_Create in H1. case_match; [done|]. case_match; [done|]. case_match. case_match. by injection H1 as _ <-. }
    destruct (group_created _ _ _ _ _ _ _ Hd H1) as (ID & _ & Hr1 & Hd1 & Hf & HL1 & Hk1).
    destruct (IH (S pos) d1 u d' Hd1 H Hl) as (rows & Hr & HT & Hd' & Hall & Hpos & Hs & Hshow & Hk).
    set (row := tg_with (witg_with grp (tg_SpaceTemplateID grp) (Z.of_nat pos)) (stamped now) ID []) in *.
    assert (Hin : row ∈ groups d1) by (rewrite Hr1; apply elem_of_app; right; by apply list_elem_of_singleton).
    exists (row :: rows). split_and!.
    + by rewrite Hr, Hr1, <- app_assoc.
    + congruence.
    + done.
    + constructor; [|done]. by split.
    + constructor; [cbn; lia|]. eapply Forall_impl; [exact Hpos|]. intros x. cbn beta. lia.
    + constructor; [done|]. eapply Forall_impl; [exact Hpos|]. intros x. cbn. lia.
    + cbn [map]. f_equal; [|done]. unfold shown. f_equal. rewrite (Hk row Hin). exact HL1.
    + intros x Hx. rewrite Hk, Hk1; [done..|]. rewrite Hr1. apply elem_of_app. by left.
Qed.
Lemma delete_groups_wf template d u d' : delete_groups template d = (Ok u, d') → groups_wf d →
  groups_wf d' ∧ groups d' = List.filter (λ g, negb (of_template template g)) (groups d) ∧ gr_templates d' = gr_templates d.
Proof.
  unfold delete_groups. intros [= _ <-] [Hn Hm]. split_and!; [|done..]. split; cbn [set_members set_groups groups members].
  - unfold ids_unique in *. clear Hm. induction (groups d) as [|x t IH]; [done|]. cbn [map] in Hn. apply NoDup_cons in Hn as [Hx Hn].
    cbn [List.filter]. case_match; [|by apply IH]. cbn [map]. apply NoDup_cons. split; [|by apply IH].
    intros Hi. apply Hx. rewrite list_elem_of_In, in_map_iff in Hi |- *. destruct Hi as (y & E & [Hy _]%List.filter_In). by exists y.
  - intros m. rewrite list_elem_of_In, List.filter_In, <- list_elem_of_In, negb_true_iff, bool_decide_eq_false.
    intros [Hin Hno]. destruct (Hm m Hin) as (x & Hx & E). exists x. split; [|done].
    rewrite list_elem_of_In, List.filter_In, <- list_elem_of_In. split; [done|].
    rewrite negb_true_iff, bool_decide_eq_false. intros Et. apply Hno.
    rewrite list_elem_of_In, in_map_iff. exists x. split; [done|]. apply List.filter_In.
    split; [by apply list_elem_of_In|by apply bool_decide_eq_true].
Qed.
Lemma check_each_ok {A} (f : A → res unit) l : check_each f l = Ok tt → Forall (λ x, f x = Ok tt) l.
Proof.
  induction l as [|x l IH]; [constructor|]. cbn [check_each]. intros H. apply bind_ok in H as ([] & Hx & H).
  constructor; [done|by apply IH].
Qed.
Lemma Validate_groups s u : ImportHelper_Validate IsURL s = Ok u →
  Forall (λ g, tg_SpaceTemplateID g = tp_ID (Template s)) (WITGs s).
Proof.
  unfold ImportHelper_Validate. intros H. repeat (apply bind_ok in H as ([] & ? & H)).
  match goal with H : check_each _ (WITGs s) = _ |- _ => apply check_each_ok in H; eapply Forall_impl; [exact H|] end.
  intros g. unfold same_template. cbn beta. by case_bool_decide.
Qed.
Lemma template_saved now newID s d t d' : createOrUpdateTemplate now newID s d = (Ok t, d') → tp_ID (Template s) ≠ uuid_Nil →
  ids_unique (template_rows d) →
  tp_ID t = tp_ID (Template s) ∧ is_ok (template_Load d' (tp_ID (Template s))) = true.
Proof.
  unfold createOrUpdateTemplate, template_Load at 1. intros H Hnil Hn.
  assert (HL : ∀ x rows, x ∈ rows → row_live x = true → tp_ID x = tp_ID (Template s) → ids_unique rows →
    is_ok (template_Load (set_templates rows d) (tp_ID (Template s))) = true).
  { intros x rows Hx Hl E Hu. unfold template_Load. cbn [set_templates template_rows].
    by rewrite (proj2 (t_first_ID_iff rows _ x Hu)). }
  destruct (t_first _ _) as [x|] eqn:Ef.
  - destruct (SpaceTemplate_Validate _); [|done..]. destruct (t_update _ _ _ _ _) as [v|[[b n] rows]] eqn:Eu; [done|].
    injection H as <- <-. pose proof (t_update_ids _ _ _ _ _ _ _ _ Eu Hn) as Hn'.
    apply t_first_some in Ef as (Hx & Hl & Hid%has_ID_true). change (tp_ID x = tp_ID (Template s)) in Hid.
    apply t_update_ok in Eu as (Eid & ED & -> & _). change (tp_ID b = tp_ID x) in Eid. split; [congruence|].
    assert (Hb : row_live b = true) by (unfold row_live, live in *; by rewrite ED).
    apply (HL (if hit (λ _, true) b x then b else x)); [|by case_match|case_match; congruence|done].
    rewrite list_elem_of_In, in_map_iff. exists x. split; [done|]. by apply list_elem_of_In.
  - cbn [is_not_found Errors.Errors.Cause] in H. unfold s_map, template_Create in H. rewrite bool_decide_false in H by done.
    destruct (SpaceTemplate_Validate _); [|done..]. destruct (t_insert _ _ _ _) as [v|[b rows]] eqn:Ei; [done|].
    injection H as <- <-. assert (Hpk : primary_key "space_templates_pkey" ∈ template_constraints) by (unfold template_constraints; set_solver).
    pose proof (t_insert_ids _ _ _ _ _ _ _ Hpk Ei Hn) as Hn'. apply t_insert_ok in Ei as (-> & -> & _). split; [done|].
    apply (HL (with_life (stamped now) (Template s))); [|done|done|done]. apply elem_of_app. right. by apply list_elem_of_singleton.
Qed.
Lemma CheckExists_first {A} {HR : Row A} name (t : list A) id x : t_first (has_ID id) t = Some x → CheckExists name t id = Ok tt.
Proof.
  intros (Hx & Hl & Hid%has_ID_true)%t_first_some. unfold CheckExists, Exists.
  assert (existsb (λ a, row_live a && String.eqb (uuid_String (row_ID a)) (uuid_String id)) t = true) as ->; [|done].
  apply existsb_exists. exists x. split; [by apply list_elem_of_In|]. by rewrite Hl, Hid, String.eqb_refl.
Qed.
(** The groups of the template sorted by their position are the rows in the order they were created. *)
Lemma listed_groups template (rows : list WorkItemTypeGroup) old :
  Forall (λ x, tg_SpaceTemplateID x = template ∧ row_live x = true) rows →
  StronglySorted (λ a b, tg_Position a < tg_Position b) rows →
  members_of tg_SpaceTemplateID tg_Position template (List.filter (λ g, negb (of_template template g)) old ++ rows) = rows.
Proof.
  intros Hall Hs. unfold members_of, t_where. rewrite List.filter_app.
  assert (E1 : List.filter (λ a, row_live a && bool_decide (tg_SpaceTemplateID a = template))
            (List.filter (λ g, negb (of_template template g)) old) = []).
  { induction old as [|x old IH]; [done|]. cbn [List.filter]. unfold of_template at 1.
    destruct (bool_decide _) eqn:E; cbn [negb]; [done|]. cbn [List.filter]. by rewrite E, andb_false_r. }
  assert (E2 : List.filter (λ a, row_live a && bool_decide (tg_SpaceTemplateID a = template)) rows = rows).
  { clear Hs. induction Hall as [|x rows [E L] _ IH]; [done|]. cbn [List.filter]. by rewrite L, bool_decide_true, IH. }
  rewrite E1, E2. by apply sort_sorted.
Qed.

(** A successful import leaves exactly the type groups of the template, in their order and each with its types in
    their order, and does not touch the groups of other templates. *)
Theorem Import_replaces_groups now newID g s d r d' (Hg : groups_wf (group_view d))
    (Ht : ids_unique (template_rows (im_spaces d))) (H : Import now newID g s d = (Ok r, d')) :
  (∃ l, group_List (group_view d') (tp_ID (Template s)) = Ok l ∧
        map (shown TypeList) l = map (shown TypeList) (WITGs s)) ∧
  List.filter (λ x, negb (of_template (tp_ID (Template s)) x)) (im_groups d') =
  List.filter (λ x, negb (of_template (tp_ID (Template s)) x)) (im_groups d).
Proof.
  assert (HV : ∃ u, ImportHelper_Validate IsURL s = Ok u).
  { unfold Importer.Import in H. stm_inv. eexists. by apply (wrapf_ok "space template is invalid"). }
  destruct HV as (u & HV). pose proof (Validate_groups _ _ HV) as HF.
  assert (Hnil : tp_ID (Template s) ≠ uuid_Nil).
  { unfold ImportHelper_Validate in HV. apply bind_ok in HV as ([] & HV & _). apply wrapf_ok in HV.
    unfold SpaceTemplate_Validate in HV. case_match; [done|]. by case_bool_decide. }
  destruct (Import_parts _ _ _ _ _ _ _ H) as (t & d1 & d2 & d3 & d4 & H1 & H2 & H3 & H4 & H5).
  set (T := tp_ID (Template s)) in *.
  assert (E1 : tp_ID t = T ∧ is_ok (template_Load (im_spaces d1) T) = true ∧ im_groups d1 = im_groups d ∧ im_members d1 = im_members d).
  { unfold on_spaces in H1. destruct (createOrUpdateTemplate _ _ _ _) as [r1 sp] eqn:Es. injection H1 as -> <-.
    apply template_saved in Es as [? ?]; done. }
  destruct E1 as (ET & HTL & Eg & Em).
  assert (E3 : im_spaces d3 = im_spaces d1 ∧ im_groups d3 = im_groups d1 ∧ im_members d3 = im_members d1).
  { unfold createOrUpdateWITs, createOrUpdateWILTs, on_types, on_links in *. stm_inv.
    repeat match goal with H : (let '(_, _) := ?m in _) = _ |- _ => destruct m; simplify_eq end. done. }
  destruct E3 as (Esp & Eg3 & Em3).
  assert (E5 : im_spaces d' = im_spaces d4 ∧ im_groups d' = im_groups d4 ∧ im_members d' = im_members d4).
  { unfold createOrUpdateWIBs, on_boards in H5. by destruct (s_bind _ _ _); simplify_eq. }
  destruct E5 as (Esp5 & Eg5 & Em5).
  unfold createOrUpdateWITGs, on_groups in H4. cbn [Template WITGs] in H4. rewrite ET in H4.
  destruct (s_bind _ _ (group_view d3)) as [r4 v4] eqn:E4. injection H4 as -> <-.
  apply s_bind_ok in E4 as ([] & v3 & Hdel & Hcr). apply delete_groups_wf in Hdel as (Hwf3 & Hr3 & Htm3).
  2: { destruct Hg as [Hn Hm]. split; unfold group_view; cbn [groups members]; rewrite Eg3, Eg, ?Em3, ?Em; done. }
  destruct (create_groups_ok _ _ _ _ _ _ _ _ Hwf3 Hcr HF) as (rows & Hr & Htm & Hwf & Hall & _ & Hs & Hshow & _).
  unfold group_view in Hr3. cbn [groups] in Hr3. cbn [im_groups im_members im_spaces] in *.
  assert (EG : groups (group_view d') = groups v4 ∧ members (group_view d') = members v4) by done. split.
  - unfold group_List. destruct (template_Load _ _) as [x|e|m] eqn:EL; [|done..]. unfold template_Load in EL.
    destruct (t_first _ _) as [y|] eqn:Ef; [|done].
    assert (CheckExists "space_templates" (gr_templates (group_view d')) T = Ok tt) as ->.
    { eapply CheckExists_first. unfold group_view. cbn [gr_templates]. rewrite Esp5, Esp. exact Ef. }
    eexists. split; [reflexivity|]. rewrite map_map. destruct EG as [-> EM].
    rewrite Hr, Hr3, listed_groups by done. rewrite <- Hshow. apply map_ext. intros x0. unfold shown, loadTypeList.
    cbn [tg_with tg_Name TypeList]. by rewrite EM.
  - change (im_groups d') with (groups (group_view d')). destruct EG as [-> _]. rewrite Hr, Hr3, List.filter_app, Eg3, Eg.
    assert (List.filter (λ x, negb (of_template T x)) rows = []) as ->.
    { clear - Hall. induction Hall as [|x rows [E _] _ IH]; [done|]. cbn [List.filter]. unfold of_template at 1.
      by rewrite bool_decide_true. }
    rewrite app_nil_r. apply List.forallb_filter_id, forallb_forall. by intros x [_ Hx]%List.filter_In.
Qed.
End Types.

(** ** Link types *)

(** Importing a link type there is already sets its version and its creation time to those of the template, which
    has none: later saves made from the version that was read are refused, and those from version 0 are not. *)
Theorem createOrUpdateWILT_resets now newID template wilt t d u d' (HO : UuidOps)
    (Ht : LinkType_Load d (lt_ID wilt) = Ok t)
    (H : createOrUpdateWILT now newID template wilt d = (Ok u, d')) :
  ∀ x, x ∈ link_types d' → lt_live x = true → lt_ID x = lt_ID wilt →
    lt_Version x = lt_Version wilt ∧ CreatedAt (lt_Lifecycle x) = CreatedAt (lt_Lifecycle wilt).
Proof.
  unfold createOrUpdateWILT in H. rewrite Ht in H. case_match; [done|]. unfold save_wilt in H. case_match; [done|].
  injection H as _ <-. cbn [set_link_types link_types]. intros x. rewrite list_elem_of_In, in_map_iff.
  intros (y & <- & _). destruct (lt_live y && bool_decide (lt_ID y = _)) eqn:E; [done|].
  intros Hl Hid. cbn [wilt_with lt_ID] in E. by rewrite Hl, bool_decide_true in E.
Qed.

(** ** A template imported twice *)

Definition kanban (extra : FieldDefinitions) (types : list (list uuid)) : ImportHelper :=
  SetID id_template
    {| Template := {| tp_Lifecycle := zero_life; tp_ID := id_template; tp_Version := 0; tp_Name := "kanban";
                      tp_Description := None; tp_CanConstruct := true |};
       WITs := [planner_model; model_of id_bug id_planner "bug" (("system.state", state_field) :: extra)];
       WILTs := []; WITGs := imap (λ i l, {| tg_Lifecycle := zero_life; tg_ID := uuid_Nil; tg_SpaceTemplateID := uuid_Nil;
                                           Bucket := BucketIteration; tg_Name := Itoa (Z.of_nat i); tg_Description := None;
                                           tg_Icon := ""; tg_Position := 7; TypeList := l |}) types;
       WIBs := [] |}.
Definition fresh_ids (k : N) : generated :=
  let fresh (n : nat) := uuid_of (1000 * k + N.of_nat n) in
  {| wit_newID := fresh; child_newIDs := λ _, []; wilt_newID := fresh; group_newID := fresh;
     member_newID := λ i j, uuid_of (1000 * k + 100 * N.of_nat i + N.of_nat j);
     board_newID := fresh; column_newID := λ i j, uuid_of (1000 * k + 100 * N.of_nat i + N.of_nat j) |}.
Definition empty_import_db : import_db :=
  {| im_spaces := {| space_rows := []; template_rows := [] |}; im_types := no_types;
     im_links := {| links := []; link_types := []; items := []; LinkRepository.revisions := []; space_templates := [] |};
     im_groups := []; im_members := []; im_boards := []; im_columns := [] |}.
Notation import k s := (Import (λ _, true) no_json_time no_json_struct t0 (uuid_of 50) (fresh_ids k) s).
Definition first_import := import 1 (kanban [] [[id_bug]; [id_planner; id_bug]]) empty_import_db.
Definition second_import := import 2 (kanban [("system.owner", title_field)] [[id_bug; id_planner]]) first_import.2.
Definition field_names (d : import_db) : list (list string) := map (λ t, map fst (t_Fields t)) (wit_rows (tdb (im_types d))).

Lemma once_imported : is_ok first_import.1 = true ∧ is_ok second_import.1 = true.
Proof. by vm_compute. Qed.
Lemma Import_keeps_fields_witness :
  field_names first_import.2 = [["system.title"]; ["system.title"; "system.state"]] ∧
  types_kept (wit_rows (tdb (im_types first_import.2))) (wit_rows (tdb (im_types second_import.2))).
Proof.
  split; [by vm_compute|]. destruct second_import as [[r|e|m] d'] eqn:E; [|by destruct once_imported as [_ H]; rewrite E in H..].
  eapply (Import_keeps_fields (λ _, true) no_json_time no_json_struct).
  - apply empty_coherent. by vm_compute.
  - unfold ids_distinct. apply (bool_decide_unpack _). by vm_compute.
  - exact E.
Defined.
Lemma Import_replaces_groups_witness :
  map (shown TypeList) (im_groups first_import.2) = [("0", []); ("1", [])] ∧
  ∃ l, group_List (group_view first_import.2) id_template = Ok l ∧
    map (shown TypeList) l = [("0", [id_bug]); ("1", [id_planner; id_bug])].
Proof.
  split; [by vm_compute|]. destruct first_import as [[r|e|m] d'] eqn:E; [|by destruct once_imported as [H _]; rewrite E in H..].
  edestruct (Import_replaces_groups (λ _, true) no_json_time no_json_struct) as [(l & Hl & HT) _]; [..|exact E|].
  - split; [apply NoDup_nil_2|]. by intros m ?%elem_of_nil.
  - apply NoDup_nil_2.
  - exists l. split; [exact Hl|]. rewrite HT. by vm_compute.
Defined.
