(* ===== verification/Migration.v ===== *)
(** * Migration of the database

    [migration/migration.go]: the versions of the schema with the scripts that
    lead to them, the loop that applies the ones that are missing, with other
    processes that do the same at the same time, and [PopulateCommonTypes].
    What a script does to the database is a parameter: it is SQL. *)

From Stdlib Require Import ZArith Lia Ascii String.
From stdpp Require Import relations.
From S2P Require Import TypeFacts.
From S2P Require Export ImporterFacts Search.

Definition SystemSpace : uuid := uuid_of 0x2e0698d8753e4cefbb7cf027634824a2.
Definition SystemTask : uuid := uuid_of 0xbbf3541804b6426ca60b7f80beb0b624.
Definition SystemValueProposition : uuid := uuid_of 0x3194ab60855b415590059dce4a05f1eb.
Definition SystemFundamental : uuid := uuid_of 0xee7ca005f81d4eea9b9b1965df0988d0.
Definition SystemExperience : uuid := uuid_of 0xb9a71831c8034f6687744193fffd1311.
Definition SystemFeature : uuid := uuid_of 0x0a24d3c2e0a646868051ec0ea1915a28.
Definition SystemScenario : uuid := uuid_of 0x71171e906d35498fa6a72083b5267c18.
Definition SystemBug : uuid := uuid_of 0x26787039b68f4e288814c2f93be1ef4e.
Definition SystemWorkItemLinkTypeBugBlockerID : uuid := uuid_of 0x2CEA3C793B79423B90F41E59174C8F43.
Definition SystemWorkItemLinkPlannerItemRelatedID : uuid := uuid_of 0x9B63188583B14ABBA3403A9EDE8493FA.
Definition SystemLegacyTemplateID : uuid := uuid_of 0x929c963a174c4c37b487272067e88bd4.

(** A database: the table of versions, when there is one, and everything else. *)
Record database (C : Type) := Database { content : C; version : option (list Z) }.
Arguments Database {C} _ _.
Arguments content {C} _.
Arguments version {C} _.

(** What a round of the loop meets: what others commit before its transaction, and whether the statements of the
    transaction itself succeed. *)
Record round (D : Type) := { others : D → D; begins : res unit; locked : res unit; commits : res unit; rolls_back : res unit }.
Arguments others {D} _.
Arguments begins {D} _.
Arguments locked {D} _.
Arguments commits {D} _.
Arguments rolls_back {D} _.

(** ** Versions *)

Section Migrations.
Context {HO : UuidOps} {C T : Type}.
(** The packaged files, [text/template], and what the database makes of a script. *)
Context (Asset : string → res string) (Parse : string → res T) (Execute : T → list string → res string).
Context (Exec : string → database C → res (database C)).
Notation dbm A := (database C → res A * database C).
Definition fn : Type := dbm unit.
Definition steps : Type := list fn.
Definition Migrations : Type := list steps.

Definition exec_script (sql : string) : fn := λ d,
  match Exec sql d with
  | Ok d => (Ok tt, d)
  | Err e => (Err (Stacked e), d)
  | Panic m => (Panic m, d)
  end.
Definition ExecuteSQLFile (filename : string) (args : list string) : fn :=
  let* data := s_query (λ _, wrapf "failed to find filename: %s" (Asset filename)) in
  match args with
  | [] => exec_script data
  | _ =>
      let* tmpl := s_query (λ _, wrapf "failed to parse SQL template in file %s" (Parse data)) in
      let* sql := s_query (λ _, wrapf "failed to execute SQL template in file %s" (Execute tmpl args)) in
      exec_script sql
  end.
Definition versions_0_to_45 : Migrations :=
  [[ExecuteSQLFile "000-bootstrap.sql" []];
   [ExecuteSQLFile "001-common.sql" []];
   [ExecuteSQLFile "002-tracker-items.sql" []];
   [ExecuteSQLFile "003-login.sql" []];
   [ExecuteSQLFile "004-drop-tracker-query-id.sql" []];
   [ExecuteSQLFile "005-add-search-index.sql" []];
   [ExecuteSQLFile "006-rename-parent-path.sql" []];
   [ExecuteSQLFile "007-work-item-links.sql" []];
   [ExecuteSQLFile "008-soft-delete-or-resurrect.sql" []];
   [ExecuteSQLFile "009-drop-wit-trigger.sql" []];
   [ExecuteSQLFile "010-comments.sql" []];
   [ExecuteSQLFile "011-projects.sql" []];
   [ExecuteSQLFile "012-unique-work-item-links.sql" []];
   [ExecuteSQLFile "013-iterations.sql" []];
   [ExecuteSQLFile "014-wi-fields-index.sql" []];
   [ExecuteSQLFile "015-rename-projects-to-spaces.sql" []];
   [ExecuteSQLFile "016-drop-wi-links-trigger.sql" []];
   [ExecuteSQLFile "017-alter-iterations.sql" []];
   [ExecuteSQLFile "018-rewrite-wits.sql" []];
   [ExecuteSQLFile "019-add-state-iterations.sql" []];
   [ExecuteSQLFile "020-work-item-description-update-search-index.sql" []];
   [ExecuteSQLFile "021-add-space-description.sql" []];
   [ExecuteSQLFile "022-work-item-description-update.sql" []];
   [ExecuteSQLFile "023-comment-markup.sql" []];
   [ExecuteSQLFile "024-comment-markup-default.sql" []];
   [ExecuteSQLFile "025-refactor-identities-users.sql" []];
   [ExecuteSQLFile "026-areas.sql" []];
   [ExecuteSQLFile "027-areas-index.sql" []];
   [ExecuteSQLFile "028-identity-provider_url.sql" []];
   [ExecuteSQLFile "029-identities-foreign-key.sql" []];
   [ExecuteSQLFile "030-indentities-unique-index.sql" []];
   [ExecuteSQLFile "031-iterations-parent-path-ltree.sql" []];
   [ExecuteSQLFile "032-add-foreign-key-space-id.sql" []];
   [ExecuteSQLFile "033-add-space-id-wilt.sql" [uuid_String SystemSpace; "system.space"; "Description of the space"]];
   [ExecuteSQLFile "034-space-owner.sql" []];
   [ExecuteSQLFile "035-wit-to-use-uuid.sql"
      [uuid_String SystemPlannerItem;
       uuid_String SystemTask;
       uuid_String SystemValueProposition;
       uuid_String SystemFundamental;
       uuid_String SystemExperience;
       uuid_String SystemFeature;
       uuid_String SystemScenario;
       uuid_String SystemBug]];
   [ExecuteSQLFile "036-add-icon-to-wit.sql" []];
   [ExecuteSQLFile "037-work-item-revisions.sql" []];
   [ExecuteSQLFile "038-comment-revisions.sql" []];
   [ExecuteSQLFile "039-comment-revisions-parentid.sql" []];
   [ExecuteSQLFile "040-add-space-id-wi-wit-tq.sql" [uuid_String SystemSpace]];
   [ExecuteSQLFile "041-unique-area-name-create-new-area.sql" []];
   [ExecuteSQLFile "042-work-item-link-revisions.sql" []];
   [ExecuteSQLFile "043-space-resources.sql" []];
   [ExecuteSQLFile "044-add-contextinfo-column-users.sql" []];
   [ExecuteSQLFile "045-adds-order-to-existing-wi.sql" []]].
Definition versions_46_to_88 : Migrations :=
  [[ExecuteSQLFile "046-oauth-states.sql" []];
   [ExecuteSQLFile "047-codebases.sql" []];
   [ExecuteSQLFile "048-unique-iteration-name-create-new-iteration.sql" []];
   [ExecuteSQLFile "049-add-wi-to-root-area.sql" []];
   [ExecuteSQLFile "050-add-company-to-user-profile.sql" []];
   [ExecuteSQLFile "051-modify-work_item_link_types_name_idx.sql" []];
   [ExecuteSQLFile "052-unique-space-names.sql" []];
   [ExecuteSQLFile "053-edit-username.sql" []];
   [ExecuteSQLFile "054-add-stackid-to-codebase.sql" []];
   [ExecuteSQLFile "055-assign-root-area-if-missing.sql" []];
   [ExecuteSQLFile "056-assign-root-iteration-if-missing.sql" []];
   [ExecuteSQLFile "057-add-last-used-workspace-to-codebase.sql" []];
   [ExecuteSQLFile "058-index-identities-fullname.sql" []];
   [ExecuteSQLFile "059-fixed-ids-for-system-link-types-and-categories.sql"
      [uuid_String SystemWorkItemLinkTypeBugBlockerID;
       uuid_String SystemWorkItemLinkPlannerItemRelatedID;
       uuid_String LinkRepository.SystemWorkItemLinkTypeParentChildID;
       uuid_String (uuid_of 0xB1482C65A64D4058BEB062F7198CB0F4);
       uuid_String (uuid_of 0x2F24724F797C40738B164BB8CE9E84A6)]];
   [ExecuteSQLFile "060-fixed-identities-username-idx.sql" []];
   [ExecuteSQLFile "061-replace-index-space-name.sql" []];
   [ExecuteSQLFile "062-link-system-preparation.sql" []];
   [ExecuteSQLFile "063-workitem-related-changes.sql" []];
   [ExecuteSQLFile "064-remove-link-combinations.sql" []];
   [ExecuteSQLFile "065-workitem-id-unique-per-space.sql" []];
   [ExecuteSQLFile "066-work_item_links_data_integrity.sql" []];
   [ExecuteSQLFile "067-comment-parentid-uuid.sql" []];
   [ExecuteSQLFile "068-index_identities_username.sql" []];
   [ExecuteSQLFile "069-limit-execution-order-to-space.sql" []];
   [ExecuteSQLFile "070-rename-comment-createdby-to-creator.sql" []];
   [ExecuteSQLFile "071-iteration-related-changes.sql" []];
   [ExecuteSQLFile "072-adds-active-flag-in-iteration.sql" []];
   [ExecuteSQLFile "073-labels.sql" []];
   [ExecuteSQLFile "074-label-border-color.sql" []];
   [ExecuteSQLFile "075-label-unique-name.sql" []];
   [ExecuteSQLFile "076-drop-space-resources-and-oauth-state.sql" []];
   [ExecuteSQLFile "077-index-work-item-links.sql" []];
   [ExecuteSQLFile "078-tracker-to-use-uuid.sql" []];
   [ExecuteSQLFile "079-assignee-and-label-empty-value.sql" [SystemAssignees; SystemLabels]];
   [ExecuteSQLFile "080-remove-unknown-link-types.sql"
      [uuid_String SystemWorkItemLinkTypeBugBlockerID;
       uuid_String SystemWorkItemLinkPlannerItemRelatedID;
       uuid_String LinkRepository.SystemWorkItemLinkTypeParentChildID;
       uuid_String (uuid_of 0xB1482C65A64D4058BEB062F7198CB0F4);
       uuid_String (uuid_of 0x2F24724F797C40738B164BB8CE9E84A6)]];
   [ExecuteSQLFile "081-queries.sql" []];
   [ExecuteSQLFile "082-iteration-related-changes.sql" []];
   [ExecuteSQLFile "083-index-comments-parent.sql" []];
   [ExecuteSQLFile "084-codebases-spaceid-url-index.sql" []];
   [ExecuteSQLFile "085-delete-system.number-json-field.sql" []];
   [ExecuteSQLFile "086-add-can-construct-to-wit.sql" [uuid_String SystemPlannerItem]];
   [ExecuteSQLFile "087-space-templates.sql" [uuid_String SystemLegacyTemplateID; uuid_String SystemPlannerItem]];
   [ExecuteSQLFile "088-type-groups-and-child-types.sql" []]].
Definition versions_89_to_112 : Migrations :=
  [[ExecuteSQLFile "089-fixup-space-templates.sql"
      [uuid_String SystemLegacyTemplateID;
       uuid_String LinkRepository.SystemBaseTemplateID;
       uuid_String SystemPlannerItem]];
   [ExecuteSQLFile "090-queries-version.sql" []];
   [ExecuteSQLFile "091-comments-child-comments.sql" []];
   [ExecuteSQLFile "092-comment-revisions-child-comments.sql" []];
   [ExecuteSQLFile "093-codebase-add-cve-scan.sql" []];
   [ExecuteSQLFile "094-changes-to-agile-template.sql" []];
   [ExecuteSQLFile "095-remove-resolution-field-from-impediment.sql" []];
   [ExecuteSQLFile "096-changes-to-agile-template.sql" []];
   [ExecuteSQLFile "097-remove-resolution-field-from-impediment.sql" []];
   [ExecuteSQLFile "098-boards.sql" []];
   [ExecuteSQLFile "099-codebase-cve-scan-default-false.sql" []];
   [ExecuteSQLFile "100-drop-userspace-data.sql" []];
   [ExecuteSQLFile "101-add-description-to-witg.sql" []];
   [ExecuteSQLFile "102-add-forward-and-reverse-link-type-descriptions.sql" []];
   [ExecuteSQLFile "103-user-email-notnull-notempty.sql" []];
   [ExecuteSQLFile "104-add-index-wi-revision.sql" []];
   [ExecuteSQLFile "105-update-root-area-and-iteration-path-field.sql" []];
   [ExecuteSQLFile "106-remove-link-category-concept.sql" []];
   [ExecuteSQLFile "107-number-sequences-table.sql" []];
   [ExecuteSQLFile "108-number-column-for-area.sql" []];
   [ExecuteSQLFile "109-number-column-for-iteration.sql" []];
   [ExecuteSQLFile "110-trackerquery-to-use-uuid.sql" []];
   [ExecuteSQLFile "111-add-wit-to-trackerquery.sql" []];
   [ExecuteSQLFile "112-cascading-delete.sql" []]].
Definition GetMigrations : Migrations := versions_0_to_45 ++ versions_46_to_88 ++ versions_89_to_112.

(** ** The loop *)

Definition failed {A} (format : string) (r : res A) : res A :=
  match r with Err _ => Err (Plain format) | r => r end.
(** The highest version; -1 without the table.  The maximum of no rows is NULL, which is no number. *)
Definition getCurrentVersion (d : database C) : res Z :=
  match version d with
  | None => Ok (-1)
  | Some [] => Err (Plain "failed to scan max version in table version: %s\n")
  | Some (v :: vs) => Ok (fold_left Z.max vs v)
  end.
(** The column is unique. *)
Definition insert_version (v : Z) : fn := λ d,
  match version d with
  | None => (Err (Plain "relation version does not exist"), d)
  | Some vs => if bool_decide (v ∈ vs) then (Err (Plain "duplicate key value violates unique constraint"), d)
               else (Ok tt, Database (content d) (Some (vs ++ [v])))
  end.
Fixpoint run_steps (l : steps) : dbm unit :=
  match l with
  | [] => s_ret tt
  | step :: l =>
      let* _ := s_map (failed "failed to execute migration of step %d of version %d: %s\n") step in
      run_steps l
  end.
(** The version it leaves in [nextVersion]. *)
Definition MigrateToNextVersion (locked : res unit) (m : Migrations) : dbm Z :=
  let* _ := s_query (λ _, wrapf "failed to acquire lock: %s\n" locked) in
  let* currentVersion := s_query (λ d, with_stack (getCurrentVersion d)) in
  let nextVersion := wrap64 (currentVersion + 1) in
  if Z.of_nat (length m) <=? nextVersion then s_ret nextVersion
  else
    let* l := s_query (λ _, if nextVersion <? 0 then Panic "index out of range"
                            else match m !! Z.to_nat nextVersion with Some l => Ok l | None => Panic "index out of range" end) in
    let* _ := run_steps l in
    let* _ := s_map (failed "failed to update DB to version %d: %s\n") (insert_version nextVersion) in
    s_ret nextVersion.
(** One transaction: what is left in the database, and the next version or the error that [Migrate] ends with. *)
Definition migrate_round (r : round (database C)) (m : Migrations) : dbm Z := λ d,
  let d := others r d in
  match failed "Failed to start transaction: %s\n" (begins r) with
  | Ok _ =>
      match MigrateToNextVersion (locked r) m d with
      | (Ok v, d') =>
          match failed "Error during transaction commit: %s\n" (commits r) with
          | Ok _ => (Ok v, d')
          | Err e => (Err e, d)
          | Panic x => (Panic x, d)
          end
      | (Err e, _) => match failed "Error while rolling back transaction: %s\n" (rolls_back r) with
                      | Ok _ => (Err e, d)
                      | Err e => (Err e, d)
                      | Panic x => (Panic x, d)
                      end
      | (Panic x, _) => (Panic x, d)
      end
  | Err e => (Err e, d)
  | Panic x => (Panic x, d)
  end.
(** [None]: the fuel is used up. *)
Fixpoint migrate_from (fuel : nat) (rounds : nat → round (database C)) (m : Migrations) (nextVersion : Z) (d : database C)
    : option (res unit * database C) :=
  match fuel with
  | O => None
  | S fuel =>
      if nextVersion <? Z.of_nat (length m) then
        match migrate_round (rounds fuel) m d with
        | (Ok v, d) => migrate_from fuel rounds m (wrap64 (v + 1)) d
        | (Err e, d) => Some (Err e, d)
        | (Panic x, d) => Some (Panic x, d)
        end
      else Some (Ok tt, d)
  end.
(** [open]: there is a handle of the database. *)
Definition Migrate (open : bool) (fuel : nat) (rounds : nat → round (database C)) (d : database C)
    : option (res unit * database C) :=
  if open then migrate_from fuel rounds GetMigrations 0 d else Some (Err (Plain "Database handle is nil\n"), d).

(** ** The versions, one after the other *)

(** What the scripts of a version do to a database without failing, and its row. *)
Definition apply_version (l : steps) (v : Z) : dbm unit := let* _ := run_steps l in insert_version v.
(** The database after the first [n] versions, each of them applied once. *)
Fixpoint migrated (m : Migrations) (n : nat) (d0 : database C) : option (database C) :=
  match n with
  | O => Some d0
  | S n =>
      match migrated m n d0, m !! n with
      | Some d, Some l => match apply_version l (Z.of_nat n) d with (Ok _, d') => Some d' | _ => None end
      | _, _ => None
      end
  end.
(** The first version makes the table of versions, the others leave it alone. *)
Record versioned (m : Migrations) : Prop := {
  v_first : ∀ l d u d', m !! 0%nat = Some l → run_steps l d = (Ok u, d') → version d' = Some [];
  v_others : ∀ k l d u d', m !! S k = Some l → run_steps l d = (Ok u, d') → version d' = version d;
  v_few : Z.of_nat (length m) < 2 ^ 62;
}.
(** What any process commits. *)
Definition committed (m : Migrations) (d d' : database C) : Prop :=
  ∃ lock v, MigrateToNextVersion lock m d = (Ok v, d').

Section Loop.
Context (m : Migrations) (Hm : versioned m).

Definition rows (n : nat) : list Z := map Z.of_nat (seq 0 n).
Lemma rows_S n : rows (S n) = rows n ++ [Z.of_nat n].
Proof. unfold rows. by rewrite seq_S, map_app. Qed.
Lemma rows_max n : fold_left Z.max (map Z.of_nat (seq 1 n)) 0 = Z.of_nat n.
Proof.
  induction n as [|n IH]; [done|]. rewrite seq_S, map_app, fold_left_app, IH. cbn [map fold_left]. lia.
Qed.
Lemma migrated_version n d0 d : version d0 = None → migrated m n d0 = Some d →
  version d = match n with O => None | _ => Some (rows n) end.
Proof.
  intros H0. revert d. induction n as [|n IH]; intros d; cbn [migrated]; [by intros [= <-]|].
  destruct (migrated m n d0) as [d1|]; [|done]. destruct (m !! n) as [l|] eqn:El; [|done].
  destruct (apply_version _ _ _) as [[u|e|x] d2] eqn:Ea; [|done..]. intros [= ->].
  unfold apply_version in Ea. apply s_bind_ok in Ea as (u' & d3 & Er & Ei).
  assert (Hv : version d3 = Some (rows n)).
  { destruct n as [|n]; [by eapply (v_first m Hm)|]. rewrite (v_others m Hm _ _ _ _ _ El Er). by apply IH. }
  unfold insert_version in Ei. rewrite Hv in Ei. case_bool_decide; [done|]. injection Ei as _ <-. cbn [version]. by rewrite rows_S.
Qed.
Lemma migrated_length n d0 d : migrated m n d0 = Some d → (n ≤ length m)%nat.
Proof.
  destruct n as [|n]; [lia|]. cbn [migrated]. destruct (migrated m n d0); [|done].
  destruct (m !! n) as [l|] eqn:El; [|done]. intros _. by apply lookup_lt_Some in El.
Qed.
Lemma migrated_current n d0 d : version d0 = None → migrated m n d0 = Some d →
  getCurrentVersion d = Ok (Z.of_nat n - 1).
Proof.
  intros H0 H. unfold getCurrentVersion. rewrite (migrated_version n d0 d H0 H). destruct n as [|n]; [done|].
  unfold rows. cbn [seq map]. change (Z.of_nat 0) with 0. rewrite rows_max. f_equal. lia.
Qed.

(** What a transaction leaves when it is committed: one more version, or nothing when there are no more. *)
Lemma MigrateToNextVersion_migrated n d0 d lock v d' : version d0 = None → migrated m n d0 = Some d →
  MigrateToNextVersion lock m d = (Ok v, d') →
  v = Z.of_nat n ∧ migrated m (if (n <? length m)%nat then S n else n) d0 = Some d'.
Proof.
  intros H0 Hd H. unfold MigrateToNextVersion in H. apply s_bind_ok in H as (u & d1 & [_ ->]%s_query_ok & H).
  apply s_bind_ok in H as (c & d1 & [Hc ->]%s_query_ok & H). apply with_stack_ok in Hc.
  rewrite (migrated_current n d0 d H0 Hd) in Hc. injection Hc as <-.
  pose proof (migrated_length _ _ _ Hd). pose proof (v_few m Hm).
  replace (wrap64 (Z.of_nat n - 1 + 1)) with (Z.of_nat n) in H
    by (rewrite wrap64_id; [lia|unfold in_int, int_min, int_max; lia]).
  destruct (Z.leb_spec (Z.of_nat (length m)) (Z.of_nat n)) as [Hle|Hlt].
  { injection H as <- <-. split; [done|]. destruct (Nat.ltb_spec n (length m)); [lia|done]. }
  rewrite (proj2 (Nat.ltb_lt n (length m))) by lia.
  apply s_bind_ok in H as (l & d1 & [Hl ->]%s_query_ok & H). destruct (Z.ltb_spec (Z.of_nat n) 0); [lia|]. rewrite Nat2Z.id in Hl.
  destruct (m !! n) as [l'|] eqn:El; [|done]. injection Hl as ->.
  apply s_bind_ok in H as (u1 & d1 & Hr & H). apply s_bind_ok in H as (u2 & d2 & Hi & H). injection H as <- <-.
  split; [done|]. cbn [migrated]. rewrite Hd, El. unfold apply_version, s_bind. rewrite Hr.
  unfold s_map in Hi. destruct (insert_version _ _) as [r d3]. injection Hi as Hi ->. by destruct r.
Qed.
(** Whatever processes commit, the versions are applied one after the other, each once. *)
Lemma committed_migrated n d0 d d' : version d0 = None → migrated m n d0 = Some d → rtc (committed m) d d' →
  ∃ k, (n ≤ k)%nat ∧ migrated m k d0 = Some d'.
Proof.
  intros H0 Hd H. revert n Hd. induction H as [d|d d1 d' (lock & v & H1) _ IH]; intros n Hd; [by exists n|].
  destruct (MigrateToNextVersion_migrated _ _ _ _ _ _ H0 Hd H1) as [_ H2].
  destruct (IH _ H2) as (k & Hk & H). exists k. split; [|done]. destruct (n <? length m)%nat; lia.
Qed.
(** A process that finds all of its statements working. *)
Definition undisturbed (r : round (database C)) : Prop :=
  begins r = Ok tt ∧ locked r = Ok tt ∧ commits r = Ok tt.
Lemma migrated_prefix n k d0 d : migrated m n d0 = Some d → (k ≤ n)%nat → ∃ d1, migrated m k d0 = Some d1.
Proof.
  intros H Hk. revert d H. induction Hk as [|n Hk IH]; intros d H; [by exists d|]. cbn [migrated] in H.
  destruct (migrated m n d0) as [d1|]; [|done]. by eapply IH.
Qed.
Lemma MigrateToNextVersion_works n d0 d dn : version d0 = None → migrated m n d0 = Some d → migrated m (length m) d0 = Some dn →
  ∃ v d', MigrateToNextVersion (Ok tt) m d = (Ok v, d').
Proof.
  intros H0 Hd Hn. pose proof (migrated_length _ _ _ Hd). pose proof (v_few m Hm).
  unfold MigrateToNextVersion, s_bind, s_query. cbn [wrapf]. rewrite (migrated_current n d0 d H0 Hd). cbn [with_stack].
  replace (wrap64 (Z.of_nat n - 1 + 1)) with (Z.of_nat n) by (rewrite wrap64_id; [lia|unfold in_int, int_min, int_max; lia]).
  destruct (Z.leb_spec (Z.of_nat (length m)) (Z.of_nat n)) as [Hle|Hlt]; [by eexists _, _|].
  destruct (Z.ltb_spec (Z.of_nat n) 0); [lia|]. rewrite Nat2Z.id.
  destruct (migrated_prefix _ (S n) _ _ Hn) as [d1 Hd1]; [lia|]. cbn [migrated] in Hd1. rewrite Hd in Hd1.
  destruct (m !! n) as [l|]; [|done]. unfold apply_version, s_bind in Hd1.
  destruct (run_steps l d) as [[u|e|x] d2]; [|done..]. unfold s_map.
  destruct (insert_version _ d2) as [[u'|e|x] d3]; [|done..]. by eexists _, _.
Qed.

(** A round leaves a database of one of the versions, and a round that goes wrong leaves what the others committed. *)
Lemma migrate_round_migrated n d0 d r res d' : version d0 = None → migrated m n d0 = Some d →
  rtc (committed m) d (others r d) → migrate_round r m d = (res, d') →
  ∃ k, (n ≤ k)%nat ∧ match res with
                     | Ok v => v = Z.of_nat k ∧ migrated m (if (k <? length m)%nat then S k else k) d0 = Some d'
                     | _ => migrated m k d0 = Some d'
                     end.
Proof.
  intros H0 Hd Ho H. destruct (committed_migrated _ _ _ _ H0 Hd Ho) as (k & Hk & Hdk). exists k. split; [done|].
  unfold migrate_round in H. destruct (failed _ (begins r)); [|by injection H as <- <-..].
  destruct (MigrateToNextVersion _ _ _) as [[v|e|x] d1] eqn:EM.
  - destruct (failed _ (commits r)); injection H as <- <-; [|done..]. by apply (MigrateToNextVersion_migrated k d0 _ _ _ _ H0 Hdk) in EM.
  - destruct (failed _ (rolls_back r)); by injection H as <- <-.
  - by injection H as <- <-.
Qed.
Lemma migrate_from_ends rounds n d0 : version d0 = None → (∀ k d, rtc (committed m) d (others (rounds k) d)) →
  ∀ fuel nextVersion d, migrated m n d0 = Some d →
  ((if (nextVersion <? Z.of_nat (length m))%Z then length m - n + 1 else 0) < fuel)%nat → (Z.of_nat (length m) ≤ nextVersion → n = length m) →
  ∃ r d' k, migrate_from fuel rounds m nextVersion d = Some (r, d') ∧ migrated m k d0 = Some d' ∧ (n ≤ k)%nat ∧
    (r = Ok tt → k = length m) ∧
    ((∀ i, undisturbed (rounds i)) → is_Some (migrated m (length m) d0) → r = Ok tt).
Proof.
  intros H0 Ho fuel. revert n. induction fuel as [|fuel IH]; intros n nextVersion d Hd Hf Hnext; [case_match; lia|]. cbn [migrate_from].
  destruct (Z.ltb_spec nextVersion (Z.of_nat (length m))) as [Hlt|Hge].
  2: { exists (Ok tt), d, n. split_and!; [done|done|done|intros _; by apply Hnext|done]. }
  destruct (migrate_round (rounds fuel) m d) as [res d1] eqn:ER.
  destruct (migrate_round_migrated n d0 d _ _ _ H0 Hd (Ho _ _) ER) as (k & Hk & Hres).
  assert (Hbad : (∀ i, undisturbed (rounds i)) → is_Some (migrated m (length m) d0) → is_ok res = true).
  { intros Hu [dn Hdn]. destruct (Hu fuel) as (Hb & Hl & Hc). unfold migrate_round in ER. rewrite Hb, Hl, Hc in ER. cbn [failed] in ER.
    destruct (committed_migrated _ _ _ _ H0 Hd (Ho fuel d)) as (j & _ & Hj).
    destruct (MigrateToNextVersion_works j d0 _ dn H0 Hj Hdn) as (v & d2 & EM). rewrite EM in ER. by injection ER as <- _. }
  destruct res as [v|e|x].
  - destruct Hres as [-> Hd1]. pose proof (migrated_length _ _ _ Hd1) as Hlen. pose proof (v_few m Hm).
    rewrite wrap64_id by (unfold in_int, int_min, int_max; destruct (k <? length m)%nat; lia).
    destruct (IH (if (k <? length m)%nat then S k else k) (Z.of_nat k + 1) d1 Hd1) as (r & d' & j & H1 & H2 & H3 & H4 & H5);
      [..|exists r, d', j; split_and!; [done|done| |done|done]]; destruct (Nat.ltb_spec k (length m)), (Z.ltb_spec (Z.of_nat k + 1) (Z.of_nat (length m))); lia.
  - exists (Err e), d1, k. split_and!; [done..|]. intros Hu Hn. by discriminate (Hbad Hu Hn).
  - exists (Panic x), d1, k. split_and!; [done..|]. intros Hu Hn. by discriminate (Hbad Hu Hn).
Qed.
End Loop.

(** ** The versions of this program *)

(** What is relied on: the first script makes the table of versions, and no other script touches it. *)
Context (Hfirst : ∀ d u d', ExecuteSQLFile "000-bootstrap.sql" [] d = (Ok u, d') → version d' = Some []).
Context (Hothers : ∀ f args d u d', f ≠ "000-bootstrap.sql" → ExecuteSQLFile f args d = (Ok u, d') → version d' = version d).
Lemma one_step f args d u d' : run_steps [ExecuteSQLFile f args] d = (Ok u, d') → ∃ u', ExecuteSQLFile f args d = (Ok u', d').
Proof.
  cbn [run_steps]. intros H. apply s_bind_ok in H as (u' & d1 & H & Hr). injection Hr as _ <-. exists u'.
  rewrite s_map_ok in H; [done|]. by intros [].
Qed.
Definition one_script (l : steps) : Prop := ∃ f args, l = [ExecuteSQLFile f args] ∧ f ≠ "000-bootstrap.sql".
Lemma scripts_after_first : Forall one_script (tl GetMigrations).
Proof. unfold GetMigrations, versions_0_to_45, versions_46_to_88, versions_89_to_112. cbn [app tl]. repeat (constructor; [by eexists _, _|]). constructor. Qed.
Lemma GetMigrations_versioned : versioned GetMigrations.
Proof.
  split.
  - intros l d u d' [= <-] H. apply one_step in H as [u' H]. by eapply Hfirst.
  - intros k l d u d' Hl H. assert (Hs : one_script l).
    { eapply Forall_lookup_1; [apply scripts_after_first|]. by rewrite lookup_tail. }
    destruct Hs as (f & args & -> & Hf). apply one_step in H as [u' H]. by eapply Hothers.
  - by vm_compute.
Qed.
(** C7: Whatever other processes migrate the same database in the meantime, the migration ends, and leaves the database as
    applying the first versions one after the other, each once, leaves it: all of them when it ends without an error; and it
    does so unless a script or a statement fails. *)
Theorem Migrate_all rounds n d0 d (H0 : version d0 = None) (Hd : migrated GetMigrations n d0 = Some d)
    (Ho : ∀ k d, rtc (committed GetMigrations) d (others (rounds k) d)) :
  ∃ r d' k, Migrate true 115 rounds d = Some (r, d') ∧ migrated GetMigrations k d0 = Some d' ∧ (n ≤ k)%nat ∧
    (r = Ok tt → k = length GetMigrations) ∧
    ((∀ i, undisturbed (rounds i)) → is_Some (migrated GetMigrations (length GetMigrations) d0) → r = Ok tt).
Proof.
  pose proof (migrated_length _ _ _ _ Hd) as Hn. unfold Migrate.
  apply (migrate_from_ends _ GetMigrations_versioned rounds n d0 H0 Ho 115 0 d Hd).
  - change (length GetMigrations) with 113%nat in *. destruct (0 <? Z.of_nat 113); lia.
  - change (length GetMigrations) with 113%nat. lia.
Qed.
End Migrations.

(** ** The types every database has *)

Section Populate.
Context {HO : UuidOps} (IsURL : string → bool) (time_json : Z → string) (struct_json : string → option gval).
Notation Import := (Import IsURL time_json struct_json).
Notation imm A := (import_db → res A * import_db).
(** A template that was read, or not, and the ids that its import makes. *)
Record template_file := { tf_newID : uuid; tf_generated : generated; tf_template : res ImportHelper }.
Fixpoint import_all (now : Time) (l : list template_file) : imm unit :=
  match l with
  | [] => s_ret tt
  | f :: l =>
      let* t := s_query (λ _, wrapf "failed to load space template #%d" (tf_template f)) in
      let* _ := s_map (wrapf "failed to import space template #%d with name %s and ID %s") (Import now (tf_newID f) (tf_generated f) t) in
      import_all now l
  end.
(** The base, the legacy, the scrum and the agile template. *)
Definition PopulateCommonTypes (now : Time) (base legacy scrum agile : template_file) : imm unit :=
  let* _ := import_all now [base; legacy; scrum; agile] in
  on_types ClearGlobalWorkItemTypeCache.

(** Whatever is loaded next is read from the tables: the imports may have changed any type. *)
Lemma PopulateCommonTypes_coherent now base legacy scrum agile d d' :
  PopulateCommonTypes now base legacy scrum agile d = (Ok tt, d') →
  coherent time_json struct_json (types_view d') ∧ cache (im_types d') = ∅.
Proof.
  unfold PopulateCommonTypes. intros H. apply s_bind_ok in H as ([] & d1 & _ & H). unfold on_types in H. injection H as <-.
  split; [by apply empty_coherent|done].
Qed.
(** The first template that is not read or not imported ends it: nothing after it is imported. *)
Lemma import_all_stops now l : ∀ d d' e, import_all now l d = (Err e, d') →
  ∃ before f after d1, l = before ++ f :: after ∧ import_all now before d = (Ok tt, d1) ∧
    ((∃ e', tf_template f = Err e' ∧ d' = d1) ∨
     ∃ t e', tf_template f = Ok t ∧ Import now (tf_newID f) (tf_generated f) t d1 = (Err e', d')).
Proof.
  induction l as [|f l IH]; intros d d' e; cbn [import_all]; [done|]. unfold s_bind at 1, s_query at 1.
  destruct (tf_template f) as [t|e'|x] eqn:Ef; cbn [wrapf]; [|intros [= _ <-]; exists [], f, l, d; naive_solver|done].
  unfold s_bind, s_map. destruct (Import now (tf_newID f) (tf_generated f) t d) as [[h|e'|x] d1] eqn:Ei; cbn [wrapf];
    [|intros [= _ <-]; exists [], f, l, d; naive_solver|done].
  intros H. destruct (IH _ _ _ H) as (before & g & after & d2 & -> & H1 & H2). exists (f :: before), g, after, d2.
  split_and!; [done| |exact H2]. cbn [import_all]. unfold s_bind, s_query, s_map. rewrite Ef. cbn [wrapf]. by rewrite Ei.
Qed.
End Populate.

(** ** A concrete run: the scripts log their names *)

Definition log_script (sql : string) (d : database (list string)) : res (database (list string)) :=
  Ok (Database (content d ++ [sql]) (if String.eqb sql "000-bootstrap.sql" then Some [] else version d)).
Notation Migrate_ := (Migrate (Ok (A := string)) (Ok (A := string)) (λ t _, Ok t) log_script).
Notation GetMigrations_ := (GetMigrations (Ok (A := string)) (Ok (A := string)) (λ t _, Ok t) log_script).
(** In one round another process is a version ahead. *)
Definition one_more (d : database (list string)) : database (list string) :=
  match MigrateToNextVersion (Ok tt) GetMigrations_ d with (Ok _, d') => d' | _ => d end.
Definition a_round (k : nat) : round (database (list string)) :=
  {| others := if Nat.eqb k 60 then one_more else λ d, d;
     begins := Ok tt; locked := Ok tt; commits := Ok tt; rolls_back := Ok tt |}.
Lemma log_script_kept f args d u d' :
  ExecuteSQLFile (Ok (A := string)) (Ok (A := string)) (λ t _, Ok t) log_script f args d = (Ok u, d') →
  version d' = if String.eqb f "000-bootstrap.sql" then Some [] else version d.
Proof. unfold ExecuteSQLFile. destruct args; by intros [= _ <-]. Qed.
Lemma one_more_committed d : rtc (committed GetMigrations_) d (one_more d).
Proof.
  unfold one_more. destruct (MigrateToNextVersion _ _ d) as [[v|e|x] d'] eqn:E; [|done..]. apply rtc_once. by exists (Ok tt), v.
Qed.
Definition nothing_yet : database (list string) := Database [] None.
Lemma is_Some_true {A} (o : option A) : (if o then true else false) = true → is_Some o.
Proof. by destruct o. Qed.
Lemma all_work : version <$> migrated GetMigrations_ 113 nothing_yet = Some (Some (map Z.of_nat (seq 0 113))).
Proof. by vm_compute. Qed.
(** All versions are there, each once, and the scripts ran in their order. *)
Lemma Migrate_all_witness : ∃ d', Migrate_ true 115 a_round nothing_yet = Some (Ok tt, d') ∧
  migrated GetMigrations_ 113 nothing_yet = Some d' ∧ version d' = Some (map Z.of_nat (seq 0 113)).
Proof.
  destruct (Migrate_all (Ok (A := string)) (Ok (A := string)) (λ t _, Ok t) log_script) with (rounds := a_round) (n := 0%nat)
    (d0 := nothing_yet) (d := nothing_yet) as (r & d' & k & H1 & H2 & _ & H3 & H4).
  - intros d u d' H. by apply log_script_kept in H.
  - intros f args d u d' Hf H. apply log_script_kept in H. by rewrite (proj2 (String.eqb_neq _ _) Hf) in H.
  - done.
  - done.
  - intros i d. unfold a_round. cbn [others]. destruct (Nat.eqb i 60); [apply one_more_committed|done].
  - assert (Hr : r = Ok tt).
    { apply H4; [intros i; split; [|split]; reflexivity|]. apply is_Some_true. vm_compute. reflexivity. }
    subst r. exists d'. split; [exact H1|]. rewrite (H3 eq_refl) in H2. change (length GetMigrations_) with 113%nat in H2. split; [exact H2|].
    pose proof all_work as Hv. rewrite H2 in Hv. by injection Hv.
Defined.
