(* ===== verification/RemoteItems.v ===== *)
(** * Remote work items

    [remoteworkitem/remoteworkitem.go] and [remoteworkitem/flatten.go]: the
    JSON of a GitHub or Jira issue as a map without nesting, the converters of
    its attributes, and the map of an issue to the fields of a work item. *)

From Stdlib Require Import ZArith Lia Ascii String.
From S2P Require Export Search WorkItems.

(** ** [Flatten] *)

Notation flat := (gmap string gval).
Definition dotted_key (parent k : string) : string := parent +:+ "." +:+ k.
(** The values of a map are visited in the order of the list; an array is a map from the decimal indices. *)
Fixpoint flatten_value (v : gval) (key : string) (target : flat) {struct v} : res flat :=
  match v with
  | VMap m =>
      (fix go (m : list (string * gval)) (target : flat) : res flat :=
         match m with
         | [] => Ok target
         | (k, w) :: m => t ← flatten_value w (dotted_key key k) target; go m t
         end) m target
  | VSlice l =>
      (fix go (i : nat) (l : list gval) (target : flat) : res flat :=
         match l with
         | [] => Ok target
         | w :: l => t ← flatten_value w (dotted_key key (Itoa (Z.of_nat i))) target; go (S i) l t
         end) 0%nat l target
  | VNilSlice => Ok target
  | VStrings _ => Panic "interface conversion"
  | _ => Ok (<[key := v]> target)
  end.
Fixpoint flatten (source : list (string * gval)) (target : flat) : res flat :=
  match source with
  | [] => Ok target
  | (k, v) :: source => t ← flatten_value v k target; flatten source t
  end.
Definition Flatten (source : list (string * gval)) : res flat := flatten source ∅.

(** ** Converters *)

Inductive AttributeConverter :=
  | StringConverter | ListConverter | PatternToListConverter (pattern : string) | MarkupConverter (markup : string)
  | ListStringConverter | GithubStateConverter | JiraStateConverter.
(** What an issue answers for an attribute. *)
Definition item_Get (issue : flat) (field : string) : gval := default VNil (issue !! field).
(** [strings.Replace(s, old, new, 1)] *)
Fixpoint replace_first (old : ascii) (new s : string) : string :=
  match s with
  | EmptyString => EmptyString
  | String c s => if bool_decide (c = old) then new +:+ s else String c (replace_first old new s)
  end.
Definition nth_key (pattern : string) (i : nat) : string := replace_first "?" (Itoa (Z.of_nat i)) pattern.
(** The loop of [PatternToListConverter]; [None]: the fuel is used up. *)
Fixpoint collect (fuel : nat) (pattern : string) (issue : flat) (i : nat) : option (res (list string)) :=
  match fuel with
  | O => None
  | S fuel =>
      match item_Get issue (nth_key pattern i) with
      | VNil => Some (Ok [])
      | v => match as_string (Some v) with
             | Ok s => match collect fuel pattern issue (S i) with
                       | Some r => Some (l ← r; Ok (s :: l))
                       | None => None
                       end
             | Err e => Some (Err e)
             | Panic x => Some (Panic x)
             end
      end
  end.
Definition ConvertAttribute (c : AttributeConverter) (value : gval) (issue : flat) : res gval :=
  match c with
  | StringConverter => Ok value
  | ListConverter => match value with VNil => Ok (VStrings []) | _ => s ← as_string (Some value); Ok (VStrings [s]) end
  | PatternToListConverter pattern =>
      match collect (S (size issue)) pattern issue 0 with
      | Some r => l ← r; Ok (VStrings l)
      | None => Panic "the loop does not end"
      end
  | MarkupConverter markup =>
      match value with
      | VNil => Ok VNil
      | VString s => Ok (VMarkup (NewMarkupContent s markup))
      | _ => Err (Plain "Unexpected type of value to convert: %T")
      end
  | ListStringConverter => Ok (VSlice [value])
  | GithubStateConverter =>
      s ← as_string (Some value);
      Ok (if String.eqb s "closed" then VString "closed" else if String.eqb s "open" then VString "open" else value)
  | JiraStateConverter =>
      s ← as_string (Some value);
      Ok (if String.eqb s "closed" then VString "closed" else if String.eqb s "open" then VString "open"
          else if String.eqb s "in progress" then VString "in progress"
          else if String.eqb s "resolved" then VString "resolved" else value)
  end.

(** ** The maps of attributes *)

Definition ProviderGithub : string := "github".
Definition ProviderJira : string := "jira".
Definition GithubTitle : string := "title".
Definition GithubDescription : string := "body".
Definition GithubState : string := "state".
Definition GithubID : string := "url".
Definition GithubCreatorLogin : string := "user.login".
Definition GithubCreatorProfileURL : string := "user.url".
Definition GithubAssigneesLogin : string := "assignees.0.login".
Definition GithubAssigneesLoginPattern : string := "assignees.?.login".
Definition GithubAssigneesProfileURL : string := "assignees.0.url".
Definition GithubAssigneesProfileURLPattern : string := "assignees.?.url".
Definition JiraTitle : string := "fields.summary".
Definition JiraBody : string := "fields.description".
Definition JiraState : string := "fields.status.name".
Definition JiraID : string := "id".
Definition JiraURL : string := "self".
Definition JiraCreatorLogin : string := "fields.creator.key".
Definition JiraCreatorProfileURL : string := "fields.creator.self".
Definition JiraAssigneeLogin : string := "fields.assignee.key".
Definition JiraAssigneeProfileURL : string := "fields.assignee.self".

Definition SystemRemoteItemID : string := "system.remote_item_id".
Definition SystemRemoteItemURL : string := "system_remote_item_url".
Definition remoteTitle : string := SystemTitle.
Definition remoteDescription : string := SystemDescription.
Definition remoteState : string := SystemState.
Definition remoteItemID : string := SystemRemoteItemID.
Definition remoteCreatorLogin : string := "system.creator.login".
Definition remoteCreatorProfileURL : string := "system.creator.profile_url".
Definition RemoteAssigneeLogins : string := "system.assignees.login".
Definition RemoteAssigneeProfileURLs : string := "system.assignees.profile_url".
Definition remoteItemURL : string := SystemRemoteItemURL.

Record AttributeMapper := { am_Expression : string; am_Converter : AttributeConverter }.
Definition RemoteWorkItemMap : Type := list (AttributeMapper * string).
Definition mapped (expression : string) (c : AttributeConverter) (to : string) : AttributeMapper * string :=
  ({| am_Expression := expression; am_Converter := c |}, to).
Definition github_map : RemoteWorkItemMap :=
  [mapped GithubTitle StringConverter remoteTitle;
   mapped GithubDescription (MarkupConverter SystemMarkupMarkdown) remoteDescription;
   mapped GithubState GithubStateConverter remoteState;
   mapped GithubID StringConverter remoteItemID;
   mapped GithubCreatorLogin StringConverter remoteCreatorLogin;
   mapped GithubCreatorProfileURL StringConverter remoteCreatorProfileURL;
   mapped GithubAssigneesLogin (PatternToListConverter GithubAssigneesLoginPattern) RemoteAssigneeLogins;
   mapped GithubAssigneesProfileURL (PatternToListConverter GithubAssigneesProfileURLPattern) RemoteAssigneeProfileURLs].
Definition jira_map : RemoteWorkItemMap :=
  [mapped JiraTitle StringConverter remoteTitle;
   mapped JiraBody (MarkupConverter SystemMarkupMarkdown) remoteDescription;
   mapped JiraState JiraStateConverter remoteState;
   mapped JiraID StringConverter remoteItemID;
   mapped JiraURL StringConverter remoteItemURL;
   mapped JiraCreatorLogin StringConverter remoteCreatorLogin;
   mapped JiraCreatorProfileURL StringConverter remoteCreatorProfileURL;
   mapped JiraAssigneeLogin ListConverter RemoteAssigneeLogins;
   mapped JiraAssigneeProfileURL ListConverter RemoteAssigneeProfileURLs].
Definition RemoteWorkItemKeyMaps (provider : string) : RemoteWorkItemMap :=
  if String.eqb provider ProviderGithub then github_map
  else if String.eqb provider ProviderJira then jira_map else [].

(** An attribute that does not convert is left out. *)
Fixpoint map_attributes (issue : flat) (mapping : RemoteWorkItemMap) (fields : flat) : res flat :=
  match mapping with
  | [] => Ok fields
  | (from, to) :: mapping =>
      match ConvertAttribute (am_Converter from) (item_Get issue (am_Expression from)) issue with
      | Ok v => map_attributes issue mapping (<[to := v]> fields)
      | Err _ => map_attributes issue mapping fields
      | Panic x => Panic x
      end
  end.
Definition Map (issue : flat) (mapping : RemoteWorkItemMap) : res flat := map_attributes issue mapping ∅.
(** [RemoteWorkItemImplRegistry]: the text of an issue is unmarshalled into a map and flattened, for both providers. *)
Definition supported (provider : string) : bool := String.eqb provider ProviderGithub || String.eqb provider ProviderJira.
Definition NewRemoteWorkItem (Unmarshal : string → res (list (string * gval))) (item : string) : res flat :=
  m ← with_stack (Unmarshal item); Flatten m.

(** ** What [Flatten] gives *)

(** The values that are no maps and no arrays, with the ways that lead to them. *)
Fixpoint leaves (v : gval) : list (list string * gval) :=
  match v with
  | VMap m =>
      (fix go (m : list (string * gval)) : list (list string * gval) :=
         match m with
         | [] => []
         | (k, w) :: m => map (λ e, (k :: e.1, e.2)) (leaves w) ++ go m
         end) m
  | VSlice l =>
      (fix go (i : nat) (l : list gval) : list (list string * gval) :=
         match l with
         | [] => []
         | w :: l => map (λ e, (Itoa (Z.of_nat i) :: e.1, e.2)) (leaves w) ++ go (S i) l
         end) 0%nat l
  | VNilSlice | VStrings _ => []
  | _ => [([], v)]
  end.
(** What JSON texts are unmarshalled to has no other slices, and a key only once. *)
Fixpoint tidy (v : gval) : Prop :=
  match v with
  | VMap m =>
      NoDup m.*1 ∧
      (fix go (m : list (string * gval)) : Prop :=
         match m with [] => True | (k, w) :: m => ("."%char ∉ chars k) ∧ tidy w ∧ go m end) m
  | VSlice l => (fix go (l : list gval) : Prop := match l with [] => True | w :: l => tidy w ∧ go l end) l
  | VStrings _ => False
  | _ => True
  end.
Definition put (t : flat) (e : string * gval) : flat := <[e.1 := e.2]> t.
Definition dotted (key : string) (e : list string * gval) : string * gval := (Join (key :: e.1) ".", e.2).
Lemma dotted_under key k e : dotted key (k :: e.1, e.2) = dotted (dotted_key key k) e.
Proof.
  unfold dotted, dotted_key. cbn [fst snd]. f_equal. destruct e as [[|a p] v]; cbn [fst]; [done|].
  rewrite !Join_cons. by rewrite <- !str_app_assoc.
Qed.
Lemma map_dotted_under key k l : map (dotted key) (map (λ e : list string * gval, (k :: e.1, e.2)) l) = map (dotted (dotted_key key k)) l.
Proof. rewrite map_map. apply map_ext. intros e. apply dotted_under. Qed.
Lemma flatten_value_leaves v : tidy v → ∀ key t, flatten_value v key t = Ok (fold_left put (map (dotted key) (leaves v)) t).
Proof.
  induction v as [v Hv|m IH|l IH] using gval_ind'; intros Ht key t.
  - by destruct v.
  - cbn [flatten_value leaves tidy] in *. destruct Ht as [_ Ht]. revert t. induction IH as [|[k w] m Hw _ IHm]; intros t; [done|].
    destruct Ht as (_ & Hw' & Ht). cbn [snd] in Hw. rewrite (Hw Hw'). cbn [mbind res_bind].
    rewrite IHm by exact Ht. by rewrite map_app, fold_left_app, map_dotted_under.
  - cbn [flatten_value leaves tidy] in *. revert t. generalize 0%nat as i. induction IH as [|w l Hw _ IHl]; intros i t; [done|].
    destruct Ht as (Hw' & Ht). rewrite (Hw Hw'). cbn [mbind res_bind].
    rewrite IHl by exact Ht. by rewrite map_app, fold_left_app, map_dotted_under.
Qed.

(** A way from a document to a value that is no map and no array. *)
Inductive leaf : gval → list string → gval → Prop :=
  | leaf_here v : match v with VMap _ | VSlice _ | VNilSlice | VStrings _ => False | _ => True end → leaf v [] v
  | leaf_member m k w p v : (k, w) ∈ m → leaf w p v → leaf (VMap m) (k :: p) v
  | leaf_element l i w p v : l !! i = Some w → leaf w p v → leaf (VSlice l) (Itoa (Z.of_nat i) :: p) v.
Fixpoint member_leaves (m : list (string * gval)) : list (list string * gval) :=
  match m with [] => [] | (k, w) :: m => map (λ e, (k :: e.1, e.2)) (leaves w) ++ member_leaves m end.
Fixpoint element_leaves (i : nat) (l : list gval) : list (list string * gval) :=
  match l with [] => [] | w :: l => map (λ e, (Itoa (Z.of_nat i) :: e.1, e.2)) (leaves w) ++ element_leaves (S i) l end.
Lemma leaves_map m : leaves (VMap m) = member_leaves m.
Proof. cbn [leaves]. induction m as [|[k w] m IH]; [done|]. cbn [member_leaves]. by rewrite IH. Qed.
Lemma leaves_slice l : leaves (VSlice l) = element_leaves 0 l.
Proof. cbn [leaves]. generalize 0%nat as i. induction l as [|w l IH]; intros i; [done|]. cbn [element_leaves]. by rewrite IH. Qed.
Lemma elem_of_below (k : string) p x (l : list (list string * gval)) :
  (p, x) ∈ map (λ e, (k :: e.1, e.2)) l ↔ ∃ q, p = k :: q ∧ (q, x) ∈ l.
Proof.
  rewrite list_elem_of_In, in_map_iff. setoid_rewrite <- list_elem_of_In. split.
  - intros ([q y] & [= <- <-] & H). by exists q.
  - intros (q & -> & H). by exists (q, x).
Qed.
Lemma elem_of_member_leaves m p x : (p, x) ∈ member_leaves m ↔ ∃ k w q, (k, w) ∈ m ∧ p = k :: q ∧ (q, x) ∈ leaves w.
Proof.
  induction m as [|[k w] m IH]; cbn [member_leaves]; [split; [by intros ?%elem_of_nil|by intros (? & ? & ? & ?%elem_of_nil & _)]|].
  rewrite elem_of_app, elem_of_below, IH. setoid_rewrite elem_of_cons. naive_solver.
Qed.
Lemma elem_of_element_leaves l p x : ∀ i, (p, x) ∈ element_leaves i l ↔
  ∃ j w q, l !! j = Some w ∧ p = Itoa (Z.of_nat (i + j)) :: q ∧ (q, x) ∈ leaves w.
Proof.
  induction l as [|w l IH]; intros i; cbn [element_leaves]; [split; [by intros ?%elem_of_nil|by intros (? & ? & ? & ? & _)]|].
  rewrite elem_of_app, elem_of_below, IH. split.
  - intros [(q & -> & H)|(j & w' & q & Hj & -> & H)]; [exists 0%nat, w, q; by rewrite Nat.add_0_r|].
    exists (S j), w', q. by rewrite Nat.add_succ_r.
  - intros ([|j] & w' & q & Hj & -> & H); [left|right].
    + injection Hj as <-. exists q. by rewrite Nat.add_0_r.
    + exists j, w', q. by rewrite Nat.add_succ_r.
Qed.
Lemma elem_of_leaves v : ∀ p x, (p, x) ∈ leaves v ↔ leaf v p x.
Proof.
  induction v as [v Hv|m IH|l IH] using gval_ind'; intros p x.
  - destruct v; try done; cbn [leaves]; first [rewrite list_elem_of_singleton; split; [intros [= -> ->]; by constructor|by inversion 1]
                                             |rewrite elem_of_nil; split; [done|by inversion 1]].
  - rewrite leaves_map, elem_of_member_leaves. rewrite Forall_forall in IH. split.
    + intros (k & w & q & Hk & -> & H). econstructor; [exact Hk|]. by apply (IH (k, w)).
    + inversion 1; subst; [done|]. eexists _, _, _. split_and!; [done..|]. by apply (IH (k, w)).
  - rewrite leaves_slice, elem_of_element_leaves. rewrite Forall_forall in IH. split.
    + intros (j & w & q & Hj & -> & H). econstructor; [exact Hj|]. apply (IH w); [|done]. by eapply list_elem_of_lookup_2.
    + inversion 1; subst; [done|]. eexists _, _, _. split_and!; [done..|]. apply (IH w); [|done]. by eapply list_elem_of_lookup_2.
Qed.

Lemma tidy_member m k w : tidy (VMap m) → (k, w) ∈ m → ("."%char ∉ chars k) ∧ tidy w.
Proof.
  cbn [tidy]. intros [_ H]. induction m as [|[k' w'] m IH]; [by intros ?%elem_of_nil|].
  destruct H as (H1 & H2 & H). intros [[= -> ->]|Hk]%elem_of_cons; [done|by apply IH].
Qed.
Lemma tidy_element l i w : tidy (VSlice l) → l !! i = Some w → tidy w.
Proof.
  cbn [tidy]. revert i. induction l as [|w' l IH]; intros i H; [done|]. destruct H as (H1 & H).
  destruct i as [|i]; [by intros [= <-]|by apply IH].
Qed.
Lemma dot_free_digits n : ∀ s, "."%char ∉ chars s → "."%char ∉ chars (pretty_N_go n s).
Proof.
  induction (N.lt_wf_0 n) as [n _ IH]; intros s Hs. destruct (decide (n = 0%N)) as [->|Hn]; [by rewrite pretty_N_go_0|].
  rewrite pretty_N_go_step by lia. apply IH; [by apply N.div_lt; lia|]. cbn [chars]. apply not_elem_of_cons. split; [|done].
  unfold pretty_N_char. by repeat case_match.
Qed.
Lemma dot_free_Itoa n : "."%char ∉ chars (Itoa (Z.of_nat n)).
Proof.
  unfold Itoa, pretty, pretty_Z. destruct (Z.of_nat n) eqn:E; [by apply (bool_decide_unpack _)| |lia].
  unfold pretty, pretty_positive, pretty, pretty_N. case_decide; [done|]. apply dot_free_digits. by apply not_elem_of_nil.
Qed.
Lemma leaf_dot_free v p x : leaf v p x → tidy v → Forall (λ s, "."%char ∉ chars s) p.
Proof.
  induction 1 as [v Hv|m k w p v Hk _ IH|l i w p v Hi _ IH]; intros Ht; [constructor| |].
  - apply (tidy_member m k w) in Ht as [H1 H2]; [|done]. constructor; [done|by apply IH].
  - constructor; [apply dot_free_Itoa|]. apply IH. by eapply tidy_element.
Qed.
Lemma leaf_unique v p x : leaf v p x → ∀ y, tidy v → leaf v p y → x = y.
Proof.
  induction 1 as [v Hv|m k w p v Hk Hl IH|l i w p v Hi Hl IH]; intros y Ht Hy.
  - inversion Hy; subst; done.
  - inversion Hy as [|? ? w' ? ? Hk' Hl'|]; subst. pose proof Ht as [Hn _].
    assert (w' = w) as ->.
    { clear -Hn Hk Hk'. induction m as [|[a b] m IH]; [by apply elem_of_nil in Hk|]. cbn [fst fmap list_fmap] in Hn.
      apply NoDup_cons in Hn as [Ha Hn].
      assert (Hin : ∀ c, (k, c) ∈ m → k ∈ m.*1) by (intros c Hc; apply list_elem_of_fmap; by exists (k, c)).
      apply elem_of_cons in Hk as [Ek|Hk]; apply elem_of_cons in Hk' as [Ek'|Hk']; simplify_eq; naive_solver. }
    apply IH; [|done]. by eapply tidy_member.
  - inversion Hy as [| |? j w' ? ? Hj Hl']; subst.
    match goal with H : Itoa _ = Itoa _ |- _ => apply (inj pretty), Nat2Z.inj in H as -> end.
    assert (w' = w) as -> by congruence. apply IH; [|done]. by eapply tidy_element.
Qed.
Lemma Join_dots_inj p q : p ≠ [] → q ≠ [] → Forall (λ s, "."%char ∉ chars s) p → Forall (λ s, "."%char ∉ chars s) q →
  Join p "." = Join q "." → p = q.
Proof. intros Hp Hq HFp HFq H. by rewrite <- (Split_Join p "."), <- (Split_Join q "."), H. Qed.

Lemma put_functional l : (∀ k x y, (k, x) ∈ l → (k, y) ∈ l → x = y) → ∀ t k x,
  fold_left put l t !! k = Some x ↔ (k, x) ∈ l ∨ ((∀ y, (k, y) ∉ l) ∧ t !! k = Some x).
Proof.
  induction l as [|[k0 x0] l IH]; intros Hf t k x; cbn [fold_left].
  { split; [intros H; right; split; [intros y ?%elem_of_nil; done|done]|by intros [?%elem_of_nil|[_ H]]]. }
  rewrite IH by (intros; eapply Hf; by apply elem_of_cons; right). unfold put. cbn [fst snd]. rewrite elem_of_cons.
  setoid_rewrite elem_of_cons. split.
  - intros [H|[Hn H]]; [by left; right|]. apply lookup_insert_Some in H as [[-> ->]|[Hk H]]; [by left; left|].
    right. split; [|done]. intros y [[= -> _]|Hy]; [done|by eapply Hn].
  - intros [[[= -> ->]|H]|[Hn H]].
    + destruct (decide (Exists (λ e : string * gval, e.1 = k0) l)) as [HE|HE].
      * apply Exists_exists in HE as ([k1 y] & Hy & E). cbn [fst] in E. subst k1. left. rewrite (Hf k0 x0 y); [done|by apply elem_of_cons; left|by apply elem_of_cons; right].
      * right. split; [|by rewrite lookup_insert_eq]. intros y Hy. apply HE, Exists_exists. by exists (k0, y).
    + by left.
    + right. split; [naive_solver|]. rewrite lookup_insert_ne; [done|]. intros ->. eapply Hn. by left.
Qed.
Lemma flatten_leaves m t : tidy (VMap m) → flatten m t = Ok (fold_left put (map (λ e, (Join e.1 ".", e.2)) (member_leaves m)) t).
Proof.
  cbn [tidy]. intros [_ H]. revert t. induction m as [|[k w] m IH]; intros t; [done|]. destruct H as (_ & Hw & H).
  cbn [flatten member_leaves]. rewrite flatten_value_leaves by done. cbn [mbind res_bind]. rewrite IH by done.
  rewrite map_app, fold_left_app. by rewrite map_map.
Qed.
Lemma Flatten_leaf m (H : tidy (VMap m)) : ∃ t, Flatten m = Ok t ∧
  ∀ key x, t !! key = Some x ↔ ∃ p, leaf (VMap m) p x ∧ key = Join p ".".
Proof.
  eexists. split; [by apply flatten_leaves|]. intros key x.
  assert (Hin : ∀ k y, (k, y) ∈ map (λ e : list string * gval, (Join e.1 ".", e.2)) (member_leaves m) ↔ ∃ p, leaf (VMap m) p y ∧ k = Join p ".").
  { intros k y. rewrite list_elem_of_In, in_map_iff. setoid_rewrite <- list_elem_of_In. split.
    - intros ([p z] & [= <- <-] & Hp). exists p. split; [|done]. by rewrite <- elem_of_leaves, leaves_map.
    - intros (p & Hp & ->). exists (p, y). split; [done|]. by rewrite <- leaves_map, elem_of_leaves. }
  rewrite put_functional.
  - rewrite Hin. split; [by intros [?|[_ ?]]|by left].
  - intros k y z (p & Hp & ->)%Hin (q & Hq & E)%Hin. apply Join_dots_inj in E as ->.
    + by eapply leaf_unique.
    + by inversion Hp.
    + by inversion Hq.
    + by eapply leaf_dot_free.
    + by eapply leaf_dot_free.
Qed.
(** A document that JSON gives, without dots in its keys, is flattened, and what is at a key then is exactly the value that is
    no map and no array and to which the parts of the key lead, the indices of arrays among them, whatever the order of the
    range over the maps. *)
Theorem Flatten_spec m (H : tidy (VMap m)) : ∃ t, Flatten m = Ok t ∧
  ∀ key x, t !! key = Some x ↔ ∃ p, leaf (VMap m) p x ∧ key = Join p ".".
Proof. by apply Flatten_leaf. Qed.

(** ** What the converters give *)

Lemma replace_first_app old new s t : old ∉ chars s → replace_first old new (s +:+ t) = s +:+ replace_first old new t.
Proof.
  induction s as [|c s IH]; intros H; [done|]. cbn [chars] in H. apply not_elem_of_cons in H as [Hc H].
  change (replace_first old new (String c (s +:+ t)) = String c (s +:+ replace_first old new t)).
  cbn [replace_first]. rewrite bool_decide_false by done. f_equal. by apply IH.
Qed.
(** A pattern with one question mark gives different keys for different indices. *)
Lemma nth_key_inj before after i j : "?"%char ∉ chars before →
  nth_key (before +:+ "?" +:+ after) i = nth_key (before +:+ "?" +:+ after) j → i = j.
Proof.
  intros Hb. unfold nth_key. rewrite !(replace_first_app _ _ before) by done.
  change ("?" +:+ after) with (String "?" after). cbn [replace_first]. rewrite !bool_decide_true by done.
  intros H. apply (inj (String.append before)) in H.
  assert (Hc : Itoa (Z.of_nat i) = Itoa (Z.of_nat j)).
  { apply chars_inj. apply (f_equal chars) in H. rewrite !chars_app in H. by apply (inj (λ l, l ++ _)) in H. }
  by apply (inj pretty), Nat2Z.inj in Hc.
Qed.
Lemma collect_none fuel pattern issue : ∀ i, collect fuel pattern issue i = None →
  ∀ j, (j < fuel)%nat → is_Some (issue !! nth_key pattern (i + j)).
Proof.
  induction fuel as [|fuel IH]; intros i H j Hj; [lia|]. cbn [collect] in H.
  assert (Hi : is_Some (issue !! nth_key pattern i) ∧ collect fuel pattern issue (S i) = None).
  { unfold item_Get in H. destruct (issue !! nth_key pattern i) as [v|]; [|done]. split; [by eexists|].
    destruct v; simpl in H; try done. by destruct (collect fuel pattern issue (S i)). }
  destruct j as [|j]; [rewrite Nat.add_0_r; apply Hi|]. rewrite Nat.add_succ_r. apply (IH (S i)); [apply Hi|lia].
Qed.
(** The loop over the indices ends: it needs no more rounds than there are keys, and one. *)
Lemma collect_ends before after issue i : "?"%char ∉ chars before →
  is_Some (collect (S (size issue)) (before +:+ "?" +:+ after) issue i).
Proof.
  intros Hb. destruct (collect _ _ _ _) eqn:E; [by eexists|]. exfalso. pose proof (collect_none _ _ _ _ E) as HS.
  set (key := nth_key _) in *. set (keys := map (λ j, key (i + j)%nat) (seq 0 (S (size issue)))).
  assert (Hn : NoDup keys).
  { unfold keys. apply NoDup_fmap_2; [|apply NoDup_seq]. intros a b H. apply nth_key_inj in H; [lia|done]. }
  assert (Hsub : (list_to_set keys : gset string) ⊆ dom issue).
  { intros k Hk. apply elem_of_list_to_set in Hk. unfold keys in Hk. apply list_elem_of_fmap in Hk as (j & -> & Hj).
    apply elem_of_dom, HS. apply elem_of_seq in Hj. lia. }
  apply subseteq_size in Hsub. rewrite size_list_to_set in Hsub by done. unfold keys in Hsub.
  rewrite length_map, length_seq, size_dom in Hsub. lia.
Qed.
Lemma collect_found fuel pattern issue : ∀ i l, collect fuel pattern issue i = Some (Ok l) →
  (∀ j s, l !! j = Some s → item_Get issue (nth_key pattern (i + j)) = VString s) ∧
  item_Get issue (nth_key pattern (i + length l)) = VNil.
Proof.
  induction fuel as [|fuel IH]; intros i l H; [done|]. cbn [collect] in H.
  destruct (item_Get issue (nth_key pattern i)) eqn:E; cbn [as_string] in H; try done.
  - injection H as <-. split; [done|]. by rewrite Nat.add_0_r.
  - destruct (collect fuel pattern issue (S i)) as [[l'|e|x]|] eqn:EC; try done. injection H as <-.
    apply IH in EC as [H1 H2]. split; [|cbn [length]; by rewrite Nat.add_succ_r]. intros [|j] t Hj; [injection Hj as <-; by rewrite Nat.add_0_r|].
    rewrite Nat.add_succ_r. by apply H1.
Qed.
Lemma collect_all fuel pattern issue l : ∀ i, (length l < fuel)%nat →
  (∀ j s, l !! j = Some s → item_Get issue (nth_key pattern (i + j)) = VString s) →
  item_Get issue (nth_key pattern (i + length l)) = VNil → collect fuel pattern issue i = Some (Ok l).
Proof.
  revert fuel. induction l as [|s l IH]; intros fuel i Hf Hl He; (destruct fuel as [|fuel]; [cbn in Hf; lia|]); cbn [collect].
  - cbn [length] in He. rewrite Nat.add_0_r in He. by rewrite He.
  - specialize (Hl 0%nat s eq_refl) as H0. rewrite Nat.add_0_r in H0. rewrite H0. cbn [as_string].
    rewrite (IH fuel (S i)); [done|cbn in Hf; lia| |].
    + intros j t Hj. specialize (Hl (S j) t Hj). by rewrite Nat.add_succ_r in Hl.
    + cbn [length] in He. by rewrite Nat.add_succ_r in He.
Qed.

(** ** What [Map] gives *)

Definition attribute_of (issue : flat) (e : AttributeMapper * string) : res gval :=
  ConvertAttribute (am_Converter e.1) (item_Get issue (am_Expression e.1)) issue.
Lemma map_attributes_lookup issue mapping : NoDup mapping.*2 → ∀ fields r, map_attributes issue mapping fields = Ok r →
  ∀ k, r !! k = match List.find (λ e, String.eqb e.2 k) mapping with
                | Some e => match attribute_of issue e with Ok v => Some v | _ => fields !! k end
                | None => fields !! k
                end.
Proof.
  induction mapping as [|[from to] mapping IH]; intros Hn fields r H k; [by injection H as <-|].
  cbn [fmap list_fmap snd] in Hn. apply NoDup_cons in Hn as [Hto Hn]. cbn [map_attributes] in H. cbn [List.find snd].
  assert (Hno : List.find (λ e, String.eqb e.2 to) mapping = None).
  { destruct (List.find _ mapping) as [e|] eqn:E; [|done]. apply List.find_some in E as [He Ht%String.eqb_eq]. destruct Hto.
    apply list_elem_of_fmap. exists e. split; [done|]. by apply list_elem_of_In. }
  destruct (ConvertAttribute _ _ _) as [v|e|x] eqn:EC; [| |done]; rewrite (IH Hn _ _ H); (destruct (String.eqb_spec to k) as [->|Hk];
    [rewrite Hno; unfold attribute_of; cbn [fst]; rewrite EC|]); [by rewrite lookup_insert_eq| |done..].
  clear Hno. case_match; [destruct (attribute_of _ _)|]; by rewrite ?(lookup_insert_ne fields to k).
Qed.
Definition no_panic (issue : flat) (e : AttributeMapper * string) : Prop := ∀ x, attribute_of issue e ≠ Panic x.
Lemma map_attributes_total issue mapping : ∀ fields, (∃ r, map_attributes issue mapping fields = Ok r) ↔ Forall (no_panic issue) mapping.
Proof.
  induction mapping as [|[from to] mapping IH]; intros fields; cbn [map_attributes]; [split; [by constructor|by eexists]|].
  rewrite Forall_cons. unfold no_panic at 1, attribute_of at 1. cbn [fst].
  destruct (ConvertAttribute _ _ _) as [v|e|x]; [rewrite IH; naive_solver..|]. split; [by intros [r H]|]. intros [H _]. by destruct (H x).
Qed.
Lemma find_permutation (mapping mapping' : RemoteWorkItemMap) k : mapping ≡ₚ mapping' → NoDup mapping.*2 →
  List.find (λ e, String.eqb e.2 k) mapping = List.find (λ e, String.eqb e.2 k) mapping'.
Proof.
  induction 1 as [|e l l' _ IH|e f l|l l' l'' H1 IH1 H2 IH2]; intros Hn; [done|..].
  - cbn [fmap list_fmap List.find] in *. apply NoDup_cons in Hn as [_ Hn]. by rewrite IH.
  - cbn [fmap list_fmap List.find] in *. apply NoDup_cons in Hn as [Hn _].
    destruct (String.eqb_spec e.2 k) as [He|], (String.eqb_spec f.2 k) as [Hf|]; [|done..]. destruct Hn. rewrite He, <- Hf. by left.
  - rewrite IH1 by done. apply IH2. by rewrite <- H1.
Qed.
(** The order in which the range visits the map of attributes does not matter, as no two attributes go to one field. *)
Lemma Map_any_order issue mapping mapping' r : NoDup mapping.*2 → mapping ≡ₚ mapping' → Map issue mapping = Ok r → Map issue mapping' = Ok r.
Proof.
  unfold Map. intros Hn HP H. assert (Ht : ∃ r', map_attributes issue mapping' ∅ = Ok r').
  { rewrite map_attributes_total, <- HP. rewrite <- (map_attributes_total issue mapping ∅). by eexists. }
  destruct Ht as [r' Hr']. rewrite Hr'. f_equal. apply map_eq. intros k.
  rewrite (map_attributes_lookup _ _ Hn _ _ H k), (map_attributes_lookup issue mapping') with (fields := ∅) by (by rewrite <- ?HP).
  by rewrite (find_permutation _ _ k HP Hn).
Qed.
Lemma maps_to_fields_once : NoDup github_map.*2 ∧ NoDup jira_map.*2.
Proof. split; apply (bool_decide_unpack _); by vm_compute. Qed.

Lemma collect_more fuel pattern issue r : ∀ i, collect fuel pattern issue i = Some r → ∀ k, collect (fuel + k) pattern issue i = Some r.
Proof.
  revert r. induction fuel as [|fuel IH]; intros r i H k; [done|]. cbn [collect Nat.add] in *.
  destruct (item_Get _ _); cbn [as_string] in *; try done.
  destruct (collect fuel pattern issue (S i)) as [r'|] eqn:E; [|done]. by rewrite (IH _ _ E).
Qed.
Definition has_string (key : string) (v : gval) (s : string) : Prop := ∃ a, v = VMap a ∧ (key, VString s) ∈ a.
(** The way through the array of the assignees. *)
Lemma member_unique (m : list (string * gval)) k v w : NoDup m.*1 → (k, v) ∈ m → (k, w) ∈ m → v = w.
Proof.
  intros Hn. induction m as [|[a b] m IH]; [by intros ?%elem_of_nil|]. cbn [fst fmap list_fmap] in Hn. apply NoDup_cons in Hn as [Ha Hn].
  assert (Hin : ∀ c, (k, c) ∈ m → k ∈ m.*1) by (intros c Hc; apply list_elem_of_fmap; by exists (k, c)).
  intros H1%elem_of_cons H2%elem_of_cons. naive_solver.
Qed.
Lemma element_of_array m issue key attr l strings : tidy (VMap m) → Flatten m = Ok issue → (key, VSlice l) ∈ m →
  "."%char ∉ chars attr → Forall2 (has_string attr) l strings → ∀ j,
  item_Get issue (Join [key; Itoa (Z.of_nat j); attr] ".") = match strings !! j with Some s => VString s | None => VNil end.
Proof.
  intros Ht HF Hk Ha Hl j. destruct (Flatten_leaf m Ht) as (t & Et & HS). rewrite HF in Et. injection Et as <-. unfold item_Get.
  pose proof (tidy_member _ _ _ Ht Hk) as [Hkey Htl]. destruct (strings !! j) as [s|] eqn:Ej.
  - destruct (Forall2_lookup_r _ _ _ _ _ Hl Ej) as (v & Hv & a & -> & Has).
    assert (Hs : issue !! Join [key; Itoa (Z.of_nat j); attr] "." = Some (VString s)); [|by rewrite Hs].
    apply HS. eexists. split; [|done]. eapply leaf_member, leaf_element, leaf_member; [exact Hk|exact Hv|exact Has|by constructor].
  - destruct (issue !! _) as [x|] eqn:Ex; [|done]. apply HS in Ex as (p & Hp & E). apply Join_dots_inj in E as <-; [|done|by inversion Hp| |].
    + inversion Hp as [|? ? w ? ? Hk' Hp'|]; subst.
      destruct (member_unique m key (VSlice l) w); [apply Ht|done..|]. inversion Hp' as [| |? i v ? ? Hi _]; subst.
      match goal with H : Itoa _ = Itoa _ |- _ => apply (inj pretty), Nat2Z.inj in H as -> end.
      destruct (Forall2_lookup_l _ _ _ _ _ Hl Hi) as (s & Hs & _). by rewrite Hs in Ej.
    + repeat constructor; [done|apply dot_free_Itoa|done].
    + by eapply leaf_dot_free.
Qed.
Lemma pattern_of_array m issue key attr l strings : tidy (VMap m) → Flatten m = Ok issue → (key, VSlice l) ∈ m →
  "."%char ∉ chars attr → "?"%char ∉ chars key → Forall2 (has_string attr) l strings → ∀ value,
  ConvertAttribute (PatternToListConverter (key +:+ ".?." +:+ attr)) value issue = Ok (VStrings strings).
Proof.
  intros Ht HF Hk Ha Hq Hl value. cbn [ConvertAttribute].
  assert (Hpat : key +:+ ".?." +:+ attr = (key +:+ ".") +:+ "?" +:+ ("." +:+ attr)) by (by rewrite <- str_app_assoc).
  assert (Hq' : "?"%char ∉ chars (key +:+ ".")) by (rewrite chars_app; apply not_elem_of_app; split; [done|by apply (bool_decide_unpack _)]).
  assert (Hnth : ∀ j, nth_key (key +:+ ".?." +:+ attr) j = Join [key; Itoa (Z.of_nat j); attr] ".").
  { intros j. unfold nth_key. rewrite Hpat, replace_first_app by done.
    change ("?" +:+ ("." +:+ attr)) with (String "?" ("." +:+ attr)). cbn [replace_first]. rewrite bool_decide_true by done.
    rewrite !Join_cons. by rewrite <- !str_app_assoc. }
  destruct (collect_ends (key +:+ ".") ("." +:+ attr) issue 0 Hq') as [r Hr]. rewrite <- Hpat in Hr. rewrite Hr.
  pose proof (element_of_array m issue key attr l strings Ht HF Hk Ha Hl) as HG.
  assert (HA : collect (S (length strings)) (key +:+ ".?." +:+ attr) issue 0 = Some (Ok strings)).
  { apply collect_all; [lia| |].
    - intros j s Hj. rewrite Hnth, HG. cbn [Nat.add]. by rewrite Hj.
    - rewrite Hnth, HG. cbn [Nat.add]. by rewrite lookup_ge_None_2. }
  apply (collect_more _ _ _ _ _) with (k := S (length strings)) in Hr. apply (collect_more _ _ _ _ _) with (k := S (size issue)) in HA.
  rewrite Nat.add_comm, Hr in HA. injection HA as ->. done.
Qed.
(** Of a GitHub issue with any number of assignees the mapped item has the logins of all of them and their profiles, in their
    order. *)
Theorem github_assignees m l logins urls issue fields (Ht : tidy (VMap m)) (Hk : ("assignees", VSlice l) ∈ m)
    (Hl : Forall2 (has_string "login") l logins) (Hu : Forall2 (has_string "url") l urls)
    (HF : Flatten m = Ok issue) (HM : Map issue github_map = Ok fields) :
  fields !! RemoteAssigneeLogins = Some (VStrings logins) ∧ fields !! RemoteAssigneeProfileURLs = Some (VStrings urls).
Proof.
  destruct maps_to_fields_once as [Hn _]. unfold Map in HM.
  split; rewrite (map_attributes_lookup _ _ Hn _ _ HM); cbn [github_map List.find mapped snd]; cbn -[ConvertAttribute].
  - unfold attribute_of. cbn [fst am_Converter].
    change GithubAssigneesLoginPattern with ("assignees" +:+ ".?." +:+ "login").
    by rewrite (pattern_of_array m issue "assignees" "login" l logins Ht HF Hk) by (done || by apply (bool_decide_unpack _)).
  - unfold attribute_of. cbn [fst am_Converter].
    change GithubAssigneesProfileURLPattern with ("assignees" +:+ ".?." +:+ "url").
    by rewrite (pattern_of_array m issue "assignees" "url" l urls Ht HF Hk) by (done || by apply (bool_decide_unpack _)).
Qed.
