(* ===== verification/Events.v ===== *)
(** * Events of work items

    [workitem/event/event.go] and [workitem/event/event_repository.go]: the
    history of an item as one event for each field that changed from a revision
    to the next.  The ids of revisions and identities are columns the tables of
    [WorkItems] leave out, parameters here; a range over the fields of a type
    takes the order of its definitions. *)

From Stdlib Require Import ZArith Lia Ascii String SpecFloat.
From stdpp Require Import relations.
From S2P Require Import TypeFacts.
From S2P Require Export WorkItemInvariant WorkItemExamples.
Import Transactions.

Record Event := {
  e_RevisionID : uuid;
  e_Name : string;
  e_WorkItemTypeID : uuid;
  e_Timestamp : Time;
  e_Modifier : uuid;
  Old : gval;
  New : gval;
}.
Definition FilterByRevisionID (revisionID : uuid) (l : list Event) : list Event :=
  List.filter (λ x, bool_decide (e_RevisionID x = revisionID)) l.
Definition WorkitemTypeChangeEvent : string := "workitemtype".

(** ** Values that are the same

    What [reflect.DeepEqual] decides: Go's equality on values that have one, elements in their order, and maps as maps. *)

Inductive same_value : gval → gval → Prop :=
  | same_leaf a b : iface_eq a b = Ok true → same_value a b
  | same_nil_slice : same_value VNilSlice VNilSlice
  | same_strings l : same_value (VStrings l) (VStrings l)
  | same_slice l k : Forall2 same_value l k → same_value (VSlice l) (VSlice k)
  | same_map m n : length m = length n →
      (∀ k v, (k, v) ∈ m → ∃ w, map_get n k = Some w ∧ same_value v w) → same_value (VMap m) (VMap n).
Lemma deep_equal_slice l k : deep_equal (VSlice l) (VSlice k) =
  match l, k with
  | [], [] => true
  | x :: l, y :: k => deep_equal x y && deep_equal (VSlice l) (VSlice k)
  | _, _ => false
  end.
Proof. by destruct l, k. Qed.
Lemma deep_equal_map m n : deep_equal (VMap m) (VMap n) =
  Nat.eqb (length m) (length n) &&
  forallb (λ kv, match map_get n kv.1 with Some w => deep_equal kv.2 w | None => false end) m.
Proof.
  cbn [deep_equal]. f_equal. induction m as [|[k v] m IH]; [done|]. cbn. rewrite IH.
  by destruct (map_get n k).
Qed.
Lemma deep_equal_spec a b : deep_equal a b = true ↔ same_value a b.
Proof.
  revert b. induction a as [a Ha|m IH|l IH] using gval_ind'; intros b.
  - split.
    + destruct a, b; try done; cbn [deep_equal]; intros H;
        first [by constructor | apply bool_decide_eq_true in H as ->; by constructor | constructor; cbn in *; by rewrite H].
    + intros H. inversion H as [x y E| |s|l k HF|m n HL HM]; subst; try done.
      * destruct a, b; try done; cbn [deep_equal] in *; by rewrite E.
      * cbn. by apply bool_decide_eq_true.
  - destruct b; try (split; [done|intros H; inversion H; done]). rewrite deep_equal_map, andb_true_iff, Nat.eqb_eq, forallb_forall.
    rewrite Forall_forall in IH. split.
    + intros [HL HM]. constructor; [done|]. intros k v Hin. specialize (HM (k, v)). cbn [fst snd] in HM.
      rewrite <- list_elem_of_In in HM. specialize (HM Hin). destruct (map_get m0 k) as [w|]; [|done]. exists w.
      split; [done|]. by apply (IH (k, v)).
    + intros H. inversion H as [x y E| | | |m' n' HL HM]; subst; [done|]. split; [done|]. intros [k v] Hin%list_elem_of_In.
      destruct (HM k v Hin) as (w & E & Hw). cbn [fst snd]. rewrite E. by apply (IH (k, v)).
  - destruct b as [| | | | | | | | | | | | | | | | |k|]; try (split; [done|intros H; inversion H; done]).
    assert (HE : deep_equal (VSlice l) (VSlice k) = true ↔ Forall2 same_value l k).
    { revert k. induction IH as [|x l Hx _ IHl]; intros [|y k]; rewrite deep_equal_slice;
        try (split; [done|intros H; inversion H]); [by split|].
      rewrite andb_true_iff, Hx, IHl. split; [intros []; by constructor|intros H; by inversion H]. }
    rewrite HE. split; [by constructor|]. intros H. by inversion H.
Qed.

Section Events.
Context {HO : UuidOps} (time_json : Z → string) (struct_json : string → option gval).
(** The id of a revision, and the identities that are not deleted. *)
Context (rev_id : Revision → uuid) (identities : list uuid).
Notation LoadType := (Load time_json struct_json).

Definition identity_Load (id : uuid) : res uuid :=
  if bool_decide (id ∈ identities) then Ok id else Err (Stacked (NotFoundError "identity" (uuid_String id) None)).

(** One side of a list field: [nil] is an empty list, another type of value the nil slice. *)
Definition list_side (t : ListType) (v : gval) : res gval :=
  match v with
  | VNil => Ok (VSlice [])
  | VNilSlice | VSlice _ =>
      converted ← wrapf "failed to convert value for field %s from storage representation: %+v"
                    (ListType_ConvertFromModel t v);
      match converted with
      | VSlice _ | VNilSlice => Ok converted
      | _ => Err (Plain "failed to convert value for field %s from to []interface{}: %+v")
      end
  | _ => Ok VNilSlice
  end.
(** What is compared of a value: an enum by its own conversion, since its base type is a simple type. *)
Definition side (t : FieldType) (v : gval) : res gval :=
  match t with
  | FList t => list_side t v
  | FSimple _ | FEnum _ =>
      wrapf "failed to convert value for field %s from storage representation: %+v" (ConvertFromModel t v)
  end.
Definition field_event (oldRev newRev : Revision) (modifier : uuid) (fieldName : string) (t : FieldType)
    : res (list Event) :=
  p ← side t (fld (r_WorkItemFields oldRev) fieldName);
  n ← side t (fld (r_WorkItemFields newRev) fieldName);
  Ok (if deep_equal p n then []
      else [{| e_RevisionID := rev_id newRev; e_Name := fieldName; e_WorkItemTypeID := r_WorkItemTypeID newRev;
               e_Timestamp := r_Time newRev; e_Modifier := modifier; Old := p; New := n |}]).
Fixpoint field_events (oldRev newRev : Revision) (modifier : uuid) (defs : FieldDefinitions) : res (list Event) :=
  match defs with
  | [] => Ok []
  | (fieldName, fieldDef) :: defs =>
      e ← field_event oldRev newRev modifier fieldName (Type_ fieldDef);
      es ← field_events oldRev newRev modifier defs;
      Ok (e ++ es)
  end.
Definition revision_events (wit : WorkItemType) (modifier : uuid) (oldRev newRev : Revision) : res (list Event) :=
  if bool_decide (r_WorkItemTypeID oldRev = r_WorkItemTypeID newRev)
  then field_events oldRev newRev modifier (t_Fields wit)
  else Ok [{| e_RevisionID := rev_id newRev; e_Name := WorkitemTypeChangeEvent;
              e_WorkItemTypeID := r_WorkItemTypeID newRev; e_Timestamp := r_Time newRev; e_Modifier := modifier;
              Old := VUUID (r_WorkItemTypeID oldRev); New := VUUID (r_WorkItemTypeID newRev) |}].
(** The loop over the revisions from the second one on. *)
Fixpoint walk (oldRev : Revision) (revisionList : list Revision) : wstm (list Event) :=
  match revisionList with
  | [] => s_ret []
  | newRev :: revisionList =>
      let* wit := s_map (wrapf "failed to load old work item type: %s") (on_types (LoadType (r_WorkItemTypeID oldRev))) in
      let* modifier := s_query (λ _, wrapf "failed to load modifier identity %s" (identity_Load (r_ModifierIdentity newRev))) in
      let* es := s_query (λ _, revision_events wit modifier oldRev newRev) in
      let* rest := walk newRev revisionList in
      s_ret (es ++ rest)
  end.
Definition event_List (wiID : uuid) : wstm (list Event) :=
  let* revisionList := s_query (λ d, Ok (Revision_List d wiID)) in
  let* _ := s_map (wrapf "failed to find work item: %s") (s_query (λ d, CheckExists d wiID)) in
  match revisionList with
  | [] => s_ret []
  | rev :: revisionList => walk rev revisionList
  end.

(** ** The events of a history *)

(** The events between two revisions, on the types of the tables. *)
Definition between (d : type_db) (oldRev newRev : Revision) : res (list Event) :=
  wit ← wrapf "failed to load old work item type: %s" (load_row time_json struct_json d (r_WorkItemTypeID oldRev));
  modifier ← wrapf "failed to load modifier identity %s" (identity_Load (r_ModifierIdentity newRev));
  revision_events wit modifier oldRev newRev.
Fixpoint history (d : type_db) (oldRev : Revision) (revs : list Revision) : res (list Event) :=
  match revs with
  | [] => Ok []
  | newRev :: revs => es ← between d oldRev newRev; rest ← history d newRev revs; Ok (es ++ rest)
  end.
Definition history_of (d : type_db) (revs : list Revision) : res (list Event) :=
  match revs with [] => Ok [] | rev :: revs => history d rev revs end.

Notation coherent := (coherent time_json struct_json).
Lemma on_types_Load id d : coherent (types d) → ∃ d', on_types (LoadType id) d = (load_row time_json struct_json (tdb (types d)) id, d')
  ∧ same_tables d d' ∧ tdb (types d') = tdb (types d) ∧ coherent (types d').
Proof.
  intros Hc. destruct (Load_reads time_json struct_json (types d) id Hc) as (H1 & H2 & H3).
  unfold on_types. destruct (LoadType id (types d)) as [r t]. cbn [fst snd] in *. subst r. by eexists.
Qed.
Lemma walk_history revs : ∀ rev d, coherent (types d) → (walk rev revs d).1 = history (tdb (types d)) rev revs.
Proof.
  induction revs as [|new revs IH]; intros rev d Hc; [done|]. cbn [walk history].
  destruct (on_types_Load (r_WorkItemTypeID rev) d Hc) as (d1 & E & _ & Ht & Hc1).
  unfold between. unfold s_bind at 1, s_map at 1. rewrite E. destruct (load_row _ _ _ _) as [wit|e|m]; [|done..].
  cbn [wrapf mbind res_bind]. unfold s_bind at 1, s_query at 1. destruct (wrapf _ (identity_Load _)) as [mo|e|m]; [|done..].
  cbn [mbind res_bind]. unfold s_bind at 1, s_query at 1. destruct (revision_events _ _ _ _) as [es|e|m]; [|done..]. cbn [mbind res_bind].
  specialize (IH new d1 Hc1). rewrite Ht in IH. unfold s_bind.
  destruct (walk new revs d1) as [r d2]. cbn [fst] in IH. subst r. by destruct (history _ _ _).
Qed.
Lemma history_snoc d new revs : ∀ rev, history d rev (revs ++ [new]) =
  (es ← history d rev revs; e ← between d (default rev (last revs)) new; Ok (es ++ e)).
Proof.
  induction revs as [|x revs IH]; intros rev; cbn [history app].
  - change (default rev (last (@nil Revision))) with rev. cbn [mbind res_bind]. destruct (between d rev new) as [e|e|m]; cbn; [|done..]. by rewrite app_nil_r.
  - destruct (between d rev x) as [e|e|m]; cbn [mbind res_bind]; [|done..]. rewrite IH.
    assert (default rev (last (x :: revs)) = default x (last revs)) as -> by (rewrite last_cons; by destruct (last revs)).
    destruct (history d x revs) as [es|es|m]; cbn [mbind res_bind]; [|done..].
    destruct (between d _ new) as [e'|e'|m]; cbn; [|done..]. by rewrite app_assoc.
Qed.
(** The events of a live item are those between each of its revisions and the next. *)
Lemma event_List_history wiID d : coherent (types d) → CheckExists d wiID = Ok tt →
  (event_List wiID d).1 = history_of (tdb (types d)) (Revision_List d wiID).
Proof.
  intros Hc Hx. unfold event_List. unfold s_bind at 1, s_query at 1. unfold s_bind at 1, s_map at 1, s_query at 1.
  rewrite Hx. cbn [wrapf]. destruct (Revision_List d wiID) as [|rev revs]; [done|]. by apply walk_history.
Qed.
End Events.

(** * How the history of an item grows

    The events of an item after a save are those before it, followed by the
    differences the save made; nothing that was reported changes. *)

Section History.
Context {HO : UuidOps} (IsURL : string → bool).
Context (time_json : Z → string) (struct_json : string → option gval).
Context (Sprint : gval → string) (related : related_rows).
Context (rev_id : Revision → uuid) (identities : list uuid).
Notation coherent := (coherent time_json struct_json).
Notation SaveItem := (Save IsURL time_json struct_json Sprint related).
Notation between := (between time_json struct_json rev_id identities).
Notation history_of := (history_of time_json struct_json rev_id identities).
Notation event_List := (event_List time_json struct_json rev_id identities).

(** ** Statements that only load types *)

Definition types_only {A} (m : wstm A) : Prop :=
  ∀ d r d', m d = (r, d') → coherent (types d) → tdb (types d') = tdb (types d) ∧ coherent (types d').
Lemma types_only_bind {A B} (m : wstm A) (k : A → wstm B) :
  types_only m → (∀ a, types_only (k a)) → types_only (s_bind m k).
Proof.
  intros Hm Hk d r d'. unfold s_bind. destruct (m d) as [[a|e|s] d1] eqn:E; intros H Hc.
  - destruct (Hm _ _ _ E Hc) as [E1 Hc1]. destruct (Hk _ _ _ _ H Hc1) as [E2 Hc2]. split; [congruence|done].
  - injection H as _ <-. by eapply Hm.
  - injection H as _ <-. by eapply Hm.
Qed.
Lemma types_only_map {A B} (f : res A → res B) (m : wstm A) : types_only m → types_only (s_map f m).
Proof. intros Hm d r d'. unfold s_map. destruct (m d) as [x d1] eqn:E. intros [= _ <-]. by eapply Hm. Qed.
Lemma types_only_query {A} (q : wi_db → res A) : types_only (s_query q).
Proof. by intros d r d' [= _ <-]. Qed.
Lemma types_only_ret {A} (a : A) : types_only (s_ret a).
Proof. by intros d r d' [= _ <-]. Qed.
Lemma types_only_Load id : types_only (on_types (Load time_json struct_json id)).
Proof.
  intros d r d' H Hc. destruct (on_types_Load time_json struct_json id d Hc) as (d1 & E & _ & Ht & Hc1).
  rewrite E in H. by injection H as _ <-.
Qed.
Lemma types_only_update_row now v w : types_only (update_row time_json struct_json now v w).
Proof. intros d r d'. unfold update_row. case_match; [|by intros [= _ <-]]. case_match; by intros [= _ <-]. Qed.
Lemma types_only_Revision now who ty w : types_only (Revision_Create time_json struct_json now who ty w).
Proof. intros d r d'. unfold Revision_Create. case_match; by intros [= _ <-]. Qed.
Ltac types_only := repeat first [apply types_only_bind; [|intros ?] | apply types_only_map | apply types_only_query
  | apply types_only_ret | apply types_only_Load | apply types_only_update_row | apply types_only_Revision | case_match].
Lemma Save_types now sp wi who : types_only (SaveItem now sp wi who).
Proof. unfold Save, loadWorkItemStorage. types_only. Qed.

Lemma Create_types now newID sp ty fields who :
  types_only (Create IsURL time_json struct_json now newID sp ty fields who).
Proof.
  unfold Create. types_only; intros d r d'; [unfold NextVal|unfold insert_row]; repeat case_match; by intros [= _ <-].
Qed.

(** ** The history of one item *)

Lemma sort_snoc (l : list Revision) r :
  (∀ a b, a ∈ l → b ∈ l → instant (r_Time a) = instant (r_Time b) → a = b) →
  (∀ a, a ∈ l → instant (r_Time a) < instant (r_Time r)) →
  merge_sort rev_time_le (l ++ [r]) = merge_sort rev_time_le l ++ [r].
Proof.
  intros Hu Hr. apply (StronglySorted_unique_strong rev_time_le).
  - intros a b Ha Hb. rewrite merge_sort_Permutation in Ha. rewrite merge_sort_Permutation in Hb. unfold rev_time_le. intros H1 H2.
    rewrite elem_of_app, list_elem_of_singleton in Ha, Hb. destruct Ha as [Ha| ->], Hb as [Hb| ->].
    + apply Hu; [done..|lia].
    + specialize (Hr a Ha). lia.
    + specialize (Hr b Hb). lia.
    + done.
  - apply StronglySorted_merge_sort; unfold rev_time_le; [intros x y z|intros x y]; lia.
  - apply StronglySorted_app. split_and!.
    + intros x y Hx ->%list_elem_of_singleton. rewrite merge_sort_Permutation in Hx. specialize (Hr x Hx). unfold rev_time_le. lia.
    + apply StronglySorted_merge_sort; unfold rev_time_le; [intros x y z|intros x y]; lia.
    + repeat constructor.
  - by rewrite !merge_sort_Permutation.
Qed.
Definition revisions_of (d : wi_db) (id : uuid) : list Revision :=
  List.filter (λ r, bool_decide (r_WorkItemID r = id)) (revs d).
Lemma Revision_List_grows d d' id r : revs d' = revs d ++ [r] → r_WorkItemID r = id →
  (∀ a b, a ∈ revisions_of d id → b ∈ revisions_of d id → instant (r_Time a) = instant (r_Time b) → a = b) →
  (∀ a, a ∈ revisions_of d id → instant (r_Time a) < instant (r_Time r)) →
  Revision_List d' id = Revision_List d id ++ [r].
Proof.
  intros E Hid Hu Hr. unfold Revision_List. rewrite E, List.filter_app. cbn [List.filter]. rewrite bool_decide_true by done.
  by apply sort_snoc.
Qed.
Lemma CheckExists_live d w : w ∈ rows d → s_live w = true → WorkItems.CheckExists d (s_ID w) = Ok tt.
Proof.
  intros Hw Hl. unfold WorkItems.CheckExists. assert (existsb (λ x, s_live x && bool_decide (s_ID x = s_ID w)) (rows d) = true) as ->; [|done].
  apply existsb_exists. exists w. split; [by apply list_elem_of_In|]. by rewrite Hl, bool_decide_true.
Qed.
Lemma between_stamps d old new es : between d old new = Ok es →
  Forall (λ e, e_RevisionID e = rev_id new ∧ e_Timestamp e = r_Time new ∧ e_Modifier e = r_ModifierIdentity new) es.
Proof.
  unfold between. intros H. apply bind_ok in H as (wit & _ & H). apply bind_ok in H as (who & Hw & H).
  apply wrapf_ok in Hw. unfold identity_Load in Hw. case_bool_decide; [|done]. injection Hw as <-.
  unfold revision_events in H. case_bool_decide; [|injection H as <-; by repeat constructor].
  revert es H. induction (t_Fields wit) as [|[k f] l IH]; intros es; cbn [field_events]; [intros [= <-]; constructor|].
  intros H. apply bind_ok in H as (e & He & H). apply bind_ok in H as (rest & Hr & H). injection H as <-.
  apply Forall_app. split; [|by apply IH]. unfold field_event in He.
  apply bind_ok in He as (p & _ & He). apply bind_ok in He as (n & _ & He). injection He as <-.
  case_match; by repeat constructor.
Qed.

(** What the order of the times has to do with the versions: the clock stored the revisions of the item in the order of its
    versions, and has moved on since. *)
Definition in_time (d : wi_db) (id : uuid) (now : Time) : Prop :=
  (∀ a b, a ∈ revisions_of d id → b ∈ revisions_of d id →
     a = b ∨ (r_WorkItemVersion a < r_WorkItemVersion b ∧ instant (r_Time a) < instant (r_Time b))
           ∨ (r_WorkItemVersion b < r_WorkItemVersion a ∧ instant (r_Time b) < instant (r_Time a))) ∧
  ∀ a, a ∈ revisions_of d id → instant (r_Time a) < instant now.

(** What a save of [old] as [new] is to be reported as: of each field of the type, in their order, one event with the value
    before and the value after where the two are not the same, and nothing where they are; of another type, that alone. *)
Definition field_change (now : Time) (who : uuid) (old new : WorkItemStorage) (kf : string * FieldDefinition)
    (e : list Event) : Prop :=
  ∃ before after_, side (Type_ kf.2) (fld (s_Fields old) kf.1) = Ok before ∧
    side (Type_ kf.2) (fld (s_Fields new) kf.1) = Ok after_ ∧
    (same_value before after_ ∧ e = [] ∨
     ¬ same_value before after_ ∧
     e = [{| e_RevisionID := rev_id (revision_of now who RevisionTypeUpdate new (s_Fields new)); e_Name := kf.1;
             e_WorkItemTypeID := s_Type new; e_Timestamp := now; e_Modifier := who; Old := before; New := after_ |}]).
Definition reported (d : type_db) (now : Time) (who : uuid) (old new : WorkItemStorage) (e : list Event) : Prop :=
  ∃ wit, load_row time_json struct_json d (s_Type old) = Ok wit ∧ who ∈ identities ∧
    if bool_decide (s_Type new = s_Type old)
    then ∃ ess, Forall2 (field_change now who old new) (t_Fields wit) ess ∧ e = concat ess
    else e = [{| e_RevisionID := rev_id (revision_of now who RevisionTypeUpdate new (s_Fields new));
                 e_Name := WorkitemTypeChangeEvent; e_WorkItemTypeID := s_Type new; e_Timestamp := now;
                 e_Modifier := who; Old := VUUID (s_Type old); New := VUUID (s_Type new) |}].

Section Reported.
Context (now : Time) (who : uuid) (old new : WorkItemStorage) (prev : Revision).
Context (Hprev : r_WorkItemTypeID prev = s_Type old ∧ r_WorkItemFields prev = s_Fields old).
Let rev := revision_of now who RevisionTypeUpdate new (s_Fields new).

Lemma field_event_spec k f e : field_event rev_id prev rev who k (Type_ f) = Ok e ↔ field_change now who old new (k, f) e.
Proof.
  destruct Hprev as [_ EF]. unfold field_event, field_change. rewrite EF. cbn [fst snd rev revision_of r_WorkItemFields].
  rewrite !bind_ok. split.
  - intros (b & Hb & H). apply bind_ok in H as (a & Ha & [= <-]). exists b, a. split_and!; [done..|].
    pose proof (deep_equal_spec b a) as HS. destruct (deep_equal b a); [left|right]; (split; [|done]); [by apply HS|].
    by intros ?%HS.
  - intros (b & a & Hb & Ha & H). exists b. split; [done|]. apply bind_ok. exists a. split; [done|]. f_equal.
    pose proof (deep_equal_spec b a) as HS. destruct H as [[H ->]|[H ->]], (deep_equal b a); try done.
    + apply HS in H. done.
    + destruct H. by apply HS.
Qed.
Lemma field_events_spec defs e :
  field_events rev_id prev rev who defs = Ok e ↔ ∃ ess, Forall2 (field_change now who old new) defs ess ∧ e = concat ess.
Proof.
  revert e. induction defs as [|[k f] defs IH]; intros e; cbn [field_events].
  - split; [intros [= <-]; by exists []|]. intros (ess & H & ->). by inversion H.
  - rewrite bind_ok. split.
    + intros (x & Hx%field_event_spec & H). apply bind_ok in H as (y & (ess & HF & ->)%IH & [= <-]).
      exists (x :: ess). split; [by constructor|done].
    + intros (ess & H & ->). inversion H as [|? x ? ess' Hx HF]; subst. exists x. split; [by apply field_event_spec|].
      apply bind_ok. exists (concat ess'). split; [|done]. apply IH. by exists ess'.
Qed.
Lemma type_changed : bool_decide (r_WorkItemTypeID prev = r_WorkItemTypeID rev) = bool_decide (s_Type new = s_Type old).
Proof. destruct Hprev as [-> _]. apply bool_decide_ext. by split. Qed.
Lemma identity_Load_ok id m : identity_Load identities id = Ok m ↔ id ∈ identities ∧ m = id.
Proof. unfold identity_Load. case_bool_decide; naive_solver. Qed.
Lemma between_spec d e : between d prev rev = Ok e ↔ reported d now who old new e.
Proof.
  unfold between, reported. rewrite bind_ok, (proj1 Hprev). apply exist_proper. intros wit. rewrite wrapf_ok.
  apply and_iff_compat_l. rewrite bind_ok. change (r_ModifierIdentity rev) with who. unfold revision_events. rewrite type_changed.
  setoid_rewrite wrapf_ok. setoid_rewrite identity_Load_ok. rewrite (proj1 Hprev). split.
  - intros (m & [Hw ->] & H). split; [done|]. destruct (bool_decide _); [by apply field_events_spec|by injection H].
  - intros [Hw H]. exists who. split; [done|]. destruct (bool_decide _); [by apply field_events_spec|by rewrite H].
Qed.
End Reported.

(** The newest revision of a live item is the one that records its row. *)
Lemma last_records d now old : wf d → old ∈ rows d → s_live old = true → in_time d (s_ID old) now →
  ∃ l prev, Revision_List d (s_ID old) = l ++ [prev] ∧ r_WorkItemTypeID prev = s_Type old ∧ r_WorkItemFields prev = s_Fields old.
Proof.
  intros Hwf Ho Hl [Ht _]. destruct (wf_history _ Hwf old Ho) as (r & Hr & Hid & Hv & Hrec). rewrite Hl in Hrec.
  destruct Hrec as (_ & HT & HF). unfold Revision_List. fold (revisions_of d (s_ID old)).
  assert (Hin : r ∈ revisions_of d (s_ID old)).
  { unfold revisions_of. rewrite list_elem_of_In, List.filter_In, <- list_elem_of_In. by rewrite bool_decide_true. }
  pose proof (merge_sort_Permutation rev_time_le (revisions_of d (s_ID old))) as HP.
  assert (HS : StronglySorted rev_time_le (merge_sort rev_time_le (revisions_of d (s_ID old)))).
  { apply StronglySorted_merge_sort; unfold rev_time_le; [intros x y z|intros x y]; lia. }
  destruct (exists_last (l := merge_sort rev_time_le (revisions_of d (s_ID old)))) as (l & x & E).
  { intros E. rewrite E in HP. apply Permutation_nil_l in HP. rewrite <- HP in Hin. by apply elem_of_nil in Hin. }
  exists l, x. split; [done|]. rewrite E in HP, HS.
  assert (Hx : x ∈ revisions_of d (s_ID old)) by (rewrite <- HP; apply elem_of_app; right; by left).
  assert (x = r) as ->; [|done]. destruct (Ht x r Hx Hin) as [->|[[HV HI]|[HV HI]]]; [done|exfalso..].
  - rewrite <- HP in Hin. apply elem_of_app in Hin as [Hin| ->%list_elem_of_singleton]; [|lia].
    apply StronglySorted_app in HS as (HS & _ & _). specialize (HS r x Hin). unfold rev_time_le in HS.
    specialize (HS ltac:(by left)). lia.
  - unfold revisions_of in Hx. rewrite list_elem_of_In, List.filter_In, <- list_elem_of_In in Hx. destruct Hx as [Hx Hxid].
    apply bool_decide_eq_true in Hxid. destruct (wf_versions _ Hwf x Hx) as (w & Hw & Hwid & Hle).
    assert (w = old) as -> by (eapply (unique_row s_ID); [apply Hwf|done|done|congruence]). lia.
Qed.

(** C10: A save adds to the events of its item exactly what differs between the row before and the row after: of each
    field of its type whose two values are not the same one event with the old and the new value, or the change of the
    type alone, under the id of the new revision, its time and its author; the events before stay as they were.  It
    holds when the revisions of the item were stored at different times, in the order of its versions, all of them
    before now: the list is sorted by time only. *)
Theorem Save_events now sp wi who d p d' (Hwf : wf d) (Hc : coherent (types d))
    (H : SaveItem now sp wi who d = (Ok p, d')) :
  ∃ old new, update now who (w_Version wi) d d' old new ∧ s_Number old = w_Number wi ∧ s_SpaceID old = sp ∧
    (in_time d (s_ID old) now → ∀ es',
       (event_List (s_ID old) d').1 = Ok es' ↔
       ∃ es e, (event_List (s_ID old) d).1 = Ok es ∧ reported (tdb (types d)) now who old new e ∧ es' = es ++ e).
Proof.
  pose proof (Save_types _ _ _ _ _ _ _ H Hc) as [Ht Hc']. apply Save_effect in H as (old & new & U & Hn & Hs).
  exists old, new. split_and!; [done..|]. intros Hit es'. set (rev := revision_of now who RevisionTypeUpdate new (s_Fields new)).
  assert (Hold : WorkItems.CheckExists d (s_ID old) = Ok tt) by (apply CheckExists_live; apply U).
  assert (Hnew : WorkItems.CheckExists d' (s_ID old) = Ok tt).
  { rewrite <- (up_ID _ _ _ _ _ _ _ U). apply CheckExists_live; [|apply U]. rewrite (up_rows _ _ _ _ _ _ _ U).
    apply (elem_of_replaced d (s_ID old) (w_Version wi) old new new); [apply Hwf|apply U|done|apply U|apply U|]. by left. }
  rewrite !event_List_history, Ht by done.
  rewrite (Revision_List_grows d d' (s_ID old) rev); [|apply U|apply (up_ID _ _ _ _ _ _ _ U)| |apply Hit].
  2:{ intros a b Ha Hb E. destruct Hit as [Hit _]. destruct (Hit a b Ha Hb) as [->|[[_ ?]|[_ ?]]]; [done|lia..]. }
  destruct (last_records d now old Hwf (up_old _ _ _ _ _ _ _ U) (up_live _ _ _ _ _ _ _ U) Hit) as (l & prev & E & Hprev).
  assert (HH : history_of (tdb (types d)) (Revision_List d (s_ID old) ++ [rev]) =
    (es ← history_of (tdb (types d)) (Revision_List d (s_ID old)); e ← between (tdb (types d)) prev rev; Ok (es ++ e))).
  { rewrite E. destruct l as [|r0 l]; cbn [app history_of].
    - exact (history_snoc time_json struct_json rev_id identities (tdb (types d)) rev [] prev).
    - rewrite (history_snoc time_json struct_json rev_id identities (tdb (types d)) rev (l ++ [prev]) r0). by rewrite last_snoc. }
  rewrite HH, bind_ok. split.
  - intros (es & Hes & H). apply bind_ok in H as (e & He & [= <-]). exists es, e. split_and!; [done| |done].
    by apply (between_spec now who old new prev Hprev).
  - intros (es & e & Hes & He & ->). exists es. split; [done|]. apply bind_ok. exists e. split; [|done].
    by apply (between_spec now who old new prev Hprev).
Qed.
End History.

(** ** A state that changed *)

Definition t5 : Time := {| instant := 5; representation := 0 |}.
Definition reopened : WorkItem :=
  let w := item 1 store1 in
  {| w_ID := w_ID w; w_Number := w_Number w; w_Type := w_Type w; w_Version := w_Version w; w_SpaceID := w_SpaceID w;
     w_Fields := <["system.state" := VString "open"]> (w_Fields w); w_relationShipsChangedAt := None |}.
Definition reopening := Save any_url no_json_time no_json_struct no_text no_related t5 id_space reopened id_user store1.
Definition revision_id (r : Revision) : uuid := uuid_of (Z.to_N (500 + r_WorkItemVersion r)).
Notation item_events d := (event_List no_json_time no_json_struct revision_id [id_user] (id_item 1) d).1.
Definition changes_of (r : res (list Event)) : option (list (string * uuid * gval * gval)) :=
  match r with Ok es => Some (map (λ e, (e_Name e, e_RevisionID e, Old e, New e)) es) | _ => None end.

Lemma store1_wf : wf store1.
Proof. apply after_create_wf; [by vm_compute|]. apply no_items_wf. Qed.
Lemma store1_coherent : coherent no_json_time no_json_struct (types store1).
Proof.
  unfold store1, after. destruct (create_bug 1 store0) as [r d'] eqn:E.
  destruct (Create_types any_url no_json_time no_json_struct t0 (id_item 1) id_space id_bug (bug_fields "crash") id_user
              store0 r d' E) as [_ H]; [|exact H].
  intros id t H. assert (E0 : cache (types store0) = ∅) by (by vm_compute). by rewrite E0, lookup_empty in H.
Qed.
Lemma Save_events_witness :
  ∃ old new e, item_events reopening.2 = Ok e ∧
    reported no_json_time no_json_struct revision_id [id_user] (tdb (types store1)) t5 id_user old new e ∧
    changes_of (Ok e) = Some [("system.state", uuid_of 501, VString "closed", VString "open")].
Proof.
  assert (HV : changes_of (item_events reopening.2) =
                 Some [("system.state", uuid_of 501, VString "closed", VString "open")]) by (by vm_compute).
  assert (HB : item_events store1 = Ok []) by (by vm_compute).
  assert (Hrows : map s_ID (rows store1) = [id_item 1] ∧ map (λ r, instant (r_Time r)) (revs store1) = [0]) by (split; vm_compute; reflexivity).
  assert (Hok : is_ok reopening.1 = true) by (by vm_compute).
  destruct reopening as [[p|e|m] d'] eqn:E; [|done..].
  destruct (Save_events any_url no_json_time no_json_struct no_text no_related revision_id [id_user] t5 id_space reopened
    id_user store1 p d' store1_wf store1_coherent E) as (old & new & U & _ & _ & HS). destruct Hrows as [Hids Htimes].
  assert (Hid : s_ID old = id_item 1).
  { assert (Hin : s_ID old ∈ map s_ID (rows store1)) by (apply elem_of_map_image; exists old; split; [apply U|done]).
    rewrite Hids in Hin. by apply list_elem_of_singleton in Hin. }
  assert (Hone : ∃ r, revs store1 = [r] ∧ instant (r_Time r) = 0).
  { destruct (revs store1) as [|r [|]]; [done| |done]. exists r. split; [done|]. by injection Htimes. }
  destruct Hone as (r & Hr & Hr0).
  assert (Hin : ∀ a, a ∈ revisions_of store1 (s_ID old) → a = r).
  { intros a. unfold revisions_of. rewrite Hr, list_elem_of_In, List.filter_In. by intros [[->|[]] _]. }
  assert (Hit : in_time store1 (s_ID old) t5).
  { split; [intros a b Ha Hb; left; by rewrite (Hin a Ha), (Hin b Hb)|intros a ->%Hin; rewrite Hr0; done]. }
  cbn [snd] in *. destruct (item_events d') as [e|e|m] eqn:E'; [|discriminate HV|discriminate HV]. exists old, new, e.
  split; [done|]. split; [|done]. specialize (HS Hit e). rewrite Hid in HS. apply HS in E' as (es & e' & Hes & He & ->).
  rewrite HB in Hes. injection Hes as <-. exact He.
Defined.
