(* ===== verification/WorkItemLists.v ===== *)
(** * Lists of work items

    The queries of [workitem/workitem_repository.go] and
    [search/search_repository.go] that answer with many items: [List], [Count],
    [Fetch], [SearchFullText], [Filter] and the lookup by names.  Which rows a
    compiled expression or a full-text query selects is the database's answer,
    a parameter; limits, totals, order, conversions and the tree view are the
    program's. *)

From Stdlib Require Import ZArith Lia Ascii String SpecFloat.
From S2P Require Import LinkRepository LinkGraph Search Spaces.
From S2P Require Export WorkItemInvariant.

(** The tables a query looks at. *)
Record list_db := { ls_items : wi_db; ls_links : LinkRepository.db }.
Notation lsm A := (list_db → res A * list_db).
Definition on_items {A} (m : wstm A) : lsm A := λ d,
  let '(r, t) := m (ls_items d) in (r, {| ls_items := t; ls_links := ls_links d |}).

(** What the database says to a query: how many rows of the joined tables an item appears in, for it is listed once for
    each of them, or a code and a message. *)
Inductive selection :=
  | Selected (times : WorkItemStorage → nat)
  | Refused (code message : string).
Definition pq_error (message : string) : error := Plain ("pq: " +:+ message).
(** [strings.Replace(s, "pq: ", "", -1)] *)
Fixpoint without_pq (s : string) : string :=
  match s with
  | String "p" (String "q" (String ":" (String " " rest))) => without_pq rest
  | String c rest => String c (without_pq rest)
  | EmptyString => ""
  end.
Definition IsDataException (code : string) : bool := String.eqb (substring 0 2 code) "22".

(** The order in which the rows of a query come before they are sorted: the database may take another one for every query,
    so the ties of [ORDER BY] are in any order, and in different ones on two pages. *)
Class RowOrder := {
  arranged (start limit : option Z) (l : list WorkItemStorage) : list WorkItemStorage;
  arranged_rows start limit l : arranged start limit l ≡ₚ l;
}.

Section Lists.
Context {HO : UuidOps} {RO : RowOrder} (IsURL : string → bool).
Context (time_json : Z → string) (struct_json : string → option gval).
Context (FormatShortest : float64 → string) (HasColumn : string → string → bool).
(** The rows a where clause selects over its joins; the orders of the ranges of the compiler. *)
Context (selects : compiled → wi_db → selection) (ks ks' ks'' : list string).
Notation LoadType := (Load time_json struct_json).

(** ** Rows *)

Definition by_time (f : WorkItemStorage → Time) (a b : WorkItemStorage) : bool := instant (f a) <=? instant (f b).
(** PostgreSQL's order of floats: NaN is above every number. *)
Definition float_leb (f g : float64) : bool := match g with S754_nan => true | _ => SFleb f g end.
Definition float_eqb (f g : float64) : bool := float_leb f g && float_leb g f.
Definition sort_leb (sort : string) (a b : WorkItemStorage) : bool :=
  if String.eqb sort "execution_order ASC" then float_leb (s_ExecutionOrder a) (s_ExecutionOrder b)
  else if String.eqb sort "execution_order DESC" then float_leb (s_ExecutionOrder b) (s_ExecutionOrder a)
  else if String.eqb sort "created_at ASC" then by_time (CreatedAt ∘ s_Lifecycle) a b
  else if String.eqb sort "created_at DESC" then by_time (CreatedAt ∘ s_Lifecycle) b a
  else if String.eqb sort "updated_at ASC" then by_time (UpdatedAt ∘ s_Lifecycle) a b
  else by_time (UpdatedAt ∘ s_Lifecycle) b a.
(** [ORDER BY ... OFFSET ... LIMIT ...]: the ties stay as the database arranged them for this query. *)
Definition ordered (start limit : option Z) (leb : WorkItemStorage → WorkItemStorage → bool) (l : list WorkItemStorage)
    : list WorkItemStorage :=
  merge_sort (λ a b, Is_true (leb a b)) (arranged start limit l).

Definition live_rows (p : WorkItemStorage → bool) (d : wi_db) : list WorkItemStorage :=
  List.filter (λ w, s_live w && p w) (rows d).
Definition joined_rows (times : WorkItemStorage → nat) (l : list WorkItemStorage) : list WorkItemStorage :=
  flat_map (λ w, repeat w (times w)) l.
(** [id NOT IN (...)]: the targets of deleted links count too. *)
Definition has_no_parent_link (d : LinkRepository.db) (w : WorkItemStorage) : bool :=
  negb (existsb (λ l, bool_decide (LinkTypeID l = SystemWorkItemLinkTypeParentChildID)
                      && bool_decide (TargetID l = s_ID w)) (links d)).
(** [NOT EXISTS (...)] of the search: those of the links there are. *)
Definition has_no_parent (d : LinkRepository.db) (w : WorkItemStorage) : bool :=
  negb (existsb (λ l, bool_decide (LinkTypeID l = SystemWorkItemLinkTypeParentChildID)
                      && bool_decide (TargetID l = s_ID w) && l_live l) (links d)).
Definition orphans_only (parentExists : option bool) : bool := match parentExists with Some b => negb b | None => false end.

Definition bad_expression (expected : option string) : error := BadParameterError "expression" "%v" expected None.
Fixpoint validate_joins (js : list TableJoin) : res unit :=
  match js with
  | [] => Ok tt
  | j :: js => _ ← replace_err (bad_expression (Some "valid table join")) (TableJoin.Validate HasColumn j); validate_joins js
  end.
(** A page of rows and the count of all: a window function gives it with the first row, a second query when there is none. *)
Definition paged (start limit : option Z) (all : list WorkItemStorage) : list WorkItemStorage * Z :=
  (Tables.page start limit all, Z.of_nat (length all)).
Definition compiled_rows (c : compiled) (refused : string → string → error) (keep : WorkItemStorage → bool)
    (start limit : option Z) (sort : string) (d : wi_db) : res (list WorkItemStorage * Z) :=
  match errors c with
  | _ :: _ => Err (bad_expression None)
  | [] =>
      _ ← validate_joins (joined c);
      _ ← page_limits start limit;
      match selects c d with
      | Refused code message => Err (refused code message)
      | Selected times => Ok (paged start limit (ordered start limit (sort_leb sort) (joined_rows times (live_rows keep d))))
      end
  end.

(** ** The repository of work items *)

Definition Compile_ (criteria : Expression) : compiled := Compile FormatShortest ks ks' ks'' criteria.
Definition listItemsFromDB (spaceID : uuid) (criteria : Expression) (parentExists : option bool)
    (start limit : option Z) (sort : string) (d : list_db) : res (list WorkItemStorage * Z) :=
  compiled_rows (Compile_ criteria) (λ _ message, Stacked (pq_error message))
    (λ w, in_space spaceID w && (negb (orphans_only parentExists) || has_no_parent_link (ls_links d) w))
    start limit sort (ls_items d).
(** Loads the types and converts; [failed] says how an error of the conversion is reported. *)
Fixpoint convert_rows (failed : error → error) (l : list WorkItemStorage) : wstm (list WorkItem) :=
  match l with
  | [] => s_ret []
  | w :: l =>
      let* t := s_map internal (on_types (LoadType (s_Type w))) in
      let* x := s_query (λ _, match ConvertWorkItemStorageToModel t w with Err e => Err (failed e) | r => r end) in
      let* xs := convert_rows failed l in
      s_ret (x :: xs)
  end.
Definition wi_List (spaceID : uuid) (criteria : Expression) (parentExists : option bool) (start limit : option Z)
    (sort : string) : lsm (list WorkItem * Z) :=
  let* p := s_map with_stack (s_query (listItemsFromDB spaceID criteria parentExists start limit sort)) in
  let* res_ := on_items (convert_rows InternalError p.1) in
  s_ret (res_, p.2).
Definition wi_Count (spaceID : uuid) (criteria : Expression) (d : list_db) : res Z :=
  let c := Compile_ criteria in
  match errors c with
  | _ :: _ => Err (bad_expression None)
  | [] =>
      _ ← validate_joins (joined c);
      match selects c (ls_items d) with
      | Refused _ message => Err (InternalError (Wrapped "failed to count work items that match this criteria: %s"
                                                   (pq_error message)))
      | Selected times => Ok (Z.of_nat (length (joined_rows times (live_rows (in_space spaceID) (ls_items d)))))
      end
  end.
Definition wi_Fetch (spaceID : uuid) (criteria : Expression) : lsm (option WorkItem) :=
  let* p := wi_List spaceID criteria None None (Some 1) SortWorkItemsByDefault in
  if p.2 =? 0 then s_ret None
  else match p.1 with
       | [] => s_query (λ _, Panic "index out of range")
       | w :: _ => s_ret (Some w)
       end.

(** A raw query: it names the deletion of spaces and owners but not that of items. *)
Definition LookupIDByNamedSpaceAndNumber (spaces : list Space) (identities : list (uuid * string * bool))
    (ownerName spaceName : string) (wiNumber : Z) (d : wi_db) : res (uuid * uuid) :=
  let owned p := existsb (λ i, bool_decide (i.1.1 = OwnerID p) && String.eqb (ToLower i.1.2) (ToLower ownerName) && i.2)
                   identities in
  let named w p := bool_decide (s_SpaceID w = sp_ID p) && row_live p
                   && String.eqb (ToLower (sp_Name p)) (ToLower spaceName) && owned p in
  match List.find (λ w, (s_Number w =? wiNumber) && existsb (named w) spaces) (rows d) with
  | Some w => Ok (s_ID w, s_SpaceID w)
  | None => Err (NotFoundError "work item" (Itoa wiNumber) None)
  end.

(** ** Full-text search *)

(** Whether the index of a row matches a query of [to_tsquery], and its rank. *)
Context (matches : string → WorkItemStorage → bool) (rank : string → WorkItemStorage → float64).

(** [subtype.path <@ supertype.path], in the table with its deleted rows. *)
Definition ltree_below (sub super : string) : bool :=
  let l := Split super "."%char in bool_decide (take (length l) (Split sub "."%char) = l).
Definition of_types (workItemTypes : list uuid) (d : wi_db) (w : WorkItemStorage) : bool :=
  let all := wit_rows (tdb (types d)) in
  existsb (λ sub, bool_decide (t_ID sub = s_Type w)
                  && existsb (λ super, bool_decide (t_ID super ∈ workItemTypes) && ltree_below (t_Path sub) (t_Path super)) all)
    all.
(** Ordered by the execution order first, the rank only decides ties. *)
Definition search_leb (query : string) (a b : WorkItemStorage) : bool :=
  if float_eqb (s_ExecutionOrder a) (s_ExecutionOrder b) then
    if float_eqb (rank query a) (rank query b) then by_time (UpdatedAt ∘ s_Lifecycle) b a
    else float_leb (rank query b) (rank query a)
  else float_leb (s_ExecutionOrder b) (s_ExecutionOrder a).
Definition search (query : string) (workItemTypes : list uuid) (start limit : option Z) (spaceID : option string)
    (d : wi_db) : res (list WorkItemStorage * Z) :=
  _ ← page_limits start limit;
  let all keep := ordered start limit (search_leb query) (live_rows (λ w, matches query w
                    && (bool_decide (workItemTypes = []) || of_types workItemTypes d w) && keep w) d) in
  all ← match spaceID with
        | None => Ok (all (λ _, true))
        | Some s => match uuid_FromString s with
                    | Some id => Ok (all (in_space id))
                    | None => Err (Wrapped "failed to execute search query" (Plain "pq: invalid input syntax for uuid"))
                    end
        end;
  let result := Tables.page start limit all in
  Ok (result, if bool_decide (result = []) then 0 else Z.of_nat (length all)).
Definition SearchFullText (URLorder : list string) (known : registry) (rawSearchString : string)
    (start limit : option Z) (spaceID : option string) : lsm (list WorkItem * Z) :=
  let* parsed := s_query (λ _, with_stack (parseSearchString IsURL URLorder known rawSearchString)) in
  let* p := s_query (λ d, with_stack (search (generateSQLSearchInfo parsed) (workItemTypes parsed) start limit spaceID
                                        (ls_items d))) in
  let* result := on_items (convert_rows (λ _, ConversionError "%s") p.1) in
  s_ret (result, p.2).

(** ** Filters *)

Definition refused_filter (code message : string) : error :=
  if IsDataException code then BadParameterError "" "" None (Some (without_pq ("pq: " +:+ message)))
  else Stacked (pq_error message).
Definition search_listItemsFromDB (criteria : Expression) (parentExists : option bool) (start limit : option Z)
    (d : list_db) : res (list WorkItemStorage * Z) :=
  compiled_rows (Compile_ criteria) refused_filter
    (λ w, negb (orphans_only parentExists) || has_no_parent (ls_links d) w)
    start limit SortWorkItemsByDefault (ls_items d).
(** The matches that are the parent of another match. *)
Definition is_parent_in (ancestors : list Ancestor) (result : list WorkItemStorage) (match_ : uuid) : bool :=
  existsb (λ w, negb (bool_decide (s_ID w = match_))
                && match GetParentOf ancestors (s_ID w) with
                   | Some parent => bool_decide (a_ID parent = match_)
                   | None => false
                   end) result.
Definition tree_view (d : LinkRepository.db) (result : list WorkItemStorage) : res (list Ancestor * list WorkItemLink) :=
  let matchingIDs := map s_ID result in
  ancestors ← wrapf "failed to find ancestors for these work items: %s"
                (GetAncestors d SystemWorkItemLinkTypeParentChildID AncestorLevelAll matchingIDs);
  let includeChildrenFor := List.filter (is_parent_in ancestors result) matchingIDs in
  Ok (ancestors, ListChildLinks d SystemWorkItemLinkTypeParentChildID includeChildrenFor).
Definition Filter (rawFilter : list (string * gval)) (parentExists : option bool) (start limit : option Z)
    : lsm (list WorkItem * Z * list Ancestor * list WorkItemLink) :=
  let '(exp, opts) := ParseFilterString ks rawFilter in
  let* exp := s_query (λ _, wrapf "failed to parse filter string" exp) in
  match exp with
  | None => s_fail (BadParameterError "rawFilterString" "%v" None None)
  | Some exp =>
      let* p := s_map with_stack (s_query (search_listItemsFromDB exp parentExists start limit)) in
      let* t := s_query (λ d, match opts with
                              | Some o => if TreeView o then tree_view (ls_links d) p.1 else Ok ([], [])
                              | None => Ok ([], [])
                              end) in
      let* matches := on_items (convert_rows InternalError p.1) in
      s_ret (matches, p.2, t.1, t.2)
  end.
End Lists.

(** An order for concrete stores: every other query takes the rows from the other end of the table. *)
Definition turning_order : RowOrder.
Proof.
  refine {| arranged start limit l := if default 0 start mod 2 =? 0 then l else rev l |}.
  intros start limit l. destruct (_ =? _); [done|]. symmetry. apply Permutation_rev.
Defined.
