(* ===== verification/IterationCounts.v ===== *)
(** * Work items per iteration

    [GetCountsForIteration] and [GetCountsPerIteration] of
    [workitem/workitem_repository.go]: how many items an iteration has with all
    those below it, by the two routes the controllers take. *)

From Stdlib Require Import ZArith Lia Ascii String SpecFloat.
From S2P Require Export Iterations WorkItems.
Import Path.

Record WICountsPerIteration := { IterationID : string; Total : Z; Closed : Z }.

(** [fields @> '{"system.iteration": "..."}'] *)
Definition in_iteration (id : string) (w : WorkItemStorage) : bool :=
  match fld (s_Fields w) SystemIteration with VString s => String.eqb s id | _ => false end.
(** [fields->>'system.state'], when it is a string *)
Definition state_text (w : WorkItemStorage) : option string :=
  match fld (s_Fields w) SystemState with VString s => Some s | _ => None end.
(** [= 'closed'] and [ILIKE 'closed'] *)
Definition closed_exactly (w : WorkItemStorage) : bool := bool_decide (state_text w = Some "closed").
Definition closed_ilike (w : WorkItemStorage) : bool :=
  bool_decide (ToLower <$> state_text w = Some "closed").
Definition count (p : WorkItemStorage → bool) (l : list WorkItemStorage) : Z :=
  Z.of_nat (length (List.filter p l)).

Section Counts.
Context {HO : UuidOps}.

(** [a.path <@ b] for a path rendered as an ltree *)
Definition under (p : list uuid) (x : Iteration) : bool :=
  let l := map ConvertToLtree p in
  bool_decide (take (length l) (map ConvertToLtree (it_Path x)) = l).

(** The raw queries see deleted iterations.  In the clause the conjunction binds tighter than the disjunctions, so
    only the last id is combined with the check of [deleted_at]. *)
Definition child_ids (itr : Iteration) (its : list Iteration) : list uuid :=
  map it_ID (List.filter (λ x, under (it_Path itr) x && bool_decide (it_SpaceID x = it_SpaceID itr)) its).
Definition counted (itr : Iteration) (its : list Iteration) (w : WorkItemStorage) : bool :=
  existsb (λ id, in_iteration (uuid_String id) w) (child_ids itr its)
  || (in_iteration (uuid_String (it_ID itr)) w && s_live w).
Definition GetCountsForIteration (itr : Iteration) (its : list Iteration) (items : list WorkItemStorage)
    : gmap string WICountsPerIteration :=
  let id := uuid_String (it_ID itr) in
  {[ id := {| IterationID := id; Total := count (counted itr its) items;
              Closed := count (λ w, counted itr its w && closed_exactly w) items |} ]}.

(** The rows of the grouped query, and a row of zeros for the other iterations, the deleted ones left out. *)
Definition of_space (spaceID : uuid) (its : list Iteration) : list Iteration :=
  List.filter (λ i, bool_decide (it_SpaceID i = spaceID)) its.
Definition joined (spaceID : uuid) (i : Iteration) (w : WorkItemStorage) : bool :=
  s_live w && in_space spaceID w && in_iteration (uuid_String (it_ID i)) w.
Definition count_row (spaceID : uuid) (items : list WorkItemStorage) (i : Iteration) : WICountsPerIteration :=
  {| IterationID := uuid_String (it_ID i); Total := count (joined spaceID i) items;
     Closed := count (λ w, joined spaceID i w && closed_ilike w) items |}.
Definition zero_count (i : Iteration) : WICountsPerIteration :=
  {| IterationID := uuid_String (it_ID i); Total := 0; Closed := 0 |}.
Definition by_id (l : list WICountsPerIteration) : gmap string WICountsPerIteration :=
  list_to_map (map (λ r, (IterationID r, r)) l).
Definition getAllIterationWithCounts (spaceID : uuid) (its : list Iteration) (items : list WorkItemStorage)
    : gmap string WICountsPerIteration :=
  by_id (List.filter (λ r, 0 <? Total r) (map (count_row spaceID items) (of_space spaceID its)))
  ∪ by_id (map zero_count (t_where (λ i, bool_decide (it_SpaceID i = spaceID)) its)).

(** [array_agg(...)::text], and how the code takes the text apart *)
Definition array_text (ids : list uuid) : string :=
  "{" +:+ Join (map uuid_String ids) "," +:+ "}".
Definition TrimRight_brace (s : string) : string :=
  of_chars (rev (drop_while (λ c, bool_decide (c = "}"%char)) (rev (chars s)))).
Definition split_array (s : string) : list string := Split (TrimRight_brace (TrimPrefix s "{")) ",".
Definition strictly_under (x i : Iteration) : bool :=
  under (it_Path i) x && negb (bool_decide (map ConvertToLtree (it_Path x) = map ConvertToLtree (it_Path i))).
Definition children_row (its : list Iteration) (i : Iteration) : option (string * string) :=
  match List.filter (λ x, strictly_under x i) its with
  | [] => None
  | l => Some (uuid_String (it_ID i), array_text (map it_ID l))
  end.
Definition childMap (spaceID : uuid) (its : list Iteration) : gmap string (list string) :=
  let its := of_space spaceID its in
  list_to_map (map (λ p, (p.1, split_array p.2)) (omap (children_row its) its)).
Definition add_counts (wiMap : gmap string WICountsPerIteration) (r : WICountsPerIteration) (child : string)
    : WICountsPerIteration :=
  match wiMap !! child with
  | Some c => {| IterationID := IterationID r; Total := Total r + Total c; Closed := Closed r + Closed c |}
  | None => r
  end.
Definition getFinalCountAddingChild (spaceID : uuid) (its : list Iteration)
    (wiMap : gmap string WICountsPerIteration) : gmap string WICountsPerIteration :=
  let children := childMap spaceID its in
  (λ r, fold_left (add_counts wiMap) (default [] (children !! IterationID r)) r) <$> wiMap.
Definition GetCountsPerIteration (spaceID : uuid) (its : list Iteration) (items : list WorkItemStorage)
    : gmap string WICountsPerIteration :=
  getFinalCountAddingChild spaceID its (getAllIterationWithCounts spaceID its items).
End Counts.

(** ** The counts of a subtree *)

Lemma count_app p l k : count p (l ++ k) = count p l + count p k.
Proof. unfold count. rewrite List.filter_app, length_app. lia. Qed.
Lemma count_ext p q l : (∀ w, p w = q w) → count p l = count q l.
Proof. intros H. unfold count. by rewrite (List.filter_ext _ _ H). Qed.
Lemma count_nonneg p l : 0 ≤ count p l.
Proof. unfold count. lia. Qed.
Lemma count_cons p w l : count p (w :: l) = (if p w then 1 else 0) + count p l.
Proof. unfold count. cbn [List.filter]. destruct (p w); cbn [length]; lia. Qed.
Lemma count_le p q l : (∀ w, p w = true → q w = true) → count p l ≤ count q l.
Proof.
  intros H. induction l as [|w l IH]; [done|]. rewrite !count_cons. specialize (H w).
  destruct (p w), (q w); lia || by discriminate H.
Qed.
Lemma count_none l : count (λ _, false) l = 0.
Proof. induction l as [|w l IH]; [done|]. by rewrite count_cons. Qed.
Lemma existsb_map {A B} (p : B → bool) (f : A → B) l : existsb p (map f l) = existsb (λ x, p (f x)) l.
Proof. induction l as [|x l IH]; [done|]. simpl. by rewrite IH. Qed.
(** Disjoint conditions add up. *)
Lemma count_or p q l : (∀ w, p w = true → q w = false) → count (λ w, p w || q w) l = count p l + count q l.
Proof.
  intros H. induction l as [|w l IH]; [done|]. rewrite !count_cons, IH. specialize (H w).
  destruct (p w), (q w); simpl in *; lia || by discriminate H.
Qed.

Section CountFacts.
Context {HO : UuidOps} {HL : UuidLaws}.

Lemma under_spec p x : under p x = true ↔ ∃ r, it_Path x = p ++ r.
Proof.
  unfold under. rewrite bool_decide_eq_true, length_map. split.
  - intros E. exists (drop (length p) (it_Path x)).
    assert (Ep : take (length p) (it_Path x) = p) by (apply map_ltree_inj; by rewrite <- firstn_map).
    rewrite <- (take_drop (length p) (it_Path x)) at 1. by rewrite Ep.
  - intros [r ->]. by rewrite firstn_map, take_app_length.
Qed.
Lemma strictly_under_spec x i : strictly_under x i = true ↔ ∃ r, r ≠ [] ∧ it_Path x = it_Path i ++ r.
Proof.
  unfold strictly_under. rewrite andb_true_iff, under_spec, negb_true_iff, bool_decide_eq_false. split.
  - intros [[r E] Hne]. exists r. split; [|done]. intros ->. rewrite app_nil_r in E. by rewrite E in Hne.
  - intros (r & Hr & E). split; [by exists r|]. intros H%map_ltree_inj. rewrite E in H.
    apply (f_equal length) in H. rewrite length_app in H. destruct r; [done|]. simpl in H. lia.
Qed.

(** The text of the array comes apart into its ids again. *)
Lemma split_array_text ids : ids ≠ [] → split_array (array_text ids) = map uuid_String ids.
Proof.
  intros Hids. unfold split_array, array_text. rewrite TrimPrefix_app.
  assert (Hlast : ∀ l : list ascii, l ≠ [] → Forall (λ c, c ≠ "}"%char) l →
    drop_while (λ c, bool_decide (c = "}"%char)) (rev (l ++ ["}"%char])) = rev l).
  { intros l Hl HF. rewrite rev_app_distr. cbn [rev app drop_while].
    rewrite (bool_decide_true (_ = _)) by done.
    destruct (exists_last Hl) as (l' & c & ->). rewrite rev_app_distr. cbn [rev app drop_while].
    rewrite Forall_app, Forall_singleton in HF. rewrite (bool_decide_false (c = _)) by apply HF. done. }
  assert (HC : ∀ c, canonical_char c = false → c ≠ ","%char →
    Forall (λ x, x ≠ c) (chars (Join (map uuid_String ids) ","))).
  { intros c Hc Hne. apply chars_Join; [repeat constructor; congruence|].
    apply Forall_map, Forall_forall. intros u _. apply Forall_forall. intros x Hx ->. by apply (uuid_no_char u c). }
  unfold TrimRight_brace. rewrite chars_app, Hlast, rev_involutive, of_chars_chars.
  - rewrite Split_Join; [done|by destruct ids|]. apply Forall_map, Forall_forall. intros u _. by apply uuid_no_char.
  - destruct ids as [|u ids]; [done|]. intros E. apply (uuid_String_nonempty u). apply chars_inj.
    destruct ids as [|v ids]; [done|]. cbn [map] in E. rewrite Join_cons, chars_app in E.
    by apply app_eq_nil in E as [-> _].
  - by apply HC.
Qed.

Lemma NoDup_map_filter {A B} (f : A → B) p l : NoDup (map f l) → NoDup (map f (List.filter p l)).
Proof.
  induction l as [|x l IH]; [done|]. cbn [map List.filter]. intros [Hx Hn]%NoDup_cons.
  destruct (p x); [|by apply IH]. cbn [map]. apply NoDup_cons. split; [|by apply IH].
  intros Hin. apply Hx. rewrite list_elem_of_In, in_map_iff in *. destruct Hin as (y & E & Hy).
  apply List.filter_In in Hy as [Hy _]. by exists y.
Qed.
Lemma by_id_spec l k r : NoDup (map IterationID l) → by_id l !! k = Some r ↔ r ∈ l ∧ IterationID r = k.
Proof.
  intros Hn. unfold by_id. rewrite <- elem_of_list_to_map.
  - rewrite list_elem_of_In, in_map_iff. split.
    + intros (x & [= <- <-] & Hx). split; [by apply list_elem_of_In|done].
    + intros [Hr <-]. exists r. split; [done|by apply list_elem_of_In].
  - change (map (λ r, (IterationID r, r)) l).*1 with (map fst (map (λ r, (IterationID r, r)) l)).
    by rewrite map_map.
Qed.
Lemma NoDup_ids_text p (its : list Iteration) :
  ids_unique its → NoDup (map (λ i, uuid_String (it_ID i)) (List.filter p its)).
Proof.
  intros Hn. apply NoDup_map_filter. rewrite <- (map_map it_ID uuid_String).
  assert (Inj (=) (=) uuid_String) by (intros u v; apply uuid_String_inj).
  by apply (NoDup_fmap_2 uuid_String).
Qed.

Section PerIteration.
Context (spaceID : uuid) (its : list Iteration) (items : list WorkItemStorage) (Hids : ids_unique its).
Notation T j := (count (joined spaceID j) items).
Notation C j := (count (λ w, joined spaceID j w && closed_ilike w) items).
Notation wiMap := (getAllIterationWithCounts spaceID its items).

Lemma all_counts j : j ∈ its → it_SpaceID j = spaceID →
  match wiMap !! uuid_String (it_ID j) with
  | Some r => IterationID r = uuid_String (it_ID j) ∧ Total r = T j ∧ Closed r = C j
  | None => T j = 0 ∧ C j = 0 ∧ row_live j = false
  end.
Proof.
  intros Hj Hs. unfold getAllIterationWithCounts.
  set (rows1 := List.filter _ (map (count_row spaceID items) _)). set (rows2 := map zero_count _).
  assert (H1 : NoDup (map IterationID rows1)).
  { apply NoDup_map_filter. rewrite map_map. by apply NoDup_ids_text. }
  assert (H2 : NoDup (map IterationID rows2)) by (unfold rows2; rewrite map_map; by apply NoDup_ids_text).
  assert (HC : C j ≤ T j) by (apply count_le; intros w [? _]%andb_prop; done).
  pose proof (count_nonneg (λ w, joined spaceID j w && closed_ilike w) items) as HC0.
  assert (Heq : ∀ x, x ∈ its → uuid_String (it_ID x) = uuid_String (it_ID j) → x = j).
  { intros x Hx E%uuid_String_inj. by apply (ids_unique_eq its). }
  destruct (by_id rows1 !! uuid_String (it_ID j)) as [r|] eqn:E1.
  - rewrite (lookup_union_Some_l _ _ _ _ E1). apply by_id_spec in E1 as [Hr Eid]; [|done].
    unfold rows1 in Hr. rewrite list_elem_of_In, List.filter_In, in_map_iff in Hr.
    destruct Hr as [(x & <- & Hx) _]. unfold of_space in Hx. rewrite List.filter_In, <- list_elem_of_In in Hx.
    by rewrite (Heq x (proj1 Hx) Eid).
  - assert (HT : T j = 0).
    { destruct (decide (T j = 0)) as [|Hne]; [done|]. exfalso.
      assert (Hin : by_id rows1 !! uuid_String (it_ID j) = Some (count_row spaceID items j)); [|by rewrite Hin in E1].
      apply by_id_spec; [done|]. split; [|done]. unfold rows1. rewrite list_elem_of_In, List.filter_In, in_map_iff.
      split; [|apply Z.ltb_lt; simpl; pose proof (count_nonneg (joined spaceID j) items); lia].
      exists j. split; [done|]. unfold of_space. rewrite List.filter_In, <- list_elem_of_In.
      by rewrite bool_decide_true. }
    rewrite lookup_union_r by done.
    destruct (by_id rows2 !! uuid_String (it_ID j)) as [r|] eqn:E2.
    + apply by_id_spec in E2 as [Hr Eid]; [|done]. unfold rows2 in Hr.
      rewrite list_elem_of_In, in_map_iff in Hr. destruct Hr as (x & <- & _). simpl in *. split_and!; [done|lia..].
    + split_and!; [done|lia|]. destruct (row_live j) eqn:El; [|done]. exfalso.
      assert (Hin : by_id rows2 !! uuid_String (it_ID j) = Some (zero_count j)); [|by rewrite Hin in E2].
      apply by_id_spec; [done|]. split; [|done]. unfold rows2. rewrite list_elem_of_In, in_map_iff. exists j.
      split; [done|]. rewrite <- list_elem_of_In. apply elem_of_t_where. by rewrite bool_decide_true.
Qed.

(** Over distinct iterations the items are counted one iteration at a time. *)
Lemma counts_add_up q l r : NoDup (map it_ID l) → (∀ j, j ∈ l → j ∈ its ∧ it_SpaceID j = spaceID) →
  Total r = count (λ w, s_live w && in_space spaceID w && existsb (λ j, in_iteration (uuid_String (it_ID j)) w) q) items →
  Closed r = count (λ w, s_live w && in_space spaceID w && existsb (λ j, in_iteration (uuid_String (it_ID j)) w) q
                         && closed_ilike w) items →
  (∀ j, j ∈ l → ∀ k, k ∈ q → it_ID k ≠ it_ID j) →
  let r' := fold_left (add_counts wiMap) (map (λ j, uuid_String (it_ID j)) l) r in
  let all := q ++ l in
  Total r' = count (λ w, s_live w && in_space spaceID w && existsb (λ j, in_iteration (uuid_String (it_ID j)) w) all) items ∧
  Closed r' = count (λ w, s_live w && in_space spaceID w && existsb (λ j, in_iteration (uuid_String (it_ID j)) w) all
                          && closed_ilike w) items.
Proof.
  revert q r. induction l as [|j l IH]; intros q r Hn Hl HT HC Hq; [by rewrite app_nil_r|].
  cbn [map fold_left]. cbn [map] in Hn. apply NoDup_cons in Hn as [Hj Hn].
  replace (q ++ j :: l) with ((q ++ [j]) ++ l) by (by rewrite <- app_assoc).
  pose proof (all_counts j) as HA. specialize (HA (proj1 (Hl j ltac:(by left))) (proj2 (Hl j ltac:(by left)))).
  assert (Hone : ∀ w, existsb (λ k, in_iteration (uuid_String (it_ID k)) w) q = true →
                      in_iteration (uuid_String (it_ID j)) w = false).
  { intros w (k & Hk & Hkw)%existsb_exists. apply list_elem_of_In in Hk. apply not_true_iff_false. intros Hjw.
    apply (Hq j ltac:(by left) k Hk). unfold in_iteration in *. destruct (fld _ _); try done.
    apply String.eqb_eq in Hkw, Hjw. apply uuid_String_inj. congruence. }
  assert (Hsplit : ∀ c : WorkItemStorage → bool,
    count (λ w, s_live w && in_space spaceID w && existsb (λ k, in_iteration (uuid_String (it_ID k)) w) (q ++ [j]) && c w) items
    = count (λ w, s_live w && in_space spaceID w && existsb (λ k, in_iteration (uuid_String (it_ID k)) w) q && c w) items
      + count (λ w, joined spaceID j w && c w) items).
  { intros c. rewrite <- count_or.
    - apply count_ext. intros w. rewrite existsb_app. cbn [existsb]. unfold joined. rewrite orb_false_r.
      by destruct (s_live w), (in_space spaceID w), (existsb _ q), (in_iteration _ w), (c w).
    - intros w. rewrite !andb_true_iff. intros [[_ Hw] _]. unfold joined. rewrite (Hone w Hw).
      by rewrite !andb_false_r. }
  pose proof (Hsplit (λ _, true)) as HsT. pose proof (Hsplit closed_ilike) as HsC.
  rewrite !(count_ext (λ w, _ && true) _ items (λ w, andb_true_r _)) in HsT.
  apply IH; [done|set_solver| | |].
  - rewrite HsT. unfold add_counts. destruct (wiMap !! _); simpl; destruct HA as (? & ? & ?); lia.
  - rewrite HsC. unfold add_counts. destruct (wiMap !! _); simpl; destruct HA as (? & ? & ?); lia.
  - intros k Hk x [Hx|Hx]%elem_of_app; [apply Hq; [by right|done]|]. apply list_elem_of_singleton in Hx as ->.
    intros E. apply Hj. rewrite E, list_elem_of_In. by apply in_map, list_elem_of_In.
Qed.
End PerIteration.

(** The descendants of an iteration are found again after the detour through text. *)
Lemma childMap_lookup spaceID its i : ids_unique its → i ∈ its → it_SpaceID i = spaceID →
  default [] (childMap spaceID its !! uuid_String (it_ID i)) =
  map (λ j, uuid_String (it_ID j)) (List.filter (λ x, strictly_under x i) (of_space spaceID its)).
Proof.
  intros Hids Hi Hs. unfold childMap. set (L := of_space spaceID its).
  assert (HiL : i ∈ L).
  { unfold L, of_space. rewrite list_elem_of_In, List.filter_In, <- list_elem_of_In. by rewrite bool_decide_true. }
  assert (Heq : ∀ x, x ∈ L → uuid_String (it_ID x) = uuid_String (it_ID i) → x = i).
  { intros x Hx E%uuid_String_inj. apply (ids_unique_eq its); [done| |done|done].
    unfold L, of_space in Hx. rewrite list_elem_of_In, List.filter_In, <- list_elem_of_In in Hx. apply Hx. }
  set (l := omap (children_row L) L).
  assert (Hkey : ∀ p, p ∈ l → p.1 = uuid_String (it_ID i) → children_row L i = Some p).
  { intros p Hp E. unfold l in Hp. apply list_elem_of_omap in Hp as (x & Hx & Ex).
    assert (x = i) as ->; [|done]. apply Heq; [done|]. rewrite <- E. unfold children_row in Ex.
    destruct (List.filter _ L); [done|]. by injection Ex as <-. }
  destruct (List.filter (λ x, strictly_under x i) L) as [|c cs] eqn:Ef.
  - rewrite not_elem_of_list_to_map_1; [done|].
    change ((map ?f l).*1) with (map fst (map f l)). rewrite map_map. cbn [fst].
    rewrite list_elem_of_In, in_map_iff. intros (p & E & Hp%list_elem_of_In).
    specialize (Hkey p Hp E). unfold children_row in Hkey. by rewrite Ef in Hkey.
  - rewrite <- Ef. rewrite (elem_of_list_to_map_1' (K := string) _ _ (map (λ j, uuid_String (it_ID j)) (c :: cs))).
    + by rewrite Ef.
    + intros y Hy. rewrite list_elem_of_In, in_map_iff in Hy. destruct Hy as (p & [= E <-] & Hp%list_elem_of_In).
      specialize (Hkey p Hp E). unfold children_row in Hkey. rewrite Ef in Hkey. injection Hkey as <-.
      cbn [snd]. rewrite split_array_text by done. simpl. by rewrite map_map.
    + rewrite list_elem_of_In, in_map_iff. exists (uuid_String (it_ID i), array_text (map it_ID (c :: cs))).
      split; [cbn [fst snd]; rewrite split_array_text by done; by rewrite map_map|].
      apply list_elem_of_In. unfold l. apply list_elem_of_omap. exists i. split; [done|].
      unfold children_row. by rewrite Ef.
Qed.

(** C31: the counts of an iteration of a space are those of its own live items and of the items of every iteration
    below it, deleted ones included, each item counted once, although they are added up from the grouped query, the
    rows of zeros and the text of the aggregated ids. *)
Theorem GetCountsPerIteration_subtree spaceID its items i (Hids : ids_unique its)
    (Hi : i ∈ its) (Hl : row_live i = true) (Hs : it_SpaceID i = spaceID) :
  let below := List.filter (λ x, strictly_under x i) (of_space spaceID its) in
  let mine w := s_live w && in_space spaceID w
                && existsb (λ j, in_iteration (uuid_String (it_ID j)) w) (i :: below) in
  ∃ r, GetCountsPerIteration spaceID its items !! uuid_String (it_ID i) = Some r ∧
    Total r = count mine items ∧ Closed r = count (λ w, mine w && closed_ilike w) items ∧
    ∀ j, j ∈ below ↔ j ∈ its ∧ it_SpaceID j = spaceID ∧ ∃ p, p ≠ [] ∧ it_Path j = it_Path i ++ p.
Proof.
  pose proof (all_counts spaceID its items Hids i Hi Hs) as HA. intros below mine.
  unfold GetCountsPerIteration, getFinalCountAddingChild. rewrite lookup_fmap.
  destruct (_ !! uuid_String (it_ID i)) as [r|] eqn:Er; [|by destruct HA as (_ & _ & HA); rewrite Hl in HA].
  destruct HA as (Eid & HT & HC). simpl. eexists. split; [done|]. rewrite Eid.
  rewrite (childMap_lookup spaceID its i Hids Hi Hs). fold below.
  assert (Hb : ∀ j, j ∈ below ↔ j ∈ its ∧ it_SpaceID j = spaceID ∧ strictly_under j i = true).
  { intros j. unfold below, of_space. rewrite list_elem_of_In, !List.filter_In, <- list_elem_of_In, bool_decide_eq_true.
    naive_solver. }
  destruct (counts_add_up spaceID its items Hids [i] below r) as [H1 H2].
  - unfold below, of_space. by do 2 apply NoDup_map_filter.
  - intros j Hj. by apply Hb in Hj as (? & ? & _).
  - rewrite HT. apply count_ext. intros w. unfold joined. cbn [existsb]. by rewrite orb_false_r.
  - rewrite HC. apply count_ext. intros w. unfold joined. cbn [existsb]. by rewrite orb_false_r.
  - intros j (Hj & _ & Hu)%Hb k ->%list_elem_of_singleton E. apply strictly_under_spec in Hu as (p & Hp & Ep).
    assert (i = j) as <- by by apply (ids_unique_eq its).
    apply (f_equal length) in Ep. rewrite length_app in Ep. destruct p; [done|]. simpl in Ep. lia.
  - split_and!; [exact H1|exact H2|]. intros j. by rewrite Hb, strictly_under_spec.
Qed.

(** for a stored iteration the other route counts the items of the iteration and of all those below it whether
    they are deleted or not: the check of the deletion mark belongs to the last of the alternatives only, and the
    iteration is among the others already. *)
Theorem GetCountsForIteration_deleted_too itr its items (Hi : itr ∈ its) :
  let subtree := List.filter (λ x, under (it_Path itr) x && bool_decide (it_SpaceID x = it_SpaceID itr)) its in
  let mine w := existsb (λ j, in_iteration (uuid_String (it_ID j)) w) subtree in
  (∀ j, j ∈ subtree ↔ j ∈ its ∧ it_SpaceID j = it_SpaceID itr ∧ ∃ p, it_Path j = it_Path itr ++ p) ∧
  ∃ r, GetCountsForIteration itr its items !! uuid_String (it_ID itr) = Some r ∧
    Total r = count mine items ∧ Closed r = count (λ w, mine w && closed_exactly w) items.
Proof.
  intros subtree mine.
  assert (Hsub : ∀ j, j ∈ subtree ↔ j ∈ its ∧ it_SpaceID j = it_SpaceID itr ∧ ∃ p, it_Path j = it_Path itr ++ p).
  { intros j. unfold subtree. rewrite list_elem_of_In, List.filter_In, <- list_elem_of_In, andb_true_iff, under_spec,
      bool_decide_eq_true. naive_solver. }
  split; [done|]. unfold GetCountsForIteration. rewrite lookup_singleton_eq. eexists. split; [done|]. cbn [Total Closed].
  assert (Hm : ∀ w, counted itr its w = mine w).
  { intros w. unfold counted, mine, child_ids. fold subtree.
    rewrite existsb_map. destruct (existsb _ _) eqn:E; [done|].
    destruct (in_iteration (uuid_String (it_ID itr)) w) eqn:Ew; [|done]. exfalso.
    apply not_true_iff_false in E. apply E, existsb_exists. exists itr. split; [|done].
    apply list_elem_of_In, Hsub. split_and!; [done..|]. exists []. by rewrite app_nil_r. }
  split; apply count_ext; intros w; by rewrite Hm.
Qed.
End CountFacts.
