(* ===== verification/IterationController.v ===== *)
(** * The requests on iterations

    [controller/iteration.go] and the creation of [controller/space_iterations.go]:
    the checks, the transactions and the answers.  The identity of the user and
    the answer of the authorization service are arguments, [between] is what
    other requests commit between the two transactions of a request, and the
    statements of one transaction see one reading of the clock. *)

From Stdlib Require Import ZArith Lia Ascii String SpecFloat.
From S2P Require Export Transactions Errors Spaces IterationCounts.
Import Path Transactions.

(** ** The store *)

Record app_db := { its : it_db; sps : space_db; wis : wi_db }.
Notation apm A := (app_db → res A * app_db).
Definition on_its {A} (m : itm A) : apm A := λ d,
  let '(r, t) := m (its d) in (r, {| its := t; sps := sps d; wis := wis d |}).
Definition on_wis {A} (m : wstm A) : apm A := λ d,
  let '(r, t) := m (wis d) in (r, {| its := its d; sps := sps d; wis := t |}).
(** Other requests take their turn. *)
Definition meanwhile (between : app_db → app_db) : apm unit := λ d, (Ok tt, between d).

(** An error of the goa framework; its token is random. *)
Definition goa_error (status : Z) (code detail : string) : error :=
  GoaServiceError status "" detail (Some (code, detail)).
Definition goa_ErrUnauthorized (e : error) : error := goa_error 401 "unauthorized" (Errors.ErrorMsg e).
Definition goa_ErrNotFound (detail : string) : error := goa_error 404 "not_found" detail.
Definition user_of (identity : res uuid) : res uuid :=
  match identity with Err e => Err (goa_ErrUnauthorized e) | r => r end.

(** ** The answer: the attributes that are copied, and those that are computed; links are left out. *)

Record AppIteration := {
  ai_source : Iteration;
  ai_ParentPath : string;
  ai_ActiveStatus : bool;
  ai_Space : string;
  ai_Parent : option string;
  ai_ResolvedParentPath : option string;
  ai_Total : option Z;
  ai_Closed : option Z;
}.
Notation iterationIDMap := (gmap uuid Iteration).
Definition id_map (l : list Iteration) : iterationIDMap :=
  fold_left (λ m i, <[it_ID i := i]> m) l ∅.

Section Controller.
Context {HO : UuidOps}.

Definition ConvertIteration (now now' : Time) (itr : Iteration) (additional : list (Iteration → AppIteration → AppIteration))
    : AppIteration :=
  fold_left (λ i add, add itr i) additional
    {| ai_source := itr; ai_ParentPath := PathString (ParentPath (it_Path itr)); ai_ActiveStatus := IsActive now now' itr;
       ai_Space := uuid_String (it_SpaceID itr);
       ai_Parent := if negb (IsEmpty (ParentPath (it_Path itr))) then Some (uuid_String (ParentID (it_Path itr))) else None;
       ai_ResolvedParentPath := None; ai_Total := None; ai_Closed := None |}.
Definition parentPathResolver (itrMap : iterationIDMap) (itr : Iteration) (i : AppIteration) : AppIteration :=
  let pathResolved := fold_left (λ s id, match itrMap !! id with
                                         | Some x => s +:+ "/" +:+ it_Name x
                                         | None => s
                                         end) (ParentPath (it_Path itr)) "" in
  {| ai_source := ai_source i; ai_ParentPath := ai_ParentPath i; ai_ActiveStatus := ai_ActiveStatus i;
     ai_Space := ai_Space i; ai_Parent := ai_Parent i;
     ai_ResolvedParentPath := Some (if String.eqb pathResolved "" then "/" else pathResolved);
     ai_Total := ai_Total i; ai_Closed := ai_Closed i |}.
Definition updateIterationsWithCounts (wiCounts : gmap string WICountsPerIteration) (itr : Iteration)
    (i : AppIteration) : AppIteration :=
  let counts := default {| IterationID := ""; Total := 0; Closed := 0 |}
                  (wiCounts !! uuid_String (it_ID (ai_source i))) in
  {| ai_source := ai_source i; ai_ParentPath := ai_ParentPath i; ai_ActiveStatus := ai_ActiveStatus i;
     ai_Space := ai_Space i; ai_Parent := ai_Parent i; ai_ResolvedParentPath := ai_ResolvedParentPath i;
     ai_Total := Some (Total counts); ai_Closed := Some (Closed counts) |}.

(** ** What the requests share *)

Context (authorize : string → res bool).
Definition verifyUser (currentUser : uuid) (sp : Space) : res (bool * bool) :=
  authorized ← authorize (uuid_String (sp_ID sp)); Ok (authorized, bool_decide (currentUser = OwnerID sp)).
(** The forbidden answer after the unauthorized one is never given. *)
Definition check_user (currentUser : uuid) (sp : Space) : res unit :=
  match verifyUser currentUser sp with
  | Err e => Err (UnauthorizedError (Errors.ErrorMsg e))
  | Panic m => Panic m
  | Ok (authorized, spaceOwner) =>
      if negb authorized && negb spaceOwner
      then if negb authorized then Err (UnauthorizedError "user is not allowed to create an iteration in this space")
           else Err (ForbiddenError "user is not allowed to create an iteration in this space")
      else Ok tt
  end.
Definition parse_id (s : string) : res uuid :=
  match uuid_FromString s with
  | Some id => Ok id
  | None => Err (goa_ErrNotFound "uuid: incorrect UUID")
  end.
(** The first transaction of a creation and of an update. *)
Definition load_with_space (id : uuid) : apm (Iteration * Space) :=
  let* itr := s_query (λ d, Iterations.Load id (its d)) in
  let* sp := s_query (λ d, space_Load (sps d) (it_SpaceID itr)) in
  s_ret (itr, sp).

(** The attributes of a payload, and the id of the parent of an update. *)
Record ItPayload := {
  p_ID : option uuid;
  p_Name : option string;
  p_Description : option string;
  p_StartAt : option Time;
  p_EndAt : option Time;
  p_State : option string;
  p_UserActive : option bool;
  p_Parent : option (option (option string));    (* the relationship, its data, the id *)
}.
Definition blank_iteration (spaceID : uuid) (p : ItPayload) (ID : uuid) (name : string) : Iteration :=
  {| it_Lifecycle := stamped {| instant := 0; representation := 0 |};
     it_Number := NewHumanFriendlyNumber uuid_Nil "" []; it_ID := ID; it_SpaceID := spaceID; it_Path := [];
     StartAt := p_StartAt p; EndAt := p_EndAt p; it_Name := name; it_Description := p_Description p;
     it_State := ""; UserActive := default false (p_UserActive p); it_RelationShipsChangedAt := None |}.
Definition no_name : error := BadParameterError "data.attributes.name" "<nil>" (Some "not nil") None.

(** ** Creating *)

(** [id1], [id2], [id3]: the ids drawn by the handler, by [MakeChildOf] and by the repository. *)
Definition CreateChild (now : Time) (id1 id2 id3 : uuid) (between : app_db → app_db) (identity : res uuid)
    (iterationID : string) (reqItr : ItPayload) : apm (Iteration * iterationIDMap) :=
  let* currentUser := s_query (λ _, user_of identity) in
  let* parentID := s_query (λ _, parse_id iterationID) in
  let* p := transact (load_with_space parentID) in
  let '(parentItr, itrSpace) := p in
  let* _ := s_query (λ _, check_user currentUser itrSpace) in
  let* name := s_query (λ _, match p_Name reqItr with Some n => Ok n | None => Err no_name end) in
  let itr := blank_iteration (it_SpaceID parentItr) reqItr (default id1 (p_ID reqItr)) name in
  let itr := MakeChildOf id2 itr parentItr in
  let* _ := meanwhile between in
  transact (
    let* itr := on_its (Iterations.Create now id3 itr) in
    let* parentItrs := s_query (λ d, Ok (LoadMultiple [] (ParentPath (it_Path itr)) (its d)).1) in
    s_ret (itr, id_map parentItrs)).
Definition CreateChild_answer (now now' : Time) (r : Iteration * iterationIDMap) : AppIteration :=
  ConvertIteration now now' r.1 [parentPathResolver r.2; updateIterationsWithCounts ∅].

(** [SpaceIterationsController.Create] *)
Definition space_iteration_Create (now : Time) (id1 id2 id3 : uuid) (identity : res uuid) (spaceID : uuid)
    (data : option ItPayload) : apm (Iteration * iterationIDMap) :=
  let* currentUser := s_query (λ _, user_of identity) in
  let* reqIter := s_query (λ _, match data with
                                | Some p => Ok p
                                | None => Err (BadParameterError "data" "<nil>" (Some "not nil") None)
                                end) in
  let* name := s_query (λ _, match p_Name reqIter with Some n => Ok n | None => Err no_name end) in
  transact (
    let* s := s_query (λ d, match space_Load (sps d) spaceID with
                            | Err e => Err (goa_ErrNotFound (Errors.ErrorMsg e)) | r => r end) in
    let* _ := s_query (λ _, if negb (bool_decide (currentUser = OwnerID s))
                            then Err (ForbiddenError "user is not the space owner") else Ok tt) in
    let* rootIteration := s_query (λ d, match Root_ spaceID (its d) with
                                        | Err e => Err (goa_ErrNotFound (Errors.ErrorMsg e)) | r => r end) in
    let newItr := MakeChildOf id2 (blank_iteration spaceID reqIter id1 name) rootIteration in
    let* newItr := on_its (Iterations.Create now id3 newItr) in
    let* iterations := s_query (λ d, Ok (if negb (IsEmpty (it_Path newItr))
                                         then (LoadMultiple [] (ParentPath (it_Path newItr)) (its d)).1 else [])) in
    s_ret (newItr, id_map iterations)).

(** ** Updating *)

(** [time.Time.IsZero]: instants count from the zero time. *)
Definition IsZero (t : Time) : bool := instant t =? 0.
Definition new_time (old new : option Time) : option Time :=
  match new with Some t => if IsZero t then None else Some t | None => old end.
(** The plain attributes of an update. *)
Definition with_attributes (p : ItPayload) (itr : Iteration) : Iteration :=
  {| it_Lifecycle := it_Lifecycle itr; it_Number := it_Number itr; it_ID := it_ID itr; it_SpaceID := it_SpaceID itr;
     it_Path := it_Path itr; StartAt := new_time (StartAt itr) (p_StartAt p); EndAt := new_time (EndAt itr) (p_EndAt p);
     it_Name := default (it_Name itr) (p_Name p);
     it_Description := match p_Description p with Some s => Some s | None => it_Description itr end;
     it_State := it_State itr; UserActive := UserActive itr;
     it_RelationShipsChangedAt := it_RelationShipsChangedAt itr |}.
Definition with_user_active (p : ItPayload) (itr : Iteration) : Iteration :=
  {| it_Lifecycle := it_Lifecycle itr; it_Number := it_Number itr; it_ID := it_ID itr; it_SpaceID := it_SpaceID itr;
     it_Path := it_Path itr; StartAt := StartAt itr; EndAt := EndAt itr; it_Name := it_Name itr;
     it_Description := it_Description itr; it_State := it_State itr;
     UserActive := default (UserActive itr) (p_UserActive p);
     it_RelationShipsChangedAt := it_RelationShipsChangedAt itr |}.
(** [if res == false && err != nil] *)
Definition new_state (p : ItPayload) (itr : Iteration) (d : it_db) : res Iteration :=
  match p_State p with
  | None => Ok itr
  | Some state =>
      _ ← (if String.eqb state StateStart then
             match CanStart itr d with Err e => Err e | Panic m => Panic m | Ok _ => Ok true end
           else Ok true);
      Ok (it_set_state itr state)
  end.
(** The new parent, and the old subtree: [None] when the payload has none. *)
Definition new_parent (p : ItPayload) (itr : Iteration) (d : it_db) : res (option (Iteration * list Iteration)) :=
  match p_Parent p with
  | None => Ok None
  | Some data =>
      if Iterations.IsRoot itr (it_SpaceID itr) then Err (ForbiddenError "Parent of root iteration can not be updated")
      else match data with
      | None => Panic "invalid memory address or nil pointer dereference"
      | Some None => Err (BadParameterError "Data.Relationships.Parent.ID" "<nil>" (Some "not nil") None)
      | Some (Some newParentID) =>
          match uuid_FromString newParentID with
          | None => Err (BadParameterError "Data.Relationships.Parent.ID" newParentID None None)
          | Some pid =>
              if bool_decide (pid = it_ID itr)
              then Err (ForbiddenError "Parent must be different than subject iteration")
              else
                newParentIteration ← Iterations.Load pid d;
                if negb (bool_decide (it_SpaceID newParentIteration = it_SpaceID itr))
                then Err (ForbiddenError "Parent must be from same space")
                else
                  oldSubtree ← LoadChildren (it_ID itr) d;
                  if existsb (λ childItr, bool_decide (it_ID newParentIteration = it_ID childItr)) oldSubtree
                  then Err (ForbiddenError "Parent must not be existing child")
                  else Ok (Some (newParentIteration, oldSubtree))
          end
      end
  end.
(** Every iteration of the old subtree becomes a child of [itr]. *)
Fixpoint save_children (now : Time) (newID : uuid) (itr : Iteration) (oldSubtree : list Iteration) : itm unit :=
  match oldSubtree with
  | [] => s_ret tt
  | x :: l => let* _ := Iterations.Save now (MakeChildOf newID x itr) in save_children now newID itr l
  end.
Definition save_update (now : Time) (newID : uuid) (p : ItPayload) (itr : Iteration) : itm Iteration :=
  let itr := with_attributes p itr in
  let* itr := s_query (new_state p itr) in
  let itr := with_user_active p itr in
  let* parent := s_query (new_parent p itr) in
  match parent with
  | None => Iterations.Save now itr
  | Some (newParentIteration, oldSubtree) =>
      let* itr := Iterations.Save now (MakeChildOf newID itr newParentIteration) in
      let* _ := save_children now newID itr oldSubtree in
      s_ret itr
  end.
Definition Update (now : Time) (newID : uuid) (between : app_db → app_db) (identity : res uuid) (iterationID : string)
    (p : ItPayload) : apm (Iteration * gmap string WICountsPerIteration * iterationIDMap) :=
  let* currentUser := s_query (λ _, user_of identity) in
  let* id := s_query (λ _, parse_id iterationID) in
  let* q := transact (load_with_space id) in
  let '(itr, sp) := q in
  let* _ := s_query (λ _, check_user currentUser sp) in
  let* _ := meanwhile between in
  transact (
    let* itr := on_its (save_update now newID p itr) in
    let* wiCounts := s_query (λ d, Ok (GetCountsForIteration itr (iterations (its d)) (rows (wis d)))) in
    let* iterations := s_query (λ d, Ok (LoadMultiple [] (it_Path itr) (its d)).1) in
    s_ret (itr, wiCounts, id_map iterations)).
Definition Update_answer (now now' : Time) (r : Iteration * gmap string WICountsPerIteration * iterationIDMap)
    : AppIteration :=
  ConvertIteration now now' r.1.1 [parentPathResolver r.2; updateIterationsWithCounts r.1.2].

(** ** Showing *)

Definition Show_ (now now' : Time) (iterationID : string) (d : app_db) : res AppIteration :=
  id ← parse_id iterationID;
  itr ← with_stack (Iterations.Load id (its d));
  Ok (ConvertIteration now now' itr
        [parentPathResolver (id_map (LoadMultiple [] (it_Path itr) (its d)).1);
         updateIterationsWithCounts (GetCountsForIteration itr (iterations (its d)) (rows (wis d)))]).

(** ** Deleting *)

Section Delete.
Context (IsURL : string → bool) (time_json : Z → string) (struct_json : string → option gval).
Context (Sprint : gval → string) (related : related_rows).

(** The items of one iteration go to [parent]. *)
Definition with_iteration (parent : uuid) (wi : WorkItem) : WorkItem :=
  {| w_ID := w_ID wi; w_Number := w_Number wi; w_Type := w_Type wi; w_Version := w_Version wi;
     w_SpaceID := w_SpaceID wi; w_Fields := <[SystemIteration := VString (uuid_String parent)]> (w_Fields wi);
     w_relationShipsChangedAt := w_relationShipsChangedAt wi |}.
Fixpoint move_items (now : Time) (parent currentUser : uuid) (wis : list WorkItem) : wstm unit :=
  match wis with
  | [] => s_ret tt
  | wi :: l =>
      let* _ := WorkItems.Save IsURL time_json struct_json Sprint related now (w_SpaceID wi) (with_iteration parent wi)
                  currentUser in
      move_items now parent currentUser l
  end.
Fixpoint delete_all (now : Time) (parent currentUser : uuid) (subtree : list Iteration) : apm unit :=
  match subtree with
  | [] => s_ret tt
  | child :: l =>
      let* wis := on_wis (LoadByIteration time_json struct_json (it_ID child)) in
      let* _ := on_wis (move_items now parent currentUser wis) in
      let* _ := on_its (Iterations.Delete now (it_ID child)) in
      delete_all now parent currentUser l
  end.
Definition DeleteIteration (now : Time) (identity : res uuid) (iterationID : uuid) : apm unit :=
  let* currentUser := s_query (λ _, user_of identity) in
  transact (
    let* itr := s_query (λ d, Iterations.Load iterationID (its d)) in
    let* s := s_query (λ d, match space_Load (sps d) (it_SpaceID itr) with
                            | Err e => Err (goa_ErrNotFound (Errors.ErrorMsg e)) | r => r end) in
    let* _ := s_query (λ _, if negb (bool_decide (currentUser = OwnerID s))
                            then Err (ForbiddenError "only the space owner can delete an iteration and %s is not the space owner of %s")
                            else if Iterations.IsRoot itr (sp_ID s) then Err (ForbiddenError "can not delete root iteration")
                            else Ok tt) in
    let* subtree := s_query (λ d, LoadChildren iterationID (its d)) in
    let parentID := ParentID (it_Path itr) in
    let* parentIteration := s_query (λ d, if bool_decide (parentID = uuid_Nil)
                                          then Err (goa_ErrNotFound "can not find parent iteration")
                                          else Iterations.Load parentID (its d)) in
    delete_all now (it_ID parentIteration) currentUser (subtree ++ [itr])).
End Delete.
End Controller.
