(* ===== verification/IterationRequests.v ===== *)
(** * What the requests on iterations keep

    Every answered request leaves a well-formed table of iterations, whatever
    others commit between its two transactions as long as the iteration that
    was loaded is still as it was; one that is refused stores nothing. *)

From Stdlib Require Import ZArith Lia Ascii String SpecFloat.
From stdpp Require Import relations.
From S2P Require Export IterationFacts WorkItemFacts IterationController.
Import Path Transactions.

(** ** Requests in one transaction *)

Section Atomic.
Context {S : Type}.
Definition reads {A} (m : S → res A * S) : Prop := ∀ d, (m d).2 = d.
Definition all_or_nothing {A} (m : S → res A * S) : Prop := ∀ d r d', m d = (r, d') → is_ok r = false → d' = d.
Lemma reads_query {A} (q : S → res A) : reads (s_query q).
Proof. done. Qed.
Lemma reads_ret {A} (a : A) : reads (s_ret a).
Proof. done. Qed.
Lemma reads_bind {A B} (m : S → res A * S) (k : A → S → res B * S) : reads m → (∀ a, reads (k a)) → reads (s_bind m k).
Proof. intros Hm Hk d. unfold s_bind. specialize (Hm d). destruct (m d) as [[a|e|p] d1]; simpl in *; subst; [apply Hk|done..]. Qed.
Lemma reads_transact {A} (m : S → res A * S) : reads m → reads (transact m).
Proof. intros Hm d. unfold transact. specialize (Hm d). by destruct (m d) as [[a|e|p] d1]. Qed.
Lemma atomic_transact {A} (m : S → res A * S) : all_or_nothing (transact m).
Proof. intros d r d' H Hr. unfold transact in H. destruct (m d) as [[a|e|p] d1]; injection H as <- <-; done. Qed.
Lemma atomic_bind {A B} (m : S → res A * S) (k : A → S → res B * S) :
  reads m → (∀ a, all_or_nothing (k a)) → all_or_nothing (s_bind m k).
Proof.
  intros Hm Hk d r d' H Hr. unfold s_bind in H. specialize (Hm d). destruct (m d) as [[a|e|p] d1]; simpl in Hm; subst d1.
  - by eapply Hk.
  - by injection H as _ <-.
  - by injection H as _ <-.
Qed.
End Atomic.
#[export] Hint Resolve reads_query reads_ret reads_bind reads_transact atomic_transact atomic_bind : golib.

Section Requests.
Context {HO : UuidOps} {HL : UuidLaws} (authorize : string → res bool).
Context (IsURL : string → bool) (time_json : Z → string) (struct_json : string → option gval).
Context (Sprint : gval → string) (related : related_rows).

(** The requests that change iterations; a space gets its root when it is made. *)
Inductive request :=
  | RCreateRoot (now : Time) (id3 spaceID : uuid) (name : string)
  | RCreateChild (now : Time) (id1 id2 id3 : uuid) (identity : res uuid) (iterationID : string) (p : ItPayload)
  | RCreateInSpace (now : Time) (id1 id2 id3 : uuid) (identity : res uuid) (spaceID : uuid) (data : option ItPayload)
  | RUpdate (now : Time) (id2 : uuid) (identity : res uuid) (iterationID : string) (p : ItPayload)
  | RDelete (now : Time) (identity : res uuid) (iterationID : uuid).
Definition discard_ {A} (m : apm A) : apm unit := let* _ := m in s_ret tt.
Definition no_payload : ItPayload :=
  {| p_ID := None; p_Name := None; p_Description := None; p_StartAt := None; p_EndAt := None; p_State := None;
     p_UserActive := None; p_Parent := None |}.
(** [between] is what other requests commit between the two transactions of a creation or of an update. *)
Definition answer (between : app_db → app_db) (q : request) : apm unit :=
  match q with
  | RCreateRoot now id3 spaceID name =>
      discard_ (transact (on_its (Iterations.Create now id3 (blank_iteration spaceID no_payload uuid_Nil name))))
  | RCreateChild now id1 id2 id3 identity iterationID p =>
      discard_ (CreateChild authorize now id1 id2 id3 between identity iterationID p)
  | RCreateInSpace now id1 id2 id3 identity spaceID data =>
      discard_ (space_iteration_Create now id1 id2 id3 identity spaceID data)
  | RUpdate now id2 identity iterationID p =>
      discard_ (Update authorize now id2 between identity iterationID p)
  | RDelete now identity iterationID =>
      DeleteIteration IsURL time_json struct_json Sprint related now identity iterationID
  end.

Lemma discard_ok_ {A} (m : apm A) d u d' : discard_ m d = (Ok u, d') → ∃ a, m d = (Ok a, d').
Proof. unfold discard_. intros (a & d1 & H & [= _ <-])%s_bind_ok. by exists a. Qed.

(** A request that fails leaves what there was, or what the others made of it. *)
Section Failing.
Context (between : app_db → app_db).
Definition fails_as_was {A} (m : apm A) : Prop :=
  ∀ d r d', m d = (r, d') → is_ok r = false → d' = d ∨ d' = between d.
Lemma atomic_fails {A} (m : apm A) : all_or_nothing m → fails_as_was m.
Proof. intros Hm d r d' H Hr. left. by eapply Hm. Qed.
Lemma discard_fails {A} (m : apm A) : fails_as_was m → fails_as_was (discard_ m).
Proof.
  intros Hm d r d' H Hr. unfold discard_, s_bind, s_ret in H. destruct (m d) as [[a|e|p] d1] eqn:E; injection H as <- <-.
  - done.
  - by eapply Hm.
  - by eapply Hm.
Qed.
Lemma reads_fails {A B} (m : apm A) (k : A → apm B) : reads m → (∀ a, fails_as_was (k a)) → fails_as_was (s_bind m k).
Proof.
  intros Hm Hk d r d' H Hr. unfold s_bind in H. specialize (Hm d). destruct (m d) as [[a|e|p] d1]; simpl in Hm; subst d1.
  - by eapply Hk.
  - injection H as _ <-. by left.
  - injection H as _ <-. by left.
Qed.
Lemma meanwhile_fails {B} (k : unit → apm B) : (∀ a, all_or_nothing (k a)) → fails_as_was (s_bind (meanwhile between) k).
Proof. intros Hk d r d' H Hr. right. unfold s_bind, meanwhile in H. by eapply Hk. Qed.
End Failing.

Lemma answer_fails_core between q : fails_as_was between (answer between q).
Proof.
  destruct q; cbn [answer]; repeat apply discard_fails.
  - apply atomic_fails, atomic_transact.
  - unfold CreateChild. do 2 (apply reads_fails; [eauto 20 with golib|intros ?]).
    apply reads_fails; [unfold load_with_space; eauto 20 with golib|intros [itr sp]]. repeat (apply reads_fails; [by apply reads_query|intros ?]).
    apply meanwhile_fails. intros []. apply atomic_transact.
  - apply atomic_fails. unfold space_iteration_Create. eauto 20 with golib.
  - unfold Update. do 2 (apply reads_fails; [eauto 20 with golib|intros ?]).
    apply reads_fails; [unfold load_with_space; eauto 20 with golib|intros [itr sp]]. repeat (apply reads_fails; [by apply reads_query|intros ?]).
    apply meanwhile_fails. intros []. apply atomic_transact.
  - apply atomic_fails. unfold DeleteIteration. eauto 20 with golib.
Qed.

(** C38: a request on iterations that is answered by an error stores nothing, whichever of its steps failed: the store is
    as it was, or as the other requests left it between its two transactions. *)
Theorem answer_all_or_nothing between q d r d' (H : answer between q d = (r, d')) (Hr : is_ok r = false) :
  d' = d ∨ d' = between d.
Proof. by eapply answer_fails_core. Qed.

(** ** Creating *)

Lemma on_its_ok {A} (m : itm A) d r d' : on_its m d = (r, d') → m (its d) = (r, its d') ∧ sps d' = sps d ∧ wis d' = wis d.
Proof. unfold on_its. destruct (m (its d)) as [x t]. by intros [= <- <-]. Qed.
Lemma on_wis_its {A} (m : wstm A) d r d' : on_wis m d = (r, d') → m (wis d) = (r, wis d') ∧ its d' = its d.
Proof. unfold on_wis. destruct (m (wis d)) as [x t]. by intros [= <- <-]. Qed.
Lemma create_placed now id3 u d r d' : it_wf (its d) → well_placed (its d) u →
  (it_ID u = uuid_Nil → id3 ≠ uuid_Nil) → on_its (Iterations.Create now id3 u) d = (Ok r, d') → it_wf (its d').
Proof. intros H Hp Hn (HC & _)%on_its_ok. apply Create_row in HC as [row HC]. by eapply it_creation_wf. Qed.
Lemma child_placed d id2 u p : p ∈ iterations d → row_live p = true → it_SpaceID u = it_SpaceID p →
  well_placed d (MakeChildOf id2 u p).
Proof. intros Hp Hl Hs. right; right; right. exists p. by split_and!. Qed.
Lemma Root_ok sp d i : Root_ sp d = Ok i → i ∈ iterations d ∧ row_live i = true ∧ it_SpaceID i = sp.
Proof.
  unfold Root_. destruct (t_first _ _) as [x|] eqn:E; [|done]. intros [= ->].
  apply t_first_some in E as (? & ? & HE). apply andb_prop in HE as [HE _]. by apply bool_decide_eq_true in HE.
Qed.
Lemma load_with_space_ok id d p d' : transact (load_with_space id) d = (Ok p, d') →
  d' = d ∧ Iterations.Load id (its d) = Ok p.1 ∧ space_Load (sps d) (it_SpaceID p.1) = Ok p.2.
Proof. rewrite transact_ok. unfold load_with_space. intros H. by stm_inv. Qed.

(** ** Updating *)

(** Every path under the moved one after the children were saved. *)
Definition children_paths (i : Iteration) (l : list Iteration) : gmap uuid (list uuid) :=
  list_to_map (map (λ x, (it_ID x, it_Path i ++ [it_ID x])) l).
Lemma children_paths_lookup i l u : children_paths i l !! u =
  if bool_decide (u ∈ map it_ID l) then Some (it_Path i ++ [u]) else None.
Proof.
  unfold children_paths. induction l as [|x l IH]; [done|]. cbn [map]. rewrite list_to_map_cons.
  destruct (decide (it_ID x = u)) as [->|Hne].
  - rewrite lookup_insert_eq, bool_decide_true by set_solver. done.
  - rewrite lookup_insert_ne by done. rewrite IH.
    apply (f_equal (λ b : bool, if b then _ else _)). apply bool_decide_ext. set_solver.
Qed.
Record it_saves (f : gmap uuid (list uuid)) (d d' : it_db) : Prop := {
  iss_rows : resaved f (iterations d) (iterations d');
  iss_sequences : it_sequences d' = it_sequences d;
  iss_keys : unique_on it_key (iterations d) → unique_on it_key (iterations d');
  iss_states : (∀ x, x ∈ iterations d → row_live x = true → is_ok (State_CheckValid (it_State x)) = true) →
               ∀ x, x ∈ iterations d' → row_live x = true → is_ok (State_CheckValid (it_State x)) = true;
}.
Lemma resaved_refl (t : list Iteration) : resaved ∅ t t.
Proof.
  rewrite <- (map_id t) at 2. apply Forall2_map_self. intros x _. split_and!; try done.
  unfold new_path. by destruct (row_live x).
Qed.
Lemma resaved_unique f t t' : resaved f t t' → ids_unique t → ids_unique t'.
Proof. intros H. unfold ids_unique. by rewrite (repathed_ids _ _ _ (resaved_repathed _ _ _ H)). Qed.
Lemma it_saves_trans f g d1 d2 d3 : it_saves f d1 d2 → it_saves g d2 d3 → it_saves (g ∪ f) d1 d3.
Proof. intros [] []. split; [by eapply resaved_trans|congruence|eauto..]. Qed.
Lemma it_save_saves i r d d' : it_save i r d d' → it_saves {[it_ID i := it_Path i]} d d'.
Proof. by intros []. Qed.

Lemma save_children_saves now newID i l d u d' : ids_unique (iterations d) →
  (∀ x, x ∈ l → stored_as (iterations d) x) → (∀ x, x ∈ l → it_ID x ≠ uuid_Nil) →
  save_children now newID i l d = (Ok u, d') → it_saves (children_paths i l) d d'.
Proof.
  revert d. induction l as [|x l IH]; intros d Hn Hst Hnil H; cbn [save_children] in H.
  - injection H as _ <-. split; try done. apply resaved_refl.
  - apply s_bind_ok in H as (r & d1 & H1 & H). assert (Hx : it_ID x ≠ uuid_Nil) by (apply Hnil; by left).
    assert (Hid : it_ID (MakeChildOf newID x i) = it_ID x) by (cbn; by rewrite bool_decide_false).
    assert (Hpath : it_Path (MakeChildOf newID x i) = it_Path i ++ [it_ID x]) by (cbn; by rewrite bool_decide_false).
    apply Save_rows in H1; [|done|].
    + pose proof (is_rows _ _ _ _ H1) as HR. apply IH in H.
      * pose proof (it_saves_trans _ _ _ _ _ (it_save_saves _ _ _ _ H1) H) as HT.
        rewrite Hid, Hpath in HT.
        assert (E : children_paths i (x :: l) = children_paths i l ∪ {[it_ID x := it_Path i ++ [it_ID x]]}); [|by rewrite E].
        apply map_eq. intros k. rewrite lookup_union, !children_paths_lookup. cbn [map].
        destruct (decide (k = it_ID x)) as [->|Hk].
        -- rewrite lookup_singleton_eq, bool_decide_true by set_solver. by case_bool_decide.
        -- rewrite lookup_singleton_ne by done. case_bool_decide; case_bool_decide; set_solver.
      * by eapply resaved_unique.
      * intros y Hy. eapply resaved_stored; [exact HR|]. apply Hst. by right.
      * intros y Hy. apply Hnil. by right.
    + destruct (Hst x) as (Hd & s & Hs & Hl & (E1 & E2 & E3)); [by left|]. split; [done|].
      exists s. split_and!; [done|done|]. split_and!; [congruence|done|done].
Qed.

(** What an update writes first is the stored iteration in another dress. *)
Record redressed (i j : Iteration) : Prop := {
  rd_ID : it_ID j = it_ID i;
  rd_space : it_SpaceID j = it_SpaceID i;
  rd_path : it_Path j = it_Path i;
  rd_number : it_Number j = it_Number i;
  rd_life : it_Lifecycle j = it_Lifecycle i;
}.
Lemma redressed_stored d i j : i ∈ iterations d → row_live i = true → redressed i j → stored_as (iterations d) j.
Proof.
  intros Hi Hl []. split.
  - rewrite rd_life0. unfold row_live, live in Hl. cbn in Hl. by destruct (DeletedAt _).
  - exists i. split_and!; [done|done|]. split_and!; congruence.
Qed.
Lemma new_state_ok p i j d : new_state p i d = Ok j → redressed i j.
Proof.
  unfold new_state. destruct (p_State p) as [st|]; [|by intros [= ->]].
  intros (? & _ & [= <-])%bind_ok. by split.
Qed.
(** The checks on the new parent. *)
Lemma new_parent_ok p j d np sub : new_parent p j d = Ok (Some (np, sub)) →
  np ∈ iterations d ∧ row_live np = true ∧ it_SpaceID np = it_SpaceID j ∧ it_ID np ≠ it_ID j ∧
  LoadChildren (it_ID j) d = Ok sub ∧ ∀ x, x ∈ sub → it_ID x ≠ it_ID np.
Proof.
  unfold new_parent. destruct (p_Parent p) as [data|]; [|done]. destruct (Iterations.IsRoot _ _); [done|].
  destruct data as [[id|]|]; [|done..]. destruct (uuid_FromString id) as [pid|]; [|done].
  case_bool_decide as Hself; [done|]. intros (np' & HL1%Load_ok & H)%bind_ok. destruct HL1 as (Hin & Hl & Hid).
  case_bool_decide as Hsp; [|done]. simpl in H. apply bind_ok in H as (sub' & Hsub & H).
  destruct (existsb _ sub') eqn:Ex; [done|]. injection H as <- <-. split_and!; try done; [congruence|].
  intros x Hx E. apply not_true_iff_false in Ex. apply Ex, existsb_exists. exists x.
  split; [by apply list_elem_of_In|by apply bool_decide_eq_true].
Qed.
Lemma moved_flattens d i np r sub : it_wf d → i ∈ iterations d → row_live i = true →
  it_Path r = it_Path np ++ [it_ID i] →
  (∀ x, x ∈ sub ↔ x ∈ iterations d ∧ row_live x = true ∧ ∃ q, q ≠ [] ∧ it_Path x = it_Path i ++ q) →
  flattens (iterations d) i np (children_paths r sub ∪ {[it_ID i := it_Path r]}).
Proof.
  intros H Hi Hl Hr Hsub. pose proof (tree_ids _ (iw_tree _ H)) as Hn.
  assert (Hids : ∀ x, x ∈ iterations d → row_live x = true → it_ID x ∈ map it_ID sub →
                      ∃ q, q ≠ [] ∧ it_Path x = it_Path i ++ q).
  { intros x Hx Hlx. rewrite list_elem_of_In, in_map_iff. intros (y & E & Hy%list_elem_of_In).
    apply Hsub in Hy as (Hy & _ & Hq). by assert (x = y) as -> by by apply (ids_unique_eq (iterations d)). }
  split; cbn -[lookup].
  - rewrite lookup_union, children_paths_lookup, bool_decide_false, lookup_singleton_eq; [by rewrite Hr|].
    intros Hin. destruct (Hids i Hi Hl Hin) as (q & Hq & E). apply (f_equal length) in E.
    rewrite length_app in E. destruct q; [done|]. simpl in E. lia.
  - intros x q Hx Hlx Hq E. rewrite lookup_union, children_paths_lookup, bool_decide_true, Hr.
    + by destruct ({[it_ID i := _]} !! _).
    + rewrite list_elem_of_In. apply in_map, list_elem_of_In, Hsub. split_and!; [done|done|by exists q].
  - intros x Hx Hlx. rewrite lookup_union, children_paths_lookup. case_bool_decide as Hin.
    + intros _. destruct (Hids x Hx Hlx Hin) as (q & _ & E). by exists q.
    + destruct (decide (it_ID i = it_ID x)) as [E|Hne].
      * intros _. exists []. assert (x = i) as -> by by apply (ids_unique_eq (iterations d)). by rewrite app_nil_r.
      * rewrite lookup_singleton_ne by done. by intros [? ?].
Qed.
Lemma move_wf now newID i j np sub d u d' r d1 : it_wf d → i ∈ iterations d → row_live i = true → redressed i j →
  np ∈ iterations d → row_live np = true → it_SpaceID np = it_SpaceID j → it_ID np ≠ it_ID j →
  LoadChildren (it_ID j) d = Ok sub → (∀ x, x ∈ sub → it_ID x ≠ it_ID np) →
  Iterations.Save now (MakeChildOf newID j np) d = (Ok r, d1) →
  save_children now newID r sub d1 = (Ok u, d') →
  it_wf d' ∧ it_saves (children_paths r sub ∪ {[it_ID i := it_Path np ++ [it_ID i]]}) d d' ∧
  it_Path r = it_Path np ++ [it_ID i] ∧ it_ID r = it_ID i.
Proof.
  intros H Hi Hl Hrd Hnp Hlnp Hsp Hne Hsub Hnot HS HC. pose proof (tree_ids _ (iw_tree _ H)) as Hn.
  pose proof (iw_nil _ H i Hi) as Hnil. destruct (redressed_stored _ _ _ Hi Hl Hrd) as (Hd & s & Hs & Hls & Hss).
  destruct Hrd as [Ei Es Ep En Elc].
  assert (Em : it_ID (MakeChildOf newID j np) = it_ID i ∧ it_Path (MakeChildOf newID j np) = it_Path np ++ [it_ID i]).
  { cbn. by rewrite Ei, bool_decide_false. }
  destruct Em as [Em1 Em2].
  apply Save_rows in HS; [|done|].
  2:{ split; [done|]. exists s. split_and!; [done|done|]. destruct Hss as (? & ? & ?). split_and!; [congruence|done|done]. }
  destruct (is_result _ _ _ _ HS) as (R1 & R2 & _). rewrite Em1 in R1. rewrite Em2 in R2.
  rewrite Ei in Hsub. apply LoadChildren_ok in Hsub as (i' & HL1 & Hsub).
  rewrite Load_live in HL1 by done. injection HL1 as <-.
  pose proof (is_rows _ _ _ _ HS) as HR. apply save_children_saves in HC.
  - pose proof (it_saves_trans _ _ _ _ _ (it_save_saves _ _ _ _ HS) HC) as HT. rewrite Em1, Em2 in HT.
    split_and!; [|done|done|done]. destruct HT as [HT Hseq Hk Hst].
    eapply resaved_wf; [done|exact HT|done|by apply Hk, H|by apply Hst, (iw_states _ H)|].
    eapply (tree_flatten _ _ i np (children_paths r sub ∪ {[it_ID i := it_Path np ++ [it_ID i]]})); [apply H|done|done|done|done|cbn; congruence| |rewrite <- R2; by apply moved_flattens|by apply resaved_repathed].
    intros q E. destruct (decide (q = [])) as [->|Hq].
    + rewrite app_nil_r in E. apply Hne. rewrite Ei. pose proof (path_last _ _ (iw_tree _ H) Hnp Hlnp) as L1.
      pose proof (path_last _ _ (iw_tree _ H) Hi Hl) as L2. rewrite E in L1. cbn in *. congruence.
    + apply (Hnot np); [|done]. apply Hsub. split_and!; [done|done|by exists q].
  - by eapply resaved_unique.
  - intros x Hx. apply Hsub in Hx as (Hx & Hlx & _). eapply resaved_stored; [exact HR|].
    by eapply (redressed_stored d x x).
  - intros x Hx. apply Hsub in Hx as (Hx & _). by apply (iw_nil _ H).
Qed.
Lemma save_update_wf now newID p i d r d' : it_wf d → i ∈ iterations d → row_live i = true →
  save_update now newID p i d = (Ok r, d') → it_wf d'.
Proof.
  intros H Hi Hl HS. unfold save_update in HS. stm_inv.
  match goal with H : new_state _ _ _ = Ok ?k |- _ => rename k into j; apply new_state_ok in H as Hrd end.
  assert (Hrd' : redressed i (with_user_active p j)) by (by destruct Hrd).
  match goal with H : new_parent _ _ _ = Ok ?o |- _ => destruct o as [[np sub]|] eqn:Eo end.
  - match goal with H : new_parent _ _ _ = Ok _ |- _ => apply new_parent_ok in H as (? & ? & ? & ? & ? & ?) end.
    stm_inv. match goal with H1 : Iterations.Save _ _ _ = _, H2 : save_children _ _ _ _ _ = _ |- _ =>
      eapply move_wf in H2; [apply H2|exact H|exact Hi|exact Hl|exact Hrd'|..|exact H1]; done end.
  - eapply Save_wf; [exact H|by eapply redressed_stored| |eassumption]. destruct Hrd' as [E1 _ E2 _ _].
    intros s Hs Hls E. rewrite E2. f_equal. apply (ids_unique_eq (iterations d)); [apply H|done|done|cbn; congruence].
Qed.

(** ** Deleting *)

Lemma delete_ids_nil now t : delete_ids now [] t = t.
Proof.
  unfold delete_ids, t_delete. cbn [snd]. rewrite <- (map_id t) at 2. apply map_ext. intros a.
  rewrite bool_decide_false by set_solver. by rewrite andb_false_r.
Qed.
Lemma delete_all_its now parent who l d u d' :
  delete_all IsURL time_json struct_json Sprint related now parent who l d = (Ok u, d') →
  its d' = set_iterations (delete_ids now (map it_ID l) (iterations (its d))) (its d).
Proof.
  revert d. induction l as [|x l IH]; intros d H; cbn [delete_all] in H.
  - injection H as _ <-. cbn [map]. rewrite delete_ids_nil. by destruct (its d).
  - apply s_bind_ok in H as (items & d1 & (_ & E1)%on_wis_its & H).
    apply s_bind_ok in H as ([] & d2 & (_ & E2)%on_wis_its & H).
    apply s_bind_ok in H as ([] & d3 & (HD & _)%on_its_ok & H).
    apply Delete_rows in HD as [HD _]. apply IH in H. rewrite H, HD, E2, E1. cbn [set_iterations iterations].
    by rewrite delete_ids_app.
Qed.
Lemma DeleteIteration_its now identity id d u d' :
  DeleteIteration IsURL time_json struct_json Sprint related now identity id d = (Ok u, d') →
  ∃ itr sub, Iterations.Load id (its d) = Ok itr ∧ LoadChildren id (its d) = Ok sub ∧
    its d' = set_iterations (delete_ids now (map it_ID (sub ++ [itr])) (iterations (its d))) (its d).
Proof.
  unfold DeleteIteration. intros H. apply s_bind_ok in H as (who & d1 & H1 & H). apply s_query_ok in H1 as [_ ->].
  rewrite transact_ok in H. stm_inv.
  match goal with H : delete_all _ _ _ _ _ _ _ _ _ _ = _ |- _ => apply delete_all_its in H end.
  by eexists _, _.
Qed.
Lemma DeleteIteration_wf now identity id d u d' : it_wf (its d) →
  DeleteIteration IsURL time_json struct_json Sprint related now identity id d = (Ok u, d') → it_wf (its d').
Proof.
  intros H (itr & sub & HL1 & HC & ->)%DeleteIteration_its. apply LoadChildren_ok in HC as (i & HL2 & Hsub).
  rewrite HL1 in HL2. injection HL2 as <-. apply Load_ok in HL1 as (Hi & Hl & _). apply delete_ids_wf; [done|].
  intros a p Ha Hp La Lp Hin E. rewrite map_app, elem_of_app, !list_elem_of_In, !in_map_iff in Hin.
  rewrite map_app, elem_of_app, !list_elem_of_In, !in_map_iff. left. exists a. split; [done|]. apply list_elem_of_In, Hsub. split_and!; [done|done|].
  destruct Hin as [(x & Ex & Hx%list_elem_of_In)|(x & Ex & [<-|[]])].
  - apply Hsub in Hx as (Hx & _ & q & Hq & Eq).
    assert (x = p) as -> by (apply (ids_unique_eq (iterations (its d))); [apply H|done..]).
    exists (q ++ [it_ID a]). split; [by destruct q|]. by rewrite E, Eq, app_assoc.
  - assert (itr = p) as -> by (apply (ids_unique_eq (iterations (its d))); [apply H|done..]). by exists [it_ID a].
Qed.

(** ** All requests *)

(** [uuid.NewV4] draws no nil id. *)
Definition drawn (q : request) : Prop :=
  match q with
  | RCreateRoot _ id3 _ _ => id3 ≠ uuid_Nil
  | RCreateChild _ _ id2 _ _ _ _ => id2 ≠ uuid_Nil
  | RCreateInSpace _ _ id2 _ _ _ _ => id2 ≠ uuid_Nil
  | _ => True
  end.
Lemma MakeChildOf_not_nil id2 u p : id2 ≠ uuid_Nil → it_ID (MakeChildOf id2 u p) ≠ uuid_Nil.
Proof. intros H. cbn. by case_bool_decide. Qed.
(** The iteration a request loaded in its first transaction, in [d0], is stored unchanged when its second transaction
    starts, in [d]; a request of one transaction sees one store. *)
Definition current (q : request) (d0 d : app_db) : Prop :=
  match q with
  | RCreateChild _ _ _ _ _ iterationID _ | RUpdate _ _ _ iterationID _ =>
      ∀ id i, uuid_FromString iterationID = Some id → Iterations.Load id (its d0) = Ok i → i ∈ iterations (its d)
  | _ => d0 = d
  end.
Lemma parse_id_ok s id : parse_id s = Ok id → uuid_FromString s = Some id.
Proof. unfold parse_id. destruct (uuid_FromString s); [by intros [= ->]|done]. Qed.
Lemma answer_ok_wf q d0 d u d' : drawn q → current q d0 d → it_wf (its d) → answer (λ _, d) q d0 = (Ok u, d') →
  it_wf (its d').
Proof.
  intros Hd Hc H Ha. destruct q as [now id3 sp name|now id1 id2 id3 who id p|now id1 id2 id3 who sp data|now id2 who id p|now who id];
    cbn [answer drawn current] in *; try subst d0; try (apply discard_ok_ in Ha as [x Ha]).
  - rewrite transact_ok in Ha. apply create_placed in Ha; [done|done|by left|done].
  - unfold CreateChild in Ha. apply s_bind_ok in Ha as (user & d1 & H1 & Ha). apply s_query_ok in H1 as [_ ->].
    apply s_bind_ok in Ha as (pid & d1 & H1 & Ha). apply s_query_ok in H1 as [Hid%parse_id_ok ->].
    apply s_bind_ok in Ha as ([parent space] & d1 & (-> & HLp & _)%load_with_space_ok & Ha). cbn [fst] in HLp.
    specialize (Hc _ _ Hid HLp). apply Load_ok in HLp as (_ & Hl & _).
    apply s_bind_ok in Ha as (? & d1 & H1 & Ha). apply s_query_ok in H1 as [_ ->].
    apply s_bind_ok in Ha as (name & d1 & H1 & Ha). apply s_query_ok in H1 as [_ ->].
    apply s_bind_ok in Ha as ([] & d1 & H1 & Ha). injection H1 as <-. rewrite transact_ok in Ha. stm_inv.
    match goal with H : on_its _ _ = _ |- _ => apply create_placed in H; [done|done|by apply child_placed|] end.
    intros E. by apply MakeChildOf_not_nil in E.
  - unfold space_iteration_Create in Ha. stm_inv.
    match goal with H : transact _ _ = _ |- _ => rewrite transact_ok in H; rename H into HT end. stm_inv.
    match goal with H : match Root_ ?sp ?d with _ => _ end = Ok ?r |- _ =>
      destruct (Root_ sp d) as [root|e|m] eqn:Er; [|done..]; injection H as -> end.
    apply Root_ok in Er as (Hr & Hl & Hs).
    match goal with H : on_its _ _ = _ |- _ =>
      apply create_placed in H; [done|done|by apply child_placed|] end.
    intros E. by apply MakeChildOf_not_nil in E.
  - unfold Update in Ha. apply s_bind_ok in Ha as (user & d1 & H1 & Ha). apply s_query_ok in H1 as [_ ->].
    apply s_bind_ok in Ha as (pid & d1 & H1 & Ha). apply s_query_ok in H1 as [Hid%parse_id_ok ->].
    apply s_bind_ok in Ha as ([itr space] & d1 & (-> & HLp & _)%load_with_space_ok & Ha). cbn [fst] in HLp.
    specialize (Hc _ _ Hid HLp). apply Load_ok in HLp as (_ & Hl & _).
    apply s_bind_ok in Ha as (? & d1 & H1 & Ha). apply s_query_ok in H1 as [_ ->].
    apply s_bind_ok in Ha as ([] & d1 & H1 & Ha). injection H1 as <-. rewrite transact_ok in Ha. stm_inv.
    match goal with H : on_its _ _ = _ |- _ => apply on_its_ok in H as (HS & _ & _) end. by eapply save_update_wf.
  - by eapply DeleteIteration_wf.
Qed.

(** What is committed: the second transaction of a request, in a store in which the iteration its first transaction
    loaded is still as it was there.  The other transactions read, or fail and store nothing. *)
Definition committed (d d' : app_db) : Prop := ∃ d0 q u, drawn q ∧ current q d0 d ∧ answer (λ _, d) q d0 = (Ok u, d').
Definition no_iterations (d : app_db) : Prop := iterations (its d) = [] ∧ it_sequences (its d) = ∅.
Lemma no_iterations_wf d : no_iterations d → it_wf (its d).
Proof.
  intros [E1 E2]. split; rewrite ?E1.
  - split; [constructor|]. by intros a ?%elem_of_nil.
  - by intros x y ?%elem_of_nil.
  - constructor.
  - by intros i ?%elem_of_nil.
  - by intros i ?%elem_of_nil.
  - by intros i ?%elem_of_nil.
Qed.
Lemma committed_wf_ d d' : committed d d' → it_wf (its d) → it_wf (its d').
Proof. intros (d0 & q & u & Hq & Hc & E) H. by eapply answer_ok_wf. Qed.
Lemma all_committed_wf d0 d (H0 : no_iterations d0) (Hd : rtc committed d0 d) : it_wf (its d).
Proof. apply no_iterations_wf in H0. induction Hd as [|d0 d1 d Ha _ IH]; [done|]. by eapply IH, committed_wf_. Qed.

(** C6: whatever requests create, update, move and delete iterations, their transactions in any order, ids stay unique,
    every live iteration is a root or has a live parent in its own space whose path its own extends, siblings have
    different names, numbers are unique in their space and at most the last one given, and states are valid; provided
    that nobody changed the iteration a creation or an update loaded between its two transactions.  Without that the
    tree breaks ([stale_Update_breaks_tree]).  [uuid.NewV4] is assumed not to draw the nil id. *)
Theorem requests_keep_trees d0 d (H0 : no_iterations d0) (Hd : rtc committed d0 d) : it_wf (its d).
Proof. by eapply all_committed_wf. Qed.
End Requests.
