(* ===== verification/IterationStates.v ===== *)
(** * At most one iteration of a space is started

    [CanStart] of [iteration/iteration.go] as the requests use it: the rule holds
    when transactions run one after the other and none saves an iteration that
    was changed since it was loaded, and fails when two of them check before
    either saves, or when a stale copy is saved. *)

From Stdlib Require Import ZArith Lia Ascii String SpecFloat.
From stdpp Require Import relations.
From S2P Require Export IterationRequests.
Import Path Transactions.

Definition started (i : Iteration) : Prop := row_live i = true ∧ it_State i = StateStart.
Definition one_started (d : it_db) : Prop :=
  ∀ x y, x ∈ iterations d → y ∈ iterations d → started x → started y → it_SpaceID x = it_SpaceID y → it_ID x = it_ID y.
(** No iteration was started in between. *)
Definition none_newly_started (d d' : it_db) : Prop :=
  ∀ y, y ∈ iterations d' → started y →
       ∃ x, x ∈ iterations d ∧ started x ∧ it_ID x = it_ID y ∧ it_SpaceID x = it_SpaceID y.
Lemma none_newly_one d d' : none_newly_started d d' → one_started d → one_started d'.
Proof.
  intros H Hd x y Hx Hy Sx Sy E. destruct (H x Hx Sx) as (x0 & Hx0 & Sx0 & <- & Ex).
  destruct (H y Hy Sy) as (y0 & Hy0 & Sy0 & <- & Ey). apply Hd; try done. congruence.
Qed.
Lemma none_newly_trans d1 d2 d3 : none_newly_started d1 d2 → none_newly_started d2 d3 → none_newly_started d1 d3.
Proof.
  intros H1 H2 z Hz Sz. destruct (H2 z Hz Sz) as (y & Hy & Sy & <- & <-). by destruct (H1 y Hy Sy) as (x & ? & ? & ? & ?); exists x.
Qed.

Section States.
Context {HO : UuidOps} {HL : UuidLaws} (authorize : string → res bool).
Context (IsURL : string → bool) (time_json : Z → string) (struct_json : string → option gval).
Context (Sprint : gval → string) (related : related_rows).
Notation answer := (answer authorize IsURL time_json struct_json Sprint related).

Lemma creation_one newID u r d d' row : it_creation newID u r d d' row → it_State u = "" → one_started d → one_started d'.
Proof.
  intros C Hu. apply none_newly_one. intros y Hy Sy. rewrite (ic_rows _ _ _ _ _ _ C) in Hy.
  apply elem_of_app in Hy as [Hy| ->%list_elem_of_singleton]; [by exists y|].
  destruct Sy as [_ Sy]. rewrite (ic_state _ _ _ _ _ _ C), Hu in Sy. done.
Qed.
Lemma create_one now id3 u d r d' : it_State u = "" → one_started (its d) →
  on_its (Iterations.Create now id3 u) d = (Ok r, d') → one_started (its d').
Proof. intros Hu Hd (HC & _)%on_its_ok. apply Create_row in HC as [row HC]. by eapply creation_one. Qed.

(** The value has the state of the stored iteration. *)
Definition state_as_stored (t : list Iteration) (i : Iteration) : Prop :=
  DeletedAt (it_Lifecycle i) = None ∧
  ∃ s, s ∈ t ∧ row_live s = true ∧ same_identity s i ∧ it_State s = it_State i.
Lemma state_as_stored_stored t i : state_as_stored t i → stored_as t i.
Proof. intros (Hd & s & ? & ? & ? & _). split; [done|by exists s]. Qed.
Lemma saved_none_newly i r d d' : it_save i r d d' → state_as_stored (iterations d) i → none_newly_started d d'.
Proof.
  intros HS (_ & s & Hs & Hl & (E1 & E2 & _) & E3) y Hy [Sy1 Sy2].
  destruct (is_elems _ _ _ _ HS y Hy) as [Hin|(F1 & F2 & F3)]; [by exists y|].
  exists s. split_and!; [done|split; congruence|congruence|congruence].
Qed.
Lemma saved_keeps_state i r d d' x : ids_unique (iterations d) → it_save i r d d' → state_as_stored (iterations d) i →
  state_as_stored (iterations d) x → state_as_stored (iterations d') x.
Proof.
  intros Hn HS (_ & si & Hsi & Hli & (G1 & G2 & _) & G3) (Hd & s & Hs & Hl & (E1 & E2 & E3) & E4). split; [done|].
  destruct (resaved_stored _ _ _ x (is_rows _ _ _ _ HS)) as (_ & y & Hy & Hly & Hxy).
  { split; [done|]. by exists s. }
  exists y. split_and!; [done|done|done|]. destruct Hxy as (F1 & F2 & F3).
  destruct (is_elems _ _ _ _ HS y Hy) as [Hin|(I1 & I2 & I3)].
  - assert (y = s) as -> by (apply (ids_unique_eq (iterations d)); [done..|cbn; congruence]). done.
  - assert (si = s) as -> by (apply (ids_unique_eq (iterations d)); [done..|cbn; congruence]). congruence.
Qed.
Lemma save_children_none_newly now newID i l d u d' : ids_unique (iterations d) →
  (∀ x, x ∈ l → state_as_stored (iterations d) x) → (∀ x, x ∈ l → it_ID x ≠ uuid_Nil) →
  save_children now newID i l d = (Ok u, d') → none_newly_started d d'.
Proof.
  revert d. induction l as [|x l IH]; intros d Hn Hst Hnil H; cbn [save_children] in H.
  { injection H as _ <-. intros y Hy Sy. by exists y. }
  apply s_bind_ok in H as (r & d1 & H1 & H). assert (Hx : it_ID x ≠ uuid_Nil) by (apply Hnil; by left).
  assert (Hm : state_as_stored (iterations d) (MakeChildOf newID x i)).
  { destruct (Hst x) as (Hd & s & Hs & Hl & (E1 & E2 & E3) & E4); [by left|]. split; [done|]. exists s.
    split_and!; [done|done| |done]. split_and!; [|done|done]. cbn. by rewrite bool_decide_false. }
  apply Save_rows in H1; [|done|by apply state_as_stored_stored].
  eapply none_newly_trans; [by eapply saved_none_newly|]. apply (IH d1); [|..|exact H].
  - eapply resaved_unique; [apply H1|done].
  - intros y Hy. eapply saved_keeps_state; [done|done|done|]. apply Hst. by right.
  - intros y Hy. apply Hnil. by right.
Qed.
Lemma live_as_stored d x : x ∈ iterations d → row_live x = true → state_as_stored (iterations d) x.
Proof.
  intros Hx Hl. split; [|by exists x]. unfold row_live, live in Hl. cbn in Hl. by destruct (DeletedAt _).
Qed.

(** [CanStart] passes only when no iteration of the space is started. *)
Lemma CanStart_ok i d b : CanStart i d = Ok b → ∀ x, x ∈ iterations d → started x → it_SpaceID x ≠ it_SpaceID i.
Proof.
  unfold CanStart. intros (root & _ & H)%bind_ok x Hx [Sx1 Sx2] E. case_bool_decide; [done|].
  destruct (Nat.eqb_spec (length (t_where (λ x, bool_decide (it_SpaceID x = it_SpaceID i)
    && String.eqb (it_State x) StateStart) (iterations d))) 0) as [E0|]; [|done].
  apply length_zero_iff_nil in E0.
  assert (Hin : x ∈ t_where (λ x, bool_decide (it_SpaceID x = it_SpaceID i) && String.eqb (it_State x) StateStart) (iterations d)).
  { apply elem_of_t_where. rewrite Sx2, bool_decide_true by done. done. }
  rewrite E0 in Hin. by apply elem_of_nil in Hin.
Qed.
Lemma new_state_cases p i j d : new_state p i d = Ok j →
  it_State j = it_State i ∨ it_State j ≠ StateStart ∨ ∀ x, x ∈ iterations d → started x → it_SpaceID x ≠ it_SpaceID i.
Proof.
  unfold new_state. destruct (p_State p) as [st|]; [|intros [= ->]; by left].
  destruct (String.eqb_spec st StateStart) as [->|Hne].
  - intros (b & H & _)%bind_ok. right; right. destruct (CanStart i d) as [b'|e|m] eqn:E; [|done..]. by eapply CanStart_ok.
  - intros (b & _ & [= <-])%bind_ok. right; left. done.
Qed.
(** The value is a stored iteration in another place or state. *)
Record same_row (i v : Iteration) : Prop := {
  sr_ID : it_ID v = it_ID i;
  sr_space : it_SpaceID v = it_SpaceID i;
  sr_number : it_Number v = it_Number i;
  sr_life : it_Lifecycle v = it_Lifecycle i;
}.
Lemma same_row_stored d i v : i ∈ iterations d → row_live i = true → same_row i v → stored_as (iterations d) v.
Proof.
  intros Hi Hl [E1 E2 E3 E4]. destruct (live_as_stored _ _ Hi Hl) as (HDel & _). split; [by rewrite E4|].
  exists i. split_and!; [done|done|]. by split_and!; rewrite ?E1, ?E2, ?E3.
Qed.
Lemma redressed_same i j : redressed i j → same_row i j.
Proof. by intros []. Qed.
Lemma made_same newID i j np : it_ID i ≠ uuid_Nil → redressed i j → same_row i (MakeChildOf newID j np).
Proof. intros Hn [E1 E2 E3 E4 E5]. split; cbn; rewrite ?E1; [by rewrite bool_decide_false|done..]. Qed.
Definition may_have_state (d : it_db) (i : Iteration) (s : string) : Prop :=
  s = it_State i ∨ s ≠ StateStart ∨ ∀ x, x ∈ iterations d → started x → it_SpaceID x ≠ it_SpaceID i.
Lemma first_save_one now i v r d d' : it_wf d → i ∈ iterations d → row_live i = true → same_row i v →
  may_have_state d i (it_State v) → Iterations.Save now v d = (Ok r, d') → one_started d → one_started d'.
Proof.
  intros H Hi Hl Hv Hc HS Hd. apply Save_rows in HS; [|apply H|by eapply same_row_stored].
  destruct (same_row_stored _ _ _ Hi Hl Hv) as (HDel & _). destruct Hv as [E1 E2 E3 E4].
  destruct Hc as [Hc|[Hc|Hc]].
  - eapply none_newly_one; [|done]. eapply saved_none_newly; [done|]. split; [done|]. exists i.
    split_and!; [done|done| |congruence]. split_and!; [done|done|by rewrite E3].
  - eapply none_newly_one; [|done]. intros y Hy Sy.
    destruct (is_elems _ _ _ _ HS y Hy) as [Hin|(F1 & F2 & F3)]; [by exists y|]. destruct Sy as [_ Sy]. congruence.
  - intros x y Hx Hy Sx Sy E.
    destruct (is_elems _ _ _ _ HS x Hx) as [Hxi|(F1 & F2 & F3)], (is_elems _ _ _ _ HS y Hy) as [Hyi|(G1 & G2 & G3)].
    + by apply Hd.
    + destruct (Hc x Hxi Sx). congruence.
    + destruct (Hc y Hyi Sy). congruence.
    + congruence.
Qed.
Lemma then_children_one now newID i v r sub u d d1 d' : it_wf d → i ∈ iterations d → row_live i = true → same_row i v →
  (∀ x, x ∈ sub → x ∈ iterations d ∧ row_live x = true ∧ it_ID x ≠ it_ID i) →
  Iterations.Save now v d = (Ok r, d1) → save_children now newID r sub d1 = (Ok u, d') → one_started d1 → one_started d'.
Proof.
  intros H Hi Hl Hv Hsub HS HC Hd. pose proof (tree_ids _ (iw_tree _ H)) as Hn.
  apply Save_rows in HS; [|done|by eapply same_row_stored]. eapply none_newly_one; [|done].
  eapply save_children_none_newly; [eapply resaved_unique; [apply HS|done]| | |exact HC].
  - intros x Hx. destruct (Hsub x Hx) as (Hx1 & Hx2 & Hne).
    destruct (repathed_forth _ _ _ _ (resaved_repathed _ _ _ (is_rows _ _ _ _ HS)) Hx1) as (y & Hy & Ei & _ & El & _).
    destruct (is_elems _ _ _ _ HS y Hy) as [Hin|(F1 & _)].
    + assert (y = x) as -> by (apply (ids_unique_eq (iterations d)); done). by apply live_as_stored.
    + destruct Hne. destruct Hv as [E1 _ _ _]. cbn in Ei. congruence.
  - intros x Hx. destruct (Hsub x Hx) as (Hx1 & _). by apply (iw_nil _ H).
Qed.
Lemma save_update_one now newID p i d r d' : it_wf d → i ∈ iterations d → row_live i = true →
  save_update now newID p i d = (Ok r, d') → one_started d → one_started d'.
Proof.
  intros H Hi Hl HS Hd. unfold save_update in HS. stm_inv.
  match goal with H : new_state _ _ _ = Ok ?k |- _ => rename k into j; apply new_state_ok in H as Hrd;
    apply new_state_cases in H as Hc end. cbn in Hc.
  assert (Hrd' : redressed i (with_user_active p j)) by (by destruct Hrd).
  pose proof (iw_nil _ H i Hi) as Hnil.
  match goal with H : new_parent _ _ _ = Ok ?o |- _ => destruct o as [[np sub]|] eqn:Eo end.
  - match goal with H : new_parent _ _ _ = Ok _ |- _ => apply new_parent_ok in H as (? & ? & ? & ? & Hsub & ?) end.
    rewrite (rd_ID _ _ Hrd') in Hsub. apply LoadChildren_ok in Hsub as (i' & HL1 & Hsub).
    rewrite Load_live in HL1 by (done || apply H). injection HL1 as <-. stm_inv.
    match goal with H1 : Iterations.Save _ _ _ = _, H2 : save_children _ _ _ _ _ = _ |- _ =>
      eapply (then_children_one now newID i _ _ sub _ d); [done|done|done|by apply made_same| |exact H1|exact H2|];
      [|by eapply (first_save_one now i _ _ d); [..|exact H1|]; [done|done|done|by apply made_same|exact Hc|done]] end.
    intros x Hx. apply Hsub in Hx as (Hx & Hlx & q & Hq & E). split_and!; [done|done|]. intros Ex.
    assert (x = i) as -> by (apply (ids_unique_eq (iterations d)); [apply H|done..]).
    apply (f_equal length) in E. rewrite length_app in E. destruct q; [done|]. simpl in E. lia.
  - eapply (first_save_one now i _ _ d); [done|done|done|by apply redressed_same|exact Hc|eassumption|done].
Qed.
Lemma delete_ids_none_newly now ids d : none_newly_started d (set_iterations (delete_ids now ids (iterations d)) d).
Proof.
  intros y Hy [Sy1 Sy2]. unfold delete_ids in Hy. cbn [set_iterations iterations] in Hy. apply elem_of_deleted in Hy as [[Hy _]|(a & -> & _)]; [by exists y|].
  by rewrite soft_delete_dead in Sy1.
Qed.

Lemma answer_ok_one q d0 d u d' : current q d0 d → it_wf (its d) → answer (λ _, d) q d0 = (Ok u, d') →
  one_started (its d) → one_started (its d').
Proof.
  intros Hc H Ha Hd. destruct q as [now id3 sp name|now id1 id2 id3 who id p|now id1 id2 id3 who sp data|now id2 who id p|now who id];
    cbn [IterationRequests.answer current] in *; try subst d0; try (apply discard_ok_ in Ha as [x Ha]).
  - rewrite transact_ok in Ha. by apply create_one in Ha.
  - unfold CreateChild in Ha. apply s_bind_ok in Ha as (user & d1 & H1 & Ha). apply s_query_ok in H1 as [_ ->].
    apply s_bind_ok in Ha as (pid & d1 & H1 & Ha). apply s_query_ok in H1 as [_ ->].
    apply s_bind_ok in Ha as ([parent space] & d1 & (-> & HLp & _)%load_with_space_ok & Ha).
    apply s_bind_ok in Ha as (? & d1 & H1 & Ha). apply s_query_ok in H1 as [_ ->].
    apply s_bind_ok in Ha as (name & d1 & H1 & Ha). apply s_query_ok in H1 as [_ ->].
    apply s_bind_ok in Ha as ([] & d1 & H1 & Ha). injection H1 as <-. rewrite transact_ok in Ha. stm_inv.
    match goal with H : on_its _ _ = _ |- _ => by apply create_one in H end.
  - unfold space_iteration_Create in Ha. stm_inv.
    match goal with H : transact _ _ = _ |- _ => rewrite transact_ok in H; rename H into HT end. stm_inv.
    match goal with H : on_its _ _ = _ |- _ => by apply create_one in H end.
  - unfold Update in Ha. apply s_bind_ok in Ha as (user & d1 & H1 & Ha). apply s_query_ok in H1 as [_ ->].
    apply s_bind_ok in Ha as (pid & d1 & H1 & Ha). apply s_query_ok in H1 as [Hid%parse_id_ok ->].
    apply s_bind_ok in Ha as ([itr space] & d1 & (-> & HLp & _)%load_with_space_ok & Ha). cbn [fst] in HLp.
    specialize (Hc _ _ Hid HLp). apply Load_ok in HLp as (_ & Hl & _).
    apply s_bind_ok in Ha as (? & d1 & H1 & Ha). apply s_query_ok in H1 as [_ ->].
    apply s_bind_ok in Ha as ([] & d1 & H1 & Ha). injection H1 as <-. rewrite transact_ok in Ha. stm_inv.
    match goal with H : on_its _ _ = _ |- _ => apply on_its_ok in H as (HS & _ & _) end. by eapply save_update_one.
  - apply DeleteIteration_its in Ha as (itr & sub & _ & _ & ->). eapply none_newly_one; [apply delete_ids_none_newly|done].
Qed.

Lemma requests_one_started_ d0 d (H0 : no_iterations d0)
    (Hd : rtc (committed authorize IsURL time_json struct_json Sprint related) d0 d) : one_started (its d).
Proof.
  assert (H1 : one_started (its d0)) by (destruct H0 as [E _]; intros x y Hx; rewrite E in Hx; by apply elem_of_nil in Hx).
  apply no_iterations_wf in H0. revert H0 H1. induction Hd as [|d0 d1 d Ha _ IH]; intros H0 H1; [done|].
  apply IH; [by eapply committed_wf_|]. destruct Ha as (d2 & q & u & _ & Hc & E). by eapply answer_ok_one.
Qed.
(** C8: whatever requests create, update, move and delete iterations, their transactions one after the other in any
    order, a space has at most one started iteration; provided that nobody changed the iteration a creation or an update
    loaded between its two transactions, since a stale update saves the state it loaded ([stale_Update_starts_two]). *)
Theorem requests_one_started d0 d (H0 : no_iterations d0)
    (Hd : rtc (committed authorize IsURL time_json struct_json Sprint related) d0 d) : one_started (its d).
Proof. by eapply requests_one_started_. Qed.
End States.
