(* ===== verification/IterationMoves.v ===== *)
(** * What moving and deleting an iteration does to the others

    The subtree of a moved iteration, and the work items of a deleted one. *)

From Stdlib Require Import ZArith Lia Ascii String SpecFloat.
From stdpp Require Import relations.
From S2P Require Export IterationRequests WorkItemInvariant.
Import Path Transactions.

Section Moves.
Context {HO : UuidOps} {HL : UuidLaws} (authorize : string → res bool).

(** The steps of an update that was answered. *)
Lemma Update_ok now id2 who itid p d r d' : Update authorize now id2 (λ d, d) who itid p d = (Ok r, d') →
  ∃ id i itr, uuid_FromString itid = Some id ∧ Iterations.Load id (its d) = Ok i ∧
    save_update now id2 p i (its d) = (Ok itr, its d') ∧ wis d' = wis d.
Proof.
  unfold Update. intros Ha. apply s_bind_ok in Ha as (user & d1 & H1 & Ha). apply s_query_ok in H1 as [_ ->].
  apply s_bind_ok in Ha as (pid & d1 & H1 & Ha). apply s_query_ok in H1 as [Hid ->].
  apply s_bind_ok in Ha as ([itr space] & d1 & (-> & HLp & _)%load_with_space_ok & Ha). cbn [fst] in HLp.
  apply s_bind_ok in Ha as (? & d1 & H1 & Ha). apply s_query_ok in H1 as [_ ->].
  apply s_bind_ok in Ha as ([] & d1 & H1 & Ha). injection H1 as <-. rewrite transact_ok in Ha. stm_inv.
  unfold parse_id in Hid. destruct (uuid_FromString itid) as [id'|]; [|done]. injection Hid as ->.
  match goal with H : on_its _ _ = _ |- _ => apply on_its_ok in H as (HS & _ & HW) end. by eexists _, _, _.
Qed.

(** an update that gives an iteration another parent makes every descendant of it its direct child: grandchildren
    lose their place below their own parents. *)
Theorem Update_flattens now id2 who itid p parent d r d' (Hwf : it_wf (its d))
    (Hp : p_Parent p = Some (Some (Some parent)))
    (Hu : Update authorize now id2 (λ d, d) who itid p d = (Ok r, d')) :
  ∃ i i' np', i ∈ iterations (its d) ∧ row_live i = true ∧ uuid_FromString itid = Some (it_ID i) ∧
    it_ID i' = it_ID i ∧ uuid_FromString parent = Some (it_ID np') ∧ child_of (iterations (its d')) i' np' ∧
    ∀ x, tc (child_of (iterations (its d))) x i →
         ∃ x', it_ID x' = it_ID x ∧ child_of (iterations (its d')) x' i'.
Proof.
  apply Update_ok in Hu as (id & i & itr & Hid & HLi & HS & _). apply Load_ok in HLi as (Hi & Hl & <-).
  unfold save_update in HS. stm_inv.
  match goal with H : new_state _ _ _ = Ok ?k |- _ => rename k into j; apply new_state_ok in H as Hrd end.
  assert (Hrd' : redressed i (with_user_active p j)) by (by destruct Hrd).
  match goal with H : new_parent _ _ _ = Ok ?o |- _ => destruct o as [[np sub]|] eqn:Eo; rename H into Hnp end.
  2:{ exfalso. unfold new_parent in Hnp. rewrite Hp in Hnp. destruct (Iterations.IsRoot _ _); [done|].
      destruct (uuid_FromString parent); [|done]. case_bool_decide; [done|].
      apply bind_ok in Hnp as (np & _ & Hnp). case_bool_decide; [|done]. simpl in Hnp.
      apply bind_ok in Hnp as (sub & _ & Hnp). by destruct (existsb _ _). }
  assert (Hpid : uuid_FromString parent = Some (it_ID np)).
  { unfold new_parent in Hnp. rewrite Hp in Hnp. destruct (Iterations.IsRoot _ _); [done|].
    destruct (uuid_FromString parent) as [pid|]; [|done]. case_bool_decide; [done|].
    apply bind_ok in Hnp as (np0 & HL0 & Hnp). apply Load_ok in HL0 as (_ & _ & <-).
    case_bool_decide; [|done]. simpl in Hnp.
    apply bind_ok in Hnp as (sub0 & _ & Hnp). destruct (existsb _ _); [done|]. by injection Hnp as -> _. }
  apply new_parent_ok in Hnp as (Hn1 & Hn2 & Hn3 & Hn4 & Hn5 & Hn6). stm_inv.
  match goal with H1 : Iterations.Save _ _ _ = _, H2 : save_children _ _ _ _ _ = _ |- _ =>
    eapply move_wf in H2 as (Hwf' & [HR _ _ _] & Er & Eid); [|exact Hwf|exact Hi|exact Hl|exact Hrd'|..|exact H1]; try done end.
  rewrite (rd_ID _ _ Hrd') in Hn5. apply LoadChildren_ok in Hn5 as (i0 & HL0 & Hsub).
  rewrite Load_live in HL0 by (done || apply Hwf). injection HL0 as <-.
  match goal with H : it_Path ?v = _ |- _ => pose proof (moved_flattens (its d) i np v sub Hwf Hi Hl H Hsub) as HF end.
  rewrite Er in HF. apply resaved_repathed in HR. set (f := _ ∪ _ : gmap uuid (list uuid)) in HR, HF.
  assert (Hpath : ∀ x, x ∈ iterations (its d) → row_live x = true →
    ∃ x', x' ∈ iterations (its d') ∧ row_live x' = true ∧ it_ID x' = it_ID x ∧ it_Path x' = default (it_Path x) (f !! it_ID x)).
  { intros x Hx Hlx. destruct (repathed_forth _ _ _ _ HR Hx) as (x' & Hx' & E1 & E2 & E3 & E4).
    exists x'. split_and!; [done|by rewrite E3|done|]. cbn in E4. rewrite E4. unfold new_path. by rewrite Hlx. }
  destruct (Hpath i Hi Hl) as (i' & Hi' & Hl' & Ei' & Ep'). rewrite (fl_self _ _ _ _ HF : f !! it_ID i = _) in Ep'. cbn in Ep'.
  destruct (Hpath np Hn1 Hn2) as (np' & Hnp' & Hnpl' & Enp' & Epp').
  assert (Hf : f !! it_ID np = None).
  { destruct (f !! it_ID np) as [l|] eqn:Ef; [exfalso|done]. destruct (fl_rest _ _ _ _ HF np Hn1 Hn2) as [q E]; [by exists l|].
    destruct (decide (q = [])) as [->|Hq]; [|by apply (Hn6 np); [apply Hsub; split_and!; [..|exists q]|]].
    rewrite app_nil_r in E. apply Hn4. rewrite (rd_ID _ _ Hrd').
    pose proof (path_last _ _ (iw_tree _ Hwf) Hn1 Hn2) as L1. pose proof (path_last _ _ (iw_tree _ Hwf) Hi Hl) as L2.
    rewrite E in L1. cbn in *. congruence. }
  rewrite Hf in Epp'. cbn in Epp'. exists i, i', np'.
  split_and!; [done|done|done|done|by rewrite Enp'| |].
  - split_and!; [done..|]. cbn. by rewrite Ep', Epp', Ei'.
  - intros x Hx. assert (Hx2 : x ∈ iterations (its d) ∧ row_live x = true)
      by (destruct Hx as [? ? (?&?&?&?&?)|? ? ? (?&?&?&?&?) _]; done). destruct Hx2 as [Hxin Hxl].
    apply (descendant_path _ _ _ (iw_tree _ Hwf)) in Hx as (q & Hq & E); [|done..].
    destruct (Hpath x Hxin Hxl) as (x' & Hx' & Hxl' & Ex' & Epx').
    rewrite (fl_below _ _ _ _ HF x q Hxin Hxl Hq E : f !! it_ID x = _) in Epx'. cbn in Epx'.
    exists x'. split; [done|]. split_and!; [done..|]. cbn. by rewrite Epx', Ep', Ex'.
Qed.
End Moves.

(** ** The items of a deleted iteration *)

Section Items.
Context {HO : UuidOps} {HL : UuidLaws}.
Context (IsURL : string → bool) (time_json : Z → string) (struct_json : string → option gval).
Context (Sprint : gval → string) (related : related_rows).

(** Where the id of an iteration is stored as a text it is that text. *)
Lemma simple_text_stays t u v s : SimpleType_ConvertToModel IsURL t (VString (uuid_String u)) = Ok v →
  in_json time_json struct_json v = Some (VString s) → s = uuid_String u.
Proof.
  unfold SimpleType_ConvertToModel.
  destruct (kind t); simpl; try done; try (intros [= <-]; simpl; by intros [= <-]).
  - destruct (IsURL _); simpl; [|done]. intros [= <-]; simpl; by intros [= <-].
  - rewrite uuid_round. simpl. intros [= <-]. simpl. by intros [= <-].
Qed.
Lemma text_stays f name u v s : FieldDefinition_ConvertToModel IsURL f name (VString (uuid_String u)) = Ok v →
  in_json time_json struct_json v = Some (VString s) → s = uuid_String u.
Proof.
  unfold FieldDefinition_ConvertToModel. intros (? & _ & H)%bind_ok. unfold ConvertToModel in H.
  destruct (Type_ f) as [t|t|t].
  - by eapply simple_text_stays.
  - unfold EnumType_ConvertToModel in H. apply bind_ok in H as (c & H1%replace_err_ok & H).
    apply bind_ok in H as (b & _ & H). destruct b; [|done]. injection H as <-. by eapply simple_text_stays.
  - done.
Qed.
Definition text_is (m : Fields) (u : uuid) : Prop :=
  ∀ v s, m !! SystemIteration = Some v → in_json time_json struct_json v = Some (VString s) → s = uuid_String u.
Lemma update_fields_text skip defs fields u m m' : fields !! SystemIteration = Some (VString (uuid_String u)) →
  update_fields IsURL skip defs fields m = Ok m' → text_is m u → text_is m' u.
Proof.
  intros Hf. revert m. induction defs as [|[name def] defs IH]; intros m H Hm; cbn [update_fields] in H; [by injection H as <-|].
  destruct (ReadOnly def); [by eapply IH|]. destruct (skip _ _).
  - eapply IH; [exact H|]. intros v s Hv. apply Hm. by apply lookup_delete_Some in Hv as [_ Hv].
  - apply bind_ok in H as (m1 & H1 & H). eapply IH; [exact H|].
    unfold store_field in H1. apply bind_ok in H1 as (v1 & Hv1%replace_err_ok & [= <-]).
    intros v s Hv Hs. destruct (decide (name = SystemIteration)) as [->|Hne].
    + rewrite lookup_insert_eq in Hv. injection Hv as ->. unfold fld in Hv1. rewrite Hf in Hv1. by eapply text_stays.
    + rewrite lookup_insert_ne in Hv by done. by eapply Hm.
Qed.
Lemma column_lookup m f k v : column time_json struct_json m = Some f → f !! k = Some v →
  ∃ v0, m !! k = Some v0 ∧ in_json time_json struct_json v0 = Some v.
Proof.
  unfold column. destruct (mapM _ _) as [l|] eqn:E; [|done]. intros [= <-] H.
  apply elem_of_list_to_map_2 in H. apply mapM_Some_1 in E.
  apply list_elem_of_lookup in H as (n & Hn). destruct (Forall2_lookup_r _ _ _ _ _ E Hn) as ([k0 v0] & Hk0 & Hx).
  cbn in Hx. destruct (in_json _ _ v0) as [w|] eqn:Ej; [|done]. injection Hx as -> ->. exists v0. split; [|done].
  apply elem_of_map_to_list. by eapply list_elem_of_lookup_2.
Qed.

(** The model of a row, as far as saving it back depends on it. *)
Record models (w : WorkItemStorage) (x : WorkItem) : Prop := {
  md_number : w_Number x = s_Number w;
  md_space : w_SpaceID x = s_SpaceID w;
  md_version : w_Version x = s_Version w;
  md_type : w_Type x = s_Type w;
}.
Lemma convert_models t w x : ConvertWorkItemStorageToModel t w = Ok x → models w x.
Proof.
  unfold ConvertWorkItemStorageToModel. intros (y & H%replace_err_ok & [= <-])%bind_ok.
  unfold WorkItemType_ConvertWorkItemStorageToModel in H. apply bind_ok in H as (m & _ & [= <-]). done.
Qed.
Lemma convert_all_models l d xs d' : convert_all time_json struct_json l d = (Ok xs, d') →
  same_tables d d' ∧ Forall2 models l xs.
Proof.
  revert d xs. induction l as [|w l IH]; intros d xs H; cbn [convert_all] in H; [by injection H as <- <-|].
  stm_inv. match goal with H : on_types _ _ = _ |- _ => apply on_types_same in H end.
  match goal with H : convert_all _ _ _ _ = _ |- _ => apply IH in H as [Hs HF] end.
  split; [by eapply same_tables_trans|]. constructor; [by eapply convert_models|done].
Qed.
Lemma LoadByIteration_models id d xs d' : LoadByIteration time_json struct_json id d = (Ok xs, d') →
  same_tables d d' ∧ Forall2 models (List.filter (λ w, s_live w && in_iteration (uuid_String id) w) (rows d)) xs.
Proof.
  unfold LoadByIteration. intros H. stm_inv. simplify_eq.
  match goal with H : convert_all _ _ _ _ = _ |- _ => by apply convert_all_models in H end.
Qed.

(** An item that went to [parent]. *)
Record moved_item (parent : uuid) (w w' : WorkItemStorage) : Prop := {
  mv_ID : s_ID w' = s_ID w;
  mv_place : place w' = place w;
  mv_live : s_live w = true;
  mv_still_live : s_live w' = true;
  mv_text : ∀ s, fld (s_Fields w') SystemIteration = VString s → s = uuid_String parent;
}.
Definition rows_unique (d : wi_db) : Prop := NoDup (map s_ID (rows d)) ∧ NoDup (map place (rows d)).
Lemma Save_moves now parent w x who d p d' : rows_unique d → w ∈ rows d → models w x →
  Save IsURL time_json struct_json Sprint related now (w_SpaceID x) (with_iteration parent x) who d = (Ok p, d') →
  ∃ new, moved_item parent w new ∧ rows d' = map (replace_version (s_ID w) (s_Version w) new) (rows d).
Proof.
  intros [Hn Hpl] Hw Hm H. unfold Save in H. apply s_bind_ok in H as ([old t] & d1 & H1 & H).
  apply loadWorkItemStorage_ok in H1 as (Hst & Hin & Hl & Hnum & Hsp). cbn [fst] in *.
  assert (old = w) as ->.
  { apply (unique_row place (rows d)); [done..|]. destruct Hm. unfold place. cbn in Hnum. congruence. }
  stm_inv. cbn [with_iteration w_Version w_Type s_with s_Type w_Fields] in *.
  match goal with H : (if s_Version w =? _ then _ else _) = _ |- _ =>
    destruct (Z.eqb_spec (s_Version w) (w_Version x)) as [Hver|]; [|done] end.
  match goal with H : (if bool_decide _ then _ else _) _ = _ |- _ => rewrite bool_decide_true in H by (symmetry; apply Hm) end.
  stm_inv. cbn [s_with s_Fields s_ID w_Version with_iteration] in *.
  match goal with H : update_row _ _ _ _ _ _ = _ |- _ => apply update_row_ok in H as (f & Hf & -> & ->) end.
  match goal with H : Revision_Create _ _ _ _ _ _ _ = _ |- _ => apply Revision_Create_ok in H as (f' & _ & ->) end.
  match goal with H : update_fields _ _ _ _ _ = Ok ?m |- _ =>
    assert (Ht : text_is m parent) by (eapply update_fields_text; [apply lookup_insert_eq|exact H|by intros ? ? ?%lookup_empty_Some]) end.
  cbn [set_revs set_rows rows] in *. destruct Hst as (Hr & _). eexists. split; [|by rewrite Hr, Hver].
  split; try done. intros s Hs. cbn in Hs. unfold fld in Hs. destruct (f !! SystemIteration) as [v|] eqn:Ef; [|done].
  simpl in Hs. subst v. eapply column_lookup in Ef as (v0 & Hv0 & Hj); [|exact Hf]. by eapply Ht.
Qed.

(** The items [ws], and only they, went to [parent]. *)
Definition items_moved (parent : uuid) (ws : WorkItemStorage → Prop) : list WorkItemStorage → list WorkItemStorage → Prop :=
  Forall2 (λ w w', (w' = w ∧ ¬ ws w) ∨ (ws w ∧ moved_item parent w w')).
Lemma items_moved_unique parent ws d d' : items_moved parent ws (rows d) (rows d') → rows_unique d → rows_unique d'.
Proof.
  intros H. assert (E : map s_ID (rows d') = map s_ID (rows d) ∧ map place (rows d') = map place (rows d)).
  { induction H as [|w w' l l' Hw _ [E1 E2]]; [done|]. cbn [map]. rewrite E1, E2.
    destruct Hw as [[-> _]|[_ [-> -> _ _ _]]]; done. }
  unfold rows_unique. by destruct E as [-> ->].
Qed.
Lemma items_moved_elem parent ws t t' w : items_moved parent ws t t' → w ∈ t → ¬ ws w → w ∈ t'.
Proof.
  intros H (k & Hk)%list_elem_of_lookup Hw. destruct (Forall2_lookup_l _ _ _ _ _ H Hk) as (w' & Hk' & [[-> _]|[? _]]); [|done].
  by eapply list_elem_of_lookup_2.
Qed.
Lemma Save_items_moved now parent w x who d p d' : rows_unique d → w ∈ rows d → models w x →
  Save IsURL time_json struct_json Sprint related now (w_SpaceID x) (with_iteration parent x) who d = (Ok p, d') →
  items_moved parent (λ v, v = w) (rows d) (rows d').
Proof.
  intros Hu Hw Hm HS. destruct (Save_moves _ _ _ _ _ _ _ _ Hu Hw Hm HS) as (new & Hnew & ->). destruct Hu as [Hn _].
  apply Forall2_map_self. intros v Hv. unfold replace_version. destruct (decide (s_ID v = s_ID w)) as [E|Hne].
  - right. assert (v = w) as -> by by apply (unique_row s_ID (rows d)). rewrite (mv_live _ _ _ Hnew), bool_decide_true, Z.eqb_refl by done. done.
  - left. rewrite (bool_decide_false (s_ID v = s_ID w)), andb_false_r by done. split; [done|congruence].
Qed.
Lemma items_moved_none parent (P : WorkItemStorage → Prop) t : (∀ w, ¬ P w) → items_moved parent P t t.
Proof. intros H. induction t; constructor; [left; by split|done]. Qed.
Lemma items_moved_ext parent (P Q : WorkItemStorage → Prop) t t' : (∀ w, w ∈ t → (P w ↔ Q w)) →
  items_moved parent P t t' → items_moved parent Q t t'.
Proof.
  intros HE H. induction H as [|w w' l l' Hw _ IH]; constructor.
  - destruct (HE w) as [H1 H2]; [by left|]. destruct Hw as [[-> ?]|[? ?]]; [left|right]; split; tauto.
  - apply IH. intros v Hv. apply HE. by right.
Qed.
Lemma move_items_moved now parent who ws xs d u d' : rows_unique d → Forall2 models ws xs →
  NoDup (map s_ID ws) → (∀ w, w ∈ ws → w ∈ rows d) →
  move_items IsURL time_json struct_json Sprint related now parent who xs d = (Ok u, d') →
  items_moved parent (λ w, w ∈ ws) (rows d) (rows d').
Proof.
  intros Hu HF. revert d Hu. induction HF as [|w x ws xs Hm HF IH]; intros d Hu Hn Hin H; cbn [move_items] in H.
  - injection H as _ <-. apply items_moved_none. by intros w ?%elem_of_nil.
  - apply s_bind_ok in H as (p & d1 & H1 & H). cbn [map] in Hn. apply NoDup_cons in Hn as [Hw Hn].
    assert (Hwd : w ∈ rows d) by (apply Hin; by left).
    pose proof (Save_items_moved _ _ _ _ _ _ _ _ Hu Hwd Hm H1) as S1.
    assert (Hids : ∀ v, v ∈ ws → s_ID v ≠ s_ID w).
    { intros v Hv E. apply Hw. rewrite <- E, list_elem_of_In. by apply in_map, list_elem_of_In. }
    assert (Hin1 : ∀ v, v ∈ ws → v ∈ rows d1).
    { intros v Hv. eapply items_moved_elem; [exact S1|apply Hin; by right|]. intros ->. by apply (Hids w). }
    pose proof (IH d1 (items_moved_unique _ _ _ _ S1 Hu) Hn Hin1 H) as S2.
    eapply Forall2_trans; [|exact S1|exact S2]. clear S1 S2. intros a b c S1 S2'.
    destruct S1 as [[-> Ha]|[-> Ma]], S2' as [[-> Hb]|[Hb Mb]].
    + left. split; [done|]. set_solver.
    + right. split; [by right|done].
    + right. split; [by left|done].
    + exfalso. apply (Hids b Hb). apply Ma.
Qed.

(** One round of the loop, and the loop. *)
Definition in_one_of (ids : list uuid) (w : WorkItemStorage) : Prop :=
  s_live w = true ∧ ∃ id, id ∈ ids ∧ in_iteration (uuid_String id) w = true.
Lemma round_moved now parent who id d xs d1 u d2 : rows_unique d →
  LoadByIteration time_json struct_json id d = (Ok xs, d1) →
  move_items IsURL time_json struct_json Sprint related now parent who xs d1 = (Ok u, d2) →
  items_moved parent (in_one_of [id]) (rows d) (rows d2).
Proof.
  intros Hu HL1 HM. apply LoadByIteration_models in HL1 as [(Hr & _) HF].
  assert (Hu1 : rows_unique d1) by (unfold rows_unique; by rewrite Hr).
  eapply move_items_moved in HM; [|done|exact HF| |].
  - rewrite Hr in HM. eapply items_moved_ext; [|exact HM]. intros w Hw. cbn.
    rewrite list_elem_of_In, List.filter_In, andb_true_iff, <- list_elem_of_In. unfold in_one_of. set_solver.
  - rewrite <- Hr. apply NoDup_map_filter, Hu1.
  - intros w. rewrite list_elem_of_In, List.filter_In, <- list_elem_of_In, Hr. by intros [? _].
Qed.
Lemma moved_in parent w w' id : moved_item parent w w' → in_iteration (uuid_String id) w' = true → id = parent.
Proof.
  intros Hm Hin. unfold in_iteration in Hin. destruct (fld (s_Fields w') SystemIteration) eqn:E; try done.
  apply String.eqb_eq in Hin. apply (mv_text _ _ _ Hm) in E. apply uuid_String_inj. congruence.
Qed.
Lemma moved_apart parent ids t t' w' : items_moved parent (in_one_of ids) t t' → parent ∉ ids → w' ∈ t' → ¬ in_one_of ids w'.
Proof.
  intros H Hp (k & Hk)%list_elem_of_lookup. destruct (Forall2_lookup_r _ _ _ _ _ H Hk) as (w & _ & [[-> ?]|[_ Hm]]); [done|].
  intros (_ & id & Hid & Hin). apply (moved_in parent w) in Hin; [by subst|done].
Qed.
Lemma delete_all_moved now parent who l d u d' : rows_unique (wis d) → parent ∉ map it_ID l →
  delete_all IsURL time_json struct_json Sprint related now parent who l d = (Ok u, d') →
  items_moved parent (in_one_of (map it_ID l)) (rows (wis d)) (rows (wis d')).
Proof.
  revert d. induction l as [|x l IH]; intros d Hu Hp H; cbn [delete_all] in H.
  - injection H as _ <-. apply items_moved_none. by intros w (_ & id & Hid%elem_of_nil & _).
  - apply s_bind_ok in H as (xs & d1 & (H1 & _)%on_wis_its & H).
    apply s_bind_ok in H as ([] & d2 & (H2 & _)%on_wis_its & H).
    apply s_bind_ok in H as ([] & d3 & (_ & _ & E3)%on_its_ok & H).
    pose proof (round_moved _ _ _ _ _ _ _ _ _ Hu H1 H2) as S1. cbn [map] in Hp. apply not_elem_of_cons in Hp as [Hpx Hp].
    assert (Hu3 : rows_unique (wis d3)) by (rewrite E3; by eapply items_moved_unique).
    pose proof (IH d3 Hu3 Hp H) as S2. rewrite E3 in S2.
    eapply Forall2_trans; [|exact S1|exact S2]. clear S1 S2. intros a b c S1 S2'. cbn [map].
    destruct S1 as [[-> Ha]|[Ia Ma]], S2' as [[-> Hb]|[Hb Mb]].
    + left. split; [done|]. intros (Hl & id & [->|Hid]%elem_of_cons & Hin); [apply Ha|apply Hb]; split; try done.
      * exists (it_ID x). set_solver.
      * by exists id.
    + right. split; [|done]. destruct Hb as (Hl & id & Hid & Hin). split; [done|]. exists id. set_solver.
    + right. split; [|done]. destruct Ia as (Hl & id & Hid & Hin). split; [done|]. exists id. set_solver.
    + exfalso. destruct Hb as (_ & id & Hid & Hin). apply (moved_in parent a) in Hin; [by subst|done].
Qed.

Lemma ParentID_snoc l u v : ParentID (l ++ [u] ++ [v]) = u.
Proof.
  unfold ParentID. rewrite length_app. cbn [length app].
  destruct (Nat.ltb_spec 1 (length l + 2)) as [_|]; [|lia].
  replace (length l + 2 - 2)%nat with (length l) by lia. by rewrite list_lookup_middle.
Qed.
(** C9: deleting an iteration that is answered with success deletes it with all its descendants and nothing else; no
    live item is left in any of them, every item that was in one of them, and no other, was saved again, and none of
    these points to an iteration other than the parent. *)
Theorem DeleteIteration_moves_items now who id d u d' (Hwf : it_wf (its d)) (Hu : rows_unique (wis d))
    (H : DeleteIteration IsURL time_json struct_json Sprint related now who id d = (Ok u, d')) :
  ∃ i p, i ∈ iterations (its d) ∧ it_ID i = id ∧ child_of (iterations (its d)) i p ∧
    let gone x := x = i ∨ tc (child_of (iterations (its d))) x i in
    (∀ x, x ∈ iterations (its d') ∧ row_live x = true ↔ x ∈ iterations (its d) ∧ row_live x = true ∧ ¬ gone x) ∧
    (∀ x w, gone x → w ∈ rows (wis d') → s_live w = true → in_iteration (uuid_String (it_ID x)) w = false) ∧
    items_moved (it_ID p) (λ w, s_live w = true ∧ ∃ x, gone x ∧ in_iteration (uuid_String (it_ID x)) w = true)
      (rows (wis d)) (rows (wis d')).
Proof.
  pose proof (iw_tree _ Hwf) as HT. pose proof (tree_ids _ HT) as Hn.
  unfold DeleteIteration in H. apply s_bind_ok in H as (user & d1 & H1 & H). apply s_query_ok in H1 as [_ ->].
  rewrite transact_ok in H. apply s_bind_ok in H as (i & d1 & H1 & H). apply s_query_ok in H1 as [HLi ->].
  apply s_bind_ok in H as (sp & d1 & H1 & H). apply s_query_ok in H1 as [Hsp ->].
  apply s_bind_ok in H as ([] & d1 & H1 & H). apply s_query_ok in H1 as [Hroot ->].
  apply s_bind_ok in H as (sub & d1 & H1 & H). apply s_query_ok in H1 as [Hsub ->].
  apply s_bind_ok in H as (q & d1 & H1 & H). apply s_query_ok in H1 as [Hq ->].
  apply Load_ok in HLi as Hi. destruct Hi as (Hi & Hl & <-).
  assert (Hip : child_of (iterations (its d)) i q).
  { case_bool_decide; [done|]. apply Load_ok in Hq as (Hq1 & Hq2 & Hq3).
    destruct (tree_rooted _ HT i Hi Hl) as [E|(r & Hr & Hrl & Hrs & E)].
    - exfalso. unfold space_Load in Hsp. destruct (t_first _ _) as [s0|] eqn:Es; [|done]. injection Hsp as ->.
      apply t_first_some in Es as (_ & _ & Es%has_ID_true). cbn in Es, E.
      destruct (negb _); [done|]. unfold Iterations.IsRoot in Hroot. rewrite E, Es in Hroot. cbn in Hroot.
      by rewrite !bool_decide_true in Hroot.
    - assert (q = r) as ->; [|by split_and!]. apply (ids_unique_eq (iterations (its d))); [done..|]. cbn in *.
      rewrite Hq3, E. destruct (exists_last (path_not_nil _ _ HT Hr Hrl)) as (l & u0 & El). cbn in El.
      pose proof (path_last _ _ HT Hr Hrl) as L. cbn in L. rewrite El, last_snoc in L. injection L as <-.
      rewrite El, <- app_assoc. apply ParentID_snoc. }
  exists i, q. split; [done|]. split; [done|]. split; [done|]. intros gone.
  apply LoadChildren_ok in Hsub as (i' & HL' & Hsub). rewrite HLi in HL'. injection HL' as <-.
  assert (Hgone : ∀ x, x ∈ sub ++ [i] ↔ gone x).
  { intros x. unfold gone. rewrite elem_of_app, list_elem_of_singleton, Hsub. split.
    - intros [(Hx & Hxl & Hr)| ->]; [right|by left]. by apply (descendant_path _ _ _ HT).
    - intros [->|Hx]; [by right|left]. assert (Hx2 : x ∈ iterations (its d) ∧ row_live x = true)
        by (destruct Hx as [? ? (?&?&?&?&?)|? ? ? (?&?&?&?&?) _]; done). destruct Hx2 as [Hx1 Hx2].
      split_and!; [done|done|]. by apply (descendant_path _ _ _ HT). }
  assert (Hids : ∀ x, x ∈ iterations (its d) → it_ID x ∈ map it_ID (sub ++ [i]) → gone x).
  { intros x Hx. rewrite list_elem_of_In, in_map_iff. intros (y & E & Hy%list_elem_of_In). apply Hgone.
    assert (y ∈ iterations (its d)) by (apply elem_of_app in Hy as [Hy| ->%list_elem_of_singleton]; [by apply Hsub|done]).
    by assert (x = y) as -> by by apply (ids_unique_eq (iterations (its d))). }
  assert (Hgid : ∀ x, gone x → it_ID x ∈ map it_ID (sub ++ [i])).
  { intros x Hx. rewrite list_elem_of_In. by apply in_map, list_elem_of_In, Hgone. }
  assert (Hpq : it_ID q ∉ map it_ID (sub ++ [i])).
  { intros Hin. destruct Hip as (_ & Hq1 & _ & Hql & E). apply (Hids q Hq1) in Hin as [->|Hqi].
    - apply (f_equal length) in E. rewrite length_app in E. simpl in E. lia.
    - apply (descendant_path _ _ _ HT) in Hqi as (r & _ & Er); [|done..]. rewrite Er in E.
      apply (f_equal length) in E. rewrite !length_app in E. simpl in E. lia. }
  pose proof (delete_all_its _ _ _ _ _ _ _ _ _ _ _ _ H) as Eits.
  apply delete_all_moved in H; [|done|done]. split_and!.
  - intros x. rewrite Eits. cbn [set_iterations iterations]. split.
    + intros [Hx Hxl]. apply elem_of_deleted in Hx as [[Hx E]|(a & -> & _)]; [|by rewrite soft_delete_dead in Hxl].
      rewrite Hxl in E. cbn in E. split_and!; [done|done|]. intros Hg%Hgid. by rewrite bool_decide_true in E.
    + intros (Hx & Hxl & Hng). split; [|done]. unfold delete_ids, t_delete. cbn [snd]. rewrite list_elem_of_In, in_map_iff.
      exists x. rewrite bool_decide_false by (intros Hin; by apply Hng, Hids). rewrite andb_false_r.
      split; [done|by apply list_elem_of_In].
  - intros x w Hg Hw Hwl. apply not_true_iff_false. intros Hin.
    apply (moved_apart _ _ _ _ w H Hpq Hw). split; [done|]. exists (it_ID x). split; [by apply Hgid|done].
  - eapply items_moved_ext; [|exact H]. intros w Hw. unfold in_one_of. split.
    + intros (Hwl & id & Hid & Hin). split; [done|]. rewrite list_elem_of_In, in_map_iff in Hid.
      destruct Hid as (x & <- & Hx%list_elem_of_In). exists x. split; [by apply Hgone|done].
    + intros (Hwl & x & Hx & Hin). split; [done|]. exists (it_ID x). split; [by apply Hgid|done].
Qed.
End Items.
