(* ===== verification/IterationExamples.v ===== *)
(** * Iterations: a concrete store

    A space with a tree of iterations and an item in it, the theorems on
    iterations applied to them, and two requests that get in each other's way. *)

From Stdlib Require Import ZArith Lia Ascii String SpecFloat.
From stdpp Require Import relations.
From S2P Require Import TypeFacts WorkItemExamples.
From S2P Require Export IterationStates IterationMoves.
Import Path Transactions.

Definition at_ (n : Z) : Time := {| instant := n; representation := 0 |}.
Definition the_space : Space :=
  {| sp_Lifecycle := stamped (at_ 1); sp_ID := id_space; sp_Version := 0; sp_Name := "space"; sp_Description := "";
     OwnerID := id_user; sp_SpaceTemplateID := id_template |}.
Definition iteration_field : FieldDefinition :=
  {| Required := false; ReadOnly := false; Label := "Iteration"; Description := "";
     Type_ := FSimple {| kind := KindIteration; simple_default := VNil |} |}.
Definition task_model := model_of id_task id_planner "task" [(SystemIteration, iteration_field)].
Definition app0 : app_db :=
  {| its := {| iterations := []; it_sequences := ∅; it_spaces := [id_space] |};
     sps := {| space_rows := [the_space]; template_rows := [] |};
     wis := no_items [(id_space, id_template)] (create_model task_model with_planner) |}.

Lemma ran_it {S A} (m : S → res A * S) d : is_ok (m d).1 = true → ∃ a, m d = (Ok a, (m d).2).
Proof. destruct (m d) as [[a|e|p] d']; [|done..]. by exists a. Qed.
Notation ask := (answer (λ _, Ok true) any_url no_json_time no_json_struct no_text no_related).
(** A request nothing comes between, and one whose second transaction is run in [d]. *)
Definition asked (q : request) (d : app_db) : app_db := (ask (λ _, d) q d).2.
Definition asked_late (q : request) (d0 d : app_db) : app_db := (ask (λ _, d) q d0).2.
Notation committed_here := (IterationRequests.committed (λ _, Ok true) any_url no_json_time no_json_struct no_text no_related).
Lemma current_refl q d : current q d d.
Proof. by destruct q; try done; intros id i _ (Hi & _)%Load_ok. Qed.
Lemma asked_answered q d : drawn q → rtc committed_here d (asked q d).
Proof.
  intros H. unfold asked. destruct (ask (λ _, d) q d) as [r d'] eqn:E. cbn [snd]. destruct r as [u|e|m].
  - apply rtc_once. exists d, q, u. split_and!; [done|apply current_refl|done].
  - pose proof (answer_fails_core _ _ _ _ _ _ _ _ d _ _ E eq_refl) as [->| ->]; done.
  - pose proof (answer_fails_core _ _ _ _ _ _ _ _ d _ _ E eq_refl) as [->| ->]; done.
Qed.

Definition it (n : N) : uuid := uuid_of (100 + n).
Definition named (ID : option uuid) (name : string) : ItPayload :=
  {| p_ID := ID; p_Name := Some name; p_Description := None; p_StartAt := None; p_EndAt := None; p_State := None;
     p_UserActive := None; p_Parent := None |}.
Definition no_change : ItPayload := no_payload.
Definition below_parent (parent : uuid) : ItPayload :=
  {| p_ID := None; p_Name := None; p_Description := None; p_StartAt := None; p_EndAt := None; p_State := None;
     p_UserActive := None; p_Parent := Some (Some (Some (uuid_String parent))) |}.
Definition in_state (s : string) : ItPayload :=
  {| p_ID := None; p_Name := None; p_Description := None; p_StartAt := None; p_EndAt := None; p_State := Some s;
     p_UserActive := None; p_Parent := None |}.
Definition new_child (n parent : N) (name : string) : request :=
  RCreateChild (at_ (Z.of_N n)) (uuid_of 77) (uuid_of 78) (uuid_of 79) (Ok id_user) (uuid_String (it parent))
    (named (Some (it n)) name).
Definition q_root := RCreateRoot (at_ 1) (it 1) id_space "space".
Definition q_A := new_child 2 1 "A".
Definition q_B := new_child 3 2 "B".
Definition q_C := new_child 4 3 "C".
Definition q_D := new_child 5 1 "D".
(** root - A - B - C, and D below the root *)
Definition app_root := asked q_root app0.
Definition app_A := asked q_A app_root.
Definition app_B := asked q_B app_A.
Definition app_C := asked q_C app_B.
Definition app_tree := asked q_D app_C.
#[global] Strategy expand [app_root app_A app_B app_C app_tree].
Definition q_move := RUpdate (at_ 10) (uuid_of 78) (Ok id_user) (uuid_String (it 2)) (below_parent (it 5)).
(** A move, with a creation below D between its two transactions. *)
Definition q_E := new_child 6 5 "E".
Definition app_moved_late := asked_late q_move app_tree (asked q_E app_tree).
Definition q_start := RUpdate (at_ 11) (uuid_of 78) (Ok id_user) (uuid_String (it 2)) (in_state StateStart).
Definition app_started := asked q_start app_tree.

Lemma app0_empty : no_iterations app0.
Proof. done. Qed.
Lemma uuid_of_drawn n : (n mod 2 ^ 128 ≠ 0)%N → uuid_of n ≠ uuid_Nil.
Proof. by intros H ?%(f_equal uuid_bits). Qed.
Lemma app_tree_answered : rtc committed_here app0 app_tree.
Proof.
  do 4 (etrans; [apply asked_answered; shelve|]). apply asked_answered.
  Unshelve. all: unfold q_root, q_A, q_B, q_C, q_D, new_child; apply uuid_of_drawn; done.
Qed.
Lemma app_tree_wf : it_wf (its app_tree).
Proof. eapply all_committed_wf; [apply app0_empty|apply app_tree_answered]. Qed.

(** ** Witnesses *)

Definition blank : Iteration := blank_iteration uuid_Nil no_payload uuid_Nil "".
Definition the (n : N) (d : app_db) : Iteration := default blank (List.find (has_ID (it n)) (iterations (its d))).
Definition here (i : Iteration) (d : app_db) : bool := existsb (λ x, has_ID (it_ID i) x && row_live x) (iterations (its d)).
Lemma the_in n d : is_Some (List.find (has_ID (it n)) (iterations (its d))) → the n d ∈ iterations (its d).
Proof.
  intros [i E]. unfold the. rewrite E. simpl. apply List.find_some in E as [E _]. by apply list_elem_of_In.
Qed.
Lemma the_child n m d : (∃ i, List.find (has_ID (it n)) (iterations (its d)) = Some i) →
  (∃ i, List.find (has_ID (it m)) (iterations (its d)) = Some i) →
  row_live (the n d) = true → row_live (the m d) = true → it_Path (the n d) = it_Path (the m d) ++ [it_ID (the n d)] →
  child_of (iterations (its d)) (the n d) (the m d).
Proof. intros Hn Hm H1 H2 H3. split_and!; [by apply the_in|by apply the_in|done..]. Qed.
Ltac here := by (eexists; vm_compute; reflexivity).
Ltac computes := apply (bool_decide_unpack _); by vm_compute.
Lemma C_below_A : tc (child_of (iterations (its app_tree))) (the 4 app_tree) (the 2 app_tree).
Proof. apply tc_l with (the 3 app_tree); [|apply tc_once]; apply the_child; first [here|computes]. Qed.

Lemma moved_late_committed : rtc committed_here app0 app_moved_late.
Proof.
  assert (Hq : drawn q_E) by (unfold q_E, new_child; by apply uuid_of_drawn).
  eapply rtc_r; [etrans; [apply app_tree_answered|apply (asked_answered q_E _ Hq)]|].
  assert (Hr : ∃ u, ask (λ _, asked q_E app_tree) q_move app_tree = (Ok u, app_moved_late)).
  { assert (Hok : is_ok (ask (λ _, asked q_E app_tree) q_move app_tree).1 = true) by by vm_compute.
    unfold app_moved_late, asked_late. destruct (ask _ q_move app_tree) as [[u|e|m] d']; [by exists u|done..]. }
  destruct Hr as [u Hu]. exists app_tree, q_move, u. split_and!; [done| |exact Hu].
  unfold current, q_move. intros id i Hid (Hi & _ & Ei)%Load_ok. rewrite uuid_round in Hid. injection Hid as <-.
  assert (HA : the 2 app_tree ∈ iterations (its (asked q_E app_tree))).
  { rewrite <- (take_drop 5 (iterations _)). apply elem_of_app. left.
    assert (take 5 (iterations (its (asked q_E app_tree))) = iterations (its app_tree)) as -> by (vm_compute; reflexivity).
    apply the_in. here. }
  assert (i = the 2 app_tree) as ->; [|exact HA].
  apply (ids_unique_eq (iterations (its app_tree))); [apply app_tree_wf|done|apply the_in; here|].
  change (it_ID i = row_ID (the 2 app_tree)). rewrite Ei. computes.
Qed.
Lemma requests_keep_trees_witness :
  it_wf (its app_moved_late) ∧ length (it_Path (the 4 app_moved_late)) = 4%nat ∧ length (it_Path (the 6 app_moved_late)) = 3%nat.
Proof.
  split; [|split; by vm_compute].
  apply (requests_keep_trees (λ _, Ok true) any_url no_json_time no_json_struct no_text no_related app0 app_moved_late app0_empty).
  apply moved_late_committed.
Defined.
(** A cannot go below its own child B; E is created meanwhile. *)
Definition q_circle := RUpdate (at_ 10) (uuid_of 78) (Ok id_user) (uuid_String (it 2)) (below_parent (it 3)).
Lemma answer_all_or_nothing_witness :
  is_ok (ask (asked q_E) q_circle app_tree).1 = false ∧
  ((ask (asked q_E) q_circle app_tree).2 = app_tree ∨ (ask (asked q_E) q_circle app_tree).2 = asked q_E app_tree).
Proof.
  assert (Hr : is_ok (ask (asked q_E) q_circle app_tree).1 = false) by by vm_compute. split; [exact Hr|].
  destruct (ask (asked q_E) q_circle app_tree) as [r d'] eqn:E.
  apply (answer_all_or_nothing (λ _, Ok true) any_url no_json_time no_json_struct no_text no_related (asked q_E) q_circle app_tree
    r d' E Hr).
Defined.
Lemma requests_one_started_witness : one_started (its app_started) ∧ it_State (the 2 app_started) = StateStart.
Proof.
  split; [|by vm_compute].
  apply (requests_one_started (λ _, Ok true) any_url no_json_time no_json_struct no_text no_related app0 app_started app0_empty).
  etrans; [apply app_tree_answered|by apply asked_answered].
Defined.
Lemma LoadChildren_descendants_witness :
  ∃ l, LoadChildren (it_ID (the 2 app_tree)) (its app_tree) = Ok l ∧ the 4 app_tree ∈ l.
Proof.
  destruct (LoadChildren_descendants (its app_tree) (the 2 app_tree)) as (l & H1 & _ & _ & H2).
  - apply app_tree_wf.
  - apply the_in. here.
  - by vm_compute.
  - exists l. split; [exact H1|]. apply H2, C_below_A.
Defined.
Definition moving :=
  Update (λ _, Ok true) (at_ 10) (uuid_of 78) (λ d, d) (Ok id_user) (uuid_String (it 2)) (below_parent (it 5)).
Lemma Update_flattens_witness :
  ∃ i' x', it_ID i' = it 2 ∧ it_ID x' = it 4 ∧ child_of (iterations (its (moving app_tree).2)) x' i'.
Proof.
  destruct (ran_it moving app_tree) as [r Hr]; [by vm_compute|].
  destruct (Update_flattens (λ _, Ok true) (at_ 10) (uuid_of 78) (Ok id_user) (uuid_String (it 2)) (below_parent (it 5))
    (uuid_String (it 5)) app_tree r _ app_tree_wf eq_refl Hr) as (i & i' & np & Hi & Hl & Hid & Ei & _ & _ & Hx).
  rewrite uuid_round in Hid. injection Hid as Hid.
  assert (i = the 2 app_tree) as -> by (apply (ids_unique_eq (iterations (its app_tree)));
    [apply app_tree_wf|done|apply the_in; here|change (it_ID i = row_ID (the 2 app_tree)); rewrite <- Hid; computes]).
  destruct (Hx (the 4 app_tree) C_below_A) as (x' & Ex & Hc). exists i', x'. split; [by rewrite Ei|].
  split; [rewrite Ex; computes|exact Hc].
Defined.

(** ** Requests in each other's way *)

(** While A is renamed another request moves it below D: the renaming puts A back to where it was, and B stays
    below a path nothing has. *)
Definition renamed := Update (λ _, Ok true) (at_ 12) (uuid_of 78) (asked q_move) (Ok id_user) (uuid_String (it 2))
                        (named None "A2").
Theorem stale_Update_breaks_tree :
  it_wf (its app_tree) ∧ it_wf (its (asked q_move app_tree)) ∧ is_ok (renamed app_tree).1 = true ∧
  ¬ tree (iterations (its (renamed app_tree).2)).
Proof.
  split; [apply app_tree_wf|]. split.
  { eapply all_committed_wf; [apply app0_empty|]. etrans; [apply app_tree_answered|]. by apply (asked_answered q_move). }
  split; [by vm_compute|]. intros HT. set (d := (renamed app_tree).2) in *.
  assert (H3 : the 3 d ∈ iterations (its d)) by (apply the_in; here).
  assert (Hl : row_live (the 3 d) = true) by by vm_compute.
  assert (HL : Nat.eqb (length (n_path (the 3 d))) 1 = false) by by vm_compute.
  assert (HA : forallb (λ p, negb (bool_decide (n_path (the 3 d) = n_path p ++ [row_ID (the 3 d)])))
    (iterations (its d)) = true) by by vm_compute.
  clearbody d. destruct (tree_rooted _ HT _ H3 Hl) as [E|(p & Hp & _ & _ & E)]; [by rewrite E in HL|].
  rewrite forallb_forall in HA. apply list_elem_of_In in Hp. specialize (HA p Hp).
  by rewrite bool_decide_true in HA.
Qed.
(** While A, which is started, is renamed, it is closed and D is started: the renaming saves A as started. *)
Definition set_state n (m : N) s := RUpdate (at_ n) (uuid_of 78) (Ok id_user) (uuid_String (it m)) (in_state s).
Definition renamed_late := Update (λ _, Ok true) (at_ 16) (uuid_of 78)
  (λ d, asked (set_state 15 5 StateStart) (asked (set_state 14 2 StateClose) d)) (Ok id_user) (uuid_String (it 2)) (named None "A2").
Theorem stale_Update_starts_two :
  one_started (its app_started) ∧ is_ok (renamed_late app_started).1 = true ∧ ¬ one_started (its (renamed_late app_started).2).
Proof.
  split; [|split; [by vm_compute|]].
  - eapply requests_one_started_; [apply app0_empty|]. etrans; [apply app_tree_answered|by apply asked_answered].
  - intros H. set (d := (renamed_late app_started).2) in *. assert (E : it_ID (the 2 d) = it_ID (the 5 d)).
    { apply H; [apply (the_in 2 d); here|apply (the_in 5 d); here| | |computes]; by split; vm_compute. }
    apply (f_equal uuid_bits) in E. by vm_compute in E.
Qed.
(** Two requests that check before either saves start two iterations. *)
Theorem CanStart_race :
  ∃ a b r r' d1 d2, new_state (in_state StateStart) (the 2 app_tree) (its app_tree) = Ok a ∧
    new_state (in_state StateStart) (the 5 app_tree) (its app_tree) = Ok b ∧
    Iterations.Save (at_ 13) a (its app_tree) = (Ok r, d1) ∧ Iterations.Save (at_ 14) b d1 = (Ok r', d2) ∧
    ¬ one_started d2.
Proof.
  set (a := it_set_state (the 2 app_tree) StateStart). set (b := it_set_state (the 5 app_tree) StateStart).
  destruct (ran_it (Iterations.Save (at_ 13) a) (its app_tree)) as [r Hr]; [by vm_compute|].
  set (d1 := (Iterations.Save (at_ 13) a (its app_tree)).2) in *.
  destruct (ran_it (Iterations.Save (at_ 14) b) d1) as [r' Hr']; [by vm_compute|].
  set (d2 := (Iterations.Save (at_ 14) b d1).2) in *.
  exists a, b, r, r', d1, d2. split; [by vm_compute|]. split; [by vm_compute|]. split; [exact Hr|]. split; [exact Hr'|].
  intros H. set (d := {| its := d2; sps := sps app_tree; wis := wis app_tree |}).
  assert (E : it_ID (the 2 d) = it_ID (the 5 d)).
  { apply H; [apply (the_in 2 d); here|apply (the_in 5 d); here| | |computes]; by split; vm_compute. }
  apply (f_equal uuid_bits) in E. by vm_compute in E.
Qed.

(** ** An item in the tree *)

Definition task_fields : Fields := {[ "system.title" := VString "wash"; SystemIteration := VString (uuid_String (it 3)) ]}.
Definition create_task : apm unit := discard_ (on_wis (
  WorkItems.Create any_url no_json_time no_json_struct (at_ 6) (id_item 1) id_space id_task task_fields id_user)).
(** An item in B, and the same store with the item deleted. *)
Definition app_item := (create_task app_tree).2.
Definition app_item_deleted :=
  (on_wis (WorkItems.Delete no_json_time no_json_struct (at_ 7) (id_item 1) id_user) app_item).2.
Definition delete_A := DeleteIteration any_url no_json_time no_json_struct no_text no_related (at_ 20) (Ok id_user) (it 2).
Lemma its_of_item : its app_item = its app_tree.
Proof. unfold app_item, create_task, discard_, s_bind, on_wis. by destruct (WorkItems.Create _ _ _ _ _ _ _ _ _ _) as [[?|?|?] ?]. Qed.
Lemma one_item : length (rows (wis app_item)) = 1%nat ∧ rows_unique (wis app_item).
Proof.
  assert (E : length (rows (wis app_item)) = 1%nat) by by vm_compute. split; [done|].
  unfold rows_unique. destruct (rows (wis app_item)) as [|w [|]]; try done. cbn. split; apply NoDup_singleton.
Qed.
Lemma DeleteIteration_moves_items_witness :
  ∃ p, items_moved (it_ID p)
    (λ w, s_live w = true ∧ ∃ x, (x = the 2 app_item ∨ tc (child_of (iterations (its app_item))) x (the 2 app_item)) ∧
                                 in_iteration (uuid_String (it_ID x)) w = true)
    (rows (wis app_item)) (rows (wis (delete_A app_item).2)).
Proof.
  destruct (ran_it delete_A app_item) as [u Hu]; [by vm_compute|].
  destruct (DeleteIteration_moves_items any_url no_json_time no_json_struct no_text no_related (at_ 20) (Ok id_user) (it 2)
    app_item u (delete_A app_item).2) as (i & p & Hi & Ei & _ & _ & _ & HM).
  - rewrite its_of_item. apply app_tree_wf.
  - apply one_item.
  - exact Hu.
  - exists p. assert (i = the 2 app_item) as ->; [|exact HM].
    apply (ids_unique_eq (iterations (its app_item))); [rewrite its_of_item; apply app_tree_wf|done|apply the_in; here|].
    change (it_ID i = row_ID (the 2 app_item)). rewrite Ei. computes.
Defined.
Lemma item_went_to_root : forallb (in_iteration (uuid_String (it 1))) (rows (wis (delete_A app_item).2)) = true.
Proof. by vm_compute. Qed.
Lemma GetCountsPerIteration_subtree_witness :
  ∃ r, GetCountsPerIteration id_space (iterations (its app_item)) (rows (wis app_item))
         !! uuid_String (it_ID (the 2 app_item)) = Some r ∧ IterationCounts.Total r = 1.
Proof.
  destruct (GetCountsPerIteration_subtree id_space (iterations (its app_item)) (rows (wis app_item)) (the 2 app_item))
    as (r & H1 & H2 & _).
  - rewrite its_of_item. apply app_tree_wf.
  - apply the_in. here.
  - by vm_compute.
  - computes.
  - exists r. split; [exact H1|]. rewrite H2. by vm_compute.
Defined.
(** The item is deleted, yet A still has it. *)
Lemma GetCountsForIteration_deleted_too_witness :
  ∃ r, GetCountsForIteration (the 2 app_item_deleted) (iterations (its app_item_deleted)) (rows (wis app_item_deleted))
         !! uuid_String (it_ID (the 2 app_item_deleted)) = Some r ∧ IterationCounts.Total r = 1 ∧
       forallb (λ w, negb (s_live w)) (rows (wis app_item_deleted)) = true.
Proof.
  destruct (GetCountsForIteration_deleted_too (the 2 app_item_deleted) (iterations (its app_item_deleted))
    (rows (wis app_item_deleted))) as (_ & r & H1 & H2 & _).
  - apply the_in. here.
  - exists r. split; [exact H1|]. split; [rewrite H2|]; by vm_compute.
Defined.
