(* ===== verification/WorkItemConversion.v ===== *)
(** * From a request to an item, and from an item to an answer

    The conversions of [controller/workitem.go] over all the tables they look
    at: [ConvertJSONAPIToWorkItem] puts the relationships and attributes of a
    payload into an item, [ConvertWorkItem] shows an item.  The links of an
    answer are left out; what [fmt] prints of a value and the HTML of a markup
    are parameters. *)

From Stdlib Require Import ZArith Lia Ascii String SpecFloat.
From S2P Require Import Errors LinkRepository Spaces Areas Labels Accounts.
From S2P Require Export Search Codebases IterationController WorkItemLists.
Import Transactions.

(** ** The store of the planner *)

Record planner := {
  pl_app : app_db;                     (* iterations, spaces, work items *)
  pl_links : LinkRepository.db;        (* without the items *)
  pl_areas : area_db;
  pl_labels : label_db;
  pl_accounts : account_db;
  pl_codebases : codebase_db;
}.
Notation plm A := (planner → res A * planner).
Definition pl_wis (d : planner) : wi_db := wis (pl_app d).
Definition on_items_of {A} (m : wstm A) : plm A := λ d,
  let '(r, t) := on_wis m (pl_app d) in
  (r, {| pl_app := t; pl_links := pl_links d; pl_areas := pl_areas d; pl_labels := pl_labels d;
         pl_accounts := pl_accounts d; pl_codebases := pl_codebases d |}).
Definition set_pl_codebases (t : codebase_db) (d : planner) : planner :=
  {| pl_app := pl_app d; pl_links := pl_links d; pl_areas := pl_areas d; pl_labels := pl_labels d;
     pl_accounts := pl_accounts d; pl_codebases := t |}.

(** The items as the repository of links sees them. *)
Definition order_Q (f : float64) : QArith_base.Q :=
  match f with
  | S754_finite s m e =>
      let n := if s then Zneg m else Zpos m in
      if 0 <=? e then QArith_base.inject_Z (n * 2 ^ e) else QArith_base.Qmake n (Z.to_pos (2 ^ (- e)))
  | _ => QArith_base.inject_Z 0
  end.
Definition item_of (w : WorkItemStorage) : item_row :=
  {| i_ID := s_ID w; i_SpaceID := s_SpaceID w; i_Type := s_Type w; i_ExecutionOrder := order_Q (s_ExecutionOrder w);
     i_DeletedAt := DeletedAt (s_Lifecycle w) |}.
Definition links_view (d : planner) : LinkRepository.db := LinkRepository.set_items (pl_links d) (map item_of (rows (pl_wis d))).

Definition SystemVersion : string := "version".
Definition SystemDescriptionMarkup : string := "system.description.markup".
Definition SystemDescriptionRendered : string := "system.description.rendered".
Definition bad_assertion : string := "interface conversion".

Section Conversion.
Context {HO : UuidOps} (time_json : Z → string) (struct_json : string → option gval).
Context (Sprint : gval → string).

Definition access (d : wi_db) : WorkItemAccess :=
  {| witr_Load := λ id, _ ← (WorkItemTypes.Load time_json struct_json id (types d)).1; Ok tt;
     ConvertItem := λ i,
       match List.find (λ w, bool_decide (s_ID w = i_ID i)) (rows d) with
       | Some w => t ← (WorkItemTypes.Load time_json struct_json (s_Type w) (types d)).1;
                   _ ← ConvertWorkItemStorageToModel t w; Ok tt
       | None => Ok tt
       end |}.
Definition on_links {A} (m : WorkItemAccess → LinkRepository.stm A) : plm A := λ d,
  let '(r, t) := m (access (pl_wis d)) (links_view d) in
  (r, {| pl_app := pl_app d; pl_links := t; pl_areas := pl_areas d; pl_labels := pl_labels d;
         pl_accounts := pl_accounts d; pl_codebases := pl_codebases d |}).

(** ** Payloads *)

(** A relationship, its data, and the ids in it. *)
Notation RelationGenericList := (option (option (list (option string)))).
Notation RelationGeneric := (option (option (option string))).
Record Relationships := {
  rel_Assignees : RelationGenericList;
  rel_Labels : RelationGenericList;
  rel_Boardcolumns : RelationGenericList;
  rel_Iteration : RelationGeneric;
  rel_Area : RelationGeneric;
  rel_BaseType : option (option uuid);
  rel_others : bool;                    (* any of the relationships that are not read *)
}.
(** Attributes in the order a range visits them.  The design of the API requires them ([design/workitems.go:31]), so that
    a handler never sees a nil map. *)
Record AppWorkItem := {
  aw_ID : option uuid;
  aw_Attributes : list (string * gval);
  aw_Relationships : option Relationships;
}.
Definition with_Fields (f : Fields) (t : WorkItem) : WorkItem :=
  {| w_ID := w_ID t; w_Number := w_Number t; w_Type := w_Type t; w_Version := w_Version t; w_SpaceID := w_SpaceID t;
     w_Fields := f; w_relationShipsChangedAt := w_relationShipsChangedAt t |}.
Definition with_field (key : string) (v : gval) (t : WorkItem) : WorkItem := with_Fields (<[key := v]> (w_Fields t)) t.
Definition with_Type (ty : uuid) (t : WorkItem) : WorkItem :=
  {| w_ID := w_ID t; w_Number := w_Number t; w_Type := ty; w_Version := w_Version t; w_SpaceID := w_SpaceID t;
     w_Fields := w_Fields t; w_relationShipsChangedAt := w_relationShipsChangedAt t |}.
Definition with_Version (v : Z) (t : WorkItem) : WorkItem :=
  {| w_ID := w_ID t; w_Number := w_Number t; w_Type := w_Type t; w_Version := v; w_SpaceID := w_SpaceID t;
     w_Fields := w_Fields t; w_relationShipsChangedAt := w_relationShipsChangedAt t |}.
Definition with_Number (n : Z) (t : WorkItem) : WorkItem :=
  {| w_ID := w_ID t; w_Number := n; w_Type := w_Type t; w_Version := w_Version t; w_SpaceID := w_SpaceID t;
     w_Fields := w_Fields t; w_relationShipsChangedAt := w_relationShipsChangedAt t |}.
(** A missing key and a nil read the same. *)
Definition field_of (f : Fields) (key : string) : gval := default VNil (f !! key).
Definition is_nil (v : gval) : bool := match v with VNil => true | _ => false end.

Definition getVersion (version : gval) : res Z :=
  if is_nil version then Ok (-1)
  else replace_err (BadParameterError "data.attributes.version" (Sprint version) None None) (Atoi (Sprint version)).

(** [uuid.FromString( *d.ID )] *)
Definition parse_ref (param : string) (ID : option string) : res uuid :=
  match ID with
  | None => Panic nil_pointer
  | Some s => match uuid_FromString s with
              | Some u => Ok u
              | None => Err (BadParameterError param s None None)
              end
  end.
Fixpoint parse_refs (param : string) (valid : uuid → bool) (data : list (option string)) : res (list uuid) :=
  match data with
  | [] => Ok []
  | d :: data =>
      u ← parse_ref param d;
      if valid u then us ← parse_refs param valid data; Ok (u :: us)
      else Err (BadParameterError param (default "" d) None None)
  end.
(** [order]: in which order the range over a set of ids visits them. *)
Context (order : list uuid → list uuid).
Definition convert_assignees (r : Relationships) (t : WorkItem) (d : planner) : res WorkItem :=
  match rel_Assignees r with
  | None => Ok t
  | Some None => Ok (with_Fields (delete SystemAssignees (w_Fields t)) t)
  | Some (Some data) =>
      us ← parse_refs "data.relationships.assignees.data.id" (identity_IsValid (pl_accounts d)) data;
      Ok (with_field SystemAssignees (VStrings (map uuid_String us)) t)
  end.
Definition convert_labels (r : Relationships) (t : WorkItem) (d : planner) : res WorkItem :=
  match rel_Labels r with
  | None => Ok t
  | Some None => Err (BadParameterError "data.relationships.labels.data" "<nil>" None None)
  | Some (Some data) =>
      us ← parse_refs "data.relationships.labels.data.id" (label_IsValid (pl_labels d)) data;
      Ok (with_field SystemLabels (VStrings (map uuid_String (order (remove_dups us)))) t)
  end.
Definition convert_boardcolumns (r : Relationships) (t : WorkItem) : res WorkItem :=
  match rel_Boardcolumns r with
  | None => Ok t
  | Some None => Err (BadParameterError SystemBoardcolumns "<nil>" None None)
  | Some (Some data) =>
      us ← parse_refs SystemBoardcolumns (λ _, true) data;
      Ok (with_field SystemBoardcolumns (VStrings (map uuid_String (order (remove_dups us)))) t)
  end.
(** Whether no value is given: a creation takes the root then, an update only when the data is null. *)
Definition takes_root (method : string) (rel : RelationGeneric) : bool :=
  String.eqb method "POST" || (String.eqb method "PATCH" && match rel with Some None => true | _ => false end).
Definition convert_iteration (method : string) (spaceID : uuid) (r : Relationships) (t : WorkItem) (d : planner) : res WorkItem :=
  match rel_Iteration r with
  | Some (Some ID) =>
      u ← parse_ref "data.relationships.iteration.data.id" ID;
      _ ← replace_err (NotFoundError "data.relationships.iteration.data.id" (default "" ID) None)
            (CheckExists_ u (its (pl_app d)));
      Ok (with_field SystemIteration (VString (uuid_String u)) t)
  | rel =>
      root ← internal (Root_ spaceID (its (pl_app d)));
      Ok (if takes_root method rel then with_field SystemIteration (VString (uuid_String (it_ID root))) t else t)
  end.
Definition area_missing (ID : string) (r : res unit) : res unit :=
  match r with
  | Err e => Err (match Errors.Cause e with
                  | NotFoundError _ _ _ => NotFoundError "data.relationships.area.data.id" ID None
                  | _ => Wrapped "unknown error when verifying the area id %s" e
                  end)
  | r => r
  end.
Definition convert_area (method : string) (spaceID : uuid) (r : Relationships) (t : WorkItem) (d : planner) : res WorkItem :=
  match rel_Area r with
  | Some (Some ID) =>
      u ← parse_ref "data.relationships.area.data.id" ID;
      _ ← area_missing (default "" ID) (area_CheckExists u (pl_areas d));
      Ok (with_field SystemArea (VString (uuid_String u)) t)
  | rel =>
      _ ← internal (space_CheckExists (sps (pl_app d)) spaceID);
      root ← area_Root spaceID (pl_areas d);
      Ok (if takes_root method rel then with_field SystemArea (VString (uuid_String (ar_ID root))) t else t)
  end.
Definition convert_relationships (method : string) (spaceID : uuid) (r : Relationships) (t : WorkItem) (d : planner) : res WorkItem :=
  t ← convert_assignees r t d;
  t ← convert_labels r t d;
  t ← convert_boardcolumns r t;
  t ← convert_iteration method spaceID r t d;
  t ← convert_area method spaceID r t d;
  Ok (match rel_BaseType r with Some (Some ty) => with_Type ty t | _ => t end).

(** ** Attributes *)

Definition description_content (m : MarkupContent) (t : WorkItem) : res WorkItem :=
  match field_of (w_Fields t) SystemDescription with
  | VNil => Ok (with_field SystemDescription (VMarkup m) t)
  | VMarkup e => Ok (with_field SystemDescription (VMarkup {| Content_ := Content_ m; Markup := Markup e |}) t)
  | _ => Panic bad_assertion
  end.
Definition description_markup (markup : string) (t : WorkItem) : res WorkItem :=
  match field_of (w_Fields t) SystemDescription with
  | VNil => Ok (with_field SystemDescription (VMarkup {| Content_ := ""; Markup := markup |}) t)
  | VMarkup e => Ok (with_field SystemDescription (VMarkup {| Content_ := Content_ e; Markup := markup |}) t)
  | _ => Panic bad_assertion
  end.
(** The error of [setupCodebase] is dropped. *)
Definition convert_codebase (now : Time) (newID : uuid) (spaceID : uuid) (val : gval) (t : WorkItem) : plm WorkItem :=
  let* m := s_query (λ _, wrapf "failed to create new codebase from value: %+v" (NewCodebaseContentFromValue val)) in
  match m with
  | None => s_query (λ _, Panic nil_pointer)
  | Some m => λ d, let '(m, _, c) := setupCodebase now newID m spaceID (pl_codebases d) in
                   (Ok (with_field SystemCodebase (VCodebase m) t), set_pl_codebases c d)
  end.
Definition convert_attribute (now : Time) (newID : uuid) (spaceID : uuid) (a : string * gval) (t : WorkItem) : plm WorkItem :=
  let '(key, val) := a in
  if String.eqb key SystemDescription then
    let* m := s_query (λ _, NewMarkupContentFromValue val) in
    match m with
    | Some m => s_query (λ _, description_content m t)
    | None => s_ret t
    end
  else if String.eqb key SystemDescriptionMarkup then
    s_query (λ _, match val with VString markup => description_markup markup t | _ => Panic bad_assertion end)
  else if String.eqb key SystemCodebase then convert_codebase now newID spaceID val t
  else s_ret (with_field key val t).
Fixpoint convert_attributes (now : Time) (newID : uuid) (spaceID : uuid) (l : list (string * gval)) (t : WorkItem) : plm WorkItem :=
  match l with
  | [] => s_ret t
  | a :: l => let* t := convert_attribute now newID spaceID a t in convert_attributes now newID spaceID l t
  end.
Definition check_description (t : WorkItem) : res WorkItem :=
  match field_of (w_Fields t) SystemDescription with
  | VMarkup m => if IsMarkupSupported (Markup m) then Ok t
                 else Err (BadParameterError "data.relationships.attributes[system.description].markup" (Markup m) None None)
  | _ => Ok t
  end.

Definition attribute (l : list (string * gval)) (key : string) : gval := default VNil (map_get l key).
Definition ConvertJSONAPIToWorkItem (now : Time) (newID : uuid) (method : string) (source : AppWorkItem) (target : WorkItem)
    (spaceID : uuid) : plm WorkItem :=
  let* version := s_query (λ _, getVersion (attribute (aw_Attributes source) "version")) in
  let target := with_Version version target in
  let* target := s_query (λ d, match aw_Relationships source with
                               | Some r => convert_relationships method spaceID r target d
                               | None => Ok target
                               end) in
  let* target := convert_attributes now newID spaceID (aw_Attributes source) target in
  s_query (λ _, check_description target).
End Conversion.

(** ** Answers *)

(** [html.EscapeString] *)
Definition escape_char (c : ascii) : string :=
  if Ascii.eqb c "&" then "&amp;" else if Ascii.eqb c "<" then "&lt;" else if Ascii.eqb c ">" then "&gt;"
  else if Nat.eqb (nat_of_ascii c) 39 then "&#39;" else if Nat.eqb (nat_of_ascii c) 34 then "&#34;"
  else String c EmptyString.
Fixpoint EscapeString (s : string) : string :=
  match s with
  | EmptyString => EmptyString
  | String c s => escape_char c +:+ EscapeString s
  end.

Record AppAnswer := {
  an_ID : uuid;
  an_Type : uuid;
  an_Space : uuid;
  an_Attributes : Fields;
  an_Assignees : option (list string);
  an_Labels : option (list string);
  an_Boardcolumns : option (list string);
  an_Creator : option string;
  an_Iteration : option string;
  an_Area : option string;
  an_EditCodebase : option string;
  an_hasChildren : option bool;
  an_Parent : option uuid;
}.
Definition set_attributes (m : Fields) (o : AppAnswer) : AppAnswer :=
  {| an_ID := an_ID o; an_Type := an_Type o; an_Space := an_Space o; an_Attributes := m; an_Assignees := an_Assignees o;
     an_Labels := an_Labels o; an_Boardcolumns := an_Boardcolumns o; an_Creator := an_Creator o;
     an_Iteration := an_Iteration o; an_Area := an_Area o; an_EditCodebase := an_EditCodebase o;
     an_hasChildren := an_hasChildren o; an_Parent := an_Parent o |}.
Definition set_people (assignees labels columns : option (list string)) (creator iteration area : option string)
    (o : AppAnswer) : AppAnswer :=
  {| an_ID := an_ID o; an_Type := an_Type o; an_Space := an_Space o; an_Attributes := an_Attributes o;
     an_Assignees := assignees; an_Labels := labels; an_Boardcolumns := columns; an_Creator := creator;
     an_Iteration := iteration; an_Area := area; an_EditCodebase := an_EditCodebase o;
     an_hasChildren := an_hasChildren o; an_Parent := an_Parent o |}.
Definition set_more (edit : option string) (children : option bool) (parent : option uuid) (o : AppAnswer) : AppAnswer :=
  {| an_ID := an_ID o; an_Type := an_Type o; an_Space := an_Space o; an_Attributes := an_Attributes o;
     an_Assignees := an_Assignees o; an_Labels := an_Labels o; an_Boardcolumns := an_Boardcolumns o;
     an_Creator := an_Creator o; an_Iteration := an_Iteration o; an_Area := an_Area o; an_EditCodebase := edit;
     an_hasChildren := children; an_Parent := parent |}.
Definition add_attribute (key : string) (v : gval) (o : AppAnswer) : AppAnswer :=
  set_attributes (<[key := v]> (an_Attributes o)) o.

Section Answers.
Context {HO : UuidOps} (Sprint : gval → string) (RenderMarkupToHTML : string → string → string).

(** [val.([]interface{})], and what is printed of the elements. *)
Definition slice_of (val : gval) : res (list string) :=
  match val with
  | VSlice l => Ok (map Sprint l)
  | VNilSlice => Ok []
  | _ => Panic bad_assertion
  end.
Definition string_of_val (val : gval) : res string := match val with VString s => Ok s | _ => Panic bad_assertion end.
Definition show_field (name : string) (val : gval) (o : AppAnswer) : res AppAnswer :=
  let skip_nil (f : res AppAnswer) := if is_nil val then Ok o else f in
  if String.eqb name SystemAssignees then
    skip_nil (l ← slice_of val; Ok (set_people (Some l) (an_Labels o) (an_Boardcolumns o) (an_Creator o) (an_Iteration o) (an_Area o) o))
  else if String.eqb name SystemLabels then
    skip_nil (l ← slice_of val; Ok (set_people (an_Assignees o) (Some l) (an_Boardcolumns o) (an_Creator o) (an_Iteration o) (an_Area o) o))
  else if String.eqb name SystemBoardcolumns then
    skip_nil (l ← slice_of val; Ok (set_people (an_Assignees o) (an_Labels o) (Some l) (an_Creator o) (an_Iteration o) (an_Area o) o))
  else if String.eqb name SystemCreator then
    skip_nil (s ← string_of_val val; Ok (set_people (an_Assignees o) (an_Labels o) (an_Boardcolumns o) (Some s) (an_Iteration o) (an_Area o) o))
  else if String.eqb name SystemIteration then
    skip_nil (s ← string_of_val val; Ok (set_people (an_Assignees o) (an_Labels o) (an_Boardcolumns o) (an_Creator o) (Some s) (an_Area o) o))
  else if String.eqb name SystemArea then
    skip_nil (s ← string_of_val val; Ok (set_people (an_Assignees o) (an_Labels o) (an_Boardcolumns o) (an_Creator o) (an_Iteration o) (Some s) o))
  else if String.eqb name SystemTitle then
    s ← string_of_val val; Ok (add_attribute name (VString (EscapeString s)) o)
  else if String.eqb name SystemDescription then
    m ← NewMarkupContentFromValue val;
    Ok (match m with
        | Some m => add_attribute SystemDescriptionRendered (VString (RenderMarkupToHTML (Content_ m) (Markup m)))
                      (add_attribute SystemDescriptionMarkup (VString (Markup m))
                         (add_attribute name (VString (Content_ m)) o))
        | None => o
        end)
  else if String.eqb name SystemCodebase then
    skip_nil (match val with
              | VCodebase cb => Ok (set_more (Some (CodebaseID cb)) (an_hasChildren o) (an_Parent o) (add_attribute name val o))
              | _ => Panic bad_assertion
              end)
  else Ok (add_attribute name val o).
Fixpoint show_fields (l : list (string * gval)) (o : AppAnswer) : res AppAnswer :=
  match l with
  | [] => Ok o
  | (name, val) :: l => o ← show_field name val o; show_fields l o
  end.
Definition blank_answer (wi : WorkItem) : AppAnswer :=
  {| an_ID := w_ID wi; an_Type := w_Type wi; an_Space := w_SpaceID wi;
     an_Attributes := <[SystemNumber := VInt (w_Number wi)]> {[ SystemVersion := VInt (w_Version wi) ]};
     an_Assignees := None; an_Labels := None; an_Boardcolumns := None; an_Creator := None; an_Iteration := None;
     an_Area := None; an_EditCodebase := None; an_hasChildren := None; an_Parent := None |}.
(** [fields]: the fields of the item in the order the range visits them. *)
Notation ConvertFunc := (WorkItem → AppAnswer → res AppAnswer).
Fixpoint run_additional (wi : WorkItem) (additional : list ConvertFunc) (o : AppAnswer) : res AppAnswer :=
  match additional with
  | [] => Ok o
  | add :: additional => o ← wrapf "failed to run additional conversion function" (add wi o); run_additional wi additional o
  end.
Definition ConvertWorkItem (fields : Fields → list (string * gval)) (wi : WorkItem) (additional : list ConvertFunc) : res AppAnswer :=
  o ← show_fields (fields (w_Fields wi)) (blank_answer wi);
  run_additional wi additional o.
Fixpoint convert_each (fields : Fields → list (string * gval)) (wis : list WorkItem) (additional : list ConvertFunc)
    : res (list AppAnswer) :=
  match wis with
  | [] => Ok []
  | wi :: wis => o ← wrapf "failed to convert work item: %s" (ConvertWorkItem fields wi additional);
                 os ← convert_each fields wis additional;
                 Ok (o :: os)
  end.
Definition ConvertWorkItems (fields : Fields → list (string * gval)) (wits : list WorkItemType) (wis : list WorkItem)
    (additional : list ConvertFunc) : res (list AppAnswer) :=
  if negb (Nat.eqb (length wits) (length wis))
  then Err (Plain "length mismatch of work items (%d) and work item types (%d)")
  else convert_each fields wis additional.

Definition workItemIncludeHasChildren (d : LinkRepository.db) (childLinks : option (list WorkItemLink)) : ConvertFunc := λ wi o,
  let known := match childLinks with
               | Some l => existsb (λ l, bool_decide (LinkTypeID l = LinkRepository.SystemWorkItemLinkTypeParentChildID)
                                         && bool_decide (SourceID l = w_ID wi)) l
               | None => false
               end in
  Ok (set_more (an_EditCodebase o) (Some (known || WorkItemHasChildren d (w_ID wi))) (an_Parent o) o).
Definition includeParentWorkItem (ancestors : list Ancestor) (childLinks : list WorkItemLink) : ConvertFunc := λ wi o,
  let parentID := match GetParentOf ancestors (w_ID wi) with
                  | Some p => Some (a_ID p)
                  | None => let p := GetParentIDOf childLinks (w_ID wi) LinkRepository.SystemWorkItemLinkTypeParentChildID in
                            if bool_decide (p = uuid_Nil) then None else Some p
                  end in
  Ok (set_more (an_EditCodebase o) (an_hasChildren o) (match parentID with Some p => Some p | None => an_Parent o end) o).
End Answers.
