(* ===== verification/WorkItemController.v ===== *)
(** * The requests on work items

    [controller/workitem.go] and [controller/workitems.go]: creating, updating,
    showing, deleting, listing and reordering items.  As for iterations, the
    identity of the user and the answer of the authorization service are
    arguments and [between] is what other requests commit between the
    transactions of a request; notifications are not modelled. *)

From Stdlib Require Import ZArith Lia Ascii String SpecFloat.
From S2P Require Import Errors Paging Spaces Areas Labels Accounts LinkRepository.
From S2P Require Export WorkItemConversion.
Import Transactions Paging.

Definition meanwhile_ (between : planner → planner) : plm unit := λ d, (Ok tt, between d).
Definition current_user (identity : res uuid) : res uuid :=
  match identity with Err e => Err (UnauthorizedError (Errors.ErrorMsg e)) | r => r end.

Section Controller.
Context {HO : UuidOps} (IsURL : string → bool).
Context (time_json : Z → string) (struct_json : string → option gval).
Context (Sprint : gval → string) (RenderMarkupToHTML : string → string → string).
Context (related : planner → related_rows) (fields : Fields → list (string * gval)) (order : list uuid → list uuid).
Context (authorize : string → res bool).
Notation LoadType id := (on_items_of (on_types (WorkItemTypes.Load time_json struct_json id))).
Notation LoadByID id := (on_items_of (WorkItems.LoadByID time_json struct_json id)).
Notation Convert := (ConvertJSONAPIToWorkItem Sprint order).
Notation Show wi additional := (ConvertWorkItem Sprint RenderMarkupToHTML fields wi additional).

(** ** Who may *)

Definition WorkitemCreatorOrSpaceOwner (spaceID creatorID editorID : uuid) (d : planner) : res unit :=
  if bool_decide (editorID = creatorID) then Ok tt
  else match space_Load (sps (pl_app d)) spaceID with
       | Ok space => if bool_decide (editorID = OwnerID space) then Ok tt
                     else Err (ForbiddenError "user is not a workitem creator or space owner")
       | _ => Err (NotFoundError "space" (uuid_String spaceID) None)
       end.
Definition authorizeWorkitemEditor (spaceID : uuid) (creatorID editorID : string) : res bool :=
  if String.eqb editorID creatorID then Ok true
  else match authorize (uuid_String spaceID) with
       | Err e => Err (UnauthorizedError (Errors.ErrorMsg e))
       | r => r
       end.
Definition not_authorized : error := ForbiddenError "user is not authorized to access the space".
(** The text of the creator and the id in it. *)
Definition creator_of (wi : WorkItem) : res (string * uuid) :=
  match field_of (w_Fields wi) SystemCreator with
  | VNil => Err (InternalError (Plain "work item doesn't have creator"))
  | VString s => match uuid_FromString s with
                 | Some u => Ok (s, u)
                 | None => Err (Plain "uuid: incorrect UUID")
                 end
  | _ => Err (Plain "failed to convert user to string: %+v (%[1]T)")
  end.

(** ** Updating *)

Definition no_relationship (r : Relationships) : bool :=
  match r with
  | {| rel_Assignees := None; rel_Labels := None; rel_Boardcolumns := None; rel_Iteration := None; rel_Area := None;
       rel_others := false |} => true
  | _ => false
  end.
Definition without_version (l : list (string * gval)) : list (string * gval) :=
  List.filter (λ a, negb (String.eqb a.1 SystemVersion)) l.
(** The payload to go on with: the version is taken out and put back. *)
Definition check_type_change (wi : WorkItem) (creatorID user : uuid) (source : AppWorkItem) (d : planner) : res AppWorkItem :=
  match aw_Relationships source with
  | Some r =>
      match rel_BaseType r with
      | Some (Some ty) =>
          if bool_decide (ty = w_Type wi) then Ok source
          else
            _ ← WorkitemCreatorOrSpaceOwner (w_SpaceID wi) creatorID user d;
            let newVersion := attribute (aw_Attributes source) SystemVersion in
            let others := without_version (aw_Attributes source) in
            if negb (no_relationship r) || negb (Nat.eqb (length others) 0)
            then Err (BadParameterError "" "" None (Some "cannot update type along with other fields"))
            else Ok {| aw_ID := aw_ID source; aw_Attributes := [(SystemVersion, newVersion)]; aw_Relationships := Some r |}
      | _ => Ok source
      end
  | None => Ok source
  end.
Definition update_in_db (now : Time) (newID : uuid) (source : AppWorkItem) (wi : WorkItem) (user : uuid)
    : plm (WorkItem * Revision) :=
  let* target := Convert now newID "PATCH" source wi (w_SpaceID wi) in
  let target := with_Number (w_Number wi) target in
  s_map (wrapf "Error updating work item")
    (λ d, on_items_of (WorkItems.Save IsURL time_json struct_json Sprint (related d) now (w_SpaceID target) target user) d).
(** What is answered after an item was written. *)
Definition answer_with (childLinks : option (list WorkItemLink)) (wi : WorkItem) : plm AppAnswer :=
  s_query (λ d, Show wi [workItemIncludeHasChildren (links_view d) childLinks]).
Definition Update (now : Time) (newID : uuid) (between : planner → planner) (identity : res uuid)
    (payload : option AppWorkItem) : plm AppAnswer :=
  let* p := s_query (λ _, match payload with
                          | Some source => match aw_ID source with Some ID => Ok (source, ID) | None => Err (BadParameterError "missing data.ID element in request" "<nil>" None None) end
                          | None => Err (BadParameterError "missing data.ID element in request" "<nil>" None None)
                          end) in
  let '(source, ID) := p in
  let* user := s_query (λ _, current_user identity) in
  let* wi := transact (LoadByID ID) in
  let* c := s_query (λ _, creator_of wi) in
  let* authorized := s_query (λ _, authorizeWorkitemEditor (w_SpaceID wi) c.1 (uuid_String user)) in
  let* _ := s_query (λ _, if negb authorized then Err not_authorized else Ok tt) in
  let* source := s_query (check_type_change wi c.2 user source) in
  let* _ := meanwhile_ between in
  let* r := transact (update_in_db now newID source wi user) in
  let* _ := s_map (wrapf "failed to load work item type: %s") (LoadType (w_Type r.1)) in
  answer_with None r.1.

(** ** Showing, deleting *)

Definition Show_item (between : planner → planner) (wiID : uuid) : plm AppAnswer :=
  let* wi := transact (
    let* wi := s_map (wrapf "Fail to load work item with id %v") (LoadByID wiID) in
    let* _ := s_map (wrapf "failed to load work item type: %s") (LoadType (w_Type wi)) in
    s_ret wi) in
  let* _ := meanwhile_ between in
  answer_with None wi.
Definition forbidden_to_delete (r : res unit) : res unit :=
  match r with
  | Err e => Err (match Errors.Cause e with
                  | ForbiddenError _ => ForbiddenError "user is not authorized to delete the workitem"
                  | _ => e
                  end)
  | r => r
  end.
Definition delete_in_db (now : Time) (wiID user : uuid) : plm unit :=
  let* _ := s_map (wrapf "failed to delete work item links related to work item %s")
              (on_links time_json struct_json (λ HW, DeleteRelatedLinks (HW := HW) now wiID user)) in
  s_map (wrapf "error deleting work item %s") (on_items_of (WorkItems.Delete time_json struct_json now wiID user)).
Definition Delete_item (now : Time) (between : planner → planner) (identity : res uuid) (wiID : uuid) : plm unit :=
  let* user := s_query (λ _, current_user identity) in
  let* wi := transact (s_map (wrapf "Fail to load work item with id %v") (LoadByID wiID)) in
  let* c := s_query (λ _, creator_of wi) in
  let* _ := s_query (λ d, forbidden_to_delete (WorkitemCreatorOrSpaceOwner (w_SpaceID wi) c.2 user d)) in
  let* _ := meanwhile_ between in
  transact (delete_in_db now wiID user).

(** ** Creating *)

(** Anyone may create items in the spaces of these two users. *)
Definition open_owners : list string := ["7b50ddb4-5e12-4031-bca7-3b88f92e2339"; "ae68a343-c866-430c-b6ce-a36f0b38d8e5"].
Definition may_create (space : Space) : res unit :=
  if existsb (String.eqb (uuid_String (OwnerID space))) open_owners then Ok tt
  else match authorize (uuid_String (sp_ID space)) with
       | Ok true => Ok tt
       | Ok false => Err not_authorized
       | Err e => Err (InternalError e)
       | Panic m => Panic m
       end.
Definition base_type (payload : option AppWorkItem) : res (AppWorkItem * uuid) :=
  match payload with
  | Some source =>
      match aw_Relationships source with
      | Some r => match rel_BaseType r with
                  | Some (Some ty) => Ok (source, ty)
                  | _ => Err (BadParameterError "Data.Relationships.BaseType.Data.ID" "<nil>" None None)
                  end
      | None => Err (BadParameterError "Data.Relationships.BaseType.Data.ID" "<nil>" None None)
      end
  | None => Err (BadParameterError "Data.Relationships.BaseType.Data.ID" "<nil>" None None)
  end.
Definition blank_item : WorkItem :=
  {| w_ID := uuid_Nil; w_Number := 0; w_Type := uuid_Nil; w_Version := 0; w_SpaceID := uuid_Nil; w_Fields := ∅;
     w_relationShipsChangedAt := None |}.
Definition create_in_db (now : Time) (newID newID' : uuid) (source : AppWorkItem) (wit spaceID user : uuid)
    : plm (WorkItem * Revision) :=
  let* _ := s_query (λ d, space_CheckExists (sps (pl_app d)) spaceID) in
  let* wi := s_map (wrapf "Error creating work item") (Convert now newID' "POST" source blank_item spaceID) in
  s_map (wrapf "Error creating work item")
    (on_items_of (WorkItems.Create IsURL time_json struct_json now newID spaceID wit (w_Fields wi) user)).
Definition Create_item (now : Time) (newID newID' : uuid) (between : planner → planner) (identity : res uuid)
    (spaceID : uuid) (payload : option AppWorkItem) : plm AppAnswer :=
  let* user := s_query (λ _, current_user identity) in
  let* space := transact (s_query (λ d,
    replace_err (BadParameterError "space" (uuid_String spaceID) (Some "valid space ID") None)
      (space_Load (sps (pl_app d)) spaceID))) in
  let* _ := s_query (λ _, may_create space) in
  let* p := s_query (λ _, base_type payload) in
  let* _ := meanwhile_ between in
  let* r := transact (create_in_db now newID newID' p.1 p.2 spaceID user) in
  let* _ := LoadType p.2 in
  answer_with None r.1.

(** ** Reordering *)

(** The item of the given number is only looked for in the space of the request. *)
Definition reorder_one (now : Time) (newID : uuid) (spaceID : uuid) (direction : DirectionType) (targetID : option uuid) (user : uuid)
    (source : AppWorkItem) : plm AppAnswer :=
  let* ID := s_query (λ _, match aw_ID source with Some ID => Ok ID | None => Panic nil_pointer end) in
  let* wi := s_map (wrapf "failed to reorder work item") (LoadByID ID) in
  let* _ := s_map (replace_err (NotFoundError "work item" (Itoa (w_Number wi)) None))
              (on_items_of (LoadWorkItem time_json struct_json spaceID (w_Number wi))) in
  let* wi := s_map (wrapf "failed to reorder work item") (Convert now newID "PATCH" source wi spaceID) in
  let* wi := on_items_of (WorkItems.Reorder IsURL time_json struct_json now spaceID direction targetID wi user) in
  let* _ := s_map with_stack (LoadType (w_Type wi)) in
  s_map with_stack (answer_with None wi).
Fixpoint reorder_each (now : Time) (newID : uuid) (spaceID : uuid) (direction : DirectionType) (targetID : option uuid) (user : uuid)
    (data : list AppWorkItem) : plm (list AppAnswer) :=
  match data with
  | [] => s_ret []
  | source :: data =>
      let* a := reorder_one now newID spaceID direction targetID user source in
      let* l := reorder_each now newID spaceID direction targetID user data in
      s_ret (a :: l)
  end.
Definition Reorder_items (now : Time) (newID : uuid) (identity : res uuid) (spaceID : uuid) (data : option (list AppWorkItem))
    (position : option (DirectionType * option uuid)) : plm (list AppAnswer) :=
  let* user := s_query (λ _, current_user identity) in
  let* _ := s_query (λ _, match authorize (uuid_String spaceID) with
                          | Ok true => Ok tt
                          | Ok false => Err not_authorized
                          | Err e => Err (UnauthorizedError (Errors.ErrorMsg e))
                          | Panic m => Panic m
                          end) in
  match data, position with
  | Some data, Some (direction, targetID) => transact (reorder_each now newID spaceID direction targetID user data)
  | _, _ => s_fail (BadParameterError "missing payload element in request" "<nil>" None None)
  end.
End Controller.

(** ** Listing *)

(** [query.Parse], given what [json.Unmarshal] makes of a text that is not empty. *)
Definition field_is (kv : string * literal) : Expression := Equals (Field kv.1) (Literal kv.2).
Definition simple_Parse (exp : option (res (list (string * literal)))) : res Expression :=
  match exp with
  | None => Ok (Literal (LBool true))
  | Some unmarshalled =>
      l ← with_stack unmarshalled;
      Ok (match l with
          | [] => Literal (LBool true)
          | kv :: l => fold_left (λ e kv, And e (field_is kv)) l (field_is kv)
          end)
  end.
Record list_filters := {
  lf_Filter : option (res (list (string * literal)));
  lf_Expression : option string;
  lf_Assignee : option string;
  lf_Iteration : option string;
  lf_Workitemtype : option uuid;
  lf_Area : option string;
  lf_Workitemstate : option string;
  lf_Parentexists : option bool;
  lf_Offset : option string;
  lf_Limit : option Z;
  lf_Sort : option string;
}.
(** A redirection to the search, or a list with its total.  An error of the lookup of child iterations is written as
    an answer, and the list follows it. *)
Inductive list_reply :=
  | Redirected (url : string)
  | Listed (already_written : option error) (result : res (list AppAnswer * Z * list string)).

Section Listing.
Context {HO : UuidOps} (time_json : Z → string) (struct_json : string → option gval).
Context (Sprint : gval → string) (RenderMarkupToHTML : string → string → string).
Context (fields : Fields → list (string * gval)) (FormatShortest : float64 → string) (HasColumn : string → string → bool).
Context {RO : RowOrder} (selects : compiled → wi_db → selection) (ks ks' ks'' : list string) (SearchHref : string).

Definition child_iterations (iteration : string) (d : planner) : res (list Iteration) :=
  match uuid_FromString iteration with
  | Some u => wrapf "Unable to fetch children" (LoadChildren u (its (pl_app d)))
  | None => Err (Wrapped "Invalid iteration ID" (Plain "uuid: incorrect UUID"))
  end.
Definition with_assignee (assignee : option string) (exp : Expression) : Expression * list string :=
  match assignee with
  | Some a => if String.eqb a "none" then (And exp (IsNull SystemAssignees), ["filter[assignee]=none"])
              else (And exp (Equals (Field SystemAssignees) (Literal (LStrings [a]))), ["filter[assignee]=" +:+ a])
  | None => (exp, [])
  end.
Definition in_iteration_ (id : string) : Expression := Equals (Field SystemIteration) (Literal (LString id)).
Definition with_iteration (iteration : option string) (d : planner) (exp : Expression) : Expression * list string * option error :=
  match iteration with
  | Some i =>
      let exp := And exp (in_iteration_ i) in
      match child_iterations i d with
      | Ok children =>
          let ids := map (λ c, uuid_String (it_ID c)) children in
          (fold_left (λ e id, Or e (in_iteration_ id)) ids exp, map (String.append "filter[iteration]=") (i :: ids), None)
      | Err e => (exp, ["filter[iteration]=" +:+ i], Some e)
      | Panic m => (exp, ["filter[iteration]=" +:+ i], None)
      end
  | None => (exp, [], None)
  end.
Definition with_equals (field : string) (prefix : string) (value : option string) (exp : Expression) : Expression * list string :=
  match value with
  | Some v => (And exp (Equals (Field field) (Literal (LString v))), [prefix +:+ v])
  | None => (exp, [])
  end.
Definition with_type (ty : option uuid) (exp : Expression) : Expression * list string :=
  match ty with
  | Some t => (And exp (Equals (Field "Type") (Literal (LUUIDs [t]))), ["filter[workitemtype]=" +:+ uuid_String t])
  | None => (exp, [])
  end.
Definition list_expression (f : list_filters) (d : planner) (exp : Expression) : Expression * list string * option error :=
  let '(exp, q1) := with_assignee (lf_Assignee f) exp in
  let '(exp, q2, early) := with_iteration (lf_Iteration f) d exp in
  let '(exp, q3) := with_type (lf_Workitemtype f) exp in
  let '(exp, q4) := with_equals SystemArea "filter[area]=" (lf_Area f) exp in
  let '(exp, q5) := with_equals SystemState "filter[workitemstate]=" (lf_Workitemstate f) exp in
  let q6 := match lf_Parentexists f with Some b => ["filter[parentexists]=" +:+ FormatBool b] | None => [] end in
  (exp, q1 ++ q2 ++ q3 ++ q4 ++ q5 ++ q6, early).
Definition redirection (spaceID : uuid) (q : string) : string :=
  SearchHref +:+ "?filter[expression]={" +:+ dquote +:+ AND +:+ dquote +:+ ":[{" +:+ dquote +:+ "space" +:+ dquote +:+ ": "
  +:+ dquote +:+ uuid_String spaceID +:+ dquote +:+ " }, " +:+ q +:+ "]}".

(** The types of the items, one after the other. *)
Fixpoint loadWorkItemTypesFromArr (wis : list WorkItem) : plm (list WorkItemType) :=
  match wis with
  | [] => s_ret []
  | wi :: wis =>
      let* t := s_map (wrapf "failed to load the work item type: %s")
                  (on_items_of (on_types (WorkItemTypes.Load time_json struct_json (w_Type wi)))) in
      let* ts := loadWorkItemTypesFromArr wis in
      s_ret (t :: ts)
  end.
Definition list_in_db (spaceID : uuid) (exp : Expression) (parentExists : option bool) (offset limit : Z) (sort : string)
    : plm (list WorkItem * Z) := λ d,
  let '(r, l) := wi_List time_json struct_json FormatShortest HasColumn selects ks ks' ks'' spaceID exp parentExists
                   (Some offset) (Some limit) sort {| ls_items := pl_wis d; ls_links := links_view d |} in
  (r, (on_items_of (λ _, (Ok tt, ls_items l)) d).2).
Definition list_items (f : list_filters) (spaceID : uuid) (exp : Expression) : plm (list AppAnswer * Z) :=
  let '(offset, limit) := computePagingLimits (lf_Offset f) (lf_Limit f) in
  let* sort := s_query (λ _, ParseSortWorkItemsBy (lf_Sort f)) in
  let* p := transact (s_map (wrapf "Error listing work items")
                        (list_in_db spaceID exp (lf_Parentexists f) offset limit sort)) in
  let* wits := loadWorkItemTypesFromArr p.1 in
  let* converted := s_query (λ d, ConvertWorkItems Sprint RenderMarkupToHTML fields wits p.1
                                    [workItemIncludeHasChildren (links_view d) None]) in
  s_ret (converted, p.2).
Definition List_request (f : list_filters) (spaceID : uuid) (d : planner) : list_reply * planner :=
  match simple_Parse (lf_Filter f) with
  | Err e => (Listed None (Err (BadParameterError "could not parse filter" (Errors.ErrorMsg e) None None)), d)
  | Panic m => (Listed None (Panic m), d)
  | Ok exp =>
      match lf_Expression f with
      | Some q => (Redirected (redirection spaceID q), d)
      | None =>
          let '(exp, additionalQuery, early) := list_expression f d exp in
          let '(r, d') := list_items f spaceID exp d in
          (Listed early (p ← r; Ok (p.1, p.2, additionalQuery)), d')
      end
  end.
End Listing.
