(* ===== verification/WorkItemRequests.v ===== *)
(** * What the requests on work items do

    A request reads in quiet transactions, which change nothing but the cache of
    types, and writes in one last transaction: who may update or delete an
    item, what a deletion leaves, and what a refused request leaves. *)

From Stdlib Require Import ZArith Lia Ascii String SpecFloat.
From S2P Require Import Errors Paging Spaces Areas Labels Accounts LinkRepository.
From S2P Require Import LinkInvariant IterationRequests.
From S2P Require Export WorkItemInvariant WorkItemController.
Import Transactions.

(** ** Quiet statements *)

Record same_planner (d d' : planner) : Prop := {
  sm_items : same_tables (pl_wis d) (pl_wis d');
  sm_its : its (pl_app d') = its (pl_app d);
  sm_sps : sps (pl_app d') = sps (pl_app d);
  sm_links : links (pl_links d') = links (pl_links d);
  sm_link_types : link_types (pl_links d') = link_types (pl_links d);
  sm_areas : pl_areas d' = pl_areas d;
  sm_labels : pl_labels d' = pl_labels d;
  sm_accounts : pl_accounts d' = pl_accounts d;
  sm_codebases : pl_codebases d' = pl_codebases d;
}.
#[export] Instance same_planner_refl : Reflexive same_planner.
Proof. intros d. by repeat split. Qed.
#[export] Instance same_planner_trans : Transitive same_planner.
Proof.
  intros d1 d2 d3 H1 H2. split; [by eapply same_tables_trans; apply sm_items|..].
  all: destruct H1, H2; congruence.
Qed.
#[export] Instance same_tables_refl : Reflexive same_tables.
Proof. by repeat split. Qed.
#[export] Instance same_tables_trans' : Transitive same_tables.
Proof. intros d1 d2 d3. apply same_tables_trans. Qed.

(** Transactions keep what their statements keep. *)
Section Keeps.
Context {S : Type} (R : S → S → Prop) `{!Reflexive R}.
Lemma keeps_transact {A} (m : S → res A * S) : keeps R m → keeps R (transact m).
Proof. intros Hm d. unfold transact. specialize (Hm d). destruct (m d) as [[a|e|p] d1]; done. Qed.
Lemma keeps_transact_ok {A} (m : S → res A * S) : (∀ d a d', m d = (Ok a, d') → R d d') → keeps R (transact m).
Proof.
  intros Hm d. unfold transact. specialize (Hm d). destruct (m d) as [[a|e|p] d1]; [by eapply Hm|done..].
Qed.
End Keeps.
#[export] Hint Resolve keeps_transact : quiet.
Notation quiet := (keeps same_planner).

Lemma on_items_of_ok {A} (m : wstm A) d r d' : on_items_of m d = (r, d') → m (pl_wis d) = (r, pl_wis d') ∧
  its (pl_app d') = its (pl_app d) ∧ sps (pl_app d') = sps (pl_app d) ∧ pl_links d' = pl_links d ∧
  pl_areas d' = pl_areas d ∧ pl_labels d' = pl_labels d ∧ pl_accounts d' = pl_accounts d ∧
  pl_codebases d' = pl_codebases d.
Proof. unfold on_items_of, on_wis. unfold pl_wis. destruct (m (wis (pl_app d))) as [x t]. by intros [= <- <-]. Qed.
Lemma quiet_items {A} (m : wstm A) : keeps same_tables m → quiet (on_items_of m).
Proof.
  intros Hm d. destruct (on_items_of m d) as [r d'] eqn:E.
  apply on_items_of_ok in E as (E & H1 & H2 & H3 & H4 & H5 & H6 & H7). apply (keeps_at _ _ _ _ _ Hm) in E.
  split; simpl; congruence || done.
Qed.
Lemma on_types_keeps {A} (m : tstm A) : keeps same_tables (on_types m).
Proof. intros d. destruct (on_types m d) as [r d'] eqn:E. by apply on_types_same in E. Qed.
#[export] Hint Resolve quiet_items on_types_keeps : quiet.

(** ** Deleted links *)

Section Links.
Context {HO : UuidOps}.

(** The soft deletion of the live links with one of the ids. *)
Definition drop_links (now : Time) (ids : list uuid) (l : WorkItemLink) : WorkItemLink :=
  if bool_decide (l_ID l ∈ ids) then LinkRepository.soft_delete now (l_ID l) l else l.
Lemma link_delete_live now ID l : l_live (LinkRepository.soft_delete now ID l) = l_live l && negb (bool_decide (l_ID l = ID)).
Proof. unfold LinkRepository.soft_delete. destruct (l_live l) eqn:E; simpl; [|done]. by case_bool_decide. Qed.
Lemma link_delete_dead now ID l : l_live l = false → LinkRepository.soft_delete now ID l = l.
Proof. unfold LinkRepository.soft_delete. by intros ->. Qed.
Lemma link_delete_id now ID l : l_ID (LinkRepository.soft_delete now ID l) = l_ID l.
Proof. unfold LinkRepository.soft_delete. by destruct (_ && _). Qed.
Lemma drop_links_cons now ID ids l : drop_links now ids (LinkRepository.soft_delete now ID l) = drop_links now (ID :: ids) l.
Proof.
  unfold drop_links. rewrite link_delete_id. destruct (decide (l_ID l = ID)) as [<-|Hne].
  - rewrite (bool_decide_true (l_ID l ∈ l_ID l :: _)) by left.
    case_bool_decide; [|done]. apply link_delete_dead. rewrite link_delete_live, bool_decide_true by done.
    apply andb_false_r.
  - assert (LinkRepository.soft_delete now ID l = l) as -> by (unfold LinkRepository.soft_delete; by rewrite bool_decide_false, andb_false_r).
    rewrite (bool_decide_ext (l_ID l ∈ ID :: ids) (l_ID l ∈ ids)) by (rewrite elem_of_cons; naive_solver). done.
Qed.
Lemma deleteLink_links {HW : WorkItemAccess} now who l d :
  links (deleteLink_ignored now l who d).2 = map (LinkRepository.soft_delete now (l_ID l)) (links d).
Proof.
  unfold deleteLink_ignored, deleteLink. destruct (existsb _ (links d)) eqn:E; [done|]. simpl.
  symmetry. erewrite map_ext_in; [apply map_id|]. intros x Hx. unfold LinkRepository.soft_delete.
  destruct (_ && _) eqn:E2; [|done]. assert (existsb (λ l0, l_live l0 && bool_decide (l_ID l0 = l_ID l)) (links d) = true).
  { apply existsb_exists. by exists x. } congruence.
Qed.
Lemma delete_each_links {HW : WorkItemAccess} now who l : ∀ locked d u d', delete_each now who locked l d = (Ok u, d') →
  links d' = map (drop_links now (map l_ID l)) (links d).
Proof.
  induction l as [|x l IH]; intros locked d u d' H; cbn [delete_each] in H.
  - stm_inv. symmetry. erewrite map_ext; [apply map_id|done].
  - apply s_bind_ok in H as (? & d1 & H1 & H). apply s_bind_ok in H as (? & d2 & H2 & H).
    assert (d1 = d) as -> by (pose proof (lock_once_db locked x d) as E; by rewrite H1 in E).
    apply IH in H. pose proof (deleteLink_links now who x d) as E. rewrite H2 in E. simpl in E.
    rewrite H, E, map_map. apply map_ext. intros y. apply drop_links_cons.
Qed.
Lemma DeleteRelatedLinks_links {HW : WorkItemAccess} now id who d u d' : DeleteRelatedLinks now id who d = (Ok u, d') →
  links d' = map (drop_links now (map l_ID (List.filter (λ l, l_live l && LinkRepository.related id l) (links d)))) (links d).
Proof. unfold DeleteRelatedLinks. intros H. stm_inv. simplify_eq. by eapply delete_each_links. Qed.
Lemma dropped_related now id ls l : l ∈ map (drop_links now (map l_ID (List.filter (λ l, l_live l && LinkRepository.related id l) ls))) ls →
  l_live l = true → LinkRepository.related id l = false.
Proof.
  intros (x & Hx & ->)%elem_of_map_image Hl. unfold drop_links in *. case_bool_decide as Hin.
  - rewrite link_delete_live, bool_decide_true, andb_false_r in Hl by done. done.
  - destruct (LinkRepository.related id x) eqn:E; [|done]. destruct Hin. apply elem_of_map_image. exists x.
    split; [|done]. apply elem_of_bfilter. by rewrite Hl, E.
Qed.
End Links.

Section Requests.
Context {HO : UuidOps} (IsURL : string → bool).
Context (time_json : Z → string) (struct_json : string → option gval).
Context (Sprint : gval → string) (RenderMarkupToHTML : string → string → string).
Context (related : planner → related_rows) (fields : Fields → list (string * gval)) (order : list uuid → list uuid).
Context (authorize : string → res bool).
Notation LoadType id := (on_items_of (on_types (WorkItemTypes.Load time_json struct_json id))).
Notation LoadByID id := (on_items_of (WorkItems.LoadByID time_json struct_json id)).

Lemma LoadByID_quiet id : quiet (LoadByID id).
Proof. clear. apply quiet_items. unfold WorkItems.LoadByID. eauto 10 with quiet typeclass_instances. Qed.
Notation loaded d id wi := ((WorkItems.LoadByID time_json struct_json id (pl_wis d)).1 = Ok wi).
Lemma transact_loaded id d wi d' : transact (LoadByID id) d = (Ok wi, d') → loaded d id wi.
Proof. clear. rewrite transact_ok. intros [E _]%on_items_of_ok. by rewrite E. Qed.

(** ** Deleting *)

(** What a deletion leaves: the row of the item and every link that touches it are gone, and nothing else is
    different but the revisions. *)
Record item_deleted (now : Time) (wiID user : uuid) (d d' : planner) : Prop := {
  del_rows : rows (pl_wis d') = map (soft_delete_row now wiID) (rows (pl_wis d));
  del_revs : ∃ w, w ∈ rows (pl_wis d) ∧ s_live w = true ∧ s_ID w = wiID ∧
               revs (pl_wis d') = revs (pl_wis d) ++ [revision_of now user RevisionTypeDelete w ∅];
  del_links : links (pl_links d') = map (drop_links now (map l_ID (List.filter (λ l, l_live l && LinkRepository.related wiID l)
                                                                     (links (pl_links d))))) (links (pl_links d));
  del_rest : its (pl_app d') = its (pl_app d) ∧ sps (pl_app d') = sps (pl_app d) ∧ pl_areas d' = pl_areas d ∧
             pl_labels d' = pl_labels d ∧ pl_accounts d' = pl_accounts d ∧ pl_codebases d' = pl_codebases d;
}.
Lemma delete_in_db_deletes now wiID user d u d' :
  delete_in_db time_json struct_json now wiID user d = (Ok u, d') → item_deleted now wiID user d d'.
Proof.
  clear. unfold delete_in_db. intros H. stm_inv.
  match goal with H1 : on_links _ _ _ _ = _, H2 : on_items_of _ _ = _ |- _ => rename H1 into HL; rename H2 into HI end.
  unfold on_links in HL. destruct (DeleteRelatedLinks _ _ _ _) as [r t] eqn:E. simplify_eq.
  apply DeleteRelatedLinks_links in E. apply on_items_of_ok in HI as (HI & H1 & H2 & H3 & H4 & H5 & H6 & H7).
  apply Delete_effect in HI as (w & Hw & Hlive & Hid & Hrows & Hrevs & _).
  split; [exact Hrows|by exists w|by rewrite H3|done].
Qed.
Lemma item_deleted_gone now wiID user d d' : item_deleted now wiID user d d' →
  (∀ w, w ∈ rows (pl_wis d') → s_ID w = wiID → s_live w = false) ∧
  (∀ l, l ∈ links (pl_links d') → l_live l = true → SourceID l ≠ wiID ∧ TargetID l ≠ wiID).
Proof.
  clear. intros [Hr _ Hl _]. split.
  - intros w Hw. rewrite Hr in Hw. apply elem_of_map_image in Hw as (x & _ & ->). unfold soft_delete_row.
    destruct (s_live x) eqn:E; simpl; [|done]. case_bool_decide; [done|]. intros Hid. congruence.
  - intros l Hin Hlive. rewrite Hl in Hin. apply dropped_related in Hin; [|done].
    unfold LinkRepository.related in Hin. apply bool_decide_eq_false in Hin. set_solver.
Qed.

(** The creator of the item or the owner of its space. *)
Definition creator_or_owner (wi : WorkItem) (user : uuid) (d : planner) : Prop :=
  ∃ c, creator_of wi = Ok c ∧
    (c.2 = user ∨ ∃ space, space_Load (sps (pl_app d)) (w_SpaceID wi) = Ok space ∧ OwnerID space = user).
Lemma WorkitemCreatorOrSpaceOwner_ok sp creator editor d u : WorkitemCreatorOrSpaceOwner sp creator editor d = Ok u →
  creator = editor ∨ ∃ space, space_Load (sps (pl_app d)) sp = Ok space ∧ OwnerID space = editor.
Proof.
  clear. unfold WorkitemCreatorOrSpaceOwner. case_bool_decide; [by left|]. destruct (space_Load _ _) as [space|e|m]; [|done..].
  case_bool_decide; [|done]. right. by exists space.
Qed.
Lemma current_user_ok identity user : current_user identity = Ok user → identity = Ok user.
Proof. clear. by destruct identity. Qed.
Lemma forbidden_to_delete_ok r u : forbidden_to_delete r = Ok u → r = Ok u.
Proof. clear. by destruct r. Qed.

(** C13: An item is deleted only when it was found and the user is its creator or owns its space; then the item and all its links
    are deleted, over what the others committed in the meantime, and otherwise the request changes nothing. *)
Theorem Delete_item_effect now between identity wiID d r d'
    (H : Delete_item time_json struct_json now between identity wiID d = (r, d')) :
  ∃ d1, same_planner d d1 ∧
    match r with
    | Ok _ => ∃ user wi, identity = Ok user ∧ loaded d wiID wi ∧ creator_or_owner wi user d ∧
                item_deleted now wiID user (between d1) d'
    | _ => d' = d1 ∨ d' = between d1
    end.
Proof.
  unfold Delete_item, s_bind, s_query, meanwhile_ in H.
  destruct (current_user identity) as [user|e|m] eqn:Eu; [|exists d; injection H as <- <-; by split; [|left]..].
  destruct (transact _ d) as [[wi|e|m] d1] eqn:El.
  2-3: exists d1; split; [|injection H as <- <-; by left]; eapply keeps_at, El; eauto 20 using LoadByID_quiet with quiet typeclass_instances.
  exists d1. assert (Hd1 : same_planner d d1).
  { eapply keeps_at, El. eauto 20 using LoadByID_quiet with quiet typeclass_instances. }
  split; [exact Hd1|].
  destruct (creator_of wi) as [c|e|m] eqn:Ec; [|injection H as <- <-; by left..].
  destruct (forbidden_to_delete _) as [[]|e|m] eqn:Ef; [|injection H as <- <-; by left..].
  destruct r as [u|e|m].
  - exists user, wi. rewrite transact_ok in H. apply delete_in_db_deletes in H.
    rewrite transact_ok in El. stm_inv. split_and!; [by apply current_user_ok| | |done].
    + apply (transact_loaded _ _ _ d1). by rewrite transact_ok.
    + exists c. split; [done|]. apply forbidden_to_delete_ok, WorkitemCreatorOrSpaceOwner_ok in Ef.
      by rewrite <- (sm_sps _ _ Hd1).
  - right. by eapply atomic_transact.
  - right. by eapply atomic_transact.
Qed.

(** ** Updating *)

(** The parts that a request on items never writes. *)
Record rest_kept (d d' : planner) : Prop := {
  rk_its : its (pl_app d') = its (pl_app d);
  rk_sps : sps (pl_app d') = sps (pl_app d);
  rk_links : pl_links d' = pl_links d;
  rk_areas : pl_areas d' = pl_areas d;
  rk_labels : pl_labels d' = pl_labels d;
  rk_accounts : pl_accounts d' = pl_accounts d;
}.
#[local] Instance rest_kept_refl : Reflexive rest_kept.
Proof. by split. Qed.
#[local] Instance rest_kept_trans : Transitive rest_kept.
Proof. intros d1 d2 d3 [] []. split; congruence. Qed.
Definition only_codebases (d d' : planner) : Prop := rest_kept d d' ∧ pl_wis d' = pl_wis d.
#[local] Instance only_codebases_refl : Reflexive only_codebases.
Proof. by repeat split. Qed.
#[local] Instance only_codebases_trans : Transitive only_codebases.
Proof. intros d1 d2 d3 [H1 E1] [H2 E2]. split; [by etrans|congruence]. Qed.
Notation Convert := (ConvertJSONAPIToWorkItem Sprint order).

(** What the conversion of a payload leaves as it is. *)
Definition place_of (w : WorkItem) : uuid * Z * uuid * Z := (w_ID w, w_Number w, w_SpaceID w, w_Version w).
Ltac res_cases H :=
  repeat match type of H with
  | mbind _ _ = Ok _ => let E := fresh "E" in apply bind_ok in H as (? & E & H)
  | context [match ?x with _ => _ end] => destruct x
  | Err _ = Ok _ => discriminate H
  | Panic _ = Ok _ => discriminate H
  | Ok _ = Ok _ => injection H as <-
  end.
Lemma convert_relationships_place method sp r t d w : convert_relationships order method sp r t d = Ok w → place_of w = place_of t.
Proof.
  clear. unfold convert_relationships. intros H.
  apply bind_ok in H as (t1 & H1 & H). apply bind_ok in H as (t2 & H2 & H). apply bind_ok in H as (t3 & H3 & H).
  apply bind_ok in H as (t4 & H4 & H). apply bind_ok in H as (t5 & H5 & H).
  trans (place_of t5); [by res_cases H|]. trans (place_of t4).
  { unfold convert_area in H5. by res_cases H5. }
  trans (place_of t3); [unfold convert_iteration in H4; by res_cases H4|].
  trans (place_of t2); [unfold convert_boardcolumns in H3; by res_cases H3|].
  trans (place_of t1); [unfold convert_labels in H2; by res_cases H2|unfold convert_assignees in H1; by res_cases H1].
Qed.
Lemma convert_attributes_place now newID sp l : ∀ t d w d', convert_attributes now newID sp l t d = (Ok w, d') →
  place_of w = place_of t.
Proof.
  clear. induction l as [|[key val] l IH]; intros t d w d' H; cbn [convert_attributes] in H; [by stm_inv|].
  apply s_bind_ok in H as (t1 & d1 & H1 & H). rewrite (IH _ _ _ _ H). clear IH H. unfold convert_attribute in H1.
  destruct (String.eqb key SystemDescription).
  { apply s_bind_ok in H1 as (m & d2 & H1 & H2). apply s_query_ok in H1 as [_ ->]. destruct m; [|by stm_inv].
    apply s_query_ok in H2 as [H2 ->]. unfold description_content in H2. by res_cases H2. }
  destruct (String.eqb key SystemDescriptionMarkup).
  { apply s_query_ok in H1 as [H1 ->]. unfold description_markup in H1. by res_cases H1. }
  destruct (String.eqb key SystemCodebase); [|by stm_inv].
  unfold convert_codebase in H1. apply s_bind_ok in H1 as (m & d2 & H1 & H2). apply s_query_ok in H1 as [_ ->].
  destruct m as [m|]; [|stm_inv; done]. destruct (setupCodebase _ _ _ _ _) as [[m' ?] c]. by simplify_eq.
Qed.
Lemma convert_attributes_keeps now newID sp l : ∀ t, keeps only_codebases (convert_attributes now newID sp l t).
Proof.
  clear. assert (Hone : ∀ a t, keeps only_codebases (convert_attribute now newID sp a t)).
  { intros [key val] t. unfold convert_attribute.
    destruct (String.eqb _ _); [apply (keeps_bind _); [apply keeps_query; apply _|intros [m|]]; eauto with quiet typeclass_instances|].
    destruct (String.eqb _ _); [eauto with quiet typeclass_instances|].
    destruct (String.eqb _ _); [|eauto with quiet typeclass_instances].
    unfold convert_codebase. apply (keeps_bind _); [apply keeps_query; apply _|intros [m|]].
    - intros d. destruct (setupCodebase _ _ _ _ _) as [[m' ?] c]. by repeat split.
    - eauto with quiet typeclass_instances. }
  induction l as [|a l IH]; intros t; cbn [convert_attributes]; eauto with quiet typeclass_instances.
Qed.
Lemma Convert_ok now newID method source t sp d w d' : Convert now newID method source t sp d = (Ok w, d') →
  ∃ v, getVersion Sprint (attribute (aw_Attributes source) "version") = Ok v ∧ place_of w = place_of (with_Version v t).
Proof.
  unfold ConvertJSONAPIToWorkItem. intros H. apply s_bind_ok in H as (v & d1 & H1 & H). apply s_query_ok in H1 as [Hv ->].
  apply s_bind_ok in H as (t1 & d1 & H1 & H). apply s_query_ok in H1 as [H1 ->].
  apply s_bind_ok in H as (t2 & d1 & H2 & H). apply s_query_ok in H as [H ->]. exists v. split; [done|].
  trans (place_of t2). { unfold check_description in H. by res_cases H. }
  trans (place_of t1); [by eapply convert_attributes_place|].
  destruct (aw_Relationships source) as [rel|]; [by eapply convert_relationships_place|by injection H1 as <-].
Qed.
Lemma Convert_keeps now newID method source t sp : keeps only_codebases (Convert now newID method source t sp).
Proof.
  unfold ConvertJSONAPIToWorkItem. repeat (apply (keeps_bind _); [eauto using convert_attributes_keeps with quiet typeclass_instances|intros ?]).
  apply keeps_query, _.
Qed.

Notation Save d := (WorkItems.Save IsURL time_json struct_json Sprint (related d)).
Notation update_in_db := (update_in_db IsURL time_json struct_json Sprint related order).
Notation Update := (Update IsURL time_json struct_json Sprint RenderMarkupToHTML related fields order authorize).

(** One version of the item was replaced by the next, and nothing else but codebases is different. *)
Definition item_updated (now : Time) (user : uuid) (wi : WorkItem) (v : Z) (d d' : planner) : Prop :=
  rest_kept d d' ∧ ∃ old new, update now user v (pl_wis d) (pl_wis d') old new ∧
    s_Number old = w_Number wi ∧ s_SpaceID old = w_SpaceID wi.
Lemma update_in_db_updates now newID source wi user d p d' :
  update_in_db now newID source wi user d = (Ok p, d') →
  ∃ v, getVersion Sprint (attribute (aw_Attributes source) "version") = Ok v ∧ item_updated now user wi v d d'.
Proof.
  unfold WorkItemController.update_in_db. intros H. apply s_bind_ok in H as (t & d1 & H1 & H).
  rewrite s_map_ok in H by (intro; apply wrapf_ok).
  pose proof (Convert_keeps now newID "PATCH" source wi (w_SpaceID wi) d) as [Hk Hw]. rewrite H1 in Hk, Hw. simpl in Hk, Hw.
  apply Convert_ok in H1 as (v & Hv & Hp). injection Hp as Hid Hnum Hsp Hver. simpl in Hsp, Hver.
  exists v. split; [done|]. apply on_items_of_ok in H as (HS & E1 & E2 & E3 & E4 & E5 & E6 & _).
  apply Save_effect in HS as (old & new & HU & Hn & Hs). simpl in Hn, Hs, HU. rewrite Hver in HU. rewrite Hw in HU.
  split; [etrans; [exact Hk|by split]|]. exists old, new. by rewrite Hs, Hsp.
Qed.

Lemma authorizeWorkitemEditor_ok sp creator editor : authorizeWorkitemEditor authorize sp creator editor = Ok true →
  editor = creator ∨ authorize (uuid_String sp) = Ok true.
Proof.
  clear. unfold authorizeWorkitemEditor. destruct (String.eqb_spec editor creator); [by left|].
  destruct (authorize _); [|done..]. by right.
Qed.
(** A payload that names another type than the item's. *)
Definition changes_type (source : AppWorkItem) (wi : WorkItem) : Prop :=
  ∃ rel ty, aw_Relationships source = Some rel ∧ rel_BaseType rel = Some (Some ty) ∧ ty ≠ w_Type wi.
Lemma check_type_change_ok wi creator user source d source' : check_type_change wi creator user source d = Ok source' →
  attribute (aw_Attributes source') "version" = attribute (aw_Attributes source) "version" ∧
  (changes_type source wi → WorkitemCreatorOrSpaceOwner (w_SpaceID wi) creator user d = Ok tt).
Proof.
  clear. unfold check_type_change, changes_type. intros H.
  destruct (aw_Relationships source) as [rel|] eqn:Er; [|injection H as <-; naive_solver].
  destruct (rel_BaseType rel) as [[ty|]|] eqn:Eb; [|injection H as <-; naive_solver..].
  case_bool_decide; [injection H as <-; naive_solver|].
  apply bind_ok in H as ([] & Ho & H). destruct (negb _ || _); [done|]. injection H as <-. by split.
Qed.
Definition may_edit (wi : WorkItem) (user : uuid) : Prop :=
  (∃ c, creator_of wi = Ok c ∧ c.1 = uuid_String user) ∨ authorize (uuid_String (w_SpaceID wi)) = Ok true.

(** C12: An update that is not answered with success changes nothing but by what the others do.  Otherwise the item of the payload
    was found, the user may edit it, is its creator or the owner of its space when its type changes, and what is stored is
    the item with the version of the payload and one revision by this user. *)
Theorem Update_effect now newID between identity payload d r d'
    (H : Update now newID between identity payload d = (r, d')) :
  ∃ d1, same_planner d d1 ∧
    (is_ok r = false ∧ (d' = d ∨ d' = d1) ∨
     ∃ user source ID wi, payload = Some source ∧ aw_ID source = Some ID ∧ identity = Ok user ∧ loaded d ID wi ∧
       may_edit wi user ∧ (changes_type source wi → creator_or_owner wi user d) ∧
       (is_ok r = false ∧ d' = between d1 ∨
        ∃ v d2, getVersion Sprint (attribute (aw_Attributes source) "version") = Ok v ∧
          item_updated now user wi v (between d1) d2 ∧ same_planner d2 d')).
Proof.
  unfold WorkItemController.Update, s_bind, s_query, meanwhile_ in H.
  destruct payload as [source|]; [|exists d; injection H as <- <-; split; [done|by left; split; [|left]]].
  destruct (aw_ID source) as [ID|] eqn:EID; [|exists d; injection H as <- <-; split; [done|by left; split; [|left]]].
  destruct (current_user identity) as [user|e|m] eqn:Eu; [|exists d; injection H as <- <-; by split; [|left; split; [|left]]..].
  destruct (transact (LoadByID ID) d) as [x d1] eqn:El.
  exists d1. assert (Hd1 : same_planner d d1).
  { eapply keeps_at, El. eauto 20 using LoadByID_quiet with quiet typeclass_instances. }
  split; [exact Hd1|]. destruct x as [wi|e|m]; [|injection H as <- <-; by left; split; [|right]..].
  destruct (creator_of wi) as [c|e|m] eqn:Ec; [|injection H as <- <-; by left; split; [|right]..].
  destruct (authorizeWorkitemEditor _ _ _ _) as [[]|e|m] eqn:Ea; [|injection H as <- <-; by left; split; [|right]..].
  cbn [negb] in H. destruct (check_type_change _ _ _ _ _) as [source'|e|m] eqn:Et; [|injection H as <- <-; by left; split; [|right]..].
  right. exists user, source, ID, wi. apply check_type_change_ok in Et as [Hver Hty].
  split_and!; [done|done|by apply current_user_ok|by eapply transact_loaded| | |].
  - apply authorizeWorkitemEditor_ok in Ea as [E|Ha]; [left; by exists c|by right].
  - intros Hc. exists c. split; [done|]. apply Hty, WorkitemCreatorOrSpaceOwner_ok in Hc. by rewrite <- (sm_sps _ _ Hd1).
  - destruct (transact _ (between d1)) as [[p|e|m] d2] eqn:Ew; cycle 1.
    1-2: injection H as <- <-; left; split; [done|by eapply atomic_transact].
    right. rewrite transact_ok in Ew. apply update_in_db_updates in Ew as (v & Hv & Hup). rewrite Hver in Hv.
    exists v, d2. split_and!; [done|done|].
    refine (keeps_at _ (let* _ := s_map (wrapf "failed to load work item type: %s") (LoadType (w_Type p.1)) in
                        answer_with Sprint RenderMarkupToHTML fields None p.1) _ _ _ _ H).
    unfold answer_with. eauto 20 with quiet typeclass_instances.
Qed.

(** ** Creating *)

Notation Create_item := (Create_item IsURL time_json struct_json Sprint RenderMarkupToHTML fields order authorize).
(** One row was added, at the top of its space and with the next number, and nothing else but codebases is different. *)
Definition item_created (now : Time) (newID spaceID wit user : uuid) (d d' : planner) : Prop :=
  rest_kept d d' ∧ ∃ row, creation now newID spaceID wit user (pl_wis d) (pl_wis d') row.
Lemma create_in_db_creates now newID newID' source wit sp user d p d' :
  create_in_db IsURL time_json struct_json Sprint order now newID newID' source wit sp user d = (Ok p, d') →
  item_created now newID sp wit user d d'.
Proof.
  unfold create_in_db. intros H. apply s_bind_ok in H as ([] & d0 & H0 & H). apply s_query_ok in H0 as [_ ->].
  apply s_bind_ok in H as (t & d1 & H1 & H). rewrite s_map_ok in H by (intro; apply wrapf_ok).
  rewrite s_map_ok in H1 by (intro; apply wrapf_ok).
  pose proof (Convert_keeps now newID' "POST" source blank_item sp d) as [Hk Hw]. rewrite H1 in Hk, Hw. simpl in Hk, Hw.
  apply on_items_of_ok in H as (HC & E1 & E2 & E3 & E4 & E5 & E6 & _). apply Create_effect in HC as [row HC]. rewrite Hw in HC.
  split; [etrans; [exact Hk|by split]|by exists row].
Qed.
Lemma may_create_ok space u : may_create authorize space = Ok u →
  uuid_String (OwnerID space) ∈ open_owners ∨ authorize (uuid_String (sp_ID space)) = Ok true.
Proof.
  clear. unfold may_create. destruct (existsb _ _) eqn:E.
  - intros _. left. apply existsb_exists in E as (x & Hx & E). apply String.eqb_eq in E as ->. by apply list_elem_of_In.
  - destruct (authorize _) as [[]|e|m]; [|done..]. by right.
Qed.

Theorem Create_item_effect now newID newID' between identity spaceID payload d r d'
    (H : Create_item now newID newID' between identity spaceID payload d = (r, d')) :
  is_ok r = false ∧ (d' = d ∨ d' = between d) ∨
  ∃ user space source wit d2, identity = Ok user ∧ space_Load (sps (pl_app d)) spaceID = Ok space ∧
    (uuid_String (OwnerID space) ∈ open_owners ∨ authorize (uuid_String (sp_ID space)) = Ok true) ∧
    base_type payload = Ok (source, wit) ∧
    item_created now newID spaceID wit user (between d) d2 ∧ same_planner d2 d'.
Proof.
  unfold WorkItemController.Create_item in H. unfold s_bind, meanwhile_ in H. unfold s_query at 1 in H.
  destruct (current_user identity) as [user|e|m] eqn:Eu; [|injection H as <- <-; by left; split; [|left]..].
  destruct (transact _ d) as [x d0] eqn:Es.
  assert (d0 = d) as -> by (symmetry; eapply (keeps_at eq) in Es; eauto with quiet typeclass_instances).
  unfold s_query in H. destruct x as [space|e|m]; [|injection H as <- <-; by left; split; [|left]..].
  rewrite transact_ok in Es. apply s_query_ok in Es as [Es _]. apply replace_err_ok in Es.
  destruct (may_create _ _) as [[]|e|m] eqn:Em; [|injection H as <- <-; by left; split; [|left]..].
  destruct (base_type payload) as [[source wit]|e|m] eqn:Eb; [|injection H as <- <-; by left; split; [|left]..].
  destruct (transact _ (between d)) as [[p|e|m] d2] eqn:Ew; cycle 1.
  1-2: injection H as <- <-; left; split; [done|right; by eapply atomic_transact].
  right. exists user, space, source, wit, d2. rewrite transact_ok in Ew. apply create_in_db_creates in Ew. split_and!; try done.
  - by apply current_user_ok.
  - by eapply may_create_ok.
  - refine (keeps_at _ (let* _ := LoadType wit in answer_with Sprint RenderMarkupToHTML fields None p.1) _ _ _ _ H).
    unfold answer_with. eauto 20 with quiet typeclass_instances.
Qed.
End Requests.
