(* ===== verification/WorkItemPayloads.v ===== *)
(** * What payloads and filters mean

    The attributes of a payload come out of a JSON object in any order and make the same item; the filters of a list
    become one expression. *)

From Stdlib Require Import ZArith Lia Ascii String SpecFloat.
From stdpp Require Import relations.
From S2P Require Import Errors SearchFacts Trees IterationFacts.
From S2P Require Export WorkItemFacts WorkItemController.
Import Path Transactions.

(** ** The expression of a list *)

Section ListOf.
Context {HO : UuidOps} {HL : UuidLaws}.

(** What the database says of a stored item to the comparisons a list is made of: an assignee is one of the array, no
    assignees are a missing value, the other fields are texts, the type is a column. *)
Record says (w : WorkItemStorage) (ev : Expression → bool) : Prop := {
  says_nobody : ev (IsNull SystemAssignees) = true ↔ fld (s_Fields w) SystemAssignees = VNil;
  says_assignee a : ev (Equals (Field SystemAssignees) (Literal (LStrings [a]))) = true ↔
    ∃ l, fld (s_Fields w) SystemAssignees = VSlice l ∧ VString a ∈ l;
  says_text k v : k ∈ [SystemIteration; SystemArea; SystemState] →
    ev (Equals (Field k) (Literal (LString v))) = true ↔ fld (s_Fields w) k = VString v;
  says_type t : ev (Equals (Field "Type") (Literal (LUUIDs [t]))) = true ↔ s_Type w = t;
}.

(** A database that looks at the row. *)
Definition is_text (v : gval) (a : string) : bool := match v with VString s => String.eqb s a | _ => false end.
Definition row_says (w : WorkItemStorage) (e : Expression) : bool :=
  match e with
  | IsNull k => match fld (s_Fields w) k with VNil => true | _ => false end
  | Equals (Field k) (Literal (LStrings [a])) =>
      match fld (s_Fields w) k with VSlice l => existsb (λ v, is_text v a) l | _ => false end
  | Equals (Field k) (Literal (LString v)) => is_text (fld (s_Fields w) k) v
  | Equals (Field k) (Literal (LUUIDs [t])) => String.eqb k "Type" && bool_decide (s_Type w = t)
  | _ => false
  end.
Lemma is_text_true v a : is_text v a = true ↔ v = VString a.
Proof. destruct v; cbn; try (split; [done|congruence]). rewrite String.eqb_eq. split; congruence. Qed.
Lemma row_says_ok w : says w (row_says w).
Proof.
  split; cbn.
  - destruct (fld _ _); done.
  - intros a. destruct (fld (s_Fields w) SystemAssignees) as [| | | | | | | | | | | | | | | | |l|] eqn:E; try (split; [done|by intros (l' & [=] & _)]).
    rewrite existsb_exists. setoid_rewrite is_text_true. split.
    + intros (x & Hx%list_elem_of_In & ->). by exists l.
    + intros (l' & [= <-] & Hl). exists (VString a). by rewrite <- list_elem_of_In.
  - intros k v _. apply is_text_true.
  - intros t. apply bool_decide_eq_true.
Qed.

(** The items a list is of; [simple]: the item passes the simple filter of the query. *)
Definition assigned (w : WorkItemStorage) (assignee : option string) : Prop :=
  match assignee with
  | None => True
  | Some a => if String.eqb a "none" then fld (s_Fields w) SystemAssignees = VNil
              else ∃ l, fld (s_Fields w) SystemAssignees = VSlice l ∧ VString a ∈ l
  end.
Definition has_text (w : WorkItemStorage) (k : string) (v : option string) : Prop :=
  match v with Some v => fld (s_Fields w) k = VString v | None => True end.
(** The item is in an iteration below the one with this id, at any depth. *)
Definition in_descendant (d : it_db) (w : WorkItemStorage) (i : string) : Prop :=
  ∃ x y, uuid_FromString i = Some (it_ID y) ∧ y ∈ iterations d ∧ row_live y = true ∧ tc (child_of (iterations d)) x y ∧
    fld (s_Fields w) SystemIteration = VString (uuid_String (it_ID x)).
Definition listed (f : list_filters) (d : it_db) (w : WorkItemStorage) (simple : Prop) : Prop :=
  (simple ∧ assigned w (lf_Assignee f) ∧ has_text w SystemIteration (lf_Iteration f) ∨
   ∃ i, lf_Iteration f = Some i ∧ in_descendant d w i) ∧
  match lf_Workitemtype f with Some t => s_Type w = t | None => True end ∧
  has_text w SystemArea (lf_Area f) ∧ has_text w SystemState (lf_Workitemstate f).

Definition child_ids (iteration : string) (d : planner) : list string :=
  match child_iterations iteration d with Ok l => map (λ c, uuid_String (it_ID c)) l | _ => [] end.
Lemma child_ids_descendants i d w : it_wf (its (pl_app d)) →
  (∃ id, id ∈ child_ids i d ∧ fld (s_Fields w) SystemIteration = VString id) ↔ in_descendant (its (pl_app d)) w i.
Proof.
  intros Hwf. unfold child_ids, child_iterations, in_descendant. destruct (uuid_FromString i) as [u|] eqn:Eu.
  2:{ split; [by intros (? & ?%elem_of_nil & _)|]. by intros (x & y & H & _). }
  destruct (LoadChildren u (its (pl_app d))) as [l|e|m] eqn:El; cbn [wrapf].
  - apply LoadChildren_ok in El as (y & Hy & Hsub). apply Load_ok in Hy as (Hy & Hl & <-).
    assert (Hd : ∀ x, x ∈ l ↔ tc (child_of (iterations (its (pl_app d)))) x y).
    { intros x. rewrite Hsub. split.
      - intros (Hx & Hlx & Hr). by apply (descendant_path _ _ _ (iw_tree _ Hwf)).
      - intros H. assert (Hx : x ∈ iterations (its (pl_app d)) ∧ row_live x = true)
          by (destruct H as [? ? (?&?&?&?&?)|? ? ? (?&?&?&?&?) _]; done).
        split_and!; [apply Hx|apply Hx|]. apply (descendant_path _ _ _ (iw_tree _ Hwf)); [done|done|apply Hx|apply Hx|done]. }
    split.
    + intros (id & Hid & Hf). apply elem_of_map_image in Hid as (x & Hx%Hd & E). exists x, y. split_and!; [done..|]. by rewrite Hf, E.
    + intros (x & y' & [= Ey] & Hy' & Hl' & Hx & Hf). assert (y' = y) as ->.
      { apply (ids_unique_eq (iterations (its (pl_app d)))); [apply Hwf|done|done|]. cbn. congruence. }
      exists (uuid_String (it_ID x)). split; [|done]. apply elem_of_map_image. exists x. by rewrite Hd.
  - split; [by intros (? & ?%elem_of_nil & _)|]. intros (x & y & [= ->] & Hy & Hl & _). unfold LoadChildren in El.
    by rewrite Load_live in El by (done || apply Hwf).
  - split; [by intros (? & ?%elem_of_nil & _)|]. intros (x & y & [= ->] & Hy & Hl & _). unfold LoadChildren in El.
    by rewrite Load_live in El by (done || apply Hwf).
Qed.

Section Item.
Context (ev : Expression → bool) (w : WorkItemStorage) (Hev : says w ev).
Lemma eval_with_assignee a exp : eval ev (with_assignee a exp).1 = true ↔ eval ev exp = true ∧ assigned w a.
Proof.
  unfold with_assignee, assigned. destruct a as [a|]; [|tauto].
  destruct (String.eqb a "none"); cbn [fst eval]; rewrite andb_true_iff; [by rewrite (says_nobody w ev Hev)|].
  by rewrite (says_assignee w ev Hev).
Qed.
Lemma eval_with_equals k prefix v exp : k ∈ [SystemIteration; SystemArea; SystemState] →
  eval ev (with_equals k prefix v exp).1 = true ↔ eval ev exp = true ∧ has_text w k v.
Proof.
  intros Hk. unfold with_equals, has_text. destruct v as [v|]; [|tauto]. cbn [fst eval].
  by rewrite andb_true_iff, (says_text w ev Hev).
Qed.
Lemma eval_with_type t exp : eval ev (with_type t exp).1 = true ↔
  eval ev exp = true ∧ match t with Some t => s_Type w = t | None => True end.
Proof.
  unfold with_type. destruct t as [t|]; [|tauto]. cbn [fst eval]. by rewrite andb_true_iff, (says_type w ev Hev).
Qed.
Lemma eval_or_children ids exp : eval ev (fold_left (λ e id, Or e (in_iteration_ id)) ids exp) = true ↔
  eval ev exp = true ∨ ∃ id, id ∈ ids ∧ fld (s_Fields w) SystemIteration = VString id.
Proof.
  revert exp. induction ids as [|id ids IH]; intros exp; cbn [fold_left].
  - split; [by left|]. intros [H|(? & ?%elem_of_nil & _)]; done.
  - rewrite IH. unfold in_iteration_. cbn [eval]. rewrite orb_true_iff, (says_text w ev Hev) by set_solver.
    setoid_rewrite elem_of_cons. naive_solver.
Qed.
Lemma eval_with_iteration i d exp : it_wf (its (pl_app d)) →
  eval ev (with_iteration i d exp).1.1 = true ↔
  eval ev exp = true ∧ has_text w SystemIteration i ∨ ∃ i', i = Some i' ∧ in_descendant (its (pl_app d)) w i'.
Proof.
  intros Hwf. unfold with_iteration. destruct i as [i|]; [|cbn; naive_solver].
  assert (Hand : eval ev (And exp (in_iteration_ i)) = true ↔ eval ev exp = true ∧ has_text w SystemIteration (Some i)).
  { unfold in_iteration_. cbn [eval has_text]. by rewrite andb_true_iff, (says_text w ev Hev) by set_solver. }
  pose proof (child_ids_descendants i d w Hwf) as HC. unfold child_ids in HC.
  assert (HS : (∃ i', Some i = Some i' ∧ in_descendant (its (pl_app d)) w i') ↔ in_descendant (its (pl_app d)) w i) by naive_solver.
  rewrite HS, <- HC. destruct (child_iterations i d) as [l|e|m]; cbn [fst].
  - by rewrite eval_or_children, Hand.
  - rewrite Hand. set_solver.
  - rewrite Hand. set_solver.
Qed.
End Item.

(** C26: The expression of a list of items holds of exactly these items: those that pass the simple filter, have the assignee
    and are in the iteration that is asked for, and those in an iteration anywhere below it, which need not pass the
    filter nor have the assignee; and of either kind only those of the type, the area and the state.  It is for a
    well-formed table of iterations and a database that compares the fields of an item as [says]. *)
Theorem list_expression_means ev f d w exp (Hwf : it_wf (its (pl_app d))) (Hev : says w ev) :
  eval ev (list_expression f d exp).1.1 = true ↔ listed f (its (pl_app d)) w (eval ev exp = true).
Proof.
  unfold list_expression, listed.
  pose proof (eval_with_assignee ev w Hev (lf_Assignee f) exp) as H1. destruct (with_assignee _ _) as [e1 q1]. cbn [fst] in H1.
  pose proof (eval_with_iteration ev w Hev (lf_Iteration f) d e1 Hwf) as H2. destruct (with_iteration _ _ _) as [[e2 q2] early]. cbn [fst] in H2.
  pose proof (eval_with_type ev w Hev (lf_Workitemtype f) e2) as H3. destruct (with_type _ _) as [e3 q3]. cbn [fst] in H3.
  pose proof (eval_with_equals ev w Hev SystemArea "filter[area]=" (lf_Area f) e3 ltac:(set_solver)) as H4.
  destruct (with_equals SystemArea _ _ _) as [e4 q4]. cbn [fst] in H4.
  pose proof (eval_with_equals ev w Hev SystemState "filter[workitemstate]=" (lf_Workitemstate f) e4 ltac:(set_solver)) as H5.
  destruct (with_equals SystemState _ _ _) as [e5 q5]. cbn [fst] in *.
  rewrite H5, H4, H3, H2, H1. tauto.
Qed.
End ListOf.

(** ** The order of the attributes *)

Section AnyOrder.
Context {HO : UuidOps} (now : Time) (newID sp : uuid).
Notation one := (convert_attribute now newID sp).
Notation all := (convert_attributes now newID sp).

(** The field an attribute writes, and what it writes there. *)
Definition touches (key : string) : string := if String.eqb key SystemDescriptionMarkup then SystemDescription else key.
Definition written (a : string * gval) (old : gval) : plm (option gval) :=
  let '(key, val) := a in
  if String.eqb key SystemDescription then s_query (λ _,
    m ← NewMarkupContentFromValue val;
    match m, old with
    | None, _ => Ok None
    | Some m, VNil => Ok (Some (VMarkup m))
    | Some m, VMarkup e => Ok (Some (VMarkup {| Content_ := Content_ m; Markup := Markup e |}))
    | _, _ => Panic bad_assertion
    end)
  else if String.eqb key SystemDescriptionMarkup then s_query (λ _,
    match val, old with
    | VString m, VNil => Ok (Some (VMarkup {| Content_ := ""; Markup := m |}))
    | VString m, VMarkup e => Ok (Some (VMarkup {| Content_ := Content_ e; Markup := m |}))
    | _, _ => Panic bad_assertion
    end)
  else if String.eqb key SystemCodebase then
    let* m := s_query (λ _, wrapf "failed to create new codebase from value: %+v" (NewCodebaseContentFromValue val)) in
    match m with
    | None => s_query (λ _, Panic nil_pointer)
    | Some m => λ d, let '(m, _, c) := setupCodebase now newID m sp (pl_codebases d) in
                     (Ok (Some (VCodebase m)), set_pl_codebases c d)
    end
  else s_ret (Some val).
Definition put (key : string) (v : option gval) (t : WorkItem) : WorkItem :=
  match v with Some v => with_field (touches key) v t | None => t end.
Ltac writes := unfold s_ret; split; [intros H; simplify_eq; by eexists|intros (v & H & ->); by simplify_eq].
Lemma convert_attribute_written a t d w d' : one a t d = (Ok w, d') ↔
  ∃ v, written a (field_of (w_Fields t) (touches a.1)) d = (Ok v, d') ∧ w = put a.1 v t.
Proof.
  destruct a as [key val]. unfold convert_attribute, written, put, touches. cbn [fst].
  destruct (String.eqb_spec key SystemDescription) as [->|].
  { cbn. unfold s_bind, s_query. destruct (NewMarkupContentFromValue val) as [[m|]|e|p]; cbn; [|writes..].
    unfold description_content. destruct (field_of _ _); writes. }
  destruct (String.eqb_spec key SystemDescriptionMarkup) as [->|].
  { unfold s_query. destruct val; try writes; unfold description_markup. destruct (field_of _ _); writes. }
  destruct (String.eqb_spec key SystemCodebase) as [->|]; [|unfold s_ret; cbn; writes].
  unfold convert_codebase, s_bind, s_query. destruct (wrapf _ _) as [[m|]|e|p]; [|writes..].
  destruct (setupCodebase _ _ _ _ _) as [[m' ?] c]. writes.
Qed.
(** Only a codebase looks at the store. *)
Lemma written_pure a old : a.1 ≠ SystemCodebase → ∃ r, ∀ d, written a old d = (r, d).
Proof.
  destruct a as [key val]. cbn [fst]. intros Hk. unfold written, s_query, s_ret.
  destruct (String.eqb key SystemDescription); [by eexists|]. destruct (String.eqb key SystemDescriptionMarkup); [by eexists|].
  destruct (String.eqb_spec key SystemCodebase); [done|by eexists].
Qed.
Lemma field_of_with key key' v t : key ≠ key' → field_of (w_Fields (with_field key v t)) key' = field_of (w_Fields t) key'.
Proof. intros H. unfold field_of, with_field, with_Fields. cbn. by rewrite lookup_insert_ne. Qed.
Lemma field_of_put k k' v t : touches k ≠ touches k' →
  field_of (w_Fields (put k v t)) (touches k') = field_of (w_Fields t) (touches k').
Proof. intros H. destruct v; [by apply field_of_with|done]. Qed.
Lemma put_comm k k' v v' t : touches k ≠ touches k' → put k v (put k' v' t) = put k' v' (put k v t).
Proof.
  intros H. destruct v as [v|], v' as [v'|]; [|done..]. unfold put, with_field, with_Fields. cbn. f_equal.
  by apply insert_insert_ne.
Qed.
Lemma touches_eq k k' : touches k = touches k' → k ≠ k' →
  k = SystemDescription ∧ k' = SystemDescriptionMarkup ∨ k = SystemDescriptionMarkup ∧ k' = SystemDescription.
Proof.
  unfold touches. destruct (String.eqb_spec k SystemDescriptionMarkup), (String.eqb_spec k' SystemDescriptionMarkup); naive_solver.
Qed.
Lemma written_description val old d v d' : written (SystemDescription, val) old d = (Ok v, d') ↔ d' = d ∧
  ∃ m, NewMarkupContentFromValue val = Ok m ∧
    match m with
    | None => v = None
    | Some m => old = VNil ∧ v = Some (VMarkup m) ∨
                ∃ e, old = VMarkup e ∧ v = Some (VMarkup {| Content_ := Content_ m; Markup := Markup e |})
    end.
Proof.
  unfold written, s_query. cbn. destruct (NewMarkupContentFromValue val) as [[m|]|e|p]; cbn; [|naive_solver..].
  destruct old; naive_solver.
Qed.
Lemma written_markup val old d v d' : written (SystemDescriptionMarkup, val) old d = (Ok v, d') ↔ d' = d ∧
  ∃ m, val = VString m ∧
    (old = VNil ∧ v = Some (VMarkup {| Content_ := ""; Markup := m |}) ∨
     ∃ e, old = VMarkup e ∧ v = Some (VMarkup {| Content_ := Content_ e; Markup := m |})).
Proof. unfold written, s_query. cbn. destruct val; try naive_solver. destruct old; naive_solver. Qed.
Lemma field_of_put_same k v t : field_of (w_Fields (put k (Some v) t)) (touches k) = v.
Proof. unfold field_of, put, with_field, with_Fields. cbn. by rewrite lookup_insert_eq. Qed.
Lemma put_put k k' v v' t : touches k = touches k' → put k (Some v) (put k' (Some v') t) = put k (Some v) t.
Proof. intros H. unfold put, with_field, with_Fields. cbn. by rewrite H, insert_insert_eq. Qed.
(** A description and its markup write two parts of one field. *)
Lemma swap_description a b t d va d1 vb d' : touches a.1 = touches b.1 → a.1 ≠ b.1 →
  written a (field_of (w_Fields t) (touches a.1)) d = (Ok va, d1) →
  written b (field_of (w_Fields (put a.1 va t)) (touches b.1)) d1 = (Ok vb, d') →
  ∃ t2 d2, one b t d = (Ok t2, d2) ∧ one a t2 d2 = (Ok (put b.1 vb (put a.1 va t)), d').
Proof.
  destruct a as [ka xa], b as [kb xb]. cbn [fst]. intros Ht Hne Ha Hb.
  setoid_rewrite convert_attribute_written. cbn [fst].
  destruct (touches_eq _ _ Ht Hne) as [[-> ->]|[-> ->]]; setoid_rewrite written_markup; setoid_rewrite written_description.
  - apply written_description in Ha as (-> & m & Hm & Ha). apply written_markup in Hb as (-> & x & -> & Hb).
    destruct m as [m|]; [|subst va; exists (put SystemDescriptionMarkup vb t), d; split; [by exists vb; split; [split; [done|]; exists x|]|]; exists None; split; [split; [done|]; by exists None|done]].
    destruct Ha as [[Ho ->]|(e & Ho & ->)]; rewrite <- Ht, field_of_put_same in Hb; destruct Hb as [[? ?]|(e' & [= <-] & ->)];
      try done; eexists _, d; (split; [eexists; split; [split; [done|]; exists x; split; [done|]|done]|]).
    + by left.
    + eexists. split; [split; [done|]; exists (Some m); split; [done|]; right; eexists; split;
        [rewrite Ht; apply field_of_put_same|done]|]. by rewrite !put_put.
    + right. by exists e.
    + eexists. split; [split; [done|]; exists (Some m); split; [done|]; right; eexists; split;
        [rewrite Ht; apply field_of_put_same|done]|]. by rewrite !put_put.
  - apply written_markup in Ha as (-> & x & -> & Ha). apply written_description in Hb as (-> & m & Hm & Hb).
    destruct m as [m|].
    + destruct Ha as [[Ho ->]|(e & Ho & ->)]; rewrite <- Ht, field_of_put_same in Hb; destruct Hb as [[? ?]|(e' & [= <-] & ->)];
        try done; eexists _, d; (split; [eexists; split; [split; [done|]; exists (Some m); split; [done|]|done]|]).
      * by left.
      * eexists. split; [split; [done|]; exists x; split; [done|]; right; eexists; split;
          [rewrite Ht; apply field_of_put_same|done]|]. by rewrite !put_put.
      * right. by exists e.
      * eexists. split; [split; [done|]; exists x; split; [done|]; right; eexists; split;
          [rewrite Ht; apply field_of_put_same|done]|]. by rewrite !put_put.
    + subst vb. exists t, d. split; [exists None; split; [split; [done|]; by exists None|done]|].
      exists va. split; [split; [done|]; by exists x|done].
Qed.
Lemma swap_attributes a b t d t1 d1 w d' : a.1 ≠ b.1 → one a t d = (Ok t1, d1) → one b t1 d1 = (Ok w, d') →
  ∃ t2 d2, one b t d = (Ok t2, d2) ∧ one a t2 d2 = (Ok w, d').
Proof.
  intros Hne Ha Hb. apply convert_attribute_written in Ha as (va & Ha & ->). apply convert_attribute_written in Hb as (vb & Hb & ->).
  destruct (decide (touches a.1 = touches b.1)) as [Ht|Ht].
  - by eapply swap_description.
  - rewrite field_of_put in Hb by done.
    assert (Hcomm : ∃ d2, written b (field_of (w_Fields t) (touches b.1)) d = (Ok vb, d2) ∧
                          written a (field_of (w_Fields t) (touches a.1)) d2 = (Ok va, d')).
    { destruct (decide (b.1 = SystemCodebase)) as [Hc|Hc].
      - destruct (written_pure a (field_of (w_Fields t) (touches a.1))) as [r Hr]; [congruence|].
        rewrite Hr in Ha. injection Ha as -> ->. exists d'. by rewrite Hr.
      - destruct (written_pure b (field_of (w_Fields t) (touches b.1)) Hc) as [r Hr].
        rewrite Hr in Hb. injection Hb as -> ->. exists d. by rewrite Hr. }
    destruct Hcomm as (d2 & Hb2 & Ha2). exists (put b.1 vb t), d2. split; apply convert_attribute_written.
    + by exists vb.
    + exists va. rewrite field_of_put by done. split; [done|by apply put_comm].
Qed.

Theorem convert_attributes_any_order l l' t d w d' (Hkeys : NoDup l.*1) (Hl : l ≡ₚ l')
    (H : all l t d = (Ok w, d')) : all l' t d = (Ok w, d').
Proof.
  revert t d H Hkeys. induction Hl as [|a l l' Hl IH|b a l|l l1 l2 H1 IH1 H2 IH2]; intros t d H Hkeys.
  - done.
  - cbn [convert_attributes] in *. apply s_bind_ok in H as (t1 & d1 & H1 & H). apply s_bind_ok. exists t1, d1.
    split; [done|]. apply IH; [done|]. by apply NoDup_cons in Hkeys as [_ Hkeys].
  - cbn [convert_attributes] in *. apply s_bind_ok in H as (t1 & d1 & H1 & H). apply s_bind_ok in H as (t2 & d2 & H2 & H).
    cbn in Hkeys. apply NoDup_cons in Hkeys as [Hb _].
    edestruct (swap_attributes a b) as (t3 & d3 & H3 & H4); [|exact H1|exact H2|].
    { intros E. apply Hb. rewrite <- E. by left. }
    apply s_bind_ok. exists t3, d3. split; [done|]. apply s_bind_ok. by exists t2, d2.
  - apply IH2; [by apply IH1|]. eapply NoDup_Permutation_proper, Hkeys. by rewrite H1.
Qed.
End AnyOrder.
