(* ===== verification/SpaceController.v ===== *)
(** * The requests on spaces

    [controller/space.go]: creating, showing, listing, updating and deleting
    spaces.  The services that keep codebases, deployments and resources are
    arguments that say what they answer; what a deletion asks them to delete is
    written down in order, because no transaction takes it back.  Before them
    the backlog of a space, [controller/planner_backlog.go]: the items of the
    root iteration whose type is one of the planner's, counted for the answers
    about a space and listed page by page. *)

From Stdlib Require Import ZArith Lia Ascii String SpecFloat.
From S2P Require Import Errors Paging Spaces Areas Labels Codebases SearchFacts.
From S2P Require Export WorkItemController.
Import Transactions Paging.

(** ** The backlog *)

Definition SystemStateClosed : string := "closed".
Definition type_is (id : uuid) : Expression := Equals (Field "Type") (Literal (LString (uuid_String id))).
Record backlog_filters := {
  bf_Filter : option (res (list (string * literal)));
  bf_Assignee : option string;
  bf_Workitemtype : option uuid;
  bf_Area : option string;
  bf_Offset : option string;
  bf_Limit : option Z;
}.
Definition blank_links : PagingLinks := {| Prev := None; Next := None; First := None; Last := None |}.
Record backlog_page := {
  bp_Data : list AppAnswer;
  bp_TotalCount : Z;
  bp_Links : PagingLinks;
}.

Section Backlog.
Context {HO : UuidOps} (time_json : Z → string) (struct_json : string → option gval).
Context (Sprint : gval → string) (RenderMarkupToHTML : string → string → string).
Context (fields : Fields → list (string * gval)) (FormatShortest : float64 → string) (HasColumn : string → string → bool).
Context {RO : RowOrder} (selects : compiled → wi_db → selection) (ks ks' ks'' : list string).

(** What is passed on and the closed state are put together first; the expression made of them is then assigned
    anew. *)
Definition generateBacklogExpression (spaceID : uuid) (exp : option Expression) : plm (option Expression) :=
  let notClosed := Not (Field SystemState) (Literal (LString SystemStateClosed)) in
  let exp := match exp with Some e => And e notClosed | None => notClosed end in
  transact (
    let* space := s_map (wrapf "unable to fetch space: %s") (s_query (λ d, space_Load (sps (pl_app d)) spaceID)) in
    let* itr := s_map (wrapf "unable to fetch root iteration") (s_query (λ d, Root_ spaceID (its (pl_app d)))) in
    let exp := in_iteration_ (uuid_String (it_ID itr)) in
    let* wits := s_map (wrapf "unable to fetch work item types that derive from planner item")
                   (s_query (λ d, ListPlannerItemTypes (tdb (types (pl_wis d))) (sp_SpaceTemplateID space))) in
    s_ret (match map fst wits with
           | [] => None
           | w :: wits => Some (And exp (fold_left (λ e t, Or e (type_is t)) wits (type_is w)))
           end)).
Notation load_types l := (loadWorkItemTypesFromArr time_json struct_json l).
Notation list_page spaceID exp offset limit :=
  (list_in_db time_json struct_json FormatShortest HasColumn selects ks ks' ks'' spaceID exp None offset limit SortWorkItemsByDefault).
Definition getBacklogItems (spaceID : uuid) (exp : option Expression) (offset limit : Z)
    : plm (list WorkItem * list WorkItemType * Z) :=
  let* backlogExp := generateBacklogExpression spaceID exp in
  match backlogExp with
  | None => s_ret ([], [], 0)
  | Some e => transact (
      let* p := s_map (wrapf "error listing backlog items") (list_page spaceID e offset limit) in
      let* wits := s_map (wrapf "failed to load work item types") (load_types p.1) in
      s_ret (p.1, wits, p.2))
  end.
Definition countBacklogItems (spaceID : uuid) : plm Z :=
  let* backlogExp := generateBacklogExpression spaceID None in
  match backlogExp with
  | None => s_ret 0
  | Some e => transact (s_map (wrapf "error listing backlog items") (s_query (λ d,
      wi_Count FormatShortest HasColumn selects ks ks' ks'' spaceID e {| ls_items := pl_wis d; ls_links := links_view d |})))
  end.
Definition backlog_expression (f : backlog_filters) (exp : Expression) : Expression :=
  let exp := match bf_Assignee f with
             | Some a => And exp (Equals (Field SystemAssignees) (Literal (LStrings [a])))
             | None => exp
             end in
  let exp := (with_type (bf_Workitemtype f) exp).1 in
  (with_equals SystemArea "" (bf_Area f) exp).1.
(** The number of items there are is passed for the number of items on the page.  An item that is not converted
    makes an answer of its own, and the list follows it without items. *)
Definition List_backlog (path : string) (f : backlog_filters) (spaceID : uuid) : plm (option error * backlog_page) :=
  let '(offset, limit) := computePagingLimits (bf_Offset f) (bf_Limit f) in
  let* exp := s_query (λ _, match simple_Parse (bf_Filter f) with
                            | Err e => Err (BadParameterError "could not parse filter" (Errors.ErrorMsg e) None None)
                            | r => r
                            end) in
  let* r := getBacklogItems spaceID (Some (backlog_expression f exp)) offset limit in
  let '(result, wits, count) := r in
  s_query (λ _,
    let page early data := links ← setPagingLinks blank_links path count offset limit count [];
                           Ok (early, {| bp_Data := data; bp_TotalCount := count; bp_Links := links |}) in
    match ConvertWorkItems Sprint RenderMarkupToHTML fields wits result [] with
    | Ok data => page None data
    | Err e => page (Some e) []
    | Panic m => Panic m
    end).
End Backlog.

Section Facts.
Context {HO : UuidOps} (time_json : Z → string) (struct_json : string → option gval).
Context (Sprint : gval → string) (RenderMarkupToHTML : string → string → string).
Context (fields : Fields → list (string * gval)) (FormatShortest : float64 → string) (HasColumn : string → string → bool).
Context {RO : RowOrder} (selects : compiled → wi_db → selection) (ks ks' ks'' : list string).

(** The types a planner item of the space can have. *)
Definition planner_types (spaceID : uuid) (d : planner) : res (list uuid) :=
  space ← space_Load (sps (pl_app d)) spaceID;
  l ← ListPlannerItemTypes (tdb (types (pl_wis d))) (sp_SpaceTemplateID space);
  Ok (map fst l).
Lemma generateBacklogExpression_spec spaceID exp d e d' :
  generateBacklogExpression spaceID exp d = (Ok e, d') → d' = d ∧
  ∃ root ids, Root_ spaceID (its (pl_app d)) = Ok root ∧ planner_types spaceID d = Ok ids ∧
    match e with
    | Some e => ∀ ev, eval ev e = ev (in_iteration_ (uuid_String (it_ID root))) && existsb (λ t, ev (type_is t)) ids
    | None => ids = []
    end.
Proof.
  unfold generateBacklogExpression. rewrite transact_ok. intros H.
  apply s_bind_ok in H as (space & d1 & H1 & H). rewrite s_map_ok in H1 by (intro; apply wrapf_ok). apply s_query_ok in H1 as [H1 ->].
  apply s_bind_ok in H as (root & d1 & H2 & H). rewrite s_map_ok in H2 by (intro; apply wrapf_ok). apply s_query_ok in H2 as [H2 ->].
  apply s_bind_ok in H as (wits & d1 & H3 & H). rewrite s_map_ok in H3 by (intro; apply wrapf_ok). apply s_query_ok in H3 as [H3 ->].
  unfold s_ret in H. injection H as <- <-. split; [done|]. exists root, (map fst wits).
  split; [done|]. split; [unfold planner_types; by rewrite H1; cbn; rewrite H3|].
  destruct (map fst wits) as [|w ids]; [done|]. intros ev. cbn [eval]. f_equal.
  change (eval ev (fold_left (λ e t, Or e (type_is t)) ids (type_is w)) = existsb (λ t, ev (type_is t)) (w :: ids)).
  assert (Hf : ∀ l e, eval ev (fold_left (λ e t, Or e (type_is t)) l e) = eval ev e || existsb (λ t, ev (type_is t)) l).
  { induction l as [|t l IH]; intros e; cbn [fold_left existsb]; [by rewrite orb_false_r|]. rewrite IH. cbn [eval]. by rewrite orb_assoc. }
  by rewrite Hf.
Qed.

(** The filters of the request, and the state of an item, do not matter. *)
Theorem backlog_ignores_filters spaceID exp exp' offset limit d :
  getBacklogItems time_json struct_json FormatShortest HasColumn selects ks ks' ks'' spaceID exp offset limit d =
  getBacklogItems time_json struct_json FormatShortest HasColumn selects ks ks' ks'' spaceID exp' offset limit d.
Proof. reflexivity. Qed.
End Facts.

(** ** The requests *)

(** The rows of the other tables may refer to all rows of spaces, the deleted ones too. *)
Definition set_sps (t : space_db) (d : planner) : planner :=
  let ids := map sp_ID (space_rows t) in
  let a := pl_app d in
  {| pl_app := {| its := {| iterations := iterations (its a); it_sequences := it_sequences (its a); it_spaces := ids |};
                  sps := t;
                  wis := {| rows := rows (wis a); revs := revs (wis a); sequences := sequences (wis a);
                            spaces := map (λ p, (sp_ID p, sp_SpaceTemplateID p)) (space_rows t); types := types (wis a) |} |};
     pl_links := pl_links d;
     pl_areas := {| areas := areas (pl_areas d); ar_sequences := ar_sequences (pl_areas d); ar_spaces := ids |};
     pl_labels := {| labels := labels (pl_labels d); lb_spaces := ids |};
     pl_accounts := pl_accounts d;
     pl_codebases := {| codebases := codebases (pl_codebases d); cb_spaces := ids |} |}.
Definition on_spaces {A} (m : spm A) : plm A := λ d, let '(r, t) := m (sps (pl_app d)) in (r, set_sps t d).
Definition set_areas (t : area_db) (d : planner) : planner :=
  {| pl_app := pl_app d; pl_links := pl_links d; pl_areas := t; pl_labels := pl_labels d; pl_accounts := pl_accounts d;
     pl_codebases := pl_codebases d |}.
Definition on_areas {A} (m : arm A) : plm A := λ d, let '(r, t) := m (pl_areas d) in (r, set_areas t d).
Definition set_app (t : app_db) (d : planner) : planner :=
  {| pl_app := t; pl_links := pl_links d; pl_areas := pl_areas d; pl_labels := pl_labels d; pl_accounts := pl_accounts d;
     pl_codebases := pl_codebases d |}.
Definition on_iterations {A} (m : itm A) : plm A := λ d, let '(r, t) := on_its m (pl_app d) in (r, set_app t d).

(** ** Payloads *)

Record SpaceAttributes := {
  sa_Name : option string;
  sa_Description : option string;
  sa_Version : option Z;
  sa_CreatedAt : option Time;
  sa_UpdatedAt : option Time;
}.
Record AppSpace := {
  as_ID : option uuid;
  as_Attributes : option SpaceAttributes;
  as_OwnedBy : option uuid;
  as_SpaceTemplate : option uuid;
}.
Definition missing_ (param : string) : error := BadParameterError param "<nil>" (Some "not nil") None.
Definition validateCreateSpace (data : option AppSpace) : res (AppSpace * SpaceAttributes * string) :=
  match data with
  | None => Err (missing_ "data")
  | Some s => match as_Attributes s with
              | None => Err (missing_ "data.attributes")
              | Some a => match sa_Name a with
                          | None => Err (missing_ "data.attributes.name")
                          | Some name => Ok (s, a, name)
                          end
              end
  end.
Definition validateUpdateSpace (data : option AppSpace) : res (SpaceAttributes * string * Z) :=
  p ← validateCreateSpace data;
  match sa_Version p.1.2 with
  | None => Err (missing_ "data.attributes.version")
  | Some v => Ok (p.1.2, p.2, v)
  end.
Definition SystemAgileTemplateID : uuid := uuid_of 0xf405fa41a8bb46db88002dbe13da1418.
Definition zero_time : Time := {| instant := 0; representation := 0 |}.
Definition blank_space : Space :=
  {| sp_Lifecycle := stamped zero_time; sp_ID := uuid_Nil; sp_Version := 0; sp_Name := ""; sp_Description := "";
     OwnerID := uuid_Nil; sp_SpaceTemplateID := uuid_Nil |}.
Definition ConvertSpaceToModel (s : AppSpace) : Space :=
  let a := default {| sa_Name := None; sa_Description := None; sa_Version := None; sa_CreatedAt := None; sa_UpdatedAt := None |}
             (as_Attributes s) in
  {| sp_Lifecycle := {| CreatedAt := default zero_time (sa_CreatedAt a); UpdatedAt := default zero_time (sa_UpdatedAt a);
                        DeletedAt := None |};
     sp_ID := default uuid_Nil (as_ID s); sp_Version := default 0 (sa_Version a); sp_Name := default "" (sa_Name a);
     sp_Description := default "" (sa_Description a); OwnerID := default uuid_Nil (as_OwnedBy s);
     sp_SpaceTemplateID := default uuid_Nil (as_SpaceTemplate s) |}.
(** [ConvertSpaceFromModel] without its links. *)
Definition ConvertSpaceFromModel (p : Space) : AppSpace :=
  {| as_ID := Some (sp_ID p);
     as_Attributes := Some {| sa_Name := Some (sp_Name p); sa_Description := Some (sp_Description p);
                              sa_Version := Some (sp_Version p); sa_CreatedAt := Some (CreatedAt (sp_Lifecycle p));
                              sa_UpdatedAt := Some (UpdatedAt (sp_Lifecycle p)) |};
     as_OwnedBy := Some (OwnerID p); as_SpaceTemplate := Some (sp_SpaceTemplateID p) |}.

(** ** Other services *)

(** An answer: its status, the details of the errors in it, and what it contains. *)
Record reply (A : Type) := { rp_status : Z; rp_errors : res (list string); rp_content : res A }.
Arguments rp_status {A}. Arguments rp_errors {A}. Arguments rp_content {A}.
Definition refused_status (status : Z) : bool := (200 <? status) && (300 <=? status).
(** What they are asked to delete. *)
Inductive asked_for := ADeleteCodebase (id : uuid) | ADeleteDeployment (app env : string) | ADeleteResource (space : uuid).
Record services := {
  sv_codebases : res unit;                         (* is the address of the service an URL *)
  sv_list_codebases : res (reply (list uuid));
  sv_delete_codebase : uuid → res (reply unit);
  sv_deployments : res unit;
  sv_list_deployments : res (reply (list (string * list string)));
  sv_delete_deployment : string → string → res (reply unit);
  sv_create_resource : uuid → res unit;
  sv_delete_resource : uuid → res unit;
}.
Definition internal_ (format : string) : error := InternalError (Plain format).
(** The errors of one deletion. *)
Definition failures {A} (wrap undecoded : string) (r : res (reply A)) : list error :=
  match r with
  | Err e => [Wrapped wrap e]
  | Panic _ => []
  | Ok r => if refused_status (rp_status r) then
              match rp_errors r with
              | Err e => [Wrapped undecoded e]
              | Panic _ => []
              | Ok [] => []
              | Ok (detail :: _) => [Plain detail]
              end
            else []
  end.
Definition newline : string := String (ascii_of_nat 10) EmptyString.
Definition all_failures (l : list error) : res unit :=
  match l with
  | [] => Ok tt
  | _ => Err (Errors.NewInternalErrorFromString (fold_left (λ s e, s +:+ Errors.ErrorMsg e +:+ newline) l ""))
  end.
Definition listed_ {A} (not_reached : error → error) (undecoded undecoded_list : string) (r : res (reply A)) : res A :=
  r ← match r with Err e => Err (not_reached e) | r => r end;
  if refused_status (rp_status r) then
    match rp_errors r with
    | Err _ => Err (internal_ undecoded)
    | Panic m => Panic m
    | Ok [] => Err (internal_ "unknown error")
    | Ok (detail :: _) => Err (internal_ detail)
    end
  else match rp_content r with Err _ => Err (internal_ undecoded_list) | r => r end.
Notation asking A := (planner * list asked_for → res A * (planner * list asked_for)).
Definition in_db {A} (m : plm A) : asking A := λ s, let '(r, d) := m s.1 in (r, (d, s.2)).
Definition ask_ (a : asked_for) : asking unit := λ s, (Ok tt, (s.1, s.2 ++ [a])).
(** Asks for one thing after the other, and collects what went wrong. *)
Fixpoint ask_each {X} (ask : X → asked_for) (wrong : X → list error) (l : list X) : asking (list error) :=
  match l with
  | [] => s_ret []
  | x :: l => let* _ := ask_ (ask x) in let* es := ask_each ask wrong l in s_ret (wrong x ++ es)
  end.
Definition service_url (address : res unit) (malformed : string) : res unit :=
  match address with Err _ => Err (internal_ malformed) | r => r end.
Definition deleteCodebases (sv : services) : asking unit :=
  let* _ := s_query (λ _, service_url (sv_codebases sv) "malformed codebase service URL %s: %v") in
  let* cbs := s_query (λ _, listed_ (Wrapped "could not list codebases for space: %s")
    "could not decode JSON formatted errors returned while listing codebases: %v" "could not decode the codebase list: %v"
    (sv_list_codebases sv)) in
  let* es := ask_each ADeleteCodebase (λ id, failures "could not delete codebase %s"
    "could not decode JSON formatted errors returned while deleting codebase %s" (sv_delete_codebase sv id)) cbs in
  s_query (λ _, all_failures es).
Definition environments (apps : list (string * list string)) : list (string * string) :=
  concat (map (λ a, map (pair a.1) a.2) apps).
Definition deleteOpenShiftResource (sv : services) : asking unit :=
  let* _ := s_query (λ _, service_url (sv_deployments sv) "malformed deployments service URL %s: %v") in
  let* apps := s_query (λ _, listed_ (λ _, internal_ "could not get deployments: %v")
    "could not decode JSON formatted errors returned while listing deployments: %v" "could not decode deployments: %v"
    (sv_list_deployments sv)) in
  let* es := ask_each (λ p, ADeleteDeployment p.1 p.2)
    (λ p, failures "could not delete deployment for space=%s, app=%s, env=%s"
      "could not decode JSON formatted errors returned while deleting deployment for space=%s, app=%s, env=%s"
      (sv_delete_deployment sv p.1 p.2)) (environments apps) in
  s_query (λ _, all_failures es).

(** ** Requests *)

Section Controller.
Context {HO : UuidOps} (FormatShortest : float64 → string) (HasColumn : string → string → bool).
Context {RO : RowOrder} (selects : compiled → wi_db → selection) (ks ks' ks'' : list string).
Notation count_backlog := (countBacklogItems FormatShortest HasColumn selects ks ks' ks'').

(** A space with the number of items in its backlog. *)
Definition show_space (p : Space) : plm (AppSpace * Z) :=
  let* count := s_map (wrapf "unable to count backlog items") (count_backlog (sp_ID p)) in
  s_ret (ConvertSpaceFromModel p, count).
Fixpoint show_spaces (l : list Space) : plm (list (AppSpace * Z)) :=
  match l with
  | [] => s_ret []
  | p :: l => let* a := show_space p in let* r := show_spaces l in s_ret (a :: r)
  end.
Definition root_area_of (p : Space) : Area :=
  {| ar_Lifecycle := stamped zero_time; ar_Number := NewHumanFriendlyNumber uuid_Nil "" []; ar_ID := uuid_Nil;
     ar_SpaceID := sp_ID p; ar_Path := []; ar_Name := sp_Name p; ar_Version := 0 |}.
Definition root_iteration_of (p : Space) : Iteration :=
  {| it_Lifecycle := stamped zero_time; it_Number := NewHumanFriendlyNumber uuid_Nil "" []; it_ID := uuid_Nil;
     it_SpaceID := sp_ID p; it_Path := []; StartAt := None; EndAt := None; it_Name := sp_Name p; it_Description := None;
     it_State := ""; UserActive := false; it_RelationShipsChangedAt := None |}.
(** [newID], [areaID], [itID]: the ids that are drawn for a space without one, the root area and the root iteration. *)
Definition create_space_in_db (now : Time) (spaceID newID areaID itID user : uuid) (req : AppSpace) (a : SpaceAttributes) (name : string)
    : plm Space :=
  let* template := match as_SpaceTemplate req with
                   | Some id => let* _ := s_map (wrapf "space template not found: %s")
                                            (s_query (λ d, template_CheckExists (sps (pl_app d)) id)) in s_ret id
                   | None => s_ret SystemAgileTemplateID
                   end in
  let newSpace := {| sp_Lifecycle := stamped zero_time; sp_ID := spaceID; sp_Version := 0; sp_Name := name;
                     sp_Description := default "" (sa_Description a); OwnerID := user; sp_SpaceTemplateID := template |} in
  let* rSpace := s_map (wrapf "failed to create space: %s") (on_spaces (space_Create now newID newSpace)) in
  let* _ := s_map (wrapf "failed to create area: %s") (on_areas (area_Create now areaID (root_area_of rSpace))) in
  let* _ := s_map (wrapf "failed to create iteration for space: %s")
              (on_iterations (Iterations.Create now itID (root_iteration_of rSpace))) in
  s_ret rSpace.
Definition rollBackSpaceCreation (now : Time) (spaceID : uuid) : plm unit := transact (on_spaces (space_Delete now spaceID)).
Definition Create_space (now : Time) (newID newID' areaID itID : uuid) (between : planner → planner) (sv : services)
    (identity : res uuid) (data : option AppSpace) : plm (AppSpace * Z) :=
  let* user := s_query (λ _, user_of identity) in
  let* p := s_query (λ _, validateCreateSpace data) in
  let spaceID := default newID (as_ID p.1.1) in
  let* rSpace := transact (create_space_in_db now spaceID newID' areaID itID user p.1.1 p.1.2 p.2) in
  let* _ := meanwhile_ between in
  match sv_create_resource sv spaceID with
  | Ok _ => show_space rSpace
  | Err e => λ d, (Err e, (rollBackSpaceCreation now spaceID d).2)
  | Panic m => s_query (λ _, Panic m)
  end.
Definition Show_space (spaceID : uuid) : plm (AppSpace * Z) :=
  let* p := transact (s_query (λ d, space_Load (sps (pl_app d)) spaceID)) in show_space p.
Definition List_spaces (path : string) (identity : res uuid) (pageOffset : option string) (pageLimit : option Z)
    : plm (list (AppSpace * Z) * Z * PagingLinks) :=
  let* _ := s_query (λ _, user_of identity) in
  let '(offset, limit) := computePagingLimits pageOffset pageLimit in
  transact (
    let* p := s_query (λ d, space_List (Some offset) (Some limit) (sps (pl_app d))) in
    let* data := show_spaces p.1 in
    let* links := s_query (λ _, setPagingLinks blank_links path (Z.of_nat (length p.1)) offset limit p.2 []) in
    s_ret (data, p.2, links)).
Definition not_owner : error := GoaServiceError 403 "" "User is not the space owner" (Some ("forbidden", "User is not the space owner")).
Definition Update_space (now : Time) (identity : res uuid) (spaceID : uuid) (data : option AppSpace) : plm (AppSpace * Z) :=
  let* user := s_query (λ _, user_of identity) in
  let* p := s_query (λ _, validateUpdateSpace data) in
  let '(a, name, version) := p in
  let* s := transact (
    let* s := s_query (λ d, space_Load (sps (pl_app d)) spaceID) in
    let* _ := s_query (λ _, if bool_decide (user = OwnerID s) then Ok tt else Err not_owner) in
    on_spaces (space_Save now
      {| sp_Lifecycle := sp_Lifecycle s; sp_ID := sp_ID s; sp_Version := version; sp_Name := name;
         sp_Description := default (sp_Description s) (sa_Description a); OwnerID := OwnerID s;
         sp_SpaceTemplateID := sp_SpaceTemplateID s |})) in
  show_space s.
Definition delete_space_in_db (now : Time) (spaceID user : uuid) : plm unit :=
  let* s := s_query (λ d, space_Load (sps (pl_app d)) spaceID) in
  let* _ := s_query (λ _, if bool_decide (user = OwnerID s) then Ok tt else Err (ForbiddenError "user is not the space owner")) in
  on_spaces (space_Delete now spaceID).
Definition Delete_space (now : Time) (between : planner → planner) (sv : services) (identity : res uuid) (spaceID : uuid)
    (skipCluster : bool) : asking unit :=
  let* user := s_query (λ _, user_of identity) in
  let* _ := s_map (λ r, internal (wrapf "failed to delete codebases associated with space %s" r)) (deleteCodebases sv) in
  let* _ := if skipCluster then s_ret tt
            else s_map (λ r, internal (wrapf "could not delete Openshift resources associated with space %s" r))
                   (deleteOpenShiftResource sv) in
  let* _ := in_db (meanwhile_ between) in
  let* _ := in_db (transact (delete_space_in_db now spaceID user)) in
  let* _ := ask_ (ADeleteResource spaceID) in
  s_query (λ _, sv_delete_resource sv spaceID).
End Controller.
