(* ===== verification/LinkController.v ===== *)
(** * The requests on links

    [controller/work_item_link.go], [controller/work_item_relationships_links.go]
    and the conversions of [controller/work_item_link_type.go], over the store
    of the planner: the repository of links looks at the items there are.  Then
    who may delete a link and what that leaves, and what the creation of a link
    writes whatever it answers. *)

From Stdlib Require Import ZArith Lia Ascii String SpecFloat.
From S2P Require Import Errors Spaces LinkRepository LinkInvariant IterationRequests.
From S2P Require Export WorkItemController WorkItemRequests.
Import Transactions.

(** ** Payloads *)

Record AppLink := {
  al_ID : option uuid;
  al_Version : option Z;
  al_LinkType : option uuid;
  al_Source : option uuid;
  al_Target : option uuid;
}.
Definition no_time : Time := {| instant := 0; representation := 0 |}.
Definition blank_life : Lifecycle := {| CreatedAt := no_time; UpdatedAt := no_time; DeletedAt := None |}.
Record AppLinkType := {
  at_ID : option uuid;
  at_Name : option string;
  at_Description : option string;
  at_Version : option Z;
  at_ForwardName : option string;
  at_ForwardDescription : option string;
  at_ReverseName : option string;
  at_ReverseDescription : option string;
  at_Topology : option string;
  at_SpaceTemplate : option uuid;
}.

Section Conversions.
Context {HO : UuidOps}.

Definition not_nil (param : string) (id : option uuid) : res uuid :=
  match id with
  | Some id => if bool_decide (id = uuid_Nil) then Err (BadParameterError param (uuid_String id) None None) else Ok id
  | None => Ok uuid_Nil
  end.
Definition ConvertLinkToModel (a : AppLink) : res WorkItemLink :=
  source ← not_nil "data.relationships.source.data.id" (al_Source a);
  target ← not_nil "data.relationships.target.data.id" (al_Target a);
  Ok {| l_Lifecycle := blank_life; l_ID := default uuid_Nil (al_ID a); l_Version := default 0 (al_Version a);
        SourceID := source; TargetID := target; LinkTypeID := default uuid_Nil (al_LinkType a) |}.
Definition ConvertLinkFromModel (t : WorkItemLink) : AppLink :=
  {| al_ID := Some (l_ID t); al_Version := Some (l_Version t); al_LinkType := Some (LinkTypeID t);
     al_Source := Some (SourceID t); al_Target := Some (TargetID t) |}.

(** The parts of a payload that may be missing: the data, its attributes, its relationships. *)
Definition name_not_empty (param : string) (name : option string) : res string :=
  match name with
  | Some n => if String.eqb n "" then Err (BadParameterError param n None None) else Ok n
  | None => Ok ""
  end.
Definition topology_of (t : option string) : res string :=
  match t with Some t => _ ← Topology_CheckValid t; Ok t | None => Ok "" end.
Definition missing (param : string) (there : bool) : res unit :=
  if there then Ok tt else Err (BadParameterError param "<nil>" (Some "not <nil>") None).
Definition ConvertWorkItemLinkTypeToModel (data attributes relationships : bool) (a : AppLinkType) : res WorkItemLinkType :=
  _ ← missing "data" data;
  _ ← missing "data.attributes" attributes;
  _ ← missing "data.relationships" relationships;
  name ← name_not_empty "data.attributes.name" (at_Name a);
  forward ← name_not_empty "data.attributes.forward_name" (at_ForwardName a);
  reverse ← name_not_empty "data.attributes.reverse_name" (at_ReverseName a);
  topology ← topology_of (at_Topology a);
  Ok {| lt_Lifecycle := blank_life; lt_ID := default uuid_Nil (at_ID a); lt_Name := name;
        lt_Description := at_Description a; lt_Version := default 0 (at_Version a); lt_Topology := topology;
        lt_ForwardName := forward; lt_ForwardDescription := at_ForwardDescription a; lt_ReverseName := reverse;
        lt_ReverseDescription := at_ReverseDescription a; lt_SpaceTemplateID := default uuid_Nil (at_SpaceTemplate a) |}.
Definition ConvertWorkItemLinkTypeFromModel (t : WorkItemLinkType) : AppLinkType :=
  {| at_ID := Some (lt_ID t); at_Name := Some (lt_Name t); at_Description := lt_Description t;
     at_Version := Some (lt_Version t); at_ForwardName := Some (lt_ForwardName t);
     at_ForwardDescription := lt_ForwardDescription t; at_ReverseName := Some (lt_ReverseName t);
     at_ReverseDescription := lt_ReverseDescription t; at_Topology := Some (lt_Topology t);
     at_SpaceTemplate := Some (lt_SpaceTemplateID t) |}.
End Conversions.

Section Controller.
Context {HO : UuidOps} (time_json : Z → string) (struct_json : string → option gval).
Context (Sprint : gval → string) (RenderMarkupToHTML : string → string → string).
Context (fields : Fields → list (string * gval)) (authorize : string → res bool).
Notation LoadType id := (on_items_of (on_types (WorkItemTypes.Load time_json struct_json id))).
Notation LoadByID id := (on_items_of (WorkItems.LoadByID time_json struct_json id)).
Notation on_links := (on_links time_json struct_json).

(** ** What goes along with links *)

(** [type_missing]: how an error of loading the type is passed on. *)
Definition include_item (type_missing : res WorkItemType → res WorkItemType) (id : uuid) : plm AppAnswer :=
  let* wi := s_map with_stack (LoadByID id) in
  let* _ := s_map type_missing (LoadType (w_Type wi)) in
  s_query (λ _, with_stack (ConvertWorkItem Sprint RenderMarkupToHTML fields wi [])).
Definition include_type (id : uuid) : plm AppLinkType :=
  s_query (λ d, t ← with_stack (LinkType_Load (pl_links d) id); Ok (ConvertWorkItemLinkTypeFromModel t)).
Definition enrichLinkSingle (l : WorkItemLink) : plm (AppLinkType * AppAnswer * AppAnswer) :=
  let* t := include_type (LinkTypeID l) in
  let* source := include_item with_stack (SourceID l) in
  let* target := include_item with_stack (TargetID l) in
  s_ret (t, source, target).
Fixpoint include_each {A} (one : uuid → plm A) (ids : list uuid) : plm (list A) :=
  match ids with
  | [] => s_ret []
  | id :: ids => let* a := one id in let* l := include_each one ids in s_ret (a :: l)
  end.
(** The ids without repetitions, each where it comes first. *)
Fixpoint distinct (seen ids : list uuid) : list uuid :=
  match ids with
  | [] => []
  | id :: ids => if bool_decide (id ∈ seen) then distinct seen ids else id :: distinct (id :: seen) ids
  end.
Definition getTypesOfLinks (ls : list WorkItemLink) : plm (list AppLinkType) :=
  include_each include_type (distinct [] (map LinkTypeID ls)).
Definition getWorkItemsOfLinks (ls : list WorkItemLink) : plm (list AppAnswer) :=
  include_each (include_item (wrapf "failed to load work item type: %s")) (distinct [] (concat (map (λ l, [SourceID l; TargetID l]) ls))).
Definition enrichLinkList (ls : list WorkItemLink) : plm (list AppLinkType * list AppAnswer) :=
  let* ts := s_map with_stack (getTypesOfLinks ls) in
  let* items := getWorkItemsOfLinks ls in
  s_ret (ts, items).

(** ** Requests *)

(** Anybody who is logged in may create links; the link is committed before its ends are loaded for the answer. *)
Definition Create_link (now : Time) (newID : uuid) (identity : res uuid) (payload : AppLink)
    : plm (AppLink * (AppLinkType * AppAnswer * AppAnswer)) :=
  let* user := s_query (λ _, current_user identity) in
  let* m := s_query (λ _, ConvertLinkToModel payload) in
  let* created := transact (on_links (λ HW, LinkRepository.Create (HW := HW) now newID (SourceID m) (TargetID m) (LinkTypeID m) user)) in
  let* included := enrichLinkSingle created in
  s_ret (ConvertLinkFromModel created, included).
Definition Show_link (linkID : uuid) : plm (AppLink * (AppLinkType * AppAnswer * AppAnswer)) :=
  let* l := transact (s_query (λ d, LinkRepository.Load (pl_links d) linkID)) in
  let* included := enrichLinkSingle l in
  s_ret (ConvertLinkFromModel l, included).
Definition List_links_of (wiID : uuid) : plm (list AppLink * Z * (list AppLinkType * list AppAnswer)) :=
  let* ls := transact (on_links (λ HW, s_query (λ d, ListByWorkItem d wiID))) in
  let* included := enrichLinkList ls in
  s_ret (map ConvertLinkFromModel ls, Z.of_nat (length ls), included).

(** The space of the item is only known when the user did not create it; a space that cannot be loaded is a nil
    pointer. *)
Definition checkWorkItemCreatorOrSpaceOwner (wiID user : uuid) : plm (bool * option uuid) :=
  let* wi := LoadByID wiID in
  match field_of (w_Fields wi) SystemCreator with
  | VString s =>
      if String.eqb (uuid_String user) s then s_ret (true, None)
      else s_query (λ d, match space_Load (sps (pl_app d)) (w_SpaceID wi) with
                         | Ok space => Ok (bool_decide (user = OwnerID space), Some (w_SpaceID wi))
                         | _ => Panic nil_pointer
                         end)
  | _ => s_query (λ d, match space_Load (sps (pl_app d)) (w_SpaceID wi) with
                       | Ok space => Ok (bool_decide (user = OwnerID space), Some (w_SpaceID wi))
                       | _ => Panic nil_pointer
                       end)
  end.
Definition link_rights (linkID user : uuid) : plm (bool * option uuid * option uuid) :=
  let* l := s_query (λ d, LinkRepository.Load (pl_links d) linkID) in
  let* s := checkWorkItemCreatorOrSpaceOwner (SourceID l) user in
  if s.1 : bool then s_ret (true, s.2, None)
  else let* t := checkWorkItemCreatorOrSpaceOwner (TargetID l) user in s_ret (t.1, s.2, t.2).
Definition asked_in (space : option uuid) : res bool :=
  match space with Some s => authorize (uuid_String s) | None => Panic nil_pointer end.
Definition checkIfUserIsSpaceCollaboratorOrWorkItemCreator (linkID user : uuid) : plm bool :=
  let* r := transact (link_rights linkID user) in
  let '(authorized, sourceSpaceID, targetSpaceID) := r in
  if authorized : bool then s_ret true
  else let* _ := s_query (λ _, asked_in sourceSpaceID) in s_query (λ _, asked_in targetSpaceID).
Definition Delete_link (now : Time) (between : planner → planner) (identity : res uuid) (linkID : uuid) : plm unit :=
  let* user := s_query (λ _, current_user identity) in
  let* authorized := checkIfUserIsSpaceCollaboratorOrWorkItemCreator linkID user in
  let* _ := s_query (λ _, if negb authorized then Err (ForbiddenError "user is not authorized to delete the link") else Ok tt) in
  let* _ := meanwhile_ between in
  transact (on_links (λ HW, LinkRepository.Delete (HW := HW) now linkID user)).
End Controller.

(** ** What the requests do *)

Section Requests.
Context {HO : UuidOps} (time_json : Z → string) (struct_json : string → option gval).
Context (Sprint : gval → string) (RenderMarkupToHTML : string → string → string).
Context (fields : Fields → list (string * gval)) (authorize : string → res bool).
Notation LoadType id := (on_items_of (on_types (WorkItemTypes.Load time_json struct_json id))).
Notation LoadByID id := (on_items_of (WorkItems.LoadByID time_json struct_json id)).
Notation loaded d id wi := ((WorkItems.LoadByID time_json struct_json id (pl_wis d)).1 = Ok wi).
Notation check_owner := (checkWorkItemCreatorOrSpaceOwner time_json struct_json).

(** ** Who may delete a link *)

Definition created_by (wi : WorkItem) (user : uuid) : Prop := field_of (w_Fields wi) SystemCreator = VString (uuid_String user).
Definition owned_by (wi : WorkItem) (user : uuid) (d : planner) : Prop :=
  ∃ space, space_Load (sps (pl_app d)) (w_SpaceID wi) = Ok space ∧ OwnerID space = user.
Lemma check_owner_quiet wiID user : quiet (check_owner wiID user).
Proof.
  clear. unfold checkWorkItemCreatorOrSpaceOwner. apply keeps_bind; [apply _|eauto using LoadByID_quiet|intros wi].
  destruct (field_of _ _); try destruct (String.eqb _ _); eauto with quiet typeclass_instances.
Qed.
Lemma check_owner_ok wiID user d r d' : check_owner wiID user d = (Ok r, d') →
  ∃ wi, loaded d wiID wi ∧ (r.1 = true → created_by wi user ∨ owned_by wi user d) ∧
    (r.1 = false → r.2 = Some (w_SpaceID wi)).
Proof.
  clear. unfold checkWorkItemCreatorOrSpaceOwner. intros H. apply s_bind_ok in H as (wi & d1 & H1 & H).
  assert (Hs : sps (pl_app d1) = sps (pl_app d)) by (eapply sm_sps, keeps_at, H1; apply LoadByID_quiet).
  assert (Howner : ∀ q, s_query (λ d, match space_Load (sps (pl_app d)) (w_SpaceID wi) with
                                      | Ok space => Ok (bool_decide (user = OwnerID space), Some (w_SpaceID wi))
                                      | _ => Panic nil_pointer
                                      end) d1 = (Ok q, d') →
            (q.1 = true → owned_by wi user d) ∧ q.2 = Some (w_SpaceID wi)).
  { intros q Hq. apply s_query_ok in Hq as [Hq _]. unfold owned_by. rewrite <- Hs.
    destruct (space_Load _ _) as [space|e|m]; [|done..]. injection Hq as <-. split; [|done].
    intros Ho%bool_decide_eq_true. by exists space. }
  exists wi. split; [apply (transact_loaded _ _ _ _ _ d1); by rewrite transact_ok|].
  unfold created_by. destruct (field_of (w_Fields wi) SystemCreator) eqn:Ef; try (apply Howner in H as [Ho ->]; naive_solver).
  destruct (String.eqb_spec (uuid_String user) s) as [<-|]; [stm_inv; naive_solver|].
  apply Howner in H as [Ho ->]. naive_solver.
Qed.

(** The items are looked at in this order, and of the answers for their spaces only the second one counts. *)
Definition may_delete_link (linkID user : uuid) (d : planner) : Prop :=
  ∃ l source target, LinkRepository.Load (pl_links d) linkID = Ok l ∧
    loaded d (SourceID l) source ∧
    (created_by source user ∨ owned_by source user d ∨
     ∃ d1, same_planner d d1 ∧ loaded d1 (TargetID l) target ∧
       (created_by target user ∨ owned_by target user d1 ∨
        (∃ b, authorize (uuid_String (w_SpaceID source)) = Ok b) ∧
        authorize (uuid_String (w_SpaceID target)) = Ok true)).
Notation may := (checkIfUserIsSpaceCollaboratorOrWorkItemCreator time_json struct_json authorize).
Lemma may_quiet linkID user : quiet (may linkID user).
Proof.
  clear. unfold checkIfUserIsSpaceCollaboratorOrWorkItemCreator, link_rights.
  apply keeps_bind; [apply _| |intros [[b s] t]; destruct b; eauto 10 with quiet typeclass_instances].
  apply keeps_transact; [apply _|]. apply keeps_bind; [apply _|eauto with quiet typeclass_instances|intros l].
  apply keeps_bind; [apply _|apply check_owner_quiet|intros [[] s]; cbn [fst]; [eauto with quiet typeclass_instances|]].
  apply keeps_bind; [apply _|apply check_owner_quiet|eauto with quiet typeclass_instances].
Qed.
Lemma may_ok linkID user d d' : may linkID user d = (Ok true, d') → may_delete_link linkID user d.
Proof.
  clear. unfold checkIfUserIsSpaceCollaboratorOrWorkItemCreator. intros H.
  apply s_bind_ok in H as ([[b ss] ts] & d1 & H1 & H). rewrite transact_ok in H1. unfold link_rights in H1.
  apply s_bind_ok in H1 as (l & d2 & Hl & H1). apply s_query_ok in Hl as [Hl ->].
  apply s_bind_ok in H1 as (r1 & d2 & Hs & H1).
  assert (Hd2 : same_planner d d2) by (eapply keeps_at, Hs; apply check_owner_quiet).
  apply check_owner_ok in Hs as (source & Hsrc & Hyes & Hno).
  destruct (r1.1) eqn:E1.
  { exists l, source, source. split_and!; [done|done|]. destruct (Hyes eq_refl); [by left|by right; left]. }
  apply s_bind_ok in H1 as (r2 & d3 & Ht & H1). apply check_owner_ok in Ht as (target & Htgt & Hyes' & Hno').
  unfold s_ret in H1. injection H1 as <- <- <- _. exists l, source, target. split_and!; [done|done|]. right; right.
  exists d2. split_and!; [done|done|]. destruct (r2.1) eqn:E2.
  { destruct (Hyes' eq_refl); [by left|by right; left]. }
  right; right. rewrite (Hno eq_refl), (Hno' eq_refl) in H. cbn [asked_in] in H.
  apply s_bind_ok in H as (a & d4 & Ha & H). apply s_query_ok in Ha as [Ha ->]. apply s_query_ok in H as [H _].
  by split; [exists a|].
Qed.

(** ** Deleting *)

Record link_deleted (now : Time) (linkID user : uuid) (d d' : planner) : Prop := {
  ld_link : ∃ l, LinkRepository.Load (pl_links d) linkID = Ok l;
  ld_links : links (pl_links d') = map (LinkRepository.soft_delete now linkID) (links (pl_links d));
  ld_rest : pl_app d' = pl_app d ∧ pl_areas d' = pl_areas d ∧ pl_labels d' = pl_labels d ∧
            pl_accounts d' = pl_accounts d ∧ pl_codebases d' = pl_codebases d;
}.
(** C14: Only who may delete a link deletes it, and then this link and no other row is changed, over what the others committed in
    the meantime. *)
Theorem Delete_link_effect now between identity linkID d r d'
    (H : Delete_link time_json struct_json authorize now between identity linkID d = (r, d')) :
  ∃ d1, same_planner d d1 ∧
    match r with
    | Ok _ => ∃ user, identity = Ok user ∧ may_delete_link linkID user d ∧ link_deleted now linkID user (between d1) d'
    | _ => d' = d1 ∨ d' = between d1
    end.
Proof.
  unfold Delete_link, s_bind, meanwhile_ in H. unfold s_query in H.
  destruct (current_user identity) as [user|e|m] eqn:Eu; [|exists d; injection H as <- <-; by split; [|left]..].
  destruct (may linkID user d) as [x d1] eqn:Em. exists d1.
  split; [eapply keeps_at, Em; apply may_quiet|].
  destruct x as [[]|e|m]; [|injection H as <- <-; by left..]. cbn [negb] in H.
  destruct r as [u|e|m]; [|right; by eapply atomic_transact..].
  exists user. split_and!; [by apply current_user_ok|by eapply may_ok|].
  rewrite transact_ok in H. unfold on_links in H.
  destruct (LinkRepository.Delete _ _ _ _) as [r t] eqn:E. injection H as -> <-.
  unfold LinkRepository.Delete in E. apply s_bind_ok in E as (l & t1 & El & E). apply s_query_ok in El as [El ->].
  apply s_bind_ok in E as (i & t1 & Ei & E). rewrite s_map_ok in Ei by (intro; apply wrapf_ok).
  apply s_query_ok in Ei as [_ ->].
  pose proof (deleteLink_links now user l (links_view (between d1))) as EL. rewrite E in EL.
  split; [by exists l| |done]. simpl in *. rewrite EL.
  unfold LinkRepository.Load in El. destruct (find_link _ _) as [l'|] eqn:Ef; [|done]. injection El as ->.
  apply List.find_some in Ef as [_ Ef]. apply andb_true_iff in Ef as [_ Ef]. by apply bool_decide_eq_true in Ef as ->.
Qed.
End Requests.
