(* ===== verification/WorkItemListFacts.v ===== *)
(** * Lists of work items: what the answers hold

    The pages of a list put together are the list and each carries the count of
    all; [Fetch] gives a topmost match; the tree view of a filter lists the
    children of exactly those matches that have a matching child. *)

From Stdlib Require Import ZArith Lia Ascii String SpecFloat.
From stdpp Require Import sorting relations.
From S2P Require Import LinkRepository LinkGraph Search Spaces WorkItemFacts WorkItemOrder IterationMoves TypeFacts WorkItemExamples Events.
From S2P Require Export WorkItemLists.

(** ** Pages *)

(** The pages of [n] rows each, the first [k] of them. *)
Lemma pages_prefix {A} (n k : nat) (l : list A) :
  concat (map (λ i, Tables.page (Some (Z.of_nat (i * n))) (Some (Z.of_nat n)) l) (seq 0 k)) = take (k * n) l.
Proof.
  induction k as [|k IH]; [done|].
  rewrite seq_S, map_app, concat_app, IH. cbn [map concat]. rewrite app_nil_r. unfold Tables.page.
  rewrite !Nat2Z.id, Nat.add_0_l. rewrite <- (take_drop (k * n) (take (S k * n) l)), take_take, Nat.min_l by lia.
  f_equal. rewrite take_drop_commute. f_equal. f_equal. lia.
Qed.

(** ** The order of the rows *)

Lemma float_leb_rank f g : float_leb f g = true ↔ ¬ lex_lt (rank g) (rank f).
Proof.
  assert (Hn : ∀ h : float64, h = S754_nan ∨ number_ h) by (intros [[]|[]| |[]]; by (left + right)).
  destruct (Hn f) as [->|Hf]; [destruct g as [[]|[]| |[]]; cbn; unfold lex_lt; cbn; split; (done || lia)|].
  destruct (Hn g) as [->|Hg]; [destruct f as [[]|[]| |[]]; cbn; unfold lex_lt; cbn; split; (done || lia)|].
  transitivity (SFleb f g = true); [by destruct g|].
  rewrite <- SFltb_rank by done. unfold SFleb, SFltb.
  rewrite (SFcompare_rank f g Hf Hg), (SFcompare_rank g f Hg Hf).
  rewrite (Z.compare_antisym (rank f).1.1), (Z.compare_antisym (rank f).1.2), (Z.compare_antisym (rank f).2).
  by destruct ((rank f).1.1 ?= _), ((rank f).1.2 ?= _), ((rank f).2 ?= _).
Qed.

(** [execution_order DESC] *)
Definition topmost (a b : WorkItemStorage) : Prop := Is_true (sort_leb SortWorkItemsByDefault a b).
Lemma topmost_rank a b : topmost a b ↔ ¬ lex_lt (rank (s_ExecutionOrder a)) (rank (s_ExecutionOrder b)).
Proof. unfold topmost. rewrite Is_true_true. apply float_leb_rank. Qed.
#[export] Instance topmost_Total : Total topmost.
Proof. intros a b. rewrite !topmost_rank. unfold lex_lt. lia. Qed.
#[export] Instance topmost_Transitive : Transitive topmost.
Proof. intros a b c. rewrite !topmost_rank. unfold lex_lt. lia. Qed.
Lemma ordered_Permutation {RO : RowOrder} start limit leb l : ordered start limit leb l ≡ₚ l.
Proof. unfold ordered. by rewrite merge_sort_Permutation, arranged_rows. Qed.
Lemma ordered_sorted {RO : RowOrder} start limit l : StronglySorted topmost (ordered start limit (sort_leb SortWorkItemsByDefault) l).
Proof. apply (StronglySorted_merge_sort topmost). Qed.
Lemma ordered_head {RO : RowOrder} start limit w l l' : ordered start limit (sort_leb SortWorkItemsByDefault) l = w :: l' →
  ∀ x, x ∈ l → topmost w x.
Proof.
  intros H x Hx. pose proof (ordered_sorted start limit l) as HS. rewrite <- (ordered_Permutation start limit (sort_leb SortWorkItemsByDefault)) in Hx.
  rewrite H in HS, Hx. apply elem_of_cons in Hx as [->|Hx]; [by destruct (total topmost w w)|].
  apply StronglySorted_inv in HS as [_ HF]. by eapply Forall_forall in HF.
Qed.
Lemma elem_of_ordered {RO : RowOrder} start limit leb x l : x ∈ ordered start limit leb l ↔ x ∈ l.
Proof. by rewrite ordered_Permutation. Qed.
Lemma length_ordered {RO : RowOrder} start limit leb l : length (ordered start limit leb l) = length l.
Proof. by rewrite ordered_Permutation. Qed.
(** Without ties the order is the same for every query. *)
Definition no_ties (l : list WorkItemStorage) : Prop := ∀ a b, a ∈ l → b ∈ l → topmost a b → topmost b a → a = b.
Lemma different_orders_no_ties l : NoDup (map (rank ∘ s_ExecutionOrder) l) → no_ties l.
Proof.
  intros Hn a b Ha Hb H1%topmost_rank H2%topmost_rank. apply (unique_row (rank ∘ s_ExecutionOrder) l); [done..|].
  unfold lex_lt, compose in *. destruct (rank (s_ExecutionOrder a)) as [[x1 x2] x3], (rank (s_ExecutionOrder b)) as [[y1 y2] y3].
  cbn in *. f_equal; [f_equal|]; lia.
Qed.
Lemma ordered_no_ties {RO : RowOrder} start limit start' limit' l : no_ties l →
  ordered start limit (sort_leb SortWorkItemsByDefault) l = ordered start' limit' (sort_leb SortWorkItemsByDefault) l.
Proof.
  intros Ht. apply (StronglySorted_unique_strong topmost); [|apply ordered_sorted..|by rewrite !ordered_Permutation].
  intros a b Ha%elem_of_ordered Hb%elem_of_ordered. by apply Ht.
Qed.

Section Facts.
Context {HO : UuidOps} (time_json : Z → string) (struct_json : string → option gval).
Context (FormatShortest : float64 → string) (HasColumn : string → string → bool).
Context {RO : RowOrder} (selects : compiled → wi_db → selection) (ks ks' ks'' : list string).
Notation Compile_ := (Compile_ FormatShortest ks ks' ks'').
Notation listItemsFromDB := (listItemsFromDB FormatShortest HasColumn selects ks ks' ks'').
Notation convert_rows := (convert_rows time_json struct_json).
Notation wi_List := (wi_List time_json struct_json FormatShortest HasColumn selects ks ks' ks'').
Notation wi_Fetch := (wi_Fetch time_json struct_json FormatShortest HasColumn selects ks ks' ks'').

(** The answer for a row: its conversion by the stored type, when the cache has no other. *)
Definition converted (d : wi_db) (w : WorkItemStorage) (x : WorkItem) : Prop :=
  models w x ∧ (coherent time_json struct_json (types d) → ∃ t, load_row time_json struct_json (tdb (types d)) (s_Type w) = Ok t ∧
                                          ConvertWorkItemStorageToModel t w = Ok x).
Lemma convert_rows_models failed l d xs d' : convert_rows failed l d = (Ok xs, d') → Forall2 (converted d) l xs.
Proof.
  revert d xs; induction l as [|w l IH]; cbn [WorkItemLists.convert_rows]; intros d xs H; stm_inv; [constructor|].
  match goal with H : match ?c with _ => _ end = Ok _ |- _ => destruct c as [y|e|m] eqn:E; [|done..] end.
  match goal with H : on_types _ _ = _ |- _ => rename H into HT end. simplify_eq. constructor.
  - split; [by eapply convert_models|]. intros Hc.
    destruct (on_types_Load time_json struct_json (s_Type w) d Hc) as (d2 & E2 & _). rewrite HT in E2. injection E2 as E2 _. eauto.
  - match goal with H : WorkItemLists.convert_rows _ _ _ _ _ = _ |- _ => apply IH in H; eapply Forall2_impl; [exact H|] end.
    intros v y0 [Hm Hcv]. split; [done|]. intros Hc.
    destruct (on_types_Load time_json struct_json (s_Type w) d Hc) as (d2 & E2 & _ & Ht & Hc2). rewrite HT in E2.
    injection E2 as _ <-. rewrite <- Ht. by apply Hcv.
Qed.

(** ** [Fetch] *)

(** The matches of an expression in a space. *)
Definition matching (times : WorkItemStorage → nat) (spaceID : uuid) (d : wi_db) (w : WorkItemStorage) : Prop :=
  w ∈ rows d ∧ s_live w = true ∧ s_SpaceID w = spaceID ∧ (0 < times w)%nat.
Lemma elem_of_live_rows p d w : w ∈ live_rows p d ↔ w ∈ rows d ∧ s_live w = true ∧ p w = true.
Proof. unfold live_rows. by rewrite elem_of_bfilter, andb_true_iff. Qed.
Lemma elem_of_joined_rows times l w : w ∈ joined_rows times l ↔ w ∈ l ∧ (0 < times w)%nat.
Proof.
  clear time_json struct_json.
  unfold joined_rows. rewrite list_elem_of_In, in_flat_map. setoid_rewrite <- list_elem_of_In.
  assert (HR : ∀ n (x : WorkItemStorage), w ∈ repeat x n ↔ w = x ∧ (0 < n)%nat).
  { induction n as [|n IH]; intros x; cbn [repeat]; [rewrite elem_of_nil; lia|].
    rewrite elem_of_cons, IH. naive_solver lia. }
  setoid_rewrite HR. naive_solver.
Qed.
Lemma validate_joins_ok js :
  validate_joins HasColumn js = Ok tt ↔ Forall (λ j, TableJoin.Validate HasColumn j = Ok tt) js.
Proof.
  induction js as [|j js IH]; cbn [validate_joins]; [done|]. rewrite Forall_cons, <- IH.
  destruct (TableJoin.Validate HasColumn j) as [[]|e|m]; naive_solver.
Qed.

Lemma listItems_ok spaceID c exists_ start limit sort d l n :
  listItemsFromDB spaceID c exists_ start limit sort d = Ok (l, n) ↔
  errors (Compile_ c) = [] ∧ validate_joins HasColumn (ExpressionCompiler.joined (Compile_ c)) = Ok tt ∧ page_limits start limit = Ok tt ∧
  ∃ p, selects (Compile_ c) (ls_items d) = Selected p ∧
    paged start limit (ordered start limit (sort_leb sort) (joined_rows p (live_rows (λ w, in_space spaceID w
      && (negb (orphans_only exists_) || has_no_parent_link (ls_links d) w)) (ls_items d)))) = (l, n).
Proof.
  clear time_json struct_json. unfold WorkItemLists.listItemsFromDB, compiled_rows. destruct (errors _) as [|e es]; [|naive_solver].
  destruct (validate_joins _ _) as [[]|e|m]; [|naive_solver..]. cbn [mbind res_bind].
  destruct (page_limits start limit) as [[]|e|m]; [|naive_solver..]. cbn [mbind res_bind].
  destruct (selects _ _) as [p|code message]; [|by split; [|intros (_ & _ & _ & p & ? & _)]]. split.
  - intros H. split_and!; [done..|]. exists p. split; [done|congruence].
  - intros (_ & _ & _ & q & [= ->] & H). by f_equal.
Qed.

(** The first row of a query for one row is there when the count is not zero. *)
Lemma wi_Fetch_head spaceID c d :
  wi_Fetch spaceID c d =
  s_map (λ r, p ← r; Ok (head p.1)) (wi_List spaceID c None None (Some 1) SortWorkItemsByDefault) d.
Proof.
  unfold WorkItemLists.wi_Fetch, s_bind at 1, s_map at 1. destruct (wi_List _ _ _ _ _ _ d) as [[[l n]|e|m] d'] eqn:E; [|done..].
  cbn [fst snd mbind res_bind]. unfold WorkItemLists.wi_List in E. stm_inv.
  match goal with H : on_items _ _ = _ |- _ => unfold on_items in H; destruct (convert_rows _ _ _) as [r t] eqn:EC; simplify_eq end.
  match goal with H : listItemsFromDB _ _ _ _ _ _ _ = Ok ?p |- _ => destruct p as [rs k] end.
  apply convert_rows_models in EC. apply listItems_ok in H as (_ & _ & _ & p & _ & [= <- <-]).
  cbn [fst snd] in *. unfold Tables.page in EC. set (all := ordered _ _ _ _) in *.
  destruct all as [|w all]; cbn in EC |- *; [by apply Forall2_nil_inv_l in EC as ->|].
  apply Forall2_cons_inv_l in EC as (x & l' & _ & _ & ->). done.
Qed.

(** Fetch answers with no item exactly when no item of the space matches the expression, and otherwise with the
    conversion of a match that no match is ordered above. *)
Theorem Fetch_top spaceID c d o d' (H : wi_Fetch spaceID c d = (Ok o, d')) :
  ∃ p, selects (Compile_ c) (ls_items d) = Selected p ∧
    match o with
    | None => ∀ w, ¬ matching p spaceID (ls_items d) w
    | Some x => ∃ w, matching p spaceID (ls_items d) w ∧ converted (ls_items d) w x ∧
                     ∀ w', matching p spaceID (ls_items d) w' → topmost w w'
    end.
Proof.
  rewrite wi_Fetch_head in H. unfold s_map at 1 in H.
  destruct (wi_List _ _ _ _ _ _ d) as [[[l n]|e|m] d1] eqn:E; [|done..]. cbn in H. simplify_eq.
  unfold WorkItemLists.wi_List in E. stm_inv.
  match goal with H : on_items _ _ = _ |- _ => unfold on_items in H; destruct (convert_rows _ _ _) as [r t] eqn:EC; simplify_eq end.
  match goal with H : listItemsFromDB _ _ _ _ _ _ _ = Ok ?p |- _ => destruct p as [rs k] end.
  apply convert_rows_models in EC. apply listItems_ok in H as (_ & _ & _ & p & Hp & [= Hl _]). exists p. split; [done|].
  subst rs. set (ms := joined_rows _ _) in *.
  assert (HM : ∀ w, w ∈ ms ↔ matching p spaceID (ls_items d) w).
  { intros w. unfold ms. rewrite elem_of_joined_rows, elem_of_live_rows. unfold matching, in_space, orphans_only.
    cbn [negb orb]. rewrite andb_true_r, bool_decide_eq_true. naive_solver. }
  clearbody ms.
  cbn [fst] in EC. unfold Tables.page in EC. destruct (ordered _ _ _ _) as [|w all] eqn:EO; cbn in EC.
  - apply Forall2_nil_inv_l in EC as ->. intros w Hw%HM. rewrite <- elem_of_ordered, EO in Hw. by apply elem_of_nil in Hw.
  - apply Forall2_cons_inv_l in EC as (x & l' & Hx & _ & ->). exists w. split_and!; [|done|].
    + apply HM. rewrite <- elem_of_ordered, EO. apply list_elem_of_here.
    + intros w' Hw'%HM. by apply (ordered_head _ _ _ _ _ EO).
Qed.

(** When no two matches are tied, the pages of n rows put together are the whole list in its order, and each of them comes
    with the number of all matches. *)
Theorem List_pages spaceID c exists_ d all total n (Hn : (0 < n)%nat) (Ht : no_ties all)
    (H : listItemsFromDB spaceID c exists_ None None SortWorkItemsByDefault d = Ok (all, total)) :
  total = Z.of_nat (length all) ∧
  ∀ k, ∃ pages, length pages = k ∧ concat pages = take (k * n) all ∧
    ∀ i page, pages !! i = Some page →
      listItemsFromDB spaceID c exists_ (Some (Z.of_nat (i * n))) (Some (Z.of_nat n)) SortWorkItemsByDefault d = Ok (page, total).
Proof.
  clear time_json struct_json. apply listItems_ok in H as (H1 & H2 & _ & p & Hp & [= <- <-]). split; [done|].
  set (all := ordered _ _ _ _) in *.
  intros k. exists (map (λ i, Tables.page (Some (Z.of_nat (i * n))) (Some (Z.of_nat n)) all) (seq 0 k)).
  split_and!; [by rewrite length_map, length_seq|apply pages_prefix|].
  intros i pg Hi. apply listItems_ok. split_and!; [done..| |].
  - unfold page_limits. rewrite (proj2 (Z.ltb_ge _ _)), (proj2 (Z.leb_gt _ _)) by lia. done.
  - exists p. split; [done|]. rewrite list_lookup_fmap in Hi. apply fmap_Some in Hi as (j & [-> _]%lookup_seq & ->).
    unfold all. rewrite (ordered_no_ties None None (Some (Z.of_nat (0 + i * n))) (Some (Z.of_nat n))); [done|].
    intros a b Ha Hb. apply Ht; by apply elem_of_ordered.
Qed.
End Facts.

(** ** The tree view *)

Notation parent_of ls := (edge ls SystemWorkItemLinkTypeParentChildID).

(** Each reported ancestor is a parent of its direct child, and the parents of the items asked for are reported. *)
Lemma GetAncestors_direct d ty ids :
  ∃ l, GetAncestors d ty AncestorLevelAll ids = Ok l ∧
    (∀ a, a ∈ l → edge (links d) ty (DirectChildID a) (a_ID a)) ∧
    (∀ c p, c ∈ ids → edge (links d) ty c p → ∃ a, a ∈ l ∧ DirectChildID a = c ∧ a_ID a = p).
Proof.
  destruct (decide (ids = [])) as [->|Hids].
  { exists []. split_and!; [done|by intros a ?%elem_of_nil|by intros c p ?%elem_of_nil]. }
  destruct (GetAncestors_query d ty AncestorLevelAll ids Hids) as (rows & Hrows & ->); [by right|].
  eexists; split_and!; [done| |].
  - intros a (w & -> & Hw)%list_elem_of_fmap. by destruct (query_sound _ _ _ _ _ Hrows w Hw) as (_ & _ & _ & _ & He).
  - intros c p Hc (l & Hl & Hp & <- & <-).
    eexists. split; [apply list_elem_of_fmap_2, (with_recursive_mono _ _ _ _ _ _ _ Hrows), elem_of_start|].
    + exists l. split_and!; done.
    + done.
Qed.
(** With one parent for each item, [GetParentOf] finds it. *)
Lemma GetParentOf_spec d (ids : list uuid) l (HS : single_parent (links d) SystemWorkItemLinkTypeParentChildID)
    (Hs : ∀ a, a ∈ l → parent_of (links d) (DirectChildID a) (a_ID a))
    (Hc : ∀ c p, c ∈ ids → parent_of (links d) c p → ∃ a, a ∈ l ∧ DirectChildID a = c ∧ a_ID a = p) c p :
  c ∈ ids → (∃ a, GetParentOf l c = Some a ∧ a_ID a = p) ↔ parent_of (links d) c p.
Proof.
  intros Hin. unfold GetParentOf. split.
  - intros (a & [Ha%list_elem_of_In Hd]%List.find_some & <-). apply bool_decide_eq_true in Hd. subst c. by apply Hs.
  - intros He. destruct (Hc c p Hin He) as (a & Ha & Hd & Hp). destruct (List.find _ l) as [b|] eqn:E.
    + exists b. split; [done|]. apply List.find_some in E as [Hb%list_elem_of_In E]. apply bool_decide_eq_true in E.
      apply (HS c); [rewrite <- E; by apply Hs|done].
    + apply list_elem_of_In, (List.find_none _ _ E) in Ha. by rewrite bool_decide_eq_false in Ha.
Qed.

(** C35: When every item has at most one parent, as Create keeps it for a tree, the tree view of a list of matches always
    answers, and its child links are exactly the links between a match and its children, for the matches that have
    another match as a child; cycles are allowed. *)
Theorem tree_view_children d result (HS : single_parent (links d) SystemWorkItemLinkTypeParentChildID) :
  ∃ ancestors children, tree_view d result = Ok (ancestors, children) ∧
    (∀ a, a ∈ ancestors → parent_of (links d) (DirectChildID a) (a_ID a)) ∧
    (∀ l, l ∈ children ↔ l ∈ links d ∧ in_play SystemWorkItemLinkTypeParentChildID l = true ∧
       SourceID l ∈ map s_ID result ∧
       ∃ w, w ∈ result ∧ s_ID w ≠ SourceID l ∧ parent_of (links d) (s_ID w) (SourceID l)).
Proof.
  unfold tree_view.
  destruct (GetAncestors_direct d SystemWorkItemLinkTypeParentChildID (map s_ID result)) as (as_ & -> & Hs & Hc).
  cbn [wrapf mbind res_bind]. do 2 eexists. split_and!; [done|done|]. intros l. unfold ListChildLinks.
  rewrite elem_of_bfilter, !andb_true_iff, !bool_decide_eq_true, elem_of_bfilter.
  assert (HP : is_parent_in as_ result (SourceID l) = true ↔
    ∃ w, w ∈ result ∧ s_ID w ≠ SourceID l ∧ parent_of (links d) (s_ID w) (SourceID l)).
  { unfold is_parent_in. rewrite existsb_elem. setoid_rewrite andb_true_iff. setoid_rewrite negb_true_iff. setoid_rewrite bool_decide_eq_false.
    split; intros (w & Hw & Hne & H); exists w; (split_and!; [done|done|]);
      apply (GetParentOf_spec d _ as_ HS Hs Hc (s_ID w)) || (apply (GetParentOf_spec d _ as_ HS Hs Hc (s_ID w)) in H);
      try by apply list_elem_of_fmap_2.
    - destruct (GetParentOf as_ (s_ID w)) as [a|]; [|done]. exists a. by rewrite bool_decide_eq_true in H.
    - destruct H as (a & -> & <-). by rewrite bool_decide_eq_true. }
  rewrite HP. unfold in_play. rewrite andb_true_iff, bool_decide_eq_true. naive_solver.
Qed.

(** ** Witnesses: an item with two children, the answer of a list of two of them *)
#[local] Existing Instance turning_order.

Definition row_with (n : N) : WorkItemStorage :=
  {| s_Lifecycle := s_Lifecycle zero_row; s_ID := uuid_of n; s_Number := Z.of_N n; s_Type := uuid_Nil; s_Version := 0;
     s_Fields := ∅; s_ExecutionOrder := f_zero; s_SpaceID := uuid_Nil; s_RelationShipsChangedAt := None |}.
Definition child_link (n parent child : N) : WorkItemLink :=
  {| l_Lifecycle := s_Lifecycle zero_row; l_ID := uuid_of n; l_Version := 0; SourceID := uuid_of parent;
     TargetID := uuid_of child; LinkTypeID := SystemWorkItemLinkTypeParentChildID |}.
Definition family : LinkRepository.db :=
  {| links := [child_link 11 1 2; child_link 12 1 3]; link_types := []; items := []; revisions := []; space_templates := [] |}.
Lemma family_single_parent : single_parent (links family) SystemWorkItemLinkTypeParentChildID.
Proof.
  intros c p q (l & Hl & _ & <- & <-) (k & Hk & _ & Ht & <-). cbn in Hl, Hk.
  apply elem_of_cons in Hl as [->|Hl%list_elem_of_singleton]; [|subst l];
    (apply elem_of_cons in Hk as [->|Hk%list_elem_of_singleton]; [|subst k]); reflexivity.
Qed.
Lemma tree_view_children_witness : ∃ ancestors children,
  tree_view family [row_with 1; row_with 2] = Ok (ancestors, children) ∧
  ∀ l, l ∈ children → SourceID l ∈ map s_ID [row_with 1; row_with 2].
Proof.
  destruct (tree_view_children family [row_with 1; row_with 2] family_single_parent) as (a & c & H & _ & Hc).
  exists a, c. split; [exact H|]. intros l Hl. exact (proj1 (proj2 (proj2 (proj1 (Hc l) Hl)))).
Defined.
(** The second child comes along: it is no match, its parent is one with a matching child. *)
Example family_children :
  (r ← tree_view family [row_with 1; row_with 2]; Ok (map l_ID r.2)) = Ok [uuid_of 11; uuid_of 12] ∧
  (r ← tree_view family [row_with 1]; Ok r.2) = Ok [].
Proof. split; by vm_compute. Qed.

Definition title_is_crash : Expression := Equals (Field "system.title") (Literal (LString "crash")).
Definition every_row : compiled → wi_db → selection := λ _ _, Selected (λ _, 1%nat).
Definition listed : list_db := {| ls_items := store2; ls_links := family |}.
Notation fetch_here := (wi_Fetch no_json_time no_json_struct (λ _, "") (λ _ _, true) every_row [] [] [] id_space title_is_crash).
Lemma Fetch_top_witness : ∃ x w, (fetch_here listed).1 = Ok (Some x) ∧
  matching (λ _, 1%nat) id_space store2 w ∧ models w x ∧ ∀ w', matching (λ _, 1%nat) id_space store2 w' → topmost w w'.
Proof.
  assert (HF : match (fetch_here listed).1 with Ok (Some _) => true | _ => false end = true) by by vm_compute.
  pose proof (Fetch_top no_json_time no_json_struct (λ _, "") (λ _ _, true) every_row [] [] [] id_space title_is_crash listed)
    as HT.
  destruct (fetch_here listed) as [[[x|]|e|m] d']; [|discriminate HF..]. cbn [fst].
  destruct (HT (Some x) d' eq_refl) as (p & Hp & w & Hw & Hm & Ht). injection Hp as <-.
  exists x, w. exact (conj eq_refl (conj Hw (conj (proj1 Hm) Ht))).
Defined.
Notation list_here := (listItemsFromDB (λ _, "") (λ _ _, true) every_row [] [] [] id_space title_is_crash None).
Lemma List_pages_witness : ∃ all, list_here None None SortWorkItemsByDefault listed = Ok (all, 2) ∧
  ∀ k, ∃ pages, length pages = k ∧ concat pages = take (k * 1) all.
Proof.
  assert (HL : match list_here None None SortWorkItemsByDefault listed with
               | Ok (l, n) => (n =? 2) && bool_decide (NoDup (map (rank ∘ s_ExecutionOrder) l)) | _ => false end = true) by by vm_compute.
  destruct (list_here None None SortWorkItemsByDefault listed) as [[all total]|e|m] eqn:E; [|discriminate HL..].
  apply andb_prop in HL as [->%Z.eqb_eq HN%bool_decide_eq_true]. exists all. split; [exact eq_refl|]. intros k.
  destruct (List_pages (λ _, "") (λ _ _, true) every_row [] [] [] id_space title_is_crash None
              listed all 2 1 (le_n 1) (different_orders_no_ties _ HN) E) as [_ H].
  destruct (H k) as (pages & Hl & Hc & _). exists pages. exact (conj Hl Hc).
Defined.
