(* ===== verification/CommentController.v ===== *)
(** * The requests on comments

    [controller/comments.go] and [controller/work_item_comments.go]: showing,
    changing and deleting a comment, and writing and listing the comments of an
    item.  Notifications and the headers of conditional requests are left out.
    Then who may change or delete a comment and what that leaves; the history
    stays true, and the author and the place of a comment stay as they were,
    whatever else is committed in between. *)

From Stdlib Require Import ZArith Lia Ascii String SpecFloat.
From stdpp Require Import relations.
From S2P Require Import Errors Paging LinkInvariant IterationRequests.
From S2P Require Export Comments WorkItemController WorkItemRequests.
Import Transactions Comments Paging.

Record forum := { fo_planner : planner; fo_comments : comment_db }.
Notation fom A := (forum → res A * forum).
Definition on_planner {A} (m : plm A) : fom A := λ d,
  let '(r, p) := m (fo_planner d) in (r, {| fo_planner := p; fo_comments := fo_comments d |}).
Definition on_comments {A} (m : cmm A) : fom A := λ d,
  let '(r, c) := m (fo_comments d) in (r, {| fo_planner := fo_planner d; fo_comments := c |}).
Definition others_commit (between : forum → forum) : fom unit := λ d, (Ok tt, between d).
Definition goa_ErrInternal (detail : string) : error := goa_error 500 "internal" detail.
Definition not_found_ {A} (r : res A) : res A :=
  match r with Err e => Err (goa_ErrNotFound (Errors.ErrorMsg e)) | r => r end.
Definition internal_error_ {A} (r : res A) : res A :=
  match r with Err e => Err (goa_ErrInternal (Errors.ErrorMsg e)) | r => r end.

(** ** Answers, without their links *)

Record AppComment := {
  ac_ID : uuid;
  ac_Body : string;
  ac_BodyRendered : string;
  ac_Markup : string;
  ac_CreatedAt : Time;
  ac_UpdatedAt : Time;
  ac_Creator : string;
  ac_CreatedBy : uuid;
  ac_ParentComment : option string;
  ac_Parent : option (string * string);          (* its type and id *)
}.
Definition APIStringTypeWorkItem : string := "workitems".

Section Controller.
Context {HO : UuidOps} (time_json : Z → string) (struct_json : string → option gval).
Context (RenderMarkupToHTML : string → string → string) (authorize : string → res bool).
Notation LoadByID id := (on_planner (on_items_of (WorkItems.LoadByID time_json struct_json id))).

Notation CommentConvertFunc := (Comment → AppComment → AppComment).
Definition ConvertComment (comment : Comment) (additional : list CommentConvertFunc) : AppComment :=
  fold_left (λ c add, add comment c) additional
    {| ac_ID := cm_ID comment; ac_Body := Body comment; ac_BodyRendered := RenderMarkupToHTML (Body comment) (cm_Markup comment);
       ac_Markup := NilSafeGetMarkup (Some (cm_Markup comment));
       ac_CreatedAt := CreatedAt (cm_Lifecycle comment); ac_UpdatedAt := UpdatedAt (cm_Lifecycle comment);
       ac_Creator := uuid_String (cm_Creator comment); ac_CreatedBy := cm_Creator comment;
       ac_ParentComment := option_map uuid_String (ParentCommentID comment); ac_Parent := None |}.
Definition ConvertComments (comments : list Comment) (additional : list CommentConvertFunc) : list AppComment :=
  map (λ c, ConvertComment c additional) comments.
Definition CommentIncludeParent (parentType : string) : CommentConvertFunc := λ comment data,
  {| ac_ID := ac_ID data; ac_Body := ac_Body data; ac_BodyRendered := ac_BodyRendered data; ac_Markup := ac_Markup data;
     ac_CreatedAt := ac_CreatedAt data; ac_UpdatedAt := ac_UpdatedAt data; ac_Creator := ac_Creator data;
     ac_CreatedBy := ac_CreatedBy data; ac_ParentComment := ac_ParentComment data;
     ac_Parent := Some (parentType, uuid_String (ParentID comment)) |}.
Definition CommentIncludeParentWorkItem : CommentConvertFunc := CommentIncludeParent APIStringTypeWorkItem.
Definition ConvertCommentsResourceID (comments : list Comment) : list uuid := map cm_ID comments.

(** ** One comment *)

Definition load_comment (commentID : uuid) : fom Comment := s_query (λ d, comment_Load commentID (fo_comments d)).
Definition Show_comment (commentID : uuid) : fom AppComment :=
  let* cmt := transact (load_comment commentID) in
  s_ret (ConvertComment cmt [CommentIncludeParentWorkItem]).

(** The item of a comment is only loaded for those who did not write it: [None], the user did. *)
Definition loadComment (commentID identityID : uuid) : fom (Comment * option WorkItem) :=
  transact (
    let* cm := load_comment commentID in
    if bool_decide (identityID = cm_Creator cm) then s_ret (cm, None)
    else let* wi := LoadByID (ParentID cm) in s_ret (cm, Some wi)).
(** The creator of the comment, or a collaborator of the space. *)
Definition check_collaborator (wi : option WorkItem) : res unit :=
  match wi with
  | None => Ok tt
  | Some wi =>
      match authorize (uuid_String (w_SpaceID wi)) with
      | Err e => Err (UnauthorizedError (Errors.ErrorMsg e))
      | Panic m => Panic m
      | Ok false => Err (ForbiddenError "user is not a space collaborator")
      | Ok true => Ok tt
      end
  end.
Definition with_body (body : string) (markup : option string) (cm : Comment) : Comment :=
  {| cm_Lifecycle := cm_Lifecycle cm; cm_ID := cm_ID cm; ParentID := ParentID cm; ParentCommentID := ParentCommentID cm;
     cm_Creator := cm_Creator cm; Body := body; cm_Markup := NilSafeGetMarkup markup |}.
(** A payload without a body is a nil pointer. *)
Definition performUpdate (now now' : Time) (cm : Comment) (identityID : uuid) (body markup : option string) : fom Comment :=
  transact (match body with
            | None => s_query (λ _, Panic nil_pointer)
            | Some b => on_comments (comment_Save now now' (with_body b markup cm) identityID)
            end).
Definition Update_comment (now now' : Time) (between : forum → forum) (identity : res uuid) (commentID : uuid)
    (body markup : option string) : fom AppComment :=
  let* identityID := s_query (λ _, user_of identity) in
  let* p := loadComment commentID identityID in
  let* _ := s_query (λ _, check_collaborator p.2) in
  let* _ := others_commit between in
  let* cm := performUpdate now now' p.1 identityID body markup in
  s_ret (ConvertComment cm [CommentIncludeParentWorkItem]).
Definition Delete_comment (now now' : Time) (between : forum → forum) (identity : res uuid) (commentID : uuid) : fom unit :=
  let* identityID := s_query (λ _, user_of identity) in
  let* p := loadComment commentID identityID in
  let* _ := s_query (λ _, check_collaborator p.2) in
  let* _ := others_commit between in
  transact (on_comments (comment_Delete now now' (cm_ID p.1) identityID)).

(** ** The comments of an item *)

Record CommentPayload := {
  cp_Body : string;
  cp_Markup : option string;
  cp_ParentComment : option (option (option string));   (* the relationship, its data, the id *)
}.
(** The id of the comment that is answered; [Ok (Err e)]: the error is written, and the transaction commits. *)
Definition parent_comment (p : CommentPayload) : res (res (option uuid)) :=
  match cp_ParentComment p with
  | None => Ok (Ok None)
  | Some (Some (Some stringUUID)) =>
      match uuid_FromString stringUUID with
      | Some u => Ok (Ok (Some u))
      | None => Ok (Err (Plain "uuid: incorrect UUID"))
      end
  | Some _ => Panic nil_pointer
  end.
Definition new_comment (wiID user : uuid) (p : CommentPayload) (parent : option uuid) : Comment :=
  {| cm_Lifecycle := stamped {| instant := 0; representation := 0 |}; cm_ID := uuid_Nil; ParentID := wiID;
     ParentCommentID := parent; cm_Creator := user; Body := cp_Body p; cm_Markup := NilSafeGetMarkup (cp_Markup p) |}.
(** Anybody who is logged in may comment.  [inl e]: an error was written by a handler that then succeeds. *)
Definition Create_comment (now now' : Time) (newID : uuid) (identity : res uuid) (wiID : uuid) (p : CommentPayload)
    : fom (error + AppComment) :=
  transact (
    let* _ := s_map not_found_ (LoadByID wiID) in
    let* user := s_query (λ _, user_of identity) in
    let* parent := s_query (λ _, parent_comment p) in
    match parent with
    | Err e => s_ret (inl e)
    | Panic m => s_query (λ _, Panic m)
    | Ok parentCommentID =>
        let* c := s_map internal_error_ (on_comments (comment_Create now now' newID (new_comment wiID user p parentCommentID) user)) in
        s_ret (inr (ConvertComment c []))
    end).
Definition List_comments (path : string) (wiID : uuid) (pageOffset : option string) (pageLimit : option Z)
    : fom (list AppComment * Z * PagingLinks) :=
  let '(offset, limit) := computePagingLimits pageOffset pageLimit in
  transact (
    let* _ := s_map not_found_ (s_query (λ d, WorkItems.CheckExists (pl_wis (fo_planner d)) wiID)) in
    let* p := s_map internal_error_ (s_query (λ d, comment_List wiID (Some offset) (Some limit) (fo_comments d))) in
    let* links := s_query (λ _, setPagingLinks {| Prev := None; Next := None; First := None; Last := None |} path
                                  (Z.of_nat (length p.1)) offset limit p.2 []) in
    s_ret (ConvertComments p.1 [], p.2, links)).
Definition Relations_comments (wiID : uuid) (pageOffset : option string) (pageLimit : option Z) : fom (list uuid * Z) :=
  let '(offset, limit) := computePagingLimits pageOffset pageLimit in
  transact (
    let* wi := s_map not_found_ (LoadByID wiID) in
    let* p := s_map internal_error_ (s_query (λ d, comment_List (w_ID wi) (Some offset) (Some limit) (fo_comments d))) in
    s_ret (ConvertCommentsResourceID p.1, p.2)).
(** The total that goes along with an item is counted in a transaction of its own. *)
Definition comments_total (parentID : uuid) : fom Z := transact (s_query (λ d, Ok (comment_Count parentID (fo_comments d)))).
End Controller.

(** ** What stays the same of a comment *)

Definition same_author (c c' : Comment) : Prop :=
  cm_ID c' = cm_ID c ∧ ParentID c' = ParentID c ∧ ParentCommentID c' = ParentCommentID c ∧ cm_Creator c' = cm_Creator c.
(** Every comment is still there, and a deleted one has not changed at all. *)
Definition authors_kept (d d' : comment_db) : Prop :=
  ∀ c, c ∈ comments d → ∃ c', c' ∈ comments d' ∧ same_author c c' ∧ (row_live c = false → c' = c).
Definition forum_kept (d d' : forum) : Prop :=
  cm_wf (fo_comments d) → cm_wf (fo_comments d') ∧ authors_kept (fo_comments d) (fo_comments d').
#[export] Instance authors_kept_refl : Reflexive authors_kept.
Proof. intros d c Hc. by exists c. Qed.
#[export] Instance authors_kept_trans : Transitive authors_kept.
Proof.
  intros d1 d2 d3 H1 H2 c Hc. destruct (H1 c Hc) as (c2 & Hc2 & (? & ? & ? & ?) & Hd2).
  destruct (H2 c2 Hc2) as (c3 & Hc3 & (? & ? & ? & ?) & Hd3). exists c3. split; [done|]. split; [split_and!; congruence|].
  intros Hd. rewrite <- (Hd2 Hd). apply Hd3. by rewrite (Hd2 Hd).
Qed.
#[export] Instance forum_kept_refl : Reflexive forum_kept.
Proof. by split. Qed.
#[export] Instance forum_kept_trans : Transitive forum_kept.
Proof. intros d1 d2 d3 H1 H2 H. destruct (H1 H) as [Hw Ha]. destruct (H2 Hw). split; [done|by etrans]. Qed.

Section Rows.
Context {HO : UuidOps}.

(** The text and the markup of the live comment [c] are written, and a revision that says so. *)
Definition revised (ty : RevisionType) (user : uuid) (c : Comment) (d d' : comment_db) : Prop :=
  ∃ r, comment_revisions d' = comment_revisions d ++ [r] ∧ cr_Type r = ty ∧ cr_ModifierIdentity r = user ∧ CommentID r = cm_ID c.
Definition rewritten (now : Time) (user : uuid) (c : Comment) (d d' : comment_db) : Prop :=
  let c' := with_life {| CreatedAt := CreatedAt (cm_Lifecycle c); UpdatedAt := now; DeletedAt := DeletedAt (cm_Lifecycle c) |} c in
  comments d' = map (λ x, if row_live x && has_ID (cm_ID c) x then c' else x) (comments d) ∧
  (∃ x, x ∈ comments d ∧ row_live x = true ∧ cm_ID x = cm_ID c) ∧ revised RevisionTypeUpdate user c d d'.
Definition erased (now : Time) (user : uuid) (id : uuid) (d d' : comment_db) : Prop :=
  comments d' = map (λ x, if row_live x && has_ID id x then soft_delete now x else x) (comments d) ∧
  ∃ c, c ∈ comments d ∧ row_live c = true ∧ cm_ID c = id ∧ revised RevisionTypeDelete user c d d'.

Lemma Revision_Create_revised now user ty c d u d' : Revision_Create now user ty c d = (Ok u, d') →
  comments d' = comments d ∧ revised ty user c d d'.
Proof.
  unfold Revision_Create. destruct (existsb _ _); [|done]. intros [= _ <-]. split; [done|].
  eexists. by split_and!.
Qed.
Lemma comment_Save_rewrites now now' c user d c' d' : cm_Markup c ≠ "" →
  comment_Save now now' c user d = (Ok c', d') →
  rewritten now user c d d' ∧ c' = with_life {| CreatedAt := CreatedAt (cm_Lifecycle c); UpdatedAt := now; DeletedAt := DeletedAt (cm_Lifecycle c) |} c.
Proof.
  intros Hm. unfold comment_Save. intros H. apply s_bind_ok in H as ([] & d0 & H0 & H). apply s_query_ok in H0 as [H0 ->].
  destruct (t_first _ _) as [stored|] eqn:Ef; [|done]. apply t_first_some in Ef as (Hs & Hl & Hid%has_ID_true).
  assert (cm_with c (cm_Lifecycle c) (cm_ID c) (default_markup (cm_Markup c)) = c) as E.
  { unfold default_markup. destruct (String.eqb_spec (cm_Markup c) ""); [done|]. by destruct c. }
  rewrite E in H. apply s_bind_ok in H as (c1 & d1 & H1 & H). apply s_bind_ok in H as (u & d2 & H2 & H). injection H as <- <-.
  rewrite s_map_ok in H2 by (intro; apply wrapf_ok). apply Revision_Create_revised in H2 as [Hc Hr].
  unfold comment_update, t_update in H1. set (row := with_life _ c) in *.
  assert (Hhit : ∀ x, hit (λ _, true) row x = row_live x && has_ID (cm_ID c) x) by (intros x; unfold hit; by rewrite andb_true_r).
  destruct (Nat.eqb_spec (length (List.filter (hit (λ _, true) row) (comments d))) 0) as [E0|_].
  { exfalso. assert (Hf : In stored (List.filter (hit (λ _, true) row) (comments d))).
    { apply List.filter_In. split; [by apply list_elem_of_In|]. rewrite Hhit, Hl. by apply has_ID_true. }
    by destruct (List.filter _ _). }
  destruct (first_violation _ _ _); [done|]. injection H1 as <- <-. split; [|done]. split; [|split; [by exists stored|]].
  - rewrite Hc. cbn [set_comments comments]. apply map_ext. intros x. by rewrite Hhit.
  - destruct Hr as (r & Hr & ? & ? & ?). by exists r.
Qed.
Lemma comment_Delete_erases now now' id user d u d' : comment_Delete now now' id user d = (Ok u, d') →
  erased now user id d d'.
Proof.
  unfold comment_Delete. intros H. apply s_bind_ok in H as (c & d0 & H0 & H). apply s_query_ok in H0 as [H0 ->].
  case_bool_decide as Hnil; [done|]. destruct (t_where _ _) as [|s [|]] eqn:Ew; [done| |done].
  assert (Hs : s ∈ t_where (has_ID id) (comments d)) by (rewrite Ew; by left).
  apply elem_of_t_where in Hs as (Hs & Hl & Hid%has_ID_true). cbn in Hid. injection H0 as <-. cbn [cm_ID] in H.
  apply s_bind_ok in H as ([] & d1 & H1 & H). injection H1 as <-.
  rewrite s_map_ok in H by (intro; apply wrapf_ok). apply Revision_Create_revised in H as [Hc (r & Hr & ? & ? & ?)].
  split; [|exists s; split_and!; try done; by exists r].
  rewrite Hc. cbn [set_comments comments]. unfold t_delete. cbn [snd]. apply map_ext. intros x. unfold by_primary_key.
  rewrite Hid, bool_decide_false by done. done.
Qed.

(** Authors, row by row. *)
Lemma map_authors (p : Comment → bool) (f : Comment → Comment) d d' :
  comments d' = map (λ x, if p x then f x else x) (comments d) →
  (∀ x, x ∈ comments d → p x = true → row_live x = true ∧ same_author x (f x)) → authors_kept d d'.
Proof.
  intros E Hf c Hc. rewrite E. exists (if p c then f c else c). split; [by apply elem_of_map_image; exists c|].
  destruct (p c) eqn:Ep; [|done]. destruct (Hf c Hc Ep) as [Hl Ha]. split; [done|]. by rewrite Hl.
Qed.
Lemma comment_insert_authors d d' (l : list Comment) : comments d' = comments d ++ l → authors_kept d d'.
Proof. intros E c Hc. rewrite E. exists c. split; [set_solver|done]. Qed.
Lemma erased_authors now user id d d' : erased now user id d d' → authors_kept d d'.
Proof.
  intros [E _]. eapply map_authors; [exact E|]. cbn beta. intros x _ [Hl _]%andb_prop. by repeat split.
Qed.
(** A comment that was loaded some time before and saved now has kept its author. *)
Lemma rewritten_authors now user c c1 d d0 d' : cm_wf d → c ∈ comments d0 → authors_kept d0 d → same_author c c1 →
  rewritten now user c1 d d' → authors_kept d d'.
Proof.
  intros Hwf Hc Hkept (Eid1 & ? & ? & ?) [E _]. eapply map_authors; [exact E|]. cbn beta. intros x Hx [Hl Hid%has_ID_true]%andb_prop.
  split; [done|]. destruct (Hkept c Hc) as (c' & Hc' & (Eid & ? & ? & ?) & _). cbn in Hid.
  assert (x = c') as -> by (apply (ids_unique_eq (comments d)); [apply (cw_ids _ Hwf)|done..|cbn; congruence]).
  split_and!; cbn; congruence.
Qed.
End Rows.

Section Requests.
Context {HO : UuidOps} (time_json : Z → string) (struct_json : string → option gval).
Context (RenderMarkupToHTML : string → string → string) (authorize : string → res bool).
Notation loaded d id wi := ((WorkItems.LoadByID time_json struct_json id (pl_wis (fo_planner d))).1 = Ok wi).
Notation LoadByID id := (on_planner (on_items_of (WorkItems.LoadByID time_json struct_json id))).
Notation loadComment := (loadComment time_json struct_json).
Notation Update_comment := (Update_comment time_json struct_json RenderMarkupToHTML authorize).
Notation Delete_comment := (Delete_comment time_json struct_json authorize).
Notation Create_comment := (Create_comment time_json struct_json RenderMarkupToHTML).

(** ** Who may change a comment *)

Definition quiet_forum (d d' : forum) : Prop :=
  same_planner (fo_planner d) (fo_planner d') ∧ fo_comments d' = fo_comments d.
#[local] Instance quiet_forum_refl : Reflexive quiet_forum.
Proof. intros d. by split. Qed.
#[local] Instance quiet_forum_trans : Transitive quiet_forum.
Proof. intros d1 d2 d3 [? E] [? E']. split; [by etrans|congruence]. Qed.
Lemma load_item_quiet id : keeps quiet_forum (LoadByID id).
Proof.
  clear. intros d. unfold on_planner. pose proof (LoadByID_quiet time_json struct_json id (fo_planner d)) as H.
  by destruct (on_items_of _ _).
Qed.
Lemma load_item_ok id d wi d' : LoadByID id d = (Ok wi, d') → loaded d id wi.
Proof.
  clear. unfold on_planner. destruct (on_items_of _ _) as [r p] eqn:E. intros [= -> _].
  apply on_items_of_ok in E as [E _]. by rewrite E.
Qed.
Lemma loadComment_quiet id user : keeps quiet_forum (loadComment id user).
Proof.
  clear. unfold loadComment, load_comment. apply keeps_transact; [apply _|].
  apply keeps_bind; [apply _|apply keeps_query, _|intros c]. case_bool_decide; [apply keeps_ret, _|].
  apply keeps_bind; [apply _|apply load_item_quiet|intros wi; apply keeps_ret, _].
Qed.
Definition may_change (c : Comment) (user : uuid) (d : forum) : Prop :=
  user = cm_Creator c ∨ ∃ wi, loaded d (ParentID c) wi ∧ authorize (uuid_String (w_SpaceID wi)) = Ok true.
Lemma loadComment_may id user d p d' u : loadComment id user d = (Ok p, d') → check_collaborator authorize p.2 = Ok u →
  comment_Load id (fo_comments d) = Ok p.1 ∧ may_change p.1 user d.
Proof.
  unfold loadComment, load_comment. rewrite transact_ok. intros H Hc.
  apply s_bind_ok in H as (c & d1 & H1 & H). apply s_query_ok in H1 as [H1 ->]. case_bool_decide as Eu.
  - injection H as <- _. split; [done|by left].
  - apply s_bind_ok in H as (wi & d2 & H2 & H). injection H as <- _. split; [done|]. right. exists wi.
    split; [by eapply load_item_ok|]. cbn in Hc. by destruct (authorize _) as [[]|e|m].
Qed.
Lemma user_of_ok identity user : user_of identity = Ok user → identity = Ok user.
Proof. clear. by destruct identity. Qed.

(** ** Changing and deleting *)

(** What a request runs when nothing stands in its way. *)
Definition after_checks (identity : res uuid) (commentID : uuid) (d : forum) {A} (r : res A) (d1 d2 : forum)
    (runs : uuid → Comment → Prop) (d' : forum) : Prop :=
  quiet_forum d d1 ∧
  match r with
  | Ok _ => ∃ user c, identity = Ok user ∧ comment_Load commentID (fo_comments d) = Ok c ∧ may_change c user d ∧
              fo_planner d' = fo_planner d2 ∧ runs user c
  | _ => d' = d1 ∨ d' = d2
  end.
Lemma Update_comment_runs now now' between identity commentID body markup d r d' :
  Update_comment now now' between identity commentID body markup d = (r, d') →
  ∃ d1, after_checks identity commentID d r d1 (between d1)
    (λ user c, ∃ text c', body = Some text ∧
       comment_Save now now' (with_body text markup c) user (fo_comments (between d1)) = (Ok c', fo_comments d')) d'.
Proof.
  unfold Update_comment, s_bind, others_commit, s_query. intros H.
  destruct (user_of identity) as [user|e|m] eqn:Eu; [|exists d; injection H as <- <-; by split; [|left]..].
  destruct (loadComment commentID user d) as [[p|e|m] d1] eqn:El.
  2-3: exists d1; split; [eapply keeps_at, El; apply loadComment_quiet|injection H as <- <-; by left].
  exists d1. split; [eapply keeps_at, El; apply loadComment_quiet|].
  destruct (check_collaborator _ _) as [[]|e|m] eqn:Ec; [|injection H as <- <-; by left..].
  destruct (performUpdate _ _ _ _ _ _ _) as [x d2] eqn:Ep. unfold performUpdate in Ep.
  destruct x as [cm|e|m]; [|injection H as <- <-; right; by eapply atomic_transact..]. injection H as <- <-.
  destruct (loadComment_may _ _ _ _ _ _ El Ec) as [Hload Hmay]. rewrite transact_ok in Ep.
  destruct body as [text|]; [|done]. unfold on_comments in Ep.
  destruct (comment_Save _ _ _ _ _) as [r t] eqn:Es. injection Ep as -> <-.
  exists user, p.1. split_and!; [by apply user_of_ok|done..|by eexists _, _].
Qed.
Lemma Delete_comment_runs now now' between identity commentID d r d' :
  Delete_comment now now' between identity commentID d = (r, d') →
  ∃ d1, after_checks identity commentID d r d1 (between d1)
    (λ user c, comment_Delete now now' commentID user (fo_comments (between d1)) = (Ok tt, fo_comments d')) d'.
Proof.
  unfold Delete_comment, s_bind, others_commit, s_query. intros H.
  destruct (user_of identity) as [user|e|m] eqn:Eu; [|exists d; injection H as <- <-; by split; [|left]..].
  destruct (loadComment commentID user d) as [[p|e|m] d1] eqn:El.
  2-3: exists d1; split; [eapply keeps_at, El; apply loadComment_quiet|injection H as <- <-; by left].
  exists d1. split; [eapply keeps_at, El; apply loadComment_quiet|].
  destruct (check_collaborator _ _) as [[]|e|m] eqn:Ec; [|injection H as <- <-; by left..].
  destruct r as [[]|e|m]; [|right; by eapply atomic_transact..].
  destruct (loadComment_may _ _ _ _ _ _ El Ec) as [Hload Hmay]. rewrite transact_ok in H. destruct p as [c wi]. cbn [fst] in *.
  exists user, c. unfold on_comments in H. destruct (comment_Delete _ _ _ _ _) as [r t] eqn:Es. injection H as -> <-.
  split_and!; [by apply user_of_ok|done|done|done|]. unfold comment_Load in Hload.
  destruct (t_first _ _) as [x|] eqn:Ef; [|done]. injection Hload as ->.
  apply t_first_some in Ef as (_ & _ & Hid%has_ID_true). cbn in Hid. by rewrite Hid in Es.
Qed.

(** Only its author or a collaborator of the space changes a comment; what is written is the text and the markup, over
    what the others committed in the meantime, with a revision. *)
Theorem Update_comment_effect now now' between identity commentID body markup d r d'
    (H : Update_comment now now' between identity commentID body markup d = (r, d')) :
  ∃ d1, after_checks identity commentID d r d1 (between d1)
    (λ user c, ∃ text, body = Some text ∧
       rewritten now user (with_body text markup c) (fo_comments (between d1)) (fo_comments d')) d'.
Proof.
  apply Update_comment_runs in H as (d1 & Hq & H). exists d1. split; [done|]. destruct r as [a|e|m]; [|done..].
  destruct H as (user & c & ? & ? & ? & ? & text & c' & ? & Hs). exists user, c. split_and!; [done..|].
  exists text. split; [done|]. eapply comment_Save_rewrites, Hs. cbn. destruct markup as [m|]; [|done]. cbn.
  by destruct (String.eqb_spec m "").
Qed.
(** Only its author or a collaborator of the space deletes a comment; the others stay as they are. *)
Theorem Delete_comment_effect now now' between identity commentID d r d'
    (H : Delete_comment now now' between identity commentID d = (r, d')) :
  ∃ d1, after_checks identity commentID d r d1 (between d1)
    (λ user _, erased now user commentID (fo_comments (between d1)) (fo_comments d')) d'.
Proof.
  apply Delete_comment_runs in H as (d1 & Hq & H). exists d1. split; [done|]. destruct r as [a|e|m]; [|done..].
  destruct H as (user & c & ? & ? & ? & ? & Hs). exists user, c. split_and!; [done..|]. by eapply comment_Delete_erases.
Qed.

(** ** The history of the comments *)

(** A request, and what the others commit while it is between its transactions. *)
Inductive comment_request :=
  | RCreate (now now' : Time) (newID : uuid) (identity : res uuid) (wiID : uuid) (p : CommentPayload)
  | RUpdate (now now' : Time) (identity : res uuid) (commentID : uuid) (body markup : option string)
  | RDelete (now now' : Time) (identity : res uuid) (commentID : uuid)
  | RShow (commentID : uuid).
Definition run_request (between : forum → forum) (q : comment_request) (d : forum) : forum :=
  match q with
  | RCreate now now' newID identity wiID p => (Create_comment now now' newID identity wiID p d).2
  | RUpdate now now' identity commentID body markup => (Update_comment now now' between identity commentID body markup d).2
  | RDelete now now' identity commentID => (Delete_comment now now' between identity commentID d).2
  | RShow commentID => (Show_comment RenderMarkupToHTML commentID d).2
  end.
Definition asked (d d' : forum) : Prop :=
  ∃ between q, (∀ d, forum_kept d (between d)) ∧ d' = run_request between q d.

Lemma quiet_forum_kept d d' : quiet_forum d d' → forum_kept d d'.
Proof. intros [_ E] H. by rewrite E. Qed.
Lemma comment_Load_in id d c : comment_Load id d = Ok c → c ∈ comments d ∧ row_live c = true.
Proof.
  clear. unfold comment_Load. destruct (t_first _ _) as [x|] eqn:E; [|done]. intros [= <-].
  by apply t_first_some in E as (? & ? & _).
Qed.
(** What one operation of the repository leaves, seen as a step of the history. *)
Lemma run_comment_op_wf o d r d' : op_live o → transact (run_comment_op o) d = (r, d') → cm_wf d → cm_wf d'.
Proof. intros Ho H. apply comment_committed_wf. by exists o, r. Qed.
Lemma on_comments_step {A} (m : cmm A) d a d' : on_comments m d = (Ok a, d') → m (fo_comments d) = (Ok a, fo_comments d').
Proof. clear. unfold on_comments. destruct (m _) as [r c]. by intros [= -> <-]. Qed.
Lemma transacted {A} (m : cmm A) d a d' : m d = (Ok a, d') → transact (let* _ := m in s_ret tt) d = (Ok tt, d').
Proof. clear. intros H. rewrite transact_ok. apply s_bind_ok. by exists a, d'. Qed.

Lemma Create_comment_kept now now' newID identity wiID p : keeps forum_kept (Create_comment now now' newID identity wiID p).
Proof.
  clear. unfold Create_comment. apply keeps_transact_ok; [apply _|]. intros d a d' H Hwf.
  apply s_bind_ok in H as (wi & d1 & H1 & H).
  assert (E1 : fo_comments d1 = fo_comments d).
  { eapply (keeps_at quiet_forum), H1. apply keeps_map, load_item_quiet. }
  rewrite <- E1 in *. clear H1 E1. apply s_bind_ok in H as (user & d2 & H2 & H). apply s_query_ok in H2 as [_ ->].
  apply s_bind_ok in H as (parent & d2 & H2 & H). apply s_query_ok in H2 as [_ ->].
  destruct parent as [parent|e|m]; [|by injection H as _ <-|done].
  apply s_bind_ok in H as (c & d2 & H2 & H). injection H as _ <-. rewrite s_map_ok in H2 by (intros []; done).
  apply on_comments_step in H2. split.
  - eapply (run_comment_op_wf (CCreate now now' newID _ _)); [done|by eapply transacted|done].
  - unfold comment_Create in H2. apply s_bind_ok in H2 as (c1 & t & Hi & H2). apply comment_insert_ok in Hi as (_ & -> & _).
    apply s_bind_ok in H2 as ([] & t' & Hr & H2). injection H2 as _ <-. rewrite s_map_ok in Hr by (intro; apply wrapf_ok).
    apply Revision_Create_revised in Hr as [Hr _]. eapply comment_insert_authors. by rewrite Hr.
Qed.
Lemma Update_comment_kept now now' between identity commentID body markup : (∀ d, forum_kept d (between d)) →
  keeps forum_kept (Update_comment now now' between identity commentID body markup).
Proof.
  intros Hb d Hwf. destruct (Update_comment _ _ _ _ _ _ _ d) as [r d'] eqn:E. cbn.
  pose proof E as E'. apply Update_comment_effect in E' as (d1' & _ & E'). apply Update_comment_runs in E as (d1 & Hq & E).
  pose proof (quiet_forum_kept _ _ Hq) as Hk1. pose proof (forum_kept_trans _ _ _ Hk1 (Hb d1)) as Hk2.
  destruct r as [a|e|m]; [|by destruct E as [-> | ->]; auto..].
  destruct E as (user & c & _ & Hl & _ & _ & text & c' & _ & Hs). destruct (Hk2 Hwf) as [Hwf2 Ha2].
  apply comment_Load_in in Hl as [Hc Hlive]. split.
  - eapply (run_comment_op_wf (CSave now now' _ _)); [|by eapply transacted|done]. cbn. unfold row_live, live in Hlive. cbn in Hlive.
    by destruct (DeletedAt _).
  - etrans; [exact Ha2|]. eapply (rewritten_authors now user c (with_body text markup c)); [done..| |].
    + by repeat split.
    + eapply comment_Save_rewrites, Hs. cbn. destruct markup as [m|]; [|done]. cbn. by destruct (String.eqb_spec m "").
Qed.
Lemma Delete_comment_kept now now' between identity commentID : (∀ d, forum_kept d (between d)) →
  keeps forum_kept (Delete_comment now now' between identity commentID).
Proof.
  intros Hb d Hwf. destruct (Delete_comment _ _ _ _ _ d) as [r d'] eqn:E. cbn. apply Delete_comment_runs in E as (d1 & Hq & E).
  pose proof (quiet_forum_kept _ _ Hq) as Hk1. pose proof (forum_kept_trans _ _ _ Hk1 (Hb d1)) as Hk2.
  destruct r as [a|e|m]; [|by destruct E as [-> | ->]; auto..].
  destruct E as (user & c & _ & _ & _ & _ & Hs). destruct (Hk2 Hwf) as [Hwf2 Ha2]. split.
  - eapply (run_comment_op_wf (CDelete now now' commentID user)); [done| |done]. rewrite transact_ok. exact Hs.
  - etrans; [exact Ha2|]. by eapply erased_authors, comment_Delete_erases.
Qed.
Lemma asked_kept d d' : asked d d' → forum_kept d d'.
Proof.
  intros (between & q & Hb & ->). destruct q; cbn [run_request].
  - apply Create_comment_kept.
  - by apply Update_comment_kept.
  - by apply Delete_comment_kept.
  - apply (keeps_bind forum_kept); [apply keeps_transact; [apply _|apply keeps_query, _]|intros c; apply keeps_ret, _].
Qed.
(** C22: Whatever requests are made of a forum without comments, and whatever the others commit between their transactions
    that keeps to the same terms: the last revision of every comment says what it is now, and from one moment to a later one
    every comment keeps its author, its item and the comment it answers, and a deleted one does not change. *)
Theorem comment_requests_history d0 d d' (H0 : fo_comments d0 = no_comments)
    (H : rtc asked d0 d) (H' : rtc asked d d') :
  cm_wf (fo_comments d) ∧ authors_kept (fo_comments d) (fo_comments d').
Proof.
  assert (Hk : ∀ a b, rtc asked a b → forum_kept a b) by (intros a b; apply rtc_ind_r; [reflexivity|intros; by etrans; [|eapply asked_kept]]).
  assert (Hwf : cm_wf (fo_comments d)) by (apply (Hk _ _ H); rewrite H0; apply no_comments_wf).
  split; [done|]. by apply (Hk _ _ H').
Qed.
End Requests.
