(* ===== verification/QueryController.v ===== *)
(** * The requests on saved queries

    [controller/query.go]: saving, listing, showing, changing and deleting the
    queries of a user, and that the queries of one user are out of the reach of
    the others. *)

From Stdlib Require Import ZArith Lia Ascii String SpecFloat.
From stdpp Require Import relations.
From S2P Require Import Errors Spaces WorkItemRequests Comments.
From S2P Require Export Queries IterationController.
Import Transactions.

Record library := { li_spaces : space_db; li_queries : query_db }.
Notation lim A := (library → res A * library).
Definition on_queries {A} (m : qm A) : lim A := λ d,
  let '(r, q) := m (li_queries d) in (r, {| li_spaces := li_spaces d; li_queries := q |}).

(** The answer without its links. *)
Record AppQuery := {
  aq_ID : uuid;
  aq_Title : string;
  aq_Fields : string;
  aq_CreatedAt : Time;
  aq_Version : Z;
  aq_Creator : string;
  aq_Space : string;
}.
Definition not_creator : error := ForbiddenError "user is not the query creator".

Section Controller.
Context {HO : UuidOps}.
Context (unmarshal : string → option (list (string * gval))) (ks : list string).

Definition ConvertQuery (q : SavedQuery) : AppQuery :=
  {| aq_ID := q_ID q; aq_Title := Title q; aq_Fields := q_Fields q; aq_CreatedAt := CreatedAt (q_Lifecycle q);
     aq_Version := q_Version q; aq_Creator := uuid_String (Creator q); aq_Space := uuid_String (q_SpaceID q) |}.
Definition ConvertQueries (l : list SavedQuery) : list AppQuery := map ConvertQuery l.
Definition space_exists (spaceID : uuid) : lim unit := s_query (λ d, space_CheckExists (li_spaces d) spaceID).
Definition new_query (newID spaceID user : uuid) (title fields : string) : SavedQuery :=
  {| q_Lifecycle := stamped {| instant := 0; representation := 0 |}; q_ID := newID; q_SpaceID := spaceID; Creator := user;
     Title := TrimSpace title; q_Fields := fields; q_Version := 0 |}.
(** A query whose filter has no expression is answered as created, with the id it would have had. *)
Definition Create_query (now : Time) (newID : uuid) (identity : res uuid) (spaceID : uuid) (title fields : string) : lim AppQuery :=
  let* user := s_query (λ _, user_of identity) in
  let q := new_query newID spaceID user title fields in
  let* stored := transact (
    let* _ := space_exists spaceID in
    s_map with_stack (on_queries (query_Create unmarshal ks now newID q))) in
  s_ret (ConvertQuery (default q stored)).
Definition List_queries (identity : res uuid) (spaceID : uuid) : lim (list AppQuery * Z) :=
  let* user := s_query (λ _, user_of identity) in
  let* l := transact (
    let* _ := s_map with_stack (space_exists spaceID) in
    s_query (λ d, Ok (ListByCreator spaceID user (li_queries d)))) in
  s_ret (ConvertQueries l, Z.of_nat (length (ConvertQueries l))).
Definition load_query (queryID spaceID : uuid) : lim SavedQuery :=
  s_map with_stack (s_query (λ d, query_Load queryID spaceID (li_queries d))).
Definition Show_query (identity : res uuid) (queryID spaceID : uuid) : lim AppQuery :=
  let* user := s_query (λ _, user_of identity) in
  let* q := transact (let* _ := s_map with_stack (space_exists spaceID) in load_query queryID spaceID) in
  let* _ := s_query (λ _, if bool_decide (user = Creator q) then Ok tt else Err not_creator) in
  s_ret (ConvertQuery q).
Record QueryAttributes := { qa_Title : string; qa_Fields : string; qa_Version : option Z }.
Definition changed_query (a : QueryAttributes) (q : SavedQuery) : SavedQuery :=
  {| q_Lifecycle := q_Lifecycle q; q_ID := q_ID q; q_SpaceID := q_SpaceID q; Creator := Creator q;
     Title := if String.eqb (qa_Title a) "" then Title q else TrimSpace (qa_Title a);
     q_Fields := if String.eqb (TrimSpace (qa_Fields a)) "" then q_Fields q else TrimSpace (qa_Fields a);
     q_Version := q_Version q |}.
Definition Update_query (now : Time) (identity : res uuid) (queryID spaceID : uuid) (a : QueryAttributes) : lim AppQuery :=
  let* user := s_query (λ _, user_of identity) in
  let* version := s_query (λ _, match qa_Version a with
                                | Some v => Ok v
                                | None => Err (BadParameterError "data.attributes.version" "<nil>" (Some "not nil") None)
                                end) in
  let* q := transact (
    let* q := load_query queryID spaceID in
    let* _ := s_query (λ _, if bool_decide (Creator q = user) then Ok tt else Err not_creator) in
    let* _ := s_query (λ _, if q_Version q =? version then Ok tt else Err (VersionConflictError "version conflict")) in
    s_map with_stack (on_queries (query_Save unmarshal now (changed_query a q)))) in
  s_ret (ConvertQuery q).
Definition Delete_query (now : Time) (identity : res uuid) (queryID spaceID : uuid) : lim unit :=
  let* user := s_query (λ _, user_of identity) in
  transact (
    let* q := load_query queryID spaceID in
    let* _ := s_query (λ _, if bool_decide (Creator q = user) then Ok tt else Err not_creator) in
    s_map with_stack (on_queries (query_Delete now queryID))).

(** ** The queries of one user *)

Definition queries_of (user : uuid) (d : query_db) : list SavedQuery :=
  List.filter (λ q, bool_decide (Creator q = user)) (queries d).
Record queries_wf (d : query_db) : Prop := {
  qw_ids : ids_unique (queries d);
  qw_nil : ∀ q, q ∈ queries d → q_ID q ≠ uuid_Nil;
  qw_titles : ∀ q, q ∈ queries d → Title q ≠ "";
  qw_unique : unique_on q_key (queries d);
}.
Inductive query_request :=
  | QSave (now : Time) (newID : uuid) (identity : res uuid) (spaceID : uuid) (title fields : string)
  | QList (identity : res uuid) (spaceID : uuid)
  | QShow (identity : res uuid) (queryID spaceID : uuid)
  | QChange (now : Time) (identity : res uuid) (queryID spaceID : uuid) (a : QueryAttributes)
  | QDrop (now : Time) (identity : res uuid) (queryID spaceID : uuid).
Definition answer_query (r : query_request) (d : library) : library :=
  match r with
  | QSave now newID identity spaceID title fields => (Create_query now newID identity spaceID title fields d).2
  | QList identity spaceID => (List_queries identity spaceID d).2
  | QShow identity queryID spaceID => (Show_query identity queryID spaceID d).2
  | QChange now identity queryID spaceID a => (Update_query now identity queryID spaceID a d).2
  | QDrop now identity queryID spaceID => (Delete_query now identity queryID spaceID d).2
  end.
Definition asks (r : query_request) : res uuid :=
  match r with
  | QSave _ _ identity _ _ _ | QList identity _ | QShow identity _ _ | QChange _ identity _ _ _ | QDrop _ identity _ _ => identity
  end.
(** The ids that are drawn are not the nil id. *)
Definition drawn (r : query_request) : Prop := match r with QSave _ newID _ _ _ _ => newID ≠ uuid_Nil | _ => True end.
(** What a request of somebody else than [user] may do. *)
Definition out_of_reach (user : uuid) (d d' : library) : Prop :=
  queries_wf (li_queries d) → queries_wf (li_queries d') ∧ queries_of user (li_queries d') = queries_of user (li_queries d).
#[local] Instance out_of_reach_refl user : Reflexive (out_of_reach user).
Proof. by split. Qed.
#[local] Instance out_of_reach_trans user : Transitive (out_of_reach user).
Proof. intros d1 d2 d3 H1 H2 H. destruct (H1 H) as [Hw E]. destruct (H2 Hw). split; [done|congruence]. Qed.

Lemma queries_of_map user (f : SavedQuery → SavedQuery) l :
  (∀ q, q ∈ l → f q = q ∨ (Creator q ≠ user ∧ Creator (f q) ≠ user)) →
  List.filter (λ q, bool_decide (Creator q = user)) (map f l) = List.filter (λ q, bool_decide (Creator q = user)) l.
Proof.
  clear. induction l as [|q l IH]; intros Hf; [done|]. cbn [map List.filter]. rewrite IH by (intros x Hx; apply Hf; by right).
  destruct (Hf q) as [->|[H1 H2]]; [by left|done|]. by rewrite !bool_decide_false.
Qed.
Lemma query_Load_ok id spaceID d q : query_Load id spaceID d = Ok q →
  q ∈ queries d ∧ row_live q = true ∧ q_ID q = id.
Proof.
  clear. unfold query_Load. destruct (t_first _ _) as [x|] eqn:E; [|done]. intros [= <-].
  by apply t_first_some in E as (? & ? & [?%has_ID_true _]%andb_prop).
Qed.
Lemma load_query_ok id spaceID d q d' : load_query id spaceID d = (Ok q, d') →
  d' = d ∧ q ∈ queries (li_queries d) ∧ row_live q = true ∧ q_ID q = id.
Proof.
  clear. unfold load_query. rewrite s_map_ok by (intro; apply with_stack_ok). intros [H ->]%s_query_ok.
  split; [done|]. by eapply query_Load_ok.
Qed.
Lemma on_queries_ok {A} (m : qm A) d a d' : on_queries m d = (Ok a, d') → m (li_queries d) = (Ok a, li_queries d').
Proof. clear. unfold on_queries. destruct (m _). by intros [= -> <-]. Qed.

Lemma query_Create_out now newID q user d r d' : newID ≠ uuid_Nil → Creator q ≠ user →
  query_Create unmarshal ks now newID q d = (Ok r, d') → queries_wf d →
  queries_wf d' ∧ queries_of user d' = queries_of user d.
Proof.
  intros Hnew Hu H [Hn Hnil Ht Hk]. unfold query_Create in H. set (q0 := q_with q _ newID _) in H.
  destruct (bool_decide _); [done|]. destruct (parse_fields _ _ _) as [[e|]|e|m]; [|by injection H as _ <-|done..].
  destruct (t_insert _ _ _ _) as [v|[b t]] eqn:E; [done|]. injection H as _ <-.
  pose proof (t_insert_ids (query_constraints (q_spaces d)) "queries_pkey" _ _ _ _ _ ltac:(unfold query_constraints; set_solver) E Hn) as Hn'.
  pose proof (t_insert_unique (query_constraints (q_spaces d)) "queries_title_space_id_creator_unique" q_key _ _ _ _ _ ltac:(unfold query_constraints; set_solver) E Hk) as Hk'.
  apply t_insert_ok in E as (-> & -> & HV).
  specialize (HV (check "queries_title_check" (λ q, negb (String.eqb (Title q) ""))) ltac:(unfold query_constraints; set_solver)). cbn in HV.
  split; [split; cbn [set_queries queries]|].
  - done.
  - intros x [Hx| ->%list_elem_of_singleton]%elem_of_app; [by apply Hnil|done].
  - intros x [Hx| ->%list_elem_of_singleton]%elem_of_app; [by apply Ht|]. intros Et. cbn in Et. by rewrite Et in HV.
  - done.
  - unfold queries_of. cbn [set_queries queries]. rewrite List.filter_app. cbn [List.filter].
    by rewrite bool_decide_false, app_nil_r.
Qed.
Lemma query_Save_out now q q0 user d r d' : q0 ∈ queries d → q_ID q = q_ID q0 → Creator q = Creator q0 → Creator q0 ≠ user →
  query_Save unmarshal now q d = (Ok r, d') → queries_wf d → queries_wf d' ∧ queries_of user d' = queries_of user d.
Proof.
  intros Hq0 Hid Hc Hu H [Hn Hnil Ht Hk]. unfold query_Save in H.
  destruct (String.eqb_spec (TrimSpace (Title q)) "") as [|Htrim]; [done|]. destruct (unmarshal _); [|done].
  destruct (t_first _ _); [|done]. set (q1 := q_with q _ _ _) in H.
  destruct (t_update _ _ _ _ _) as [v|[[b [|n]] t]] eqn:E; [done..|]. injection H as _ <-.
  pose proof (t_update_ids _ _ _ _ _ _ _ _ E Hn) as Hn'.
  pose proof (t_update_unique (query_constraints (q_spaces d)) "queries_title_space_id_creator_unique" q_key _ _ _ _ _ _ _ ltac:(unfold query_constraints; set_solver) E Hk) as Hk'.
  assert (Hb : ∃ lc, b = with_life lc q1).
  { unfold t_update in E. destruct (Nat.eqb _ 0); [done|]. destruct (first_violation _ _ _); [done|]. injection E as <- _ _. by eexists. }
  destruct Hb as [lc ->]. apply t_update_ok in E as (_ & _ & -> & _). cbn [row_ID with_life SavedQuery_Row] in *.
  split; [split; cbn [set_queries queries]|].
  - done.
  - intros x [->|Hx]%elem_of_updated; [cbn; rewrite Hid; by apply Hnil|].
    rewrite list_elem_of_In, List.filter_In, <- list_elem_of_In in Hx. apply Hnil, Hx.
  - intros x [->|Hx]%elem_of_updated; [cbn; intros E; by rewrite E in Htrim|].
    rewrite list_elem_of_In, List.filter_In, <- list_elem_of_In in Hx. apply Ht, Hx.
  - done.
  - unfold queries_of. cbn [set_queries queries]. apply queries_of_map. intros x Hx.
    destruct (hit _ _ x) eqn:Eh; [right|by left]. unfold hit in Eh. rewrite !andb_true_iff, has_ID_true in Eh.
    destruct Eh as [[_ Ex] _]. assert (x = q0) as -> by (apply (ids_unique_eq (queries d)); [done..|cbn in *; congruence]).
    split; [done|]. cbn. by rewrite Hc.
Qed.
Lemma query_Delete_out now q user d r d' : q ∈ queries d → Creator q ≠ user →
  query_Delete now (q_ID q) d = (Ok r, d') → queries_wf d → queries_wf d' ∧ queries_of user d' = queries_of user d.
Proof.
  intros Hq Hu H [Hn Hnil Ht Hk]. unfold query_Delete in H. destruct (t_delete _ _ _) as [n t] eqn:E.
  destruct (Nat.eqb n 0); [done|]. injection H as _ <-.
  assert (Et : t = (t_delete now (by_primary_key (q_ID q)) (queries d)).2) by by rewrite E.
  assert (Hp : ∀ x, x ∈ queries d → by_primary_key (q_ID q) x = true → x = q).
  { intros x Hx. unfold by_primary_key. rewrite bool_decide_false by by apply Hnil. intros Ex%has_ID_true.
    by apply (ids_unique_eq (queries d)). }
  split; [split; cbn [set_queries queries]|].
  - rewrite Et. by apply t_delete_ids.
  - rewrite Et. intros x [[Hx _]|(a & -> & (Ha & _)%elem_of_t_where)]%elem_of_deleted; [by apply Hnil|by apply (Hnil a)].
  - rewrite Et. intros x [[Hx _]|(a & -> & (Ha & _)%elem_of_t_where)]%elem_of_deleted; [by apply Ht|by apply (Ht a)].
  - rewrite Et. by apply t_delete_unique.
  - unfold queries_of. cbn [set_queries queries]. rewrite Et. unfold t_delete. cbn [snd]. apply queries_of_map. intros x Hx.
    destruct (row_live x && by_primary_key (q_ID q) x) eqn:Eh; [right|by left]. apply andb_prop in Eh as [_ Eh].
    apply Hp in Eh as ->; [done|done].
Qed.

Lemma refused {A} (m : lim A) (identity : res uuid) (k : uuid → lim A) user : m = s_bind (s_query (λ _, user_of identity)) k →
  (∀ other, identity = Ok other → other ≠ user → keeps (out_of_reach user) (k other)) → identity ≠ Ok user →
  keeps (out_of_reach user) m.
Proof.
  intros -> Hk Hi d. unfold s_bind, s_query. destruct identity as [other|e|p]; [|reflexivity..]. cbn [user_of].
  apply Hk; [done|congruence].
Qed.
Lemma requests_out user r : asks r ≠ Ok user → drawn r → ∀ d, out_of_reach user d (answer_query r d).
Proof.
  intros Hi Hd d. destruct r as [now newID identity spaceID title fields|identity spaceID|identity queryID spaceID
    |now identity queryID spaceID a|now identity queryID spaceID]; cbn [answer_query asks drawn] in *.
  - revert d. eapply refused; [reflexivity| |exact Hi]. intros other Ho Hne. cbn beta zeta.
    apply keeps_bind; [apply _| |intros stored; apply keeps_ret, _]. apply keeps_transact_ok; [apply _|].
    intros d stored d' H. apply s_bind_ok in H as (u & d1 & H1 & H). apply s_query_ok in H1 as [_ ->].
    rewrite s_map_ok in H by (intro; apply with_stack_ok). apply on_queries_ok in H. intros Hwf.
    eapply (query_Create_out now newID (new_query newID spaceID other title fields)); [exact Hd|exact Hne|exact H|exact Hwf].
  - revert d. eapply refused; [reflexivity| |exact Hi]. intros other Ho Hne. cbn beta.
    apply keeps_bind; [apply _| |intros l; apply keeps_ret, _]. apply keeps_transact; [apply _|].
    apply keeps_bind; [apply _|apply keeps_map, keeps_query, _|intros _; apply keeps_query, _].
  - revert d. eapply refused; [reflexivity| |exact Hi]. intros other Ho Hne. cbn beta.
    apply keeps_bind; [apply _| |intros q; apply keeps_bind; [apply _|apply keeps_query, _|intros _; apply keeps_ret, _]].
    apply keeps_transact; [apply _|]. apply keeps_bind; [apply _|apply keeps_map, keeps_query, _|intros _].
    apply keeps_map, keeps_query, _.
  - revert d. eapply refused; [reflexivity| |exact Hi]. intros other Ho Hne. cbn beta.
    apply keeps_bind; [apply _|apply keeps_query, _|intros version].
    apply keeps_bind; [apply _| |intros q; apply keeps_ret, _]. apply keeps_transact_ok; [apply _|].
    intros d q' d' H. apply s_bind_ok in H as (q & d1 & (-> & Hq & _ & Hid)%load_query_ok & H).
    apply s_bind_ok in H as (u & d1 & [Hc ->]%s_query_ok & H). apply s_bind_ok in H as (u' & d1 & [_ ->]%s_query_ok & H).
    rewrite s_map_ok in H by (intro; apply with_stack_ok). apply on_queries_ok in H. intros Hwf.
    case_bool_decide as Ec; [|done]. eapply (query_Save_out now (changed_query a q) q); [done..|congruence|exact H|done].
  - revert d. eapply refused; [reflexivity| |exact Hi]. intros other Ho Hne. cbn beta. apply keeps_transact_ok; [apply _|].
    intros d u d' H. apply s_bind_ok in H as (q & d1 & (-> & Hq & _ & Hid)%load_query_ok & H).
    apply s_bind_ok in H as (u' & d1 & [Hc ->]%s_query_ok & H).
    rewrite s_map_ok in H by (intro; apply with_stack_ok). apply on_queries_ok in H. intros Hwf.
    case_bool_decide as Ec; [|done]. rewrite <- Hid in H. eapply query_Delete_out; [done|congruence|exact H|done].
Qed.
Definition asked_by_others (user : uuid) (d d' : library) : Prop :=
  ∃ r, asks r ≠ Ok user ∧ drawn r ∧ d' = answer_query r d.
(** Who sees which queries. *)
Lemma query_user_of identity user : user_of identity = Ok user → identity = Ok user.
Proof. clear. by destruct identity. Qed.
Lemma Show_query_ok identity queryID spaceID a d d' : Show_query identity queryID spaceID d = (Ok a, d') →
  ∃ q, identity = Ok (Creator q) ∧ q ∈ queries (li_queries d) ∧ row_live q = true ∧ a = ConvertQuery q.
Proof.
  clear. unfold Show_query. intros Es.
  apply s_bind_ok in Es as (u & d3 & [Hu%query_user_of ->]%s_query_ok & Es). apply s_bind_ok in Es as (q & d3 & Hq & Es).
  apply s_bind_ok in Es as (x & d4 & [Hc ->]%s_query_ok & Es). injection Es as <- _.
  rewrite transact_ok in Hq. apply s_bind_ok in Hq as (y & d5 & Hy & Hq). rewrite s_map_ok in Hy by (intro; apply with_stack_ok).
  apply s_query_ok in Hy as [_ ->]. apply load_query_ok in Hq as (_ & Hq & Hl & _).
  exists q. split_and!; [|done..]. case_bool_decide as Ec; [|done]. by subst.
Qed.
Lemma List_queries_ok identity spaceID l n d d' : List_queries identity spaceID d = (Ok (l, n), d') →
  ∃ user, identity = Ok user ∧ n = Z.of_nat (length l) ∧
    ∀ a, a ∈ l ↔ ∃ q, q ∈ queries (li_queries d) ∧ row_live q = true ∧ Creator q = user ∧ q_SpaceID q = spaceID ∧ a = ConvertQuery q.
Proof.
  clear. unfold List_queries. intros Es.
  apply s_bind_ok in Es as (user & d3 & [Hu%query_user_of ->]%s_query_ok & Es). apply s_bind_ok in Es as (qs & d3 & Hq & Es).
  injection Es as <- <- _. rewrite transact_ok in Hq. apply s_bind_ok in Hq as (y & d5 & Hy & Hq).
  rewrite s_map_ok in Hy by (intro; apply with_stack_ok). apply s_query_ok in Hy as [_ ->]. apply s_query_ok in Hq as [[= <-] _].
  exists user. split_and!; [done..|]. intros a. unfold ConvertQueries, ListByCreator. rewrite list_elem_of_In, in_map_iff.
  setoid_rewrite <- list_elem_of_In. setoid_rewrite elem_of_t_where. setoid_rewrite andb_true_iff.
  setoid_rewrite bool_decide_eq_true. naive_solver.
Qed.
(** C23: Whatever the others ask for, in whatever order, the saved queries of a user stay exactly as they are and remain the
    only ones with their titles; a query is shown to nobody but the user who made it, and a list has the queries of the
    space that the asking user made and no others. *)
Theorem queries_out_of_reach user d d' (Hwf : queries_wf (li_queries d)) (H : rtc (asked_by_others user) d d') :
  queries_wf (li_queries d') ∧ queries_of user (li_queries d') = queries_of user (li_queries d) ∧
  (∀ identity queryID spaceID a, (Show_query identity queryID spaceID d').1 = Ok a →
     ∃ q, identity = Ok (Creator q) ∧ q ∈ queries (li_queries d') ∧ row_live q = true ∧ a = ConvertQuery q) ∧
  ∀ identity spaceID l n, (List_queries identity spaceID d').1 = Ok (l, n) →
    ∃ asking, identity = Ok asking ∧ n = Z.of_nat (length l) ∧
      ∀ a, a ∈ l ↔ ∃ q, q ∈ queries (li_queries d') ∧ row_live q = true ∧ Creator q = asking ∧ q_SpaceID q = spaceID ∧ a = ConvertQuery q.
Proof.
  assert (Hk : out_of_reach user d d').
  { clear Hwf. induction H as [d0|d0 d1 d2 (r & Hi & Hd & ->) _ IH]; [reflexivity|]. etrans; [by apply requests_out|exact IH]. }
  destruct (Hk Hwf) as [Hw E]. split_and!; [done..| |].
  - intros identity queryID spaceID a Ha. destruct (Show_query identity queryID spaceID d') as [r d2] eqn:Es. cbn in Ha. subst r.
    by eapply Show_query_ok.
  - intros identity spaceID l n Ha. destruct (List_queries identity spaceID d') as [r d2] eqn:Es. cbn in Ha. subst r.
    by eapply List_queries_ok.
Qed.
End Controller.

(** ** A concrete library *)

Definition no_member : option (list (string * gval)) := Some [("space", VString "x")].
Definition reads (s : string) : option (list (string * gval)) := if String.eqb s "" then None else no_member.
Definition the_space : Space :=
  {| sp_Lifecycle := stamped {| instant := 0; representation := 0 |}; sp_ID := uuid_of 6; sp_Version := 0; sp_Name := "s";
     sp_Description := ""; OwnerID := uuid_of 9; sp_SpaceTemplateID := uuid_of 7 |}.
Definition library0 : library :=
  {| li_spaces := {| space_rows := [the_space]; template_rows := [] |}; li_queries := {| queries := []; q_spaces := [uuid_of 6] |} |}.
Notation ask_query := (answer_query reads []).
Definition q_mine : query_request := QSave (clock 1) (uuid_of 20) (Ok (uuid_of 1)) (uuid_of 6) " mine " "x".
Definition q_theirs : query_request := QSave (clock 2) (uuid_of 21) (Ok (uuid_of 2)) (uuid_of 6) "mine" "x".
Definition q_steal : query_request :=
  QChange (clock 3) (Ok (uuid_of 2)) (uuid_of 20) (uuid_of 6) {| qa_Title := "stolen"; qa_Fields := ""; qa_Version := Some 0 |}.
Definition q_drop : query_request := QDrop (clock 4) (Ok (uuid_of 2)) (uuid_of 21) (uuid_of 6).
Definition library1 : library := ask_query q_mine library0.
Definition library4 : library := ask_query q_drop (ask_query q_steal (ask_query q_theirs library1)).
Lemma library1_wf : queries_wf (li_queries library1).
Proof.
  assert (E : ∃ q, queries (li_queries library1) = [q] ∧ q_ID q ≠ uuid_Nil ∧ Title q ≠ "") by (eexists; by vm_compute).
  destruct E as (q & E & Hid & Ht). split.
  - rewrite E. apply NoDup_singleton.
  - rewrite E. by intros x ->%list_elem_of_singleton.
  - rewrite E. by intros x ->%list_elem_of_singleton.
  - rewrite E. by intros x y ->%list_elem_of_singleton ->%list_elem_of_singleton.
Qed.
Lemma queries_out_of_reach_witness :
  map Title (queries_of (uuid_of 1) (li_queries library1)) = ["mine"] ∧
  map (λ q, (Title q, row_live q)) (queries (li_queries library4)) = [("mine", true); ("mine", false)] ∧
  queries_of (uuid_of 1) (li_queries library4) = queries_of (uuid_of 1) (li_queries library1).
Proof.
  split; [by vm_compute|]. split; [by vm_compute|].
  apply (queries_out_of_reach reads [] (uuid_of 1) library1 library4 library1_wf).
  eapply rtc_l; [by exists q_theirs|]. eapply rtc_l; [by exists q_steal|]. apply rtc_once. by exists q_drop.
Defined.
(** A filter without operands is answered as created and is not stored. *)
Lemma created_not_stored :
  let d := Create_query (λ _, Some [("$AND", VSlice [])]) [] (clock 1) (uuid_of 20) (Ok (uuid_of 1)) (uuid_of 6) "t" "{...}" library0 in
  option_map aq_ID (match d.1 with Ok a => Some a | _ => None end) = Some (uuid_of 20) ∧ queries (li_queries d.2) = [].
Proof. split; by vm_compute. Qed.
