(* ===== verification/AreaController.v ===== *)
(** * The requests on areas

    [controller/area.go] and [controller/space_areas.go]: showing an area, its
    children and the areas of a space, and creating a child.  The areas of every
    space stay a tree, and the answers say what is in it. *)

From Stdlib Require Import ZArith Lia Ascii String SpecFloat.
From stdpp Require Import relations.
From S2P Require Import Errors Areas WorkItemRequests.
From S2P Require Export SpaceController.
Import Transactions Path.

(** The answer without its links. *)
Record AppArea := {
  aa_ID : uuid;
  aa_Name : string;
  aa_CreatedAt : Time;
  aa_UpdatedAt : Time;
  aa_Version : Z;
  aa_ParentPath : string;
  aa_Number : Z;
  aa_Space : string;
  aa_Parent : option string;
  aa_ParentPathResolved : option string;
}.

Section Controller.
Context {HO : UuidOps}.

(** With the path resolved, as it is in all answers. *)
Definition ConvertArea (d : area_db) (ar : Area) : AppArea :=
  {| aa_ID := ar_ID ar; aa_Name := ar_Name ar; aa_CreatedAt := CreatedAt (ar_Lifecycle ar);
     aa_UpdatedAt := UpdatedAt (ar_Lifecycle ar); aa_Version := ar_Version ar;
     aa_ParentPath := PathString (ParentPath (ar_Path ar)); aa_Number := Number (ar_Number ar);
     aa_Space := uuid_String (ar_SpaceID ar);
     aa_Parent := if negb (IsEmpty (ParentPath (ar_Path ar))) then Some (uuid_String (ParentID (ar_Path ar))) else None;
     aa_ParentPathResolved := Some (getResolvePath ar d) |}.
Definition ConvertAreas (d : area_db) (l : list Area) : list AppArea := map (ConvertArea d) l.
Definition Show_area (id : string) : plm AppArea :=
  let* id := s_query (λ _, parse_id id) in
  let* a := transact (s_query (λ d, area_Load id (pl_areas d))) in
  s_query (λ d, Ok (ConvertArea (pl_areas d) a)).
Definition ShowChildren_area (id : string) : plm (list AppArea) :=
  let* id := s_query (λ _, parse_id id) in
  let* children := transact (
    let* parentArea := s_query (λ d, area_Load id (pl_areas d)) in
    s_query (λ d, Ok (area_ListChildren parentArea (pl_areas d)))) in
  s_query (λ d, Ok (ConvertAreas (pl_areas d) children)).
Definition List_space_areas (spaceID : uuid) : plm (list AppArea) :=
  let* areas := transact (
    let* _ := s_query (λ d, space_CheckExists (sps (pl_app d)) spaceID) in
    s_query (λ d, Ok (area_List spaceID (pl_areas d)))) in
  s_query (λ d, Ok (ConvertAreas (pl_areas d) areas)).
Definition owner_of (d : planner) (spaceID : uuid) : res uuid :=
  match space_Load (sps (pl_app d)) spaceID with Ok s => Ok (OwnerID s) | Err e => Err e | Panic m => Panic m end.
Definition CreateChild_area (now : Time) (newID newID' : uuid) (identity : res uuid) (id : string) (name : option string)
    : plm AppArea :=
  let* currentUser := s_query (λ _, user_of identity) in
  let* parentID := s_query (λ _, parse_id id) in
  let* a := transact (λ d, on_areas (area_CreateChild now newID newID' (owner_of d) currentUser parentID name) d) in
  s_query (λ d, Ok (ConvertArea (pl_areas d) a)).

(** ** The tree *)

Lemma area_CreateChild_ok now newID newID' owner user parentID name d a d' : newID ≠ uuid_Nil →
  area_CreateChild now newID newID' owner user parentID name d = (Ok a, d') →
  ∃ p row n, p ∈ areas d ∧ row_live p = true ∧ ar_ID p = parentID ∧ owner (ar_SpaceID p) = Ok user ∧ name = Some n ∧
    areas d' = areas d ++ [row] ∧ row_live row = true ∧ ar_ID row = newID ∧ ar_SpaceID row = ar_SpaceID p ∧
    ar_Path row = ar_Path p ++ [newID] ∧ ar_Name row = n ∧ (∀ x, x ∈ areas d → ar_ID x ≠ newID) ∧
    (unique_on ar_key (areas d) → unique_on ar_key (areas d')).
Proof.
  intros Hnew. unfold area_CreateChild, area_Load. destruct (t_first _ _) as [p|] eqn:Ep; [|done].
  apply t_first_some in Ep as (Hp & Hl & Hid%has_ID_true). destruct (owner _) as [o|e|m] eqn:Eo; [|done..].
  case_bool_decide as Hu; [|done]. cbn [negb]. destruct name as [n|]; [|done]. unfold area_Create, area_prepare, area_MakeChildOf.
  cbn [ar_ID ar_with ar_Path ar_Lifecycle ar_Number]. rewrite !(bool_decide_true (uuid_Nil = uuid_Nil)) by done. cbn [ar_ID ar_with ar_Path ar_SpaceID].
  rewrite !(bool_decide_false (newID = uuid_Nil)) by done. cbn [ar_ID ar_with ar_Path ar_SpaceID].
  destruct (Nat.eqb_spec (length (ar_Path p ++ [newID])) 0) as [E0|_]; [rewrite length_app in E0; cbn in E0; lia|].
  destruct (negb _); [done|]. destruct (BeforeCreate _ _ _) as [[num|e|m] seqs]; [|done..].
  destruct (t_insert _ _ _ _) as [v|[b t]] eqn:E; [done|]. intros [= _ <-]. cbn [areas].
  assert (Hu' : unique_on ar_key (areas d) → unique_on ar_key t).
  { apply (t_insert_unique (ar_constraints d) "areas_name_space_id_path_unique" ar_key _ _ _ _ _ ltac:(unfold ar_constraints; set_solver) E). }
  apply t_insert_ok in E as (-> & -> & HV). specialize (HV (primary_key "areas_pkey") ltac:(unfold ar_constraints; set_solver)).
  cbn in HV. exists p. eexists _, n. split_and!; try reflexivity; try done; [by rewrite Eo, Hu|].
  intros x Hx Ex. apply not_true_iff_false in HV. apply HV, existsb_exists. exists x.
  split; [by apply list_elem_of_In|by apply has_ID_true].
Qed.

Inductive area_request :=
  | AShow (id : string)
  | AChildren (id : string)
  | AList (spaceID : uuid)
  | ACreate (now : Time) (newID newID' : uuid) (identity : res uuid) (id : string) (name : option string).
Definition answer_area (r : area_request) (d : planner) : planner :=
  match r with
  | AShow id => (Show_area id d).2
  | AChildren id => (ShowChildren_area id d).2
  | AList spaceID => (List_space_areas spaceID d).2
  | ACreate now newID newID' identity id name => (CreateChild_area now newID newID' identity id name d).2
  end.
Definition area_drawn (r : area_request) : Prop := match r with ACreate _ newID _ _ _ _ => newID ≠ uuid_Nil | _ => True end.
Definition asked_area (d d' : planner) : Prop := ∃ r, area_drawn r ∧ d' = answer_area r d.
(** The areas are a tree, siblings have names of their own, and the areas that were there are still there. *)
Definition area_trees (d : planner) : Prop := tree (areas (pl_areas d)) ∧ unique_on ar_key (areas (pl_areas d)).
Definition trees_grow (d d' : planner) : Prop :=
  area_trees d → area_trees d' ∧ ∃ l, areas (pl_areas d') = areas (pl_areas d) ++ l.
#[local] Instance trees_grow_refl : Reflexive trees_grow.
Proof. intros d H. split; [done|]. exists []. by rewrite app_nil_r. Qed.
#[local] Instance trees_grow_trans : Transitive trees_grow.
Proof.
  intros d1 d2 d3 H1 H2 H. destruct (H1 H) as (Hw & l & E). destruct (H2 Hw) as (Hw' & l' & E'). split; [done|].
  exists (l ++ l'). by rewrite E', E, app_assoc.
Qed.
Lemma CreateChild_grows now newID newID' identity id name : newID ≠ uuid_Nil →
  keeps trees_grow (CreateChild_area now newID newID' identity id name).
Proof.
  intros Hnew. unfold CreateChild_area. do 2 (apply keeps_bind; [apply _|apply keeps_query, _|intros ?]).
  apply keeps_bind; [apply _| |intros b; apply keeps_query, _]. apply keeps_transact_ok; [apply _|].
  intros d x d' H [HT HU]. unfold on_areas in H. destruct (area_CreateChild _ _ _ _ _ _ _ _) as [r t] eqn:E. injection H as -> <-.
  apply area_CreateChild_ok in E as (p & row & n & Hp & Hl & _ & _ & _ & Ea & Hlr & Hid & Hs & Hpath & _ & Hf & Hu); [|done].
  unfold area_trees in *. cbn [set_areas pl_areas]. split; [|by exists [row]]. split; [|by apply Hu]. rewrite Ea. apply tree_add; [done|by rewrite <- Hid in Hf|].
  right. exists p. split_and!; [done|done|done|]. cbn. by rewrite Hpath, Hid.
Qed.
Lemma asked_area_grows d d' : asked_area d d' → trees_grow d d'.
Proof.
  intros (r & Hr & ->). destruct r as [id|id|spaceID|now newID newID' identity id name]; cbn [answer_area].
  - apply (keeps_bind trees_grow); [apply keeps_query, _|intros u]. apply (keeps_bind trees_grow); [|intros a; apply keeps_query, _].
    apply keeps_transact; [apply _|apply keeps_query, _].
  - apply (keeps_bind trees_grow); [apply keeps_query, _|intros u]. apply (keeps_bind trees_grow); [|intros a; apply keeps_query, _].
    apply keeps_transact; [apply _|]. apply (keeps_bind trees_grow); [apply keeps_query, _|intros p; apply keeps_query, _].
  - apply (keeps_bind trees_grow); [|intros l; apply keeps_query, _].
    apply keeps_transact; [apply _|]. apply (keeps_bind trees_grow); [apply keeps_query, _|intros p; apply keeps_query, _].
  - by apply CreateChild_grows.
Qed.

(** ** What the answers say *)

Context {HUL : UuidLaws}.

(** The children of an area are the live areas whose path goes one step further. *)
Lemma ListChildren_children p x d : tree (areas d) → p ∈ areas d → row_live p = true →
  x ∈ area_ListChildren p d ↔ child_of (areas d) x p.
Proof.
  intros HT Hp Hl. unfold area_ListChildren. rewrite elem_of_t_where, andb_true_iff, bool_decide_eq_true, Nat.eqb_eq.
  rewrite !length_map, firstn_map. unfold child_of. cbn [row_ID Area_Row n_path Area_Node]. split.
  - intros (Hx & Hlx & E & Hn). split_and!; [done..|]. apply map_ltree_inj in E.
    pose proof (path_last _ _ HT Hx Hlx) as HL. cbn in HL.
    rewrite <- (take_drop (length (ar_Path p)) (ar_Path x)) in HL |- *. rewrite E in HL |- *.
    assert (Hd : length (drop (length (ar_Path p)) (ar_Path x)) = 1%nat) by (rewrite length_drop; lia).
    destruct (drop _ _) as [|u [|]]; [done| |done]. rewrite last_snoc in HL. by injection HL as ->.
  - intros (Hx & _ & Hlx & _ & E). split_and!; [done|done| |].
    + rewrite E. f_equal. by rewrite take_app_length.
    + rewrite E, length_app. cbn. lia.
Qed.
(** The name at every step is that of the area with that id. *)
Definition named_by (d : area_db) (id : uuid) (name : string) : Prop :=
  ∃ x, x ∈ areas d ∧ row_live x = true ∧ ar_ID x = id ∧ ar_Name x = name.
Lemma resolved_names d l (ids : list uuid) : (∀ id, id ∈ ids → ∃ x, x ∈ l ∧ ar_ID x = id) →
  (∀ x, x ∈ l → x ∈ areas d ∧ row_live x = true) →
  ∃ names, Forall2 (named_by d) ids names ∧ ∀ s,
    fold_left (λ s id, match getAreaByID id l with None => s | Some area => s +:+ SepInService +:+ ar_Name area end) ids s =
    fold_left (λ s n, s +:+ SepInService +:+ n) names s.
Proof.
  intros Hids Hl. induction ids as [|id ids IH]; [by exists []|].
  destruct IH as (names & HF & E); [intros u Hu; apply Hids; by right|]. destruct (Hids id) as (x & Hx & Ex); [by left|].
  destruct (getAreaByID id l) as [y|] eqn:Ey.
  - apply List.find_some in Ey as Hy. destruct Hy as [Hy%list_elem_of_In Hyid%bool_decide_eq_true].
    exists (ar_Name y :: names). split; [|intros s; cbn [fold_left]; by rewrite Ey, E].
    constructor; [|done]. exists y. by destruct (Hl y Hy).
  - exfalso. eapply List.find_none in Ey; [|by apply list_elem_of_In]. by rewrite bool_decide_true in Ey.
Qed.
Lemma fold_names_nonempty names s : s ≠ "" → fold_left (λ s n, s +:+ SepInService +:+ n) names s ≠ "".
Proof. revert s. induction names as [|n names IH]; intros s Hs; [done|]. apply IH. by destruct s. Qed.
(** [/area1/area2/area3], and [/] for an area at the top. *)
Definition path_of_names (names : list string) : string :=
  match names with [] => "/" | _ => fold_left (λ s n, s +:+ SepInService +:+ n) names "" end.
Lemma getResolvePath_names d a : tree (areas d) → a ∈ areas d → row_live a = true →
  ∃ names, Forall2 (named_by d) (ParentPath (ar_Path a)) names ∧ getResolvePath a d = path_of_names names.
Proof.
  intros HT Ha Hl. unfold getResolvePath. set (ids := ParentPath (ar_Path a)). set (l := (area_LoadMultiple [] ids d).1).
  assert (Hin : ∀ x, x ∈ l → x ∈ areas d ∧ row_live x = true).
  { unfold l, area_LoadMultiple. intros x. destruct (Nat.eqb _ 0); [by intros ?%elem_of_nil|]. cbn [fst app].
    intros (? & ? & _)%elem_of_t_where. done. }
  destruct (resolved_names d l ids) as (names & HF & E).
  - intros id Hid. destruct (path_last _ _ HT Ha Hl) as []. apply list_elem_of_split in Hid as (q & r & Eq).
    destruct (path_prefix _ _ HT Ha Hl q id (r ++ [ar_ID a])) as (p & Hp & Hpl & _ & Hpid & _).
    { cbn. pose proof (path_last _ _ HT Ha Hl) as HL. cbn in HL. unfold ids, ParentPath in Eq.
      apply last_Some in HL as [k Ek]. rewrite Ek in *. destruct (Nat.ltb _ _); [|by destruct q].
      rewrite length_app in Eq. cbn [length] in Eq. rewrite Nat.add_sub, take_app_length in Eq. by rewrite Eq, <- app_assoc. }
    exists p. split; [|done]. unfold l, area_LoadMultiple. destruct (Nat.eqb_spec (length ids) 0) as [E0|_].
    { rewrite Eq, length_app in E0. cbn in E0. lia. }
    cbn [fst app]. apply elem_of_t_where. split_and!; [done|done|]. apply bool_decide_eq_true. cbn in Hpid. rewrite Hpid, Eq. set_solver.
  - exact Hin.
  - exists names. split; [done|]. rewrite E. unfold path_of_names. destruct names as [|n names]; [done|].
    destruct (String.eqb_spec (fold_left (λ s n, s +:+ SepInService +:+ n) (n :: names) "") "") as [E0|_]; [|done].
    exfalso. revert E0. cbn [fold_left]. by apply fold_names_nonempty.
Qed.
(** Whatever is asked, the areas stay trees whose siblings have names of their own, and none is lost or changed; and then
    showing the children of an area shows exactly its children, each with the names of the areas above it. *)
Theorem area_requests_keep_trees d d' (Hd : area_trees d) (H : rtc asked_area d d') :
  area_trees d' ∧ (∃ l, areas (pl_areas d') = areas (pl_areas d) ++ l) ∧
  ∀ id l, (ShowChildren_area id d').1 = Ok l →
    ∃ p children, p ∈ areas (pl_areas d') ∧ uuid_FromString id = Some (ar_ID p) ∧
      (∀ x, x ∈ children ↔ child_of (areas (pl_areas d')) x p) ∧
      Forall2 (λ x a, aa_ID a = ar_ID x ∧ aa_Name a = ar_Name x ∧ ∃ names,
                 Forall2 (named_by (pl_areas d')) (ParentPath (ar_Path x)) names ∧
                 aa_ParentPathResolved a = Some (path_of_names names)) children l.
Proof.
  assert (Hk : trees_grow d d').
  { clear Hd. induction H as [d0|d0 d1 d2 H1 _ IH]; [reflexivity|]. etrans; [by apply asked_area_grows|exact IH]. }
  destruct (Hk Hd) as [Hw El]. split; [done|]. split; [done|]. intros id l Hl.
  destruct (ShowChildren_area id d') as [r d2] eqn:Es. cbn in Hl. subst r. unfold ShowChildren_area in Es.
  apply s_bind_ok in Es as (u & d3 & [Hu ->]%s_query_ok & Es). apply s_bind_ok in Es as (children & d3 & Hc & Es).
  rewrite transact_ok in Hc. apply s_bind_ok in Hc as (p & d4 & [Hp ->]%s_query_ok & [Hc ->]%s_query_ok).
  apply s_query_ok in Es as [Es ->]. injection Es as <-. injection Hc as <-.
  unfold area_Load in Hp. destruct (t_first _ _) as [q|] eqn:Ef; [|done]. injection Hp as ->.
  apply t_first_some in Ef as (Hp & Hpl & Hid%has_ID_true). cbn in Hid. exists p, (area_ListChildren p (pl_areas d')).
  split_and!; [done| | |].
  - unfold parse_id in Hu. rewrite Hid. destruct (uuid_FromString id); [by injection Hu as ->|done].
  - intros x. apply ListChildren_children; [apply Hw|done..].
  - apply Forall2_map_self. intros x Hx. split_and!; [done..|]. apply ListChildren_children in Hx as (Hx & _ & Hxl & _); [|apply Hw|done..].
    destruct (getResolvePath_names (pl_areas d') x (proj1 Hw) Hx Hxl) as (names & HF & E). exists names. split; [done|].
    cbn. by rewrite E.
Qed.
End Controller.
