(* ===== verification/SpaceRequests.v ===== *)
(** * What the requests on spaces keep

    Every space there ever was has one root iteration and one root area, made
    in the transaction that made the space and kept by every request on
    spaces, iterations and areas; a space is deleted only by its owner, but
    after the other services were asked. *)

From Stdlib Require Import ZArith Lia Ascii String SpecFloat.
From stdpp Require Import relations.
From S2P Require Import Errors Areas IterationFacts IterationRequests LinkBehaviour AreaController.
From S2P Require Export SpaceController WorkItemRequests.
Import Transactions.

(** ** Rows and their ids *)

Lemma t_update_same_ids {A} `{RowLaws A} cs now cond (a b : A) n t t' : t_update cs now cond a t = inr (b, n, t') →
  map row_ID t' = map row_ID t.
Proof.
  intros (_ & _ & -> & _)%t_update_ok. rewrite map_map. apply map_ext. intros x. destruct (hit cond b x) eqn:E; [|done].
  unfold hit in E. rewrite !andb_true_iff, has_ID_true in E. symmetry. apply E.
Qed.
Lemma t_delete_same_ids {A} `{RowLaws A} now p (t : list A) : map row_ID (t_delete now p t).2 = map row_ID t.
Proof. unfold t_delete. cbn. rewrite map_map. apply map_ext. intros x. destruct (_ && _); [apply soft_delete_ID|done]. Qed.
Lemma filter_other {A} (f : A → bool) l x : f x = false → List.filter f (l ++ [x]) = List.filter f l.
Proof. intros H. rewrite List.filter_app. cbn. rewrite H. apply app_nil_r. Qed.

Section Requests.
Context {HO : UuidOps}.

Definition space_ids (d : planner) : list uuid := map sp_ID (space_rows (sps (pl_app d))).
Definition is_root_iteration (sp : uuid) (i : Iteration) : bool :=
  row_live i && (bool_decide (it_SpaceID i = sp) && Nat.eqb (length (it_Path i)) 1).
Definition is_root_area (sp : uuid) (a : Area) : bool :=
  row_live a && forallb (λ f, f a) [FilterBySpaceID sp; λ a, bool_decide (ar_SpaceID a = sp) && Nat.eqb (length (ar_Path a)) 1].
Record rooted (d : planner) : Prop := {
  ro_tree : it_wf (its (pl_app d));
  ro_area_tree : area_trees d;
  ro_ids : NoDup (space_ids d);
  ro_its : ∀ i, i ∈ iterations (its (pl_app d)) → it_SpaceID i ∈ space_ids d;
  ro_areas : ∀ a, a ∈ areas (pl_areas d) → ar_SpaceID a ∈ space_ids d;
  ro_iteration : ∀ sp, sp ∈ space_ids d → ∃ i, List.filter (is_root_iteration sp) (iterations (its (pl_app d))) = [i];
  ro_area : ∀ sp, sp ∈ space_ids d → ∃ a, List.filter (is_root_area sp) (areas (pl_areas d)) = [a];
}.
(** Then the lookups of the roots succeed. *)
Lemma rooted_Root d sp : rooted d → sp ∈ space_ids d → ∃ i, Root_ sp (its (pl_app d)) = Ok i.
Proof.
  intros Hd Hsp. destruct (ro_iteration d Hd sp Hsp) as [i Hi]. exists i. unfold Root_, t_first, t_where.
  unfold is_root_iteration in Hi. by rewrite Hi.
Qed.
Lemma rooted_area_Root d sp : rooted d → sp ∈ space_ids d → ∃ a, area_Root sp (pl_areas d) = Ok a.
Proof.
  intros Hd Hsp. destruct (ro_area d Hd sp Hsp) as [a Ha]. exists a. unfold area_Root, area_Query, t_where.
  unfold is_root_area in Ha. by rewrite Ha.
Qed.

(** Nothing but spaces with the ids they had. *)
Definition same_trees (d d' : planner) : Prop :=
  space_ids d' = space_ids d ∧ iterations (its (pl_app d')) = iterations (its (pl_app d)) ∧
  it_sequences (its (pl_app d')) = it_sequences (its (pl_app d)) ∧ areas (pl_areas d') = areas (pl_areas d).
#[export] Instance same_trees_refl : Reflexive same_trees.
Proof. by repeat split. Qed.
#[export] Instance same_trees_trans : Transitive same_trees.
Proof. intros d1 d2 d3 (?&?&?&?) (?&?&?&?). repeat split; congruence. Qed.
Lemma it_wf_same d d' : iterations d' = iterations d → it_sequences d' = it_sequences d → it_wf d → it_wf d'.
Proof. intros E1 E2 []. split; rewrite ?E1, ?E2; done. Qed.
Lemma same_trees_rooted d d' : same_trees d d' → rooted d → rooted d'.
Proof.
  intros (E1 & E2 & E3 & E4) []. split; [by eapply it_wf_same|..]; unfold area_trees in *; rewrite ?E1, ?E2, ?E4; done.
Qed.
Lemma same_planner_trees d d' : same_planner d d' → same_trees d d'.
Proof. intros H. unfold same_trees, space_ids. by rewrite (sm_its _ _ H), (sm_sps _ _ H), (sm_areas _ _ H). Qed.
Lemma on_spaces_trees {A} (m : spm A) : (∀ t, map sp_ID (space_rows (m t).2) = map sp_ID (space_rows t)) →
  keeps same_trees (on_spaces m).
Proof. intros Hm d. unfold on_spaces. specialize (Hm (sps (pl_app d))). by destruct (m (sps (pl_app d))) as [r t]. Qed.
Lemma space_Save_ids now p t : map sp_ID (space_rows (space_Save now p t).2) = map sp_ID (space_rows t).
Proof.
  unfold space_Save. destruct (t_first _ _); [|done]. destruct (t_update _ _ _ _ _) as [v|[[b n] t']] eqn:E; [done|].
  apply t_update_same_ids in E. by destruct n.
Qed.
Lemma space_Delete_ids now id t : map sp_ID (space_rows (space_Delete now id t).2) = map sp_ID (space_rows t).
Proof.
  unfold space_Delete. case_bool_decide; [done|]. destruct (t_delete _ _ _) as [n t'] eqn:E.
  pose proof (t_delete_same_ids now (by_primary_key id) (space_rows t)) as H'. rewrite E in H'. by destruct (Nat.eqb n 0).
Qed.

(** ** Creating a space *)

Lemma space_Create_row now newID p t r t' : space_Create now newID p t = (Ok r, t') →
  space_rows t' = space_rows t ++ [r] ∧ sp_ID r ∉ map sp_ID (space_rows t) ∧
  sp_Name r = sp_Name p ∧ OwnerID r = OwnerID p ∧ row_live r = true ∧
  sp_ID r = (if bool_decide (sp_ID p = uuid_Nil) then newID else sp_ID p).
Proof.
  unfold space_Create. set (p' := if bool_decide (sp_ID p = uuid_Nil) then _ else p).
  assert (Hp' : sp_Name p' = sp_Name p ∧ OwnerID p' = OwnerID p ∧
                sp_ID p' = if bool_decide (sp_ID p = uuid_Nil) then newID else sp_ID p) by (unfold p'; by case_bool_decide).
  destruct (template_Load _ _) as [templ|e|m]; [|done..]. destruct (negb _); [done|].
  destruct (t_insert _ _ _ _) as [v|[b t1]] eqn:E; [done|]. intros [= <- <-].
  apply t_insert_ok in E as (-> & -> & HV). cbn [space_rows set_spaces].
  specialize (HV (primary_key "spaces_pkey")). cbn [violated primary_key] in HV.
  split_and!; [done| |apply Hp'|apply Hp'|done|apply Hp'].
  intros Hin. apply not_true_iff_false in HV; [|right; by left]. apply HV, existsb_exists.
  apply elem_of_map_image in Hin as (x & Hx & E). exists x. split; [by apply list_elem_of_In|]. by apply has_ID_true.
Qed.
Lemma area_Create_root now newID p d a d' : area_Create now newID (root_area_of p) d = (Ok a, d') →
  ∃ row, areas d' = areas d ++ [row] ∧ ar_SpaceID row = sp_ID p ∧ ar_Path row = [newID] ∧ ar_Name row = sp_Name p ∧
    row_live row = true ∧ (tree (areas d) ∧ unique_on ar_key (areas d) → tree (areas d') ∧ unique_on ar_key (areas d')).
Proof.
  unfold area_Create, area_prepare, root_area_of. cbn [ar_ID ar_with ar_Path ar_SpaceID].
  rewrite bool_decide_true by done. cbn [length Nat.eqb ar_Path ar_with ar_ID].
  destruct (negb _); [done|]. destruct (BeforeCreate _ _ _) as [[n|e|m] seqs]; [|done..].
  destruct (t_insert _ _ _ _) as [v|[b t]] eqn:E; [done|]. intros [= _ <-].
  assert (Hu : unique_on ar_key (areas d) → unique_on ar_key t).
  { apply (t_insert_unique (ar_constraints d) "areas_name_space_id_path_unique" ar_key _ _ _ _ _ ltac:(unfold ar_constraints; set_solver) E). }
  apply t_insert_ok in E as (-> & -> & HV). specialize (HV (primary_key "areas_pkey") ltac:(unfold ar_constraints; set_solver)).
  cbn in HV. eexists. cbn. split_and!; try reflexivity. intros [HT HU]. split; [|by apply Hu].
  apply tree_add; [done| |by left]. intros x Hx Ex. apply not_true_iff_false in HV. apply HV, existsb_exists. exists x.
  split; [by apply list_elem_of_In|by apply has_ID_true].
Qed.
Lemma Create_root now newID p d r d' : Iterations.Create now newID (root_iteration_of p) d = (Ok r, d') → newID ≠ uuid_Nil →
  ∃ row, iterations d' = iterations d ++ [row] ∧ it_SpaceID row = sp_ID p ∧ it_Path row = [newID] ∧ it_Name row = sp_Name p ∧
    row_live row = true ∧ (it_wf d → it_wf d').
Proof.
  intros H Hnew. assert (Hwf : it_wf d → it_wf d').
  { intros Hd. destruct (Create_row _ _ _ _ _ _ H) as [row HC]. eapply it_creation_wf; [exact HC|by left|done|done]. }
  revert H.
  unfold Iterations.Create, prepare, root_iteration_of. cbn [it_ID it_with it_Path it_SpaceID].
  rewrite bool_decide_true by done. cbn [length Nat.eqb it_Path it_with it_ID].
  destruct (negb _); [done|]. cbn [it_State it_with]. destruct (IsSet "") eqn:E0; [by vm_compute in E0|].
  destruct (BeforeCreate _ _ _) as [[n|e|m] seqs]; [|done..].
  destruct (t_insert _ _ _ _) as [v|[b t]] eqn:E; [by destruct (IsUniqueViolation _ _)|]. intros [= _ <-].
  apply t_insert_ok in E as (-> & -> & _). eexists. cbn. split_and!; try reflexivity. exact Hwf.
Qed.
Lemma root_filter_new {A} (f : uuid → A → bool) (key : A → uuid) (sp : uuid) (row : A) (l : list A) (ids : list uuid) :
  (∀ s x, f s x = true → key x = s) → (∀ x, x ∈ l → key x ∈ ids) → f sp row = true → sp ∉ ids →
  List.filter (f sp) (l ++ [row]) = [row] ∧ ∀ s, s ∈ ids → List.filter (f s) (l ++ [row]) = List.filter (f s) l.
Proof.
  intros Hf Hl Hrow Hsp. split.
  - rewrite List.filter_app. cbn. rewrite Hrow. rewrite LinkBehaviour.filter_none; [done|].
    intros x Hx%list_elem_of_In. apply not_true_iff_false. intros E. apply Hsp. rewrite <- (Hf _ _ E). by apply Hl.
  - intros s Hs. apply filter_other, not_true_iff_false. intros E. apply Hf in E, Hrow. congruence.
Qed.
Lemma create_space_rooted now spaceID newID areaID itID user req a name d p d' :
  create_space_in_db now spaceID newID areaID itID user req a name d = (Ok p, d') → itID ≠ uuid_Nil →
  rooted d → rooted d' ∧ space_ids d' = space_ids d ++ [sp_ID p] ∧
  sp_ID p = (if bool_decide (spaceID = uuid_Nil) then newID else spaceID) ∧ sp_Name p = name ∧ OwnerID p = user ∧
  (∃ i, Root_ (sp_ID p) (its (pl_app d')) = Ok i ∧ it_Name i = name) ∧
  (∃ ar, area_Root (sp_ID p) (pl_areas d') = Ok ar ∧ ar_Name ar = name).
Proof.
  unfold create_space_in_db. intros H Hdrawn Hd. apply s_bind_ok in H as (template & d0 & H0 & H).
  assert (d0 = d) as ->.
  { destruct (as_SpaceTemplate req); [|by injection H0]. apply s_bind_ok in H0 as (? & d1 & H1 & H0). injection H0 as _ <-.
    by injection H1 as _ <-. }
  clear H0. apply s_bind_ok in H as (r & d1 & H1 & H). apply s_bind_ok in H as (ar & d2 & H2 & H).
  apply s_bind_ok in H as (i & d3 & H3 & H). injection H as -> <-.
  rewrite s_map_ok in H1 by (intro; apply wrapf_ok). rewrite s_map_ok in H2 by (intro; apply wrapf_ok).
  rewrite s_map_ok in H3 by (intro; apply wrapf_ok).
  unfold on_spaces in H1. destruct (space_Create _ _ _ _) as [r1 t1] eqn:E1. injection H1 as -> <-.
  apply space_Create_row in E1 as (Hrows & Hnew & Hname & Howner & Hlive & Hid). cbn [sp_ID sp_Name OwnerID] in *.
  unfold on_areas in H2. destruct (area_Create _ _ _ _) as [r2 t2] eqn:E2. injection H2 as -> <-.
  apply area_Create_root in E2 as (arow & Ha & Has & Hap & Han & Hal & Hawf). cbn [areas pl_areas set_sps] in Ha.
  unfold on_iterations, on_its in H3. destruct (Iterations.Create _ _ _ _) as [r3 t3] eqn:E3. injection H3 as -> <-.
  apply Create_root in E3 as (irow & Hi & His & Hip & Hin & Hil & Hiwf); [|done]. cbn [its pl_app set_areas set_sps iterations] in Hi.
  destruct (root_filter_new is_root_iteration it_SpaceID (sp_ID p) irow (iterations (its (pl_app d))) (space_ids d)) as [Hi1 Hi2].
  { intros s x (_ & [Hx%bool_decide_eq_true _]%andb_prop)%andb_prop. done. }
  { apply Hd. } { unfold is_root_iteration. by rewrite Hil, His, Hip, bool_decide_true. } { done. }
  destruct (root_filter_new is_root_area ar_SpaceID (sp_ID p) arow (areas (pl_areas d)) (space_ids d)) as [Ha1 Ha2].
  { intros s x (_ & (Hx & _)%andb_prop)%andb_prop. by apply bool_decide_eq_true in Hx. }
  { apply Hd. } { unfold is_root_area, FilterBySpaceID. cbn. by rewrite Hal, Has, Hap, bool_decide_true. } { done. }
  set (dd := set_app _ _).
  assert (Eids : space_ids dd = space_ids d ++ [sp_ID p]).
  { unfold space_ids, dd. cbn. by rewrite Hrows, map_app. }
  assert (Eits : iterations (its (pl_app dd)) = iterations (its (pl_app d)) ++ [irow]) by done.
  assert (Eareas : areas (pl_areas dd) = areas (pl_areas d) ++ [arow]) by done.
  assert (Hwf : it_wf (its (pl_app dd)) ∧ area_trees dd) by (split;
    [apply Hiwf, (it_wf_same (its (pl_app d))); [done|done|apply Hd]|apply Hawf, (ro_area_tree d Hd)]).
  clearbody dd. destruct Hwf.
  split; [|split_and!; try done].
  - split; [done..| | | | |]; rewrite Eids, ?Eits, ?Eareas.
    + apply NoDup_app. split_and!; [apply Hd| |apply NoDup_singleton]. intros x Hx ->%list_elem_of_singleton. done.
    + intros x [Hx| ->%list_elem_of_singleton]%elem_of_app; apply elem_of_app; [left; by apply Hd|right; apply list_elem_of_singleton; congruence].
    + intros x [Hx| ->%list_elem_of_singleton]%elem_of_app; apply elem_of_app; [left; by apply Hd|right; apply list_elem_of_singleton; congruence].
    + intros s [Hs| ->%list_elem_of_singleton]%elem_of_app; [|by exists irow]. rewrite Hi2 by done. by apply Hd.
    + intros s [Hs| ->%list_elem_of_singleton]%elem_of_app; [|by exists arow]. rewrite Ha2 by done. by apply Hd.
  - exists irow. split; [|congruence]. unfold Root_, t_first, t_where. unfold is_root_iteration in Hi1. by rewrite Eits, Hi1.
  - exists arow. split; [|congruence]. unfold area_Root, area_Query, t_where. unfold is_root_area in Ha1. by rewrite Eareas, Ha1.
Qed.

(** ** The requests one after the other *)

Section Answers.
Context (FormatShortest : float64 → string) (HasColumn : string → string → bool).
Context {RO : RowOrder} (selects : compiled → wi_db → selection) (ks ks' ks'' : list string).
Notation Create_space := (Create_space FormatShortest HasColumn selects ks ks' ks'').
Notation Update_space := (Update_space FormatShortest HasColumn selects ks ks' ks'').
Notation show_space := (show_space FormatShortest HasColumn selects ks ks' ks'').

Lemma show_space_quiet p : quiet (show_space p).
Proof.
  unfold SpaceController.show_space, countBacklogItems, generateBacklogExpression.
  repeat (apply keeps_bind; [apply _| |intros ?]); try apply keeps_map.
  all: try (apply keeps_bind; [apply _| |intros []]); eauto 20 with quiet typeclass_instances.
Qed.
(** [between] is what others commit while the cluster is asked, or the other services are. *)
Inductive space_request :=
  | QCreate (now : Time) (newID newID' areaID itID : uuid) (sv : services) (identity : res uuid) (data : option AppSpace)
  | QUpdate (now : Time) (identity : res uuid) (spaceID : uuid) (data : option AppSpace)
  | QDelete (now : Time) (sv : services) (identity : res uuid) (spaceID : uuid) (skipCluster : bool).
Definition answer_space (between : planner → planner) (q : space_request) (d : planner) : planner :=
  match q with
  | QCreate now newID newID' areaID itID sv identity data =>
      (Create_space now newID newID' areaID itID between sv identity data d).2
  | QUpdate now identity spaceID data => (Update_space now identity spaceID data d).2
  | QDelete now sv identity spaceID skipCluster => (Delete_space now between sv identity spaceID skipCluster (d, [])).2.1
  end.
Definition space_drawn (q : space_request) : Prop :=
  match q with QCreate _ _ _ _ itID _ _ _ => itID ≠ uuid_Nil | _ => True end.

Definition stays (d d' : planner) : Prop := rooted d → rooted d'.
#[local] Instance stays_refl : Reflexive stays.
Proof. intros d H. exact H. Qed.
#[local] Instance stays_trans : Transitive stays.
Proof. intros d1 d2 d3 H1 H2 H. by apply H2, H1. Qed.
Lemma trees_stay {A} (m : plm A) : keeps same_trees m → keeps stays m.
Proof. intros Hm d. unfold stays. by apply same_trees_rooted. Qed.
Lemma quiet_stays {A} (m : plm A) : quiet m → keeps stays m.
Proof. intros Hm. apply trees_stay. intros d. apply same_planner_trees, Hm. Qed.
Section Between.
Context (between : planner → planner) (Hbetween : ∀ d, stays d (between d)).
Lemma Create_space_stays now newID newID' areaID itID sv identity data : itID ≠ uuid_Nil →
  keeps stays (Create_space now newID newID' areaID itID between sv identity data).
Proof.
  intros Hdrawn.
  unfold SpaceController.Create_space. do 2 (apply keeps_bind; [apply _|apply keeps_query, _|intros ?]).
  apply keeps_bind; [apply _| |intros r].
  { apply keeps_transact_ok; [apply _|]. intros d p d' H Hd. by eapply create_space_rooted. }
  apply keeps_bind; [apply _|intros d; apply Hbetween|intros _].
  destruct (sv_create_resource _ _) as [?|e|m]; [apply quiet_stays, show_space_quiet| |apply keeps_query, _].
  intros d. cbn. apply (trees_stay (rollBackSpaceCreation now _)). apply keeps_transact; [apply _|].
  apply on_spaces_trees. intros t. apply space_Delete_ids.
Qed.
Lemma Update_space_stays now identity spaceID data : keeps stays (Update_space now identity spaceID data).
Proof.
  unfold SpaceController.Update_space. do 2 (apply keeps_bind; [apply _|apply keeps_query, _|intros ?]).
  match goal with |- keeps _ (let '(_, _) := ?p in _) => destruct p as [[? ?] ?] end.
  apply keeps_bind; [apply _| |intros r; apply quiet_stays, show_space_quiet].
  apply trees_stay, keeps_transact; [apply _|]. do 2 (apply keeps_bind; [apply _|apply keeps_query, _|intros ?]).
  apply on_spaces_trees. intros t. apply space_Save_ids.
Qed.
Lemma delete_space_stays now spaceID user : keeps stays (transact (delete_space_in_db now spaceID user)).
Proof.
  apply trees_stay, keeps_transact; [apply _|]. unfold delete_space_in_db.
  do 2 (apply keeps_bind; [apply _|apply keeps_query, _|intros ?]). apply on_spaces_trees. intros t. apply space_Delete_ids.
Qed.

(** A statement that asks other services leaves the store alone. *)
Definition asked_stays (s s' : planner * list asked_for) : Prop := stays s.1 s'.1.
#[local] Instance asked_stays_refl : Reflexive asked_stays.
Proof. intros s. apply stays_refl. Qed.
#[local] Instance asked_stays_trans : Transitive asked_stays.
Proof. intros s1 s2 s3. apply stays_trans. Qed.
Lemma ask_each_store {X} (ask : X → asked_for) wrong l s : (ask_each ask wrong l s).2.1 = s.1.
Proof.
  revert s. induction l as [|x l IH]; intros s; [done|]. cbn [ask_each]. unfold s_bind, ask_.
  specialize (IH (s.1, s.2 ++ [ask x])). destruct (ask_each _ _ _ _) as [[es|e|m] s']; exact IH.
Qed.
Lemma deleteCodebases_store sv s : (deleteCodebases sv s).2.1 = s.1.
Proof.
  unfold deleteCodebases, s_bind, s_query. destruct (service_url _ _); [|done..]. destruct (listed_ _ _ _ _); [|done..].
  match goal with |- context [ask_each ?f ?g ?l s] => pose proof (ask_each_store f g l s) as E; by destruct (ask_each f g l s) as [[]] end.
Qed.
Lemma deleteOpenShiftResource_store sv s : (deleteOpenShiftResource sv s).2.1 = s.1.
Proof.
  unfold deleteOpenShiftResource, s_bind, s_query. destruct (service_url _ _); [|done..]. destruct (listed_ _ _ _ _); [|done..].
  match goal with |- context [ask_each ?f ?g ?l s] => pose proof (ask_each_store f g l s) as E; by destruct (ask_each f g l s) as [[]] end.
Qed.
Lemma Delete_space_stays now sv identity spaceID skipCluster :
  keeps asked_stays (Delete_space now between sv identity spaceID skipCluster).
Proof.
  assert (Hstore : ∀ m : asking unit, (∀ s, (m s).2.1 = s.1) → keeps asked_stays m).
  { intros m Hm s. unfold asked_stays. by rewrite Hm. }
  unfold Delete_space. apply keeps_bind; [apply _|apply keeps_query, _|intros user].
  apply keeps_bind; [apply _|apply keeps_map, Hstore, deleteCodebases_store|intros _].
  apply keeps_bind; [apply _|destruct skipCluster; [apply keeps_ret, _|apply keeps_map, Hstore, deleteOpenShiftResource_store]|intros _].
  apply keeps_bind; [apply _|intros [d l]; exact (Hbetween d)|intros _]. apply keeps_bind; [apply _| |intros _].
  { intros [d l]. unfold in_db. pose proof (delete_space_stays now spaceID user d) as E. cbn.
    by destruct (transact _ d) as [r d']. }
  apply keeps_bind; [apply _|intros s; exact (stays_refl s.1)|intros _]. apply keeps_query, _.
Qed.

End Between.

(** ** Every request that writes a space, an iteration or an area *)

Section Steps.
Context {HL : UuidLaws} (authorize : string → res bool).
Context (IsURL : string → bool) (time_json : Z → string) (struct_json : string → option gval).
Context (Sprint : gval → string) (related : related_rows).
Notation answer := (answer authorize IsURL time_json struct_json Sprint related).

(** The second transaction of a request on iterations, in a store in which the iteration its first one loaded is as it
    was there.  Roots are made with their space, not by a request of their own. *)
Definition iteration_step (d d' : planner) : Prop :=
  ∃ d0 q u a, drawn q ∧ (∀ now id sp name, q ≠ RCreateRoot now id sp name) ∧ current q d0 (pl_app d) ∧
    answer (λ _, pl_app d) q d0 = (Ok u, a) ∧ d' = set_app a d.
(** One request after the other; in the gap of a request on spaces any others. *)
Inductive step : planner → planner → Prop :=
  | space_step between q d : space_drawn q → (∀ x, steps x (between x)) → step d (answer_space between q d)
  | iteration_step_ d d' : iteration_step d d' → step d d'
  | area_step d d' : asked_area d d' → step d d'
with steps : planner → planner → Prop :=
  | no_step d : steps d d
  | more_steps d1 d2 d3 : step d1 d2 → steps d2 d3 → steps d1 d3.
Scheme step_steps_ind := Minimality for step Sort Prop
  with steps_step_ind := Minimality for steps Sort Prop.

Lemma CreateChild_area_stays now newID newID' identity id name : newID ≠ uuid_Nil →
  keeps stays (CreateChild_area now newID newID' identity id name).
Proof.
  intros Hnew. unfold CreateChild_area. do 2 (apply keeps_bind; [apply _|apply keeps_query, _|intros ?]).
  apply keeps_bind; [apply _| |intros b; apply keeps_query, _]. apply keeps_transact_ok; [apply _|].
  intros d x d' H Hd. unfold on_areas in H. destruct (area_CreateChild _ _ _ _ _ _ _ _) as [r t] eqn:E. injection H as -> <-.
  apply area_CreateChild_ok in E as (p & row & n & Hp & Hl & _ & _ & _ & Ea & Hlr & Hid & Hs & Hpath & _ & Hf & Hu); [|done].
  pose proof (ro_area_tree d Hd) as [HT HU].
  assert (Hpn : ar_Path p ≠ []) by exact (path_not_nil _ _ HT Hp Hl).
  split; try apply Hd; cbn [set_areas pl_areas]; rewrite ?Ea.
  - split; cbn [set_areas pl_areas]; [|by apply Hu]. rewrite Ea. apply tree_add; [done|by rewrite <- Hid in Hf|].
    right. exists p. split_and!; [done|done|done|]. cbn. by rewrite Hpath, Hid.
  - intros y [Hy| ->%list_elem_of_singleton]%elem_of_app; [by apply Hd|]. rewrite Hs. by apply Hd.
  - intros sp Hsp. change (space_ids _) with (space_ids d) in Hsp. rewrite filter_other; [by apply Hd|].
    unfold is_root_area. cbn. rewrite Hpath, length_app. destruct (ar_Path p); [done|]. cbn.
    by rewrite Nat.add_comm, !andb_false_r.
Qed.
Lemma area_stays d d' : asked_area d d' → stays d d'.
Proof.
  intros (r & Hr & ->). destruct r as [id|id|spaceID|now newID newID' identity id name]; cbn [answer_area];
    [..|by apply CreateChild_area_stays].
  - apply (keeps_bind stays); [apply keeps_query, _|intros u]. apply (keeps_bind stays); [|intros a; apply keeps_query, _].
    apply keeps_transact; [apply _|apply keeps_query, _].
  - apply (keeps_bind stays); [apply keeps_query, _|intros u]. apply (keeps_bind stays); [|intros a; apply keeps_query, _].
    apply keeps_transact; [apply _|]. apply (keeps_bind stays); [apply keeps_query, _|intros p; apply keeps_query, _].
  - apply (keeps_bind stays); [|intros l; apply keeps_query, _].
    apply keeps_transact; [apply _|]. apply (keeps_bind stays); [apply keeps_query, _|intros p; apply keeps_query, _].
Qed.

(** What a request on iterations does to the roots: nothing. *)
Record roots_kept (d d' : app_db) : Prop := {
  rk_spaces : sps d' = sps d;
  rk_its : ∀ i, i ∈ iterations (its d') → ∃ j, j ∈ iterations (its d) ∧ it_SpaceID i = it_SpaceID j;
  rk_roots : ∀ sp, length (List.filter (is_root_iteration sp) (iterations (its d'))) =
                   length (List.filter (is_root_iteration sp) (iterations (its d)));
}.
Lemma Create_child_row now newID u d r d' : Iterations.Create now newID u d = (Ok r, d') → it_ID u ≠ uuid_Nil →
  (1 < length (it_Path u))%nat →
  ∃ row, iterations d' = iterations d ++ [row] ∧ it_SpaceID row = it_SpaceID u ∧ (1 < length (it_Path row))%nat.
Proof.
  intros H Hid Hl. unfold Iterations.Create in H. destruct (prepare _ _) as [v|e|m] eqn:Ep; [|done..].
  assert (Hv : it_SpaceID v = it_SpaceID u ∧ it_Path v = it_Path u).
  { unfold prepare in Ep. rewrite bool_decide_false in Ep by done. cbn -[Path.This] in Ep.
    destruct (Nat.eqb_spec (length (it_Path u)) 0); [lia|]. destruct (negb _); [done|]. by injection Ep as <-. }
  destruct Hv as [Es El]. destruct (BeforeCreate _ _ _) as [[n0|e|m] seqs]; [|done..].
  destruct (t_insert _ _ _ _) as [w|[b t]] eqn:E; [by destruct (IsUniqueViolation _ _)|]. injection H as _ <-.
  apply t_insert_ok in E as (-> & -> & _). eexists. split; [reflexivity|].
  rewrite <- Es. rewrite <- El in Hl. destruct (IsSet _); split; (reflexivity || exact Hl).
Qed.
Lemma create_roots_kept now id2 id3 u p d r d' : id2 ≠ uuid_Nil → it_wf (its d) → p ∈ iterations (its d) → row_live p = true →
  it_SpaceID u = it_SpaceID p → on_its (Iterations.Create now id3 (MakeChildOf id2 u p)) d = (Ok r, d') → roots_kept d d'.
Proof.
  intros Hid Hwf Hp Hl Hs (HC & Esps & _)%on_its_ok.
  pose proof (path_not_nil _ _ (iw_tree _ Hwf) Hp Hl) as Hpn. cbn in Hpn.
  apply Create_child_row in HC as (row & E & Es & El).
  - split; [done| |intros sp; rewrite E, filter_other; [done|]].
    + intros i. rewrite E. intros [Hi| ->%list_elem_of_singleton]%elem_of_app; [by exists i|].
      exists p. split; [done|]. by rewrite Es.
    + unfold is_root_iteration. rewrite (proj2 (Nat.eqb_neq _ _)) by lia. by rewrite !andb_false_r.
  - by apply MakeChildOf_not_nil.
  - cbn. rewrite length_app. cbn. destruct (it_Path p); [done|]. cbn. lia.
Qed.
Lemma filter_count {A} (f : A → bool) t t' : Forall2 (λ x y, f y = f x) t t' →
  length (List.filter f t') = length (List.filter f t).
Proof. induction 1 as [|x y t t' E _ IH]; [done|]. cbn. rewrite E. destruct (f x); cbn; by rewrite IH. Qed.
Lemma Forall2_elem_r {A B} (R : A → B → Prop) t t' y : Forall2 R t t' → y ∈ t' → ∃ x, x ∈ t ∧ R x y.
Proof. induction 1 as [|a b t t' H _ IH]; [by intros ?%elem_of_nil|]. set_solver. Qed.
(** Rows whose paths change from one of more steps to one of more steps. *)
Lemma resaved_roots_kept f d d' : it_wf (its d) → resaved f (iterations (its d)) (iterations (its d')) → sps d' = sps d →
  (∀ x, x ∈ iterations (its d) → row_live x = true → length (new_path f x) = 1%nat ↔ length (it_Path x) = 1%nat) →
  roots_kept d d'.
Proof.
  intros Hwf HR Hs Hf. split; [done| |].
  - intros i Hi. destruct (Forall2_elem_r _ _ _ _ HR Hi) as (x & Hx & _ & E & _). by exists x.
  - intros sp. apply filter_count. unfold resaved in HR. rewrite Forall2_lookup in HR |- *. intros k. specialize (HR k).
    destruct (iterations (its d) !! k) as [x|] eqn:Ex; inversion HR as [? y (_ & E1 & E2 & E3 & _) Ey|]; constructor.
    unfold is_root_iteration. rewrite E1, E2, E3. destruct (row_live x) eqn:Elx; [|done]. f_equal.
    specialize (Hf x ltac:(by eapply list_elem_of_lookup_2) Elx).
    destruct (Nat.eqb_spec (length (new_path f x)) 1), (Nat.eqb_spec (length (it_Path x)) 1); tauto.
Qed.
(** A moved iteration is no root, and neither is what is under it. *)
Lemma new_parent_not_root p j d np sub : new_parent p j d = Ok (Some (np, sub)) → Iterations.IsRoot j (it_SpaceID j) = false.
Proof. unfold new_parent. destruct (p_Parent p); [|done]. by destruct (Iterations.IsRoot _ _). Qed.
Lemma not_root_long d i : tree (iterations d) → i ∈ iterations d → row_live i = true → Iterations.IsRoot i (it_SpaceID i) = false →
  length (it_Path i) ≠ 1%nat.
Proof.
  intros HT Hi Hl. pose proof (path_last _ _ HT Hi Hl) as HE. cbn in HE. unfold Iterations.IsRoot.
  rewrite bool_decide_true by done. cbn [andb]. destruct (it_Path i) as [|x [|]]; [done| |done]. injection HE as <-. cbn.
  by rewrite bool_decide_true.
Qed.
Lemma moved_roots f d i np r sub :
  it_wf d → i ∈ iterations d → row_live i = true → length (it_Path i) ≠ 1%nat →
  np ∈ iterations d → row_live np = true → it_Path r = it_Path np ++ [it_ID i] →
  LoadChildren (it_ID i) d = Ok sub →
  f = children_paths r sub ∪ {[it_ID i := it_Path np ++ [it_ID i]]} →
  ∀ x, x ∈ iterations d → row_live x = true → length (new_path f x) = 1%nat ↔ length (it_Path x) = 1%nat.
Proof.
  intros Hwf Hi Hl Hlen Hnp Hlnp Hr Hsub Ef x Hx Hlx.
  apply LoadChildren_ok in Hsub as (i' & HL1 & Hsub). rewrite Load_live in HL1 by (done || apply Hwf). injection HL1 as <-.
  pose proof (path_not_nil _ _ (iw_tree _ Hwf) Hnp Hlnp) as Hnpn. pose proof (path_not_nil _ _ (iw_tree _ Hwf) Hi Hl) as Hin.
  cbn in Hnpn, Hin. assert (Hlong : ∀ u, length (it_Path np ++ [u]) ≠ 1%nat).
  { intros u. rewrite length_app. destruct (it_Path np); [done|]. cbn. lia. }
  unfold new_path. rewrite Hlx, Ef, lookup_union, children_paths_lookup. cbn [row_ID Iteration_Row n_path Iteration_Node].
  case_bool_decide as Hin'.
  - assert (HE : ∃ q, q ≠ [] ∧ it_Path x = it_Path i ++ q).
    { rewrite list_elem_of_In, in_map_iff in Hin'. destruct Hin' as (y & E & Hy%list_elem_of_In).
      apply Hsub in Hy as (Hy & _ & Hq). by assert (x = y) as -> by (apply (ids_unique_eq (iterations d)); [apply Hwf|done..]). }
    destruct HE as (q & Hq & ->).
    assert (length (it_Path i ++ q) ≠ 1%nat) by (rewrite length_app; destruct (it_Path i), q; try done; cbn; lia).
    assert (length (it_Path r ++ [it_ID x]) ≠ 1%nat) by (rewrite Hr, length_app; pose proof (Hlong (it_ID i)) as H1;
      rewrite length_app in *; cbn in *; lia).
    destruct ({[it_ID i := _]} !! _); cbn; tauto.
  - destruct (decide (it_ID i = it_ID x)) as [E|Hne].
    + assert (x = i) as -> by (apply (ids_unique_eq (iterations d)); [apply Hwf|done..]). rewrite lookup_singleton_eq. cbn.
      specialize (Hlong (it_ID i)). tauto.
    + by rewrite lookup_singleton_ne.
Qed.
Lemma save_update_roots_kept now newID p i d r d' : it_wf (its d) → i ∈ iterations (its d) → row_live i = true →
  on_its (save_update now newID p i) d = (Ok r, d') → roots_kept d d'.
Proof.
  intros Hwf Hi Hl (HS & Hs & _)%on_its_ok. unfold save_update in HS. stm_inv.
  match goal with H : new_state _ _ _ = Ok ?k |- _ => rename k into j; apply new_state_ok in H as Hrd end.
  assert (Hrd' : redressed i (with_user_active p j)) by (by destruct Hrd).
  match goal with H : new_parent _ _ _ = Ok ?o |- _ => destruct o as [[np sub]|] eqn:Eo end.
  - match goal with H : new_parent _ _ _ = Ok _ |- _ =>
      apply new_parent_not_root in H as Hnr; apply new_parent_ok in H as (? & ? & ? & ? & Hsub & ?) end.
    stm_inv. match goal with H1 : Iterations.Save _ _ _ = _, H2 : save_children _ _ _ _ _ = _ |- _ =>
      eapply move_wf in H2 as (_ & HT & Hr & _); [|exact Hwf|exact Hi|exact Hl|exact Hrd'|..|exact H1]; [|done..] end.
    destruct Hrd' as [E1 E2 E3 _ _]. rewrite E1 in Hsub.
    eapply resaved_roots_kept; [done|exact (iss_rows _ _ _ HT)|done|]. eapply (moved_roots _ _ i np r sub); [done|done|done| |done|done|exact Hr|exact Hsub|reflexivity].
    apply (not_root_long (its d)); [apply Hwf|done|done|]. revert Hnr. unfold Iterations.IsRoot. by rewrite E1, E2, E3.
  - pose proof (redressed_stored _ _ _ Hi Hl Hrd') as Hst. match goal with H : Iterations.Save _ _ _ = _ |- _ =>
      apply Save_rows in H as HS; [|apply Hwf|exact Hst] end.
    eapply resaved_roots_kept; [done|exact (is_rows _ _ _ _ HS)|done|].
    intros x Hx Hlx. destruct Hrd' as [E1 _ E2 _ _]. unfold new_path. rewrite Hlx, E1, E2.
    cbn [row_ID Iteration_Row n_path Iteration_Node].
    destruct (decide (it_ID x = it_ID i)) as [E|Hne].
    + assert (x = i) as -> by (apply (ids_unique_eq (iterations (its d))); [apply Hwf|done..]).
      by rewrite lookup_singleton_eq.
    + by rewrite lookup_singleton_ne.
Qed.
Lemma delete_all_sps now parent who l d u d' :
  delete_all IsURL time_json struct_json Sprint related now parent who l d = (Ok u, d') → sps d' = sps d.
Proof.
  revert d. induction l as [|x l IH]; intros d H; cbn [delete_all] in H; [by injection H as _ <-|].
  apply s_bind_ok in H as (items & d1 & H1 & H). apply s_bind_ok in H as ([] & d2 & H2 & H).
  apply s_bind_ok in H as ([] & d3 & (_ & E3 & _)%on_its_ok & H). apply IH in H. rewrite H, E3.
  unfold on_wis in H1, H2. destruct (LoadByIteration _ _ _ _), (move_items _ _ _ _ _ _ _ _ _ _). by simplify_eq/=.
Qed.
Lemma delete_roots_kept now identity id d u d' : it_wf (its d) →
  DeleteIteration IsURL time_json struct_json Sprint related now identity id d = (Ok u, d') → roots_kept d d'.
Proof.
  intros Hwf H. destruct (DeleteIteration_its _ _ _ _ _ _ _ _ _ _ _ H) as (itr & sub & HL1 & HC & E).
  assert (HD : sps d' = sps d ∧ Iterations.IsRoot itr (it_SpaceID itr) = false).
  { unfold DeleteIteration in H. apply s_bind_ok in H as (who & d1 & H1 & H). apply s_query_ok in H1 as [_ ->].
    rewrite transact_ok in H. stm_inv.
    match goal with H : delete_all _ _ _ _ _ _ _ _ _ _ = _ |- _ => apply delete_all_sps in H; split; [exact H|] end.
    match goal with H : Iterations.Load _ _ = Ok ?x |- _ => rewrite HL1 in H; injection H as <- end.
    match goal with H : match space_Load _ _ with _ => _ end = Ok ?s |- _ =>
      destruct (space_Load _ _) as [s0| |] eqn:Es; [injection H as ->|done..] end.
    unfold space_Load in Es. destruct (t_first _ _) as [s1|] eqn:Ef; [|done]. injection Es as ->.
    apply t_first_some in Ef as (_ & _ & Ef%has_ID_true). cbn in Ef. rewrite <- Ef. by repeat (case_match || done). }
  destruct HD as [Hs Hroot]. apply Load_ok in HL1 as HI. destruct HI as (Hi & Hl & _).
  pose proof (not_root_long _ _ (iw_tree _ Hwf) Hi Hl Hroot) as Hlen.
  pose proof (path_not_nil _ _ (iw_tree _ Hwf) Hi Hl) as Hin. cbn in Hin.
  apply LoadChildren_ok in HC as (i' & HL2 & Hsub). rewrite HL1 in HL2. injection HL2 as <-.
  assert (Hids : ∀ x, x ∈ iterations (its d) → it_ID x ∈ map it_ID (sub ++ [itr]) → length (it_Path x) ≠ 1%nat).
  { intros x Hx (y & Hy & E1)%elem_of_map_image. apply elem_of_app in Hy as [Hy|Hy%list_elem_of_singleton].
    - apply Hsub in Hy as (Hy & _ & q & Hq & Eq).
      assert (x = y) as -> by (apply (ids_unique_eq (iterations (its d))); [apply Hwf|done|done|done || cbn; congruence]).
      rewrite Eq, length_app. destruct (it_Path itr), q; try done. cbn. lia.
    - subst y. assert (x = itr) as -> by (apply (ids_unique_eq (iterations (its d))); [apply Hwf|done|done|done || cbn; congruence]). done. }
  split; [done| |]; rewrite E; cbn [set_iterations iterations]; unfold delete_ids, t_delete; cbn [snd].
  - intros y (x & Hx & ->)%elem_of_map_image. exists x. split; [done|]. by destruct (_ && _).
  - intros sp. apply filter_count, Forall2_map_self. intros x Hx. destruct (row_live x && _) eqn:Ed; [|done].
    apply andb_prop in Ed as [_ Ed%bool_decide_eq_true]. specialize (Hids x Hx Ed).
    unfold is_root_iteration. rewrite (proj2 (Nat.eqb_neq (length (it_Path x)) 1)) by done. by rewrite !andb_false_r.
Qed.
Lemma answer_roots_kept q d0 d u d' : drawn q → (∀ now id sp name, q ≠ RCreateRoot now id sp name) → current q d0 d →
  it_wf (its d) → answer (λ _, d) q d0 = (Ok u, d') → roots_kept d d'.
Proof.
  intros Hd Hq Hc H Ha. destruct q as [now id3 sp name|now id1 id2 id3 who id p|now id1 id2 id3 who sp data|now id2 who id p|now who id];
    cbn [IterationRequests.answer drawn current] in *; try subst d0; try (apply discard_ok_ in Ha as [x Ha]).
  - by destruct (Hq now id3 sp name).
  - unfold CreateChild in Ha. apply s_bind_ok in Ha as (user & d1 & H1 & Ha). apply s_query_ok in H1 as [_ ->].
    apply s_bind_ok in Ha as (pid & d1 & H1 & Ha). apply s_query_ok in H1 as [Hid%parse_id_ok ->].
    apply s_bind_ok in Ha as ([parent space] & d1 & (-> & HLp & _)%load_with_space_ok & Ha). cbn [fst] in HLp.
    specialize (Hc _ _ Hid HLp). apply Load_ok in HLp as (_ & Hl & _).
    apply s_bind_ok in Ha as (? & d1 & H1 & Ha). apply s_query_ok in H1 as [_ ->].
    apply s_bind_ok in Ha as (name & d1 & H1 & Ha). apply s_query_ok in H1 as [_ ->].
    apply s_bind_ok in Ha as ([] & d1 & H1 & Ha). injection H1 as <-. rewrite transact_ok in Ha. stm_inv.
    match goal with HC : on_its _ _ = _ |- _ =>
      eapply create_roots_kept; [exact Hd|exact H|exact Hc|exact Hl| |exact HC]; done end.
  - unfold space_iteration_Create in Ha. stm_inv.
    match goal with H : transact _ _ = _ |- _ => rewrite transact_ok in H; rename H into HT end. stm_inv.
    match goal with H : match Root_ ?sp ?d with _ => _ end = Ok ?r |- _ =>
      destruct (Root_ sp d) as [root|e|m] eqn:Er; [|done..]; injection H as -> end.
    apply Root_ok in Er as (Hr & Hl & Hs).
    match goal with HC : on_its _ _ = _ |- _ =>
      eapply create_roots_kept; [exact Hd|exact H|exact Hr|exact Hl| |exact HC]; done end.
  - unfold Update in Ha. apply s_bind_ok in Ha as (user & d1 & H1 & Ha). apply s_query_ok in H1 as [_ ->].
    apply s_bind_ok in Ha as (pid & d1 & H1 & Ha). apply s_query_ok in H1 as [Hid%parse_id_ok ->].
    apply s_bind_ok in Ha as ([itr space] & d1 & (-> & HLp & _)%load_with_space_ok & Ha). cbn [fst] in HLp.
    specialize (Hc _ _ Hid HLp). apply Load_ok in HLp as (_ & Hl & _).
    apply s_bind_ok in Ha as (? & d1 & H1 & Ha). apply s_query_ok in H1 as [_ ->].
    apply s_bind_ok in Ha as ([] & d1 & H1 & Ha). injection H1 as <-. rewrite transact_ok in Ha. stm_inv.
    match goal with HC : on_its _ _ = _ |- _ => by eapply save_update_roots_kept, HC end.
  - by eapply delete_roots_kept.
Qed.
Lemma iteration_stays d d' : iteration_step d d' → stays d d'.
Proof.
  intros (d0 & q & u & a & Hq & Hr & Hc & Ha & ->) Hd.
  pose proof (answer_ok_wf _ _ _ _ _ _ _ _ _ _ _ Hq Hc (ro_tree d Hd) Ha) as Hwf.
  destruct (answer_roots_kept _ _ _ _ _ Hq Hr Hc (ro_tree d Hd) Ha) as [E1 E2 E3].
  assert (Es : space_ids (set_app a d) = space_ids d) by (unfold space_ids; cbn; by rewrite E1).
  split; rewrite ?Es; cbn [set_app pl_app pl_areas].
  - done.
  - apply (ro_area_tree d Hd).
  - apply Hd.
  - intros i (j & Hj & ->)%E2. by apply Hd.
  - apply Hd.
  - intros sp Hsp. destruct (ro_iteration d Hd sp Hsp) as [i Ei]. specialize (E3 sp). rewrite Ei in E3.
    destruct (List.filter _ _) as [|x [|]]; [done|by exists x|done].
  - apply Hd.
Qed.
Lemma steps_stay d d' : steps d d' → stays d d'.
Proof.
  revert d d'. apply (steps_step_ind stays stays).
  - intros between q d Hq _ Hb. destruct q; cbn [answer_space].
    + by apply Create_space_stays.
    + by apply Update_space_stays.
    + by apply (Delete_space_stays between Hb now sv identity spaceID skipCluster (d, [])).
  - apply iteration_stays.
  - apply area_stays.
  - reflexivity.
  - intros d1 d2 d3 _ H1 _ H2. by etrans.
Qed.

(** C20: Whatever spaces, iterations and areas are made, changed, moved and deleted, by whom, with whatever answers of the
    other services, and with whatever others commit while a request on spaces waits for them: every space that exists, deleted or not,
    has exactly one live root iteration and exactly one live root area, which the lookups of the root find.  An update
    or creation of an iteration is to find the iteration it loaded as it was; drawn ids are not nil. *)
Theorem spaces_have_roots d0 d (H0 : rooted d0) (Hd : steps d0 d) :
  rooted d ∧ ∀ sp, sp ∈ space_ids d →
    (∃ i, Root_ sp (its (pl_app d)) = Ok i) ∧ (∃ a, area_Root sp (pl_areas d) = Ok a).
Proof.
  assert (H : rooted d) by by eapply steps_stay.
  split; [done|]. intros sp Hsp. split; [by apply rooted_Root|by apply rooted_area_Root].
Qed.
End Steps.

(** What the services are asked before the owner is known. *)
Lemma ask_each_log {X} (ask : X → asked_for) wrong l s : ∃ es, ask_each ask wrong l s = (Ok es, (s.1, s.2 ++ map ask l)).
Proof.
  revert s. induction l as [|x l IH]; intros [d log].
  - exists []. cbn. by rewrite app_nil_r.
  - cbn [ask_each map]. unfold s_bind, ask_. cbn. destruct (IH (d, log ++ [ask x])) as [es ->]. eexists. cbn. by rewrite <- app_assoc.
Qed.
Definition not_resource (a : asked_for) : Prop := match a with ADeleteResource _ => False | _ => True end.
Lemma deleteCodebases_log sv s : ∃ r l, deleteCodebases sv s = (r, (s.1, s.2 ++ l)) ∧ Forall not_resource l.
Proof.
  assert (H0 : ∀ r : res unit, ∃ r' l, (r, s) = (r', (s.1, s.2 ++ l)) ∧ Forall not_resource l).
  { intros r. exists r, []. rewrite app_nil_r. by destruct s. }
  unfold deleteCodebases, s_bind, s_query. destruct (service_url _ _); [|apply H0..].
  destruct (listed_ _ _ _ _) as [cbs|e|m]; [|apply (H0 (Err e))|apply (H0 (Panic m))].
  match goal with |- context [ask_each ?f ?g cbs s] => destruct (ask_each_log f g cbs s) as [es ->] end.
  eexists _, _. split; [done|]. by apply Forall_map, Forall_true.
Qed.
Lemma deleteOpenShiftResource_log sv s : ∃ r l, deleteOpenShiftResource sv s = (r, (s.1, s.2 ++ l)) ∧ Forall not_resource l.
Proof.
  assert (H0 : ∀ r : res unit, ∃ r' l, (r, s) = (r', (s.1, s.2 ++ l)) ∧ Forall not_resource l).
  { intros r. exists r, []. rewrite app_nil_r. by destruct s. }
  unfold deleteOpenShiftResource, s_bind, s_query. destruct (service_url _ _); [|apply H0..].
  destruct (listed_ _ _ _ _) as [apps|e|m]; [|apply (H0 (Err e))|apply (H0 (Panic m))].
  match goal with |- context [ask_each ?f ?g ?l s] => destruct (ask_each_log f g l s) as [es ->] end.
  eexists _, _. split; [done|]. by apply Forall_map, Forall_true.
Qed.

(** C21: A space is deleted only by its owner, and the resource of the space is asked to be deleted last and only then; otherwise
    nothing is stored and the resource stays. *)
Theorem Delete_space_effect now between sv identity spaceID skipCluster d r d' l
    (H : Delete_space now between sv identity spaceID skipCluster (d, []) = (r, (d', l))) :
  is_ok r = false ∧ (d' = d ∨ d' = between d) ∧ ADeleteResource spaceID ∉ l ∨
  ∃ user space t, identity = Ok user ∧ space_Load (sps (pl_app (between d))) spaceID = Ok space ∧ OwnerID space = user ∧
    space_Delete now spaceID (sps (pl_app (between d))) = (Ok tt, t) ∧ d' = set_sps t (between d) ∧
    r = sv_delete_resource sv spaceID ∧ last l = Some (ADeleteResource spaceID).
Proof.
  assert (Hnot : ∀ l, Forall not_resource l → ADeleteResource spaceID ∉ l).
  { intros l0 Hl Hin. by eapply Forall_forall in Hl; [|exact Hin]. }
  unfold Delete_space in H. unfold s_bind at 1, s_query at 1 in H.
  destruct (user_of identity) as [user|e|m] eqn:Eu; [|injection H as <- <- <-; left; split_and!; [done|by left|set_solver]..].
  unfold s_bind at 1, s_map at 1 in H. destruct (deleteCodebases_log sv (d, [])) as (r1 & l1 & E1 & Hl1). rewrite E1 in H. cbn in H.
  destruct (internal (wrapf _ r1)) as [?|e|m]; [|injection H as <- <- <-; left; split_and!; [done|by left|by apply Hnot]..].
  unfold s_bind at 1 in H.
  assert (E2 : ∃ r2 l2, (if skipCluster then s_ret tt else s_map (λ r, internal (wrapf "could not delete Openshift resources associated with space %s" r))
                (deleteOpenShiftResource sv)) (d, l1) = (r2, (d, l1 ++ l2)) ∧ Forall not_resource l2).
  { destruct skipCluster; [exists (Ok tt), []; by rewrite app_nil_r|].
    destruct (deleteOpenShiftResource_log sv (d, l1)) as (r2 & l2 & E2 & Hl2). unfold s_map. rewrite E2. by eexists _, l2. }
  destruct E2 as (r2 & l2 & E2 & Hl2). rewrite E2 in H. assert (Hl : Forall not_resource (l1 ++ l2)) by by apply Forall_app.
  destruct r2 as [?|e|m]; [|injection H as <- <- <-; left; split_and!; [done|by left|by apply Hnot]..].
  unfold s_bind, in_db, meanwhile_, ask_ in H. cbn in H.
  destruct (transact _ (between d)) as [[u|e|m] d2] eqn:Et; cycle 1.
  1-2: injection H as <- <- <-; left; split_and!; [done|right; by eapply atomic_transact|by apply Hnot].
  right. cbn in H. injection H as <- <- <-. rewrite transact_ok in Et. unfold delete_space_in_db in Et.
  apply s_bind_ok in Et as (space & d3 & H1 & Et). apply s_query_ok in H1 as [H1 ->].
  apply s_bind_ok in Et as (? & d3 & H2 & Et). apply s_query_ok in H2 as [H2 ->].
  case_bool_decide; [|done]. unfold on_spaces in Et. destruct (space_Delete _ _ _) as [r3 t] eqn:E3. injection Et as -> <-.
  exists user, space, t. destruct u. split_and!; try done.
  - destruct identity; [by injection Eu as ->|done..].
  - by rewrite last_snoc.
Qed.
End Answers.
End Requests.
