(* ===== verification/LabelController.v ===== *)
(** * The requests on labels

    [controller/label.go] and [controller/work_item_labels.go]: showing, making,
    changing and listing the labels of a space and the labels of an item, and
    what holds of all labels whatever is asked. *)

From Stdlib Require Import ZArith Lia Ascii String SpecFloat.
From stdpp Require Import relations.
From S2P Require Import Errors Labels WorkItemRequests.
From S2P Require Export WorkItemConversion.
Import Transactions.

Definition set_labels_of (t : label_db) (d : planner) : planner :=
  {| pl_app := pl_app d; pl_links := pl_links d; pl_areas := pl_areas d; pl_labels := t; pl_accounts := pl_accounts d;
     pl_codebases := pl_codebases d |}.
Definition on_labels {A} (m : lbm A) : plm A := λ d, let '(r, t) := m (pl_labels d) in (r, set_labels_of t d).

Record LabelAttributes := {
  la_Name : option string;
  la_TextColor : option string;
  la_BackgroundColor : option string;
  la_BorderColor : option string;
  la_Version : option Z;
}.
(** The answer without its links. *)
Record AppLabel := {
  apl_ID : uuid;
  apl_Name : string;
  apl_Colors : string * string * string;          (* of the text, the background and the border *)
  apl_CreatedAt : Time;
  apl_UpdatedAt : Time;
  apl_Version : Z;
  apl_Space : string;
}.

Section Controller.
Context {HO : UuidOps} (time_json : Z → string) (struct_json : string → option gval).

Definition ConvertLabel (lbl : Label_) : AppLabel :=
  {| apl_ID := lb_ID lbl; apl_Name := lb_Name lbl; apl_Colors := (TextColor lbl, BackgroundColor lbl, BorderColor lbl);
     apl_CreatedAt := CreatedAt (lb_Lifecycle lbl); apl_UpdatedAt := UpdatedAt (lb_Lifecycle lbl); apl_Version := lb_Version lbl;
     apl_Space := uuid_String (lb_SpaceID lbl) |}.
Definition ConvertLabels (labels : list Label_) : list AppLabel := map ConvertLabel labels.
(** The space in the address is not looked at. *)
Definition Show_label (labelID : uuid) : plm AppLabel :=
  let* lbl := transact (s_query (λ d, label_Load (pl_labels d) labelID)) in
  s_ret (ConvertLabel lbl).
Definition new_label (spaceID : uuid) (name : string) (a : LabelAttributes) : Label_ :=
  {| lb_Lifecycle := stamped {| instant := 0; representation := 0 |}; lb_ID := uuid_Nil; lb_SpaceID := spaceID;
     lb_Name := TrimSpace name; TextColor := default "" (la_TextColor a); BackgroundColor := default "" (la_BackgroundColor a);
     BorderColor := default "" (la_BorderColor a); lb_Version := 0 |}.
(** Anybody who is logged in may make and change labels. *)
Definition Create_label (now : Time) (newID : uuid) (identity : res uuid) (spaceID : uuid) (a : LabelAttributes) : plm AppLabel :=
  let* _ := s_query (λ _, user_of identity) in
  let* name := s_query (λ _, match la_Name a with
                             | Some n => Ok n
                             | None => Err (goa_error 400 "bad_request" "Name cannot be empty")
                             end) in
  let* lbl := transact (on_labels (label_Create now newID (new_label spaceID name a))) in
  s_ret (ConvertLabel lbl).
Definition List_labels (spaceID : uuid) : plm (list AppLabel) :=
  transact (s_query (λ d, Ok (ConvertLabels (label_List (pl_labels d) spaceID)))).
Definition changed_label (a : LabelAttributes) (l : Label_) : Label_ :=
  {| lb_Lifecycle := lb_Lifecycle l; lb_ID := lb_ID l; lb_SpaceID := lb_SpaceID l;
     lb_Name := match la_Name a with Some n => TrimSpace n | None => lb_Name l end;
     TextColor := default (TextColor l) (la_TextColor a); BackgroundColor := default (BackgroundColor l) (la_BackgroundColor a);
     BorderColor := default (BorderColor l) (la_BorderColor a); lb_Version := lb_Version l |}.
Definition Update_label (now : Time) (identity : res uuid) (labelID : uuid) (a : LabelAttributes) : plm AppLabel :=
  let* _ := s_query (λ _, user_of identity) in
  let* version := s_query (λ _, match la_Version a with
                                | Some v => Ok v
                                | None => Err (BadParameterError "data.attributes.version" "<nil>" (Some "not nil") None)
                                end) in
  let* lbl := transact (
    let* lbl := s_query (λ d, label_Load (pl_labels d) labelID) in
    let* _ := s_query (λ _, if lb_Version lbl =? version then Ok tt else Err (VersionConflictError "version conflict")) in
    on_labels (label_Save now (changed_label a lbl))) in
  s_ret (ConvertLabel lbl).

(** The labels of an item, one after the other; an item without labels is a failed assertion. *)
Fixpoint load_labels (labelIDs : list gval) (d : label_db) : res (list Label_) :=
  match labelIDs with
  | [] => Ok []
  | lbl :: labelIDs =>
      lblStr ← string_of_val lbl;
      id ← match uuid_FromString lblStr with
           | Some id => Ok id
           | None => Err (goa_ErrNotFound "uuid: incorrect UUID")
           end;
      l ← label_Load d id;
      ls ← load_labels labelIDs d;
      Ok (l :: ls)
  end.
Definition List_item_labels (wiID : uuid) : plm (list AppLabel * Z) :=
  transact (
    let* wi := s_map (λ r, match r with Err e => Err (goa_ErrNotFound (Errors.ErrorMsg e)) | r => r end)
                 (on_items_of (WorkItems.LoadByID time_json struct_json wiID)) in
    let* labelIDs := s_query (λ _, match field_of (w_Fields wi) SystemLabels with
                                   | VSlice l => Ok l
                                   | VNilSlice => Ok []
                                   | _ => Panic bad_assertion
                                   end) in
    let* ls := s_query (λ d, load_labels labelIDs (pl_labels d)) in
    s_ret (ConvertLabels ls, Z.of_nat (length (ConvertLabels ls)))).

(** ** What holds of all labels *)

Lemma drop_while_idem f l : drop_while f (drop_while f l) = drop_while f l.
Proof. clear. induction l as [|c l IH]; [done|]. simpl. destruct (f c) eqn:E; [done|]. simpl. by rewrite E. Qed.
Lemma TrimSpace_idem s : TrimSpace (TrimSpace s) = TrimSpace s.
Proof.
  clear. unfold TrimSpace, trim_func. rewrite chars_of_chars. f_equal. set (t := drop_while is_space (chars s)).
  destruct (Errors.drop_while_suffix is_space (rev t)) as [k Ek]. set (u := drop_while is_space (rev t)) in *.
  assert (Et : t = rev u ++ rev k) by (rewrite <- (rev_involutive t), Ek; apply rev_app_distr).
  assert (E : drop_while is_space (rev u) = rev u).
  { pose proof (drop_while_idem is_space (chars s)) as H. fold t in H. rewrite Et in H.
    destruct (rev u) as [|c v]; [done|]. cbn [app drop_while] in H |- *. destruct (is_space c); [|done]. exfalso.
    destruct (Errors.drop_while_suffix is_space (v ++ rev k)) as [w Ew]. rewrite H in Ew.
    apply (f_equal length) in Ew. rewrite !length_app in Ew. cbn [length] in Ew. rewrite ?length_app in Ew. lia. }
  rewrite E, rev_involutive. unfold u. by rewrite drop_while_idem.
Qed.
Definition label_ok (spaces : list uuid) (l : Label_) : Prop :=
  lb_Name l ≠ "" ∧ TrimSpace (lb_Name l) = lb_Name l ∧ is_color (TextColor l) = true ∧ is_color (BackgroundColor l) = true ∧
  is_color (BorderColor l) = true ∧ lb_SpaceID l ∈ spaces.
Record labels_ok (d : label_db) : Prop := {
  lo_ids : ids_unique (labels d);
  lo_unique : unique_on lb_key (labels d);
  lo_each : ∀ l, l ∈ labels d → label_ok (lb_spaces d) l;
}.
(** Labels are neither deleted nor moved, and their times of creation stay. *)
Definition labels_kept (d d' : label_db) : Prop :=
  lb_spaces d' = lb_spaces d ∧
  ∀ l, l ∈ labels d → ∃ l', l' ∈ labels d' ∧ lb_ID l' = lb_ID l ∧ lb_SpaceID l' = lb_SpaceID l ∧
    CreatedAt (lb_Lifecycle l') = CreatedAt (lb_Lifecycle l) ∧ row_live l' = row_live l.
Definition labels_stay (d d' : planner) : Prop :=
  labels_ok (pl_labels d) → labels_ok (pl_labels d') ∧ labels_kept (pl_labels d) (pl_labels d').
#[local] Instance labels_stay_refl : Reflexive labels_stay.
Proof. intros d H. split; [done|]. split; [done|]. intros l Hl. by exists l. Qed.
#[local] Instance labels_stay_trans : Transitive labels_stay.
Proof.
  intros d1 d2 d3 H1 H2 H. destruct (H1 H) as (Hw & Es & Hk). destruct (H2 Hw) as (Hw' & Es' & Hk'). split; [done|].
  split; [congruence|]. intros l Hl. destruct (Hk l Hl) as (l' & Hl' & ? & ? & ? & ?).
  destruct (Hk' l' Hl') as (l'' & ? & ? & ? & ? & ?). exists l''. split_and!; congruence || done.
Qed.
(** What the constraints of the table say of a row that meets them. *)
Lemma constraints_ok spaces l others : (∀ c, c ∈ label_constraints spaces → violated c l others = false) →
  TrimSpace (lb_Name l) = lb_Name l → label_ok spaces l.
Proof.
  clear. intros HV Ht. unfold label_ok.
  pose proof (HV (check "labels_name_check" (λ l, negb (String.eqb (lb_Name l) ""))) ltac:(unfold label_constraints; set_solver)) as H1.
  pose proof (HV (check "labels_text_color_check" (λ l, is_color (TextColor l))) ltac:(unfold label_constraints; set_solver)) as H2.
  pose proof (HV (check "labels_background_color_check" (λ l, is_color (BackgroundColor l))) ltac:(unfold label_constraints; set_solver)) as H3.
  pose proof (HV (check "labels_border_color_check" (λ l, is_color (BorderColor l))) ltac:(unfold label_constraints; set_solver)) as H4.
  pose proof (HV (foreign_key "labels_space_id_fkey" (λ l, bool_decide (lb_SpaceID l ∈ spaces))) ltac:(unfold label_constraints; set_solver)) as H5.
  cbn [violated check foreign_key] in *. apply negb_false_iff in H2, H3, H4, H5. rewrite negb_involutive in H1.
  apply bool_decide_eq_true in H5. apply String.eqb_neq in H1. by split_and!.
Qed.
Lemma label_Create_stays now newID l d r d' : TrimSpace (lb_Name l) = lb_Name l →
  label_Create now newID l d = (Ok r, d') → labels_ok d → labels_ok d' ∧ labels_kept d d'.
Proof.
  clear. intros Ht H [Hn Hu He]. unfold label_Create in H. cbn [lb_set lb_with lb_Name] in H. destruct (String.eqb _ _); [done|].
  destruct (t_insert _ _ _ _) as [v|[b t]] eqn:E; [done|]. injection H as _ <-.
  pose proof (t_insert_ids (label_constraints (lb_spaces d)) "labels_pkey" _ _ _ _ _ ltac:(unfold label_constraints; set_solver) E Hn) as Hn'.
  pose proof (t_insert_unique (label_constraints (lb_spaces d)) "labels_name_space_id_unique_idx" lb_key _ _ _ _ _
                ltac:(unfold label_constraints; set_solver) E Hu) as Hu'.
  apply t_insert_ok in E as (-> & -> & HV). split; [split; cbn [set_labels labels lb_spaces]|].
  - done.
  - done.
  - intros x [Hx| ->%list_elem_of_singleton]%elem_of_app; [by apply He|]. by eapply constraints_ok.
  - split; [done|]. cbn [set_labels labels]. intros x Hx. exists x. set_solver.
Qed.
Lemma label_Save_stays now l l0 d r d' : l0 ∈ labels d → row_live l0 = true → lb_ID l = lb_ID l0 →
  lb_SpaceID l = lb_SpaceID l0 → lb_Lifecycle l = lb_Lifecycle l0 → TrimSpace (lb_Name l) = lb_Name l →
  label_Save now l d = (Ok r, d') → labels_ok d → labels_ok d' ∧ labels_kept d d'.
Proof.
  clear. intros Hl0 Hlive Hid Hs Hlc Ht H [Hn Hu He]. unfold label_Save in H. destruct (String.eqb _ _); [done|].
  destruct (t_first _ _) as [stored|]; [|done]. set (l1 := lb_set l _ _ _) in H.
  destruct (t_update _ _ _ _ _) as [v|[[b [|n]] t]] eqn:E; [done..|]. injection H as _ <-.
  pose proof (t_update_ids _ _ _ _ _ _ _ _ E Hn) as Hn'.
  pose proof (t_update_unique (label_constraints (lb_spaces d)) "labels_name_space_id_unique_idx" lb_key _ _ _ _ _ _ _
                ltac:(unfold label_constraints; set_solver) E Hu) as Hu'.
  assert (Hb : b = with_life {| CreatedAt := CreatedAt (lb_Lifecycle l); UpdatedAt := now; DeletedAt := DeletedAt (lb_Lifecycle l) |} l1).
  { unfold t_update in E. destruct (Nat.eqb _ 0); [done|]. destruct (first_violation _ _ _); [done|]. by injection E as <- _ _. }
  apply t_update_ok in E as (_ & _ & -> & [[? _]|(_ & _ & HV)]); [done|]. split; [split; cbn [set_labels labels lb_spaces]|].
  - done.
  - done.
  - intros x [->|Hx]%elem_of_updated; [eapply constraints_ok; [exact HV|by rewrite Hb]|].
    rewrite list_elem_of_In, List.filter_In, <- list_elem_of_In in Hx. apply He, Hx.
  - split; [done|]. cbn [set_labels labels]. intros x Hx. eexists. split; [apply elem_of_map_image; by exists x|]. cbn beta.
    destruct (hit _ b x) eqn:Eh; [|done]. unfold hit in Eh. rewrite !andb_true_iff, has_ID_true in Eh. destruct Eh as [[Hxl Ex] _].
    rewrite Hb in Ex. assert (x = l0) as -> by (apply (ids_unique_eq (labels d)); [done..|cbn in *; congruence]).
    rewrite Hb. cbn. split_and!; [done|done|by rewrite Hlc|]. unfold row_live, live in Hlive |- *. cbn in Hlive |- *. by rewrite Hlc.
Qed.

Inductive label_request :=
  | LShow (labelID : uuid)
  | LCreate (now : Time) (newID : uuid) (identity : res uuid) (spaceID : uuid) (a : LabelAttributes)
  | LList (spaceID : uuid)
  | LUpdate (now : Time) (identity : res uuid) (labelID : uuid) (a : LabelAttributes)
  | LOfItem (wiID : uuid).
Definition answer_label (r : label_request) (d : planner) : planner :=
  match r with
  | LShow labelID => (Show_label labelID d).2
  | LCreate now newID identity spaceID a => (Create_label now newID identity spaceID a d).2
  | LList spaceID => (List_labels spaceID d).2
  | LUpdate now identity labelID a => (Update_label now identity labelID a d).2
  | LOfItem wiID => (List_item_labels wiID d).2
  end.
Definition asked_label (d d' : planner) : Prop := ∃ r, d' = answer_label r d.
Lemma on_labels_ok {A} (m : lbm A) d a d' : on_labels m d = (Ok a, d') → m (pl_labels d) = (Ok a, pl_labels d').
Proof. clear. unfold on_labels. destruct (m _). by intros [= -> <-]. Qed.
Lemma asked_label_stays d d' : asked_label d d' → labels_stay d d'.
Proof.
  intros ([labelID|now newID identity spaceID a|spaceID|now identity labelID a|wiID] & ->); cbn [answer_label].
  - apply (keeps_bind labels_stay); [|intros l; apply keeps_ret, _]. apply keeps_transact; [apply _|apply keeps_query, _].
  - apply (keeps_bind labels_stay); [apply keeps_query, _|intros u]. apply (keeps_bind labels_stay); [apply keeps_query, _|intros name].
    apply (keeps_bind labels_stay); [|intros l; apply keeps_ret, _]. apply keeps_transact_ok; [apply _|].
    intros d1 x d2 H%on_labels_ok Hok. eapply label_Create_stays, Hok; [|exact H]. cbn. apply TrimSpace_idem.
  - apply (keeps_transact labels_stay), keeps_query, _.
  - apply (keeps_bind labels_stay); [apply keeps_query, _|intros u]. apply (keeps_bind labels_stay); [apply keeps_query, _|intros version].
    apply (keeps_bind labels_stay); [|intros l; apply keeps_ret, _]. apply keeps_transact_ok; [apply _|].
    intros d1 x d2 H Hok. apply s_bind_ok in H as (l & d3 & [Hl ->]%s_query_ok & H).
    apply s_bind_ok in H as (v & d3 & [_ ->]%s_query_ok & H). apply on_labels_ok in H.
    unfold label_Load in Hl. destruct (t_first _ _) as [y|] eqn:Ef; [|done]. injection Hl as ->.
    apply t_first_some in Ef as (Hl & Hlive & _). eapply (label_Save_stays now (changed_label a l) l); [done..| |exact H|done].
    cbn. destruct (la_Name a); [apply TrimSpace_idem|]. apply (lo_each _ Hok l Hl).
  - intros Hok. assert (Hq : quiet (List_item_labels wiID)).
    { unfold List_item_labels. eauto 20 using LoadByID_quiet with quiet typeclass_instances. }
    specialize (Hq d). destruct (sm_labels _ _ Hq). by apply labels_stay_refl.
Qed.
(** Whatever is asked, by whom and in whatever order: every label has a name that is not blank and has no space around it, three
    colors, and a space that exists, no two labels of a space have the same name, and no label is lost or moved to another
    space. *)
Theorem label_requests_keep_labels d d' (Hd : labels_ok (pl_labels d)) (H : rtc asked_label d d') :
  labels_ok (pl_labels d') ∧ labels_kept (pl_labels d) (pl_labels d').
Proof.
  revert Hd. change (labels_stay d d'). induction H as [d0|d0 d1 d2 H1 _ IH]; [reflexivity|].
  etrans; [by apply asked_label_stays|exact IH].
Qed.
End Controller.
