(* ===== verification/CsvExport.v ===== *)
(** * The export of work items

    [ConvertWorkItemsToCSV] of [controller/workitem.go] with the functions it
    uses, and [WorkitemsCSV] and [getWorkItemsByFilterExpression] of
    [controller/search.go]: the items that match a filter as lines of
    comma-separated values, and the loop that writes all of them. *)

From Stdlib Require Import ZArith Lia Ascii String SpecFloat.
From stdpp Require Import sorting.
From S2P Require Import Errors Spaces Areas Labels Accounts LinkRepository.
From S2P Require Export WorkItemController.
Import Transactions.

(** ** [encoding/csv]: a writer with a comma and line feeds *)

Definition line_feed : ascii := ascii_of_nat 10.
Definition quote_mark : ascii := ascii_of_nat 34.
Definition carriage_return : ascii := ascii_of_nat 13.
Definition fieldNeedsQuotes (field : string) : bool :=
  match chars field with
  | [] => false
  | r1 :: _ => String.eqb field "\." ||
               existsb (λ c, bool_decide (c ∈ [","%char; quote_mark; carriage_return; line_feed])) (chars field) || is_space r1
  end.
Definition write_char (c : ascii) : list ascii := if bool_decide (c = quote_mark) then [quote_mark; quote_mark] else [c].
Definition write_field (field : string) : list ascii :=
  if fieldNeedsQuotes field then [quote_mark] ++ concat (map write_char (chars field)) ++ [quote_mark] else chars field.
Fixpoint write_fields (record : list string) : list ascii :=
  match record with
  | [] => []
  | [f] => write_field f
  | f :: record => write_field f ++ [","%char] ++ write_fields record
  end.
Definition csv_Write (record : list string) : list ascii := write_fields record ++ [line_feed].
Definition csv_WriteAll (records : list (list string)) : string := of_chars (concat (map csv_Write records)).

(** ** What the conversion keeps: the store, and the numbers and names it has looked up *)

Record exporter := {
  ex_planner : planner;
  ex_numbers : gmap string string;       (* [idNumberMap] *)
  ex_names : gmap string string;         (* [uuidStringCache] *)
}.
Notation exm A := (exporter → res A * exporter).
Definition in_store {A} (m : plm A) : exm A := λ s,
  let '(r, d) := m (ex_planner s) in (r, {| ex_planner := d; ex_numbers := ex_numbers s; ex_names := ex_names s |}).
Definition remember_number (id number : string) : exm unit := λ s,
  (Ok tt, {| ex_planner := ex_planner s; ex_numbers := <[id := number]> (ex_numbers s); ex_names := ex_names s |}).
Definition remember_name (id name : string) : exm unit := λ s,
  (Ok tt, {| ex_planner := ex_planner s; ex_numbers := ex_numbers s; ex_names := <[id := name]> (ex_names s) |}).
Definition forget_names : exm unit := λ s,
  (Ok tt, {| ex_planner := ex_planner s; ex_numbers := ex_numbers s; ex_names := ∅ |}).
Fixpoint each {A B} (f : A → exm B) (l : list A) : exm (list B) :=
  match l with
  | [] => s_ret []
  | x :: l => let* y := f x in let* ys := each f l in s_ret (y :: ys)
  end.

Section Exporter.
Context {HO : UuidOps} (IsURL : string → bool) (FormatRFC3339 : Z → string).
Context (time_json : Z → string) (struct_json : string → option gval).
(** The order in which a range visits the fields of a type. *)
Context (visit : FieldDefinitions → FieldDefinitions).
Notation LoadByID id := (on_items_of (WorkItems.LoadByID time_json struct_json id)).

(** ** Values *)

(** Ids of users, iterations, areas and labels become names, each looked up once. *)
Definition looked_up (value : string) (unread unloaded : string) (load : uuid → planner → res string) : exm string :=
  let* cached := s_query (λ s, Ok (ex_names s !! value)) in
  match cached with
  | Some name => s_ret name
  | None =>
      let* id := s_query (λ _, wrapf unread (match uuid_FromString value with
                                             | Some id => Ok id
                                             | None => Err (Plain "uuid: incorrect UUID")
                                             end)) in
      let* name := s_query (λ s, wrapf unloaded (load id (ex_planner s))) in
      let* _ := remember_name value name in
      s_ret name
  end.
Definition name_of {A} (name : A → string) (r : res A) : res string := x ← r; Ok (name x).
Definition convertValueToString (fieldValueGeneric : gval) (fieldValueStrSlice : list string) (kind : Kind) : exm string :=
  match fieldValueStrSlice with
  | [value] =>
      match fieldValueGeneric with
      | VNil => s_ret value
      | _ =>
          match kind with
          | KindUser => looked_up value "failed to convert user type value to string for field key: %s, value %s"
              "failed to retrieve user for field key: %s" (λ id d, name_of Username (identity_Load id (pl_accounts d)))
          | KindIteration => looked_up value "failed to convert iteration type value to string for field key: %s"
              "failed to retrieve iteration for field key: %s" (λ id d, name_of it_Name (Iterations.Load id (its (pl_app d))))
          | KindArea => looked_up value "failed to convert area type value to string for field key: %s"
              "failed to retrieve area for field key: %s" (λ id d, name_of ar_Name (area_Load id (pl_areas d)))
          | KindLabel => looked_up value "failed to convert label type value to string for field key: %s"
              "failed to retrieve label for field key: %s" (λ id d, name_of lb_Name (label_Load (pl_labels d) id))
          | _ => s_ret value
          end
      end
  | _ => s_ret ""
  end.
Definition newline_ : string := String line_feed "".
Definition convert_value (ty : FieldType) (value : gval) : exm string :=
  let* strs := s_query (λ _, wrapf "failed to convert type value to string for field key: %s"
                               (ConvertToStringSlice IsURL FormatRFC3339 ty value)) in
  match ty with
  | FList t =>
      let* elems := each (λ elem, s_map (wrapf "failed to convert compound type value to string for field key: %s")
                                    (convertValueToString value [elem] (FieldTypes.kind (ComponentType t)))) strs in
      s_ret (Join elems newline_)
  | FEnum t => s_map (wrapf "failed to resolve type value to string for field key: %s")
                 (convertValueToString value strs (FieldTypes.kind (BaseType t)))
  | FSimple t => s_map (wrapf "failed to resolve type value to string for field key: %s")
                   (convertValueToString value strs (FieldTypes.kind t))
  end.
Fixpoint convert_fields_of (wi : WorkItem) (l : FieldDefinitions) (m : gmap string string) : exm (gmap string string) :=
  match l with
  | [] => s_ret m
  | (fieldKey, def) :: l =>
      let* v := convert_value (Type_ def) (field_of (w_Fields wi) fieldKey) in
      convert_fields_of wi l (<[fieldKey := v]> m)
  end.
Definition convertWorkItemFieldValues (wit : WorkItemType) (wi : WorkItem) : exm (gmap string string) :=
  convert_fields_of wi (visit (t_Fields wit)) ∅.

(** ** Columns *)

Definition extractWorkItemTypeFields (wit : WorkItemType) : list (string * string) :=
  map (λ f, (f.1, Label f.2)) (visit (t_Fields wit)).
(** Keys and labels of the fields of the types, each key where it comes first; a type is looked at once. *)
Fixpoint add_columns (columns fields : list (string * string)) : list (string * string) :=
  match fields with
  | [] => columns
  | f :: fields => add_columns (if bool_decide (f.1 ∈ columns.*1) then columns else columns ++ [f]) fields
  end.
Fixpoint columns_of (processed : list uuid) (columns : list (string * string)) (wits : list WorkItemType)
    : list (string * string) :=
  match wits with
  | [] => columns
  | wit :: wits =>
      if bool_decide (t_ID wit ∈ processed) then columns_of processed columns wits
      else columns_of (t_ID wit :: processed) (add_columns columns (extractWorkItemTypeFields wit)) wits
  end.
(** A sorted label takes the key of the first column that has it. *)
Definition key_of_label (columns : list (string * string)) (label : string) : string :=
  match List.find (λ c, String.eqb c.2 label) columns with Some c => c.1 | None => "" end.
Definition witNameKey : string := "_type".
Definition parentNumberKey : string := "_parent".
Definition childsNumbersKey : string := "_children".
Definition sorted_columns (columns : list (string * string)) : list (string * string) :=
  map (λ label, (key_of_label columns label, label)) (merge_sort string_le columns.*2).
Definition column_mapping (allWits : list WorkItemType) : list (string * string) :=
  (witNameKey, "_Type") :: (parentNumberKey, "_Parent") :: (childsNumbersKey, "_Children") ::
  sorted_columns (columns_of [] [] allWits).
(** The types by their ids; the first one of an id counts. *)
Definition type_of (allWits : list WorkItemType) (id : uuid) : option WorkItemType :=
  List.find (λ t, bool_decide (t_ID t = id)) allWits.

(** ** Lines *)

Definition number_field (wi : WorkItem) (format : string) : res string :=
  match field_of (w_Fields wi) SystemNumber with VInt n => Ok (Itoa n) | _ => Err (Plain format) end.
Definition resolveNumberByWorkItemID (id : uuid) : exm string :=
  in_store (transact (
    let* wi := s_map (wrapf "error retrieving number for workItemID: %s") (LoadByID id) in
    s_query (λ _, number_field wi "error converting number for workItemID: %s"))).
Definition cached_number (failed : string) (id : uuid) : exm string :=
  let* known := s_query (λ s, Ok (ex_numbers s !! uuid_String id)) in
  match known with
  | Some n => s_ret n
  | None =>
      let* n := s_map (wrapf failed) (resolveNumberByWorkItemID id) in
      let* _ := remember_number (uuid_String id) n in
      s_ret n
  end.
Definition parent_cell (parents : list Ancestor) (wi : WorkItem) : exm string :=
  match List.find (λ a, bool_decide (DirectChildID a = w_ID wi)) parents with
  | Some a => cached_number "failed to retrieve number attribute for parent of work item: %s" (a_ID a)
  | None => s_ret ""
  end.
Definition children_cell (childLinks : list WorkItemLink) (wi : WorkItem) : exm string :=
  let* numbers := each (λ l, cached_number "failed to retrieve number attribute for childs of work item: %s (child %s)" (TargetID l))
                    (List.filter (λ l, bool_decide (SourceID l = w_ID wi)) childLinks) in
  s_ret (Join (merge_sort string_le numbers) newline_).
Definition cell (wit : WorkItemType) (wi : WorkItem) (parents : list Ancestor) (childLinks : list WorkItemLink)
    (values : gmap string string) (key : string) : exm string :=
  if String.eqb key witNameKey then s_ret (t_Name wit)
  else if String.eqb key parentNumberKey then parent_cell parents wi
  else if String.eqb key childsNumbersKey then children_cell childLinks wi
  else s_ret (default "" (values !! key)).
Definition line_of (allWits : list WorkItemType) (parents : list Ancestor) (childLinks : list WorkItemLink)
    (columns : list (string * string)) (wi : WorkItem) : exm (list string) :=
  let* number := s_query (λ _, number_field wi "error converting number field value to string for work item: %s") in
  let* _ := remember_number (uuid_String (w_ID wi)) number in
  match type_of allWits (w_Type wi) with
  | None => s_query (λ _, Err (Plain "encountered work item %s with unknown work item type %s"))
  | Some wit =>
      let* values := s_map (wrapf "failed to retrieve field values for work item: %s") (convertWorkItemFieldValues wit wi) in
      each (cell wit wi parents childLinks values) columns.*1
  end.
(** The text and the labels of the columns. *)
Definition ConvertWorkItemsToCSV (allWits : list WorkItemType) (wis : list WorkItem) (childLinks : list WorkItemLink)
    (parents : list Ancestor) (includeHeaderLine : bool) : exm (string * list string) :=
  match wis with
  | [] => s_ret ("", [])
  | _ =>
      let columns := column_mapping allWits in
      let* _ := forget_names in
      let* lines := each (line_of allWits parents childLinks columns) wis in
      s_ret (csv_WriteAll ((if includeHeaderLine then [columns.*2] else []) ++ lines), columns.*2)
  end.

(** ** The request *)

Context (FormatShortest : float64 → string) (HasColumn : string → string → bool).
Context {RO : RowOrder} (selects : compiled → wi_db → selection) (ks ks' ks'' : list string).
(** The members of the filter as they are read again after having been written. *)
Context (again : list (string * gval) → list (string * gval)).
Notation Filter := (Filter time_json struct_json FormatShortest HasColumn selects ks ks' ks'').
Notation ConvertCSV allWits p header := (ConvertWorkItemsToCSV allWits p.1.1 p.2 p.1.2 header).

Definition set_member {A} (key : string) (v : A) (m : list (string * A)) : list (string * A) :=
  (key, v) :: List.filter (λ e, negb (String.eqb e.1 key)) m.
Definition with_tree_view (m : list (string * gval)) : res (list (string * gval)) :=
  match map_get m "$OPTS" with
  | None => Ok (set_member "$OPTS" (VMap [("tree-view", VBool true)]) m)
  | Some (VMap o) => Ok (set_member "$OPTS" (VMap (set_member "tree-view" (VBool true) o)) m)
  | Some _ => Panic bad_assertion
  end.
Definition filter_store (m : list (string * gval)) (parentExists : option bool) (offset limit : Z)
    : plm (list WorkItem * Z * list Ancestor * list WorkItemLink) := λ d,
  let '(r, l) := Filter m parentExists (Some offset) (Some limit) {| ls_items := pl_wis d; ls_links := links_view d |} in
  (r, (on_items_of (λ _, (Ok tt, ls_items l)) d).2).
(** The filter is unmarshalled: [None], it cannot be (the text null, which gives a map that cannot be written to, is left out).
    Items, ancestors and links to children. *)
Definition getWorkItemsByFilterExpression (filter : option (list (string * gval))) (parentExists : option bool)
    (offset limit : Z) : plm (list WorkItem * list Ancestor * list WorkItemLink) :=
  transact (
    let* m := s_query (λ _, match filter with
                            | Some m => with_tree_view m
                            | None => Err (Plain "error unmarshalling query expression for CSV filtering: %s")
                            end) in
    let* p := s_map (wrapf "error executing filter expression for CSV filtering: %s")
                (filter_store (again m) parentExists offset limit) in
    s_ret (p.1.1.1, p.1.2, p.2)).
Definition types_of_space (spaceID : uuid) : plm (list WorkItemType) :=
  transact (
    let* space := s_map (wrapf "error retrieving space for spaceID: %s") (s_query (λ d, space_Load (sps (pl_app d)) spaceID)) in
    s_map (wrapf "error retrieving work item types for spaceID: %s")
      (s_query (λ d, List_wits time_json struct_json (tdb (types (pl_wis d))) (sp_SpaceTemplateID space)))).

Definition bad_request (format : string) : error := goa_error 400 "bad_request" format.
Definition or_bad_request {A} (format : string) (r : res A) : res A :=
  match r with Err _ => Err (bad_request format) | r => r end.
Notation window filter parentExists offset limit := (getWorkItemsByFilterExpression filter parentExists offset limit).
Definition no_csv : string := "error converting work items to output format for expression '%s': %s".
Definition no_items_for : string := "error retrieving work item types for expression '%s': %s".
Definition more_message : string := newline_ +:+
  "WIT_NOTE_MORE: There are more result entries. You may want to narrow down your query or use paging to retrieve more results.".
(** One window after the other is written, until one is not full: what was written, and how it ended; [None], the fuel is used
    up.  [between] is what others commit before a window is read. *)
Fixpoint write_windows (fuel : nat) (between : planner → planner) (wits : list WorkItemType) (filter : option (list (string * gval)))
    (parentExists : option bool) (offset limit : Z) (s : exporter) : option (string * res unit * exporter) :=
  match fuel with
  | O => None
  | S fuel =>
      let s := (in_store (λ d, (Ok tt, between d)) s).2 in
      match s_map (or_bad_request no_items_for) (in_store (window filter parentExists offset limit)) s with
      | (Ok w, s) =>
          match s_map (or_bad_request no_csv) (ConvertCSV wits w false) s with
          | (Ok csv, s) =>
              if Z.of_nat (length w.1.1) <? limit then Some (csv.1, Ok tt, s)
              else match write_windows fuel between wits filter parentExists (wrap64 (offset + Z.of_nat (length w.1.1))) limit s with
                   | Some (written, ended, s) => Some (csv.1 +:+ written, ended, s)
                   | None => None
                   end
          | (Err e, s) => Some ("", Err e, s)
          | (Panic m, s) => Some ("", Panic m, s)
          end
      | (Err e, s) => Some ("", Err e, s)
      | (Panic m, s) => Some ("", Panic m, s)
      end
  end.
Definition exporting (d : planner) : exporter := {| ex_planner := d; ex_numbers := ∅; ex_names := ∅ |}.
(** What is refused before anything is asked for; otherwise the filter, the offset and the size of a window. *)
Definition csv_limits (filter : option (option (list (string * gval)))) (pageOffset pageLimit : option Z)
    : res (option (list (string * gval)) * Z * Z) :=
  match filter with
  | None => Err (bad_request "bad parameter error exporting work items as CSV: param 'filter[expression]' missing")
  | Some filter =>
      if match pageLimit with Some l => 1000 <? l | None => false end then Err (bad_request "maximum limit value is 1000")
      else Ok (filter, default 0 pageOffset, match pageLimit with Some l => wrap64 (l + 1) | None => 100 end)
  end.
(** What is there before the loop: the items of the first window, the types and the text; nothing when there are no items. *)
Definition first_window (between : planner → planner) (filter : option (list (string * gval))) (parentExists : option bool)
    (offset limit : Z) (cut : bool) : exm (option (list WorkItemType * string * bool)) :=
  let* w := s_map (or_bad_request "error searching work items for expression '%s': %s")
              (in_store (window filter parentExists offset limit)) in
  match w.1.1 with
  | [] => s_ret None
  | wi :: _ =>
      let* _ := in_store (λ d, (Ok tt, between d)) in
      let* wits := s_map (or_bad_request no_items_for) (in_store (types_of_space (w_SpaceID wi))) in
      let more := cut && (limit <=? Z.of_nat (length w.1.1)) in
      let wis := if more then removelast w.1.1 else w.1.1 in
      let* csv := s_map (or_bad_request no_csv) (ConvertCSV wits (wis, w.1.2, w.2) true) in
      s_ret (Some (wits, csv.1, more))
  end.
Definition WorkitemsCSV (fuel : nat) (between : planner → planner) (filter : option (option (list (string * gval))))
    (parentExists : option bool) (pageOffset pageLimit : option Z) (d : planner) : option (string * res unit * exporter) :=
  match csv_limits filter pageOffset pageLimit with
  | Err e => Some ("", Err e, exporting d)
  | Panic m => Some ("", Panic m, exporting d)
  | Ok (filter, offset, limit) =>
      match first_window between filter parentExists offset limit (bool_decide (is_Some pageLimit)) (exporting d) with
      | (Err e, s) => Some ("", Err e, s)
      | (Panic m, s) => Some ("", Panic m, s)
      | (Ok None, s) => Some ("", Ok tt, s)
      | (Ok (Some (wits, csv, more)), s) =>
          if bool_decide (is_Some pageLimit) then Some (csv +:+ (if more then more_message else ""), Ok tt, s)
          else match write_windows fuel between wits filter parentExists (wrap64 (offset + limit)) limit s with
               | Some (written, ended, s) => Some (csv +:+ written, ended, s)
               | None => None
               end
      end
  end.
End Exporter.
