(* ===== verification/CsvFacts.v ===== *)
(** * The export of work items: what is written

    The text is read back as the lines it was made from; every line has a value
    for every column; numbers and names are those of the store, whatever was
    looked up before; and the loop ends with a line for every item. *)

From Stdlib Require Import ZArith Lia Ascii String SpecFloat.
From stdpp Require Import sorting.
From S2P Require Import Errors Spaces Areas Labels Accounts LinkRepository LinkInvariant WorkItemListFacts WorkItemRequests.
From S2P Require Export CsvExport.
Import Transactions.

(** ** Reading comma-separated values *)

(** What a reader has seen of a field: nothing, plain characters, an open quotation, a quotation that a quote may have
    closed. *)
Inductive reading := Start | Plainly | Quoted | MaybeClosed.
Definition field_so_far (cur : list ascii) : string := of_chars (rev cur).
(** The records of a text in which every line is ended. *)
Fixpoint csv_read (st : reading) (cur : list ascii) (fields : list string) (l : list ascii) : option (list (list string)) :=
  let end_of_record (l : list ascii) := option_map (cons (fields ++ [field_so_far cur])) (csv_read Start [] [] l) in
  match l with
  | [] => match st, fields with Start, [] => Some [] | _, _ => None end
  | c :: l =>
      match st with
      | Start =>
          if bool_decide (c = quote_mark) then csv_read Quoted [] fields l
          else if bool_decide (c = ","%char) then csv_read Start [] (fields ++ [field_so_far cur]) l
          else if bool_decide (c = line_feed) then end_of_record l
          else csv_read Plainly (c :: cur) fields l
      | Plainly =>
          if bool_decide (c = ","%char) then csv_read Start [] (fields ++ [field_so_far cur]) l
          else if bool_decide (c = line_feed) then end_of_record l
          else if bool_decide (c = quote_mark) then None
          else csv_read Plainly (c :: cur) fields l
      | Quoted =>
          if bool_decide (c = quote_mark) then csv_read MaybeClosed cur fields l
          else csv_read Quoted (c :: cur) fields l
      | MaybeClosed =>
          if bool_decide (c = quote_mark) then csv_read Quoted (quote_mark :: cur) fields l
          else if bool_decide (c = ","%char) then csv_read Start [] (fields ++ [field_so_far cur]) l
          else if bool_decide (c = line_feed) then end_of_record l
          else None
      end
  end.
Definition csv_Read (s : string) : option (list (list string)) := csv_read Start [] [] (chars s).

(** What follows a field. *)
Definition after_field (field : string) (fields : list string) (c : ascii) (l : list ascii) : option (list (list string)) :=
  if bool_decide (c = ","%char) then csv_read Start [] (fields ++ [field]) l
  else option_map (cons (fields ++ [field])) (csv_read Start [] [] l).
Definition ends_field (c : ascii) : Prop := c = ","%char ∨ c = line_feed.
Lemma read_quoted fields cs : ∀ cur c l, ends_field c →
  csv_read Quoted cur fields (concat (map write_char cs) ++ quote_mark :: c :: l) = after_field (of_chars (rev cur ++ cs)) fields c l.
Proof.
  induction cs as [|x cs IH]; intros cur c l Hc.
  - cbn [map concat app]. rewrite app_nil_r. cbn -[line_feed quote_mark]. rewrite bool_decide_true by done.
    unfold after_field, field_so_far. by destruct Hc as [-> | ->].
  - cbn [map concat]. rewrite <- app_assoc. unfold write_char at 1. case_bool_decide as Hx.
    + subst x. cbn -[line_feed quote_mark]. rewrite !bool_decide_true by done. rewrite IH by done. cbn [rev]. by rewrite <- app_assoc.
    + cbn -[line_feed quote_mark]. rewrite bool_decide_false by done. rewrite IH by done. cbn [rev]. by rewrite <- app_assoc.
Qed.
Lemma read_plain fields cs : (∀ x, x ∈ cs → x ∉ [","%char; quote_mark; carriage_return; line_feed]) → ∀ cur c l, ends_field c →
  csv_read Plainly cur fields (cs ++ c :: l) = after_field (of_chars (rev cur ++ cs)) fields c l.
Proof.
  induction cs as [|x cs IH]; intros Hcs cur c l Hc.
  - cbn [app]. rewrite app_nil_r. unfold after_field, field_so_far. by destruct Hc as [-> | ->].
  - cbn [app]. cbn -[line_feed quote_mark]. specialize (Hcs x ltac:(by left)) as Hx.
    rewrite !bool_decide_false by set_solver. rewrite IH; [|intros y Hy; apply Hcs; by right|done]. cbn [rev]. by rewrite <- app_assoc.
Qed.
Lemma read_field field fields c l : ends_field c →
  csv_read Start [] fields (write_field field ++ c :: l) = after_field field fields c l.
Proof.
  intros Hc. unfold write_field. destruct (fieldNeedsQuotes field) eqn:E.
  - rewrite <- !app_assoc. cbn [app]. cbn -[line_feed quote_mark]. rewrite bool_decide_true by done.
    rewrite read_quoted by done. cbn [rev app]. by rewrite of_chars_chars.
  - unfold fieldNeedsQuotes in E. destruct (chars field) as [|x cs] eqn:Ec.
    + assert (field = "") as -> by (rewrite <- (of_chars_chars field), Ec; done). by destruct Hc as [-> | ->].
    + apply orb_false_iff in E as [[_ E]%orb_false_iff _].
      assert (Hcs : ∀ y, y ∈ x :: cs → y ∉ [","%char; quote_mark; carriage_return; line_feed]).
      { intros y Hy Hin. apply not_true_iff_false in E. apply E, existsb_exists. exists y. split; [by apply list_elem_of_In|].
        by apply bool_decide_eq_true. }
      cbn [app]. cbn -[line_feed quote_mark]. pose proof (Hcs x ltac:(by left)) as Hx.
      rewrite !bool_decide_false by set_solver. rewrite read_plain by (try done; intros y Hy; apply Hcs; by right).
      cbn [rev app]. by rewrite <- Ec, of_chars_chars.
Qed.
Lemma read_record record : record ≠ [] → ∀ fields l,
  csv_read Start [] fields (csv_Write record ++ l) = option_map (cons (fields ++ record)) (csv_read Start [] [] l).
Proof.
  unfold csv_Write. induction record as [|f record IH]; [done|]. intros _ fields l. destruct record as [|g record].
  - cbn [write_fields]. rewrite <- app_assoc. cbn [app]. rewrite read_field by (by right). done.
  - cbn [write_fields]. rewrite <- !app_assoc. cbn [app]. rewrite read_field by (by left). unfold after_field.
    rewrite bool_decide_true by done. change (csv_read Start [] (fields ++ [f]) (write_fields (g :: record) ++ [line_feed] ++ l)
      = option_map (cons (fields ++ f :: g :: record)) (csv_read Start [] [] l)).
    rewrite app_assoc, IH by done. by rewrite <- app_assoc.
Qed.
Lemma csv_Read_app records l : Forall (λ r, r ≠ []) records →
  csv_read Start [] [] (concat (map csv_Write records) ++ l) = option_map (app records) (csv_read Start [] [] l).
Proof.
  induction 1 as [|r records Hr _ IH]; cbn [map concat]; [by destruct (csv_read _ _ _ _)|].
  rewrite <- app_assoc, read_record by done. rewrite IH. generalize (csv_read Start [] [] l). by intros [].
Qed.
(** Whatever the values are, commas, quotes and line feeds in them too, the written text is read back as the records it was
    made from. *)
Theorem csv_roundtrip records (H : Forall (λ r, r ≠ []) records) : csv_Read (csv_WriteAll records) = Some records.
Proof.
  unfold csv_Read, csv_WriteAll. rewrite chars_of_chars, <- (app_nil_r (concat _)), csv_Read_app by done.
  cbn. by rewrite app_nil_r.
Qed.

(** ** Items and their numbers *)

Section Lines.
Context {HO : UuidOps} {HUL : UuidLaws} (IsURL : string → bool) (FormatRFC3339 : Z → string).
Context (time_json : Z → string) (struct_json : string → option gval).
Context (visit : FieldDefinitions → FieldDefinitions).
Notation LoadByID id := (on_items_of (WorkItems.LoadByID time_json struct_json id)).

(** An item read from the row [w]. *)
Definition read_from (w : WorkItemStorage) (x : WorkItem) : Prop :=
  w_ID x = s_ID w ∧ w_SpaceID x = s_SpaceID w ∧ w_Type x = s_Type w ∧ ∀ n, field_of (w_Fields x) SystemNumber = VInt n → n = s_Number w.
Lemma convert_fields_keys w key defs : key ≠ SystemOrder → List.find (λ p : string * FieldDefinition, String.eqb p.1 key) defs = None →
  ∀ acc m, convert_fields w defs acc = Ok m → m !! key = acc !! key.
Proof.
  clear. intros Hk. induction defs as [|[name f] defs IH]; intros Hd acc m H; [by injection H as <-|].
  cbn in Hd. destruct (String.eqb_spec name key) as [|Hne]; [done|]. cbn in H.
  destruct (String.eqb name SystemCreatedAt); [by apply IH|]. apply bind_ok in H as (v & _ & H).
  rewrite (IH Hd _ _ H), !lookup_insert_ne by congruence. done.
Qed.
Lemma convert_read_from t w x : ConvertWorkItemStorageToModel t w = Ok x → read_from w x.
Proof.
  clear. intros H.
  unfold ConvertWorkItemStorageToModel in H. apply bind_ok in H as (y & H%replace_err_ok & [= <-]).
  unfold WorkItemType_ConvertWorkItemStorageToModel in H. apply bind_ok in H as (m & Hm & [= <-]). cbn [w_ID w_SpaceID w_Type w_Fields].
  split_and!; [done..|]. intros n. unfold field_of. cbn [w_Fields w_Number]. destruct (has_field t SystemNumber) eqn:E.
  { rewrite lookup_insert_eq. by intros [= <-]. }
  unfold has_field, fields_get in E. destruct (List.find _ _) eqn:Ef; [done|].
  apply (convert_fields_keys _ SystemNumber _ ltac:(done) Ef) in Hm. rewrite lookup_empty in Hm.
  destruct (has_field t SystemOrder), (has_field t SystemUpdatedAt), (has_field t SystemCreatedAt); rewrite ?lookup_insert_ne by done; by rewrite Hm.
Qed.
Definition item_row_of (d : planner) (w : WorkItemStorage) : Prop := w ∈ rows (pl_wis d) ∧ s_live w = true.
Lemma LoadByID_reads id d wi d' : LoadByID id d = (Ok wi, d') → ∃ w, item_row_of d w ∧ s_ID w = id ∧ read_from w wi.
Proof.
  clear. intros H. apply on_items_of_ok in H as [H _]. unfold WorkItems.LoadByID in H. stm_inv.
  match goal with H : LoadFromDB _ _ = Ok ?x |- _ => rename x into w; apply LoadFromDB_ok in H as (Hw & Hl & Hid) end.
  match goal with H : s_query _ _ = _ |- _ => apply s_query_ok in H as [H _] end.
  exists w. split; [by split|]. split; [done|by eapply convert_read_from].
Qed.

(** ** What is looked up *)

(** The number of the item with that id. *)
Definition number_is (d : planner) (id : uuid) (n : string) : Prop :=
  ∃ w, item_row_of d w ∧ s_ID w = id ∧ n = Itoa (s_Number w).
(** A user, an iteration, an area or a label with that id has that name. *)
Definition name_is (d : planner) (id : uuid) (name : string) : Prop :=
  name_of Username (identity_Load id (pl_accounts d)) = Ok name ∨ name_of it_Name (Iterations.Load id (its (pl_app d))) = Ok name ∨
  name_of ar_Name (area_Load id (pl_areas d)) = Ok name ∨ name_of lb_Name (label_Load (pl_labels d) id) = Ok name.
(** The store is still that of [d], and what is remembered is true of it. *)
Record truthful (d : planner) (s : exporter) : Prop := {
  tr_store : same_planner d (ex_planner s);
  tr_numbers : ∀ id n, ex_numbers s !! uuid_String id = Some n → number_is d id n;
  tr_names : ∀ v n, ex_names s !! v = Some n → ∃ id, uuid_FromString v = Some id ∧ name_is d id n;
}.
Lemma truthful_quiet {A} (m : plm A) d s r s' : quiet m → in_store m s = (r, s') → truthful d s → truthful d s'.
Proof.
  clear. intros Hm. unfold in_store. pose proof (Hm (ex_planner s)) as H. destruct (m (ex_planner s)) as [r0 p]. intros [= <- <-] [H1 H2 H3].
  split; [|done..]. etrans; [exact H1|exact H].
Qed.
Lemma remember_number_truthful d id n s u s' : number_is d id n → remember_number (uuid_String id) n s = (Ok u, s') →
  truthful d s → truthful d s'.
Proof.
  intros Hn. unfold remember_number. intros [= _ <-] [H1 H2 H3]. split; cbn; [done| |done]. intros id' n'.
  destruct (decide (uuid_String id' = uuid_String id)) as [E|E].
  - rewrite E, lookup_insert_eq. intros [= <-]. by apply uuid_String_inj in E as ->.
  - rewrite lookup_insert_ne by congruence. apply H2.
Qed.
Lemma same_name d d' id n : same_planner d d' → name_is d' id n → name_is d id n.
Proof.
  clear. intros [] H. unfold name_is in *.
  repeat match goal with E : _ = _ |- _ => rewrite E in H; clear E end. exact H.
Qed.
Lemma looked_up_ok d value e1 e2 load n s s' : (∀ id p x, load id p = Ok x → name_is p id x) →
  looked_up value e1 e2 load s = (Ok n, s') → truthful d s →
  truthful d s' ∧ ∃ id, uuid_FromString value = Some id ∧ name_is d id n.
Proof.
  clear. intros Hload. unfold looked_up. intros H Hs. apply s_bind_ok in H as (cached & s1 & [E ->]%s_query_ok & H). injection E as <-.
  destruct (ex_names s !! value) as [name|] eqn:Ec.
  { injection H as -> <-. split; [done|]. by apply (tr_names _ _ Hs). }
  apply s_bind_ok in H as (id & s1 & Hid & H). apply s_query_ok in Hid as [Hid%wrapf_ok ->].
  destruct (uuid_FromString value) as [id'|] eqn:Eid; [|done]. injection Hid as ->.
  apply s_bind_ok in H as (name & s1 & Hn & H). apply s_query_ok in Hn as [Hn%wrapf_ok ->].
  apply s_bind_ok in H as (u & s1 & Hr & H). unfold remember_name in Hr. injection Hr as _ <-. injection H as -> <-.
  assert (Hnd : name_is d id n) by (eapply same_name; [apply Hs|by eapply Hload]).
  split; [|by exists id]. destruct Hs as [H1 H2 H3]. split; cbn; [done|done|]. intros v n'.
  destruct (decide (v = value)) as [->|Ev]; [|rewrite lookup_insert_ne by congruence; apply H3].
  rewrite lookup_insert_eq. intros [= <-]. by exists id.
Qed.
Lemma forget_names_truthful d s : truthful d s → truthful d (forget_names s).2.
Proof. clear. intros [H1 H2 _]. by split. Qed.

(** ** Values *)

(** What a cell holds for one value of a kind. *)
Definition shows_value (d : planner) (k : Kind) (generic : gval) (value n : string) : Prop :=
  match generic, k with
  | VNil, _ => n = value
  | _, (KindUser | KindIteration | KindArea | KindLabel) => ∃ id, uuid_FromString value = Some id ∧ name_is d id n
  | _, _ => n = value
  end.
Lemma convertValueToString_ok d generic strs k n s s' : convertValueToString generic strs k s = (Ok n, s') → truthful d s →
  truthful d s' ∧ match strs with [value] => shows_value d k generic value n | _ => n = "" end.
Proof.
  clear. unfold convertValueToString. intros H Hs. destruct strs as [|value [|]]; [by injection H as <- <-| |by injection H as <- <-].
  assert (Hkeep : s_ret value s = (Ok n, s') → truthful d s' ∧ n = value) by (by intros [= <- <-]).
  assert (HL : ∀ load e1 e2, (∀ id p x, load id p = Ok x → name_is p id x) → looked_up value e1 e2 load s = (Ok n, s') →
            truthful d s' ∧ ∃ id, uuid_FromString value = Some id ∧ name_is d id n).
  { intros load e1 e2 Hload Hl. by eapply looked_up_ok. }
  destruct generic; try (by apply Hkeep); destruct k; try (by apply Hkeep);
    (eapply HL; [|exact H]; intros; unfold name_is; tauto).
Qed.
Lemma each_ok {A B} (f : A → exm B) (I : exporter → Prop) (P : A → B → Prop) l :
  (∀ x s y s', x ∈ l → f x s = (Ok y, s') → I s → I s' ∧ P x y) →
  ∀ s ys s', each f l s = (Ok ys, s') → I s → I s' ∧ Forall2 P l ys.
Proof.
  clear. induction l as [|x l IH]; intros Hf s ys s' H Hs; [by injection H as <- <-|]. cbn [each] in H.
  apply s_bind_ok in H as (y & s1 & Hy & H). apply s_bind_ok in H as (ys1 & s2 & Hys & H). injection H as <- <-.
  destruct (Hf x s y s1 ltac:(by left) Hy Hs) as [Hs1 HP]. destruct (IH (λ x s y s' Hx, Hf x s y s' ltac:(by right)) _ _ _ Hys Hs1).
  split; [done|by constructor].
Qed.
Notation slice ty v := (ConvertToStringSlice IsURL FormatRFC3339 ty v).
(** What a cell holds for a field of a type. *)
Definition shows_field (d : planner) (ty : FieldType) (v : gval) (text : string) : Prop :=
  ∃ strs, slice ty v = Ok strs ∧
    let one k := match strs with [value] => shows_value d k v value text | _ => text = "" end in
    match ty with
    | FList t => ∃ elems, Forall2 (shows_value d (FieldTypes.kind (ComponentType t)) v) strs elems ∧ text = Join elems newline_
    | FEnum t => one (FieldTypes.kind (BaseType t))
    | FSimple t => one (FieldTypes.kind t)
    end.
Lemma convert_value_ok d ty v text s s' : convert_value IsURL FormatRFC3339 ty v s = (Ok text, s') → truthful d s →
  truthful d s' ∧ shows_field d ty v text.
Proof.
  clear time_json struct_json visit HUL. unfold convert_value. intros H Hs. apply s_bind_ok in H as (strs & s1 & Hstrs & H).
  apply s_query_ok in Hstrs as [Hstrs%wrapf_ok ->]. unfold shows_field. destruct ty as [t|t|t].
  - rewrite s_map_ok in H by (intro; apply wrapf_ok). apply (convertValueToString_ok d) in H as [Hs' H]; [|done].
    split; [done|]. by exists strs.
  - rewrite s_map_ok in H by (intro; apply wrapf_ok). apply (convertValueToString_ok d) in H as [Hs' H]; [|done].
    split; [done|]. by exists strs.
  - apply s_bind_ok in H as (elems & s1 & He & H). injection H as <- <-.
    apply (each_ok _ (truthful d) (shows_value d (FieldTypes.kind (ComponentType t)) v)) in He as [Hs' HF]; [|clear|done].
    + split; [done|]. exists strs. split; [done|]. by exists elems.
    + intros x s1 y s2 _ H Hs. rewrite s_map_ok in H by (intro; apply wrapf_ok). by apply (convertValueToString_ok d) in H.
Qed.
Definition shows_fields (d : planner) (wi : WorkItem) (fields : FieldDefinitions) (values : gmap string string) : Prop :=
  (∀ key text, values !! key = Some text → ∃ def, (key, def) ∈ fields ∧ shows_field d (Type_ def) (field_of (w_Fields wi) key) text) ∧
  (∀ key, key ∈ fields.*1 → is_Some (values !! key)).
Lemma convert_fields_of_ok d wi l : ∀ done_ m s m' s', convert_fields_of IsURL FormatRFC3339 wi l m s = (Ok m', s') →
  truthful d s → shows_fields d wi done_ m → truthful d s' ∧ shows_fields d wi (done_ ++ l) m'.
Proof.
  clear time_json struct_json visit HUL. induction l as [|[key def] l IH]; intros done_ m s m' s' H Hs Hm.
  { injection H as <- <-. by rewrite app_nil_r. }
  cbn [convert_fields_of] in H. apply s_bind_ok in H as (v & s1 & Hv & H). apply (convert_value_ok d) in Hv as [Hs1 Hv]; [|done].
  rewrite cons_middle, app_assoc. eapply IH; [exact H|done|]. destruct Hm as [Hm1 Hm2]. split.
  - intros k text. destruct (decide (k = key)) as [->|Hk].
    + rewrite lookup_insert_eq. intros [= <-]. exists def. split; [set_solver|done].
    + rewrite lookup_insert_ne by congruence. intros (def' & Hin & Hd)%Hm1. exists def'. split; [set_solver|done].
  - intros k. rewrite fmap_app, elem_of_app. destruct (decide (k = key)) as [->|Hk]; [by rewrite lookup_insert_eq|].
    rewrite lookup_insert_ne by congruence. intros [?| ->%list_elem_of_singleton]; [by apply Hm2|done].
Qed.

(** ** Cells and lines *)

Definition shows_cell (d : planner) (wit : WorkItemType) (wi : WorkItem) (parents : list Ancestor) (childLinks : list WorkItemLink)
    (key text : string) : Prop :=
  if String.eqb key witNameKey then text = t_Name wit
  else if String.eqb key parentNumberKey then
    match List.find (λ a, bool_decide (DirectChildID a = w_ID wi)) parents with
    | Some a => number_is d (a_ID a) text
    | None => text = ""
    end
  else if String.eqb key childsNumbersKey then
    ∃ numbers, Forall2 (λ l, number_is d (TargetID l)) (List.filter (λ l, bool_decide (SourceID l = w_ID wi)) childLinks) numbers ∧
      text = Join (merge_sort string_le numbers) newline_
  else (∃ def, (key, def) ∈ visit (t_Fields wit) ∧ shows_field d (Type_ def) (field_of (w_Fields wi) key) text) ∨
       (key ∉ (visit (t_Fields wit)).*1 ∧ text = "").
Lemma cached_number_ok d failed id n s s' : cached_number time_json struct_json failed id s = (Ok n, s') → truthful d s →
  truthful d s' ∧ number_is d id n.
Proof.
  clear IsURL FormatRFC3339 visit. unfold cached_number. intros H Hs.
  apply s_bind_ok in H as (known & s1 & [E ->]%s_query_ok & H). injection E as <-.
  destruct (ex_numbers s !! _) as [n'|] eqn:En.
  { injection H as -> <-. split; [done|]. by apply (tr_numbers _ _ Hs). }
  apply s_bind_ok in H as (n' & s1 & Hn & H). apply s_bind_ok in H as (u & s2 & Hr & H). injection H as -> <-.
  rewrite s_map_ok in Hn by (intro; apply wrapf_ok). unfold resolveNumberByWorkItemID in Hn.
  assert (Hs1 : truthful d s1).
  { eapply truthful_quiet, Hs; [|exact Hn]. eauto 20 using LoadByID_quiet with quiet typeclass_instances. }
  assert (Hnum : number_is d id n); [|split; [by eapply remember_number_truthful|done]].
  unfold in_store in Hn. destruct (transact _ _) as [r p] eqn:Et. injection Hn as -> _. rewrite transact_ok in Et.
  apply s_bind_ok in Et as (wi & p1 & Hl & Et). rewrite s_map_ok in Hl by (intro; apply wrapf_ok). apply s_query_ok in Et as [Et _].
  apply LoadByID_reads in Hl as (w & [Hw Hlive] & Hid & (_ & _ & _ & Hnr)). unfold number_field in Et.
  exists w. split; [|split; [done|]].
  - split; [|done]. destruct (sm_items _ _ (tr_store _ _ Hs)) as [Hr1 _]. by rewrite <- Hr1.
  - destruct (field_of _ _) eqn:Ef; try done. injection Et as <-. by rewrite (Hnr _ eq_refl).
Qed.
Notation cell := (cell time_json struct_json).
Notation line_of := (line_of IsURL FormatRFC3339 time_json struct_json visit).
Notation ConvertWorkItemsToCSV := (ConvertWorkItemsToCSV IsURL FormatRFC3339 time_json struct_json visit).
Lemma cell_ok d wit wi parents childLinks values key text s s' :
  cell wit wi parents childLinks values key s = (Ok text, s') → shows_fields d wi (visit (t_Fields wit)) values → truthful d s →
  truthful d s' ∧ shows_cell d wit wi parents childLinks key text.
Proof.
  unfold CsvExport.cell, shows_cell. intros H Hv Hs. destruct (String.eqb key witNameKey); [by injection H as <- <-|].
  destruct (String.eqb key parentNumberKey).
  { unfold parent_cell in H. destruct (List.find _ _) as [a|]; [by eapply cached_number_ok|by injection H as <- <-]. }
  destruct (String.eqb key childsNumbersKey).
  { unfold children_cell in H. apply s_bind_ok in H as (numbers & s1 & Hn & H). injection H as <- <-.
    apply (each_ok _ (truthful d) (λ l n, number_is d (TargetID l) n)) in Hn as [Hs1 HF]; [|by intros; eapply cached_number_ok|done].
    split; [done|]. by exists numbers. }
  injection H as <- <-. split; [done|]. destruct Hv as [Hv1 Hv2]. destruct (values !! key) as [text|] eqn:E.
  - left. by apply Hv1.
  - right. split; [|done]. intros Hin. destruct (Hv2 _ Hin) as [x Hx]. congruence.
Qed.
(** A line has the cells of the columns, for an item whose type is known. *)
Definition shows_line (d : planner) (allWits : list WorkItemType) (parents : list Ancestor) (childLinks : list WorkItemLink)
    (wi : WorkItem) (line : list string) : Prop :=
  ∃ wit, type_of allWits (w_Type wi) = Some wit ∧ Forall2 (shows_cell d wit wi parents childLinks) (column_mapping visit allWits).*1 line.
Definition stored (d : planner) (wi : WorkItem) : Prop := ∃ w, item_row_of d w ∧ read_from w wi.
Lemma line_of_ok d allWits parents childLinks wi line s s' : stored d wi →
  line_of allWits parents childLinks (column_mapping visit allWits) wi s = (Ok line, s') → truthful d s →
  truthful d s' ∧ shows_line d allWits parents childLinks wi line.
Proof.
  intros (w & Hw & Hid & _ & _ & Hnr) H Hs. unfold CsvExport.line_of in H.
  apply s_bind_ok in H as (n & s1 & Hn & H). apply s_query_ok in Hn as [Hn ->].
  apply s_bind_ok in H as (u & s1 & Hr & H).
  assert (Hs1 : truthful d s1).
  { eapply remember_number_truthful, Hs; [|exact Hr]. exists w. split; [done|]. split; [done|]. unfold number_field in Hn.
    destruct (field_of _ _) eqn:Ef; try done. injection Hn as <-. by rewrite (Hnr _ eq_refl). }
  unfold shows_line. destruct (type_of allWits (w_Type wi)) as [wit|]; [|done].
  apply s_bind_ok in H as (values & s2 & Hv & H). rewrite s_map_ok in Hv by (intro; apply wrapf_ok).
  unfold convertWorkItemFieldValues in Hv. apply (convert_fields_of_ok d wi _ []) in Hv as [Hs2 Hv]; [|done|].
  2: { split; [intros k t; by rewrite lookup_empty|by intros k ?%elem_of_nil]. }
  apply (each_ok _ (truthful d) (shows_cell d wit wi parents childLinks)) in H as [Hs' HF]; [|by intros; eapply cell_ok|done].
  split; [done|]. by exists wit.
Qed.
(** The text reads back as a line for every item, after the line of the labels when it is asked for.  In a line stand the
    name of the type, the number of the parent, the sorted numbers of the children and the values of the fields, with
    the names of users, iterations, areas and labels, whatever has been looked up before. *)
Theorem ConvertWorkItemsToCSV_lines d allWits wis childLinks parents header s text labels s'
    (H : ConvertWorkItemsToCSV allWits wis childLinks parents header s = (Ok (text, labels), s'))
    (Hs : truthful d s) (Hwis : Forall (stored d) wis) :
  truthful d s' ∧
  (wis ≠ [] → labels = (column_mapping visit allWits).*2) ∧
  ∃ lines, Forall2 (shows_line d allWits parents childLinks) wis lines ∧
    csv_Read text = Some ((if header && negb (bool_decide (wis = [])) then [labels] else []) ++ lines).
Proof.
  unfold CsvExport.ConvertWorkItemsToCSV in H. destruct wis as [|wi wis].
  { injection H as <- <- <-. split; [done|]. split; [done|]. exists []. split; [constructor|]. by destruct header. }
  apply s_bind_ok in H as (u & s1 & Hf & H). apply s_bind_ok in H as (lines & s2 & Hl & H). injection H as <- <- <-.
  assert (Hs1 : truthful d s1) by (apply (f_equal snd) in Hf; cbn in Hf; rewrite <- Hf; by apply (forget_names_truthful d s)).
  apply (each_ok _ (truthful d) (shows_line d allWits parents childLinks)) in Hl as [Hs' HF]; [| |done].
  2: { intros x s3 y s4 Hx. apply line_of_ok. rewrite Forall_forall in Hwis. by apply Hwis. }
  split; [done|]. split; [done|]. exists lines. split; [done|]. rewrite bool_decide_false, andb_true_r by done.
  rewrite csv_roundtrip; [by destruct header|]. apply Forall_app. split; [by destruct header; repeat constructor|].
  apply Forall_forall. intros line Hin ->. apply list_elem_of_lookup in Hin as [i Hi].
  destruct (Forall2_lookup_r _ _ _ _ _ HF Hi) as (x & _ & wit & _ & HC). by apply Forall2_length in HC.
Qed.
End Lines.
