(* ===== verification/CsvWindows.v ===== *)
(** * The export of work items: all of them

    The loop that writes window after window ends, and what it has written when it
    ends well has a line for every item that matches the filter, in the order
    of the list; and which columns there are. *)

From Stdlib Require Import ZArith Lia Ascii String SpecFloat.
From stdpp Require Import sorting.
From S2P Require Import Errors Spaces Areas Labels Accounts LinkRepository LinkInvariant WorkItemListFacts WorkItemRequests.
From S2P Require Export CsvFacts.
Import Transactions.

(** ** Texts that follow one another *)

Lemma csv_read_app a : ∀ st cur fields la b, (st = Start → cur = []) → csv_read st cur fields a = Some la →
  csv_read st cur fields (a ++ b) = option_map (app la) (csv_read Start [] [] b).
Proof.
  induction a as [|c a IH]; intros st cur fields la b Hst H.
  { destruct st, fields; try done. injection H as <-. rewrite Hst by done. cbn [app]. generalize (csv_read Start [] [] b). by intros []. }
  assert (Hend : ∀ r, option_map (cons r) (csv_read Start [] [] a) = Some la →
            option_map (cons r) (csv_read Start [] [] (a ++ b)) = option_map (app la) (csv_read Start [] [] b)).
  { intros r E. destruct (csv_read Start [] [] a) as [la'|] eqn:Ea; [|done]. injection E as <-.
    rewrite (IH Start [] [] la' b) by done. generalize (csv_read Start [] [] b). by intros []. }
  cbn [app]. destruct st; cbn -[line_feed quote_mark] in H |- *; repeat case_bool_decide; try done; by (apply Hend || apply IH).
Qed.
Lemma csv_Read_append s t ls lt : csv_Read s = Some ls → csv_Read t = Some lt → csv_Read (s +:+ t) = Some (ls ++ lt).
Proof. unfold csv_Read. intros Hs Ht. rewrite chars_app, (csv_read_app _ _ _ _ ls) by done. by rewrite Ht. Qed.

(** ** Columns *)

Section Columns.
Context (visit : FieldDefinitions → FieldDefinitions).
Lemma add_columns_spec fields : ∀ columns, NoDup columns.*1 →
  NoDup (add_columns columns fields).*1 ∧ (∀ k, k ∈ (add_columns columns fields).*1 ↔ k ∈ columns.*1 ∨ k ∈ fields.*1) ∧
  ∀ c, c ∈ add_columns columns fields → c ∈ columns ∨ c ∈ fields.
Proof.
  induction fields as [|f fields IH]; intros columns HN; cbn [add_columns].
  { split_and!; [done| |by left]. intros k. cbn. rewrite elem_of_nil. tauto. }
  case_bool_decide as Hf.
  - destruct (IH columns HN) as (H1 & H2 & H3). split_and!; [done| |].
    + intros k. rewrite H2. cbn. rewrite elem_of_cons. split; [tauto|]. intros [?|[->|?]]; tauto.
    + intros c Hc. destruct (H3 c Hc) as [?|?]; [by left|by right; right].
  - destruct (IH (columns ++ [f])) as (H1 & H2 & H3).
    { rewrite fmap_app. apply NoDup_app. split_and!; [done| |apply NoDup_singleton]. intros k Hk ->%list_elem_of_singleton. done. }
    split_and!; [done| |].
    + intros k. rewrite H2, fmap_app, elem_of_app. cbn. rewrite !elem_of_cons, elem_of_nil. tauto.
    + intros c Hc. destruct (H3 c Hc) as [Hc'|Hc']; [|by right; right].
      apply elem_of_app in Hc' as [?| ->%list_elem_of_singleton]; [by left|by right; left].
Qed.
(** The fields of the types, the first type of every id. *)
Definition field_of_types (wits : list WorkItemType) (f : string * string) : Prop :=
  ∃ wit, wit ∈ wits ∧ f ∈ extractWorkItemTypeFields visit wit.
Lemma columns_of_spec wits : ∀ processed columns, NoDup columns.*1 → NoDup (map t_ID wits) → (∀ w, w ∈ wits → t_ID w ∉ processed) →
  NoDup (columns_of visit processed columns wits).*1 ∧
  (∀ k, k ∈ (columns_of visit processed columns wits).*1 ↔ k ∈ columns.*1 ∨ ∃ f, f.1 = k ∧ field_of_types wits f) ∧
  ∀ c, c ∈ columns_of visit processed columns wits → c ∈ columns ∨ field_of_types wits c.
Proof.
  induction wits as [|wit wits IH]; intros processed columns HN Hids Hp; cbn [columns_of].
  { split_and!; [done| |by left]. intros k. split; [by left|]. intros [?|(f & _ & w & Hw & _)]; [done|by apply elem_of_nil in Hw]. }
  rewrite bool_decide_false by (apply Hp; by left). cbn [map] in Hids. apply NoDup_cons in Hids as [Hid Hids].
  destruct (add_columns_spec (extractWorkItemTypeFields visit wit) columns HN) as (A1 & A2 & A3).
  destruct (IH (t_ID wit :: processed) (add_columns columns (extractWorkItemTypeFields visit wit)) A1 Hids) as (H1 & H2 & H3).
  { intros w Hw [E|Hin]%elem_of_cons; [|by apply (Hp w); [right|]]. apply Hid. rewrite <- E. apply elem_of_map_image. by exists w. }
  split_and!; [done| |].
  - intros k. assert (HD : (k ∈ (extractWorkItemTypeFields visit wit).*1 ∨ ∃ f, f.1 = k ∧ field_of_types wits f) ↔
                           ∃ f, f.1 = k ∧ field_of_types (wit :: wits) f).
    { split.
      + intros [Hk|(f & Ef & w & Hw & Hf)].
        * apply list_elem_of_fmap in Hk as (f & -> & Hf). exists f. split; [done|]. exists wit. split; [by left|done].
        * exists f. split; [done|]. exists w. split; [by right|done].
      + intros (f & <- & w & Hw & Hf). apply elem_of_cons in Hw as [->|Hw]; [left; apply list_elem_of_fmap; by exists f|].
        right. exists f. split; [done|]. by exists w. }
    specialize (H2 k). specialize (A2 k). tauto.
  - intros c Hc. destruct (H3 c Hc) as [Hc'|(w & Hw & Hf)]; [destruct (A3 c Hc') as [?|?]|]; [by left| |]; right.
    + exists wit. split; [by left|done].
    + exists w. split; [by right|done].
Qed.
Lemma key_of_label_unique columns c : NoDup columns.*2 → c ∈ columns → key_of_label columns c.2 = c.1.
Proof.
  clear. intros HN Hc. unfold key_of_label. destruct (List.find _ _) as [x|] eqn:E.
  - apply List.find_some in E as [Hx%list_elem_of_In E%String.eqb_eq].
    apply list_elem_of_lookup in Hx as [i Hi], Hc as [j Hj].
    assert (i = j) as ->; [|congruence]. apply (NoDup_lookup _ i j c.2 HN); rewrite list_lookup_fmap; [rewrite Hi|rewrite Hj]; cbn; by rewrite ?E.
  - eapply List.find_none in E; [|by apply list_elem_of_In]. by rewrite String.eqb_refl in E.
Qed.
#[local] Instance string_le_total : Total string_le.
Proof. intros a b. unfold string_le. pose proof (String.leb_total a b) as [|]; [by left|by right]. Qed.
(** When the fields have labels of their own, every field of every type has exactly one column, under its label, and the
    columns come in the order of the labels. *)
Theorem columns_complete wits (Hids : NoDup (map t_ID wits)) (HL : NoDup (columns_of visit [] [] wits).*2) :
  let columns := sorted_columns (columns_of visit [] [] wits) in
  NoDup columns.*1 ∧ (∀ c, c ∈ columns → field_of_types wits c) ∧ (∀ f, field_of_types wits f → f.1 ∈ columns.*1) ∧
  columns.*2 = merge_sort string_le (columns_of visit [] [] wits).*2.
Proof.
  destruct (columns_of_spec wits [] [] ltac:(constructor) Hids ltac:(set_solver)) as (H1 & H2 & H3).
  set (cs := columns_of visit [] [] wits) in *. cbn zeta.
  assert (HP : sorted_columns cs ≡ₚ cs).
  { unfold sorted_columns. rewrite (Permutation_map _ (merge_sort_Permutation string_le cs.*2)).
    rewrite <- (map_id cs) at 2. change (cs.*2) with (map snd cs). rewrite map_map.
    erewrite map_ext_in; [reflexivity|]. intros c Hc%list_elem_of_In. rewrite key_of_label_unique by done. by destruct c. }
  split_and!.
  - by rewrite HP.
  - intros c. rewrite HP. intros Hc. destruct (H3 c Hc) as [?%elem_of_nil|?]; done.
  - intros f Hf. rewrite HP. apply H2. right. by exists f.
  - unfold sorted_columns. change ((map (λ label, (key_of_label cs label, label)) (merge_sort string_le cs.*2)).*2) with
      (map snd (map (λ label, (key_of_label cs label, label)) (merge_sort string_le cs.*2))). rewrite map_map. apply map_id.
Qed.
End Columns.
(** Of two fields with the same label the second one is lost: both columns are those of the first one. *)
Lemma same_label_lost : sorted_columns [("a", "Label"); ("b", "Label")] = [("a", "Label"); ("a", "Label")].
Proof. by vm_compute. Qed.

(** ** Windows *)

Section Windows.
Context {HO : UuidOps} {HUL : UuidLaws} (IsURL : string → bool) (FormatRFC3339 : Z → string).
Context (time_json : Z → string) (struct_json : string → option gval).
Context (visit : FieldDefinitions → FieldDefinitions).
Context (FormatShortest : float64 → string) (HasColumn : string → string → bool).
Context {RO : RowOrder} (selects : compiled → wi_db → selection) (ks ks' ks'' : list string).
Context (again : list (string * gval) → list (string * gval)).
(** The database's answer does not depend on the cache of types. *)
Context (selects_tables : ∀ c d d', same_tables d d' → selects c d' = selects c d).
Notation Filter := (Filter time_json struct_json FormatShortest HasColumn selects ks ks' ks'').
Notation search := (search_listItemsFromDB FormatShortest HasColumn selects ks ks' ks'').
Notation filter_store := (filter_store time_json struct_json FormatShortest HasColumn selects ks ks' ks'').
Notation window := (getWorkItemsByFilterExpression time_json struct_json FormatShortest HasColumn selects ks ks' ks'' again).
Definition view (d : planner) : list_db := {| ls_items := pl_wis d; ls_links := links_view d |}.
(** The rows that match, all of them in the order of the list. *)
Definition matches (filter : list (string * gval)) (parentExists : option bool) (d : planner) (all : list WorkItemStorage) : Prop :=
  ∃ m exp opts n, with_tree_view filter = Ok m ∧ ParseFilterString ks (again m) = (Ok (Some exp), opts) ∧
    search exp parentExists None None (view d) = Ok (all, n).
Lemma search_page exp pe d d' o l all n : no_ties all → same_planner d d' → 0 ≤ o → 0 < l → search exp pe None None (view d) = Ok (all, n) →
  search exp pe (Some o) (Some l) (view d') = Ok (Tables.page (Some o) (Some l) all, Z.of_nat (length all)).
Proof.
  clear time_json struct_json visit again IsURL FormatRFC3339 HUL. intros Ht [[Hr (Hv & Hq & Hsp)] _ _ Hl _ _ _ _ _] Ho Hlim. unfold search_listItemsFromDB, compiled_rows.
  destruct (errors _) as [|? ?]; [|done]. destruct (validate_joins _ _) as [[]|e|m]; [|done..]. cbn [mbind res_bind].
  assert (page_limits (Some o) (Some l) = Ok tt) as ->.
  { unfold page_limits. rewrite (proj2 (Z.ltb_ge _ _)) by done. by rewrite (proj2 (Z.leb_gt _ _)). }
  cbn [view ls_items ls_links mbind res_bind]. rewrite (selects_tables _ (pl_wis d) (pl_wis d')) by done.
  destruct (selects _ _) as [times|]; [|done]. unfold paged. intros [= <- <-]. cbn [Tables.page] in *.
  unfold live_rows, has_no_parent. rewrite Hr. cbn [links_view LinkRepository.set_items links]. rewrite Hl.
  rewrite (ordered_no_ties (Some o) (Some l) None None); [by rewrite !length_ordered|].
  intros a b Ha Hb. apply Ht; by apply elem_of_ordered.
Qed.
Lemma convert_rows_read failed l : ∀ d xs d', convert_rows time_json struct_json failed l d = (Ok xs, d') → Forall2 read_from l xs.
Proof.
  clear. induction l as [|w l IH]; cbn [WorkItemLists.convert_rows]; intros d xs d' H; stm_inv; [constructor|].
  constructor; [|by eapply IH].
  match goal with H : match ?c with _ => _ end = Ok _ |- _ => destruct c as [y|e|m] eqn:E; [|done..] end.
  simplify_eq. by eapply convert_read_from.
Qed.
Lemma convert_rows_quiet failed l : keeps same_tables (convert_rows time_json struct_json failed l).
Proof.
  clear. induction l as [|w l IH]; cbn [WorkItemLists.convert_rows]; eauto 20 with quiet typeclass_instances.
Qed.
Lemma Filter_same_items m pe o l d r ld : Filter m pe o l d = (r, ld) → same_tables (ls_items d) (ls_items ld).
Proof.
  clear. intros E. unfold WorkItemLists.Filter in E. destruct (ParseFilterString _ _) as [exp opts]. unfold s_bind at 1, s_query at 1 in E.
  destruct (wrapf _ exp) as [[e|]|e|x]; [|by injection E as _ <-..]. unfold s_bind at 1 in E.
  destruct (s_map _ _ _) as [[p|e0|x] l1] eqn:E1; unfold s_map, s_query in E1; injection E1 as _ <-; [|by injection E as _ <-..].
  unfold s_bind at 1, s_query at 1 in E.
  match type of E with context [match ?t with Ok _ => _ | Err _ => _ | Panic _ => _ end] => destruct t; [|by injection E as _ <-..] end.
  unfold s_bind at 1, on_items in E.
  pose proof (convert_rows_quiet InternalError p.1 (ls_items d)) as Hq. cbn [ls_items] in E.
  destruct (convert_rows _ _ _ _ _) as [[xs|e0|x] t]; cbn in Hq; unfold s_ret in E; by injection E as _ <-.
Qed.
Lemma filter_store_quiet m pe o l : quiet (filter_store m pe o l).
Proof.
  clear. intros d. unfold CsvExport.filter_store. destruct (Filter _ _ _ _ _) as [r ld] eqn:E. cbn [snd].
  apply Filter_same_items in E. by split.
Qed.
Lemma filter_store_ok m pe o l d p d' exp opts all n d0 : no_ties all → filter_store m pe o l d' = (Ok p, d) → same_planner d0 d' → 0 ≤ o → 0 < l →
  ParseFilterString ks m = (Ok (Some exp), opts) → search exp pe None None (view d0) = Ok (all, n) →
  Forall2 read_from (Tables.page (Some o) (Some l) all) p.1.1.1.
Proof.
  intros Ht. unfold CsvExport.filter_store. destruct (Filter _ _ _ _ _) as [r ld] eqn:E. intros [= -> _] Hd Ho Hl Hp Hs.
  unfold WorkItemLists.Filter in E. rewrite Hp in E. apply s_bind_ok in E as (e & l1 & [He%wrapf_ok ->]%s_query_ok & E). injection He as <-.
  apply s_bind_ok in E as (q & l1 & Hq & E). rewrite s_map_ok in Hq by (intro; apply with_stack_ok). apply s_query_ok in Hq as [Hq ->].
  change {| ls_items := pl_wis d'; ls_links := links_view d' |} with (view d') in Hq.
  rewrite (search_page exp pe d0 d' o l all n) in Hq by done. injection Hq as <-.
  apply s_bind_ok in E as (t & l1 & [_ ->]%s_query_ok & E). apply s_bind_ok in E as (xs & l1 & Hx & E). injection E as <- _. cbn [fst].
  unfold on_items in Hx. destruct (convert_rows _ _ _ _ _) as [r t'] eqn:EC. injection Hx as -> _. by eapply convert_rows_read.
Qed.
Lemma window_ok filter pe o l d0 d' w d1 all : matches filter pe d0 all → no_ties all → same_planner d0 d' → 0 ≤ o → 0 < l →
  window (Some filter) pe o l d' = (Ok w, d1) → Forall2 read_from (Tables.page (Some o) (Some l) all) w.1.1.
Proof.
  intros (m & exp & opts & n & Hm & Hp & Hs) Ht Hd Ho Hl H. unfold getWorkItemsByFilterExpression in H. rewrite transact_ok in H.
  apply s_bind_ok in H as (m' & d2 & [E ->]%s_query_ok & H). rewrite Hm in E. injection E as <-.
  apply s_bind_ok in H as (p & d2 & H1 & H). rewrite s_map_ok in H1 by (intro; apply wrapf_ok). injection H as <- <-. cbn [fst].
  by eapply filter_store_ok.
Qed.
Lemma window_quiet filter pe o l : quiet (window filter pe o l).
Proof.
  unfold getWorkItemsByFilterExpression. eauto 20 using filter_store_quiet with quiet typeclass_instances.
Qed.

(** ** The loop *)

Notation ConvertCSV := (ConvertWorkItemsToCSV IsURL FormatRFC3339 time_json struct_json visit).
Notation write_windows := (write_windows IsURL FormatRFC3339 time_json struct_json visit FormatShortest HasColumn selects ks ks' ks'' again).
Notation WorkitemsCSV := (WorkitemsCSV IsURL FormatRFC3339 time_json struct_json visit FormatShortest HasColumn selects ks ks' ks'' again).
Notation first_window := (first_window IsURL FormatRFC3339 time_json struct_json visit FormatShortest HasColumn selects ks ks' ks'' again).
Notation alone := (λ d : planner, d).
(** A line for every row, in their order. *)
Definition line_for_each (d : planner) (rows : list WorkItemStorage) (lines : list (list string)) : Prop :=
  Forall2 (λ w line, ∃ wi wits parents childLinks, read_from w wi ∧
             shows_line IsURL FormatRFC3339 visit d wits parents childLinks wi line) rows lines.
Lemma matches_rows filter pe d all : matches filter pe d all → Forall (item_row_of d) all.
Proof.
  intros (m & exp & opts & n & _ & _ & H). unfold search_listItemsFromDB, compiled_rows in H.
  destruct (errors _); [|done]. destruct (validate_joins _ _) as [[]|e|x]; [|done..]. cbn [mbind res_bind] in H.
  destruct (selects _ _) as [times|]; [|done]. unfold paged in H. injection H as <- _.
  apply Forall_forall. intros w. cbn [Tables.page]. rewrite elem_of_ordered, elem_of_joined_rows, elem_of_live_rows.
  intros [(Hw & Hl & _) _]. by split.
Qed.
Lemma converted_lines d wits (l : list WorkItemStorage) items ancestors childLinks header s text labels s' :
  Forall (item_row_of d) l → Forall2 read_from l items → truthful d s →
  ConvertCSV wits items childLinks ancestors header s = (Ok (text, labels), s') →
  truthful d s' ∧ ∃ lines, line_for_each d l lines ∧
    csv_Read text = Some ((if header && negb (bool_decide (items = [])) then [labels] else []) ++ lines).
Proof.
  intros Hl HF Hs H. apply (ConvertWorkItemsToCSV_lines _ _ _ _ _ d) in H as (Hs' & _ & lines & HL & HR); [|done|].
  - split; [done|]. exists lines. split; [|done]. clear HR Hl. revert lines HL. unfold line_for_each.
    induction HF as [|w wi l items Hr _ IH]; intros lines HL; [by apply Forall2_nil_inv_l in HL as ->|].
    apply Forall2_cons_inv_l in HL as (line & lines' & Hline & HL & ->). constructor; [|by apply IH].
    by exists wi, wits, ancestors, childLinks.
  - clear H. induction HF as [|w wi l items Hr _ IH]; [constructor|]. apply Forall_cons in Hl as [Hw Hl].
    constructor; [by exists w|by apply IH].
Qed.
Lemma or_bad_request_ok {A} f (r : res A) a : or_bad_request f r = Ok a ↔ r = Ok a.
Proof. clear. by destruct r. Qed.
Lemma in_store_ok {A} (m : plm A) s a s' : in_store m s = (Ok a, s') → m (ex_planner s) = (Ok a, ex_planner s').
Proof. clear. unfold in_store. destruct (m _) as [r p]. by intros [= -> <-]. Qed.
Lemma in_store_alone s : in_store (λ d, (Ok tt, d)) s = (Ok tt, s).
Proof. clear. by destruct s. Qed.
Lemma length_page {A} o l (all : list A) : 0 ≤ o → 0 < l →
  length (Tables.page (Some o) (Some l) all) = Nat.min (Z.to_nat l) (length (drop (Z.to_nat o) all)).
Proof. clear. intros. unfold Tables.page. by rewrite length_take. Qed.

Lemma write_windows_ok filter pe d all wits limit : matches filter pe d all → no_ties all → 0 < limit → ∀ fuel offset s,
  truthful d s → 0 ≤ offset → Z.max offset (Z.of_nat (length all)) + limit < 2 ^ 63 →
  Z.of_nat (length (drop (Z.to_nat offset) all)) < Z.of_nat fuel * limit →
  ∃ text ended s', write_windows fuel alone wits (Some filter) pe offset limit s = Some (text, ended, s') ∧
    (ended = Ok tt → truthful d s' ∧ ∃ lines, line_for_each d (drop (Z.to_nat offset) all) lines ∧ csv_Read text = Some lines).
Proof.
  intros HM HT Hlim. induction fuel as [|fuel IH]; intros offset s Hs Ho Hmax Hfuel; [lia|].
  cbn [CsvExport.write_windows]. rewrite in_store_alone. cbn [snd].
  destruct (s_map _ (in_store _) s) as [[w|e|m] s1] eqn:Ew; [|by eexists _, _, _..].
  rewrite s_map_ok in Ew by (intro; apply or_bad_request_ok).
  assert (Hs1 : truthful d s1) by (eapply truthful_quiet, Hs; [apply window_quiet|exact Ew]).
  apply in_store_ok in Ew. eapply window_ok in Ew; [|exact HM|exact HT|apply Hs|done|done].
  destruct (s_map _ (ConvertCSV _ _ _ _ _) s1) as [[[text labels]|e|m] s2] eqn:Ec; [|by eexists _, _, _..].
  rewrite s_map_ok in Ec by (intro; apply or_bad_request_ok).
  assert (Hrows : Forall (item_row_of d) (Tables.page (Some offset) (Some limit) all)).
  { unfold Tables.page. by apply Forall_take, Forall_drop, (matches_rows filter pe). }
  apply (converted_lines d _ _ _ _ _ _ _ _ _ _ Hrows Ew Hs1) in Ec as (Hs2 & lines & HL & HR). cbn [andb app] in HR. cbn [fst].
  apply Forall2_length in Ew as Elen. rewrite length_page in Elen by done. rewrite <- Elen.
  destruct (Z.ltb_spec (Z.of_nat (Nat.min (Z.to_nat limit) (length (drop (Z.to_nat offset) all)))) limit) as [Hlt|Hge].
  - eexists _, _, _. split; [done|]. intros _. split; [done|]. exists lines. split; [|done].
    unfold Tables.page in HL. rewrite take_ge in HL by lia. exact HL.
  - assert (Eo : Z.of_nat (Nat.min (Z.to_nat limit) (length (drop (Z.to_nat offset) all))) = limit) by lia. rewrite Eo.
    assert (Hrem : (Z.to_nat limit ≤ length (drop (Z.to_nat offset) all))%nat) by lia. rewrite length_drop in Hrem, Hfuel.
    rewrite wrap64_id by (unfold in_int, int_min, int_max; lia).
    destruct (IH (offset + limit) s2) as (text' & ended & s3 & E & Hok); [done|lia|lia| |].
    { rewrite length_drop. lia. }
    rewrite E. eexists _, _, _. split; [done|]. intros Hended. destruct (Hok Hended) as (Hs3 & lines' & HL' & HR').
    split; [done|]. exists (lines ++ lines'). split; [|by apply csv_Read_append].
    unfold line_for_each. rewrite <- (take_drop (Z.to_nat limit) (drop (Z.to_nat offset) all)), drop_drop.
    apply Forall2_app; [exact HL|]. rewrite Z2Nat.inj_add in HL' by lia. exact HL'.
Qed.

Lemma first_window_ok filter pe d all offset : matches filter pe d all → no_ties all → 0 ≤ offset → ∀ r s, 
  first_window alone (Some filter) pe offset 100 false (exporting d) = (Ok r, s) →
  truthful d s ∧
  match r with
  | None => drop (Z.to_nat offset) all = []
  | Some (wits, text, more) => drop (Z.to_nat offset) all ≠ [] ∧ ∃ labels lines, line_for_each d (take 100 (drop (Z.to_nat offset) all)) lines ∧ csv_Read text = Some (labels :: lines)
  end.
Proof.
  intros HM HT Ho r s H. assert (Hd : truthful d (exporting d)) by (split; [done|cbn; intros id n; by rewrite lookup_empty|cbn; intros v n; by rewrite lookup_empty]).
  unfold CsvExport.first_window in H. apply s_bind_ok in H as (w & s1 & Hw & H).
  rewrite s_map_ok in Hw by (intro; apply or_bad_request_ok).
  assert (Hs1 : truthful d s1) by (eapply truthful_quiet, Hd; [apply window_quiet|exact Hw]).
  apply in_store_ok in Hw. eapply window_ok in Hw; [|exact HM|exact HT|apply Hd|done|done].
  pose proof (Forall2_length _ _ _ Hw) as Elen. rewrite length_page in Elen by done.
  destruct w as [[items ancestors] childLinks]. cbn [fst snd] in *. destruct items as [|wi items].
  { injection H as <- <-. split; [done|]. apply nil_length_inv. cbn [length] in Elen. change (Z.to_nat 100) with 100%nat in Elen. lia. }
  apply s_bind_ok in H as (u & s2 & Hb & H). rewrite in_store_alone in Hb. injection Hb as _ <-.
  apply s_bind_ok in H as (wits & s2 & Ht & H). rewrite s_map_ok in Ht by (intro; apply or_bad_request_ok).
  assert (Hs2 : truthful d s2).
  { eapply truthful_quiet, Hs1; [|exact Ht]. unfold types_of_space. eauto 20 with quiet typeclass_instances. }
  cbn [andb] in H. apply s_bind_ok in H as ([text labels] & s3 & Hc & H). injection H as <- <-.
  rewrite s_map_ok in Hc by (intro; apply or_bad_request_ok).
  eapply converted_lines in Hc as (Hs3 & lines & HL & HR); [| |exact Hw|exact Hs2].
  - split; [done|]. split; [intros E; rewrite E in Elen; cbn in Elen; lia|]. exists labels, lines. split; [exact HL|].
    rewrite HR, bool_decide_false by done. done.
  - unfold Tables.page. by apply Forall_take, Forall_drop, (matches_rows filter pe).
Qed.
(** C25: The export without a limit ends, whatever goes wrong, and when it ends well the text has a line of labels and then a line
    for every item that matches, from the offset on, in their order and each once; nothing when there is none.  Nobody
    writes between its windows, each of which is a query of its own, and no two matches have the same execution order:
    the database may order ties in another way for each window, so that tied items can be left out or come twice. *)
Theorem WorkitemsCSV_all filter pe pageOffset d all fuel (HM : matches filter pe d all) (HT : no_ties all)
    (Ho : 0 ≤ default 0 pageOffset) (Hmax : default 0 pageOffset + Z.of_nat (length all) + 200 < 2 ^ 63)
    (Hfuel : Z.of_nat (length all) < Z.of_nat fuel * 100) :
  ∃ text ended s, WorkitemsCSV fuel alone (Some (Some filter)) pe pageOffset None d = Some (text, ended, s) ∧
    (ended = Ok tt → let rest := drop (Z.to_nat (default 0 pageOffset)) all in
       ∃ labels lines, line_for_each d rest lines ∧
         csv_Read text = Some (if bool_decide (rest = []) then [] else labels :: lines)).
Proof.
  unfold CsvExport.WorkitemsCSV, csv_limits. set (offset := default 0 pageOffset) in *. cbn zeta.
  rewrite (bool_decide_false (is_Some None)) by (by intros [? ?]).
  destruct (first_window _ _ _ _ _ _ _) as [[r|e|m] s] eqn:Ef; [|by eexists _, _, _..].
  apply (first_window_ok filter pe d all offset HM HT Ho) in Ef as [Hs Hr]. destruct r as [[[wits text] more]|].
  - destruct Hr as (Hne & labels & lines & HL & HR).
    destruct (write_windows_ok filter pe d all wits 100 HM HT ltac:(lia) fuel (offset + 100) s) as (text' & ended & s' & E & Hok);
      [done|lia|lia|rewrite length_drop; lia|].
    rewrite wrap64_id by (unfold in_int, int_min, int_max; lia). rewrite E. eexists _, _, _. split; [done|].
    intros Hended. destruct (Hok Hended) as (_ & lines' & HL' & HR'). exists labels, (lines ++ lines'). split.
    + unfold line_for_each. rewrite <- (take_drop 100 (drop (Z.to_nat offset) all)), drop_drop. apply Forall2_app; [done|].
      rewrite Z2Nat.inj_add in HL' by lia. exact HL'.
    + rewrite bool_decide_false by done. by apply (csv_Read_append _ _ _ _ HR HR').
  - eexists _, _, _. split; [done|]. intros _. exists [], []. rewrite Hr. split; [constructor|]. by rewrite bool_decide_true.
Qed.
End Windows.
