(* ===== verification/RequestExamples.v ===== *)
(** * Concrete stores for the requests

    A planner with a space, a few items, links, comments, areas and labels, on
    which the theorems on requests are applied. *)

From Stdlib Require Import ZArith Lia Ascii String SpecFloat.
From stdpp Require Import relations.
From S2P Require Import TypeFacts WorkItemExamples IterationExamples LinkInvariant Areas Labels Accounts WorkItemListFacts.
From S2P Require Export LinkController WorkItemPayloads SpaceRequests CommentController AreaController LabelController CsvWindows.
Import Transactions Comments.

(** * Requests on work items: a concrete store

    A space with a root iteration, a root area and a type of items; two items and a link between them are created,
    and the theorems on the requests are applied to what follows. *)

Definition simple_field (k : Kind) (label : string) : FieldDefinition :=
  {| Required := false; ReadOnly := false; Label := label; Description := "";
     Type_ := FSimple {| kind := k; simple_default := VNil |} |}.
Definition id_story : uuid := uuid_of 41.
Definition story_model := model_of id_story id_planner "story"
  [(SystemIteration, simple_field KindIteration "Iteration"); (SystemArea, simple_field KindArea "Area");
   (SystemCreator, simple_field KindUser "Creator"); (SystemDescription, simple_field KindMarkup "Description")].
Definition whole (f : float64) : Z := (QArith_base.Qnum (order_Q f) / Zpos (QArith_base.Qden (order_Q f)))%Z.
Definition print_whole (v : gval) : string :=
  match v with VString s => s | VInt n => Itoa n | VFloat64 f => Itoa (whole f) | _ => "" end.
Definition no_html (content markup : string) : string := "".
Definition in_order (f : Fields) : list (string * gval) := map_to_list f.
Definition related_here (d : planner) : related_rows := no_related.
Definition same_order (l : list uuid) : list uuid := l.
Definition root_area : Area :=
  {| ar_Lifecycle := stamped t0; ar_Number := NewHumanFriendlyNumber id_space "areas" []; ar_ID := uuid_of 61;
     ar_SpaceID := id_space; ar_Path := [uuid_of 61]; ar_Name := "space"; ar_Version := 0 |}.
Definition stored_app : app_db :=
  {| its := its app_root; sps := sps app_root;
     wis := no_items [(id_space, id_template)] (create_model story_model with_planner) |}.
Definition planner0 : planner :=
  {| pl_app := stored_app;
     pl_links := LinkRepository.set_items Sample.empty [];
     pl_areas := {| areas := [root_area]; ar_sequences := ∅; ar_spaces := [id_space] |};
     pl_labels := {| labels := []; lb_spaces := [id_space] |};
     pl_accounts := {| identities := []; users := [] |};
     pl_codebases := {| codebases := []; cb_spaces := [id_space] |} |}.

Definition story_payload (title : string) : AppWorkItem :=
  {| aw_ID := None; aw_Attributes := [("system.title", VString title)];
     aw_Relationships := Some {| rel_Assignees := None; rel_Labels := None; rel_Boardcolumns := None; rel_Iteration := None;
       rel_Area := None; rel_BaseType := Some (Some id_story); rel_others := false |} |}.
Definition yes (_ : string) : res bool := Ok true.
Definition no (_ : string) : res bool := Ok false.
Notation alone := (λ d : planner, d).
Notation post n title := (Create_item any_url no_json_time no_json_struct print_whole no_html in_order same_order yes
  t0 (uuid_of n) (uuid_of (100 + n)) alone (Ok id_user) id_space (Some (story_payload title))).
Definition planner1 := (post 71%N "one" planner0).2.
Definition planner2 := (post 72%N "two" planner1).2.
#[global] Strategy expand [planner1 planner2].
Definition link_payload (source target : N) : AppLink :=
  {| al_ID := None; al_Version := None; al_LinkType := Some Sample.ty; al_Source := Some (uuid_of source);
     al_Target := Some (uuid_of target) |}.
Notation post_link n source target := (Create_link no_json_time no_json_struct print_whole no_html in_order
  t0 (uuid_of n) (Ok id_user) (link_payload source target)).
Definition planner_linked := (post_link 80%N 71%N 72%N planner2).2.
Notation remove user n := (Delete_item no_json_time no_json_struct t0 alone (Ok user) (uuid_of n)).
Definition planner_without1 := (remove id_user 71%N planner_linked).2.
Definition patch_payload (version : Z) (title : string) : AppWorkItem :=
  {| aw_ID := Some (uuid_of 71);
     aw_Attributes := [("version", VInt version); ("system.title", VString title); (SystemDescription, VString "text");
                       (SystemDescriptionMarkup, VString "Markdown")]; aw_Relationships := None |}.
Notation patch user version title := (Update any_url no_json_time no_json_struct print_whole no_html related_here in_order
  same_order no t0 (uuid_of 90) alone (Ok user) (Some (patch_payload version title))).

(** ** Witnesses *)

Lemma Delete_item_effect_witness :
  length (List.filter l_live (links (pl_links planner_linked))) = 1%nat ∧
  ∃ d1, same_planner planner_linked d1 ∧ item_deleted t0 (uuid_of 71) id_user d1 planner_without1.
Proof.
  split; [by vm_compute|].
  destruct (ran_it (remove id_user 71%N) planner_linked) as [u Hu]; [by vm_compute|].
  destruct (Delete_item_effect _ _ _ _ _ _ _ _ _ Hu) as (d1 & H1 & user & wi & [= <-] & _ & _ & H2).
  exists d1. unfold planner_without1. split; [exact H1|exact H2].
Defined.
Lemma Update_effect_witness :
  map s_Version (rows (pl_wis (patch id_user 0 "x" planner_linked).2)) = [1; 0] ∧
  ∃ d1 d2, same_planner planner_linked d1 ∧ (∃ wi, item_updated t0 id_user wi 0 d1 d2) ∧
    same_planner d2 (patch id_user 0 "x" planner_linked).2.
Proof.
  split; [by vm_compute|].
  destruct (ran_it (patch id_user 0 "x") planner_linked) as [u Hu]; [by vm_compute|].
  destruct (Update_effect _ _ _ _ _ _ _ _ _ _ _ _ _ _ _ _ _ Hu)
    as (d1 & H1 & [[? _]|(user & source & ID & wi & [= <-] & _ & [= <-] & _ & _ & _ & [[? _]|(v & d2 & Hv & H2 & H3)])]); [done..|].
  exists d1, d2. assert (v = 0) as -> by (vm_compute in Hv; congruence).
  split; [exact H1|split; [exists wi; exact H2|exact H3]].
Defined.

Notation unlink ask user := (Delete_link no_json_time no_json_struct ask t0 alone (Ok user) (uuid_of 80)).
Lemma Delete_link_effect_witness :
  is_ok (unlink no (uuid_of 5) planner_linked).1 = false ∧
  is_ok (unlink no id_user planner_linked).1 = true ∧
  ∃ d1, same_planner planner_linked d1 ∧ may_delete_link no_json_time no_json_struct yes (uuid_of 80) (uuid_of 5) planner_linked ∧
    link_deleted t0 (uuid_of 80) (uuid_of 5) d1 (unlink yes (uuid_of 5) planner_linked).2.
Proof.
  split; [by vm_compute|]. split; [by vm_compute|].
  destruct (ran_it (unlink yes (uuid_of 5)) planner_linked) as [u Hu]; [by vm_compute|].
  destruct (Delete_link_effect _ _ _ _ _ _ _ _ _ _ Hu) as (d1 & H1 & user & [= <-] & H2 & H3).
  exists d1. split; [exact H1|]. split; [exact H2|exact H3].
Defined.
(** A link to an item that was deleted before is stored, although its creation is answered with an error. *)
Definition planner_without2 := (remove id_user 72%N planner2).2.
Lemma Create_link_to_deleted :
  (post_link 80%N 71%N 72%N planner_without2).1 = Err (Stacked (Stacked (NotFoundError "work item" (uuid_String (uuid_of 72)) None))) ∧
  map l_ID (List.filter l_live (links (pl_links (post_link 80%N 71%N 72%N planner_without2).2))) = [uuid_of 80].
Proof. by vm_compute. Qed.

(** The three attributes are visited in the order they were written in, or backwards. *)
Definition described : list (string * gval) :=
  [(SystemDescription, VString "text"); (SystemDescriptionMarkup, VString "Markdown"); ("system.title", VString "x")].
Lemma convert_attributes_any_order_witness :
  (convert_attributes t0 (uuid_of 90) id_space (rev described) blank_item planner0).1 =
  (convert_attributes t0 (uuid_of 90) id_space described blank_item planner0).1.
Proof.
  destruct (ran_it (convert_attributes t0 (uuid_of 90) id_space described blank_item) planner0) as [w Hw]; [done|].
  erewrite (convert_attributes_any_order t0 (uuid_of 90) id_space described (rev described) blank_item); [by rewrite Hw at 1| | |exact Hw].
  - by apply (bool_decide_unpack _).
  - symmetry. apply Permutation_rev.
Defined.

(** * Requests on spaces: a concrete store

    A store with one template in which a space is made, renamed and deleted, by its owner and by a stranger. *)

Definition the_template : SpaceTemplate :=
  {| tp_Lifecycle := stamped zero_time; tp_ID := SystemAgileTemplateID; tp_Version := 0; tp_Name := "Agile";
     tp_Description := None; tp_CanConstruct := true |}.
Definition no_spaces : planner :=
  {| pl_app := {| its := {| iterations := []; it_sequences := ∅; it_spaces := [] |};
                  sps := {| space_rows := []; template_rows := [the_template] |};
                  wis := no_items [] with_planner |};
     pl_links := LinkRepository.set_items Sample.empty []; pl_areas := {| areas := []; ar_sequences := ∅; ar_spaces := [] |};
     pl_labels := {| labels := []; lb_spaces := [] |}; pl_accounts := {| identities := []; users := [] |};
     pl_codebases := {| codebases := []; cb_spaces := [] |} |}.
Definition no_text_of (f : float64) : string := "".
Definition no_column (table column : string) : bool := false.
Definition selects_none (c : compiled) (d : wi_db) : selection := Selected (λ _, 0%nat).
Definition answered (status : Z) (ids : list uuid) : res (reply (list uuid)) :=
  Ok {| rp_status := status; rp_errors := Ok []; rp_content := Ok ids |}.
(** One codebase, no deployments; everything is answered with success. *)
Definition kind_services : services :=
  {| sv_codebases := Ok tt; sv_list_codebases := answered 200 [uuid_of 500];
     sv_delete_codebase := λ _, Ok {| rp_status := 200; rp_errors := Ok []; rp_content := Ok tt |};
     sv_deployments := Ok tt; sv_list_deployments := Ok {| rp_status := 200; rp_errors := Ok []; rp_content := Ok [] |};
     sv_delete_deployment := λ _ _, Ok {| rp_status := 200; rp_errors := Ok []; rp_content := Ok tt |};
     sv_create_resource := λ _, Ok tt; sv_delete_resource := λ _, Ok tt |}.
Definition named_space (name : string) (version : option Z) : AppSpace :=
  {| as_ID := None;
     as_Attributes := Some {| sa_Name := Some name; sa_Description := None; sa_Version := version; sa_CreatedAt := None;
                              sa_UpdatedAt := None |};
     as_OwnedBy := None; as_SpaceTemplate := None |}.
Notation ask_space := (answer_space no_text_of no_column selects_none [] [] [] alone).
Definition q_new : space_request :=
  QCreate (at_ 1) (uuid_of 300) (uuid_of 301) (uuid_of 302) (uuid_of 303) kind_services (Ok id_user) (Some (named_space "one" None)).
Definition q_rename : space_request := QUpdate (at_ 2) (Ok id_user) (uuid_of 300) (Some (named_space "two" (Some 0))).
Definition with_space : planner := ask_space q_new no_spaces.
Definition with_renamed : planner := ask_space q_rename with_space.
#[global] Strategy expand [with_space with_renamed].
Lemma no_spaces_rooted : SpaceRequests.rooted no_spaces.
Proof.
  split; [by apply no_iterations_wf| |by apply NoDup_nil|by intros ? ?%elem_of_nil..].
  repeat split; [by apply NoDup_nil|by intros ? ?%elem_of_nil|by intros ? ? ?%elem_of_nil].
Qed.
(** An iteration and an area below the roots. *)
Notation ask_iterations := (answer yes any_url no_json_time no_json_struct print_whole no_related).
Definition q_sprint : request :=
  RCreateChild (at_ 3) (uuid_of 310) (uuid_of 311) (uuid_of 312) (Ok id_user) (uuid_String (uuid_of 303))
    {| p_ID := None; p_Name := Some "sprint"; p_Description := None; p_StartAt := None; p_EndAt := None; p_State := None;
       p_UserActive := None; p_Parent := None |}.
Definition with_sprint : planner := set_app (ask_iterations (λ d, d) q_sprint (pl_app with_renamed)).2 with_renamed.
Definition q_area : area_request :=
  ACreate (at_ 4) (uuid_of 320) (uuid_of 321) (Ok id_user) (uuid_String (uuid_of 302)) (Some "kernel").
Definition with_area : planner := answer_area q_area with_sprint.
#[global] Strategy expand [with_sprint with_area].
Lemma spaces_have_roots_witness :
  map sp_Name (space_rows (sps (pl_app with_area))) = ["two"] ∧
  map it_Name (iterations (its (pl_app with_area))) = ["one"; "sprint"] ∧ map ar_Name (areas (pl_areas with_area)) = ["one"; "kernel"] ∧
  ∃ i a, Root_ (uuid_of 300) (its (pl_app with_area)) = Ok i ∧ area_Root (uuid_of 300) (pl_areas with_area) = Ok a.
Proof.
  split; [by vm_compute|]. split; [by vm_compute|]. split; [by vm_compute|].
  destruct (spaces_have_roots no_text_of no_column selects_none [] [] [] yes any_url no_json_time no_json_struct print_whole no_related
              no_spaces with_area no_spaces_rooted) as [_ H].
  - eapply more_steps; [apply (space_step _ _ _ _ _ _ _ _ _ _ _ _ alone q_new); [by intros E|intros x; apply no_step]|].
    eapply more_steps; [apply (space_step _ _ _ _ _ _ _ _ _ _ _ _ alone q_rename); [done|intros x; apply no_step]|].
    eapply more_steps; [apply iteration_step_|].
    { exists (pl_app with_renamed), q_sprint, tt, (pl_app with_sprint).
      split; [by intros E|]. split; [done|]. split; [by intros id i _ (Hi & _)%Load_ok|].
      split; [|reflexivity]. by vm_compute. }
    eapply more_steps; [apply area_step; exists q_area; split; [by intros E|reflexivity]|]. apply no_step.
  - destruct (H (uuid_of 300)) as [[i Hi] [a Ha]]; [by apply (bool_decide_unpack _); vm_compute|]. exists i, a. split; [exact Hi|exact Ha].
Defined.
Notation delete_space user := (Delete_space (at_ 3) (λ d, d) kind_services (Ok user) (uuid_of 300) false (with_renamed, [])).
(** The codebase of the space is gone before the stranger is refused. *)
Lemma Delete_space_asks_first :
  (delete_space (uuid_of 5)).1 = Err (Stacked (ForbiddenError "user is not the space owner")) ∧
  (delete_space (uuid_of 5)).2.2 = [ADeleteCodebase (uuid_of 500)].
Proof. by vm_compute. Qed.
Lemma Delete_space_effect_witness :
  is_ok (delete_space id_user).1 = true ∧
  ∃ t, space_Delete (at_ 3) (uuid_of 300) (sps (pl_app with_renamed)) = (Ok tt, t) ∧ (delete_space id_user).2.1 = set_sps t with_renamed.
Proof.
  split; [by vm_compute|].
  destruct (delete_space id_user) as [r [d' l]] eqn:E.
  destruct (Delete_space_effect _ _ _ _ _ _ _ _ _ _ E) as [(Hr & _)|(user & space & t & _ & _ & _ & H1 & H2 & _)].
  - assert (Hok : is_ok (delete_space id_user).1 = true) by by vm_compute. rewrite E in Hok. cbn [fst] in Hok. by rewrite Hr in Hok.
  - exists t. split; [exact H1|exact H2].
Defined.

(** * Requests on comments: a concrete store

    Two items of a space; comments are written, answered from the other item, changed by a stranger and by a
    collaborator, and deleted. *)

Definition forum0 : forum := {| fo_planner := planner2; fo_comments := no_comments |}.
Definition saying (body : string) (parent : option uuid) : CommentPayload :=
  {| cp_Body := body; cp_Markup := None; cp_ParentComment := option_map (λ u, Some (Some (uuid_String u))) parent |}.
Definition q_say : comment_request := RCreate (at_ 1) (at_ 2) (uuid_of 200) (Ok id_user) (uuid_of 71) (saying "first" None).
(** An answer on the item 72 to a comment on the item 71. *)
Definition q_answer : comment_request :=
  RCreate (at_ 3) (at_ 4) (uuid_of 201) (Ok id_user) (uuid_of 72) (saying "second" (Some (uuid_of 200))).
Definition q_change : comment_request := RUpdate (at_ 5) (at_ 6) (Ok (uuid_of 5)) (uuid_of 200) (Some "changed") None.
Definition q_remove : comment_request := RDelete (at_ 7) (at_ 8) (Ok id_user) (uuid_of 200).
Notation ask_forum auth q := (run_request no_json_time no_json_struct no_html auth (λ d, d) q).
Definition forum1 : forum := ask_forum yes q_say forum0.
Definition forum2 : forum := ask_forum yes q_answer forum1.
Definition forum3 : forum := ask_forum yes q_change forum2.
Definition forum4 : forum := ask_forum yes q_remove forum3.
#[global] Strategy expand [forum1 forum2 forum3 forum4].
Notation change auth user :=
  (Update_comment no_json_time no_json_struct no_html auth (at_ 5) (at_ 6) (λ d, d) (Ok user) (uuid_of 200) (Some "changed") None).
Notation remove_comment auth user :=
  (Delete_comment no_json_time no_json_struct auth (at_ 7) (at_ 8) (λ d, d) (Ok user) (uuid_of 200)).

Lemma asked_alone auth q d : asked no_json_time no_json_struct no_html auth d (ask_forum auth q d).
Proof. exists (λ d, d), q. split; [intros x; reflexivity|done]. Qed.
Lemma comment_requests_history_witness :
  map (λ c, (Body c, row_live c)) (comments (fo_comments forum4)) = [("changed", false); ("second", true)] ∧
  length (comment_revisions (fo_comments forum4)) = 4%nat ∧
  cm_wf (fo_comments forum3) ∧ authors_kept (fo_comments forum3) (fo_comments forum4).
Proof.
  split; [by vm_compute|]. split; [by vm_compute|].
  apply (comment_requests_history no_json_time no_json_struct no_html yes forum0); [done| |apply rtc_once, asked_alone].
  do 2 (eapply rtc_l; [apply asked_alone|]). apply rtc_once, asked_alone.
Defined.
Lemma ran_forum {A} (m : fom A) d : is_ok (m d).1 = true → ∃ a, m d = (Ok a, (m d).2).
Proof. destruct (m d) as [[a|e|x] d']; [by exists a|done..]. Qed.
Lemma Update_comment_effect_witness :
  ∃ d1 c, quiet_forum forum2 d1 ∧ comment_Load (uuid_of 200) (fo_comments forum2) = Ok c ∧
    rewritten (at_ 5) (uuid_of 5) (with_body "changed" None c) (fo_comments d1) (fo_comments (change yes (uuid_of 5) forum2).2).
Proof.
  destruct (ran_forum (change yes (uuid_of 5)) forum2) as [a Ha]; [by vm_compute|].
  destruct (Update_comment_effect _ _ _ _ _ _ _ _ _ _ _ _ _ _ Ha) as (d1 & Hq & user & c & [= <-] & Hc & _ & _ & text & [= <-] & H).
  exists d1, c. split; [exact Hq|]. split; [exact Hc|exact H].
Defined.
Lemma Delete_comment_effect_witness :
  ∃ d1, quiet_forum forum3 d1 ∧ erased (at_ 7) id_user (uuid_of 200) (fo_comments d1) (fo_comments (remove_comment no id_user forum3).2).
Proof.
  destruct (ran_forum (remove_comment no id_user) forum3) as [a Ha]; [by vm_compute|].
  destruct (Delete_comment_effect _ _ _ _ _ _ _ _ _ _ _ Ha) as (d1 & Hq & user & c & [= <-] & _ & _ & _ & H).
  exists d1. split; [exact Hq|exact H].
Defined.
(** An answer may be given to a comment on another item. *)
Lemma answer_elsewhere :
  map (λ c, (ParentID c, ParentCommentID c)) (comments (fo_comments forum2)) =
  [(uuid_of 71, None); (uuid_of 72, Some (uuid_of 200))].
Proof. by vm_compute. Qed.
(** An id that cannot be read is answered with an error, and the transaction commits. *)
Lemma unread_parent :
  (Create_comment no_json_time no_json_struct no_html (at_ 1) (at_ 2) (uuid_of 202) (Ok id_user) (uuid_of 71)
     {| cp_Body := "x"; cp_Markup := None; cp_ParentComment := Some (Some (Some "no id")) |} forum2).1 =
  Ok (inl (Plain "uuid: incorrect UUID")).
Proof. by vm_compute. Qed.
Lemma Update_comment_stranger : (change no (uuid_of 5) forum2).1 = Err (ForbiddenError "user is not a space collaborator").
Proof. by vm_compute. Qed.

(** * Requests on areas and labels: a concrete store

    A space with its root area; areas and labels are made in it. *)

Definition area_child (n parent : N) (name : string) : area_request :=
  ACreate (at_ (Z.of_N n)) (uuid_of n) uuid_Nil (Ok id_user) (uuid_String (uuid_of parent)) (Some name).
Definition with_areas : planner := answer_area (area_child 63 62 "inner") (answer_area (area_child 62 61 "outer") planner0).
Definition blank_label : LabelAttributes :=
  {| la_Name := Some " urgent "; la_TextColor := None; la_BackgroundColor := Some "#FF0000"; la_BorderColor := None; la_Version := Some 0 |}.
Definition labelled : planner := (Create_label (at_ 1) (uuid_of 90) (Ok id_user) id_space blank_label planner0).2.
Definition relabelled : planner :=
  (Update_label (at_ 2) (Ok (uuid_of 5)) (uuid_of 90)
     {| la_Name := Some "calm"; la_TextColor := None; la_BackgroundColor := None; la_BorderColor := None; la_Version := Some 0 |}
     labelled).2.
#[global] Strategy expand [with_areas labelled relabelled].
Lemma planner0_trees : area_trees planner0.
Proof.
  split; [split|].
  - apply NoDup_singleton.
  - intros a Ha _. apply list_elem_of_singleton in Ha as ->. by left.
  - by intros x y ->%list_elem_of_singleton ->%list_elem_of_singleton.
Qed.
Lemma area_requests_keep_trees_witness :
  map (λ a, (ar_Name a, length (ar_Path a))) (areas (pl_areas with_areas)) = [("space", 1%nat); ("outer", 2%nat); ("inner", 3%nat)] ∧
  match (ShowChildren_area (uuid_String (uuid_of 62)) with_areas).1 with Ok l => map aa_ParentPathResolved l | _ => [] end
  = [Some "/space/outer"] ∧ area_trees with_areas.
Proof.
  split; [by vm_compute|]. split; [by vm_compute|].
  apply (area_requests_keep_trees planner0 with_areas planner0_trees).
  eapply rtc_l; [by exists (area_child 62 61 "outer")|]. apply rtc_once. by exists (area_child 63 62 "inner").
Defined.
Lemma planner0_labels : labels_ok (pl_labels planner0).
Proof. split; [apply NoDup_nil_2|by intros x y ?%elem_of_nil|by intros x ?%elem_of_nil]. Qed.
(** The second request is that of somebody who has nothing to do with the space. *)
Lemma label_requests_keep_labels_witness :
  map (λ l, (lb_Name l, lb_Version l)) (labels (pl_labels labelled)) = [("urgent", 0)] ∧
  map (λ l, (lb_Name l, lb_Version l)) (labels (pl_labels relabelled)) = [("calm", 1)] ∧ labels_ok (pl_labels relabelled).
Proof.
  split; [by vm_compute|]. split; [by vm_compute|].
  apply (label_requests_keep_labels no_json_time no_json_struct planner0 relabelled planner0_labels).
  eapply rtc_l; [by exists (LCreate (at_ 1) (uuid_of 90) (Ok id_user) id_space blank_label)|].
  apply rtc_once. by exists (LUpdate (at_ 2) (Ok (uuid_of 5)) (uuid_of 90)
     {| la_Name := Some "calm"; la_TextColor := None; la_BackgroundColor := None; la_BorderColor := None; la_Version := Some 0 |}).
Defined.
(** Asking for the labels of an item that has none. *)
Lemma labels_of_unlabelled : (List_item_labels no_json_time no_json_struct (uuid_of 71) planner1).1 =
  Err (Stacked (Plain "recovered %v. stack: %s")).
Proof. by vm_compute. Qed.

(** ** The list of an iteration

    An item in an iteration below is listed without the assignee that is asked for; the item itself says nothing. *)

Definition planner_of_item : planner :=
  {| pl_app := app_item; pl_links := pl_links planner0; pl_areas := pl_areas planner0; pl_labels := pl_labels planner0;
     pl_accounts := pl_accounts planner0; pl_codebases := pl_codebases planner0 |}.
Definition in_A_to_somebody : list_filters :=
  {| lf_Filter := None; lf_Expression := None; lf_Assignee := Some "somebody"; lf_Iteration := Some (uuid_String (it 2));
     lf_Workitemtype := Some id_task; lf_Area := None; lf_Workitemstate := None; lf_Parentexists := None; lf_Offset := None;
     lf_Limit := None; lf_Sort := None |}.
Lemma list_expression_means_witness :
  ∃ w, w ∈ rows (wis app_item) ∧ ¬ assigned w (Some "somebody") ∧
    listed in_A_to_somebody (its app_item) w (row_says w (IsNull "nothing") = true).
Proof.
  destruct one_item as [Hlen _]. destruct (rows (wis app_item)) as [|w [|]] eqn:E; [done| |done]. exists w.
  assert (Hw : w = default w (head (rows (wis app_item)))) by by rewrite E.
  split; [by left|]. split.
  - intros (l & Hl & _). rewrite Hw in Hl. by vm_compute in Hl.
  - apply (list_expression_means (row_says w) in_A_to_somebody planner_of_item w (IsNull "nothing")).
    + change (it_wf (its app_item)). rewrite its_of_item. apply app_tree_wf.
    + apply row_says_ok.
    + rewrite Hw. vm_compute. reflexivity.
Defined.

(** * The export of work items: a concrete store

    Two items of one type are created and exported, by window and without a limit. *)

#[local] Existing Instance turning_order.
Definition csv_model := model_of id_story id_planner "story"
  [(SystemIteration, simple_field KindIteration "Iteration"); (SystemArea, simple_field KindArea "Area");
   (SystemCreator, simple_field KindUser "Creator"); (SystemNumber, simple_field KindInteger "Number")].
Definition the_user : Identity :=
  {| id_Lifecycle := stamped t0; id_ID := id_user; Username := "me"; RegistrationCompleted := true; ProviderType := "kc";
     ProfileURL := None; UserID := None |}.
Definition csv_store0 : planner :=
  {| pl_app := {| its := its app_root; sps := sps app_root;
                  wis := no_items [(id_space, id_template)] (create_model csv_model with_planner) |};
     pl_links := pl_links planner0; pl_areas := pl_areas planner0; pl_labels := pl_labels planner0;
     pl_accounts := {| identities := [the_user]; users := [] |}; pl_codebases := pl_codebases planner0 |}.
Definition csv_store : planner := (post 72%N "with, comma" (post 71%N "one" csv_store0).2).2.
#[global] Strategy expand [csv_store].
Definition selects_all (c : compiled) (d : wi_db) : selection := Selected (λ _, 1%nat).
Definition a_filter : list (string * gval) := [("space", VString (uuid_String id_space))].
Notation export fuel offset limit := (WorkitemsCSV any_url no_json_time no_json_time no_json_struct (λ f, f) no_text_of no_column
  selects_all [] [] [] (λ m, m) fuel (λ d, d) (Some (Some a_filter)) None offset limit csv_store).
Definition found : res (list WorkItemStorage * Z) :=
  search_listItemsFromDB no_text_of no_column selects_all [] [] [] (Equals (Field "SpaceID") (Literal (LString (uuid_String id_space))))
    None None None (view csv_store).
Definition rows_in (r : res (list WorkItemStorage * Z)) : list WorkItemStorage := match r with Ok p => p.1 | _ => [] end.
Lemma rows_in_ok (r : res (list WorkItemStorage * Z)) : is_ok r = true → ∃ n, r = Ok (rows_in r, n).
Proof. destruct r as [[l n]| |]; [by exists n|done..]. Qed.
Definition csv_rows : list WorkItemStorage := rows_in found.
#[global] Strategy expand [csv_rows].
Lemma found_rows : ∃ n, found = Ok (csv_rows, n).
Proof. apply rows_in_ok. by vm_compute. Qed.
Lemma csv_matches : matches no_text_of no_column selects_all [] [] [] (λ m, m) a_filter None csv_store csv_rows.
Proof.
  destruct found_rows as [n E]. unfold matches. eexists _, _, _. exists n.
  split; [by vm_compute|]. split; [by vm_compute|exact E].
Qed.
(** Two lines after that of the labels, the topmost item first. *)
Definition csv_text : string := match export 2%nat None None with Some r => r.1.1 | None => "" end.
Lemma WorkitemsCSV_all_witness :
  csv_Read csv_text = Some [["_Type"; "_Parent"; "_Children"; "Area"; "Creator"; "Iteration"; "Number"; "Title"];
                            ["story"; ""; ""; "space"; "me"; "space"; "2"; "with, comma"];
                            ["story"; ""; ""; "space"; "me"; "space"; "1"; "one"]] ∧
  ∃ ended s, export 2%nat None None = Some (csv_text, ended, s) ∧
    let rest := drop (Z.to_nat (default 0 None)) csv_rows in
    ∃ labels lines, line_for_each any_url no_json_time (λ f, f) csv_store rest lines ∧
      csv_Read csv_text = Some (if bool_decide (rest = []) then [] else labels :: lines).
Proof.
  split; [by vm_compute|].
  destruct (WorkitemsCSV_all any_url no_json_time no_json_time no_json_struct (λ f, f) no_text_of no_column selects_all [] [] [] (λ m, m)
              (λ c d d' _, eq_refl) a_filter None None csv_store csv_rows 2%nat csv_matches) as (text & ended & s & E & H).
  - apply different_orders_no_ties, (bool_decide_unpack _). by vm_compute.
  - done.
  - by vm_compute.
  - by vm_compute.
  - assert (Et : csv_text = text) by (unfold csv_text; by rewrite E).
    assert (Ee : ended = Ok tt).
    { assert (Hx : option_map (λ r, r.1.2) (export 2%nat None None) = Some (Ok tt)) by by vm_compute.
      rewrite E in Hx. by injection Hx. }
    exists ended, s. rewrite Et. split; [exact E|]. exact (H Ee).
Defined.
(** With a limit of one the item beyond it is announced, on a line that is not one of an item. *)
Lemma export_one : option_map (λ r, r.1.1) (export 2%nat None (Some 1)) = Some (String.append
  (csv_WriteAll [["_Type"; "_Parent"; "_Children"; "Area"; "Creator"; "Iteration"; "Number"; "Title"];
                 ["story"; ""; ""; "space"; "me"; "space"; "2"; "with, comma"]]) more_message).
Proof. by vm_compute. Qed.
Lemma csv_roundtrip_witness : csv_Read (csv_WriteAll [["a,b"; ""]; [newline_; " c"]]) = Some [["a,b"; ""]; [newline_; " c"]].
Proof. apply csv_roundtrip. by repeat constructor. Defined.
