(* ===== verification/Trackers.v ===== *)
(** * Trackers and what is imported from them

    [remoteworkitem/tracker.go], [trackerquery.go], [trackeritem.go], their
    repositories, [scheduler.go], [github.go] and [jira.go]: the tables of the
    trackers, of the queries on them and of the items that were fetched, the
    import of an item as a work item, and the jobs that run the queries.  The
    clients of GitHub and Jira and the parser of schedules are parameters. *)

From Stdlib Require Import ZArith Lia Ascii String SpecFloat.
From S2P Require Import Errors Spaces Accounts LinkRepository.
From S2P Require Export RemoteItems WorkItemController.
Import Transactions.

(** ** Tables *)

Record Tracker := {
  tr_Lifecycle : Lifecycle;
  tr_ID : uuid;
  tr_URL : string;
  tr_Type : string;
}.
Definition tr_set (t : Tracker) (lc : Lifecycle) (ID : uuid) : Tracker :=
  {| tr_Lifecycle := lc; tr_ID := ID; tr_URL := tr_URL t; tr_Type := tr_Type t |}.
#[export] Instance Tracker_Row : Row Tracker :=
  {| row_ID := tr_ID; row_life := tr_Lifecycle; with_life := λ lc t, tr_set t lc (tr_ID t) |}.
#[export] Instance Tracker_RowLaws : RowLaws Tracker.
Proof. by split. Qed.
Record TrackerQuery := {
  tq_Lifecycle : Lifecycle;
  tq_ID : uuid;
  tq_Query : string;
  tq_Schedule : string;
  tq_TrackerID : uuid;
  tq_SpaceID : uuid;
  tq_WorkItemTypeID : uuid;
}.
Definition tq_set (q : TrackerQuery) (lc : Lifecycle) (ID : uuid) : TrackerQuery :=
  {| tq_Lifecycle := lc; tq_ID := ID; tq_Query := tq_Query q; tq_Schedule := tq_Schedule q;
     tq_TrackerID := tq_TrackerID q; tq_SpaceID := tq_SpaceID q; tq_WorkItemTypeID := tq_WorkItemTypeID q |}.
#[export] Instance TrackerQuery_Row : Row TrackerQuery :=
  {| row_ID := tq_ID; row_life := tq_Lifecycle; with_life := λ lc q, tq_set q lc (tq_ID q) |}.
#[export] Instance TrackerQuery_RowLaws : RowLaws TrackerQuery.
Proof. by split. Qed.
Record TrackerItem := {
  ti_Lifecycle : Lifecycle;
  ti_ID : Z;
  RemoteItemID : string;
  Item : string;
  ti_TrackerID : uuid;
}.
Definition ti_live (i : TrackerItem) : bool := live (ti_Lifecycle i).
Record tracking := {
  tk_planner : planner;
  trackers : list Tracker;
  tracker_queries : list TrackerQuery;
  tracker_items : list TrackerItem;
}.
Notation tkm A := (tracking → res A * tracking).
Definition set_trackers (t : list Tracker) (d : tracking) : tracking :=
  {| tk_planner := tk_planner d; trackers := t; tracker_queries := tracker_queries d; tracker_items := tracker_items d |}.
Definition set_queries (t : list TrackerQuery) (d : tracking) : tracking :=
  {| tk_planner := tk_planner d; trackers := trackers d; tracker_queries := t; tracker_items := tracker_items d |}.
Definition set_tracker_items (t : list TrackerItem) (d : tracking) : tracking :=
  {| tk_planner := tk_planner d; trackers := trackers d; tracker_queries := tracker_queries d; tracker_items := t |}.
Definition in_planner {A} (m : plm A) : tkm A := λ d,
  let '(r, p) := m (tk_planner d) in
  (r, {| tk_planner := p; trackers := trackers d; tracker_queries := tracker_queries d; tracker_items := tracker_items d |}).
Definition tracker_constraints : list (constraint Tracker) := [primary_key "trackers_pkey"].
Definition query_constraints (d : tracking) : list (constraint TrackerQuery) :=
  [primary_key "trackerqueries_pkey";
   foreign_key "tracker_queries_tracker_id_trackers_id_foreign" (λ q, existsb (has_ID (tq_TrackerID q)) (trackers d));
   foreign_key "tracker_queries_space_id_fkey" (λ q, existsb (has_ID (tq_SpaceID q)) (space_rows (sps (pl_app (tk_planner d)))));
   foreign_key "tracker_queries_work_item_type_id_fkey" (λ q, existsb (λ t, bool_decide (t_ID t = tq_WorkItemTypeID q))
     (wit_rows (tdb (types (pl_wis (tk_planner d))))))].

(** The errors of the package itself are of none of the types the answers know. *)
Definition package_error (message : string) : error := Plain message.
Definition bad_tracker (parameter value : string) : error :=
  package_error ("Bad value for parameter '" +:+ parameter +:+ "': '" +:+ value +:+ "'").

Section Repositories.
Context {HO : UuidOps} (IsURL : string → bool).
Context (time_json : Z → string) (struct_json : string → option gval).

(** ** The repository of trackers *)

Definition tracker_Create (now : Time) (newID : uuid) (t : Tracker) : tkm Tracker := λ d,
  if negb (IsURL (tr_URL t)) then (Err (bad_tracker "url" (tr_URL t)), d)
  else if negb (supported (tr_Type t)) then (Err (bad_tracker "type" (tr_Type t)), d)
  else
    let t := if bool_decide (tr_ID t = uuid_Nil) then tr_set t (tr_Lifecycle t) newID else t in
    match t_insert tracker_constraints now t (trackers d) with
    | inl v => (Err (package_error (Errors.ErrorMsg (driver_error v))), d)
    | inr (t, l) => (Ok t, set_trackers l d)
    end.
Definition tracker_Load (ID : uuid) (d : tracking) : res Tracker :=
  match t_first (has_ID ID) (trackers d) with
  | Some t => Ok t
  | None => Err (NotFoundError "tracker" (uuid_String ID) None)
  end.
Definition tracker_CheckExists (id : uuid) (d : tracking) : res unit := Tables.CheckExists "trackers" (trackers d) id.
Definition tracker_List (d : tracking) : list Tracker := t_where (λ _, true) (trackers d).
Definition tracker_Save (now : Time) (t : Tracker) : tkm Tracker := λ d,
  match t_first (has_ID (tr_ID t)) (trackers d) with
  | None => (Err (NotFoundError "tracker" (uuid_String (tr_ID t)) None), d)
  | Some _ =>
      if negb (supported (tr_Type t)) then (Err (BadParameterError "type" (tr_Type t) None None), d)
      else match t_save tracker_constraints now t (trackers d) with
           | inl v => (Err (InternalError (driver_error v)), d)
           | inr (t, l) => (Ok t, set_trackers l d)
           end
  end.
Definition tracker_Delete (now : Time) (ID : uuid) : tkm unit := λ d,
  if bool_decide (ID = uuid_Nil) then (Err (NotFoundError "tracker" (uuid_String ID) None), d)
  else match t_delete now (by_primary_key ID) (trackers d) with
       | (O, _) => (Err (NotFoundError "space" (uuid_String ID) None), d)
       | (_, l) => (Ok tt, set_trackers l d)
       end.

(** ** The repository of queries on trackers *)

(** A failed insertion is answered with the error of the handle, which has none: an internal error without a cause. *)
Definition no_cause : error := Plain "<nil>".
Definition trackerquery_Create (now : Time) (newID : uuid) (tq : TrackerQuery) : tkm TrackerQuery :=
  let* wiType := s_map (replace_err (BadParameterError "WorkItemTypeID" "%v" None None))
                   (in_planner (on_items_of (on_types (WorkItemTypes.Load time_json struct_json (tq_WorkItemTypeID tq))))) in
  let* _ := s_query (λ d, CheckTypeAndSpaceShareTemplate (pl_wis (tk_planner d)) wiType (tq_SpaceID tq)) in
  λ d,
    let tq := if bool_decide (tq_ID tq = uuid_Nil) then tq_set tq (tq_Lifecycle tq) newID else tq in
    match t_insert (query_constraints d) now tq (tracker_queries d) with
    | inl _ => (Err (InternalError no_cause), d)
    | inr (tq, l) => (Ok tq, set_queries l d)
    end.
Definition trackerquery_Load (ID : uuid) (d : tracking) : res TrackerQuery :=
  match t_first (has_ID ID) (tracker_queries d) with
  | Some q => Ok q
  | None => Err (NotFoundError "tracker query" (uuid_String ID) None)
  end.
Definition trackerquery_CheckExists (id : uuid) (d : tracking) : res unit :=
  Tables.CheckExists "tracker_queries" (tracker_queries d) id.
Definition trackerquery_List (spaceID : uuid) (d : tracking) : list TrackerQuery :=
  t_where (λ q, bool_decide (tq_SpaceID q = spaceID)) (tracker_queries d).
Definition trackerquery_Delete (now : Time) (ID : uuid) : tkm unit := λ d,
  if bool_decide (ID = uuid_Nil) then (Err (NotFoundError "trackerquery" (uuid_String ID) None), d)
  else match t_delete now (by_primary_key ID) (tracker_queries d) with
       | (O, _) => (Err (NotFoundError "trackerquery" (uuid_String ID) None), d)
       | (_, l) => (Ok tt, set_queries l d)
       end.

(** ** The items of trackers *)

Record TrackerItemContent := { tc_ID : string; tc_Content : string }.
(** Without a limit the last match is what the value holds. *)
Definition find_tracker_item (remoteID : string) (tID : uuid) (d : tracking) : option TrackerItem :=
  last (List.filter (λ i, ti_live i && (String.eqb (RemoteItemID i) remoteID && bool_decide (ti_TrackerID i = tID))) (tracker_items d)).
Definition tracker_known (tID : uuid) (d : tracking) : bool := existsb (has_ID tID) (trackers d).
Definition unknown_tracker : error := driver_error (ViolatesForeignKey "tracker_items_tracker_id_trackers_id_foreign").
Definition save_tracker_item (now : Time) (i : TrackerItem) (d : tracking) : tracking :=
  set_tracker_items (map (λ x, if ti_live x && (ti_ID x =? ti_ID i)
                               then {| ti_Lifecycle := {| CreatedAt := CreatedAt (ti_Lifecycle i); UpdatedAt := now;
                                                          DeletedAt := DeletedAt (ti_Lifecycle i) |};
                                       ti_ID := ti_ID i; RemoteItemID := RemoteItemID i; Item := Item i;
                                       ti_TrackerID := ti_TrackerID i |}
                               else x) (tracker_items d)) d.
(** [next]: what the sequence of the ids says. *)
Definition Upload (now : Time) (next : Z) (tID : uuid) (item : TrackerItemContent) : tkm unit := λ d,
  match find_tracker_item (tc_ID item) tID d with
  | None =>
      if negb (tracker_known tID d) then (Err unknown_tracker, d)
      else (Ok tt, set_tracker_items (tracker_items d ++
              [{| ti_Lifecycle := stamped now; ti_ID := next; RemoteItemID := tc_ID item; Item := tc_Content item;
                  ti_TrackerID := tID |}]) d)
  | Some ti =>
      (Ok tt, save_tracker_item now {| ti_Lifecycle := ti_Lifecycle ti; ti_ID := ti_ID ti; RemoteItemID := RemoteItemID ti;
                               Item := tc_Content item; ti_TrackerID := ti_TrackerID ti |} d)
  end.
End Repositories.

(** ** The import of an item *)

Record TrackerSchedule := {
  ts_TrackerID : uuid;
  ts_URL : string;
  ts_TrackerType : string;
  ts_TrackerQueryID : uuid;
  ts_Query : string;
  ts_Schedule : string;
  ts_SpaceID : uuid;
  ts_WorkItemTypeID : uuid;
}.
Definition literal_of (v : gval) : literal :=
  match v with
  | VFloat64 f => LFloat64 f | VInt z => LInt z | VInt64 z => LInt64 z | VUint z => LUint z | VUint64 z => LUint64 z
  | VString s => LString s | VBool b => LBool b | VUUID u => LUUID u | VStrings l => LStrings l
  | _ => LOther
  end.
Definition on_accounts {A} (m : acm A) : plm A := λ d,
  let '(r, t) := m (pl_accounts d) in
  (r, {| pl_app := pl_app d; pl_links := pl_links d; pl_areas := pl_areas d; pl_labels := pl_labels d; pl_accounts := t;
         pl_codebases := pl_codebases d |}).
Definition in_lists {A} (m : lsm A) : plm A := λ d,
  let '(r, l) := m {| ls_items := pl_wis d; ls_links := links_view d |} in
  (r, (on_items_of (λ _, (Ok tt, ls_items l)) d).2).

Section Importing.
Context {HO : UuidOps} (IsURL : string → bool).
Context (time_json : Z → string) (struct_json : string → option gval).
Context (Sprint : gval → string) (related : planner → related_rows).
Context (FormatShortest : float64 → string) (HasColumn : string → string → bool).
Context {RO : RowOrder} (selects : compiled → wi_db → selection) (ks ks' ks'' : list string).
(** The order in which a range visits the fields, and [json.Unmarshal] into a map. *)
Context (visit : flat → list (string * gval)) (Unmarshal : string → res (list (string * gval))).

(** The logins and their profiles side by side; ids are drawn by the place in the list. *)
Fixpoint lookup_assignees (now : Time) (newID : nat → uuid) (i : nat) (logins urls : list string) (provider : string)
    : plm (list string) :=
  match logins with
  | [] => s_ret []
  | login :: logins =>
      match urls with
      | [] => s_query (λ _, Panic "index out of range")
      | url :: urls =>
          let* identity := on_accounts (identity_Lookup now (newID i) login url provider) in
          let* l := lookup_assignees now newID (S i) logins urls provider in
          s_ret (uuid_String (id_ID identity) :: l)
      end
  end.
Definition as_strings (v : gval) : res (list string) := match v with VStrings l => Ok l | _ => Panic bad_assertion end.
(** One field of what was fetched: a field of the item, or nothing. *)
Definition set_remote_field (now : Time) (newID : nat → uuid) (remote : flat) (provider : string) (e : string * gval) (m : Fields)
    : plm Fields :=
  if String.eqb e.1 remoteCreatorLogin then
    match e.2 with
    | VNil => s_ret (<[SystemCreator := VNil]> m)
    | v =>
        let* creatorLogin := s_query (λ _, as_string (Some v)) in
        let* creatorProfileURL := s_query (λ _, as_string (remote !! remoteCreatorProfileURL)) in
        let* identity := s_map (wrapf "failed to create identity during lookup")
                           (on_accounts (identity_Lookup now (newID 0%nat) creatorLogin creatorProfileURL provider)) in
        s_ret (<[SystemCreator := VString (uuid_String (id_ID identity))]> m)
    end
  else if String.eqb e.1 remoteCreatorProfileURL then s_ret m
  else if String.eqb e.1 RemoteAssigneeLogins then
    match e.2 with
    | VNil => s_ret (<[SystemAssignees := VStrings []]> m)
    | v =>
        let* assigneeLogins := s_query (λ _, as_strings v) in
        let* assigneeProfileURLs := s_query (λ _, as_strings (item_Get remote RemoteAssigneeProfileURLs)) in
        let* identities := lookup_assignees now newID 1 assigneeLogins assigneeProfileURLs provider in
        s_ret (<[SystemAssignees := VStrings identities]> m)
    end
  else if String.eqb e.1 RemoteAssigneeProfileURLs then s_ret m
  else s_ret (<[e.1 := e.2]> m).
Fixpoint set_remote_fields (now : Time) (newID : nat → uuid) (remote : flat) (provider : string) (l : list (string * gval)) (m : Fields)
    : plm Fields :=
  match l with
  | [] => s_ret m
  | e :: l => let* m := set_remote_field now newID remote provider e m in set_remote_fields now newID remote provider l m
  end.
Definition setWorkItemFields (now : Time) (newID : nat → uuid) (remote : flat) (tq : TrackerSchedule) : plm WorkItem :=
  let* m := set_remote_fields now newID remote (ts_TrackerType tq) (visit remote) ∅ in
  let m := if String.eqb (ts_TrackerType tq) ProviderGithub then <[remoteItemURL := fld m remoteItemID]> m else m in
  s_ret {| w_ID := uuid_Nil; w_Number := 0; w_Type := ts_WorkItemTypeID tq; w_Version := 0; w_SpaceID := ts_SpaceID tq;
           w_Fields := <[SystemRemoteTrackerID := VString (uuid_String (ts_TrackerQueryID tq))]> m;
           w_relationShipsChangedAt := None |}.

(** The fields that were fetched over those there are. *)
Definition merged (existing : WorkItem) (fetched : Fields) : WorkItem :=
  {| w_ID := w_ID existing; w_Number := w_Number existing; w_Type := w_Type existing; w_Version := w_Version existing;
     w_SpaceID := w_SpaceID existing; w_Fields := fetched ∪ w_Fields existing;
     w_relationShipsChangedAt := w_relationShipsChangedAt existing |}.
Definition creator_in (m : Fields) : res uuid :=
  match fld m SystemCreator with
  | VNil => Ok uuid_Nil
  | v => s ← as_string (Some v);
         match uuid_FromString s with
         | Some u => Ok u
         | None => Err (Wrapped "failed to convert creator id into a UUID: %s" (Plain "uuid: incorrect UUID"))
         end
  end.
Definition by_remote_id (v : gval) : Expression := Equals (Field SystemRemoteItemID) (Literal (literal_of v)).
Definition fetch_imported (spaceID : uuid) (remoteID : gval) : plm (option WorkItem) :=
  in_lists (wi_Fetch time_json struct_json FormatShortest HasColumn selects ks ks' ks'' spaceID (by_remote_id remoteID)).
Definition upsert (now : Time) (newID : uuid) (workItem : WorkItem) : plm WorkItem :=
  let* existing := s_map with_stack (fetch_imported (w_SpaceID workItem) (fld (w_Fields workItem) SystemRemoteItemID)) in
  let* creator := s_query (λ _, creator_in (w_Fields workItem)) in
  match existing with
  | Some existing =>
      let* r := s_map with_stack (λ d, on_items_of (WorkItems.Save IsURL time_json struct_json Sprint (related d) now
                  (w_SpaceID existing) (merged existing (w_Fields workItem)) creator) d) in
      s_ret r.1
  | None =>
      let* r := s_map with_stack (on_items_of (WorkItems.Create IsURL time_json struct_json now newID (w_SpaceID workItem)
                  (w_Type workItem) (w_Fields workItem) creator)) in
      s_ret r.1
  end.
(** The ids that are drawn: of the item, and of the identities by their places. *)
Definition ConvertToWorkItemModel (now : Time) (newID : uuid) (newIDs : nat → uuid) (item : TrackerItemContent) (tq : TrackerSchedule)
    : plm WorkItem :=
  let* _ := s_query (λ _, if supported (ts_TrackerType tq) then Ok tt
                          else Err (bad_tracker (ts_TrackerType tq) (ts_TrackerType tq))) in
  let* issue := s_map (replace_err (package_error " Error parsing the tracker data: %s"))
                  (s_query (λ _, NewRemoteWorkItem Unmarshal (tc_Content item))) in
  let* remote := s_map (replace_err (package_error "Error mapping to local work item: %s"))
                   (s_query (λ _, Map issue (RemoteWorkItemKeyMaps (ts_TrackerType tq)))) in
  let* workItem := s_map (replace_err (package_error "Error bind assignees: %s")) (setWorkItemFields now newIDs remote tq) in
  upsert now newID workItem.

(** ** A job *)

(** [models.Transactional] does not recover: a panic ends the job, and what the transaction did is never committed. *)
Definition Transactional_item {A} (todo : tkm A) (d : tracking) : res A * tracking :=
  match todo d with
  | (Ok a, d') => (Ok a, d')
  | (r, _) => (r, d)
  end.
Definition import_item (now : Time) (next : Z) (newID : uuid) (newIDs : nat → uuid) (tq : TrackerSchedule) (item : TrackerItemContent)
    : tkm unit :=
  let* _ := s_map with_stack (Upload now next (ts_TrackerID tq) item) in
  let* _ := s_map with_stack (in_planner (ConvertToWorkItemModel now newID newIDs item tq)) in
  s_ret tt.
(** What an import draws from the clock, the sequences and the generators of ids. *)
Record draws := { dr_now : Time; dr_next : Z; dr_newID : uuid; dr_newIDs : nat → uuid }.
(** One transaction for each item; the errors are dropped. *)
Fixpoint import_items (tq : TrackerSchedule) (items : list (draws * TrackerItemContent)) (d : tracking) : res unit * tracking :=
  match items with
  | [] => (Ok tt, d)
  | (x, item) :: items =>
      match Transactional_item (import_item (dr_now x) (dr_next x) (dr_newID x) (dr_newIDs x) tq item) d with
      | (Panic m, d) => (Panic m, d)
      | (_, d) => import_items tq items d
      end
  end.
End Importing.

(** ** Where the items come from *)

Inductive TrackerProvider :=
  | GithubTracker (URL Query : string)
  | JiraTracker (URL Query : string).
Definition lookupProvider (ts : TrackerSchedule) : option TrackerProvider :=
  if String.eqb (ts_TrackerType ts) ProviderGithub then Some (GithubTracker (ts_URL ts) (ts_Query ts))
  else if String.eqb (ts_TrackerType ts) ProviderJira then Some (JiraTracker (ts_URL ts) (ts_Query ts))
  else None.

Section Fetch.
(** The clients: a page of the issues GitHub finds, each as the JSON of its address and of itself, with the number of the next
    page, zero after the last one, or an error; whether there is a client for the address of a Jira; the keys of the issues Jira
    finds, none on an error; the JSON of an issue, null when it cannot be had. *)
Context (github_listIssues : string → string → Z → option (list (string * string) * Z)).
Context (jira_NewClient : string → bool).
Context (jira_listIssues : string → string → list string) (jira_getIssue : string → string → string).
(** [json.Marshal] of a key *)
Context (marshal_key : string → string).

Definition content_of (e : string * string) : TrackerItemContent := {| tc_ID := e.1; tc_Content := e.2 |}.
(** [None]: the fuel is used up. *)
Fixpoint github_fetch (fuel : nat) (token query : string) (page : Z) : option (list TrackerItemContent) :=
  match fuel with
  | O => None
  | S fuel =>
      match github_listIssues token query page with
      | None => Some []
      | Some (issues, next) =>
          if next =? 0 then Some (map content_of issues)
          else match github_fetch fuel token query next with
               | Some l => Some (map content_of issues ++ l)
               | None => None
               end
      end
  end.
Definition jira_fetch (URL query : string) : list TrackerItemContent :=
  map (λ key, {| tc_ID := marshal_key key; tc_Content := jira_getIssue URL key |}) (jira_listIssues URL query).
(** Without a client the goroutine follows a nil pointer, which nobody recovers. *)
Definition Fetch (fuel : nat) (token : string) (p : TrackerProvider) : option (res (list TrackerItemContent)) :=
  match p with
  | GithubTracker _ query => Ok <$> github_fetch fuel token query 0
  | JiraTracker URL query => Some (if jira_NewClient URL then Ok (jira_fetch URL query) else Panic nil_pointer)
  end.

(** The pages one after the other, from [page] on. *)
Inductive pages (token query : string) : Z → list (list (string * string)) → Prop :=
  | pages_error page : github_listIssues token query page = None → pages token query page []
  | pages_last page issues : github_listIssues token query page = Some (issues, 0) → pages token query page [issues]
  | pages_more page next issues l : github_listIssues token query page = Some (issues, next) → next ≠ 0 →
      pages token query next l → pages token query page (issues :: l).
(** The loop fetches every page once, in their order, when there is a last one; else it does not end. *)
Lemma github_fetch_pages token query page l : pages token query page l →
  github_fetch (S (length l)) token query page = Some (map content_of (concat l)).
Proof.
  clear. induction 1 as [page H|page issues H|page next issues l H Hn _ IH]; cbn [github_fetch length] in *.
  - by rewrite H.
  - rewrite H. cbn [Z.eqb concat]. by rewrite app_nil_r.
  - rewrite H, (proj2 (Z.eqb_neq _ _) Hn), IH. cbn [concat]. by rewrite map_app.
Qed.
Lemma github_fetch_some fuel token query : ∀ page l, github_fetch fuel token query page = Some l →
  ∃ ps, pages token query page ps ∧ l = map content_of (concat ps).
Proof.
  clear. induction fuel as [|fuel IH]; intros page l H; [done|]. cbn [github_fetch] in H.
  destruct (github_listIssues token query page) as [[issues next]|] eqn:E.
  - destruct (Z.eqb_spec next 0) as [->|Hn].
    + injection H as <-. exists [issues]. split; [by constructor|]. cbn [concat]. by rewrite app_nil_r.
    + destruct (github_fetch fuel token query next) as [l'|] eqn:EF; [|done]. injection H as <-.
      destruct (IH _ _ EF) as (ps & Hps & ->). exists (issues :: ps). split; [by econstructor|]. cbn [concat]. by rewrite map_app.
  - injection H as <-. exists []. split; [by constructor|done].
Qed.
End Fetch.

(** ** The jobs *)

(** Without a tracker its columns are blank. *)
Definition schedule_of (q : TrackerQuery) (t : option Tracker) : TrackerSchedule :=
  {| ts_TrackerID := match t with Some t => tr_ID t | None => uuid_Nil end;
     ts_URL := match t with Some t => tr_URL t | None => "" end;
     ts_TrackerType := match t with Some t => tr_Type t | None => "" end;
     ts_TrackerQueryID := tq_ID q; ts_Query := tq_Query q; ts_Schedule := tq_Schedule q; ts_SpaceID := tq_SpaceID q;
     ts_WorkItemTypeID := tq_WorkItemTypeID q |}.
(** [LEFT JOIN] on the tracker, which is the row with the id. *)
Definition fetchTrackerQueries (d : tracking) : list TrackerSchedule :=
  omap (λ q, let t := List.find (has_ID (tq_TrackerID q)) (trackers d) in
             if row_live q && match t with Some t => row_live t | None => true end then Some (schedule_of q t) else None)
    (tracker_queries d).

(** A job closes over the variable of the loop, not over its value: [ce_variable] says where it is. *)
Record cron_entry := { ce_Schedule : string; ce_variable : nat; ce_accessTokens : gmap string string }.
Record scheduler := { sc_variables : list TrackerSchedule; sc_entries : list cron_entry; sc_running : bool }.
Section Scheduler.
(** Whether the text of a schedule can be parsed; the error is dropped. *)
Context (parses : string → bool).

Definition AddFunc (e : cron_entry) (s : scheduler) : scheduler :=
  if parses (ce_Schedule e)
  then {| sc_variables := sc_variables s; sc_entries := sc_entries s ++ [e]; sc_running := sc_running s |} else s.
Definition assign (v : nat) (tq : TrackerSchedule) (s : scheduler) : scheduler :=
  {| sc_variables := <[v := tq]> (sc_variables s); sc_entries := sc_entries s; sc_running := sc_running s |}.
Definition set_running (b : bool) (s : scheduler) : scheduler :=
  {| sc_variables := sc_variables s; sc_entries := sc_entries s; sc_running := b |}.
Definition new_variable (s : scheduler) : scheduler :=
  {| sc_variables := sc_variables s ++ [schedule_of {| tq_Lifecycle := stamped {| instant := 0; representation := 0 |}; tq_ID := uuid_Nil;
       tq_Query := ""; tq_Schedule := ""; tq_TrackerID := uuid_Nil; tq_SpaceID := uuid_Nil; tq_WorkItemTypeID := uuid_Nil |} None];
     sc_entries := sc_entries s; sc_running := sc_running s |}.
Fixpoint schedule_all (v : nat) (accessTokens : gmap string string) (l : list TrackerSchedule) (s : scheduler) : scheduler :=
  match l with
  | [] => s
  | tq :: l =>
      schedule_all v accessTokens l
        (AddFunc {| ce_Schedule := ts_Schedule tq; ce_variable := v; ce_accessTokens := accessTokens |} (assign v tq s))
  end.
Definition ScheduleAllQueries (d : tracking) (accessTokens : gmap string string) (s : scheduler) : scheduler :=
  set_running true (schedule_all (length (sc_variables s)) accessTokens (fetchTrackerQueries d) (new_variable (set_running false s))).
(** The query a job runs, and the token it takes along. *)
Definition query_of (s : scheduler) (e : cron_entry) : option TrackerSchedule := sc_variables s !! ce_variable e.
Definition authToken (e : cron_entry) (tq : TrackerSchedule) : string := default "" (ce_accessTokens e !! ts_TrackerType tq).
End Scheduler.

Section Job.
Context {HO : UuidOps} (IsURL : string → bool).
Context (time_json : Z → string) (struct_json : string → option gval).
Context (Sprint : gval → string) (related : planner → related_rows).
Context (FormatShortest : float64 → string) (HasColumn : string → string → bool).
Context {RO : RowOrder} (selects : compiled → wi_db → selection) (ks ks' ks'' : list string).
Context (visit : flat → list (string * gval)) (Unmarshal : string → res (list (string * gval))).
Context (github_listIssues : string → string → Z → option (list (string * string) * Z)).
Context (jira_NewClient : string → bool) (jira_listIssues : string → string → list string).
Context (jira_getIssue : string → string → string) (marshal_key : string → string).

(** What is fetched is imported as it comes; a provider that is not known is a nil interface. *)
Definition run_job (fuel : nat) (draw : nat → draws) (s : scheduler) (e : cron_entry) (d : tracking) : option (res unit * tracking) :=
  match query_of s e with
  | None => None
  | Some tq =>
      match lookupProvider tq with
      | None => Some (Panic nil_pointer, d)
      | Some p =>
          match Fetch github_listIssues jira_NewClient jira_listIssues jira_getIssue marshal_key fuel (authToken e tq) p with
          | None => None
          | Some (Err e) => Some (Err e, d)
          | Some (Panic m) => Some (Panic m, d)
          | Some (Ok items) =>
              Some (import_items IsURL time_json struct_json Sprint related FormatShortest HasColumn selects ks ks' ks'' visit Unmarshal
                      tq (imap (λ i item, (draw i, item)) items) d)
          end
      end
  end.
End Job.
