(* ===== verification/RemoteImport.v ===== *)
(** * What an import keeps

    A remote item is in a space at most once however often it is imported: the
    first import creates it, the later ones change it; and the jobs of a
    scheduler all run the last query. *)

From Stdlib Require Import ZArith Lia Ascii String SpecFloat.
From stdpp Require Import relations.
From S2P Require Import Errors Spaces Accounts LinkRepository TypeFacts WorkItemFacts WorkItemOrder IterationMoves Events.
From S2P Require Import CompilerFacts CompilerSafety WorkItemListFacts WorkItemRequests CsvWindows WorkItemExamples.
From S2P Require Export Trackers.
Import Transactions.

(** ** The expression an import looks for *)

#[local] Transparent DefaultTableJoins.
Lemma remote_id_unhandled :
  existsb (λ p, HandlesFieldName p.2 SystemRemoteItemID) (map_to_list DefaultTableJoins) = false.
Proof. by vm_compute. Qed.
#[local] Opaque DefaultTableJoins.
Lemma remote_id_handler ks : handler ks DefaultTableJoins SystemRemoteItemID = None.
Proof.
  destruct (handler _ _ _) as [k|] eqn:E; [|done]. apply handler_Some in E as (_ & j & Hj & HH).
  pose proof remote_id_unhandled as HU. apply not_true_iff_false in HU. destruct HU. apply existsb_exists. exists (k, j).
  by rewrite <- list_elem_of_In, elem_of_map_to_list.
Qed.
Lemma remote_id_in_json ks : getFieldName ks DefaultTableJoins SystemRemoteItemID = (SystemRemoteItemID, true).
Proof. unfold getFieldName. by rewrite remote_id_handler. Qed.
(** An id that cannot be written into the clause is an error. *)
Lemma other_id_refused {HO : UuidOps} Fmt ks ks' ks'' v : literal_of v = LOther →
  errors (Compile Fmt ks ks' ks'' (by_remote_id v)) ≠ [].
Proof.
  intros Hv. unfold Compile, accept, by_remote_id. cbn [annotated]. rewrite remote_id_in_json. cbn [snd orb].
  unfold expressionRefersToJoinedData. cbn [joins newExpressionCompiler]. rewrite remote_id_handler.
  unfold visit_binary, visit_Field. rewrite (eq_refl : Contains SystemRemoteItemID dquote = false),
    (eq_refl : Contains SystemRemoteItemID "'" = false).
  cbn [joins newExpressionCompiler]. rewrite remote_id_in_json, remote_id_handler, Hv. cbn [negb].
  rewrite (eq_refl : Contains SystemRemoteItemID "'" = false). unfold visit_Literal. cbn [convertToString add_err joins newExpressionCompiler].
  by destruct (GetOrderdActivatedJoins ks' ks'' DefaultTableJoins) as [[out js]|e|m].
Qed.

(** ** Rows and remote ids *)

Definition remote_id (w : WorkItemStorage) : option string :=
  match fld (s_Fields w) SystemRemoteItemID with VString x => Some x | _ => None end.
(** The field is there in every type, for everybody to write, as a text. *)
Definition remote_field (t : WorkItemType) : Prop :=
  NoDup (t_Fields t).*1 ∧ ∃ def st, (SystemRemoteItemID, def) ∈ t_Fields t ∧ ReadOnly def = false ∧ Type_ def = FSimple st ∧ kind st = KindString.
(** Characters that stand for themselves in the text of a clause. *)
Definition plain_id (x : string) : Prop := "'"%char ∉ chars x ∧ "\"%char ∉ chars x ∧ ascii_of_nat 34 ∉ chars x.

Lemma column_forth {HO : UuidOps} time_json struct_json m f k v : column time_json struct_json m = Some f → m !! k = Some v → f !! k = in_json time_json struct_json v.
Proof.
  unfold WorkItems.column. destruct (mapM _ _) as [l|] eqn:E; [|done]. intros [= <-] H.
  apply mapM_Some_1 in E. apply elem_of_map_to_list in H. pose proof (NoDup_fst_map_to_list m) as Hn.
  revert H Hn. generalize dependent (map_to_list m). intros l0 E. induction E as [|[k0 v0] y l0 l Hy _ IH]; [by intros ?%elem_of_nil|].
  cbn in Hy. destruct (in_json _ _ v0) as [w|] eqn:Ej; [|done]. injection Hy as <-. rewrite list_to_map_cons. cbn [fmap list_fmap fst].
  intros [[= <- <-]|H]%elem_of_cons [Hk Hn]%NoDup_cons.
  - rewrite Ej. apply lookup_insert_eq.
  - rewrite lookup_insert_ne; [by apply IH|]. intros ->. apply Hk, list_elem_of_fmap. by exists (k, v).
Qed.

Section Fields_.
Context {HO : UuidOps} (IsURL : string → bool).

Lemma remote_field_unique t def : remote_field t → (SystemRemoteItemID, def) ∈ t_Fields t →
  ReadOnly def = false ∧ ∃ st, Type_ def = FSimple st ∧ kind st = KindString.
Proof.
  intros (Hn & def' & st & Hin & Hr & Hst & Hk) Hd.
  assert (def = def') as ->; [|by eauto].
  revert Hn Hin Hd. generalize (t_Fields t) as l. induction l as [|[k v] l IH]; [by intros _ ?%elem_of_nil|].
  cbn [fmap list_fmap fst]. intros [Hk' Hn]%NoDup_cons H1%elem_of_cons H2%elem_of_cons.
  assert (Hno : ∀ d, (k, d) ∈ l → False) by (intros d Hd; apply Hk', list_elem_of_fmap; by exists (k, d)).
  naive_solver.
Qed.
(** A text field stores a text as it is, and no other value of JSON as a text. *)
Lemma text_stored def st v s : Type_ def = FSimple st → kind st = KindString → literal_of v ≠ LOther →
  FieldDefinition_ConvertToModel IsURL def SystemRemoteItemID v = Ok s → s = v ∧ ∃ x, v = VString x.
Proof.
  intros Hst Hk Hv. unfold FieldDefinition_ConvertToModel. intros (? & _ & H)%bind_ok. unfold ConvertToModel in H.
  rewrite Hst in H. unfold SimpleType_ConvertToModel in H. rewrite Hk in H.
  destruct v; try done; cbn in H; try done; injection H as <-; by eauto.
Qed.
(** The remote id is stored as the text that was given. *)
Lemma store_field_text t name def fields m m' : remote_field t → (name, def) ∈ t_Fields t →
  literal_of (fld fields SystemRemoteItemID) ≠ LOther →
  store_field IsURL name def (fld fields name) m = Ok m' →
  (name ≠ SystemRemoteItemID ∧ m' !! SystemRemoteItemID = m !! SystemRemoteItemID) ∨
  (name = SystemRemoteItemID ∧ m' !! SystemRemoteItemID = Some (fld fields SystemRemoteItemID) ∧ ∃ x, fld fields SystemRemoteItemID = VString x).
Proof.
  intros Ht Hin Hv H. unfold store_field in H. apply bind_ok in H as (v1 & Hv1%replace_err_ok & [= <-]).
  destruct (decide (name = SystemRemoteItemID)) as [->|Hne]; [right|left; by rewrite lookup_insert_ne].
  destruct (remote_field_unique t def Ht Hin) as (_ & st & Hst & Hk). apply (text_stored _ _ _ _ Hst Hk Hv) in Hv1 as [-> Hx].
  by rewrite lookup_insert_eq.
Qed.
Section OfType.
Context (t : WorkItemType) (Ht : remote_field t) (fields : Fields) (Hv : literal_of (fld fields SystemRemoteItemID) ≠ LOther).
(** Over a part of the fields: the id is what it was as long as its field was not met. *)
Definition done_text (met : Prop) (m0 m : Fields) : Prop :=
  (met ∧ m !! SystemRemoteItemID = Some (fld fields SystemRemoteItemID) ∧ ∃ x, fld fields SystemRemoteItemID = VString x) ∨
  (¬ met ∧ m !! SystemRemoteItemID = m0 !! SystemRemoteItemID).
Lemma not_a_list def st : Type_ def = FSimple st → kind st = KindString → GetKind (Type_ def) = KindString.
Proof. by intros ->. Qed.
Lemma update_fields_remote defs : ∀ m m', (∀ e, e ∈ defs → e ∈ t_Fields t) → NoDup defs.*1 →
  update_fields IsURL empty_list defs fields m = Ok m' → done_text (SystemRemoteItemID ∈ defs.*1) m m'.
Proof.
  induction defs as [|[name def] defs IH]; intros m m' Hin Hn H; cbn [update_fields] in H.
  { injection H as <-. right. split; [apply not_elem_of_nil|done]. }
  cbn [fmap list_fmap fst] in *. apply NoDup_cons in Hn as [Hname Hn].
  assert (Hin' : ∀ e, e ∈ defs → e ∈ t_Fields t) by (intros e He; apply Hin; by right).
  assert (Hd : (name, def) ∈ t_Fields t) by (apply Hin; by left).
  unfold done_text. rewrite elem_of_cons.
  assert (Hskip : ∀ m1, update_fields IsURL empty_list defs fields m1 = Ok m' →
    name ≠ SystemRemoteItemID → m1 !! SystemRemoteItemID = m !! SystemRemoteItemID → 
    ((SystemRemoteItemID = name ∨ SystemRemoteItemID ∈ defs.*1) ∧ m' !! SystemRemoteItemID = Some (fld fields SystemRemoteItemID)
       ∧ ∃ x, fld fields SystemRemoteItemID = VString x)
    ∨ (¬ (SystemRemoteItemID = name ∨ SystemRemoteItemID ∈ defs.*1) ∧ m' !! SystemRemoteItemID = m !! SystemRemoteItemID)).
  { intros m1 H1 Hne Hm1. destruct (IH m1 m' Hin' Hn H1) as [(? & ? & ?)|(? & ?)]; [left|right]; naive_solver congruence. }
  destruct (decide (name = SystemRemoteItemID)) as [->|Hne].
  - destruct (remote_field_unique t def Ht Hd) as (Hro & st & Hst & Hk). rewrite Hro in H.
    unfold empty_list in H at 1. rewrite (not_a_list def st Hst Hk) in H. cbn [bool_decide andb] in H.
    rewrite bool_decide_false in H by done. cbn [andb] in H.
    apply bind_ok in H as (m1 & H1 & H). destruct (store_field_text t _ _ _ _ _ Ht Hd Hv H1) as [[? _]|(_ & E & Hx)]; [done|].
    left. split; [by left|]. split; [|done]. destruct (IH m1 m' Hin' Hn H) as [(Hm & _)|(_ & ->)]; [done|done].
  - destruct (ReadOnly def); [by apply (Hskip m)|]. destruct (empty_list _ _).
    + apply (Hskip (delete name m)); [done..|]. by rewrite lookup_delete_ne.
    + apply bind_ok in H as (m1 & H1 & H). apply (Hskip m1); [done..|].
      destruct (store_field_text t _ _ _ _ _ Ht Hd Hv H1) as [[_ ?]|(? & _)]; done.
Qed.
Lemma create_fields_remote defs : ∀ m m', (∀ e, e ∈ defs → e ∈ t_Fields t) → NoDup defs.*1 →
  create_fields IsURL defs fields m = Ok m' → done_text (SystemRemoteItemID ∈ defs.*1) m m'.
Proof.
  induction defs as [|[name def] defs IH]; intros m m' Hin Hn H; cbn [create_fields] in H.
  { injection H as <-. right. split; [apply not_elem_of_nil|done]. }
  cbn [fmap list_fmap fst] in *. apply NoDup_cons in Hn as [Hname Hn].
  assert (Hin' : ∀ e, e ∈ defs → e ∈ t_Fields t) by (intros e He; apply Hin; by right).
  assert (Hd : (name, def) ∈ t_Fields t) by (apply Hin; by left).
  unfold done_text. rewrite elem_of_cons.
  destruct (decide (name = SystemRemoteItemID)) as [->|Hne].
  - destruct (remote_field_unique t def Ht Hd) as (Hro & st & Hst & Hk). rewrite Hro in H.
    apply bind_ok in H as (m1 & H1 & H). rewrite (not_a_list def st Hst Hk) in H. rewrite bool_decide_false in H by done. cbn [andb] in H.
    apply bind_ok in H as (u & _ & H).
    destruct (store_field_text t _ _ _ _ _ Ht Hd Hv H1) as [[? _]|(_ & E & Hx)]; [done|].
    left. split; [by left|]. split; [|done]. destruct (IH m1 m' Hin' Hn H) as [(Hm & _)|(_ & ->)]; [done|done].
  - assert (Hskip : ∀ m1, create_fields IsURL defs fields m1 = Ok m' → m1 !! SystemRemoteItemID = m !! SystemRemoteItemID → 
      ((SystemRemoteItemID = name ∨ SystemRemoteItemID ∈ defs.*1) ∧ m' !! SystemRemoteItemID = Some (fld fields SystemRemoteItemID)
         ∧ ∃ x, fld fields SystemRemoteItemID = VString x)
      ∨ (¬ (SystemRemoteItemID = name ∨ SystemRemoteItemID ∈ defs.*1) ∧ m' !! SystemRemoteItemID = m !! SystemRemoteItemID)).
    { intros m1 H1 Hm1. destruct (IH m1 m' Hin' Hn H1) as [(? & ? & ?)|(? & ?)]; [left|right]; naive_solver congruence. }
    destruct (ReadOnly def); [by apply (Hskip m)|].
    apply bind_ok in H as (m1 & H1 & H). apply bind_ok in H as (u & _ & H).
    destruct (store_field_text t _ _ _ _ _ Ht Hd Hv H1) as [[_ E]|(? & _)]; [|done].
    destruct (_ && _); (apply (Hskip _ H)); [by rewrite lookup_delete_ne|done].
Qed.
End OfType.
End Fields_.

Section Items.
Context {HO : UuidOps} (IsURL : string → bool).
Context (time_json : Z → string) (struct_json : string → option gval).
Context (Sprint : gval → string).
Notation Create := (WorkItems.Create IsURL time_json struct_json).
Notation coherent := (coherent time_json struct_json).
Notation load_row := (load_row time_json struct_json).

Definition typed (d : wi_db) : Prop :=
  coherent (types d) ∧ ∀ id t, load_row (tdb (types d)) id = Ok t → remote_field t.
Lemma typed_Load d id t d' : typed d → on_types (WorkItemTypes.Load time_json struct_json id) d = (Ok t, d') → remote_field t.
Proof.
  intros [Hc Ht] H. destruct (on_types_Load time_json struct_json id d Hc) as (d1 & E & _). rewrite E in H.
  injection H as H _. by eapply Ht.
Qed.
Lemma typed_kept d d' : tdb (types d') = tdb (types d) ∧ coherent (types d') → typed d → typed d'.
Proof. intros [E Hc] [_ Ht]. split; [done|]. by rewrite E. Qed.
Lemma convert_ID t w x : ConvertWorkItemStorageToModel t w = Ok x → w_ID x = s_ID w.
Proof.
  unfold ConvertWorkItemStorageToModel. intros (y & H%replace_err_ok & [= <-])%bind_ok.
  unfold WorkItemType_ConvertWorkItemStorageToModel in H. by apply bind_ok in H as (m & _ & [= <-]).
Qed.
Lemma fields_of_remote t : remote_field t → SystemRemoteItemID ∈ (t_Fields t).*1.
Proof. intros (_ & def & st & Hin & _). apply list_elem_of_fmap. by exists (SystemRemoteItemID, def). Qed.
Lemma fld_known m k : literal_of (fld m k) ≠ LOther → m !! k = Some (fld m k).
Proof. unfold fld. by destruct (m !! k). Qed.
Lemma column_text m f x : column time_json struct_json m = Some f → m !! SystemRemoteItemID = Some (VString x) →
  fld f SystemRemoteItemID = VString x.
Proof. intros Hf Hm. pose proof (column_forth _ _ _ _ _ _ Hf Hm) as E. cbn in E. unfold fld. by rewrite E. Qed.

(** The fields of a row after what was fetched was saved over what was there: a fetched value is stored as its field stores
    it, and a text that was not fetched stays. *)
Definition kept_columns : list string := [SystemCreatedAt; SystemUpdatedAt; SystemOrder; SystemNumber].
Definition written (t : WorkItemType) (fetched : Fields) (w new : WorkItemStorage) : Prop :=
  (∀ k def v, (k, def) ∈ t_Fields t → ReadOnly def = false → fetched !! k = Some v → empty_list def v = false →
     ∃ v', FieldDefinition_ConvertToModel IsURL def k v = Ok v' ∧ s_Fields new !! k = in_json time_json struct_json v') ∧
  (∀ k def st x, (k, def) ∈ t_Fields t → ReadOnly def = false → Type_ def = FSimple st → kind st = KindString →
     k ∉ kept_columns → fetched !! k = None → fld (s_Fields w) k = VString x → s_Fields new !! k = Some (VString x)).
Lemma update_fields_stored fields defs : ∀ m m', NoDup defs.*1 → update_fields IsURL empty_list defs fields m = Ok m' →
  (∀ k, k ∉ defs.*1 → m' !! k = m !! k) ∧
  ∀ k def, (k, def) ∈ defs → ReadOnly def = false → empty_list def (fld fields k) = false →
    ∃ v, FieldDefinition_ConvertToModel IsURL def k (fld fields k) = Ok v ∧ m' !! k = Some v.
Proof.
  clear. induction defs as [|[n d] defs IH]; intros m m' Hn H; cbn [update_fields] in H.
  { injection H as <-. split; [done|]. by intros k def ?%elem_of_nil. }
  cbn [fmap list_fmap fst] in *. apply NoDup_cons in Hn as [Hk Hn].
  assert (Hother : ∀ k def, (k, def) ∈ defs → k ≠ n).
  { intros k def Hin ->. apply Hk, list_elem_of_fmap. by exists (n, def). }
  assert (Hskip : ∀ m1, update_fields IsURL empty_list defs fields m1 = Ok m' → (∀ k, k ≠ n → m1 !! k = m !! k) →
    (ReadOnly d = false → empty_list d (fld fields n) = false →
       ∃ v, FieldDefinition_ConvertToModel IsURL d n (fld fields n) = Ok v ∧ m1 !! n = Some v) →
    (∀ k, k ∉ n :: defs.*1 → m' !! k = m !! k) ∧
    ∀ k def, (k, def) ∈ (n, d) :: defs → ReadOnly def = false → empty_list def (fld fields k) = false →
      ∃ v, FieldDefinition_ConvertToModel IsURL def k (fld fields k) = Ok v ∧ m' !! k = Some v).
  { intros m1 H1 Hm Hd. destruct (IH m1 m' Hn H1) as [I1 I2]. split.
    - intros k [Hkn Hkd]%not_elem_of_cons. by rewrite I1, Hm.
    - intros k def [[= -> ->]|Hin]%elem_of_cons Hr He; [|by apply I2].
      destruct (Hd Hr He) as (v & Hv & E). exists v. split; [done|]. by rewrite I1. }
  destruct (ReadOnly d) eqn:ER; [by apply (Hskip m)|]. destruct (empty_list d _) eqn:EL.
  - apply (Hskip (delete n m)); [done| |done]. intros k Hne. by rewrite lookup_delete_ne.
  - apply bind_ok in H as (m1 & H1 & H). unfold store_field in H1. apply bind_ok in H1 as (v & Hv%replace_err_ok & [= <-]).
    apply (Hskip _ H); [intros k Hne; by rewrite lookup_insert_ne|]. intros _ _. exists v. by rewrite lookup_insert_eq.
Qed.
Lemma find_other_key (key : string) (defs : FieldDefinitions) : key ∉ defs.*1 →
  List.find (λ p : string * FieldDefinition, String.eqb p.1 key) defs = None.
Proof.
  clear. induction defs as [|[n d] defs IH]; [done|]. cbn [fmap list_fmap fst List.find]. intros [Hne H]%not_elem_of_cons.
  rewrite (proj2 (String.eqb_neq _ _)) by congruence. by apply IH.
Qed.
Lemma convert_fields_shown w key def st x : key ∉ kept_columns → Type_ def = FSimple st → kind st = KindString →
  fld (s_Fields w) key = VString x → ∀ defs acc m, NoDup defs.*1 → (key, def) ∈ defs → convert_fields w defs acc = Ok m →
  m !! key = Some (VString x).
Proof.
  clear. intros Hkey Hst Hk Hx defs. unfold kept_columns in Hkey. rewrite !not_elem_of_cons in Hkey. destruct Hkey as (K1 & K2 & K3 & K4 & _).
  assert (Hv : ∀ n, FieldDefinition_ConvertFromModel def n (VString x) = Ok (VString x)).
  { intros n. unfold FieldDefinition_ConvertFromModel, ConvertFromModel. rewrite Hst. unfold SimpleType_ConvertFromModel. by rewrite Hk. }
  induction defs as [|[n d] defs IH]; intros acc m Hn Hin H; [by apply elem_of_nil in Hin|].
  cbn [fmap list_fmap fst] in Hn. apply NoDup_cons in Hn as [Hnot Hn]. cbn in H.
  apply elem_of_cons in Hin as [[= <- <-]|Hin].
  - destruct (String.eqb_spec key SystemCreatedAt); [done|]. apply bind_ok in H as (v & Hv'%with_stack_ok & H). rewrite Hx, Hv in Hv'.
    injection Hv' as <-.
    assert (E : m !! key = (<[SystemOrder := VFloat64 (s_ExecutionOrder w)]> (<[key := VString x]> acc)) !! key).
    { eapply (convert_fields_keys w key defs); [done| |exact H]. apply find_other_key. exact Hnot. }
    rewrite E, lookup_insert_ne, lookup_insert_eq; done.
  - destruct (String.eqb n SystemCreatedAt); [by eapply IH|]. apply bind_ok in H as (v & _ & H). by eapply IH.
Qed.
Lemma shown_text t w x key def st text : NoDup (t_Fields t).*1 → (key, def) ∈ t_Fields t → Type_ def = FSimple st → kind st = KindString →
  key ∉ kept_columns → fld (s_Fields w) key = VString text → ConvertWorkItemStorageToModel t w = Ok x →
  w_Fields x !! key = Some (VString text).
Proof.
  clear. intros Hn Hin Hst Hk Hkey Hx H. unfold ConvertWorkItemStorageToModel in H. apply bind_ok in H as (y & H%replace_err_ok & [= <-]).
  unfold WorkItemType_ConvertWorkItemStorageToModel in H. apply bind_ok in H as (m & Hm & [= <-]). cbn [w_Fields].
  eapply convert_fields_shown in Hm; [|done..]. unfold kept_columns in Hkey. rewrite !not_elem_of_cons in Hkey.
  destruct Hkey as (K1 & K2 & K3 & K4 & _). repeat case_match; by rewrite ?lookup_insert_ne.
Qed.
Lemma written_merged t w x m mf f new : remote_field t → ConvertWorkItemStorageToModel t w = Ok x →
  update_fields IsURL empty_list (t_Fields t) (m ∪ w_Fields x) ∅ = Ok mf → column time_json struct_json mf = Some f →
  s_Fields new = f → written t m w new.
Proof.
  intros [Hn _] Hx HU Hf <-. apply update_fields_stored in HU as [_ HU]; [|done]. split.
  - intros k def v Hin Hr Hv He. assert (E : fld (m ∪ w_Fields x) k = v) by (unfold fld; by rewrite (lookup_union_Some_l _ _ _ _ Hv)).
    destruct (HU k def Hin Hr) as (v' & Hv' & Hm); [by rewrite E|]. rewrite E in Hv'. exists v'. split; [done|].
    by apply (column_forth time_json struct_json mf (s_Fields new) k v').
  - intros k def st text Hin Hr Hst Hk Hkey Hno Hx'. pose proof (shown_text _ _ _ _ _ _ _ Hn Hin Hst Hk Hkey Hx' Hx) as Hs.
    assert (E : fld (m ∪ w_Fields x) k = VString text) by (unfold fld; by rewrite lookup_union_r, Hs).
    destruct (HU k def Hin Hr) as (v' & Hv' & Hm).
    { rewrite E. unfold empty_list. rewrite (not_a_list def st Hst Hk). by rewrite bool_decide_false. }
    rewrite E in Hv'. apply (text_stored IsURL def st) in Hv' as [-> _]; [|done..].
    by apply (column_forth time_json struct_json mf (s_Fields new) k (VString text)).
Qed.

(** One item is written over: its row, and one revision. *)
Record overwritten (now : Time) (who : uuid) (fetched : Fields) (d d' : wi_db) (w new : WorkItemStorage) : Prop := {
  ow_old : w ∈ rows d;
  ow_live : s_live w = true;
  ow_rows : rows d' = map (replace_version (s_ID w) (s_Version w) new) (rows d);
  ow_revs : revs d' = revs d ++ [revision_of now who RevisionTypeUpdate new (s_Fields new)];
  ow_ID : s_ID new = s_ID w;
  ow_place : place new = place w;
  ow_version : s_Version new = wrap64 (s_Version w + 1);
  ow_still_live : s_live new = true;
  ow_fields : ∃ t, load_row (tdb (types d)) (s_Type w) = Ok t ∧ written t fetched w new;
}.
Lemma Save_imported related now w x m who d p d' : rows_unique d → typed d → w ∈ rows d → models w x →
  (∃ t, load_row (tdb (types d)) (s_Type w) = Ok t ∧ ConvertWorkItemStorageToModel t w = Ok x) →
  literal_of (fld m SystemRemoteItemID) ≠ LOther →
  Save IsURL time_json struct_json Sprint related now (w_SpaceID x) (merged x m) who d = (Ok p, d') →
  ∃ new y, overwritten now who m d d' w new ∧ fld m SystemRemoteItemID = VString y ∧ remote_id new = Some y ∧ w_ID p.1 = s_ID w.
Proof.
  intros [Hn Hpl] Hty Hw Hm (t0 & Ht0 & Hx) Hv H. unfold Save in H. apply s_bind_ok in H as ([old t] & d1 & H1 & H).
  pose proof H1 as H1'. apply loadWorkItemStorage_ok in H1 as (Hst & Hin & Hl & Hnum & Hsp). cbn [fst] in *.
  assert (old = w) as ->.
  { apply (unique_row place (rows d)); [done..|]. destruct Hm. unfold place. cbn in Hnum. congruence. }
  assert (t = t0) as ->.
  { unfold loadWorkItemStorage in H1'. stm_inv. match goal with H : on_types _ _ = (Ok ?t', _) |- _ => rename H into HT end.
    destruct (on_types_Load time_json struct_json (s_Type w) d (proj1 Hty)) as (d2 & E2 & _). rewrite HT in E2. congruence. }
  assert (Ht : remote_field t0) by (by eapply (proj2 Hty)).
  clear H1'. stm_inv. cbn [merged w_Version w_Type s_with s_Type w_Fields] in *.
  match goal with H : (if s_Version w =? _ then _ else _) = _ |- _ =>
    destruct (Z.eqb_spec (s_Version w) (w_Version x)) as [Hver|]; [|done] end.
  match goal with H : (if bool_decide _ then _ else _) _ = _ |- _ => rewrite bool_decide_true in H by (symmetry; apply Hm) end.
  stm_inv. cbn [s_with s_Fields s_ID w_Version] in *.
  match goal with H : update_row _ _ _ _ _ _ = _ |- _ => apply update_row_ok in H as (f & Hf & -> & ->) end.
  match goal with H : Revision_Create _ _ _ _ _ _ _ = _ |- _ => apply Revision_Create_ok in H as (f' & Hf' & ->) end.
  match goal with H : ConvertWorkItemStorageToModel _ (updated _ _ _) = _ |- _ => apply convert_ID in H as Hid end.
  match goal with H : update_fields _ _ _ _ _ = Ok ?m' |- _ => rename H into HU; rename m' into mf end.
  cbn [updated s_with s_Fields] in Hf, Hf'. rewrite Hf in Hf'. injection Hf' as <-.
  set (mm := m ∪ w_Fields x) in *.
  assert (Hmm : fld mm SystemRemoteItemID = fld m SystemRemoteItemID).
  { unfold fld, mm. by rewrite (lookup_union_Some_l _ _ _ _ (fld_known _ _ Hv)). }
  assert (Hv' : literal_of (fld mm SystemRemoteItemID) ≠ LOther) by (by rewrite Hmm).
  destruct (update_fields_remote IsURL _ Ht mm Hv' _ _ _ (λ e He, He) (proj1 Ht) HU) as [(_ & Hrm & y & Hy)|[[] _]];
    [|by apply fields_of_remote].
  destruct Hst as (Hr & Hvs & _).
  exists (updated now (s_with w (s_Lifecycle w) (s_Type w) (wrap64 (s_Version w + 1)) mf (s_ExecutionOrder w)) f), y.
  split; [|split_and!; [by rewrite <- Hmm| |exact Hid]].
  - split; cbn [set_revs set_rows rows revs]; rewrite ?Hr, ?Hvs; try done; [by rewrite Hver|].
    eexists. split; [exact Ht0|]. by eapply written_merged.
  - unfold remote_id. cbn [updated s_with s_Fields]. rewrite Hy in Hrm. by rewrite (column_text _ _ _ Hf Hrm).
Qed.
Lemma Create_imported now newID sp typeID m who d p d' : typed d → literal_of (fld m SystemRemoteItemID) ≠ LOther →
  Create now newID sp typeID m who d = (Ok p, d') →
  ∃ row y, creation now newID sp typeID who d d' row ∧ fld m SystemRemoteItemID = VString y ∧ remote_id row = Some y ∧ w_ID p.1 = s_ID row.
Proof.
  intros Hty Hv H. destruct (Create_effect _ _ _ _ _ _ _ _ _ _ _ _ H) as (row & C).
  unfold WorkItems.Create in H. stm_inv.
  match goal with H : on_types _ _ = _ |- _ => pose proof (typed_Load _ _ _ _ Hty H) as Ht; apply on_types_same in H as (Hr & _) end.
  match goal with H : NextVal _ _ = _ |- _ => apply NextVal_ok in H as [-> ->] end.
  match goal with H : insert_row _ _ _ _ = _ |- _ => apply insert_row_ok in H as (f & Hf & _ & _ & ->) end.
  match goal with H : Revision_Create _ _ _ _ _ _ _ = _ |- _ => apply Revision_Create_ok in H as (f' & _ & ->) end.
  match goal with H : ConvertWorkItemStorageToModel _ _ = _ |- _ => apply convert_ID in H as Hid end.
  pose proof (cr_rows _ _ _ _ _ _ _ _ C) as Hrows. cbn [set_revs set_rows set_sequences rows] in Hrows. rewrite Hr in Hrows.
  apply app_inv_head in Hrows. injection Hrows as <-.
  set (mm := <[SystemCreator := VString (uuid_String who)]> m) in *.
  assert (Hmm : fld mm SystemRemoteItemID = fld m SystemRemoteItemID) by (unfold fld, mm; by rewrite lookup_insert_ne by done).
  match goal with H : create_fields _ _ _ _ = Ok ?m' |- _ => rename H into HU; rename m' into mf end.
  assert (Hv' : literal_of (fld mm SystemRemoteItemID) ≠ LOther) by (by rewrite Hmm).
  destruct (create_fields_remote IsURL _ Ht mm Hv' _ _ _ (λ e He, He) (proj1 Ht) HU) as [(_ & Hf' & y & Hy)|[[] _]];
    [|by apply fields_of_remote].
  eexists _, y. split; [exact C|]. split; [by rewrite <- Hmm|]. split; [|exact Hid].
  unfold remote_id. cbn [s_with s_Fields] in *. rewrite Hy in Hf'. by rewrite (column_text _ _ _ Hf Hf').
Qed.
End Items.

(** ** One import *)

(** What an import may do to the items of the store. *)
Definition items_kept (d d' : planner) : Prop := pl_wis d' = pl_wis d.
#[local] Instance items_kept_refl : Reflexive items_kept.
Proof. done. Qed.
#[local] Instance items_kept_trans : Transitive items_kept.
Proof. intros d1 d2 d3. unfold items_kept. congruence. Qed.
Lemma on_accounts_keeps {A} (m : acm A) : keeps items_kept (on_accounts m).
Proof. intros d. unfold on_accounts. by destruct (m (pl_accounts d)). Qed.
#[local] Hint Resolve on_accounts_keeps items_kept_refl items_kept_trans : quiet.

Section Importing.
Context {HO : UuidOps} (IsURL : string → bool).
Context (time_json : Z → string) (struct_json : string → option gval).
Context (Sprint : gval → string) (related : planner → related_rows).
Context (FormatShortest : float64 → string) (HasColumn : string → string → bool).
Context {RO : RowOrder} (selects : compiled → wi_db → selection) (ks ks' ks'' : list string).
Context (visit : flat → list (string * gval)) (Unmarshal : string → res (list (string * gval))).
Notation coherent := (coherent time_json struct_json).
Notation typed := (typed time_json struct_json).
Notation wi_Fetch := (wi_Fetch time_json struct_json FormatShortest HasColumn selects ks ks' ks'').
Notation fetch_imported := (fetch_imported time_json struct_json FormatShortest HasColumn selects ks ks' ks'').
Notation upsert := (upsert IsURL time_json struct_json Sprint related FormatShortest HasColumn selects ks ks' ks'').
Notation import_items := (import_items IsURL time_json struct_json Sprint related FormatShortest HasColumn selects ks ks' ks'' visit Unmarshal).
Notation Compile_id v := (Compile FormatShortest ks ks' ks'' (by_remote_id v)).

(** The database selects the rows in which the field has the text. *)
Context (Hsel : ∀ x d times, plain_id x → selects (Compile_id (VString x)) d = Selected times →
  ∀ w, (0 < times w)%nat ↔ remote_id w = Some x).

Lemma convert_rows_kept failed l : ∀ d r d', convert_rows time_json struct_json failed l d = (r, d') →
  same_tables d d' ∧ (coherent (types d) → tdb (types d') = tdb (types d) ∧ coherent (types d')).
Proof.
  intros d r d' H. split.
  - by eapply keeps_at in H; [|apply convert_rows_quiet].
  - assert (HT : types_only time_json struct_json (convert_rows time_json struct_json failed l)); [|by apply (HT d r d')].
    clear. induction l as [|w l IH]; cbn [convert_rows]; [apply types_only_ret|].
    apply types_only_bind; [apply types_only_map, types_only_Load|]. intros t. apply types_only_bind; [apply types_only_query|].
    intros x. apply types_only_bind; [done|]. intros xs. apply types_only_ret.
Qed.
Lemma fetch_imported_ok sp v d o d' : fetch_imported sp v d = (Ok o, d') →
  literal_of v ≠ LOther ∧ same_tables (pl_wis d) (pl_wis d') ∧
  (coherent (types (pl_wis d)) → tdb (types (pl_wis d')) = tdb (types (pl_wis d)) ∧ coherent (types (pl_wis d'))) ∧
  ∃ p, selects (Compile_id v) (pl_wis d) = Selected p ∧
    match o with
    | None => ∀ w, ¬ matching p sp (pl_wis d) w
    | Some x => ∃ w, matching p sp (pl_wis d) w ∧ converted time_json struct_json (pl_wis d) w x
    end.
Proof.
  unfold Trackers.fetch_imported, in_lists. destruct (wi_Fetch _ _ _) as [r l] eqn:E. intros [= -> Hd'].
  assert (Hl : pl_wis d' = ls_items l) by (by rewrite <- Hd'). rewrite Hl. clear Hd' Hl.
  pose proof (Fetch_top _ _ _ _ _ _ _ _ _ _ _ _ _ E) as (p & Hp & Ho). cbn [ls_items] in *.
  rewrite wi_Fetch_head in E. unfold s_map at 1 in E. destruct (wi_List _ _ _ _ _ _ _) as [[[xs n]|e|m] d1] eqn:EL; [|done..]. cbn in E. simplify_eq.
  unfold wi_List in EL. stm_inv.
  match goal with H : on_items _ _ = _ |- _ => unfold on_items in H; cbn [ls_items] in H; destruct (convert_rows _ _ _ _ _) as [r t] eqn:EC; simplify_eq end.
  match goal with H : listItemsFromDB _ _ _ _ _ _ _ _ _ _ _ _ _ = Ok ?p |- _ => destruct p as [rs k] end.
  apply listItems_ok in H as (Herr & _). apply convert_rows_kept in EC as [HS HT]. cbn [ls_items] in *.
  split_and!; [|done|done|exists p; split; [done|]].
  - intros Hv. by apply (other_id_refused FormatShortest ks ks' ks'') in Hv.
  - destruct (head xs) as [x|]; [|done]. destruct Ho as (w & Hw & Hm & _). by exists w.
Qed.

(** A remote id is in a space at most once. *)
Definition imported_once (d : wi_db) : Prop :=
  ∀ w w' x, w ∈ rows d → w' ∈ rows d → s_live w = true → s_live w' = true → s_SpaceID w = s_SpaceID w' → plain_id x →
    remote_id w = Some x → remote_id w' = Some x → w = w'.
Record imports_wf (d : wi_db) : Prop := {
  im_rows : rows_unique d;
  im_typed : typed d;
  im_once : imported_once d;
}.
Lemma matching_id y p sp d w : plain_id y → selects (Compile_id (VString y)) d = Selected p →
  matching p sp d w ↔ w ∈ rows d ∧ s_live w = true ∧ s_SpaceID w = sp ∧ remote_id w = Some y.
Proof. intros Hy Hp. unfold matching. by rewrite (Hsel y d p Hy Hp w). Qed.

(** One item is written: the one with the id, or a new one when there is none. *)
Record upserted (now : Time) (wi r : WorkItem) (y : string) (d d' : wi_db) : Prop := {
  us_id : fld (w_Fields wi) SystemRemoteItemID = VString y;
  us_row : ∃ row, row ∈ rows d' ∧ s_live row = true ∧ s_SpaceID row = w_SpaceID wi ∧ remote_id row = Some y ∧ s_ID row = w_ID r;
  us_effect :
    (map s_ID (rows d') = map s_ID (rows d) ∧
     ∃ w new who, overwritten IsURL time_json struct_json now who (w_Fields wi) d d' w new ∧ creator_in (w_Fields wi) = Ok who ∧
       s_SpaceID w = w_SpaceID wi ∧ s_ID w = w_ID r ∧ (plain_id y → remote_id w = Some y)) ∨
    (map s_ID (rows d') = map s_ID (rows d) ++ [w_ID r] ∧
     (plain_id y → ∀ w, w ∈ rows d → s_live w = true → s_SpaceID w = w_SpaceID wi → remote_id w ≠ Some y));
}.
Lemma replaced_once d d' w new y : imports_wf d → w ∈ rows d → s_live w = true →
  rows d' = map (replace_version (s_ID w) (s_Version w) new) (rows d) → s_ID new = s_ID w → place new = place w →
  remote_id new = Some y → (plain_id y → remote_id w = Some y) → rows_unique d' ∧ imported_once d'.
Proof.
  intros [[Hn Hpl] _ Ho] Hw Hl Hr Hid Hp Hy Hwy.
  assert (Hel : ∀ v, v ∈ rows d' ↔ v = new ∨ (v ∈ rows d ∧ v ≠ w ∧ s_ID v ≠ s_ID w)).
  { intros v. rewrite Hr. by apply elem_of_replaced. }
  assert (Hsp : s_SpaceID new = s_SpaceID w) by (unfold place in Hp; congruence).
  split; [unfold rows_unique; rewrite Hr; split; [by rewrite (replace_row s_ID _ _ w)|by rewrite (replace_row place _ _ w)]|].
  assert (Hother : ∀ v x, v ∈ rows d → v ≠ w → s_live v = true → s_SpaceID new = s_SpaceID v → plain_id x →
    remote_id new = Some x → remote_id v = Some x → False).
  { intros v x Hv Hne Hlv Hs Hx H1 H2. assert (x = y) as -> by congruence. apply Hne. apply (Ho v w y); auto. congruence. }
  intros v v' x Hv Hv' Hlv Hlv' Hs Hx H1 H2. apply Hel in Hv as [->|(Hv & Hne & _)]; apply Hel in Hv' as [->|(Hv' & Hne' & _)].
  - done.
  - exfalso. by apply (Hother v' x).
  - exfalso. by apply (Hother v x).
  - by apply (Ho v v' x).
Qed.
Lemma created_once d d' now newID sp ty who row y : imports_wf d → creation now newID sp ty who d d' row → remote_id row = Some y →
  (plain_id y → ∀ w, w ∈ rows d → s_live w = true → s_SpaceID w = sp → remote_id w ≠ Some y) → rows_unique d' ∧ imported_once d'.
Proof.
  intros [[Hn Hpl] _ Ho] C Hy Hno. pose proof (cr_rows _ _ _ _ _ _ _ _ C) as Hr.
  pose proof (cr_space _ _ _ _ _ _ _ _ C) as Hsp. split.
  - unfold rows_unique. rewrite Hr, !map_app. split; apply NoDup_app; (split_and!; [done| |apply NoDup_singleton]);
      intros k Hk Hk2; apply list_elem_of_singleton in Hk2 as ->; apply elem_of_map_image in Hk as (v & Hv & E).
    + by apply (cr_fresh _ _ _ _ _ _ _ _ C v).
    + injection E as E1 E2. by apply (cr_unique _ _ _ _ _ _ _ _ C v).
  - intros v v' x Hv Hv' Hlv Hlv' Hs Hx H1 H2. rewrite Hr in Hv, Hv'. rewrite elem_of_app, list_elem_of_singleton in Hv, Hv'.
    destruct Hv as [Hv| ->], Hv' as [Hv'| ->]; [by apply (Ho v v' x)| | |done].
    + exfalso. assert (x = y) as -> by congruence. apply (Hno Hx v); congruence.
    + exfalso. assert (x = y) as -> by congruence. apply (Hno Hx v'); congruence.
Qed.
Lemma imports_wf_same d d' : same_tables d d' →
  (coherent (types d) → tdb (types d') = tdb (types d) ∧ coherent (types d')) → imports_wf d → imports_wf d'.
Proof.
  intros (Hr & _) HT [Hu Ht Ho]. split.
  - unfold rows_unique. by rewrite Hr.
  - apply (typed_kept _ _ d); [apply HT, Ht|done].
  - unfold imported_once. by rewrite Hr.
Qed.
Lemma upsert_ok now newID wi d r d' : upsert now newID wi d = (Ok r, d') → imports_wf (pl_wis d) →
  imports_wf (pl_wis d') ∧ ∃ y, upserted now wi r y (pl_wis d) (pl_wis d').
Proof.
  unfold Trackers.upsert. intros H Hd. stm_inv.
  match goal with H : fetch_imported _ _ _ = _ |- _ => apply fetch_imported_ok in H as (Hv & HS & HT & p & Hp & Ho) end.
  pose proof (imports_wf_same _ _ HS HT Hd) as Hd1. destruct HS as (Hr & HSv).
  match goal with H : match ?o with _ => _ end _ = _ |- _ => destruct o as [x|] end; stm_inv;
    match goal with H : on_items_of _ _ = _ |- _ => apply on_items_of_ok in H as (HI & _) end.
  - destruct Ho as (w & Hw & Hm & Hcv). assert (Hwr : w ∈ rows (pl_wis d)) by apply Hw. rewrite <- Hr in Hwr.
    destruct (Hcv (proj1 (im_typed _ Hd))) as (t & Ht & Hx). destruct (HT (proj1 (im_typed _ Hd))) as [HT1 _]. rewrite <- HT1 in Ht.
    pose proof (Save_types _ _ _ _ _ _ _ _ _ _ _ _ HI (proj1 (im_typed _ Hd1))) as HT2.
    apply (Save_imported _ _ _ _ _ _ w) in HI as (new & y & HO' & Hy & Hry & HrID); [|apply Hd1|apply Hd1|done|done|by exists t|done].
    rewrite Hy in Hp. assert (Hwy : plain_id y → remote_id w = Some y).
    { intros Hpy. rewrite (matching_id y p _ _ w Hpy Hp) in Hw. apply Hw. }
    pose proof HO' as [_ Hl Hrows Hvs Hid Hpl Hver Hnl Hfields].
    destruct (replaced_once _ _ w new y Hd1 Hwr Hl Hrows Hid Hpl Hry Hwy) as [Hu Hon].
    split; [by split; [..|apply (typed_kept _ _ _ _ HT2), Hd1|]|]. exists y. destruct Hd1 as [[Hn Hpp] _ _]. split; [done|..].
    + exists new. split_and!; [|done| |done|congruence]; [rewrite Hrows; apply (elem_of_replaced _ _ _ w); auto|].
      unfold place in Hpl. destruct Hw as (_ & _ & Hsp & _). congruence.
    + left. split; [by rewrite Hrows, (replace_row s_ID _ _ w), Hr by done|]. eexists w, new, _. split_and!; [|done|by destruct Hw as (_ & _ & Hsp & _)|done|done].
      rewrite Hr in Hwr, Hrows. rewrite HT1 in Hfields. rewrite (proj1 HSv) in Hvs. by split.
  - pose proof (Create_types _ _ _ _ _ _ _ _ _ _ _ _ HI (proj1 (im_typed _ Hd1))) as HT2.
    apply Create_imported in HI as (row & y & C & Hy & Hry & HrID); [|apply Hd1|done].
    rewrite Hy in Hp. assert (Hno : plain_id y → ∀ w, w ∈ rows (pl_wis d) → s_live w = true → s_SpaceID w = w_SpaceID wi → remote_id w ≠ Some y).
    { intros Hpy w Hw Hl Hsp HE. apply (Ho w). by rewrite (matching_id y p _ _ w Hpy Hp). }
    rewrite <- Hr in Hno. destruct (created_once _ _ _ _ _ _ _ row y Hd1 C Hry Hno) as [Hu Hon]. rewrite Hr in Hno.
    split; [by split; [..|apply (typed_kept _ _ _ _ HT2), Hd1|]|]. exists y. pose proof (cr_rows _ _ _ _ _ _ _ _ C) as Hrows. split; [done|..].
    + exists row. split_and!; [rewrite Hrows; apply elem_of_app; right; by left|apply C|apply C|done|done].
    + right. rewrite Hrows, Hr, map_app. cbn [map]. rewrite <- HrID. done.
Qed.

(** ** The id an item is imported under *)

Definition id_attribute (provider : string) : string := if String.eqb provider ProviderGithub then GithubID else JiraID.
(** What the content of a remote item has as its id. *)
Definition remote_key (tq : TrackerSchedule) (item : TrackerItemContent) : option string :=
  match NewRemoteWorkItem Unmarshal (tc_Content item) with
  | Ok issue => match item_Get issue (id_attribute (ts_TrackerType tq)) with VString x => Some x | _ => None end
  | _ => None
  end.
Lemma mapped_id provider issue remote : supported provider = true → Map issue (RemoteWorkItemKeyMaps provider) = Ok remote →
  fld remote SystemRemoteItemID = item_Get issue (id_attribute provider).
Proof.
  clear. unfold supported, Map, RemoteWorkItemKeyMaps, id_attribute, fld. destruct maps_to_fields_once as [Hg Hj].
  destruct (String.eqb provider ProviderGithub); [|destruct (String.eqb provider ProviderJira); [|done]]; intros _ H.
  - by rewrite (map_attributes_lookup _ _ Hg _ _ H).
  - by rewrite (map_attributes_lookup _ _ Hj _ _ H).
Qed.
Lemma set_remote_field_id now newIDs remote provider e m d m' d' : set_remote_field now newIDs remote provider e m d = (Ok m', d') →
  fld m' SystemRemoteItemID = if String.eqb e.1 SystemRemoteItemID then e.2 else fld m SystemRemoteItemID.
Proof.
  clear. unfold set_remote_field. destruct e as [k v]. cbn [fst snd]. unfold fld.
  destruct (String.eqb_spec k remoteCreatorLogin) as [->|_]; [destruct v; intros H; stm_inv; by rewrite lookup_insert_ne by done|].
  destruct (String.eqb_spec k remoteCreatorProfileURL) as [->|_]; [intros H; by stm_inv|].
  destruct (String.eqb_spec k RemoteAssigneeLogins) as [->|_]; [destruct v; intros H; stm_inv; by rewrite lookup_insert_ne by done|].
  destruct (String.eqb_spec k RemoteAssigneeProfileURLs) as [->|_]; [intros H; by stm_inv|].
  intros H. stm_inv. destruct (String.eqb_spec k SystemRemoteItemID) as [->|Hk]; [by rewrite lookup_insert_eq|by rewrite lookup_insert_ne].
Qed.
Lemma set_remote_fields_id now newIDs remote provider l : ∀ m d m' d', set_remote_fields now newIDs remote provider l m d = (Ok m', d') → NoDup l.*1 →
  (∀ v, (SystemRemoteItemID, v) ∈ l → fld m' SystemRemoteItemID = v) ∧
  (SystemRemoteItemID ∉ l.*1 → fld m' SystemRemoteItemID = fld m SystemRemoteItemID).
Proof.
  clear. induction l as [|[k v] l IH]; intros m d m' d' H Hn; cbn [set_remote_fields] in H; stm_inv; [split; [by intros v ?%elem_of_nil|done]|].
  cbn [fmap list_fmap fst] in *. apply NoDup_cons in Hn as [Hk Hn].
  match goal with H1 : set_remote_field _ _ _ _ _ _ _ = _, H2 : set_remote_fields _ _ _ _ _ _ _ = _ |- _ =>
    apply set_remote_field_id in H1; apply IH in H2 as [IH1 IH2]; [|done] end.
  cbn [fst snd] in *. destruct (String.eqb_spec k SystemRemoteItemID) as [->|Hne]; split.
  - intros v' [[= <-]|Hv']%elem_of_cons; [by rewrite IH2|]. destruct Hk. apply list_elem_of_fmap. by exists (SystemRemoteItemID, v').
  - intros HN. destruct HN. by left.
  - intros v' [[= <- <-]|Hv']%elem_of_cons; [done|]. by apply IH1.
  - intros HN. rewrite IH2; [done|]. intros HI. apply HN. by right.
Qed.
Lemma lookup_assignees_kept now newIDs provider : ∀ logins i urls, keeps items_kept (lookup_assignees now newIDs i logins urls provider).
Proof.
  clear. induction logins as [|login logins IH]; intros i urls; cbn [lookup_assignees]; [eauto with quiet|].
  destruct urls as [|url urls]; eauto 10 with quiet.
Qed.
Lemma set_remote_fields_kept now newIDs remote provider l : ∀ m, keeps items_kept (set_remote_fields now newIDs remote provider l m).
Proof.
  clear. pose proof (lookup_assignees_kept now newIDs provider) as HL.
  induction l as [|[k v] l IH]; intros m; cbn [set_remote_fields]; [eauto with quiet|]. apply keeps_bind; [apply _| |auto].
  unfold set_remote_field. cbn [fst snd]. repeat case_match; eauto 10 with quiet.
Qed.
(** A range over a map visits every entry once. *)
Context (Hvisit : ∀ m, visit m ≡ₚ map_to_list m).
Lemma setWorkItemFields_ok now newIDs remote tq d wi d' : setWorkItemFields visit now newIDs remote tq d = (Ok wi, d') →
  pl_wis d' = pl_wis d ∧ w_SpaceID wi = ts_SpaceID tq ∧ fld (w_Fields wi) SystemRemoteItemID = fld remote SystemRemoteItemID.
Proof.
  unfold setWorkItemFields. intros H. stm_inv. cbn [w_SpaceID w_Fields].
  match goal with H : set_remote_fields _ _ _ _ _ _ _ = _ |- _ => rename H into HF end.
  split; [by apply (keeps_at _ _ _ _ _ (set_remote_fields_kept _ _ _ _ _ _)) in HF|]. split; [done|].
  assert (Hn : NoDup (visit remote).*1) by (rewrite Hvisit; apply NoDup_fst_map_to_list).
  apply set_remote_fields_id in HF as [H1 H2]; [|done].
  assert (HE : ∀ m : Fields, fld (<[SystemRemoteTrackerID := VString (uuid_String (ts_TrackerQueryID tq))]>
    (if String.eqb (ts_TrackerType tq) ProviderGithub then <[remoteItemURL := fld m remoteItemID]> m else m)) SystemRemoteItemID = fld m SystemRemoteItemID).
  { intros m. unfold fld. rewrite lookup_insert_ne by done. case_match; [|done]. by rewrite lookup_insert_ne. }
  rewrite HE. destruct (remote !! SystemRemoteItemID) as [v|] eqn:Er.
  - unfold fld at 2. rewrite Er. apply H1. rewrite Hvisit. by apply elem_of_map_to_list.
  - rewrite H2; [unfold fld; by rewrite Er|]. rewrite Hvisit. intros HI. apply list_elem_of_fmap in HI as ([k v] & E & HI).
    apply elem_of_map_to_list in HI. cbn in E. congruence.
Qed.
(** The keys of what was fetched that are fields of the item as they are. *)
Definition plain_key (k : string) : Prop :=
  k ∉ [SystemCreator; SystemAssignees; remoteCreatorLogin; remoteCreatorProfileURL; RemoteAssigneeLogins;
       RemoteAssigneeProfileURLs; remoteItemURL; SystemRemoteTrackerID].
Lemma set_remote_field_plain now newIDs remote provider e m d m' d' k : plain_key k →
  set_remote_field now newIDs remote provider e m d = (Ok m', d') →
  m' !! k = if String.eqb e.1 k then Some e.2 else m !! k.
Proof.
  clear. unfold plain_key. rewrite !not_elem_of_cons. intros (K1 & K2 & K3 & K4 & K5 & K6 & _).
  unfold set_remote_field. destruct e as [k' v]. cbn [fst snd].
  destruct (String.eqb_spec k' remoteCreatorLogin) as [->|_]; [|destruct (String.eqb_spec k' remoteCreatorProfileURL) as [->|_];
    [|destruct (String.eqb_spec k' RemoteAssigneeLogins) as [->|_]; [|destruct (String.eqb_spec k' RemoteAssigneeProfileURLs) as [->|_]]]];
    try (rewrite (proj2 (String.eqb_neq _ _)) by congruence).
  - destruct v; intros H; stm_inv; by rewrite lookup_insert_ne by done.
  - intros H. by stm_inv.
  - destruct v; intros H; stm_inv; by rewrite lookup_insert_ne by done.
  - intros H. by stm_inv.
  - intros H. stm_inv. destruct (String.eqb_spec k' k) as [->|Hk]; [by rewrite lookup_insert_eq|by rewrite lookup_insert_ne].
Qed.
Lemma set_remote_fields_plain now newIDs remote provider k l : plain_key k → ∀ m d m' d',
  set_remote_fields now newIDs remote provider l m d = (Ok m', d') → NoDup l.*1 →
  (∀ v, (k, v) ∈ l → m' !! k = Some v) ∧ (k ∉ l.*1 → m' !! k = m !! k).
Proof.
  clear. intros Hk. induction l as [|[k' v] l IH]; intros m d m' d' H Hn; cbn [set_remote_fields] in H; stm_inv;
    [split; [by intros v ?%elem_of_nil|done]|].
  cbn [fmap list_fmap fst] in *. apply NoDup_cons in Hn as [Hk' Hn].
  match goal with H1 : set_remote_field _ _ _ _ _ _ _ = _, H2 : set_remote_fields _ _ _ _ _ _ _ = _ |- _ =>
    apply (set_remote_field_plain _ _ _ _ _ _ _ _ _ k Hk) in H1; apply IH in H2 as [IH1 IH2]; [|done] end.
  cbn [fst snd] in *. destruct (String.eqb_spec k' k) as [->|Hne]; split.
  - intros v' [[= <-]|Hv']%elem_of_cons; [by rewrite IH2|]. destruct Hk'. apply list_elem_of_fmap. by exists (k, v').
  - intros HN. destruct HN. by left.
  - intros v' [[= <- <-]|Hv']%elem_of_cons; [done|]. by apply IH1.
  - intros HN. rewrite IH2; [done|]. intros HI. apply HN. by right.
Qed.
Lemma setWorkItemFields_plain now newIDs remote tq d wi d' k : plain_key k →
  setWorkItemFields visit now newIDs remote tq d = (Ok wi, d') → w_Fields wi !! k = remote !! k.
Proof.
  unfold setWorkItemFields. intros Hk H. stm_inv. cbn [w_Fields].
  match goal with H : set_remote_fields _ _ _ _ _ _ _ = _ |- _ => apply (set_remote_fields_plain _ _ _ _ k) in H as [H1 H2];
    [|done|rewrite Hvisit; apply NoDup_fst_map_to_list] end.
  unfold plain_key in Hk. rewrite !not_elem_of_cons in Hk. destruct Hk as (K1 & K2 & K3 & K4 & K5 & K6 & K7 & K8 & _).
  rewrite lookup_insert_ne by done.
  match goal with |- (if ?b then _ else _) !! _ = _ => assert (HE : ∀ m : Fields, (if b then <[remoteItemURL := fld m remoteItemID]> m else m) !! k = m !! k)
    by (intros m; destruct b; [by rewrite lookup_insert_ne|done]); rewrite HE end.
  destruct (remote !! k) as [v|] eqn:Er.
  - apply H1. rewrite Hvisit. by apply elem_of_map_to_list.
  - rewrite H2; [by rewrite lookup_empty|]. rewrite Hvisit. intros HI. apply list_elem_of_fmap in HI as ([k' v] & E & HI).
    apply elem_of_map_to_list in HI. cbn in E. congruence.
Qed.
Notation ConvertToWorkItemModel :=
  (ConvertToWorkItemModel IsURL time_json struct_json Sprint related FormatShortest HasColumn selects ks ks' ks'' visit Unmarshal).
(** What the content of a remote item is as an item of a query. *)
Definition content_of (tq : TrackerSchedule) (item : TrackerItemContent) (remote : flat) : Prop :=
  ∃ issue, NewRemoteWorkItem Unmarshal (tc_Content item) = Ok issue ∧ Map issue (RemoteWorkItemKeyMaps (ts_TrackerType tq)) = Ok remote.
Lemma import_ok now newID newIDs item tq d r d' : ConvertToWorkItemModel now newID newIDs item tq d = (Ok r, d') →
  imports_wf (pl_wis d) → imports_wf (pl_wis d') ∧
  ∃ wi y remote, upserted now wi r y (pl_wis d) (pl_wis d') ∧ w_SpaceID wi = ts_SpaceID tq ∧ remote_key tq item = Some y ∧
    content_of tq item remote ∧ ∀ k, plain_key k → w_Fields wi !! k = remote !! k.
Proof.
  unfold Trackers.ConvertToWorkItemModel. intros H Hd. stm_inv.
  match goal with H : setWorkItemFields _ _ _ _ _ _ = _ |- _ => pose proof (λ k Hk, setWorkItemFields_plain _ _ _ _ _ _ _ k Hk H) as HP;
    apply setWorkItemFields_ok in H as (HW & Hsp & Hid) end.
  match goal with H : upsert _ _ _ _ = _ |- _ => apply upsert_ok in H as (Hd' & y & HU); [|by rewrite HW] end.
  rewrite HW in HU. split; [done|]. eexists _, y, _. split_and!; [exact HU|done| |by eexists|exact HP].
  destruct (supported (ts_TrackerType tq)) eqn:HS; [|done].
  match goal with H : NewRemoteWorkItem _ _ = Ok _ |- _ => unfold remote_key; rewrite H end.
  match goal with H : Map _ _ = Ok _ |- _ => rewrite <- (mapped_id _ _ _ HS H), <- Hid end.
  by rewrite (us_id _ _ _ _ _ _ HU).
Qed.


Lemma import_item_ok now next newID newIDs tq item d u d' :
  import_item IsURL time_json struct_json Sprint related FormatShortest HasColumn selects ks ks' ks'' visit Unmarshal
    now next newID newIDs tq item d = (Ok u, d') →
  imports_wf (pl_wis (tk_planner d)) → imports_wf (pl_wis (tk_planner d')).
Proof.
  unfold import_item. intros H Hd. stm_inv.
  match goal with H : Upload _ _ _ _ _ = (_, ?d1) |- _ => assert (HU : tk_planner d1 = tk_planner d);
    [unfold Upload in H; repeat case_match; by simplify_eq|] end.
  match goal with H : in_planner _ _ = _ |- _ => unfold in_planner in H; rewrite HU in H; destruct (ConvertToWorkItemModel _ _ _ _ _ _) as [r p] eqn:E; simplify_eq end.
  cbn [tk_planner]. by eapply import_ok.
Qed.
Lemma import_items_wf tq items : ∀ d r d', import_items tq items d = (r, d') →
  imports_wf (pl_wis (tk_planner d)) → imports_wf (pl_wis (tk_planner d')).
Proof.
  induction items as [|[x item] items IH]; cbn [Trackers.import_items]; intros d r d' H Hd; [by simplify_eq|].
  unfold Transactional_item in H. destruct (import_item _ _ _ _ _ _ _ _ _ _ _ _ _ _ _ _ _ _ _ d) as [[u|e|m] d1] eqn:E.
  - apply import_item_ok in E; [|done]. by eapply IH.
  - by eapply IH.
  - by simplify_eq.
Qed.

Section Jobs.
Context (github_listIssues : string → string → Z → option (list (string * string) * Z)).
Context (jira_NewClient : string → bool) (jira_listIssues : string → string → list string).
Context (jira_getIssue : string → string → string) (marshal_key : string → string).
Notation run_job := (run_job IsURL time_json struct_json Sprint related FormatShortest HasColumn selects ks ks' ks'' visit Unmarshal
  github_listIssues jira_NewClient jira_listIssues jira_getIssue marshal_key).
Definition job_step (d d' : tracking) : Prop := ∃ fuel draw s e r, run_job fuel draw s e d = Some (r, d').
(** C4: Whatever jobs run one after the other, and whichever of their imports fail: no space has two items with one remote
    id, among the ids without quotes and backslashes, as the URLs of the trackers are. *)
Theorem jobs_import_once d d' (Hd : imports_wf (pl_wis (tk_planner d))) (H : rtc job_step d d') :
  imported_once (pl_wis (tk_planner d')).
Proof.
  cut (imports_wf (pl_wis (tk_planner d'))); [by apply im_once|].
  induction H as [d|d d1 d2 (fuel & draw & s & e & r & HJ) _ IH]; [done|]. apply IH. clear IH.
  unfold Trackers.run_job in HJ. destruct (query_of s e) as [tq|]; [|done]. destruct (lookupProvider tq) as [p|]; [|by simplify_eq].
  destruct (Fetch _ _ _ _ _ _ _ _) as [[items|x|m]|]; [|by simplify_eq..|done]. simplify_eq. by eapply import_items_wf.
Qed.
End Jobs.
End Importing.

(** ** The scheduler *)

Section Scheduler.
Context (parses : string → bool).
Notation schedule_all := (schedule_all parses).
Notation ScheduleAllQueries := (ScheduleAllQueries parses).

(** The variables of the entries there are exist. *)
Definition scheduler_wf (s : scheduler) : Prop := ∀ e, e ∈ sc_entries s → (ce_variable e < length (sc_variables s))%nat.
Definition entry_of (v : nat) (tokens : gmap string string) (tq : TrackerSchedule) : cron_entry :=
  {| ce_Schedule := ts_Schedule tq; ce_variable := v; ce_accessTokens := tokens |}.
Lemma schedule_all_spec v tokens l : ∀ s, (v < length (sc_variables s))%nat →
  sc_entries (schedule_all v tokens l s) = sc_entries s ++ map (entry_of v tokens) (List.filter (λ tq, parses (ts_Schedule tq)) l) ∧
  sc_variables (schedule_all v tokens l s) = match last l with Some tq => <[v := tq]> (sc_variables s) | None => sc_variables s end.
Proof.
  induction l as [|tq l IH]; intros s Hv; cbn [Trackers.schedule_all List.filter]; [by rewrite app_nil_r|].
  match goal with |- context [schedule_all v tokens l ?s'] => set (s1 := s') end.
  assert (Hs1 : sc_variables s1 = <[v := tq]> (sc_variables s) ∧
    sc_entries s1 = sc_entries s ++ if parses (ts_Schedule tq) then [entry_of v tokens tq] else []).
  { unfold s1, AddFunc. cbn [ce_Schedule]. destruct (parses _); [done|]. cbn. by rewrite app_nil_r. }
  destruct Hs1 as [H1 H2]. destruct (IH s1) as [-> ->]; [by rewrite H1, length_insert|]. rewrite H1, H2, <- app_assoc. split.
  - f_equal. by destruct (parses _).
  - rewrite last_cons. destruct (last l) as [tq'|]; [|done]. apply list_insert_insert_eq.
Qed.
(** C24: Every job a call adds runs the last of the queries that were fetched, whichever query its schedule is of; the jobs of the
    calls before stay, with the queries they had, those that were deleted since included. *)
Theorem ScheduleAllQueries_last d tokens s (Hs : scheduler_wf s) :
  let s' := ScheduleAllQueries d tokens s in
  scheduler_wf s' ∧ sc_running s' = true ∧
  (∀ e, e ∈ sc_entries s → e ∈ sc_entries s' ∧ query_of s' e = query_of s e) ∧
  ∃ added, sc_entries s' = sc_entries s ++ added ∧
    map ce_Schedule added = List.filter parses (map ts_Schedule (fetchTrackerQueries d)) ∧
    ∀ e, e ∈ added → ce_accessTokens e = tokens ∧ query_of s' e = last (fetchTrackerQueries d).
Proof.
  intros s'. set (v := length (sc_variables s)). set (s0 := new_variable (set_running false s)).
  destruct (schedule_all_spec v tokens (fetchTrackerQueries d) s0) as [HE HV].
  { unfold s0, v. cbn. rewrite length_app. cbn. lia. }
  assert (Hv : length (sc_variables s') = S v).
  { unfold s', Trackers.ScheduleAllQueries. cbn [set_running sc_variables]. fold v s0. rewrite HV.
    destruct (last _); rewrite ?length_insert; unfold s0; cbn; rewrite length_app; cbn; unfold v; lia. }
  assert (Hold : ∀ i, (i < v)%nat → sc_variables s' !! i = sc_variables s !! i).
  { intros i Hi. unfold s', Trackers.ScheduleAllQueries. cbn [set_running sc_variables]. fold v s0. rewrite HV.
    destruct (last _); rewrite ?list_lookup_insert_ne by lia; unfold s0; cbn; by rewrite lookup_app_l. }
  assert (Hen : sc_entries s' = sc_entries s ++ map (entry_of v tokens) (List.filter (λ tq, parses (ts_Schedule tq)) (fetchTrackerQueries d))) by exact HE.
  assert (Hadd : ∀ e, e ∈ map (entry_of v tokens) (List.filter (λ tq, parses (ts_Schedule tq)) (fetchTrackerQueries d)) →
    ce_variable e = v ∧ ce_accessTokens e = tokens ∧ fetchTrackerQueries d ≠ []).
  { intros e He. apply list_elem_of_In, in_map_iff in He as (tq & <- & Htq%List.filter_In). split_and!; [done..|].
    destruct Htq as [Htq _]. by destruct (fetchTrackerQueries d). }
  split_and!; [|done| |eexists; split_and!; [exact Hen| |]].
  - intros e He. rewrite Hen in He. apply elem_of_app in He as [He|He]; rewrite Hv.
    + specialize (Hs e He). fold v in Hs. lia.
    + destruct (Hadd e He) as (-> & _). lia.
  - intros e He. split; [rewrite Hen; apply elem_of_app; by left|]. unfold query_of. apply Hold. by apply Hs.
  - clear. induction (fetchTrackerQueries d) as [|tq l IH]; [done|]. cbn [List.filter map]. destruct (parses _); cbn [map]; by rewrite IH.
  - intros e He. destruct (Hadd e He) as (Hve & Ht & Hne). split; [done|]. unfold query_of. rewrite Hve.
    unfold s', Trackers.ScheduleAllQueries. cbn [set_running sc_variables]. fold v s0. rewrite HV.
    destruct (last (fetchTrackerQueries d)) as [tq|] eqn:El; [|by apply last_None in El].
    apply list_lookup_insert_eq. unfold s0. cbn. rewrite length_app. cbn. unfold v. lia.
Qed.
End Scheduler.
