(* ===== verification/TrackerRequests.v ===== *)
(** * The requests on trackers and their queries

    [controller/tracker.go], [trackerquery.go] and [space_tracker_queries.go]
    over the tables and the scheduler: making, changing, showing, listing and
    deleting, and stores on which the theorems on imports are applied.  The
    identity of the user and the answers of the authorization service are
    arguments; links of the answers are left out. *)

From Stdlib Require Import ZArith Lia Ascii String SpecFloat.
From stdpp Require Import relations.
From S2P Require Import Errors Spaces Accounts LinkRepository TypeFacts WorkItemFacts CompilerFacts CompilerSafety.
From S2P Require Import WorkItemListFacts WorkItemRequests CsvWindows WorkItemChange WorkItemExamples IterationExamples ImporterFacts RequestExamples.
From S2P Require Export RemoteImport.
Import Transactions.

Record service := { sv_tracking : tracking; sv_scheduler : scheduler }.
Notation svm A := (service → res A * service).
Definition in_tracking {A} (m : tkm A) : svm A := λ s,
  let '(r, d) := m (sv_tracking s) in (r, {| sv_tracking := d; sv_scheduler := sv_scheduler s |}).

Record AppTracker := { at_ID : uuid; at_URL : string; at_Type : string }.
Record AppTrackerQuery := { atq_ID : uuid; atq_Query : string; atq_Schedule : string }.
Definition ConvertTracker (t : Tracker) : AppTracker := {| at_ID := tr_ID t; at_URL := tr_URL t; at_Type := tr_Type t |}.
Definition ConvertTrackers (l : list Tracker) : list AppTracker := map ConvertTracker l.
Definition convertTrackerQueryToApp (q : TrackerQuery) : AppTrackerQuery :=
  {| atq_ID := tq_ID q; atq_Query := tq_Query q; atq_Schedule := tq_Schedule q |}.
Definition ConvertTrackerQueriesToApp (l : list TrackerQuery) : list AppTrackerQuery := map convertTrackerQueryToApp l.

Definition empty_parameter (name expected : string) : error := BadParameterError name "" (Some expected) None.
Definition validateCreateTrackerPayload (URL Type_ : string) : res unit :=
  if String.eqb URL "" then Err (empty_parameter "URL" "not nil")
  else if String.eqb Type_ "" then Err (empty_parameter "Type" "not nil") else Ok tt.
Definition validateUpdateTrackerPayload (ID : option uuid) (URL Type_ : string) : res uuid :=
  match ID with
  | None => Err (BadParameterError "ID" "<nil>" (Some "not nil") None)
  | Some ID => _ ← validateCreateTrackerPayload URL Type_; Ok ID
  end.
Record QueryPayload := {
  qp_ID : option uuid;
  qp_Query : string;
  qp_Schedule : string;
  qp_Tracker : uuid;
  qp_Space : uuid;
  qp_WorkItemType : uuid;
}.
Definition validateCreateTrackerQueryPayload (p : QueryPayload) : res unit :=
  if String.eqb (qp_Query p) "" then Err (empty_parameter "Query" "not empty")
  else if String.eqb (qp_Schedule p) "" then Err (empty_parameter "Schedule" "not empty")
  else if bool_decide (qp_Tracker p = uuid_Nil) then Err (BadParameterError "TrackerID" "<nil>" (Some "not nil") None)
  else if bool_decide (qp_Space p = uuid_Nil) then Err (BadParameterError "SpaceID" "<nil>" (Some "not nil") None)
  else Ok tt.
Definition GetAccessTokens (githubAuthToken : string) : gmap string string := {[ ProviderGithub := githubAuthToken ]}.
(** Answering with an internal error that has no cause reads the message of a nil error. *)
Definition answering {A} (r : res A) : res A :=
  match r with
  | Err e => match Errors.Cause e with
             | InternalError (Plain m) => if String.eqb m "<nil>" then Panic nil_pointer else r
             | _ => r
             end
  | _ => r
  end.

Section Controller.
Context {HO : UuidOps} (IsURL : string → bool).
Context (time_json : Z → string) (struct_json : string → option gval).
Context (parses : string → bool) (githubAuthToken : string).
(** [authService.RequireScope] *)
Context (RequireScope : string → string → res unit).
Context (FormatShortest : float64 → string) (HasColumn : string → string → bool).
Context {RO : RowOrder} (selects : compiled → wi_db → selection) (ks ks' ks'' : list string).

(** The jobs are scheduled after every change; what was committed is read. *)
Definition schedule_again : svm unit := λ s,
  (Ok tt, {| sv_tracking := sv_tracking s;
             sv_scheduler := ScheduleAllQueries parses (sv_tracking s) (GetAccessTokens githubAuthToken) (sv_scheduler s) |}).

(** ** Trackers *)

Definition Create_tracker (now : Time) (newID : uuid) (identity : res uuid) (URL Type_ : string) : svm AppTracker :=
  let* _ := s_query (λ _, user_of identity) in
  let* _ := s_query (λ _, validateCreateTrackerPayload URL Type_) in
  let* tracker := in_tracking (transact (tracker_Create IsURL now newID
                    {| tr_Lifecycle := stamped {| instant := 0; representation := 0 |}; tr_ID := uuid_Nil; tr_URL := URL; tr_Type := Type_ |})) in
  let* _ := schedule_again in
  s_ret (ConvertTracker tracker).
Definition Delete_tracker (now : Time) (identity : res uuid) (ID : uuid) : svm unit :=
  let* _ := s_query (λ _, user_of identity) in
  let* _ := in_tracking (transact (
    let* tracker := s_query (tracker_Load ID) in tracker_Delete now (tr_ID tracker))) in
  schedule_again.
Definition Show_tracker (ID : uuid) : svm AppTracker :=
  let* t := in_tracking (transact (s_query (tracker_Load ID))) in s_ret (ConvertTracker t).
Definition List_trackers : svm (list AppTracker) :=
  let* l := in_tracking (transact (s_query (λ d, Ok (tracker_List d)))) in s_ret (ConvertTrackers l).
Definition changed_tracker (URL Type_ : string) (t : Tracker) : Tracker :=
  {| tr_Lifecycle := tr_Lifecycle t; tr_ID := tr_ID t; tr_URL := URL; tr_Type := Type_ |}.
(** The error of the transaction is not looked at: the tracker as it was to be is answered whether it was stored or not, and
    a tracker that was not found is a nil pointer. *)
Definition Update_tracker (now : Time) (identity : res uuid) (ID : option uuid) (URL Type_ : string) : svm AppTracker :=
  let* _ := s_query (λ _, user_of identity) in
  let* ID := s_query (λ _, validateUpdateTrackerPayload ID URL Type_) in
  let* loaded := s_query (λ s, Ok (tracker_Load ID (sv_tracking s))) in
  let* _ := s_map (λ _, Ok tt) (in_tracking (transact (
              let* t := s_query (tracker_Load ID) in
              tracker_Save now (changed_tracker URL Type_ t)))) in
  let* _ := schedule_again in
  s_query (λ _, match loaded with
                | Ok t => Ok (ConvertTracker (changed_tracker URL Type_ t))
                | _ => Panic nil_pointer
                end).

(** ** Queries *)

Definition invalid_ (what : string) (id : uuid) : error :=
  BadParameterError what (uuid_String id) (Some ("valid " +:+ what +:+ " ID")) None.
Definition check_query (p : QueryPayload) : tkm unit :=
  let* _ := s_query (λ d, replace_err (invalid_ "space" (qp_Space p)) (space_CheckExists (sps (pl_app (tk_planner d))) (qp_Space p))) in
  let* _ := s_query (λ d, replace_err (invalid_ "tracker" (qp_Tracker p)) (tracker_CheckExists (qp_Tracker p) d)) in
  match qp_ID p with
  | None => s_ret tt
  | Some id =>
      let* _ := s_query (λ d, match trackerquery_CheckExists id d with Ok _ => Err (invalid_ "trackerquery" id) | _ => Ok tt end) in
      s_query (λ _, if bool_decide (id = uuid_Nil) then Err (invalid_ "trackerquery" id) else Ok tt)
  end.
Definition new_query_of (p : QueryPayload) : TrackerQuery :=
  {| tq_Lifecycle := stamped {| instant := 0; representation := 0 |}; tq_ID := default uuid_Nil (qp_ID p); tq_Query := qp_Query p;
     tq_Schedule := qp_Schedule p; tq_TrackerID := qp_Tracker p; tq_SpaceID := qp_Space p; tq_WorkItemTypeID := qp_WorkItemType p |}.
Definition Create_trackerquery (now : Time) (newID : uuid) (between : tracking → tracking) (identity : res uuid) (p : QueryPayload)
    : svm AppTrackerQuery :=
  s_map answering (
    let* _ := s_query (λ _, user_of identity) in
    let* _ := s_query (λ _, validateCreateTrackerQueryPayload p) in
    let* _ := s_query (λ _, RequireScope (uuid_String (qp_Space p)) "contribute") in
    let* _ := in_tracking (transact (check_query p)) in
    let* _ := in_tracking (λ d, (Ok tt, between d)) in
    let* tq := in_tracking (transact (s_map (wrapf "failed to create tracker query %s")
                 (trackerquery_Create time_json struct_json now newID (new_query_of p)))) in
    let* _ := schedule_again in
    s_ret (convertTrackerQueryToApp tq)).
Definition Show_trackerquery (ID : uuid) : svm AppTrackerQuery :=
  in_tracking (transact (
    let* q := s_map (wrapf "failed to load tracker query %s") (s_query (trackerquery_Load ID)) in
    s_ret (convertTrackerQueryToApp q))).

(** The filter for the items of a query, as it is unmarshalled. *)
Definition items_of_query (spaceID ID : uuid) : list (string * gval) :=
  [("$AND", VSlice [VMap [("space", VString (uuid_String spaceID))]; VMap [("trackerquery.id", VString (uuid_String ID))]])].
Definition filter_error (r : res (list WorkItem * Z * list Ancestor * list WorkItemLink))
    : res (list WorkItem * Z * list Ancestor * list WorkItemLink) :=
  match r with
  | Err e => match Errors.Cause e with
             | BadParameterError _ _ _ _ => Err (goa_error 400 "bad_request" "error listing work items for expression '%s': %s")
             | _ => Err (goa_error 500 "internal" "unable to list the work items: %s")
             end
  | r => r
  end.
Fixpoint delete_items (now : Time) (user : uuid) (ids : list uuid) : plm unit :=
  match ids with
  | [] => s_ret tt
  | id :: ids =>
      let* _ := s_map (wrapf "error deleting work item %s") (on_items_of (WorkItems.Delete time_json struct_json now id user)) in
      delete_items now user ids
  end.
(** [Some e]: the missing scope is answered where it was found, the transaction commits, and the request goes on to answer
    once more. *)
Definition delete_query_in_db (now : Time) (user ID : uuid) (DeleteWi : bool) : tkm (option error) :=
  let* tq := s_map (wrapf "failed to delete tracker query %s") (s_query (trackerquery_Load ID)) in
  match RequireScope (uuid_String (tq_SpaceID tq)) "contribute" with
  | Err e => s_ret (Some e)
  | Panic m => s_query (λ _, Panic m)
  | Ok _ =>
      let* _ := (if DeleteWi then in_planner (
                   let* p := s_map filter_error (in_lists (Filter time_json struct_json FormatShortest HasColumn selects ks ks' ks''
                               (items_of_query (tq_SpaceID tq) ID) (Some false) None None)) in
                   delete_items now user (map w_ID p.1.1.1))
                 else s_ret tt) in
      let* _ := trackerquery_Delete now (tq_ID tq) in
      s_ret None
  end.
Definition Delete_trackerquery (now : Time) (identity : res uuid) (ID : uuid) (DeleteWi : bool) : svm (option error) :=
  let* user := s_query (λ _, user_of identity) in
  let* answered := in_tracking (transact (delete_query_in_db now user ID DeleteWi)) in
  let* _ := schedule_again in
  s_ret answered.
Definition List_trackerqueries (spaceID : uuid) : svm (list AppTrackerQuery) :=
  let* l := in_tracking (transact (
    let* _ := s_query (λ d, space_CheckExists (sps (pl_app (tk_planner d))) spaceID) in
    s_query (λ d, Ok (trackerquery_List spaceID d)))) in
  s_ret (ConvertTrackerQueriesToApp l).
End Controller.

(** ** What the requests do *)

Section Facts.
Context {HO : UuidOps} (IsURL : string → bool).
Context (time_json : Z → string) (struct_json : string → option gval).
Context (parses : string → bool) (githubAuthToken : string).
Context (RequireScope : string → string → res unit).
Context (FormatShortest : float64 → string) (HasColumn : string → string → bool).
Context {RO : RowOrder} (selects : compiled → wi_db → selection) (ks ks' ks'' : list string).
Notation Delete_trackerquery := (Delete_trackerquery time_json struct_json parses githubAuthToken RequireScope FormatShortest HasColumn
  selects ks ks' ks'').
Notation delete_query_in_db := (delete_query_in_db time_json struct_json RequireScope FormatShortest HasColumn selects ks ks' ks'').
Notation Filter := (Filter time_json struct_json FormatShortest HasColumn selects ks ks' ks'').

(** The items of the ids are deleted, one after the other. *)
Definition without_items (now : Time) (ids : list uuid) (l : list WorkItemStorage) : list WorkItemStorage :=
  fold_left (λ l id, map (soft_delete_row now id) l) ids l.
Lemma delete_items_ok now user ids : ∀ d u d', delete_items time_json struct_json now user ids d = (Ok u, d') →
  rows (pl_wis d') = without_items now ids (rows (pl_wis d)) ∧ its (pl_app d') = its (pl_app d) ∧ pl_links d' = pl_links d.
Proof.
  clear. induction ids as [|id ids IH]; intros d u d' H; cbn [delete_items] in H; stm_inv; [done|].
  match goal with H1 : on_items_of _ _ = _, H2 : delete_items _ _ _ _ _ _ = _ |- _ =>
    apply on_items_of_ok in H1 as (H1 & E1 & _ & E2 & _); apply IH in H2 as (-> & -> & ->) end.
  unfold WorkItems.Delete in *. destruct (First _ _) as [w|]; [|done]. stm_inv.
  match goal with H : Revision_Create _ _ _ _ _ _ _ = _ |- _ => apply Revision_Create_ok in H as (f & _ & HE) end.
  split_and!; [|done..]. by rewrite HE.
Qed.
Lemma Filter_keeps m pe off lim d r d' : in_lists (Filter m pe off lim) d = (r, d') → rows (pl_wis d') = rows (pl_wis d).
Proof.
  unfold in_lists. destruct (Filter _ _ _ _ _) as [x l] eqn:E. intros [= _ <-]. change (rows (ls_items l) = rows (pl_wis d)).
  apply Filter_same_items in E as (Hr & _). exact Hr.
Qed.

(** What a deletion that went through leaves. *)
Record query_deleted (now : Time) (ID : uuid) (DeleteWi : bool) (tq : TrackerQuery) (d d' : tracking) : Prop := {
  qd_query : tq ∈ tracker_queries d ∧ row_live tq = true ∧ tq_ID tq = ID;
  qd_scope : RequireScope (uuid_String (tq_SpaceID tq)) "contribute" = Ok tt;
  qd_queries : tracker_queries d' = map (λ q, if row_live q && has_ID ID q then soft_delete now q else q) (tracker_queries d);
  qd_others : trackers d' = trackers d ∧ tracker_items d' = tracker_items d;
  qd_items : if DeleteWi then
      ∃ p d1, in_lists (Filter (items_of_query (tq_SpaceID tq) ID) (Some false) None None) (tk_planner d) = (Ok p, d1) ∧
        rows (pl_wis (tk_planner d')) = without_items now (map w_ID p.1.1.1) (rows (pl_wis (tk_planner d)))
    else tk_planner d' = tk_planner d;
}.
Lemma delete_in_db_ok now user ID DeleteWi d o d' : delete_query_in_db now user ID DeleteWi d = (Ok o, d') →
  match o with Some _ => d' = d | None => ∃ tq, query_deleted now ID DeleteWi tq d d' end.
Proof.
  unfold TrackerRequests.delete_query_in_db. intros H. apply s_bind_ok in H as (tq & d1 & H1 & H).
  rewrite s_map_ok in H1 by (intro; apply wrapf_ok). apply s_query_ok in H1 as [H1 ->].
  unfold trackerquery_Load in H1. destruct (t_first _ _) as [q|] eqn:Ef; [|done]. injection H1 as ->.
  apply t_first_some in Ef as (Hin & Hl & Hid%has_ID_true). cbn in Hid.
  destruct (RequireScope _ _) as [[]|e|m] eqn:ES; [|by injection H as <- <-|done].
  apply s_bind_ok in H as (u & d1 & HI & H). apply s_bind_ok in H as (u2 & d2 & HD & H). injection H as <- <-. exists tq.
  unfold trackerquery_Delete in HD. case_bool_decide; [done|].
  destruct (t_delete _ _ _) as [n l] eqn:ED. destruct n as [|n]; [done|]. injection HD as _ <-.
  unfold t_delete in ED. injection ED as _ <-. rewrite Hid in *.
  assert (HE : ∀ q, by_primary_key ID q = has_ID ID q) by (intros q; unfold by_primary_key; by rewrite bool_decide_false).
  destruct DeleteWi.
  - unfold in_planner in HI. destruct (s_bind _ _ (tk_planner d)) as [r p] eqn:EP. simplify_eq.
    apply s_bind_ok in EP as (x & p1 & EF & EX). apply delete_items_ok in EX as (Hrows & _).
    unfold s_map in EF. destruct (in_lists _ _) as [rf pf] eqn:EL. injection EF as EF ->.
    assert (rf = Ok x) as -> by (destruct rf as [y|e|m]; cbn in EF; [done|by destruct (Errors.Cause e)|done]).
    split; cbn [set_queries tracker_queries trackers tracker_items tk_planner]; [by split_and!|done| |by split|].
    + apply map_ext. intros q. by rewrite HE.
    + exists x, p1. split; [done|]. by rewrite Hrows, (Filter_keeps _ _ _ _ _ _ _ EL).
  - unfold s_ret in HI. simplify_eq. split; cbn [set_queries tracker_queries trackers tracker_items tk_planner]; [by split_and!|done| |by split|done].
    apply map_ext. intros q. by rewrite HE.
Qed.
(** C19: A query is deleted only for somebody who may contribute to its space, and then the query and, if that was asked for, the
    items the filter for it finds are the only things that are deleted; any other answer leaves the tables as they were. *)
Theorem Delete_trackerquery_effect now identity ID DeleteWi s r s' (H : Delete_trackerquery now identity ID DeleteWi s = (r, s')) :
  (sv_tracking s' = sv_tracking s ∧ r ≠ Ok None) ∨
  (r = Ok None ∧ ∃ tq, query_deleted now ID DeleteWi tq (sv_tracking s) (sv_tracking s')).
Proof.
  unfold TrackerRequests.Delete_trackerquery in H. unfold s_bind at 1, s_query at 1 in H.
  destruct (user_of identity) as [user|e|m]; cbn in H; [|left; by simplify_eq..].
  unfold s_bind at 1, in_tracking at 1 in H. unfold transact in H.
  destruct (delete_query_in_db _ _ _ _ _) as [[o|e|m] d1] eqn:E; [|left; by simplify_eq..].
  apply delete_in_db_ok in E. unfold schedule_again, s_bind, s_ret in H. simplify_eq. cbn [sv_tracking].
  destruct o as [e|]; [left; by subst|right; done].
Qed.
End Facts.

(** ** A store, and the imports of an issue *)

#[local] Existing Instance turning_order.
Definition id_remote : uuid := uuid_of 43.
Definition remote_model := model_of id_remote uuid_Nil "planneritem"
  [("system.title", title_field); (SystemState, simple_field KindString "State"); (SystemCreator, simple_field KindUser "Creator");
   (SystemDescription, simple_field KindMarkup "Description"); (SystemRemoteItemID, simple_field KindString "Remote item")].
Definition tracked_app : app_db :=
  {| its := its stored_app; sps := sps stored_app; wis := no_items [(id_space, id_template)] (create_model remote_model no_types) |}.
Definition id_tracker : uuid := uuid_of 44.
Definition id_query : uuid := uuid_of 45.
Definition tracking0 : tracking :=
  {| tk_planner := {| pl_app := tracked_app; pl_links := pl_links planner0; pl_areas := pl_areas planner0; pl_labels := pl_labels planner0;
       pl_accounts := pl_accounts planner0; pl_codebases := pl_codebases planner0 |};
     trackers := [{| tr_Lifecycle := stamped t0; tr_ID := id_tracker; tr_URL := "https://api.github.com/"; tr_Type := ProviderGithub |}];
     tracker_queries := [{| tq_Lifecycle := stamped t0; tq_ID := id_query; tq_Query := "is:issue"; tq_Schedule := "@hourly";
                            tq_TrackerID := id_tracker; tq_SpaceID := id_space; tq_WorkItemTypeID := id_remote |}];
     tracker_items := [] |}.
Definition the_schedule : TrackerSchedule :=
  {| ts_TrackerID := id_tracker; ts_URL := "https://api.github.com/"; ts_TrackerType := ProviderGithub; ts_TrackerQueryID := id_query;
     ts_Query := "is:issue"; ts_Schedule := "@hourly"; ts_SpaceID := id_space; ts_WorkItemTypeID := id_remote |}.
Definition person (login url : string) : gval := VMap [("login", VString login); ("url", VString url)].
Definition issue_1 (title : string) : list (string * gval) :=
  [("url", VString "https://api.github.com/issues/1"); ("title", VString title); ("body", VNil); ("state", VString "open");
   ("user", person "ann" "https://api.github.com/users/ann");
   ("assignees", VSlice [person "bob" "https://api.github.com/users/bob"; person "eve" "https://api.github.com/users/eve"])].
(** Two texts that can be unmarshalled: the issue, and the issue under another title. *)
Definition unmarshal_here (s : string) : res (list (string * gval)) :=
  if String.eqb s "1" then Ok (issue_1 "crash") else if String.eqb s "2" then Ok (issue_1 "crash on start") else Err (Plain "invalid character").
Definition clause_of (x : string) : string :=
  quoted "(^work_items^.^fields^ @> '{^" +:+ SystemRemoteItemID +:+ quoted "^ : ^" +:+ x +:+ quoted "^}')".
Definition selects_here (c : compiled) (_ : wi_db) : selection :=
  Selected (λ w, match remote_id w with Some y => if String.eqb (whereClause c) (clause_of y) then 1%nat else 0%nat | None => 0%nat end).
Notation keys := default_keys.
Lemma Selected_inj p q : Selected p = Selected q → p = q.
Proof. by intros [=]. Qed.
Lemma selects_here_ids x d times : plain_id x →
  selects_here (Compile no_floats keys keys keys (by_remote_id (VString x))) d = Selected times →
  ∀ w, (0 < times w)%nat ↔ remote_id w = Some x.
Proof.
  intros _ <-%Selected_inj w. unfold by_remote_id, literal_of.
  rewrite (Equals_json_verbatim no_floats keys keys keys SystemRemoteItemID x) by (done || apply default_keys_all || apply remote_id_in_json).
  cbn [whereClause]. fold (clause_of x). destruct (remote_id w) as [y|]; [|split; [lia|done]].
  destruct (String.eqb_spec (clause_of x) (clause_of y)) as [E|E].
  - split; [intros _|lia]. f_equal. unfold clause_of in E. apply (f_equal chars) in E. rewrite !chars_app in E.
    apply app_inv_head, app_inv_head, app_inv_head, app_inv_tail in E. by apply chars_inj.
  - split; [lia|]. intros [= ->]. done.
Qed.
Definition new_ids (n i : nat) : uuid := uuid_of (N.of_nat (700 + 10 * n + i)).
Notation import_here n content := (ConvertToWorkItemModel any_url no_json_time no_json_struct print_whole related_here no_floats
  (λ _ _, true) selects_here keys keys keys map_to_list unmarshal_here t0 (uuid_of (600 + N.of_nat n)) (new_ids n)
  {| tc_ID := "1"; tc_Content := content |} the_schedule).

Definition remote_type : res WorkItemType := load_row no_json_time no_json_struct (tdb (types (pl_wis (tk_planner tracking0)))) id_remote.
Definition remote_fields : FieldDefinitions := match remote_type with Ok t => t_Fields t | _ => [] end.
Lemma tracking0_wf : imports_wf no_json_time no_json_struct (pl_wis (tk_planner tracking0)).
Proof.
  split; [split; constructor| |by intros w w' x ?%elem_of_nil].
  split; [apply empty_coherent; by vm_compute|]. intros id t Ht.
  assert (id = id_remote) as ->.
  { pose proof (load_row_ID _ _ _ _ _ Ht) as Hid. unfold load_row, First_wit in Ht.
    destruct (List.find _ _) as [r|] eqn:E; [|done]. apply List.find_some in E as [Hr Hp].
    apply andb_prop in Hp as [_ Hp%bool_decide_eq_true]. subst id.
    assert (HR : map t_ID (wit_rows (tdb (types (pl_wis (tk_planner tracking0))))) = [id_remote]) by by vm_compute.
    apply (in_map t_ID) in Hr. rewrite HR in Hr. by destruct Hr as [<-|[]]. }
  assert (HF : remote_fields = t_Fields t) by (unfold remote_fields, remote_type; by rewrite Ht).
  assert (HN : bool_decide (NoDup remote_fields.*1) = true) by by vm_compute.
  rewrite HF in HN. split; [by apply bool_decide_eq_true in HN|].
  assert (HD : fields_get remote_fields SystemRemoteItemID = Some (simple_field KindString "Remote item"))
    by by vm_compute.
  rewrite HF in HD. apply fields_get_In in HD. eexists _, _. by split_and!.
Qed.
Lemma map_to_list_visits (m : flat) : map_to_list m ≡ₚ map_to_list m.
Proof. done. Qed.

(** The page of issues GitHub has, and a job that imports both. *)
Definition two_issues (token query : string) (page : Z) : option (list (string * string) * Z) :=
  if page =? 0 then Some ([("1", "1")], 2) else Some ([("1", "2")], 0).
Definition draw (i : nat) : draws :=
  {| dr_now := t0; dr_next := Z.of_nat i; dr_newID := uuid_of (600 + N.of_nat i); dr_newIDs := new_ids i |}.
Notation scheduled_here := (ScheduleAllQueries (λ _, true) tracking0 (GetAccessTokens "token") {| sc_variables := []; sc_entries := []; sc_running := true |}).
Definition entry_here : cron_entry := {| ce_Schedule := "@hourly"; ce_variable := 0; ce_accessTokens := GetAccessTokens "token" |}.
Notation job_here := (run_job any_url no_json_time no_json_struct print_whole related_here no_floats (λ _ _, true) selects_here keys keys keys
  map_to_list unmarshal_here two_issues (λ _, true) (λ _ _, []) (λ _ _, "null") (λ s, s) 5 draw scheduled_here entry_here).
Definition tracking_after : tracking := match job_here tracking0 with Some (_, d) => d | None => tracking0 end.
(** Two pages are fetched; the issue on the second is that on the first under another title. *)
Lemma jobs_import_once_witness :
  length (rows (pl_wis (tk_planner tracking_after))) = 1%nat ∧ imported_once (pl_wis (tk_planner tracking_after)).
Proof.
  split; [by vm_compute|].
  apply (jobs_import_once any_url no_json_time no_json_struct print_whole related_here no_floats (λ _ _, true) selects_here keys keys keys
           map_to_list unmarshal_here selects_here_ids map_to_list_visits two_issues (λ _, true) (λ _ _, []) (λ _ _, "null") (λ s, s) tracking0).
  - exact tracking0_wf.
  - apply rtc_once. exists 5%nat, draw, scheduled_here, entry_here, (match job_here tracking0 with Some (r, _) => r | None => Ok tt end).
    unfold tracking_after. assert (HJ : bool_decide (is_Some (job_here tracking0)) = true) by by vm_compute.
    apply bool_decide_eq_true in HJ as [[r d] ->]. exact eq_refl.
Defined.
(** Two queries are scheduled; the job of the first runs the second. *)
Definition tracking2 : tracking :=
  set_queries (tracker_queries tracking0 ++ [{| tq_Lifecycle := stamped t0; tq_ID := uuid_of 46; tq_Query := "is:closed"; tq_Schedule := "@daily";
                                                tq_TrackerID := id_tracker; tq_SpaceID := id_space; tq_WorkItemTypeID := id_remote |}]) tracking0.
Lemma ScheduleAllQueries_last_witness :
  let s' := ScheduleAllQueries (λ _, true) tracking2 (GetAccessTokens "token") scheduled_here in
  sc_running s' = true ∧ map (λ e, (ce_Schedule e, ts_Query <$> query_of s' e)) (sc_entries s') =
    [("@hourly", Some "is:issue"); ("@hourly", Some "is:closed"); ("@daily", Some "is:closed")].
Proof.
  split; [|by vm_compute].
  apply (ScheduleAllQueries_last (λ _, true) tracking2 (GetAccessTokens "token") scheduled_here).
  intros e He. assert (HE : forallb (λ e, Nat.ltb (ce_variable e) (length (sc_variables scheduled_here))) (sc_entries scheduled_here) = true)
    by by vm_compute.
  rewrite forallb_forall in HE. apply Nat.ltb_lt, HE. by apply list_elem_of_In.
Defined.
Notation drop_query scope := (Delete_trackerquery no_json_time no_json_struct (λ _, true) "token" scope no_floats (λ _ _, true)
  (λ _ _, Selected (λ _, 1%nat)) keys keys keys t0 (Ok id_user) id_query true).
Definition service1 : service := {| sv_tracking := tracking_after; sv_scheduler := scheduled_here |}.
(** The query is deleted and the item that was imported under it. *)
Lemma Delete_trackerquery_effect_witness :
  ∃ s', drop_query (λ _ _, Ok tt) service1 = (Ok None, s') ∧
    (∃ tq, query_deleted no_json_time no_json_struct (λ _ _, Ok tt) no_floats (λ _ _, true) (λ _ _, Selected (λ _, 1%nat)) keys keys keys
             t0 id_query true tq tracking_after (sv_tracking s')) ∧
    List.filter s_live (rows (pl_wis (tk_planner (sv_tracking s')))) = [].
Proof.
  exists (drop_query (λ _ _, Ok tt) service1).2.
  assert (HR : match (drop_query (λ _ _, Ok tt) service1).1 with Ok None => true | _ => false end = true) by by vm_compute.
  assert (HL : List.filter s_live (rows (pl_wis (tk_planner (sv_tracking (drop_query (λ _ _, Ok tt) service1).2)))) = []) by by vm_compute.
  destruct (drop_query (λ _ _, Ok tt) service1) as [[[o|]|e|m] s'] eqn:E; [discriminate HR| |discriminate HR..].
  cbn [snd] in HL |- *. split; [exact eq_refl|]. split; [|exact HL].
  destruct (Delete_trackerquery_effect _ _ _ _ _ _ _ _ _ _ _ _ _ _ _ _ _ _ E) as [[_ H]|[_ H]]; [by destruct (H eq_refl)|exact H].
Defined.
Lemma tidy_issue : tidy (VMap (issue_1 "crash")).
Proof.
  cbn [tidy issue_1 person]. split_and!; try exact I; try (by apply (bool_decide_unpack _)).
Qed.
Lemma Flatten_spec_witness :
  ∃ t, Flatten (issue_1 "crash") = Ok t ∧ t !! "assignees.1.login" = Some (VString "eve") ∧
    ∀ key x, t !! key = Some x ↔ ∃ p, leaf (VMap (issue_1 "crash")) p x ∧ key = Join p ".".
Proof.
  destruct (Flatten_spec (issue_1 "crash") tidy_issue) as (t & Ht & HS). exists t. split; [exact Ht|]. split; [|exact HS].
  assert (HE : match Flatten (issue_1 "crash") with Ok t => t !! "assignees.1.login" | _ => None end = Some (VString "eve")) by by vm_compute.
  by rewrite Ht in HE.
Defined.
Lemma github_assignees_witness :
  ∃ issue fields, Flatten (issue_1 "crash") = Ok issue ∧ Map issue github_map = Ok fields ∧
    fields !! RemoteAssigneeLogins = Some (VStrings ["bob"; "eve"]) ∧
    fields !! RemoteAssigneeProfileURLs = Some (VStrings ["https://api.github.com/users/bob"; "https://api.github.com/users/eve"]).
Proof.
  assert (HM : is_ok (i ← Flatten (issue_1 "crash"); Map i github_map) = true) by by vm_compute.
  destruct (Flatten (issue_1 "crash")) as [issue|e|m] eqn:HF; [|discriminate HM..]. cbn [mbind res_bind] in HM.
  destruct (Map issue github_map) as [fields|e|m] eqn:HG; [|discriminate HM..]. exists issue, fields. split; [exact eq_refl|]. split; [exact HG|].
  apply (github_assignees (issue_1 "crash") [person "bob" "https://api.github.com/users/bob"; person "eve" "https://api.github.com/users/eve"]
           ["bob"; "eve"] ["https://api.github.com/users/bob"; "https://api.github.com/users/eve"] issue fields).
  - exact tidy_issue.
  - do 5 right. left.
  - repeat constructor; eexists; (split; [exact eq_refl|]); left.
  - repeat constructor; eexists; (split; [exact eq_refl|]); right; left.
  - exact HF.
  - exact HG.
Defined.

(** ** Answers that are not what happened *)

Notation change_tracker ID ty s := (Update_tracker (λ _, true) "token" t0 (Ok id_user) (Some ID) "https://api.github.com/" ty s).
(** A type that is not supported is answered as if it had been stored; a tracker that is not there ends in a nil pointer. *)
Example update_not_stored :
  (change_tracker id_tracker "trello" service1).1 = Ok {| at_ID := id_tracker; at_URL := "https://api.github.com/"; at_Type := "trello" |} ∧
  map tr_Type (trackers (sv_tracking (change_tracker id_tracker "trello" service1).2)) = [ProviderGithub] ∧
  (change_tracker (uuid_of 99) ProviderJira service1).1 = Panic nil_pointer.
Proof. split_and!; by vm_compute. Qed.
Definition refused_scope (_ _ : string) : res unit := Err (ForbiddenError "missing required scope").
Example refused_and_answered_ok :
  (drop_query refused_scope service1).1 = Ok (Some (ForbiddenError "missing required scope")).
Proof. by vm_compute. Qed.
Definition dropped : service := (drop_query (λ _ _, Ok tt) service1).2.
Definition same_query : QueryPayload :=
  {| qp_ID := Some id_query; qp_Query := "is:issue"; qp_Schedule := "@hourly"; qp_Tracker := id_tracker; qp_Space := id_space;
     qp_WorkItemType := id_remote |}.
(** The id of a query that was deleted passes the check and violates the key; the answer is the message of a nil error. *)
Example recreated_query_panics :
  (Create_trackerquery no_json_time no_json_struct (λ _, true) "token" (λ _ _, Ok tt) t0 (uuid_of 98) (λ d, d) (Ok id_user) same_query dropped).1
    = Panic nil_pointer.
Proof. by vm_compute. Qed.
(** An issue without a state, as the null of a Jira issue that cannot be had, ends the job. *)
Example no_state_panics : (m ← NewRemoteWorkItem (λ _, Ok []) "null"; Map m jira_map) = Panic "interface conversion".
Proof. by vm_compute. Qed.
(** The job of a query that was deleted is still there. *)
Example deleted_query_still_runs :
  fetchTrackerQueries (sv_tracking dropped) = [] ∧
  map (query_of (sv_scheduler dropped)) (sc_entries (sv_scheduler dropped)) = [Some the_schedule].
Proof. split; by vm_compute. Qed.
