(* ===== verification/Cluster.v ===== *)
(** * What a cluster is asked

    The interfaces between the deployments and a cluster
    ([kubernetes/deployments_kubeclient.go], [kubernetes/deployments_metrics.go]):
    the objects of Kubernetes as far as the code looks at them, the clients of
    other projects as type classes, the client of the OpenShift API over
    [net/http], which is part of the repository, and the conversion of
    quantities and of errors.

    [W] is the world the calls change: what the cluster holds. *)

From Stdlib Require Import ZArith Lia Ascii String SpecFloat.
From S2P Require Export Errors Json.

(** ** JSON objects *)

Notation obj := (list (string * gval)).
(** [v.(map[string]interface{})], [v.([]interface{})], [v.(string)] on what a JSON text is read as. *)
Definition as_object (v : gval) : option obj := match v with VMap m => Some m | _ => None end.
Definition as_array (v : gval) : option (list gval) := match v with VSlice l => Some l | _ => None end.
Definition as_string (v : gval) : option string := match v with VString s => Some s | _ => None end.
Definition get_object (o : obj) (k : string) : option obj := map_get o k ≫= as_object.
Definition get_array (o : obj) (k : string) : option (list gval) := map_get o k ≫= as_array.
Definition get_string (o : obj) (k : string) : option string := map_get o k ≫= as_string.
Definition or_err {A} (format : string) (o : option A) : res A :=
  match o with Some a => Ok a | None => Err (Plain format) end.
(** [s, ok := v.(string); !ok || len(s) == 0] *)
Definition nonempty (o : option string) : option string :=
  match o with Some EmptyString => None | o => o end.
Definition getOptionalStringValue (respData : obj) (paramName : string) : res string :=
  match map_get respData paramName with
  | None => Ok ""
  | Some (VString s) => Ok s
  | Some _ => Err (Plain "property %s is not a string")
  end.
(** [if v, ok := m[k].(string); !ok || v != kind { return errs.New(format) }] *)
Definition check_kind (o : obj) (kind format : string) : res unit :=
  if bool_decide (get_string o "kind" = Some kind) then Ok tt else Err (Plain format).

(** [url.QueryEscape] on bytes *)
Definition hex_upper (d : N) : ascii := ascii_of_N (if (d <? 10)%N then 48 + d else 55 + d).
Definition unreserved (c : ascii) : bool :=
  let n := nat_of_ascii c in
  (Nat.leb 48 n && Nat.leb n 57) || (Nat.leb 65 n && Nat.leb n 90) || (Nat.leb 97 n && Nat.leb n 122)
  || existsb (Ascii.eqb c) ["-"; "_"; "."; "~"]%char.
Definition QueryEscape (s : string) : string :=
  of_chars (flat_map (λ c, if unreserved c then [c]
                           else if Ascii.eqb c " " then ["+"%char]
                           else ["%"%char; hex_upper (N_of_ascii c / 16); hex_upper (N_of_ascii c mod 16)]) (chars s)).

(** ** Objects of Kubernetes *)

Record OwnerReference := {
  ref_UID : string;
  ref_Controller : option bool;
}.
(** Times are instants in nanoseconds. *)
Record ReplicationController := {
  rc_Name : string;
  rc_UID : string;
  rc_Annotations : gmap string string;
  rc_CreationTimestamp : Z;
  rc_OwnerReferences : list OwnerReference;
  rc_Replicas : Z;                              (* Status.Replicas *)
  rc_TemplateLabels : option (gmap string string); (* Spec.Template and its labels *)
}.
Inductive ContainerState := {
  Waiting_Reason : option string;
  Running_StartedAt : option Z;
  Terminated_ExitCode : option Z;
}.
Record ContainerStatus := {
  cs_State : ContainerState;
  cs_Ready : bool;
}.
Record Service := {
  svc_Name : string;
  svc_Selector : gmap string string;
}.

(** ** Quantities, of [k8s.io/apimachinery/pkg/api/resource] *)

Class Quantities (Q : Type) := {
  AsInt64 : Q → option Z;
  Unscaled : Q → option Z;      (* of [AsDec] *)
  Scale : Q → Z;
  ParseQuantity : string → option Q;
}.
Record Container (Q : Type) := {
  Limits_Cpu : Q;
  Limits_Memory : Q;
}.
Arguments Limits_Cpu {Q} c.
Arguments Limits_Memory {Q} c.
Record Pod (Q : Type) := {
  pod_UID : string;
  pod_OwnerReferences : list OwnerReference;
  pod_CreationTimestamp : Z;
  pod_DeletionTimestamp : option Z;
  pod_Phase : string;
  pod_ContainerStatuses : list ContainerStatus;
  pod_Containers : list (Container Q);
}.
Arguments pod_UID {Q} p.
Arguments pod_OwnerReferences {Q} p.
Arguments pod_CreationTimestamp {Q} p.
Arguments pod_DeletionTimestamp {Q} p.
Arguments pod_Phase {Q} p.
Arguments pod_ContainerStatuses {Q} p.
Arguments pod_Containers {Q} p.
Record ResourceQuota (Q : Type) := {
  rq_Name : string;
  rq_Hard : gmap string Q;
  rq_Used : gmap string Q;
}.
Arguments rq_Name {Q} r.
Arguments rq_Hard {Q} r.
Arguments rq_Used {Q} r.
Record LimitRangeItem (Q : Type) := {
  lr_Type : string;
  lr_Default : gmap string Q;
}.
Arguments lr_Type {Q} l.
Arguments lr_Default {Q} l.

(** ** Numbers *)

Notation fadd := (SFadd 53 1024).
Notation fsub := (SFsub 53 1024).
Notation fmul := (SFmul 53 1024).
Notation f0 := (S754_zero false).
(** The float64 nearest to a ratio, for the tables of [math.Pow10]. *)
Definition float_of_ratio (p q : Z) : float64 :=
  let '(mz, ez, lz) := SFdiv_core_binary 53 1024 p 0 q 0 in binary_round_aux 53 1024 false mz ez lz.
Definition pow10tab (n : Z) : float64 := float_of_int (10 ^ n).
Definition pow10postab32 (n : Z) : float64 := float_of_int (10 ^ (32 * n)).
Definition pow10negtab32 (n : Z) : float64 := float_of_ratio 1 (10 ^ (32 * n)).
Definition Pow10 (n : Z) : float64 :=
  if (0 <=? n) && (n <=? 308) then fmul (pow10postab32 (n / 32)) (pow10tab (n mod 32))
  else if (-323 <=? n) && (n <=? 0) then SFdiv 53 1024 (pow10negtab32 (- n / 32)) (pow10tab (- n mod 32))
  else if 0 <? n then S754_infinity false else f0.
Definition quantityToFloat64 {Q} `{Quantities Q} (q : Q) : res float64 :=
  match AsInt64 q with
  | Some val64 => Ok (float_of_int val64)
  | None =>
      match Unscaled q with
      | None => Err (Plain "%s cannot be represented as a 64-bit integer")
      | Some val64 => Ok (fmul (float_of_int val64) (Pow10 (- Scale q)))
      end
  end.

(** ** Errors of the clients *)

(** [Status] of Kubernetes, and the classification of its package [errors]. *)
Class KubeErrors (St : Type) := {
  Status_Kind : St → string;
  IsBadRequest : St → bool;
  IsNotFound : St → bool;
  Status_Error : St → string;
}.
Inductive rest_error (St : Type) :=
  | StatusError (s : St)
  | OtherError (e : error).
Arguments StatusError {St} s.
Arguments OtherError {St} e.
Definition plain_of {St} `{KubeErrors St} (e : rest_error St) : error :=
  match e with StatusError s => Plain (Status_Error s) | OtherError e => e end.
(** [convertError(errs.WithStack(err), format, ...)] *)
Definition convertError {St} `{KubeErrors St} (err : rest_error St) (format : string) : error :=
  let internal message := Errors.NewInternalError (Wrapped message (Stacked (plain_of err))) in
  match err with
  | StatusError s =>
      let message := format +:+ ": " +:+ Status_Error s in
      if IsBadRequest s then Errors.NewBadParameterErrorFromString message
      else if IsNotFound s then Errors.NewNotFoundErrorFromString message
      else internal message
  | OtherError _ => internal format
  end.

(** What a call to a client of another project gives back. *)
Notation rest St A := (A + rest_error St)%type.
Definition converted {St A} `{KubeErrors St} (format : string) (r : rest St A) : res A :=
  match r with inl a => Ok a | inr e => Err (convertError e format) end.

(** ** The clients *)

Class KubeRESTAPI (W St Q : Type) := {
  ReplicationControllers_List : string → W → rest St (list ReplicationController) * W;
  Pods_List : string → W → rest St (list (Pod Q)) * W;
  ResourceQuotas_List : string → W → rest St (list (ResourceQuota Q)) * W;
  LimitRanges_Get : string → string → W → rest St (list (LimitRangeItem Q)) * W;
  (* the services of a namespace whose labels match, all of them for the empty selector *)
  Services_List : string → string → W → rest St (list Service) * W;
  Services_Delete : string → string → W → rest St unit * W;
}.
Definition calling {W St A} `{KubeErrors St} (format : string) (m : W → rest St A * W) : W → res A * W :=
  λ w, let '(r, w') := m w in (converted format r, w').

(** [BaseURLProvider] *)
Class BaseURLProvider (W : Type) := {
  GetEnvironmentMapping : gmap string string;
  CanDeploy : string → bool;
  GetAPIURL : res (option string);
  GetMetricsURL : string → res (option string);
  GetConsoleURL : string → res (option string);
  GetLoggingURL : string → string → res (option string);
  GetAPIToken : res (option string);
  GetMetricsToken : string → W → res (option string) * W;
}.

(** [HawkularRESTAPI]: what is read, for whom and with which token. *)
Record Bucketpoint := {
  bk_Start : Z;
  bk_End : Z;
  bk_Avg : float64;
}.
Inductive BucketsFilter := Buckets (n : Z) | BucketsDuration (nanos : Z).
Record bucket_query := {
  bq_Tenant : string;
  bq_Tags : list (string * string);
  bq_Start : Z;
  bq_End : Z;
  bq_Buckets : BucketsFilter;
}.
Record MetricsClientConfig := {
  MetricsURL : string;
  BearerToken : string;
}.
Class Hawkular (W : Type) := {
  NewHawkularClient : MetricsClientConfig → res unit;
  ReadBuckets : MetricsClientConfig → bucket_query → W → res (list Bucketpoint) * W;
  ToUnixMilli : Z → Z;
}.

(** [net/http] and [encoding/json] *)
Record http_request (bytes : Type) := {
  hr_Method : string;
  hr_URL : string;
  hr_Token : string;
  hr_Body : option bytes;
}.
Arguments hr_Method {bytes} h.
Arguments hr_URL {bytes} h.
Arguments hr_Token {bytes} h.
Arguments hr_Body {bytes} h.
Record http_response (bytes : Type) := {
  StatusCode : Z;
  Body : bytes;
  body_read : bool;             (* the body could be read to its end *)
}.
Arguments StatusCode {bytes} h.
Arguments Body {bytes} h.
Arguments body_read {bytes} h.
Class Network (W St : Type) := {
  bytes : Type;
  json_Marshal : gval → res bytes;
  (* into a [map[string]interface{}], nil for the text [null] *)
  json_Unmarshal : bytes → res (option obj);
  json_Unmarshal_Status : bytes → option St;
  NewRequest : string → res unit;       (* whether the URL can be parsed *)
  Do : http_request bytes → W → res (http_response bytes) * W;
}.

Definition verbGET : string := "GET".
Definition verbPUT : string := "PUT".
Definition verbPOST : string := "POST".
Definition verbDELETE : string := "DELETE".
Definition StatusOK : Z := 200.
Definition StatusPartialContent : Z := 206.

Section OpenShift.
Context {W St : Type} {HE : KubeErrors St} {HN : Network W St} {HB : BaseURLProvider W}.

Definition parseErrorFromStatus (body : bytes) : option (rest_error St) :=
  match json_Unmarshal_Status body with
  | Some kubeStatus => if String.eqb (Status_Kind kubeStatus) "Status" then Some (StatusError kubeStatus) else None
  | None => None
  end.
Definition status_failure {A} (body : bytes) (format : string) : res A :=
  match parseErrorFromStatus body with
  | Some err => Err (convertError err format)
  | None => Err (Plain format)
  end.
Definition ok_status (status : Z) : bool := (StatusOK <=? status) && (status <=? StatusPartialContent).

Definition sendResource (path method : string) (reqBody : gval) : W → res (option obj) * W :=
  let* url := s_query (λ _, url ← GetAPIURL; deref url) in
  let fullURL := TrimSuffix url "/" +:+ path in
  let* marshalled := s_query (λ _, with_stack (json_Marshal reqBody)) in
  let* _ := s_query (λ _, with_stack (NewRequest fullURL)) in
  let* token := s_query (λ _, token ← GetAPIToken; deref token) in
  let* resp := s_map with_stack (Do {| hr_Method := method; hr_URL := fullURL; hr_Token := token;
                                       hr_Body := Some marshalled |}) in
  s_query (λ _,
    if negb (body_read resp) then Err (Stacked (Plain "could not read response"))
    else if negb (ok_status (StatusCode resp))
    then status_failure (Body resp) "failed to %s url %s due to status code %d"
    else with_stack (json_Unmarshal (Body resp))).

(** Whether the body could be read to its end is not looked at. *)
Definition getResource (path : string) (allowMissing : bool) : W → res (option obj) * W :=
  let* url := s_query (λ _, url ← GetAPIURL; deref url) in
  let fullURL := TrimSuffix url "/" +:+ path in
  let* _ := s_query (λ _, with_stack (NewRequest fullURL)) in
  let* token := s_query (λ _, token ← GetAPIToken; deref token) in
  let* resp := s_map with_stack (Do {| hr_Method := verbGET; hr_URL := fullURL; hr_Token := token; hr_Body := None |}) in
  s_query (λ _,
    if (StatusCode resp =? Errors.StatusNotFound) && allowMissing then Ok None
    else if negb (ok_status (StatusCode resp))
    then status_failure (Body resp) "failed to GET url %s due to status code %d"
    else with_stack (json_Unmarshal (Body resp))).
(** A nil map has no keys. *)
Definition getMap (path : string) : W → res obj * W :=
  s_map (fmap (default [])) (getResource path false).

Definition namespaced (namespace path : string) : string := "/oapi/v1/namespaces/" +:+ namespace +:+ "/" +:+ path.
Definition GetDeploymentConfigScale (namespace name : string) : W → res obj * W :=
  getMap (namespaced namespace ("deploymentconfigs/" +:+ name +:+ "/scale")).
Definition SetDeploymentConfigScale (namespace name : string) (scale : obj) : W → res (option obj) * W :=
  sendResource (namespaced namespace ("deploymentconfigs/" +:+ name +:+ "/scale")) verbPUT (VMap scale).
Definition GetBuildConfigs (namespace labelSelector : string) : W → res obj * W :=
  getMap (namespaced namespace ("buildconfigs?labelSelector=" +:+ labelSelector)).
Definition GetBuilds (namespace labelSelector : string) : W → res obj * W :=
  getMap (namespaced namespace ("builds?labelSelector=" +:+ labelSelector)).
Definition GetDeploymentConfig (namespace name : string) : W → res (option obj) * W :=
  getResource (namespaced namespace ("deploymentconfigs/" +:+ name)) true.
(** [metaV1.DeleteOptions] with the policy [Foreground] *)
Definition delete_options : gval :=
  VMap [("kind", VString "DeleteOptions"); ("apiVersion", VString "v1"); ("propagationPolicy", VString "Foreground")].
Definition DeleteDeploymentConfig (namespace name : string) (opts : gval) : W → res (option obj) * W :=
  sendResource (namespaced namespace ("deploymentconfigs/" +:+ name)) verbDELETE opts.
Definition GetRoutes (namespace labelSelector : string) : W → res obj * W :=
  getMap (namespaced namespace (if String.eqb labelSelector "" then "routes" else "routes?labelSelector=" +:+ labelSelector)).
Definition DeleteRoute (namespace name : string) (opts : gval) : W → res (option obj) * W :=
  sendResource (namespaced namespace ("routes/" +:+ name)) verbDELETE opts.
Definition CreateSelfSubjectRulesReview (namespace : string) (review : obj) : W → res (option obj) * W :=
  sendResource (namespaced namespace "selfsubjectrulesreviews") verbPOST (VMap review).
End OpenShift.
