(* ===== verification/KubeAccess.v ===== *)
(** * What a user may do in an environment

    [kubernetes/deployments_access.go]: the rules a review of the cluster
    gives for a namespace, kept per environment for the time of a request, and
    the questions about the operations of the client.  Then which answers are
    grounded in a rule, and the rules that get lost. *)

From Stdlib Require Import ZArith Lia Ascii String SpecFloat.
From S2P Require Export Cluster.

Record qualifiedResource := {
  apiGroup : string;
  resourceType : string;
}.
#[export] Instance qualifiedResource_eq_dec : EqDecision qualifiedResource.
Proof. solve_decision. Defined.
#[export] Instance qualifiedResource_countable : Countable qualifiedResource :=
  inj_countable' (λ q, (apiGroup q, resourceType q)) (λ p, {| apiGroup := p.1; resourceType := p.2 |})
    (λ q, match q with Build_qualifiedResource _ _ => eq_refl end).
Record requestedAccess := {
  resource : qualifiedResource;
  verbs : list string;
}.
Notation simpleAccessRule := (gset string).
Notation accessRules := (gmap qualifiedResource simpleAccessRule).
Definition rulesReviewWildcard : string := "*".
Definition allResAllGroup : qualifiedResource := {| apiGroup := rulesReviewWildcard; resourceType := rulesReviewWildcard |}.

(** ** Rules *)

Definition containsVerb (rulesMap : accessRules) (res : qualifiedResource) (verb : string) : bool :=
  match rulesMap !! res with Some rule => bool_decide (verb ∈ rule) | None => false end.
Definition isAuthorized (rulesMap : accessRules) (reqs : list requestedAccess) : bool :=
  forallb (λ req,
    let res := resource req in
    let allRes := {| apiGroup := apiGroup res; resourceType := rulesReviewWildcard |} in
    let allGroup := {| apiGroup := rulesReviewWildcard; resourceType := resourceType res |} in
    forallb (λ verb, containsVerb rulesMap res verb || containsVerb rulesMap allResAllGroup verb
                     || containsVerb rulesMap allRes verb || containsVerb rulesMap allGroup verb) (verbs req)) reqs.

(** An element that is not a string is taken as the empty one. *)
Definition getStringSliceFromJSON (jsonObj : obj) (name : string) : list string :=
  match get_array jsonObj name with
  | Some jsonArray => map (λ jsonItem, default "" (as_string jsonItem)) jsonArray
  | None => []
  end.
Definition getStringSetFromJSON (jsonObj : obj) (name : string) : gset string :=
  match get_array jsonObj name with
  | Some jsonArray => list_to_set (map (λ jsonItem, default "" (as_string jsonItem)) jsonArray)
  | None => ∅
  end.
Definition restricted (rule : obj) (name : string) : bool :=
  match get_array rule name with Some (_ :: _) => true | _ => false end.
(** The resources a rule is for. *)
Definition rule_keys (rule : obj) : list qualifiedResource :=
  let groups := match getStringSliceFromJSON rule "apiGroups" with [] => [""] | groups => groups end in
  flat_map (λ resource, map (λ group, {| apiGroup := group; resourceType := resource |}) groups)
    (getStringSliceFromJSON rule "resources").
Definition processRule (rules : accessRules) (rule : obj) : accessRules :=
  if restricted rule "resourceNames" || restricted rule "nonResourceURLs" then rules
  else fold_left (λ rules key, <[key := getStringSetFromJSON rule "verbs"]> rules) (rule_keys rule) rules.
Fixpoint processRules (result : accessRules) (rules : list gval) : res accessRules :=
  match rules with
  | [] => Ok result
  | rawRule :: rules =>
      rule ← or_err "rule returned from %s is not a JSON object" (as_object rawRule);
      processRules (processRule result rule) rules
  end.

(** ** The client

    [kubeClient]: the world, and what it remembers. *)

Record kube (W : Type) := {
  world : W;
  rulesMap : gmap string accessRules;
  metricsMap : gmap string MetricsClientConfig;
}.
Arguments world {W} k.
Arguments rulesMap {W} k.
Arguments metricsMap {W} k.
Definition on_world {W A} (m : W → res A * W) : kube W → res A * kube W := λ kc,
  let '(r, w) := m (world kc) in (r, {| world := w; rulesMap := rulesMap kc; metricsMap := metricsMap kc |}).

Definition verbGet : string := "get".
Definition verbList : string := "list".
Definition verbUpdate : string := "update".
Definition verbDelete : string := "delete".
Definition environmentTypeUser : string := "user".
Definition access (resource : string) (verbs : list string) : requestedAccess :=
  {| resource := {| apiGroup := ""; resourceType := resource |}; verbs := verbs |}.
Definition getDeploymentRules : list requestedAccess :=
  [access "deploymentconfigs" [verbGet]; access "replicationcontrollers" [verbList]; access "pods" [verbList];
   access "services" [verbList]; access "routes" [verbList]].
Definition scaleDeploymentRules : list requestedAccess :=
  [access "deploymentconfigs" [verbGet]; access "deploymentconfigs/scale" [verbGet];
   access "deploymentconfigs/scale" [verbUpdate]].
Definition deleteDeploymentRules : list requestedAccess :=
  [access "services" [verbList; verbDelete]; access "routes" [verbList; verbDelete];
   access "deploymentconfigs" [verbGet; verbDelete]].
Definition getDeploymentStatsRules : list requestedAccess :=
  [access "deploymentconfigs" [verbGet]; access "replicationcontrollers" [verbList]; access "pods" [verbList]].
Definition getBuildConfigsAndBuildsRules : list requestedAccess :=
  [access "buildconfigs" [verbList]; access "builds" [verbList]].
Definition getBuildsRules : list requestedAccess := [access "builds" [verbList]].
Definition getEnvironmentRules : list requestedAccess := [access "resourcequotas" [verbList]].

Section Access.
Context {W St : Type} {HE : KubeErrors St} {HN : Network W St} {HB : BaseURLProvider W}.
Context (envMap : gmap string string) (range : gmap string string → list (string * string)).
Notation kcm A := (kube W → res A * kube W).

Definition getEnvironmentNamespace (envName : string) : res string :=
  or_err "unknown environment: %s" (envMap !! envName).
Definition review_request : obj := [("apiVersion", VString "v1"); ("kind", VString "SelfSubjectRulesReview")].
Definition parse_review (reviewResult : option obj) : res accessRules :=
  status ← or_err "status missing from SelfSubjectRulesReview returned from %s" (get_object (default [] reviewResult) "status");
  rules ← or_err "rules missing from SelfSubjectRulesReview returned from %s" (get_array status "rules");
  processRules ∅ rules.
Definition lookupAllRules (namespace : string) : W → res accessRules * W :=
  let* reviewResult := CreateSelfSubjectRulesReview namespace review_request in
  s_query (λ _, parse_review reviewResult).
Definition cache_rules (envName : string) (rules : accessRules) : kcm unit := λ kc,
  (Ok tt, {| world := world kc; rulesMap := <[envName := rules]> (rulesMap kc); metricsMap := metricsMap kc |}).
Definition getRulesForEnvironment (envName : string) : kcm accessRules := λ kc,
  match rulesMap kc !! envName with
  | Some rules => (Ok rules, kc)
  | None =>
      (let* envNS := s_query (λ _, getEnvironmentNamespace envName) in
       let* rules := on_world (lookupAllRules envNS) in
       let* _ := cache_rules envName rules in
       s_ret rules) kc
  end.
Definition checkAuthorizedInEnv (reqs : list requestedAccess) (envName : string) : kcm bool :=
  let* rules := getRulesForEnvironment envName in s_ret (isAuthorized rules reqs).
Definition checkAuthorizedWithBuilds (envName : string) (reqs : list requestedAccess) : kcm bool :=
  let* ok := checkAuthorizedInEnv getBuildsRules environmentTypeUser in
  if negb ok then s_ret false else checkAuthorizedInEnv reqs envName.
(** [for envName := range kc.envMap { if kc.CanDeploy(envName) { ... } }] *)
Fixpoint check_envs (reqs : list requestedAccess) (envs : list string) : kcm bool :=
  match envs with
  | [] => s_ret true
  | envName :: envs =>
      if CanDeploy envName
      then let* ok := checkAuthorizedInEnv reqs envName in
           if negb ok then s_ret false else check_envs reqs envs
      else check_envs reqs envs
  end.

Definition CanGetSpace : kcm bool :=
  let* ok := checkAuthorizedInEnv getBuildConfigsAndBuildsRules environmentTypeUser in
  if negb ok then s_ret false else check_envs getDeploymentRules (range envMap).*1.
Definition CanGetApplication : kcm bool :=
  let* ok := checkAuthorizedInEnv getBuildsRules environmentTypeUser in
  if negb ok then s_ret false else check_envs getDeploymentRules (range envMap).*1.
Definition CanGetDeployment (envName : string) : kcm bool := checkAuthorizedWithBuilds envName getDeploymentRules.
Definition CanScaleDeployment (envName : string) : kcm bool := checkAuthorizedWithBuilds envName scaleDeploymentRules.
Definition CanDeleteDeployment (envName : string) : kcm bool := checkAuthorizedWithBuilds envName deleteDeploymentRules.
Definition CanGetDeploymentStats (envName : string) : kcm bool := checkAuthorizedWithBuilds envName getDeploymentStatsRules.
Definition CanGetDeploymentStatSeries (envName : string) : kcm bool :=
  checkAuthorizedWithBuilds envName getDeploymentStatsRules.
Definition CanGetEnvironment (envName : string) : kcm bool := checkAuthorizedInEnv getEnvironmentRules envName.
Definition CanGetEnvironments : kcm bool := check_envs getEnvironmentRules (range envMap).*1.
End Access.

(** ** Which rule counts

    A later rule for a resource takes the place of an earlier one. *)

Definition applies (key : qualifiedResource) (rule : obj) : bool :=
  negb (restricted rule "resourceNames" || restricted rule "nonResourceURLs") && bool_decide (key ∈ rule_keys rule).
Definition rule_for (rules : list gval) (key : qualifiedResource) : option obj :=
  last (List.filter (applies key) (omap as_object rules)).

Lemma fold_insert_lookup (v : gset string) (keys : list qualifiedResource) (m : accessRules) key :
  fold_left (λ rules key, <[key := v]> rules) keys m !! key = (if bool_decide (key ∈ keys) then Some v else m !! key).
Proof.
  revert m; induction keys as [|k keys IH]; intros m; simpl; [done|].
  rewrite IH. case_bool_decide as H; case_bool_decide as H'; try done.
  - exfalso. apply H'. by right.
  - apply elem_of_cons in H' as [->|?]; [apply lookup_insert_eq|done].
  - apply lookup_insert_ne. intros ->. apply H'. by left.
Qed.
Lemma processRule_lookup m rule key :
  processRule m rule !! key = (if applies key rule then Some (getStringSetFromJSON rule "verbs") else m !! key).
Proof.
  unfold processRule, applies. destruct (_ || _); simpl; [done|]. apply fold_insert_lookup.
Qed.
Lemma processRules_lookup m rules m' key : processRules m rules = Ok m' →
  m' !! key = match rule_for rules key with
              | Some rule => Some (getStringSetFromJSON rule "verbs")
              | None => m !! key
              end.
Proof.
  unfold rule_for. revert m; induction rules as [|raw rules IH]; intros m; simpl; [by intros [= ->]|].
  destruct (as_object raw) as [rule|]; simpl; [|done]. intros H. rewrite (IH _ H), processRule_lookup.
  destruct (applies key rule); [|done]. rewrite last_cons. by destruct (last _).
Qed.

(** ** Answers

    [grants rules res verb]: of the rules for the resource, for everything,
    for its group and for its type one says the verb. *)

Definition wildcards (res : qualifiedResource) : list qualifiedResource :=
  [res; allResAllGroup; {| apiGroup := apiGroup res; resourceType := rulesReviewWildcard |};
   {| apiGroup := rulesReviewWildcard; resourceType := resourceType res |}].
Definition grants (rules : list gval) (res : qualifiedResource) (verb : string) : Prop :=
  ∃ key rule, key ∈ wildcards res ∧ rule_for rules key = Some rule ∧ verb ∈ getStringSetFromJSON rule "verbs".

Lemma containsVerb_spec rules m key verb : processRules ∅ rules = Ok m →
  containsVerb m key verb = true ↔ ∃ rule, rule_for rules key = Some rule ∧ verb ∈ getStringSetFromJSON rule "verbs".
Proof.
  intros H. unfold containsVerb. rewrite (processRules_lookup _ _ _ key H). destruct (rule_for rules key) as [rule|].
  - rewrite bool_decide_eq_true. naive_solver.
  - rewrite lookup_empty. naive_solver.
Qed.
Definition permitted (m : accessRules) (res : qualifiedResource) (verb : string) : bool :=
  existsb (λ key, containsVerb m key verb) (wildcards res).
Lemma permitted_spec rules m res verb : processRules ∅ rules = Ok m → permitted m res verb = true ↔ grants rules res verb.
Proof.
  intros H. unfold permitted, grants. rewrite existsb_exists. split.
  - intros (key & Hk & (rule & ? & ?)%(containsVerb_spec rules)); [|done]. exists key, rule. by rewrite list_elem_of_In.
  - intros (key & rule & Hk & ? & ?). exists key. rewrite <- list_elem_of_In. split; [done|].
    apply (containsVerb_spec rules); [done|]. by exists rule.
Qed.
Lemma forallb_elem {A} (f : A → bool) l : forallb f l = true ↔ ∀ x, x ∈ l → f x = true.
Proof. rewrite forallb_forall. by setoid_rewrite list_elem_of_In. Qed.
Lemma forallb_witness {A} (f : A → bool) l : forallb f l = false → ∃ x, x ∈ l ∧ f x = false.
Proof.
  induction l as [|x l IH]; simpl; [done|]. destruct (f x) eqn:E; simpl.
  - intros (y & ? & ?)%IH. exists y. by split; [right|].
  - intros _. exists x. by split; [left|].
Qed.
Lemma isAuthorized_permitted m reqs :
  isAuthorized m reqs = forallb (λ req, forallb (permitted m (resource req)) (verbs req)) reqs.
Proof.
  unfold isAuthorized. induction reqs as [|req reqs IH]; simpl; [done|]. f_equal; [|done].
  induction (verbs req) as [|v vs IHv]; simpl; [done|]. f_equal; [|done].
  unfold permitted; simpl. by rewrite orb_false_r, !orb_assoc.
Qed.

Inductive question :=
  | AskGetSpace
  | AskGetApplication
  | AskGetDeployment (envName : string)
  | AskScaleDeployment (envName : string)
  | AskDeleteDeployment (envName : string)
  | AskGetDeploymentStats (envName : string)
  | AskGetDeploymentStatSeries (envName : string)
  | AskGetEnvironment (envName : string)
  | AskGetEnvironments.

Section Answers.
Context {W St : Type} {HE : KubeErrors St} {HN : Network W St} {HB : BaseURLProvider W}.
Context (envMap : gmap string string) (range : gmap string string → list (string * string)).
Hypothesis Hrange : ∀ m, range m ≡ₚ map_to_list m.
Notation kcm A := (kube W → res A * kube W).

Definition ask (q : question) : kcm bool :=
  match q with
  | AskGetSpace => CanGetSpace envMap range
  | AskGetApplication => CanGetApplication envMap range
  | AskGetDeployment e => CanGetDeployment envMap e
  | AskScaleDeployment e => CanScaleDeployment envMap e
  | AskDeleteDeployment e => CanDeleteDeployment envMap e
  | AskGetDeploymentStats e => CanGetDeploymentStats envMap e
  | AskGetDeploymentStatSeries e => CanGetDeploymentStatSeries envMap e
  | AskGetEnvironment e => CanGetEnvironment envMap e
  | AskGetEnvironments => CanGetEnvironments envMap range
  end.
Definition deployable (envName : string) : Prop := is_Some (envMap !! envName) ∧ CanDeploy envName = true.
(** What has to be granted, and where. *)
Definition needs (q : question) (env : string) (reqs : list requestedAccess) : Prop :=
  let with_builds e rules := env = environmentTypeUser ∧ reqs = getBuildsRules ∨ env = e ∧ reqs = rules in
  match q with
  | AskGetSpace => env = environmentTypeUser ∧ reqs = getBuildConfigsAndBuildsRules
                   ∨ deployable env ∧ reqs = getDeploymentRules
  | AskGetApplication => env = environmentTypeUser ∧ reqs = getBuildsRules ∨ deployable env ∧ reqs = getDeploymentRules
  | AskGetDeployment e => with_builds e getDeploymentRules
  | AskScaleDeployment e => with_builds e scaleDeploymentRules
  | AskDeleteDeployment e => with_builds e deleteDeploymentRules
  | AskGetDeploymentStats e | AskGetDeploymentStatSeries e => with_builds e getDeploymentStatsRules
  | AskGetEnvironment e => env = e ∧ reqs = getEnvironmentRules
  | AskGetEnvironments => deployable env ∧ reqs = getEnvironmentRules
  end.

(** The cluster answered a review of the namespace of [env] with [rules]. *)
Definition reviewed (env : string) (rules : list gval) : Prop :=
  ∃ ns w reply w' status, envMap !! env = Some ns ∧
    CreateSelfSubjectRulesReview ns review_request w = (Ok reply, w') ∧
    get_object (default [] reply) "status" = Some status ∧ get_array status "rules" = Some rules.
Definition cache_ok (kc : kube W) : Prop :=
  ∀ env m, rulesMap kc !! env = Some m → ∃ rules, reviewed env rules ∧ processRules ∅ rules = Ok m.
Definition granted (env : string) (reqs : list requestedAccess) : Prop :=
  ∃ rules, reviewed env rules ∧ ∀ req verb, req ∈ reqs → verb ∈ verbs req → grants rules (resource req) verb.
Definition refused (env : string) (reqs : list requestedAccess) : Prop :=
  ∃ rules req verb, reviewed env rules ∧ req ∈ reqs ∧ verb ∈ verbs req ∧ ¬ grants rules (resource req) verb.

Lemma lookupAllRules_ok ns w m w' : lookupAllRules ns w = (Ok m, w') →
  ∃ reply status rules, CreateSelfSubjectRulesReview ns review_request w = (Ok reply, w') ∧
    get_object (default [] reply) "status" = Some status ∧ get_array status "rules" = Some rules ∧
    processRules ∅ rules = Ok m.
Proof.
  unfold lookupAllRules. intros (reply & w1 & H1 & H2)%s_bind_ok. apply s_query_ok in H2 as [H2 ->].
  unfold parse_review in H2. apply bind_ok in H2 as (status & Hs & H2). apply bind_ok in H2 as (rules & Hr & H2).
  exists reply, status, rules. split_and!; [done|by destruct (get_object _ _); simplify_eq/=|
    by destruct (get_array _ _); simplify_eq/=|done].
Qed.
Lemma getRules_ok env kc m kc' : cache_ok kc → getRulesForEnvironment envMap env kc = (Ok m, kc') →
  cache_ok kc' ∧ ∃ rules, reviewed env rules ∧ processRules ∅ rules = Ok m.
Proof.
  intros Hc. unfold getRulesForEnvironment. destruct (rulesMap kc !! env) as [m0|] eqn:E.
  { intros [= -> ->]. split; [done|by apply Hc]. }
  intros (ns & k1 & H1 & H)%s_bind_ok. apply s_query_ok in H1 as [H1 ->].
  apply s_bind_ok in H as (m1 & k2 & H2 & H). apply s_bind_ok in H as ([] & k3 & H3 & H). injection H as -> <-.
  unfold on_world in H2. destruct (lookupAllRules ns (world kc)) as [r w] eqn:EL. injection H2 as -> <-.
  injection H3 as <-. apply lookupAllRules_ok in EL as (reply & status & rules & Hr & Hs & Ha & Hp).
  unfold getEnvironmentNamespace, or_err in H1. destruct (envMap !! env) as [ns'|] eqn:En; simplify_eq/=.
  assert (Hrev : reviewed env rules) by (by exists ns, (world kc), reply, w, status).
  split; [|by exists rules]. intros env' m'. simpl.
  destruct (decide (env = env')) as [->|Hne].
  - rewrite lookup_insert_eq. intros [= <-]. by exists rules.
  - rewrite lookup_insert_ne by done. apply Hc.
Qed.

Definition answer_in (b : bool) (env : string) (reqs : list requestedAccess) : Prop :=
  if b then granted env reqs else refused env reqs.
Lemma check_ok reqs env kc b kc' : cache_ok kc → checkAuthorizedInEnv envMap reqs env kc = (Ok b, kc') →
  cache_ok kc' ∧ answer_in b env reqs.
Proof.
  intros Hc (m & k1 & H1 & H)%s_bind_ok. apply getRules_ok in H1 as (Hc1 & rules & Hrev & Hp); [|done].
  injection H as <- <-. split; [done|]. rewrite isAuthorized_permitted. destruct (forallb _ reqs) eqn:E; simpl.
  - exists rules. split; [done|]. intros req verb Hreq Hv. apply (permitted_spec rules m); [done|].
    rewrite forallb_elem in E. specialize (E req Hreq). rewrite forallb_elem in E. by apply E.
  - apply forallb_witness in E as (req & Hreq & (verb & Hv & E)%forallb_witness).
    exists rules, req, verb. split_and!; [done..|]. by rewrite <- (permitted_spec rules m), E.
Qed.
Lemma check_envs_ok reqs envs kc b kc' : cache_ok kc → check_envs envMap reqs envs kc = (Ok b, kc') →
  cache_ok kc' ∧ if b then ∀ env, env ∈ envs → CanDeploy env = true → granted env reqs
                 else ∃ env, env ∈ envs ∧ CanDeploy env = true ∧ refused env reqs.
Proof.
  revert kc; induction envs as [|env envs IH]; intros kc Hc; simpl.
  { intros [= <- <-]. split; [done|]. by intros env ?%not_elem_of_nil. }
  destruct (CanDeploy env) eqn:Ed.
  - intros (ok & k1 & H1 & H)%s_bind_ok. apply check_ok in H1 as [Hc1 Ha]; [|done]. destruct ok; simpl in H.
    + apply IH in H as [Hc' H]; [|done]. split; [done|]. destruct b.
      * intros env' [->|?]%elem_of_cons ?; [done|by apply H].
      * destruct H as (e & ? & ? & ?). exists e. by split; [right|].
    + injection H as <- <-. split; [done|]. exists env. by split; [left|].
  - intros H. apply IH in H as [Hc' H]; [|done]. split; [done|]. destruct b.
    + intros env' [->|?]%elem_of_cons ?; [congruence|by apply H].
    + destruct H as (e & ? & ? & ?). exists e. by split; [right|].
Qed.
Lemma elem_of_range env : env ∈ (range envMap).*1 ↔ is_Some (envMap !! env).
Proof.
  rewrite Hrange, list_elem_of_fmap. split.
  - intros ([e ns] & -> & H%elem_of_map_to_list). by exists ns.
  - intros [ns H]. exists (env, ns). by rewrite elem_of_map_to_list.
Qed.

(** C16: An operation is allowed exactly when each access it needs is granted by the rule that counts in
    the review of its namespace; it is refused over one that is not. *)
Theorem access_answers q kc b kc' : cache_ok kc → ask q kc = (Ok b, kc') →
  cache_ok kc' ∧ if b then ∀ env reqs, needs q env reqs → granted env reqs
                 else ∃ env reqs, needs q env reqs ∧ refused env reqs.
Proof.
  intros Hc.
  assert (Hb : ∀ e rules, checkAuthorizedWithBuilds envMap e rules kc = (Ok b, kc') → cache_ok kc' ∧
    if b then ∀ env reqs, env = environmentTypeUser ∧ reqs = getBuildsRules ∨ env = e ∧ reqs = rules → granted env reqs
    else ∃ env reqs, (env = environmentTypeUser ∧ reqs = getBuildsRules ∨ env = e ∧ reqs = rules) ∧ refused env reqs).
  { intros e rules (ok & k1 & H1 & H)%s_bind_ok. apply check_ok in H1 as [Hc1 Ha]; [|done]. destruct ok; simpl in H.
    - apply check_ok in H as [Hc' H]; [|done]. split; [done|]. destruct b; naive_solver.
    - injection H as <- <-. split; [done|]. naive_solver. }
  assert (Hs : ∀ rules, (let* ok := checkAuthorizedInEnv envMap rules environmentTypeUser in
      if negb ok then s_ret false else check_envs envMap getDeploymentRules (range envMap).*1) kc = (Ok b, kc') → cache_ok kc' ∧
    if b then ∀ env reqs, env = environmentTypeUser ∧ reqs = rules ∨ deployable env ∧ reqs = getDeploymentRules → granted env reqs
    else ∃ env reqs, (env = environmentTypeUser ∧ reqs = rules ∨ deployable env ∧ reqs = getDeploymentRules) ∧ refused env reqs).
  { intros rules (ok & k1 & H1 & H)%s_bind_ok. apply check_ok in H1 as [Hc1 Ha]; [|done]. destruct ok; simpl in H.
    - apply check_envs_ok in H as [Hc' H]; [|done]. split; [done|]. unfold deployable. destruct b.
      + intros env reqs [[-> ->]|[[? ?] ->]]; [done|]. apply H; [by apply elem_of_range|done].
      + destruct H as (e & He%elem_of_range & ? & ?). exists e, getDeploymentRules. split; [by right|done].
    - injection H as <- <-. split; [done|]. exists environmentTypeUser, rules. split; [by left|done]. }
  destruct q; simpl; [apply Hs|apply Hs|apply Hb..| |].
  - intros H. apply check_ok in H as [Hc' H]; [|done]. split; [done|]. destruct b; naive_solver.
  - intros H. apply check_envs_ok in H as [Hc' H]; [|done]. split; [done|]. unfold deployable. destruct b.
    + intros env reqs [[? ?] ->]. apply H; [by apply elem_of_range|done].
    + destruct H as (e & He%elem_of_range & ? & ?). exists e, getEnvironmentRules. done.
Qed.
End Answers.
