(* ===== verification/KubeClient.v ===== *)
(** * The client of the cluster

    [kubernetes/deployments_kubeclient.go] and [kubernetes/deployments_metrics.go]:
    spaces, applications and their deployments as a cluster knows them, scaling
    and deleting a deployment, quotas, routes and metrics.  The texts of times
    and of YAML are read by arguments; watching events is left out. *)

From Stdlib Require Import ZArith Lia Ascii String SpecFloat.
From S2P Require Export KubeAccess.

Notation pure r := (s_query (λ _, r)).

(** ** What is answered *)

Record deployment := {
  dcName : string;
  dcUID : string;
  appVersion : string;
  current : option ReplicationController;
}.
Record route := {
  host : string;
  path : string;
  tls : bool;
  hasAdmitted : bool;
  hasAlternateBackends : bool;
  isCustomHost : bool;
}.
Record URL := {
  url_Scheme : string;
  url_Host : string;
  url_Path : string;
}.
Record PodsQuota := {
  Cpucores : float64;
  Memory : float64;
}.
Record DeploymentLinks := {
  Console : option string;
  Logs : option string;
  Application : option string;
}.
Record SimpleDeployment := {
  sd_Name : string;
  sd_Version : string;
  sd_Pods : list (list string);
  sd_PodTotal : Z;
  sd_PodsQuota : PodsQuota;
  sd_Links : option DeploymentLinks;
}.
Record SimpleApp := {
  sa_Name : string;
  sa_Deployments : list SimpleDeployment;
}.
Record SimpleSpace := {
  ss_Name : string;
  ss_Applications : list SimpleApp;
}.
Record EnvStatQuota := {
  Quota : float64;
  Used : float64;
}.
Record EnvStats := {
  es_Cpucores : EnvStatQuota;
  es_Memory : EnvStatQuota;
  es_Pods : option EnvStatQuota;
  es_ReplicationControllers : option EnvStatQuota;
  es_ResourceQuotas : option EnvStatQuota;
  es_Services : option EnvStatQuota;
  es_Secrets : option EnvStatQuota;
  es_ConfigMaps : option EnvStatQuota;
  es_PersistentVolumeClaims : option EnvStatQuota;
  es_ImageStreams : option EnvStatQuota;
}.
Record SimpleEnvironment := {
  se_Name : string;
  se_Quota : EnvStats;
}.
Record SpaceAndOtherEnvironmentUsage := {
  su_Name : string;
  su_SpaceUsage : PodsQuota;
  su_OtherUsage : EnvStats;
}.
Record TimedNumberTuple := {
  tn_Time : float64;
  tn_Value : float64;
}.
Record SimpleDeploymentStats := {
  st_Cores : option TimedNumberTuple;
  st_Memory : option TimedNumberTuple;
  st_NetTx : option TimedNumberTuple;
  st_NetRx : option TimedNumberTuple;
}.
Record SimpleDeploymentStatSeries := {
  sr_Cores : list TimedNumberTuple;
  sr_Memory : list TimedNumberTuple;
  sr_NetTx : list TimedNumberTuple;
  sr_NetRx : list TimedNumberTuple;
  sr_Start : option float64;
  sr_End : option float64;
}.

(** ** Metrics *)

Definition descriptorTag : string := "descriptor_name".
Definition cpuDesc : string := "cpu/usage_rate".
Definition memDesc : string := "memory/usage".
Definition netSent : string := "network/tx_rate".
Definition netRecv : string := "network/rx_rate".
Definition typeTag : string := "type".
Definition typePod : string := "pod".
Definition podIDTag : string := "pod_id".
Definition bucketDuration : Z := 60 * 10 ^ 9.
Definition millicoreToCoreScale : float64 := float_of_ratio 1 1000.
Definition noScale : float64 := float_of_int 1.

Section Metrics.
Context {W Q : Type} {HH : Hawkular W}.
Notation wm A := (W → res A * W).

Definition convertToUnixMillis (t : Z) : Z := ToUnixMilli t.
Definition bucketToTuple (bucket : Bucketpoint) (scale : float64) : TimedNumberTuple :=
  {| tn_Value := fmul (bk_Avg bucket) scale; tn_Time := float_of_int (convertToUnixMillis (bk_Start bucket)) |}.
Definition bucketsToTuples (buckets : list Bucketpoint) (scale : float64) : list TimedNumberTuple :=
  map (λ b, bucketToTuple b scale) buckets.
Definition readBuckets (mc : MetricsClientConfig) (pods : list (Pod Q)) (namespace descTag : string)
    (startTime endTime : Z) (filter : BucketsFilter) : wm (list Bucketpoint) :=
  match pods with
  | [] => s_ret []
  | _ => ReadBuckets mc {| bq_Tenant := namespace;
                           bq_Tags := [(descriptorTag, descTag); (typeTag, typePod);
                                       (podIDTag, Join (map pod_UID pods) "|")];
                           bq_Start := startTime; bq_End := endTime; bq_Buckets := filter |}
  end.
Definition getLatestBucket (mc : MetricsClientConfig) (pods : list (Pod Q)) (namespace descTag : string) (startTime : Z) :
    wm (option Bucketpoint) :=
  let endTime := startTime + bucketDuration in
  let* buckets := s_map with_stack (readBuckets mc pods namespace descTag startTime endTime (Buckets 1)) in
  s_ret (head buckets).
Definition getBucketAverage (mc : MetricsClientConfig) (pods : list (Pod Q)) (namespace descTag : string) (startTime : Z)
    (scale : float64) : wm (option TimedNumberTuple) :=
  let* result := s_map with_stack (getLatestBucket mc pods namespace descTag startTime) in
  s_ret ((λ b, bucketToTuple b scale) <$> result).
(** The window of the buckets that were read: not the last one when it ends after the range, and the
    newest ones up to the limit. *)
Definition bucket_window (endTime limit : Z) (buckets : list Bucketpoint) : list Bucketpoint :=
  match last buckets with
  | None => buckets
  | Some lastBucket =>
      let buckets := if endTime <? bk_End lastBucket then removelast buckets else buckets in
      let numBuckets := Z.of_nat (length buckets) in
      if (0 <=? limit) && (limit <? numBuckets) then drop (Z.to_nat (numBuckets - limit)) buckets else buckets
  end.
Definition getBucketsInRange (mc : MetricsClientConfig) (pods : list (Pod Q)) (namespace descTag : string)
    (startTime endTime limit : Z) : wm (list Bucketpoint) :=
  let* buckets := s_map with_stack (readBuckets mc pods namespace descTag startTime endTime
                                      (BucketsDuration bucketDuration)) in
  s_ret (bucket_window endTime limit buckets).

Definition GetCPUMetrics mc pods namespace startTime := getBucketAverage mc pods namespace cpuDesc startTime millicoreToCoreScale.
Definition GetMemoryMetrics mc pods namespace startTime := getBucketAverage mc pods namespace memDesc startTime noScale.
Definition GetNetworkSentMetrics mc pods namespace startTime := getBucketAverage mc pods namespace netSent startTime noScale.
Definition GetNetworkRecvMetrics mc pods namespace startTime := getBucketAverage mc pods namespace netRecv startTime noScale.
Definition GetCPUMetricsRange mc pods namespace startTime endTime limit : wm (list TimedNumberTuple) :=
  let* buckets := s_map with_stack (getBucketsInRange mc pods namespace cpuDesc startTime endTime limit) in
  s_ret (bucketsToTuples buckets millicoreToCoreScale).
Definition GetMemoryMetricsRange mc pods namespace startTime endTime limit : wm (list TimedNumberTuple) :=
  let* buckets := s_map with_stack (getBucketsInRange mc pods namespace memDesc startTime endTime limit) in
  s_ret (bucketsToTuples buckets noScale).
Definition GetNetworkSentMetricsRange mc pods namespace startTime endTime limit : wm (list TimedNumberTuple) :=
  let* buckets := getBucketsInRange mc pods namespace netSent startTime endTime limit in
  s_ret (bucketsToTuples buckets noScale).
Definition GetNetworkRecvMetricsRange mc pods namespace startTime endTime limit : wm (list TimedNumberTuple) :=
  let* buckets := getBucketsInRange mc pods namespace netRecv startTime endTime limit in
  s_ret (bucketsToTuples buckets noScale).
End Metrics.

Definition getTimestampEndpoints (metricsSeries : list (list TimedNumberTuple)) : option float64 * option float64 :=
  fold_left (λ '(minTime, maxTime) series,
    match head series, last series with
    | Some first, Some last =>
        (match minTime with
         | Some m => if SFltb (tn_Time first) m then Some (tn_Time first) else minTime
         | None => Some (tn_Time first)
         end,
         match maxTime with
         | Some m => if SFltb m (tn_Time last) then Some (tn_Time last) else maxTime
         | None => Some (tn_Time last)
         end)
    | _, _ => (minTime, maxTime)
    end) metricsSeries (None, None).

(** ** Replication controllers and pods *)

Definition deploymentPhaseAnnotation : string := "openshift.io/deployment.phase".
Definition deploymentVersionAnnotation : string := "openshift.io/deployment-config.latest-version".
Definition phase_of (rc : ReplicationController) : string := default "" (rc_Annotations rc !! deploymentPhaseAnnotation).
Definition isReplicationControllerVisible (rc : ReplicationController) : bool :=
  if 0 <? rc_Replicas rc then true
  else existsb (String.eqb (phase_of rc)) ["New"; "Pending"; "Running"].
(** [strconv.ParseInt(_, 10, 64)] reads what [strconv.Atoi] does. *)
Definition version_of (rc : ReplicationController) : res (option Z) :=
  match rc_Annotations rc !! deploymentVersionAnnotation with
  | None => Ok None
  | Some versionStr => Some <$> wrapf "deployment version for %s is not a valid integer" (Atoi versionStr)
  end.
(** The controllers in the order the map is ranged. *)
Fixpoint most_recent (result : option ReplicationController) (newestVersion : option Z) (rcs : list ReplicationController) :
    res (option ReplicationController) :=
  match rcs with
  | [] => Ok result
  | rc :: rcs =>
      version ← version_of rc;
      match result with
      | None => most_recent (Some rc) version rcs
      | Some r =>
          match newestVersion, version with
          | None, Some _ => most_recent (Some rc) version rcs
          | None, None =>
              most_recent (if String.ltb (rc_Name r) (rc_Name rc) then Some rc else result) newestVersion rcs
          | Some n, Some v => if n <? v then most_recent (Some rc) version rcs else most_recent result newestVersion rcs
          | Some _, None => most_recent result newestVersion rcs
          end
      end
  end.
Definition getMostRecentByDeploymentVersion (rcs : list (string * ReplicationController)) :
    res (option ReplicationController) := most_recent None None rcs.*2.
(** [rc.OwnerReferences] has a controller with the UID. *)
Definition controlled_by (uid : string) (refs : list OwnerReference) : bool :=
  existsb (λ ref, String.eqb (ref_UID ref) uid && bool_decide (ref_Controller ref = Some true)) refs.
(** The most recent successful deployment. *)
Definition active_of (rcs : list ReplicationController) : option ReplicationController :=
  fold_left (λ active rc,
    if String.eqb (phase_of rc) "Complete" &&
       match active with None => true | Some a => rc_CreationTimestamp a <? rc_CreationTimestamp rc end
    then Some rc else active) rcs None.
Definition by_name (rcs : list ReplicationController) (m : gmap string ReplicationController) :=
  fold_left (λ m rc, <[rc_Name rc := rc]> m) rcs m.
Definition candidates (rcs : list ReplicationController) : gmap string ReplicationController :=
  let visible := by_name (List.filter isReplicationControllerVisible rcs) ∅ in
  match active_of rcs with Some active => <[rc_Name active := active]> visible | None => visible end.

Definition podRunning : string := "Running".
Definition podNotReady : string := "Not Ready".
Definition podWarning : string := "Warning".
Definition podError : string := "Error".
Definition podPulling : string := "Pulling".
Definition podPending : string := "Pending".
Definition podTerminating : string := "Terminating".
Definition podUnknown : string := "Unknown".
Definition PodFailed : string := "Failed".

Section Pods.
Context {Q : Type} {HQ : Quantities Q}.

Definition containerTimeout : Z := 5 * 60 * 10 ^ 9.
Definition containerCrashLoop : string := "CrashLoopBackOff".
Definition containerCreating : string := "ContainerCreating".
(** [(warning, severe)] of the containers of a running pod. *)
Fixpoint container_warning (now : Z) (deleted : bool) (statuses : list ContainerStatus) : bool * bool :=
  match statuses with
  | [] => (false, false)
  | status :: statuses =>
      let state := cs_State status in
      if match Terminated_ExitCode state with Some c => negb (c =? 0) | None => false end then (true, deleted)
      else if bool_decide (Waiting_Reason state = Some containerCrashLoop) then (true, true)
      else if match Running_StartedAt state with
              | Some startTime => negb (cs_Ready status) && (containerTimeout <? now - startTime)
              | None => false
              end then (true, false)
      else container_warning now deleted statuses
  end.
Definition isPodWarning (now : Z) (pod : Pod Q) : bool * bool :=
  if String.eqb (pod_Phase pod) podUnknown then (true, false)
  else if String.eqb (pod_Phase pod) podPending && (containerTimeout <? now - pod_CreationTimestamp pod) then (true, false)
  else if String.eqb (pod_Phase pod) podRunning
  then container_warning now (bool_decide (is_Some (pod_DeletionTimestamp pod))) (pod_ContainerStatuses pod)
  else (false, false).
Definition isPullingImage (pod : Pod Q) : bool :=
  String.eqb (pod_Phase pod) podPending &&
  existsb (λ status, bool_decide (Waiting_Reason (cs_State status) = Some containerCreating)) (pod_ContainerStatuses pod).
Definition isPodReady (pod : Pod Q) : bool :=
  Nat.eqb (length (List.filter cs_Ready (pod_ContainerStatuses pod))) (length (pod_Containers pod)).
(** [None]: the pod is left out. *)
Definition pod_status_key (now : Z) (pod : Pod Q) : option string :=
  if String.eqb (pod_Phase pod) PodFailed then None
  else Some (
    if bool_decide (is_Some (pod_DeletionTimestamp pod)) then podTerminating
    else let '(warn, severe) := isPodWarning now pod in
         if warn then if severe then podError else podWarning
         else if isPullingImage pod then podPulling
         else if String.eqb (pod_Phase pod) podRunning && negb (isPodReady pod) then podNotReady
         else pod_Phase pod).
Definition count_status (now : Z) (acc : gmap string Z * Z) (pod : Pod Q) : gmap string Z * Z :=
  match pod_status_key now pod with
  | None => acc
  | Some statusKey => (<[statusKey := default 0 (acc.1 !! statusKey) + 1]> acc.1, acc.2 + 1)
  end.
Definition getPodStatus (range : gmap string Z → list (string * Z)) (now : Z) (pods : list (Pod Q)) : list (list string) * Z :=
  let '(podStatus, podTotal) := fold_left (count_status now) pods (∅, 0) in
  (map (λ '(status, count), [status; Itoa count]) (range podStatus), podTotal).

Fixpoint sum_limits (cores memory : float64) (containers : list (Container Q)) : res (float64 * float64) :=
  match containers with
  | [] => Ok (cores, memory)
  | container :: containers =>
      cpu ← quantityToFloat64 (Limits_Cpu container);
      mem ← quantityToFloat64 (Limits_Memory container);
      sum_limits (fadd cores cpu) (fadd memory mem) containers
  end.
Definition getPodsQuota (pods : list (Pod Q)) : res PodsQuota :=
  sums ← sum_limits f0 f0 (flat_map pod_Containers pods);
  Ok {| Cpucores := sums.1; Memory := sums.2 |}.

(** ** Quotas of an environment *)

Definition getResourceUsageAndLimit (quota : ResourceQuota Q) (resourceName : string) :
    res (option float64 * option float64) :=
  limit ← match rq_Hard quota !! resourceName with Some q => Some <$> quantityToFloat64 q | None => Ok None end;
  used ← match rq_Used quota !! resourceName with Some q => Some <$> quantityToFloat64 q | None => Ok None end;
  Ok (used, limit).
Definition getEnvStatQuota (quota : ResourceQuota Q) (resourceName : string) : res (option EnvStatQuota) :=
  ul ← getResourceUsageAndLimit quota resourceName;
  Ok (match ul with
      | (Some used, Some limit) => Some {| Quota := limit; Used := used |}
      | _ => None
      end).
Definition computeResources : string := "compute-resources".
Definition objectCounts : string := "object-counts".
Definition not_found_text {A} (message : string) (o : option A) : res A :=
  match o with Some a => Ok a | None => Err (Errors.NewNotFoundErrorFromString message) end.
(** The last quota of a name counts. *)
Definition quota_named (name : string) (quotas : list (ResourceQuota Q)) : option (ResourceQuota Q) :=
  last (List.filter (λ quota, String.eqb (rq_Name quota) name) quotas).
Definition env_stats (quotas : list (ResourceQuota Q)) : res EnvStats :=
  computeQuota ← not_found_text "resource quota '%s' not found in %s" (quota_named computeResources quotas);
  objectQuota ← not_found_text "resource quota '%s' not found in %s" (quota_named objectCounts quotas);
  cpuQuota ← getEnvStatQuota computeQuota "limits.cpu";
  cpuQuota ← not_found_text "CPU missing from resource quota in %s" cpuQuota;
  memQuota ← getEnvStatQuota computeQuota "limits.memory";
  memQuota ← not_found_text "memory missing from resource quota in %s" memQuota;
  pods ← getEnvStatQuota objectQuota "pods";
  rcs ← getEnvStatQuota objectQuota "replicationcontrollers";
  quotas ← getEnvStatQuota objectQuota "resourcequotas";
  services ← getEnvStatQuota objectQuota "services";
  secrets ← getEnvStatQuota objectQuota "secrets";
  configMaps ← getEnvStatQuota objectQuota "configmaps";
  claims ← getEnvStatQuota objectQuota "persistentvolumeclaims";
  imageStreams ← getEnvStatQuota objectQuota "openshift.io/imagestreams";
  Ok {| es_Cpucores := cpuQuota; es_Memory := memQuota; es_Pods := pods; es_ReplicationControllers := rcs;
        es_ResourceQuotas := quotas; es_Services := services; es_Secrets := secrets; es_ConfigMaps := configMaps;
        es_PersistentVolumeClaims := claims; es_ImageStreams := imageStreams |}.
End Pods.

(** ** JSON of OpenShift *)

Definition spaceLabelName : string := "space".
Definition buildConfigLabelName : string := "openshift.io/build-config.name".
Definition envServicesAnnotationPrefix : string := "environment.services.fabric8.io".
Definition envServicesDeploymentVersions : string := "deploymentVersions".

Fixpoint build_config_names (items : list gval) : res (list string) :=
  match items with
  | [] => Ok []
  | item :: items =>
      bc ← or_err "malformed build config" (as_object item);
      metadata ← or_err "'metadata' object missing from build config" (get_object bc "metadata");
      name ← or_err "malformed metadata in build config; 'name' is missing or invalid" (nonempty (get_string metadata "name"));
      names ← build_config_names items;
      Ok (name :: names)
  end.
Definition parse_build_configs (result : obj) : res (list string) :=
  _ ← check_kind result "BuildConfigList" "no build configs returned from endpoint";
  items ← or_err "malformed response from endpoint" (get_array result "items");
  build_config_names items.

(** A label for another space is only logged; a version that is not a text is asserted to be one. *)
Definition bad_version : string := "interface conversion: interface {} is not string".
Definition parse_deployment_config (dcName : string) (result : obj) : res deployment :=
  _ ← check_kind result "DeploymentConfig" "no deployment config returned from endpoint";
  metadata ← or_err "metadata missing from deployment config %s: %+v" (get_object result "metadata");
  labels ← or_err "labels missing from deployment config %s: %+v" (get_object metadata "labels");
  _ ← getOptionalStringValue labels spaceLabelName;
  uid ← or_err "malformed metadata in deployment config %s: %+v" (nonempty (get_string metadata "uid"));
  version ← match get_string labels "version" with Some v => Ok v | None => Panic bad_version end;
  version ← or_err "version missing from deployment config %s: %+v" (nonempty (Some version));
  Ok {| dcName := dcName; dcUID := uid; appVersion := version; current := None |}.

(** YAML, as far as the annotation is looked at; a map in the order it is ranged. *)
Inductive yval :=
  | YString (s : string)
  | YMap (m : list (yval * yval))
  | YOther.
Definition yaml_get (m : list (yval * yval)) (k : string) : option yval :=
  snd <$> List.find (λ p, match p.1 with YString s => String.eqb s k | _ => false end) m.

Section Parsing.
(** [yaml.Unmarshal] into a map, [time.Parse(time.RFC3339, _)] *)
Context (yaml_Unmarshal : string → res (list (yval * yval))) (parse_RFC3339 : string → res Z).

Definition getNameFromEnvServices (envServices : string) : res string :=
  envServicesYaml ← wrapf "failed to unmarshal %s YAML" (yaml_Unmarshal envServices);
  match yaml_get envServicesYaml envServicesDeploymentVersions with
  | Some (YMap ((nameYaml, _) :: _)) =>
      match nameYaml with YString depName => Ok depName | _ => Err (Plain "%s does not contain a string") end
  | _ => Ok ""
  end.

(** [time.Time{}], the first of January of the year 1. *)
Definition zero_time : Z := -62135596800 * 10 ^ 9.
(** The name an annotation of the build gives, if it gives one. *)
Definition annotated_name (namespace : string) (metadata : obj) : option string :=
  annotations ← get_object metadata "annotations";
  envServicesStr ← get_string annotations (envServicesAnnotationPrefix +:+ "/" +:+ namespace);
  match getNameFromEnvServices envServicesStr with Ok name => nonempty (Some name) | _ => None end.
Fixpoint latest_name (namespace result : string) (latestCreationTime : Z) (items : list gval) : res string :=
  match items with
  | [] => Ok result
  | item :: items =>
      build ← or_err "malformed build object" (as_object item);
      metadata ← or_err "metadata missing from build object" (get_object build "metadata");
      match get_string metadata "creationTimestamp" with
      | None => latest_name namespace result latestCreationTime items
      | Some creationTimeStr =>
          creationTime ← wrapf "build creation time uses an invalid date" (parse_RFC3339 creationTimeStr);
          match (if latestCreationTime <? creationTime then annotated_name namespace metadata else None) with
          | Some dcName => latest_name namespace dcName creationTime items
          | None => latest_name namespace result latestCreationTime items
          end
      end
  end.
Definition parse_builds (namespace appName : string) (resp : obj) : res string :=
  _ ← check_kind resp "BuildList" "no builds returned from endpoint";
  items ← or_err "malformed response from endpoint" (get_array resp "items");
  latest_name namespace appName zero_time items.

(** ** Routes *)

Definition getRoutesFromRouteList (list : obj) : res (Datatypes.list gval) :=
  _ ← check_kind list "RouteList" "No route list returned from endpoint";
  or_err "No list of routes in response" (get_array list "items").

Fixpoint oldest_condition (ingress : obj) (oldest : option obj) (oldestTime : Z) (conditions : list gval) :
    res (option obj * Z) :=
  match conditions with
  | [] => Ok (oldest, oldestTime)
  | condition :: conditions =>
      condition ← or_err "bad condition for ingress" (as_object condition);
      condType ← getOptionalStringValue condition "type";
      condStatus ← getOptionalStringValue condition "status";
      if String.eqb condType "Admitted" && String.eqb condStatus "True" then
        lastTransitionStr ← or_err "missing last transition time from ingress condition"
                              (get_string condition "lastTransitionTime");
        lastTransition ← parse_RFC3339 lastTransitionStr;
        if bool_decide (oldest = None) || (lastTransition <? oldestTime)
        then oldest_condition ingress (Some ingress) lastTransition conditions
        else oldest_condition ingress oldest oldestTime conditions
      else oldest_condition ingress oldest oldestTime conditions
  end.
Fixpoint oldest_ingress (oldest : option obj) (oldestTime : Z) (ingresses : list gval) : res (option obj) :=
  match ingresses with
  | [] => Ok oldest
  | ingress :: ingresses =>
      ingress ← or_err "bad ingress found in route" (as_object ingress);
      o ← match get_array ingress "conditions" with
          | Some conditions => oldest_condition ingress oldest oldestTime conditions
          | None => Ok (oldest, oldestTime)
          end;
      oldest_ingress o.1 o.2 ingresses
  end.
Definition findOldestAdmittedIngress (ingresses : list gval) : res (option obj) := oldest_ingress None zero_time ingresses.

(** The services among those looked for that are alternate backends. *)
Fixpoint alternate_services (known : string → bool) (altBackends : list gval) : res (list string) :=
  match altBackends with
  | [] => Ok []
  | backend :: altBackends =>
      backend ← or_err "malformed alternative backend in route returned from %s" (as_object backend);
      backendKind ← getOptionalStringValue backend "kind";
      names ← alternate_services known altBackends;
      Ok (if String.eqb backendKind "Service" then
            match nonempty (get_string backend "name") with
            | Some backendName => if known backendName then backendName :: names else names
            | None => names
            end
          else names)
  end.
Definition matching_services (known : string → bool) (spec : obj) : res (list string * nat) :=
  to ← or_err "no destination in route returned from %s" (get_object spec "to");
  toName ← or_err "service name missing or invalid for route returned from %s" (nonempty (get_string to "name"));
  let altBackends := default [] (get_array spec "alternateBackends") in
  names ← alternate_services known altBackends;
  Ok ((if known toName then toName :: names else names), length altBackends).
Definition custom_host (routeItem : obj) : res bool :=
  match metadata ← get_object routeItem "metadata"; get_object metadata "annotations" with
  | None => Ok true
  | Some annotations =>
      hostGenerated ← getOptionalStringValue annotations "openshift.io/host.generated";
      Ok (negb (String.eqb hostGenerated "true"))
  end.
Definition parse_route (routeItem spec : obj) (altBackends : nat) : res route :=
  status ← or_err "status missing from route returned from %s" (get_object routeItem "status");
  ingresses ← or_err "no ingress array listed in route returned from %s" (get_array status "ingress");
  oldestAdmittedIngress ← findOldestAdmittedIngress ingresses;
  hostname ← match oldestAdmittedIngress with
             | Some ingress => or_err "hostname missing from ingress in route returned from %s" (get_string ingress "host")
             | None => wrapf "invalid hostname in route spec returned from %s" (getOptionalStringValue spec "host")
             end;
  path ← getOptionalStringValue spec "path";
  customHost ← custom_host routeItem;
  Ok {| host := hostname; path := path;
        tls := bool_decide (is_Some (tls ← get_object spec "tls"; nonempty (get_string tls "termination")));
        hasAdmitted := bool_decide (is_Some oldestAdmittedIngress);
        hasAlternateBackends := Nat.ltb 0 altBackends;
        isCustomHost := customHost |}.
Definition add_route (r : route) (m : gmap string (list route)) (serviceName : string) : gmap string (list route) :=
  <[serviceName := default [] (m !! serviceName) ++ [r]]> m.
Fixpoint routes_by_service (m : gmap string (list route)) (items : list gval) : res (gmap string (list route)) :=
  match items with
  | [] => Ok m
  | item :: items =>
      routeItem ← or_err "invalid route object returned from %s" (as_object item);
      spec ← or_err "spec missing from route returned from %s" (get_object routeItem "spec");
      ms ← matching_services (λ name, bool_decide (is_Some (m !! name))) spec;
      match ms.1 with
      | [] => routes_by_service m items
      | _ =>
          route ← parse_route routeItem spec ms.2;
          routes_by_service (fold_left (add_route route) ms.1 m) items
      end
  end.
End Parsing.

Definition scoreRoute (route : route) : Z :=
  (if hasAdmitted route then 11 else 0) + (if hasAlternateBackends route then 5 else 0)
  + (if isCustomHost route then 3 else 0) + (if tls route then 1 else 0).
(** The first of the routes with the highest score. *)
Definition best_route (routes : list route) : option route :=
  (fold_left (λ '(bestRoute, bestScore) route,
     let score := scoreRoute route in
     if bestScore <? score then (Some route, score) else (bestRoute, bestScore)) routes (None, -1)).1.
Definition route_URL (r : route) : URL :=
  {| url_Scheme := if tls r then "https" else "http"; url_Host := host r; url_Path := path r |}.
(** A label that is missing counts as the empty one; a service that selects nothing matches nothing. *)
Definition selects (labels : gmap string string) (service : Service) : bool :=
  negb (bool_decide (svc_Selector service = ∅)) &&
  forallb (λ '(key, value), String.eqb value (default "" (labels !! key))) (map_to_list (svc_Selector service)).
Definition services_map (labels : gmap string string) (services : list Service) : gmap string (list route) :=
  fold_left (λ m service, if selects labels service then <[svc_Name service := []]> m else m) services ∅.

(** ** Container limits of a pod template *)

Definition limitRangeName : string := "resource-limits".
Definition ResourceCPU : string := "cpu".
Definition ResourceMemory : string := "memory".
Record pod_limits := {
  numContainersMissingCPU : float64;
  numContainersMissingMem : float64;
  podCPULimit : float64;
  podMemLimit : float64;
}.
Definition f1 : float64 := float_of_int 1.
Definition pod_containers (deploymentConfig : obj) : res (list gval) :=
  spec ← or_err "spec is missing from deployment config %s: %+v" (get_object deploymentConfig "spec");
  template ← or_err "template is missing from deployment config %s: %+v" (get_object spec "template");
  innerSpec ← or_err "inner spec is missing from deployment config %s: %+v" (get_object template "spec");
  or_err "containers is missing from deployment config %s: %+v" (get_array innerSpec "containers").

Section Limits.
Context {Q : Type} {HQ : Quantities Q}.

Definition parse_limit (parse_message convert_message text : string) : res float64 :=
  q ← or_err parse_message (ParseQuantity text);
  replace_err (Plain convert_message) (quantityToFloat64 q).
Definition missing_both (l : pod_limits) : pod_limits :=
  {| numContainersMissingCPU := fadd (numContainersMissingCPU l) f1; numContainersMissingMem := fadd (numContainersMissingMem l) f1;
     podCPULimit := podCPULimit l; podMemLimit := podMemLimit l |}.
Definition add_container (l : pod_limits) (containerItem : gval) : res pod_limits :=
  container ← or_err "containers array contains invalid container: %v" (as_object containerItem);
  match map_get container "resources" with
  | None => Ok (missing_both l)
  | Some resourcesItem =>
      resources ← or_err "resources spec in pod template is invalid: %v" (as_object resourcesItem);
      match resources with
      | [] => Ok (missing_both l)
      | _ =>
          limits ← or_err "limits is missing from deployment config %s: %+v" (get_object resources "limits");
          cpuLimit ← getOptionalStringValue limits "cpucores";
          l ← match cpuLimit with
              | "" => Ok {| numContainersMissingCPU := fadd (numContainersMissingCPU l) f1;
                            numContainersMissingMem := numContainersMissingMem l;
                            podCPULimit := podCPULimit l; podMemLimit := podMemLimit l |}
              | _ => cpuValue ← parse_limit "could not parse cpu quantity for %+v of %s "
                                  "could not convert cpu quantity %+v to float64 value" cpuLimit;
                     Ok {| numContainersMissingCPU := numContainersMissingCPU l;
                           numContainersMissingMem := numContainersMissingMem l;
                           podCPULimit := fadd (podCPULimit l) cpuValue; podMemLimit := podMemLimit l |}
              end;
          memLimit ← getOptionalStringValue limits "memory";
          match memLimit with
          | "" => Ok {| numContainersMissingCPU := numContainersMissingCPU l;
                        numContainersMissingMem := fadd (numContainersMissingMem l) f1;
                        podCPULimit := podCPULimit l; podMemLimit := podMemLimit l |}
          | _ => memoryValue ← parse_limit "could not parse memory quantity for %+v of %s "
                                 "could not convert memory quantity %+v to float64 value" memLimit;
                 Ok {| numContainersMissingCPU := numContainersMissingCPU l;
                       numContainersMissingMem := numContainersMissingMem l;
                       podCPULimit := podCPULimit l; podMemLimit := fadd (podMemLimit l) memoryValue |}
          end
      end
  end.
Fixpoint add_containers (l : pod_limits) (containers : list gval) : res pod_limits :=
  match containers with
  | [] => Ok l
  | containerItem :: containers => l ← add_container l containerItem; add_containers l containers
  end.
(** The last default of a range for containers counts. *)
Definition default_limit (resourceName : string) (limits : list (LimitRangeItem Q)) : option Q :=
  last (omap (λ limit, if String.eqb (lr_Type limit) "Container" then lr_Default limit !! resourceName else None) limits).
Definition add_defaults (l : pod_limits) (limits : list (LimitRangeItem Q)) : res pod_limits :=
  match default_limit ResourceCPU limits, default_limit ResourceMemory limits with
  | Some containerCPULimit, Some containerMemLimit =>
      defaultCPULimit ← replace_err (Plain "could not convert cpu quantity %+v to float64 value") (quantityToFloat64 containerCPULimit);
      defaultMemLimit ← replace_err (Plain "could not convert memory quantity %+v to float64 value") (quantityToFloat64 containerMemLimit);
      Ok {| numContainersMissingCPU := numContainersMissingCPU l; numContainersMissingMem := numContainersMissingMem l;
            podCPULimit := fadd (podCPULimit l) (fmul defaultCPULimit (numContainersMissingCPU l));
            podMemLimit := fadd (podMemLimit l) (fmul defaultMemLimit (numContainersMissingMem l)) |}
  | _, _ => Err (Plain "CPU or memory container limit missing from LimitRange for namespace %s")
  end.
End Limits.

(** ** The operations *)

Section Client.
Context {W St Q : Type} {HE : KubeErrors St} {HQ : Quantities Q} {HK : KubeRESTAPI W St Q} {HN : Network W St}.
Context {HB : BaseURLProvider W} {HH : Hawkular W}.
Context (UserNamespace : string) (envMap : gmap string string).
(** The order in which a map is ranged. *)
Context (range : ∀ A : Type, gmap string A → list (string * A)).
Context (yaml_Unmarshal : string → res (list (yval * yval))) (parse_RFC3339 : string → res Z) (URL_String : URL → string).
Context (now : Z).
Notation kcm A := (kube W → res A * kube W).

Definition getDeployableEnvironmentNamespace (envName : string) : res string :=
  match envMap !! envName with
  | Some envNS => if CanDeploy envName then Ok envNS else Err (Plain "unknown environment: %s")
  | None => Err (Plain "unknown environment: %s")
  end.
Definition getBuildConfigsForSpace (space : string) : kcm (list string) :=
  let* result := on_world (GetBuildConfigs UserNamespace (QueryEscape (spaceLabelName +:+ "=" +:+ space))) in
  pure (parse_build_configs result).
Definition getDeploymentConfigNameForApp (namespace appName spaceName : string) : kcm string :=
  let labelSelector := buildConfigLabelName +:+ "=" +:+ appName +:+ "," +:+ spaceLabelName +:+ "=" +:+ spaceName in
  let* resp := on_world (GetBuilds UserNamespace (QueryEscape labelSelector)) in
  pure (parse_builds yaml_Unmarshal parse_RFC3339 namespace appName resp).
Definition getAndParseDeploymentConfig (namespace dcName : string) : kcm (option deployment) :=
  let* result := on_world (GetDeploymentConfig namespace dcName) in
  match result with
  | None => s_ret None
  | Some result => pure (Some <$> parse_deployment_config dcName result)
  end.
Definition getReplicationControllers (namespace : string) (deploy : deployment) : kcm (list ReplicationController) :=
  let* rcs := on_world (calling "failed to list replication controllers in %s" (ReplicationControllers_List namespace)) in
  s_ret (List.filter (λ rc, controlled_by (dcUID deploy) (rc_OwnerReferences rc)) rcs).
Definition getPods (namespace : string) (rc : ReplicationController) : kcm (list (Pod Q)) :=
  let* pods := on_world (calling "failed to list pods in %s" (Pods_List namespace)) in
  s_ret (List.filter (λ pod, controlled_by (rc_UID rc) (pod_OwnerReferences pod)) pods).
Definition getCurrentDeployment (space appName namespace : string) : kcm (option deployment) :=
  let* dc := getDeploymentConfigNameForApp namespace appName space in
  let* result := getAndParseDeploymentConfig namespace dc in
  match result with
  | None => s_ret None
  | Some result =>
      let* rcs := getReplicationControllers namespace result in
      match rcs with
      | [] => s_ret (Some result)
      | _ =>
          let* current := pure (getMostRecentByDeploymentVersion (range _ (candidates rcs))) in
          s_ret (Some {| dcName := dcName result; dcUID := dcUID result; appVersion := appVersion result; current := current |})
      end
  end.

(** *** Routes *)

Definition getMatchingServices (namespace : string) (current : ReplicationController) : kcm (gmap string (list route)) :=
  let* services := on_world (calling "failed to list services in %s" (Services_List namespace "")) in
  pure (labels ← or_err "no pod template for current deployment in namespace %s" (rc_TemplateLabels current);
        Ok (services_map labels services)).
Definition getRoutesByService (namespace : string) (routesByService : gmap string (list route)) :
    kcm (gmap string (list route)) :=
  let* result := on_world (GetRoutes namespace "") in
  pure (items ← getRoutesFromRouteList result; routes_by_service parse_RFC3339 routesByService items).
Definition getBestRoute (namespace : string) (current : ReplicationController) : kcm (option URL) :=
  let* serviceMap := getMatchingServices namespace current in
  let* serviceMap := getRoutesByService namespace serviceMap in
  s_ret (route_URL <$> best_route (concat (range _ serviceMap).*2)).
Definition getApplicationURL (namespace : string) (current : ReplicationController) : kcm (option string) :=
  let* routeURL := getBestRoute namespace current in s_ret (URL_String <$> routeURL).

(** *** Deployments, applications and spaces *)

Definition GetDeployment (spaceName appName envName : string) : kcm (option SimpleDeployment) :=
  let* envNS := pure (getDeployableEnvironmentNamespace envName) in
  let* deploy := getCurrentDeployment spaceName appName envNS in
  match (d ← deploy; c ← current d; Some (d, c)) with
  | None => s_ret None
  | Some (d, rc) =>
      let* pods := getPods envNS rc in
      let* podsQuota := pure (getPodsQuota pods) in
      let '(podStats, total) := getPodStatus (range _) now pods in
      let* appURL := getApplicationURL envNS rc in
      let* consoleURL := pure (GetConsoleURL envNS) in
      let* logURL := pure (GetLoggingURL envNS (rc_Name rc)) in
      let links := match consoleURL, appURL, logURL with
                   | None, None, None => None
                   | _, _, _ => Some {| Console := consoleURL; Logs := logURL; Application := appURL |}
                   end in
      s_ret (Some {| sd_Name := envName; sd_Version := appVersion d; sd_Pods := podStats; sd_PodTotal := total;
                     sd_PodsQuota := podsQuota; sd_Links := links |})
  end.
Fixpoint deployments_of (spaceName appName : string) (envs : list string) : kcm (list SimpleDeployment) :=
  match envs with
  | [] => s_ret []
  | envName :: envs =>
      if CanDeploy envName then
        let* deployment := GetDeployment spaceName appName envName in
        let* deployments := deployments_of spaceName appName envs in
        s_ret (match deployment with Some d => d :: deployments | None => deployments end)
      else deployments_of spaceName appName envs
  end.
Definition GetApplication (spaceName appName : string) : kcm SimpleApp :=
  let* deployments := deployments_of spaceName appName (range _ envMap).*1 in
  s_ret {| sa_Name := appName; sa_Deployments := deployments |}.
Fixpoint applications_of (spaceName : string) (names : list string) : kcm (list SimpleApp) :=
  match names with
  | [] => s_ret []
  | bc :: names =>
      let* appn := GetApplication spaceName bc in
      let* apps := applications_of spaceName names in
      s_ret (appn :: apps)
  end.
Definition GetSpace (spaceName : string) : kcm SimpleSpace :=
  let* buildconfigs := getBuildConfigsForSpace spaceName in
  let* apps := applications_of spaceName buildconfigs in
  s_ret {| ss_Name := spaceName; ss_Applications := apps |}.

(** *** Scaling *)

(** [spec[replicas] = deployNumber], in the object the scale holds. *)
Fixpoint set_key (o : obj) (k : string) (v : gval) : obj :=
  match o with
  | [] => [(k, v)]
  | (k', v') :: o => if String.eqb k k' then (k', v) :: o else (k', v') :: set_key o k v
  end.
Definition old_replicas (spec : obj) : res Z :=
  match map_get spec "replicas" with
  | None => Ok 0
  | Some (VFloat64 oldReplicasFlt) => Ok (float_to_int oldReplicasFlt)
  | Some _ => Err (Plain "invalid deployment config returned from endpoint: 'replicas' is not a number")
  end.
Definition rescaled (scale spec : obj) (deployNumber : Z) : obj :=
  set_key scale "spec" (VMap (set_key spec "replicas" (VInt deployNumber))).
Definition ScaleDeployment (spaceName appName envName : string) (deployNumber : Z) : kcm Z :=
  let* envNS := pure (getDeployableEnvironmentNamespace envName) in
  let* dc := getDeploymentConfigNameForApp envNS appName spaceName in
  let* scale := on_world (GetDeploymentConfigScale envNS dc) in
  let* spec := pure (or_err "invalid deployment config returned from endpoint: missing 'spec'" (get_object scale "spec")) in
  let* oldReplicas := pure (old_replicas spec) in
  let* _ := on_world (SetDeploymentConfigScale envNS dc (rescaled scale spec deployNumber)) in
  s_ret oldReplicas.

(** *** Deleting *)

Fixpoint delete_each_service (envNS : string) (services : list Service) : kcm unit :=
  match services with
  | [] => s_ret tt
  | service :: services =>
      let* _ := on_world (calling "failed to delete service '%s' in %s" (Services_Delete envNS (svc_Name service))) in
      delete_each_service envNS services
  end.
Definition deleteServices (appLabel envNS : string) : kcm unit :=
  let* services := on_world (calling "failed to list services in %s" (Services_List envNS ("app=" +:+ appLabel))) in
  delete_each_service envNS services.
Definition route_name (routeItem : gval) : res string :=
  route ← or_err "Route is not an object" (as_object routeItem);
  metadata ← or_err "Route has no metadata" (get_object route "metadata");
  or_err "Route name is missing" (get_string metadata "name").
Fixpoint delete_each_route (envNS : string) (routeItems : list gval) : kcm unit :=
  match routeItems with
  | [] => s_ret tt
  | routeItem :: routeItems =>
      let* name := pure (route_name routeItem) in
      let* _ := on_world (DeleteRoute envNS name delete_options) in
      delete_each_route envNS routeItems
  end.
Definition deleteRoutes (appLabel envNS : string) : kcm unit :=
  let* routeList := on_world (GetRoutes envNS (QueryEscape ("app=" +:+ appLabel))) in
  let* routeItems := pure (getRoutesFromRouteList routeList) in
  delete_each_route envNS routeItems.
Definition deleteDeploymentConfig (dc namespace : string) : kcm unit :=
  let* d := getAndParseDeploymentConfig namespace dc in
  match d with
  | None => s_fail (Errors.NewNotFoundErrorFromString "deployment config %s does not exist in %s")
  | Some _ => let* _ := on_world (DeleteDeploymentConfig namespace dc delete_options) in s_ret tt
  end.
(** An error that is only logged. *)
Definition logged (r : res unit) : res unit := match r with Err _ => Ok tt | r => r end.
Definition DeleteDeployment (spaceName appName envName : string) : kcm unit :=
  let* envNS := pure (getDeployableEnvironmentNamespace envName) in
  let* dc := getDeploymentConfigNameForApp envNS appName spaceName in
  let* _ := s_map logged (deleteRoutes dc envNS) in
  let* _ := s_map logged (deleteServices dc envNS) in
  deleteDeploymentConfig dc envNS.

(** *** Environments *)

Definition getResourceQuota (namespace : string) : kcm EnvStats :=
  let* quotas := on_world (calling "failed to list resource quotas from %s" (ResourceQuotas_List namespace)) in
  pure (env_stats quotas).
Definition GetEnvironment (envName : string) : kcm SimpleEnvironment :=
  let* envNS := pure (getDeployableEnvironmentNamespace envName) in
  let* envStats := getResourceQuota envNS in
  s_ret {| se_Name := envName; se_Quota := envStats |}.
Fixpoint environments_of (envs : list string) : kcm (list SimpleEnvironment) :=
  match envs with
  | [] => s_ret []
  | envName :: envs =>
      if CanDeploy envName then
        let* env := GetEnvironment envName in
        let* envs := environments_of envs in
        s_ret (env :: envs)
      else environments_of envs
  end.
Definition GetEnvironments : kcm (list SimpleEnvironment) := environments_of (range _ envMap).*1.

(** The deployments of all applications, added up by environment. *)
Definition add_usage (envMap : gmap string PodsQuota) (dep : SimpleDeployment) : gmap string PodsQuota :=
  let q := sd_PodsQuota dep in
  <[sd_Name dep := match envMap !! sd_Name dep with
                   | Some value => {| Cpucores := fadd (Cpucores value) (Cpucores q); Memory := fadd (Memory value) (Memory q) |}
                   | None => q
                   end]> envMap.
Definition calculateEnvMap (space : SimpleSpace) : gmap string PodsQuota :=
  fold_left add_usage (flat_map sa_Deployments (ss_Applications space)) ∅.
Definition less_used (q : EnvStatQuota) (by_ : float64) : EnvStatQuota :=
  {| Quota := Quota q; Used := fsub (Used q) by_ |}.
Definition usage_of (usage : gmap string PodsQuota) (env : SimpleEnvironment) : SpaceAndOtherEnvironmentUsage :=
  let q := se_Quota env in
  match usage !! se_Name env with
  | Some spaceUsage =>
      {| su_Name := se_Name env; su_SpaceUsage := spaceUsage;
         su_OtherUsage :=
           {| es_Cpucores := less_used (es_Cpucores q) (Cpucores spaceUsage);
              es_Memory := less_used (es_Memory q) (Memory spaceUsage);
              es_Pods := es_Pods q; es_ReplicationControllers := es_ReplicationControllers q;
              es_ResourceQuotas := es_ResourceQuotas q; es_Services := es_Services q; es_Secrets := es_Secrets q;
              es_ConfigMaps := es_ConfigMaps q; es_PersistentVolumeClaims := es_PersistentVolumeClaims q;
              es_ImageStreams := es_ImageStreams q |} |}
  | None => {| su_Name := se_Name env; su_SpaceUsage := {| Cpucores := f0; Memory := f0 |}; su_OtherUsage := q |}
  end.
Definition GetSpaceAndOtherEnvironmentUsage (spaceName : string) : kcm (list SpaceAndOtherEnvironmentUsage) :=
  let* space := GetSpace spaceName in
  let* envs := GetEnvironments in
  s_ret (map (usage_of (calculateEnvMap space)) envs).

(** *** Limits of a pod *)

Definition GetDeploymentPodQuota (spaceName appName envName : string) : kcm PodsQuota :=
  let* namespace := pure (getDeployableEnvironmentNamespace envName) in
  let* dc := s_map (replace_err (Plain "could not retrieve deployment with the given namespace %s, app name %s and space name %s"))
               (getDeploymentConfigNameForApp namespace appName spaceName) in
  let* deploymentConfig := s_map (replace_err (Plain "could not retrieve deployment config with name %s for namespace %s"))
                             (on_world (GetDeploymentConfig namespace dc)) in
  let* deploymentConfig := pure (not_found_text "no deployment config found named %s in %s" deploymentConfig) in
  let* containers := pure (pod_containers deploymentConfig) in
  let* l := pure (add_containers {| numContainersMissingCPU := f0; numContainersMissingMem := f0;
                                    podCPULimit := f0; podMemLimit := f0 |} containers) in
  let* l := (if SFltb f0 (numContainersMissingCPU l) || SFltb f0 (numContainersMissingMem l) then
               let* limits := on_world (calling "failed to get limit range %s in %s" (LimitRanges_Get namespace limitRangeName)) in
               pure (add_defaults l limits)
             else s_ret l) in
  s_ret {| Cpucores := podCPULimit l; Memory := podMemLimit l |}.

(** *** Metrics *)

Definition keep_metrics (envNS : string) (mc : MetricsClientConfig) : kcm unit := λ kc,
  (Ok tt, {| world := world kc; rulesMap := rulesMap kc; metricsMap := <[envNS := mc]> (metricsMap kc) |}).
(** The client of an environment is made once. *)
Definition GetMetricsClient (envNS : string) : kcm MetricsClientConfig := λ kc,
  match metricsMap kc !! envNS with
  | Some mc => (Ok mc, kc)
  | None =>
      (let* url := pure (GetMetricsURL envNS) in
       let* token := on_world (GetMetricsToken envNS) in
       let* url := pure (deref url) in
       let* token := pure (deref token) in
       let mc := {| MetricsURL := url; BearerToken := token |} in
       let* _ := pure (with_stack (NewHawkularClient mc)) in
       let* _ := keep_metrics envNS mc in
       s_ret mc) kc
  end.
Definition GetDeploymentStats (spaceName appName envName : string) (startTime : Z) : kcm (option SimpleDeploymentStats) :=
  let* envNS := pure (getDeployableEnvironmentNamespace envName) in
  let* deploy := getCurrentDeployment spaceName appName envNS in
  match (d ← deploy; current d) with
  | None => s_ret None
  | Some rc =>
      let* pods := getPods envNS rc in
      let* mc := GetMetricsClient envNS in
      let* cpuUsage := on_world (GetCPUMetrics mc pods envNS startTime) in
      let* memoryUsage := on_world (GetMemoryMetrics mc pods envNS startTime) in
      let* netTxUsage := on_world (GetNetworkSentMetrics mc pods envNS startTime) in
      let* netRxUsage := on_world (GetNetworkRecvMetrics mc pods envNS startTime) in
      s_ret (Some {| st_Cores := cpuUsage; st_Memory := memoryUsage; st_NetTx := netTxUsage; st_NetRx := netRxUsage |})
  end.
Definition GetDeploymentStatSeries (spaceName appName envName : string) (startTime endTime limit : Z) :
    kcm (option SimpleDeploymentStatSeries) :=
  let* envNS := pure (getDeployableEnvironmentNamespace envName) in
  let* deploy := getCurrentDeployment spaceName appName envNS in
  match (d ← deploy; current d) with
  | None => s_ret None
  | Some rc =>
      let* pods := getPods envNS rc in
      let* mc := GetMetricsClient envNS in
      let* cpuMetrics := on_world (GetCPUMetricsRange mc pods envNS startTime endTime limit) in
      let* memoryMetrics := on_world (GetMemoryMetricsRange mc pods envNS startTime endTime limit) in
      let* netTxMetrics := on_world (GetNetworkSentMetricsRange mc pods envNS startTime endTime limit) in
      let* netRxMetrics := on_world (GetNetworkRecvMetricsRange mc pods envNS startTime endTime limit) in
      let '(minTime, maxTime) := getTimestampEndpoints [cpuMetrics; memoryMetrics] in
      s_ret (Some {| sr_Cores := cpuMetrics; sr_Memory := memoryMetrics; sr_NetTx := netTxMetrics; sr_NetRx := netRxMetrics;
                     sr_Start := minTime; sr_End := maxTime |})
  end.
End Client.

(** ** The current deployment *)

Definition version (rc : ReplicationController) : option Z := match version_of rc with Ok v => v | _ => None end.
(** [r] is at least as recent as [x]: by version, a version before none, by name without versions. *)
Definition recent (r x : ReplicationController) : Prop :=
  match version r, version x with
  | Some v, Some u => u ≤ v
  | Some _, None => True
  | None, Some _ => False
  | None, None => String.le (rc_Name x) (rc_Name r)
  end.
#[export] Instance recent_refl : Reflexive recent.
Proof. intros r. unfold recent. by destruct (version r). Qed.
#[export] Instance recent_trans : Transitive recent.
Proof.
  intros a b c. unfold recent. destruct (version a), (version b), (version c); try done; [lia|].
  intros H1 H2. by etrans.
Qed.
Lemma ltb_le a b : String.ltb a b = true → String.le a b.
Proof. unfold String.ltb, String.le, String.leb. by destruct (String.compare a b). Qed.
Lemma ltb_ge a b : String.ltb a b = false → String.le b a.
Proof.
  unfold String.ltb, String.le, String.leb. rewrite (String.compare_antisym b a). by destruct (String.compare a b).
Qed.

Lemma most_recent_step rc r : version_of rc = Ok (version rc) →
  ∃ r', (r' = r ∨ r' = rc) ∧ recent r' r ∧ recent r' rc ∧
    ∀ rcs, most_recent (Some r) (version r) (rc :: rcs) = most_recent (Some r') (version r') rcs.
Proof.
  intros Hv.
  assert (Hstep : ∀ rcs, most_recent (Some r) (version r) (rc :: rcs) =
    match version r, version rc with
    | None, Some _ => most_recent (Some rc) (version rc) rcs
    | None, None => most_recent (if String.ltb (rc_Name r) (rc_Name rc) then Some rc else Some r) (version r) rcs
    | Some n, Some v => if n <? v then most_recent (Some rc) (version rc) rcs else most_recent (Some r) (version r) rcs
    | Some _, None => most_recent (Some r) (version r) rcs
    end).
  { intros rcs. cbn [most_recent]. rewrite Hv. by destruct (version r), (version rc). }
  destruct (version r) as [n|] eqn:Er; destruct (version rc) as [v|] eqn:Ec.
  - destruct (Z.ltb_spec n v) as [H|H].
    + exists rc. rewrite Ec. split_and!; [by right|unfold recent; rewrite Er, Ec; lia|done|done].
    + exists r. rewrite Er. split_and!; [by left|done|unfold recent; rewrite Er, Ec; lia|done].
  - exists r. rewrite Er. split_and!; [by left|done|unfold recent; by rewrite Er, Ec|done].
  - exists rc. rewrite Ec. split_and!; [by right|unfold recent; by rewrite Er, Ec|done|done].
  - destruct (String.ltb (rc_Name r) (rc_Name rc)) eqn:El.
    + exists rc. rewrite Ec. split_and!; [by right|unfold recent; rewrite Er, Ec; by apply ltb_le|done|done].
    + exists r. rewrite Er. split_and!; [by left|done|unfold recent; rewrite Er, Ec; by apply ltb_ge|done].
Qed.
Lemma version_of_ok rc v : version_of rc = Ok v → version_of rc = Ok (version rc).
Proof. unfold version. by intros ->. Qed.
Lemma most_recent_max rcs r o : most_recent (Some r) (version r) rcs = Ok o →
  ∃ r', o = Some r' ∧ (r' = r ∨ r' ∈ rcs) ∧ recent r' r ∧ ∀ x, x ∈ rcs → recent r' x.
Proof.
  revert r; induction rcs as [|rc rcs IH]; intros r.
  { intros [= <-]. exists r. split_and!; [done|by left|done|by intros x ?%not_elem_of_nil]. }
  intros H. destruct (version_of rc) as [v|e|m] eqn:Hv; [|cbn [most_recent] in H; by rewrite Hv in H..].
  apply version_of_ok in Hv. destruct (most_recent_step rc r Hv) as (r1 & Hr1 & H1 & H2 & Hs).
  rewrite Hs in H. apply IH in H as (r' & -> & Hin & H3 & H4). exists r'. split_and!; [done|..|by etrans|].
  - destruct Hin as [->|?]; [|by right; right]. destruct Hr1 as [->| ->]; [by left|right; by left].
  - intros x [->|Hx]%elem_of_cons; [by etrans|by apply H4].
Qed.
Lemma getMostRecent_max l o : getMostRecentByDeploymentVersion l = Ok o →
  match o with
  | Some r => r ∈ l.*2 ∧ ∀ x, x ∈ l.*2 → recent r x
  | None => l = []
  end.
Proof.
  unfold getMostRecentByDeploymentVersion. destruct l as [|[k rc] l]; simpl; [by intros [= <-]|].
  intros (v & Hv & H)%bind_ok. assert (v = version rc) as -> by (unfold version; by rewrite Hv).
  apply most_recent_max in H as (r' & -> & Hin & H3 & H4). split; [destruct Hin as [->|?]; by constructor|].
  intros x [->|Hx]%elem_of_cons; [done|by apply H4].
Qed.
(** It is the same one in every order, when no two of the versions are the same. *)
Lemma getMostRecent_any_order l l' o o' : l ≡ₚ l' →
  (∀ x y, x ∈ l.*2 → y ∈ l.*2 → rc_Name x = rc_Name y ∨ is_Some (version x) ∧ version x = version y → x = y) →
  getMostRecentByDeploymentVersion l = Ok o → getMostRecentByDeploymentVersion l' = Ok o' → o = o'.
Proof.
  intros Hp Hd H%getMostRecent_max H'%getMostRecent_max. destruct o as [r|], o' as [r'|]; simplify_eq/=.
  - setoid_rewrite <- Hp in H'. destruct H as [Hr H], H' as [Hr' H']. f_equal. apply Hd; [done..|].
    specialize (H r' Hr'). specialize (H' r Hr). unfold recent in *.
    destruct (version r) as [v|], (version r') as [v'|]; try done.
    + right. split; [done|]. f_equal. lia.
    + left. by apply (anti_symm String.le).
  - destruct H as [H _]. rewrite Hp in H. by inversion H.
  - destruct H' as [H' _]. rewrite <- Hp in H'. by inversion H'.
  - done.
Qed.

Lemma active_of_spec rcs : match active_of rcs with
  | Some a => a ∈ rcs ∧ phase_of a = "Complete" ∧
      ∀ x, x ∈ rcs → phase_of x = "Complete" → rc_CreationTimestamp x ≤ rc_CreationTimestamp a
  | None => ∀ x, x ∈ rcs → phase_of x ≠ "Complete"
  end.
Proof.
  unfold active_of. induction rcs as [|rc rcs IH] using rev_ind; simpl; [by intros x ?%not_elem_of_nil|].
  rewrite fold_left_app; simpl. set (a := fold_left _ rcs None) in *. clearbody a.
  destruct (String.eqb_spec (phase_of rc) "Complete") as [Hc|Hc]; simpl.
  - destruct a as [a|].
    + destruct IH as (Ha & Hp & Hm). destruct (Z.ltb_spec (rc_CreationTimestamp a) (rc_CreationTimestamp rc)).
      * split_and!; [set_solver|done|]. intros x [Hx| ->%list_elem_of_singleton]%elem_of_app Hx'; [|done].
        specialize (Hm x Hx Hx'). lia.
      * split_and!; [set_solver|done|]. intros x [Hx| ->%list_elem_of_singleton]%elem_of_app Hx'; [by apply Hm|lia].
    + split_and!; [set_solver|done|]. intros x [Hx| ->%list_elem_of_singleton]%elem_of_app Hx'; [by apply IH in Hx|done].
  - destruct a as [a|]; [destruct IH as (Ha & Hp & Hm); split_and!; [set_solver|done|]|];
      intros x [Hx| ->%list_elem_of_singleton]%elem_of_app; try done; [by apply Hm|by apply IH].
Qed.

(** Shown in the overview: visible, or the last one that completed. *)
Definition in_overview (rcs : list ReplicationController) (rc : ReplicationController) : Prop :=
  isReplicationControllerVisible rc = true ∨ active_of rcs = Some rc.
Lemma by_name_lookup rcs m n rc : NoDup (map rc_Name rcs) →
  by_name rcs m !! n = Some rc ↔ rc ∈ rcs ∧ rc_Name rc = n ∨ n ∉ map rc_Name rcs ∧ m !! n = Some rc.
Proof.
  unfold by_name. revert m; induction rcs as [|r rcs IH]; intros m; simpl; [set_solver|].
  intros [Hn Hd]%NoDup_cons. rewrite IH by done. destruct (decide (n = rc_Name r)) as [->|Hne].
  - rewrite lookup_insert_eq. split.
    + intros [[? ?]|[? [= <-]]]; [left; split; [by right|done]|left; split; [by left|done]].
    + intros [[[->|Hrc]%elem_of_cons ?]|[? ?]]; [by right|by left|set_solver].
  - rewrite lookup_insert_ne by done. split.
    + intros [[? ?]|[? ?]]; [left; split; [by right|done]|right; set_solver].
    + intros [[[->|Hrc]%elem_of_cons ?]|[? ?]]; [done|by left|right; set_solver].
Qed.
Lemma candidates_lookup rcs n rc : NoDup (map rc_Name rcs) →
  candidates rcs !! n = Some rc ↔ rc ∈ rcs ∧ in_overview rcs rc ∧ rc_Name rc = n.
Proof.
  intros Hd. unfold candidates, in_overview.
  assert (Hd' : NoDup (map rc_Name (List.filter isReplicationControllerVisible rcs))).
  { clear -Hd. induction rcs as [|r rcs IH]; simpl in *; [done|]. apply NoDup_cons in Hd as [Hn Hd].
    destruct (isReplicationControllerVisible r); simpl; [|by apply IH]. constructor; [|by apply IH].
    rewrite list_elem_of_In, in_map_iff. intros (x & Hx & [Hin _]%filter_In). apply Hn.
    rewrite list_elem_of_In, in_map_iff. by exists x. }
  assert (Hv : by_name (List.filter isReplicationControllerVisible rcs) ∅ !! n = Some rc ↔
               rc ∈ rcs ∧ isReplicationControllerVisible rc = true ∧ rc_Name rc = n).
  { rewrite by_name_lookup by done. rewrite lookup_empty, !list_elem_of_In, filter_In. naive_solver. }
  pose proof (active_of_spec rcs) as Ha. destruct (active_of rcs) as [a|]; [|rewrite Hv; naive_solver].
  destruct Ha as (Ha & _). destruct (decide (n = rc_Name a)) as [->|Hne].
  - rewrite lookup_insert_eq. split; [intros [= ->]; naive_solver|].
    intros (Hrc & _ & Hn). f_equal. rewrite list_elem_of_In in Ha, Hrc.
    clear -Hd Ha Hrc Hn. apply in_split in Ha as (l1 & l2 & ->). rewrite map_app in Hd. simpl in Hd.
    apply NoDup_app in Hd as (_ & H1 & [H2 _]%NoDup_cons). apply in_app_iff in Hrc as [H|[->|H]]; [|done|].
    + exfalso. apply (H1 (rc_Name rc)); [apply list_elem_of_In, in_map_iff; by exists rc|rewrite Hn; by left].
    + exfalso. apply H2. rewrite <- Hn. apply list_elem_of_In, in_map_iff. by exists rc.
  - rewrite lookup_insert_ne by done. rewrite Hv. naive_solver.
Qed.

(** ** Pods, routes and buckets *)

Section PodFacts.
Context {Q : Type} {HQ : Quantities Q} (now : Z).

Definition pods_with (status : string) (pods : list (Pod Q)) : Z :=
  Z.of_nat (length (List.filter (λ p, bool_decide (pod_status_key now p = Some status)) pods)).
Definition pods_counted (pods : list (Pod Q)) : Z :=
  Z.of_nat (length (List.filter (λ p, negb (String.eqb (pod_Phase p) PodFailed)) pods)).
Lemma count_status_spec pods : let '(m, total) := fold_left (count_status now) pods (∅, 0) in
  total = pods_counted pods ∧ ∀ s, default 0 (m !! s) = pods_with s pods ∧ (is_Some (m !! s) ↔ 0 < pods_with s pods).
Proof.
  induction pods as [|p pods IH] using rev_ind; simpl.
  { split; [done|]. intros s. rewrite lookup_empty. split; [done|]. unfold pods_with; simpl.
    split; [by intros [? ?]|lia]. }
  rewrite fold_left_app; simpl. destruct (fold_left _ pods _) as [m total]. destruct IH as [-> IH].
  assert (Hw : ∀ s, pods_with s (pods ++ [p]) = pods_with s pods + if bool_decide (pod_status_key now p = Some s) then 1 else 0).
  { intros s. unfold pods_with. rewrite List.filter_app, length_app. simpl. case_bool_decide; simpl; lia. }
  assert (Hc : pods_counted (pods ++ [p]) = pods_counted pods + if negb (String.eqb (pod_Phase p) PodFailed) then 1 else 0).
  { unfold pods_counted. rewrite List.filter_app, length_app. simpl. destruct (negb _); simpl; lia. }
  unfold count_status. rewrite Hc. destruct (pod_status_key now p) as [k|] eqn:Ek; simpl.
  - unfold pod_status_key in Ek. destruct (String.eqb (pod_Phase p) PodFailed); [done|]. split; [done|]. intros s.
    rewrite Hw. destruct (IH s) as [Hd Hs]. destruct (decide (k = s)) as [->|Hne].
    + rewrite lookup_insert_eq, bool_decide_true by done; simpl. rewrite Hd. split; [done|].
      split; [intros _|by eexists]. unfold pods_with. lia.
    + rewrite lookup_insert_ne, bool_decide_false by congruence. rewrite Z.add_0_r. done.
  - unfold pod_status_key in Ek. destruct (String.eqb (pod_Phase p) PodFailed); [|done]; simpl.
    split; [by rewrite Z.add_0_r|]. intros s. rewrite Hw. rewrite bool_decide_false by done. by rewrite Z.add_0_r.
Qed.

(** C39: The donut of an environment: how many pods did not fail, and for each status there is, once, how many of them
    have it. *)
Theorem getPodStatus_counts range pods stats total : (∀ m, range m ≡ₚ map_to_list m) →
  getPodStatus range now pods = (stats, total) →
  total = pods_counted pods ∧
  ∃ statuses, NoDup statuses ∧ (∀ s, s ∈ statuses ↔ 0 < pods_with s pods) ∧
    stats = map (λ s, [s; Itoa (pods_with s pods)]) statuses.
Proof.
  intros Hr. unfold getPodStatus. pose proof (count_status_spec pods) as H.
  destruct (fold_left _ pods _) as [m t]. destruct H as [-> H]. intros [= <- <-]. split; [done|].
  exists (range m).*1. split_and!.
  - rewrite Hr. apply NoDup_fst_map_to_list.
  - intros s. rewrite <- (proj2 (H s)), Hr, list_elem_of_fmap. split.
    + intros ([k n] & -> & Hk%elem_of_map_to_list). by exists n.
    + intros [n Hn]. exists (s, n). by rewrite elem_of_map_to_list.
  - change ((range m).*1) with (map fst (range m)). rewrite map_map. apply map_ext_in. intros [s n] Hin. simpl.
    apply list_elem_of_In in Hin. rewrite Hr in Hin. apply elem_of_map_to_list in Hin.
    destruct (H s) as [<- _]. by rewrite Hin.
Qed.
End PodFacts.

Lemma best_route_spec routes : match best_route routes with
  | Some r => r ∈ routes ∧ ∀ x, x ∈ routes → scoreRoute x ≤ scoreRoute r
  | None => routes = []
  end.
Proof.
  unfold best_route. set (f := λ '(b, s) r, _).
  assert (Hs : ∀ x, 0 ≤ scoreRoute x).
  { intros [? ? [] [] [] []]; unfold scoreRoute; simpl; lia. }
  assert (H : match fold_left f routes (None, -1) with
              | (Some r, s) => s = scoreRoute r ∧ r ∈ routes ∧ ∀ x, x ∈ routes → scoreRoute x ≤ s
              | (None, s) => s = -1 ∧ routes = []
              end).
  { induction routes as [|x routes IH] using rev_ind; [done|]. rewrite fold_left_app; simpl.
    destruct (fold_left f routes _) as [[r|] s]; simpl.
    - destruct IH as (-> & Hr & Hm). destruct (Z.ltb_spec (scoreRoute r) (scoreRoute x)).
      + split_and!; [done|set_solver|]. intros y [Hy| ->%list_elem_of_singleton]%elem_of_app; [|done].
        specialize (Hm y Hy). lia.
      + split_and!; [done|set_solver|]. intros y [Hy| ->%list_elem_of_singleton]%elem_of_app; [by apply Hm|lia].
    - destruct IH as [-> ->]. specialize (Hs x). destruct (Z.ltb_spec (-1) (scoreRoute x)); [|lia].
      split_and!; [done|set_solver|]. intros y ->%list_elem_of_singleton. done. }
  destruct (fold_left f routes _) as [[r|] s]; simpl; naive_solver.
Qed.

(** C40: What is left of the buckets is a run of them that drops at most the last one, and older ones only to stay
    within the limit; none of it ends after the range when only the last bucket may. *)
Theorem bucket_window_bounds endTime limit buckets :
  let kept := bucket_window endTime limit buckets in
  (0 ≤ limit → Z.of_nat (length kept) ≤ limit) ∧
  ∃ older after, buckets = older ++ kept ++ after ∧ (length after ≤ 1)%nat ∧
    (older = [] ∨ Z.of_nat (length kept) = limit) ∧
    (after = [] ∨ ∃ b, after = [b] ∧ endTime < bk_End b) ∧
    ((∀ b, b ∈ removelast buckets → bk_End b ≤ endTime) → ∀ b, b ∈ kept → bk_End b ≤ endTime).
Proof.
  unfold bucket_window. destruct (last buckets) as [lastBucket|] eqn:El; simpl.
  2: { apply last_None in El as ->. simpl. split; [lia|]. exists [], []. simpl. split_and!; [done|lia|by left|by left|].
       by intros _ b ?%not_elem_of_nil. }
  apply last_Some in El as [init ->]. rewrite removelast_last.
  set (bs := if endTime <? bk_End lastBucket then init else init ++ [lastBucket]).
  set (after := if endTime <? bk_End lastBucket then [lastBucket] else []).
  assert (Hbs : init ++ [lastBucket] = bs ++ after).
  { subst bs after. destruct (_ <? _); [done|]. by rewrite app_nil_r. }
  assert (Ha : (length after ≤ 1)%nat) by (subst after; destruct (_ <? _); simpl; lia).
  assert (Hend : (∀ b, b ∈ init → bk_End b ≤ endTime) → ∀ b, b ∈ bs → bk_End b ≤ endTime).
  { intros Hi b. subst bs. destruct (Z.ltb_spec endTime (bk_End lastBucket)); [apply Hi|].
    by intros [Hb| ->%list_elem_of_singleton]%elem_of_app; [apply Hi|]. }
  assert (Haft : after = [] ∨ ∃ b, after = [b] ∧ endTime < bk_End b).
  { subst after. destruct (Z.ltb_spec endTime (bk_End lastBucket)); [right; by exists lastBucket|by left]. }
  rewrite Hbs. clearbody bs after. destruct ((0 <=? limit) && (limit <? Z.of_nat (length bs))) eqn:E; simpl.
  - z_bool. set (n := Z.to_nat (Z.of_nat (length bs) - limit)).
    assert (Hlen : Z.of_nat (length (drop n bs)) = limit) by (rewrite length_drop; subst n; lia).
    split; [intros _; by rewrite Hlen|]. exists (take n bs), after. split_and!; [|done|by right|done|].
    + by rewrite app_assoc, take_drop.
    + intros Hi b Hb. apply (Hend Hi). rewrite <- (take_drop n bs). apply elem_of_app. by right.
  - split. { intros Hl. apply andb_false_iff in E as [E|E]; [apply Z.leb_gt in E; lia|apply Z.ltb_ge in E; lia]. }
    exists [], after. split_and!; [done|done|by left|done|done].
Qed.

(** ** What the operations leave alone

    [R] relates the worlds before and after; it is kept by every call that
    only reads. *)

Create HintDb reads.
Section Gets.
Context {W St : Type} {HE : KubeErrors St} {HN : Network W St} {HB : BaseURLProvider W}.
Context (R : W → W → Prop) `{!Reflexive R} `{!Transitive R}.
Definition RK (k k' : kube W) : Prop := R (world k) (world k').
#[global] Instance RK_refl : Reflexive RK.
Proof. intros k. unfold RK. reflexivity. Qed.
#[global] Instance RK_trans : Transitive RK.
Proof. intros a b c. unfold RK. apply transitivity. Qed.
Lemma keeps_on_world {A} (m : W → res A * W) : keeps R m → keeps RK (on_world m).
Proof. intros H k. unfold RK, on_world. specialize (H (world k)). by destruct (m (world k)). Qed.
Lemma keeps_calling {A} f (m : W → rest St A * W) : (∀ w, R w (m w).2) → keeps R (calling f m).
Proof. intros H w. unfold calling. specialize (H w). by destruct (m w). Qed.
End Gets.
Ltac keeping := repeat first
  [ match goal with |- ∀ _, _ => intro end
  | match goal with |- Transitive _ => apply _ | |- Reflexive _ => apply _ end
  | solve [eauto 2 with reads nocore] | match goal with H : ∀ _, keeps _ _ |- _ => apply H end
  | apply keeps_bind
  | apply keeps_map | apply keeps_on_world | apply keeps_calling
  | apply keeps_query | apply keeps_ret | apply keeps_fail
  | match goal with
    | |- keeps _ (match ?x with _ => _ end) => destruct x
    end ].

Section Gets_only.
Context {W St : Type} {HE : KubeErrors St} {HN : Network W St} {HB : BaseURLProvider W}.
Context (R : W → W → Prop) `{!Reflexive R} `{!Transitive R}.
Hypothesis Hget : ∀ req, hr_Method req = verbGET → keeps R (Do req).
Lemma getResource_reads path allow : keeps R (getResource path allow).
Proof. unfold getResource. keeping. by apply Hget. Qed.
#[local] Hint Resolve getResource_reads : reads.
Lemma getMap_reads path : keeps R (getMap path).
Proof. unfold getMap. keeping. Qed.
#[local] Hint Resolve getMap_reads : reads.
Lemma name_reads UserNamespace yaml_Unmarshal parse_RFC3339 ns app space :
  keeps (RK R) (getDeploymentConfigNameForApp UserNamespace yaml_Unmarshal parse_RFC3339 ns app space).
Proof. unfold getDeploymentConfigNameForApp, GetBuilds. keeping. Qed.
End Gets_only.

Section Reading.
Context {W St Q : Type} {HE : KubeErrors St} {HQ : Quantities Q} {HK : KubeRESTAPI W St Q} {HN : Network W St}.
Context {HB : BaseURLProvider W} {HH : Hawkular W}.
Context (R : W → W → Prop) `{!Reflexive R} `{!Transitive R}.
Notation RK := (RK R).

Record reading := {
  get_reads : ∀ req, hr_Method req = verbGET → keeps R (Do req);
  rcs_read : ∀ ns w, R w (ReplicationControllers_List ns w).2;
  pods_read : ∀ ns w, R w (Pods_List ns w).2;
  services_read : ∀ ns selector w, R w (Services_List ns selector w).2;
  quotas_read : ∀ ns w, R w (ResourceQuotas_List ns w).2;
  limits_read : ∀ ns name w, R w (LimitRanges_Get ns name w).2;
  buckets_read : ∀ mc q, keeps R (ReadBuckets mc q);
  token_read : ∀ ns, keeps R (GetMetricsToken ns);
}.
Hypothesis HR : reading.
#[local] Hint Extern 1 (keeps R (getResource _ _)) => apply getResource_reads, (get_reads HR) : reads.
#[local] Hint Extern 1 (keeps R (getMap _)) => apply getMap_reads, (get_reads HR) : reads.
#[local] Hint Extern 1 (keeps _ (getDeploymentConfigNameForApp _ _ _ _ _ _)) => apply name_reads, (get_reads HR) : reads.
Context (UserNamespace : string) (envMap : gmap string string) (range : ∀ A : Type, gmap string A → list (string * A)).
Context (yaml_Unmarshal : string → res (list (yval * yval))) (parse_RFC3339 : string → res Z) (URL_String : URL → string).
Context (now : Z).

Lemma parse_config_reads ns dc : keeps RK (getAndParseDeploymentConfig ns dc).
Proof. unfold getAndParseDeploymentConfig, GetDeploymentConfig. keeping. Qed.
#[local] Hint Resolve parse_config_reads : reads.
Lemma current_reads space app ns : keeps RK (getCurrentDeployment UserNamespace range yaml_Unmarshal parse_RFC3339 space app ns).
Proof. unfold getCurrentDeployment, getReplicationControllers. keeping. by apply (rcs_read HR). Qed.
Lemma pods_reads ns rc : keeps RK (getPods ns rc).
Proof. unfold getPods. keeping. by apply (pods_read HR). Qed.
#[local] Hint Resolve current_reads pods_reads : reads.
Lemma url_reads ns rc : keeps RK (getApplicationURL range parse_RFC3339 URL_String ns rc).
Proof.
  unfold getApplicationURL, getBestRoute, getMatchingServices, getRoutesByService, GetRoutes. keeping.
  by apply (services_read HR).
Qed.
#[local] Hint Resolve url_reads : reads.
Lemma GetDeployment_reads space app env :
  keeps RK (GetDeployment UserNamespace envMap range yaml_Unmarshal parse_RFC3339 URL_String now space app env).
Proof. unfold GetDeployment. keeping. Qed.
#[local] Hint Resolve GetDeployment_reads : reads.
Lemma GetSpace_reads space :
  keeps RK (GetSpace UserNamespace envMap range yaml_Unmarshal parse_RFC3339 URL_String now space).
Proof.
  assert (Hd : ∀ app envs, keeps RK (deployments_of UserNamespace envMap range yaml_Unmarshal parse_RFC3339 URL_String now
                                       space app envs)).
  { intros app envs. induction envs; simpl; keeping. }
  assert (Ha : ∀ names, keeps RK (applications_of UserNamespace envMap range yaml_Unmarshal parse_RFC3339 URL_String now
                                    space names)).
  { intros names. induction names; simpl; unfold GetApplication; keeping. }
  unfold GetSpace, getBuildConfigsForSpace, GetBuildConfigs. keeping.
Qed.
Lemma GetEnvironments_reads : keeps RK (GetEnvironments envMap range).
Proof.
  unfold GetEnvironments. induction (range _ envMap).*1; simpl; unfold GetEnvironment, getResourceQuota; keeping.
  by apply (quotas_read HR).
Qed.
#[local] Hint Resolve GetSpace_reads GetEnvironments_reads : reads.
Lemma GetUsage_reads space :
  keeps RK (GetSpaceAndOtherEnvironmentUsage UserNamespace envMap range yaml_Unmarshal parse_RFC3339 URL_String now space).
Proof. unfold GetSpaceAndOtherEnvironmentUsage. keeping. Qed.
Lemma GetPodQuota_reads space app env :
  keeps RK (GetDeploymentPodQuota UserNamespace envMap yaml_Unmarshal parse_RFC3339 space app env).
Proof. unfold GetDeploymentPodQuota, GetDeploymentConfig. keeping. by apply (limits_read HR). Qed.
Lemma metrics_client_reads ns : keeps RK (GetMetricsClient ns).
Proof.
  intros kc. unfold GetMetricsClient. destruct (metricsMap kc !! ns); [reflexivity|].
  match goal with |- RK _ (?m _).2 => enough (keeps RK m) as H by apply H end. keeping; [by apply (token_read HR)|].
  intros k. unfold RK, keep_metrics; simpl. reflexivity.
Qed.
Lemma readBuckets_reads mc pods ns tag s e f : keeps R (readBuckets (Q := Q) mc pods ns tag s e f).
Proof. unfold readBuckets. keeping. by apply (buckets_read HR). Qed.
#[local] Hint Resolve metrics_client_reads readBuckets_reads : reads.
Lemma average_reads mc pods ns tag s scale : keeps R (getBucketAverage (Q := Q) mc pods ns tag s scale).
Proof. unfold getBucketAverage, getLatestBucket. keeping. Qed.
Lemma buckets_in_range_reads mc pods ns tag s e limit : keeps R (getBucketsInRange (Q := Q) mc pods ns tag s e limit).
Proof. unfold getBucketsInRange. keeping. Qed.
#[local] Hint Resolve average_reads buckets_in_range_reads : reads.
Lemma GetStats_reads space app env s :
  keeps RK (GetDeploymentStats UserNamespace envMap range yaml_Unmarshal parse_RFC3339 space app env s).
Proof.
  unfold GetDeploymentStats, GetCPUMetrics, GetMemoryMetrics, GetNetworkSentMetrics, GetNetworkRecvMetrics. keeping.
Qed.
Lemma GetSeries_reads space app env s e limit :
  keeps RK (GetDeploymentStatSeries UserNamespace envMap range yaml_Unmarshal parse_RFC3339 space app env s e limit).
Proof.
  unfold GetDeploymentStatSeries, GetCPUMetricsRange, GetMemoryMetricsRange, GetNetworkSentMetricsRange,
    GetNetworkRecvMetricsRange. keeping.
Qed.

(** *** Deleting

    changes nothing but routes, services and the deployment config, and these in the namespace of the
    environment alone. *)

Record deleting (ns : string) := {
  routes_deleted : ∀ name, keeps R (DeleteRoute ns name delete_options);
  config_deleted : ∀ name, keeps R (DeleteDeploymentConfig ns name delete_options);
  services_deleted : ∀ name w, R w (Services_Delete ns name w).2;
}.
Lemma DeleteDeployment_keeps space app env :
  (∀ ns, envMap !! env = Some ns → CanDeploy env = true → deleting ns) →
  keeps RK (DeleteDeployment UserNamespace envMap yaml_Unmarshal parse_RFC3339 space app env).
Proof.
  intros HD. unfold DeleteDeployment. unfold getDeployableEnvironmentNamespace.
  destruct (envMap !! env) as [ns|] eqn:E; [|intros k; reflexivity].
  destruct (CanDeploy env) eqn:Ec; [|intros k; reflexivity]. specialize (HD ns eq_refl eq_refl).
  pose proof (routes_deleted _ HD) as Hr. pose proof (config_deleted _ HD) as Hc. pose proof (services_deleted _ HD) as Hs.
  assert (Hrs : ∀ items, keeps RK (delete_each_route ns items)).
  { intros items. induction items; simpl; keeping. }
  assert (Hss : ∀ l, keeps RK (delete_each_service ns l)).
  { intros l. induction l; simpl; keeping. }
  match goal with |- keeps _ (s_bind _ ?k) => change (keeps RK (k ns)); cbv beta end.
  unfold deleteRoutes, GetRoutes, deleteServices, deleteDeploymentConfig.
  keeping; by apply (services_read HR).
Qed.
Lemma ScaleDeployment_keeps space app env n :
  (∀ ns, envMap !! env = Some ns → CanDeploy env = true →
    ∀ dc scale, keeps R (SetDeploymentConfigScale ns dc scale)) →
  keeps RK (ScaleDeployment UserNamespace envMap yaml_Unmarshal parse_RFC3339 space app env n).
Proof.
  intros HD. unfold ScaleDeployment. unfold getDeployableEnvironmentNamespace.
  destruct (envMap !! env) as [ns|] eqn:E; [|intros k; reflexivity].
  destruct (CanDeploy env) eqn:Ec; [|intros k; reflexivity]. specialize (HD ns eq_refl eq_refl).
  match goal with |- keeps _ (s_bind _ ?k) => change (keeps RK (k ns)); cbv beta end.
  unfold GetDeploymentConfigScale. keeping.
Qed.
End Reading.

(** ** Objects *)

Lemma map_get_set_key o k v : map_get (set_key o k v) k = Some v.
Proof.
  induction o as [|[k' v'] o IH]; simpl; [by rewrite String.eqb_refl|].
  destruct (String.eqb k k') eqn:E; simpl; by rewrite E.
Qed.

(** ** What the operations find and write *)

Section Outcomes.
Context {W St Q : Type} {HE : KubeErrors St} {HQ : Quantities Q} {HK : KubeRESTAPI W St Q} {HN : Network W St}.
Context {HB : BaseURLProvider W}.
Context (UserNamespace : string) (envMap : gmap string string) (range : ∀ A : Type, gmap string A → list (string * A)).
Context (yaml_Unmarshal : string → res (list (yval * yval))) (parse_RFC3339 : string → res Z).
Notation name_for := (getDeploymentConfigNameForApp UserNamespace yaml_Unmarshal parse_RFC3339).

Lemma on_world_ok {A} (m : W → res A * W) kc a kc' : on_world m kc = (Ok a, kc') → m (world kc) = (Ok a, world kc').
Proof. unfold on_world. destruct (m (world kc)) as [r w]. by intros [= -> <-]. Qed.
Lemma calling_ok {A} f (m : W → rest St A * W) w a w' : calling f m w = (Ok a, w') → m w = (inl a, w').
Proof. unfold calling. destruct (m w) as [[b|e] w1]; simpl; [by intros [= -> ->]|done]. Qed.
Lemma parse_config_ok dc o d : parse_deployment_config dc o = Ok d → dcName d = dc ∧ current d = None.
Proof.
  unfold parse_deployment_config. intros H. repeat (apply bind_ok in H as (? & ? & H)). by injection H as <-.
Qed.
Lemma get_config_ok ns dc kc o kc' : getAndParseDeploymentConfig ns dc kc = (Ok o, kc') →
  ∃ json, GetDeploymentConfig ns dc (world kc) = (Ok json, world kc') ∧
    match o with
    | None => json = None
    | Some d => ∃ j, json = Some j ∧ parse_deployment_config dc j = Ok d
    end.
Proof.
  intros (json & k1 & H1%on_world_ok & H)%s_bind_ok. exists json. destruct json as [j|].
  - apply s_query_ok in H as [H ->]. split; [done|]. destruct (parse_deployment_config dc j) eqn:?; simplify_eq/=. by exists j.
  - by injection H as <- <-.
Qed.

(** C17: The deployment that is shown is made by the most recent controller of the overview among those
    the deployment config owns, and there is none only when the overview has none; the controllers the config owns have
    different names, as all controllers of a namespace have. *)
Theorem getCurrentDeployment_current space app ns kc d kc' :
  (∀ A (m : gmap string A), range A m ≡ₚ map_to_list m) →
  getCurrentDeployment UserNamespace range yaml_Unmarshal parse_RFC3339 space app ns kc = (Ok (Some d), kc') →
  ∃ rcs w w', ReplicationControllers_List ns w = (inl rcs, w') ∧
    let mine := List.filter (λ rc, controlled_by (dcUID d) (rc_OwnerReferences rc)) rcs in
    (NoDup (map rc_Name mine) →
     match current d with
     | Some rc => rc ∈ mine ∧ in_overview mine rc ∧ ∀ x, x ∈ mine → in_overview mine x → recent rc x
     | None => ∀ x, x ∈ mine → ¬ in_overview mine x
     end).
Proof.
  intros Hr (dc & k1 & H1 & H)%s_bind_ok. apply s_bind_ok in H as (o & k2 & H2 & H).
  destruct o as [d0|]; [|done]. apply get_config_ok in H2 as (j & _ & j' & -> & H2). apply parse_config_ok in H2 as [_ Hc].
  apply s_bind_ok in H as (mine & k3 & H3 & H). apply s_bind_ok in H3 as (rcs & k4 & H3%on_world_ok%calling_ok & H4).
  injection H4 as <- <-.
  assert (Huid : dcUID d = dcUID d0).
  { destruct (List.filter _ rcs); [by injection H as <- <-|]. apply s_bind_ok in H as (c & k5 & _ & H). by injection H as <- <-. }
  exists rcs, (world k2), (world k4). split; [done|]. simpl. rewrite Huid.
  set (mine := List.filter _ rcs) in *. clearbody mine. intros Hd. destruct mine as [|rc0 rest].
  { injection H as <- <-. rewrite Hc. by intros x ?%not_elem_of_nil. }
  apply s_bind_ok in H as (c & k5 & H5 & H). injection H as <- <-. simpl. apply s_query_ok in H5 as [H5 _].
  apply getMostRecent_max in H5.
  assert (Hel : ∀ x, x ∈ (range _ (candidates (rc0 :: rest))).*2 ↔ x ∈ rc0 :: rest ∧ in_overview (rc0 :: rest) x).
  { intros x. rewrite Hr, list_elem_of_fmap. split.
    - intros ([n y] & -> & Hy%elem_of_map_to_list%candidates_lookup); [|done]. simpl. naive_solver.
    - intros [Hx Ho]. exists (rc_Name x, x). split; [done|]. apply elem_of_map_to_list, candidates_lookup; naive_solver. }
  destruct c as [rc|].
  - destruct H5 as [Hin Hmax]. apply Hel in Hin as [? ?]. split_and!; [done..|]. intros x Hx Ho. apply Hmax, Hel. by split.
  - intros x Hx Ho. assert (Hin : x ∈ (range _ (candidates (rc0 :: rest))).*2) by (by apply Hel). rewrite H5 in Hin.
    by inversion Hin.
Qed.

(** A deployment that is reported as deleted had a config, and its deletion was the last thing asked for. *)
Lemma DeleteDeployment_ok space app env kc kc' :
  DeleteDeployment UserNamespace envMap yaml_Unmarshal parse_RFC3339 space app env kc = (Ok tt, kc') →
  ∃ ns dc w w1 j r, envMap !! env = Some ns ∧ CanDeploy env = true ∧
    GetDeploymentConfig ns dc w = (Ok (Some j), w1) ∧ is_ok (parse_deployment_config dc j) = true ∧
    DeleteDeploymentConfig ns dc delete_options w1 = (Ok r, world kc').
Proof.
  intros (ns & k1 & H1 & H)%s_bind_ok. apply s_query_ok in H1 as [H1 ->]. unfold getDeployableEnvironmentNamespace in H1.
  destruct (envMap !! env) as [ns'|] eqn:E; [|done]. destruct (CanDeploy env) eqn:Ec; [|done]. injection H1 as ->.
  apply s_bind_ok in H as (dc & k2 & _ & H). apply s_bind_ok in H as ([] & k3 & _ & H).
  apply s_bind_ok in H as ([] & k4 & _ & H). apply s_bind_ok in H as (o & k5 & H5 & H). destruct o as [d|]; [|done].
  apply get_config_ok in H5 as (j & Hj & j' & -> & Hp). apply s_bind_ok in H as (r & k6 & H6%on_world_ok & [= <-]).
  exists ns, dc, (world k4), (world k5), j', r. rewrite Hp. done.
Qed.

(** *** Scaling

    What is relied on: reading changes nothing, a cluster that accepted a scale
    reports the number of replicas it was sent until it is sent another one,
    whatever else it makes of the object, or leaves it out when it is 0, and
    scaling leaves the builds alone. *)

Record keeps_scale (ns dc : string) := {
  gets_change_nothing : ∀ req, hr_Method req = verbGET → keeps eq (Do req);
  replicas_reported : ∀ w s spec n r w' s' w'', Z.abs n < 2 ^ 53 → map_get s "spec" = Some (VMap spec) → map_get spec "replicas" = Some (VInt n) →
    SetDeploymentConfigScale ns dc s w = (Ok r, w') → GetDeploymentConfigScale ns dc w' = (Ok s', w'') →
    ∃ spec', map_get s' "spec" = Some (VMap spec') ∧
      (map_get spec' "replicas" = Some (VFloat64 (float_of_int n)) ∨ n = 0 ∧ map_get spec' "replicas" = None);
  builds_stay : ∀ w s r w' sel, SetDeploymentConfigScale ns dc s w = (Ok r, w') →
    (GetBuilds UserNamespace sel w').1 = (GetBuilds UserNamespace sel w).1;
}.
Lemma gets_pure (HG : ∀ req, hr_Method req = verbGET → keeps eq (Do req)) path w r w' : getMap path w = (r, w') → w' = w.
Proof. intros H. symmetry. revert H. apply (keeps_at eq). by apply getMap_reads; [apply _..|]. Qed.
Lemma scale_ok sp app env n kc old kc' :
  ScaleDeployment UserNamespace envMap yaml_Unmarshal parse_RFC3339 sp app env n kc = (Ok old, kc') →
  ∃ ns builds dc w0 w1 w2 scale spec r, envMap !! env = Some ns ∧
    let sel := QueryEscape (buildConfigLabelName +:+ "=" +:+ app +:+ "," +:+ spaceLabelName +:+ "=" +:+ sp) in
    GetBuilds UserNamespace sel (world kc) = (Ok builds, w0) ∧
    parse_builds yaml_Unmarshal parse_RFC3339 ns app builds = Ok dc ∧
    GetDeploymentConfigScale ns dc w0 = (Ok scale, w1) ∧ get_object scale "spec" = Some spec ∧
    old_replicas spec = Ok old ∧
    SetDeploymentConfigScale ns dc (rescaled scale spec n) w1 = (Ok r, w2) ∧ world kc' = w2.
Proof.
  intros (ns & k1 & H1 & H)%s_bind_ok. apply s_query_ok in H1 as [H1 ->]. unfold getDeployableEnvironmentNamespace in H1.
  destruct (envMap !! env) as [ns'|] eqn:E; [|done]. destruct (CanDeploy env); [|done]. injection H1 as ->.
  apply s_bind_ok in H as (dc & k2 & H2 & H). apply s_bind_ok in H2 as (builds & k3 & H3%on_world_ok & H2).
  apply s_query_ok in H2 as [H2 ->]. apply s_bind_ok in H as (scale & k4 & H4%on_world_ok & H).
  apply s_bind_ok in H as (spec & k5 & H5 & H). apply s_query_ok in H5 as [H5 ->].
  apply s_bind_ok in H as (old' & k6 & H6 & H). apply s_query_ok in H6 as [H6 ->].
  apply s_bind_ok in H as (r & k7 & H7%on_world_ok & [= <- <-]).
  exists ns, builds, dc, (world k3), (world k4), (world k7), scale, spec, r. split_and!; try done.
  unfold or_err in H5. by destruct (get_object scale "spec"); simplify_eq/=.
Qed.

(** C18: Scaling reports the number of replicas the request before asked for, also when the cluster leaves out a number that is
    0, and whatever else the cluster sets in the object of the scale.  The number is below 2^53, and nobody else scales
    or builds in between. *)
Theorem ScaleDeployment_twice sp app env n m kc old kc' old' kc'' :
  (∀ ns dc, envMap !! env = Some ns → keeps_scale ns dc) → Z.abs n < 2 ^ 53 →
  ScaleDeployment UserNamespace envMap yaml_Unmarshal parse_RFC3339 sp app env n kc = (Ok old, kc') →
  ScaleDeployment UserNamespace envMap yaml_Unmarshal parse_RFC3339 sp app env m kc' = (Ok old', kc'') → old' = n.
Proof.
  intros HL Hn H1 H2.
  apply scale_ok in H1 as (ns & builds & dc & w0 & w1 & w2 & scale & spec & r & Hns & Hb & Hdc & Hg & _ & _ & Hput & Hk').
  apply scale_ok in H2 as (ns' & builds' & dc' & w3 & w4 & w5 & scale' & spec' & r' & Hns' & Hb' & Hdc' & Hg' & Hsp' & Ho' & _).
  assert (ns' = ns) as -> by congruence. specialize (HL ns dc Hns).
  assert (w0 = world kc) as -> by (eapply gets_pure, Hb; apply (gets_change_nothing _ _ HL)).
  assert (w1 = world kc) as -> by (eapply gets_pure, Hg; apply (gets_change_nothing _ _ HL)).
  assert (w3 = world kc') as -> by (eapply gets_pure, Hb'; apply (gets_change_nothing _ _ HL)).
  rewrite Hk' in Hb', Hg'. pose proof (builds_stay _ _ HL _ _ _ _
    (QueryEscape (buildConfigLabelName +:+ "=" +:+ app +:+ "," +:+ spaceLabelName +:+ "=" +:+ sp)) Hput) as Hstay.
  rewrite Hb, Hb' in Hstay. simpl in Hstay. injection Hstay as ->. assert (dc' = dc) as -> by congruence.
  destruct (replicas_reported _ _ HL _ _ (set_key spec "replicas" (VInt n)) n _ _ _ _ Hn (map_get_set_key _ _ _) (map_get_set_key _ _ _)
    Hput Hg') as (spec2 & Hspec & Hr).
  unfold get_object in Hsp'. rewrite Hspec in Hsp'. simpl in Hsp'. injection Hsp' as <-. unfold old_replicas in Ho'.
  destruct Hr as [Hr|[-> Hr]]; rewrite Hr in Ho'; injection Ho' as <-; [by apply float_to_int_of_int|done].
Qed.
End Outcomes.
