(* ===== verification/Deployments.v ===== *)
(** * The requests on deployments

    [controller/deployments.go], [controller/deployments_urlprovider.go] and
    [controller/deployments_osioclient.go]: which cluster and namespace a user
    has, the client that is made for a request, and the requests.  Then what
    showing, scaling and deleting do to a cluster.  The websocket with the
    events of an environment is left out. *)

From Stdlib Require Import ZArith Lia Ascii String SpecFloat.
From S2P Require Export KubeClient.

(** ** The services of a user *)

Record NamespaceAttributes := {
  na_Name : option string;
  na_Type : option string;
  na_ClusterURL : option string;
  na_ClusterConsoleURL : option string;
  na_ClusterLoggingURL : option string;
  na_ClusterMetricsURL : option string;
}.
Record UserService := {
  us_ID : option string;
  us_Namespaces : option (list NamespaceAttributes);   (* of the attributes *)
}.

(** What the two other services answer: a status and what the body is read as. *)
Class Services (W : Type) := {
  ShowUserService : W → res (Z * res (option UserService)) * W;
  (* the name among the attributes of a space *)
  ShowSpace : uuid → W → res (Z * res (option (option (option string)))) * W;
  RetrieveToken : string → W → res (Z * res (option string)) * W;
  (* whether the URLs and the clients for them can be made *)
  osio_client : res unit;
  auth_client : res unit;
  kube_client : string → string → res unit;
}.

Section Tenant.
Context {W : Type} {HS : Services W}.
Notation wm A := (W → res A * W).

(** *** [OSIOClient] *)

(** A client keeps what it fetched; each one is asked once and thrown away. *)
Definition GetUserServices : wm (option UserService) :=
  let* resp := s_map (wrapf "could not retrieve user's services") ShowUserService in
  pure (if resp.1 =? Errors.StatusNotFound then Ok None
        else if negb (resp.1 =? StatusOK) then Err (Plain "failed to GET %s due to status code %d")
        else wrapf "could not unmarshal user services JSON" resp.2).
Fixpoint namespace_of_type (namespaceType : string) (nameSpaces : list NamespaceAttributes) : res (option NamespaceAttributes) :=
  match nameSpaces with
  | [] => Ok None
  | ns :: nameSpaces =>
      ty ← deref (na_Type ns);
      if String.eqb ty namespaceType then Ok (Some ns) else namespace_of_type namespaceType nameSpaces
  end.
Definition GetNamespaceByType (namespaceType : string) : wm (option NamespaceAttributes) :=
  let* userService := s_map (wrapf "could not retrieve user services") GetUserServices in
  pure (userService ← deref userService;
        nameSpaces ← deref (us_Namespaces userService);
        namespace_of_type namespaceType nameSpaces).
Definition GetSpaceByID (spaceID : uuid) : wm (option (option (option string))) :=
  let* resp := s_map (wrapf "could not connect to %s") (ShowSpace spaceID) in
  pure (if resp.1 =? Errors.StatusNotFound then Ok None
        else if negb (resp.1 =? StatusOK) then Err (Plain "failed to GET %s due to status code %d")
        else wrapf "could not unmarshal SpaceSingle JSON" resp.2).

(** *** [tenantURLProvider] *)

Definition TokenForService (forService : string) : wm (option string) :=
  let* resp := s_map (wrapf "unable to retrieve Auth token for '%s' service") (RetrieveToken forService) in
  pure (if negb (resp.1 =? StatusOK) then Err (Plain "failed to GET Auth token for '%s' service due to status code %d")
        else wrapf "unable to unmarshal Auth token for '%s' service from Auth service" resp.2).

Record tenantURLProvider := {
  apiURL : string;
  apiToken : string;
  namespaces : gmap string NamespaceAttributes;
}.
(** The namespaces by name, and the first of them or the last one of the user. *)
Fixpoint collect_namespaces (m : gmap string NamespaceAttributes) (defaultNamespace : NamespaceAttributes)
    (l : list NamespaceAttributes) : res (gmap string NamespaceAttributes * NamespaceAttributes) :=
  match l with
  | [] => Ok (m, defaultNamespace)
  | namespace :: l =>
      name ← deref (na_Name namespace);
      collect_namespaces (<[name := namespace]> m)
        (if bool_decide (na_Type namespace = Some environmentTypeUser) then namespace else defaultNamespace) l
  end.
Definition newTenantURLProviderFromTenant (t : option UserService) (token proxyURL : string) : res tenantURLProvider :=
  t ← deref t;
  _ ← or_err "app.UserService is malformed: no ID field" (us_ID t);
  nss ← or_err "app.UserService is malformed: no Attribute field (ID=%s)" (us_Namespaces t);
  match nss with
  | [] => Err (Plain "app.UserService is malformed: no Namespaces (ID=%s)")
  | first :: _ =>
      md ← collect_namespaces ∅ first nss;
      defaultClusterURL ← deref (na_ClusterURL md.2);
      Ok {| apiURL := match proxyURL with "" => defaultClusterURL | _ => proxyURL end;
            apiToken := token; namespaces := md.1 |}
  end.
Definition with_token (up : tenantURLProvider) (token : string) : tenantURLProvider :=
  {| apiURL := apiURL up; apiToken := token; namespaces := namespaces up |}.
(** Without a proxy the token is the one of the cluster. *)
Definition NewURLProvider (token proxyURL : string) : wm tenantURLProvider :=
  let* userServices := GetUserServices in
  let* up := pure (newTenantURLProviderFromTenant userServices token proxyURL) in
  let* _ := pure (wrapf "error creating Auth client" auth_client) in
  match proxyURL with
  | "" => let* tokenData := TokenForService (apiURL up) in
          let* token := pure (deref tokenData) in
          s_ret (with_token up token)
  | _ => s_ret up
  end.

(** Scheme and hostname of a URL; a host can be modified when it begins with api. *)
Context (url_Parse : string → res (string * string)) (URL_String : URL → string).
Definition modifyURL (apiURLStr prefix path : string) : res URL :=
  sh ← with_stack (url_Parse apiURLStr);
  if HasPrefix sh.2 "api"
  then Ok {| url_Scheme := sh.1; url_Host := prefix +:+ TrimPrefix sh.2 "api"; url_Path := path |}
  else Err (Plain "cluster URL does not begin with %s: %s").
Definition namespace_of (up : tenantURLProvider) (envNS : string) : res NamespaceAttributes :=
  or_err "Namespace '%s' is not in tenant '%s'" (namespaces up !! envNS).
Definition base_or_modified (baseURL : option string) (ns : NamespaceAttributes) (prefix path : string) : res string :=
  match nonempty baseURL with
  | Some baseURL => Ok baseURL
  | None => u ← deref (na_ClusterURL ns); URL_String <$> modifyURL u prefix path
  end.
Definition GetEnvironmentMapping_ (range : ∀ A : Type, gmap string A → list (string * A)) (up : tenantURLProvider) : gmap string string :=
  fold_left (λ result '(envNS, attr),
    match nonempty (na_Type attr) with Some envName => <[envName := envNS]> result | None => result end)
    (range _ (namespaces up)) ∅.
Definition internalNamespaceTypes : list string := ["user"; "che"; "jenkins"].
Definition CanDeploy_ (envType : string) : bool := negb (existsb (String.eqb envType) internalNamespaceTypes).
Definition GetConsoleURL_ (up : tenantURLProvider) (envNS : string) : res (option string) :=
  ns ← namespace_of up envNS;
  baseURL ← base_or_modified (na_ClusterConsoleURL ns) ns "console" "/console";
  Ok (Some (baseURL +:+ "/project/" +:+ envNS)).
Definition GetLoggingURL_ (up : tenantURLProvider) (envNS deployName : string) : res (option string) :=
  ns ← namespace_of up envNS;
  baseURL ← base_or_modified (na_ClusterLoggingURL ns) ns "console" "/console";
  Ok (Some (baseURL +:+ "/project/" +:+ envNS +:+ "/browse/rc/" +:+ deployName +:+ "?tab=logs")).
Definition GetMetricsURL_ (up : tenantURLProvider) (envNS : string) : res (option string) :=
  ns ← namespace_of up envNS;
  baseURL ← base_or_modified (na_ClusterMetricsURL ns) ns "metrics" "";
  Ok (Some (TrimSuffix baseURL "/")).
(** No token is ever kept: each one is fetched. *)
Definition GetMetricsToken_ (up : tenantURLProvider) (envNS : string) : wm (option string) :=
  let* ns := pure (namespace_of up envNS) in
  let* url := pure (deref (na_ClusterURL ns)) in
  let* tokenData := TokenForService url in
  let* token := pure (deref tokenData) in
  s_ret (Some token).

Context (range : ∀ A : Type, gmap string A → list (string * A)).
#[export] Instance tenant_provider (up : tenantURLProvider) : BaseURLProvider W := {
  GetEnvironmentMapping := GetEnvironmentMapping_ range up;
  CanDeploy := CanDeploy_;
  GetAPIURL := Ok (Some (apiURL up));
  GetMetricsURL := GetMetricsURL_ up;
  GetConsoleURL := GetConsoleURL_ up;
  GetLoggingURL := GetLoggingURL_ up;
  GetAPIToken := Ok (Some (apiToken up));
  GetMetricsToken := GetMetricsToken_ up;
}.
End Tenant.

(** ** The requests *)

Section Requests.
Context {W St Q : Type} {HE : KubeErrors St} {HQ : Quantities Q} {HK : KubeRESTAPI W St Q} {HN : Network W St}.
Context {HO : UuidOps} {HH : Hawkular W} {HS : Services W}.
Context (url_Parse : string → res (string * string)) (URL_String : URL → string).
Context (range : ∀ A : Type, gmap string A → list (string * A)).
Context (yaml_Unmarshal : string → res (list (yval * yval))) (parse_RFC3339 : string → res Z).
Context (now : Z) (token proxyURL : string).
Notation wm A := (W → res A * W).
Notation provider up := (tenant_provider url_Parse URL_String range up).
Notation envs_of up := (GetEnvironmentMapping_ range up).

Definition getNamespaceName : wm (option string) :=
  let* _ := pure osio_client in
  let* kubeSpaceAttr := s_map (wrapf "unable to retrieve 'user' namespace") (GetNamespaceByType environmentTypeUser) in
  pure (match kubeSpaceAttr with
        | None => Err (Errors.NewNotFoundError "namespace" "user")
        | Some ns => Ok (na_Name ns)
        end).
(** The provider and the namespace of the user. *)
Definition GetKubeClient : wm (tenantURLProvider * string) :=
  let* kubeNamespaceName := s_map (wrapf "could not retrieve namespace name") getNamespaceName in
  let* _ := pure osio_client in
  let* up := s_map (wrapf "could not retrieve tenant data") (NewURLProvider token proxyURL) in
  let* userNamespace := pure (deref kubeNamespaceName) in
  let* _ := pure (wrapf "could not create Kubernetes client object" (with_stack (kube_client (apiURL up) (apiToken up)))) in
  s_ret (up, userNamespace).
Definition getSpaceNameFromSpaceID (spaceID : uuid) : wm string :=
  let* _ := pure osio_client in
  let* osioSpace := s_map (wrapf "unable to convert space UUID %s to space name") (GetSpaceByID spaceID) in
  pure (or_err "space UUID %s is not valid space name" (mjoin (mjoin osioSpace))).
(** What is done with a client that remembers nothing yet and is thrown away. *)
Definition with_client {A} (m : kube W → res A * kube W) : wm A := λ w,
  let '(r, kc) := m {| world := w; rulesMap := ∅; metricsMap := ∅ |} in (r, world kc).
Definition space_not_found {A} (spaceID : uuid) (r : res A) : res A :=
  replace_err (Errors.NewNotFoundError "osio space" (uuid_String spaceID)) r.

Definition SetDeployment (spaceID : uuid) (appName deployName : string) (podCount : option Z) : wm unit :=
  let* podCount := pure (match podCount with
                         | Some n => Ok n
                         | None => Err (Errors.NewBadParameterError "podCount" "missing")
                         end) in
  let* kc := GetKubeClient in
  let* kubeSpaceName := s_map (space_not_found spaceID) (getSpaceNameFromSpaceID spaceID) in
  let* _ := s_map (wrapf "error scaling deployment %s") (with_client
    (ScaleDeployment (HB := provider kc.1) kc.2 (envs_of kc.1) yaml_Unmarshal parse_RFC3339
       kubeSpaceName appName deployName podCount)) in
  s_ret tt.
Definition DeleteDeployment_ (spaceID : uuid) (appName deployName : string) : wm unit :=
  let* kc := GetKubeClient in
  let* kubeSpaceName := s_map (λ r, match r with
                                    | Err e => let m := Errors.ErrorMsg e in Err (GoaServiceError 404 "" m (Some ("not_found", m)))
                                    | r => r
                                    end) (getSpaceNameFromSpaceID spaceID) in
  with_client (DeleteDeployment (HB := provider kc.1) kc.2 (envs_of kc.1) yaml_Unmarshal parse_RFC3339
    kubeSpaceName appName deployName).
(** Milliseconds of the epoch, as nanoseconds in 64 bits. *)
Definition convertToTime (unixMillis : Z) : Z := wrap64 (unixMillis * 10 ^ 6).
Definition time_of (t : option float64) (default : Z) : Z :=
  match t with Some t => convertToTime (float_to_int t) | None => default end.
Definition eight_hours : Z := 8 * 3600 * 10 ^ 9.
(** When the end comes before the start the end is reported, also when none was given. *)
Definition check_times (Start End_ : option float64) : res (Z * Z) :=
  let endTime := time_of End_ now in
  let startTime := time_of Start (now - eight_hours) in
  if endTime <? startTime
  then _ ← deref End_; Err (Errors.NewBadParameterError "end" "%v")
  else Ok (startTime, endTime).
Definition ShowDeploymentStatSeries (spaceID : uuid) (appName deployName : string) (Start End_ : option float64)
    (Limit : option Z) : wm SimpleDeploymentStatSeries :=
  let* times := pure (check_times Start End_) in
  let* kc := GetKubeClient in
  let* kubeSpaceName := getSpaceNameFromSpaceID spaceID in
  let* statSeries := with_client (GetDeploymentStatSeries (HB := provider kc.1) kc.2 (envs_of kc.1) range yaml_Unmarshal
                                    parse_RFC3339 kubeSpaceName appName deployName times.1 times.2 (default (-1) Limit)) in
  pure (match statSeries with Some s => Ok s | None => Err (Errors.NewNotFoundError "deployment" deployName) end).
Definition ShowDeploymentPodLimitRange (spaceID : uuid) (appName deployName : string) : wm PodsQuota :=
  let* kc := GetKubeClient in
  let* spaceName := getSpaceNameFromSpaceID spaceID in
  with_client (GetDeploymentPodQuota (HB := provider kc.1) kc.2 (envs_of kc.1) yaml_Unmarshal parse_RFC3339
    spaceName appName deployName).
Definition ShowDeploymentStats (spaceID : uuid) (appName deployName : string) (Start : option float64) :
    wm SimpleDeploymentStats :=
  let* kc := GetKubeClient in
  let* kubeSpaceName := s_map (space_not_found spaceID) (getSpaceNameFromSpaceID spaceID) in
  let startTime := time_of Start (now - 60 * 10 ^ 9) in
  let* deploymentStats := s_map (wrapf "could not retrieve deployment statistics for deployment '%s' in space '%s'")
    (with_client (GetDeploymentStats (HB := provider kc.1) kc.2 (envs_of kc.1) range yaml_Unmarshal parse_RFC3339
       kubeSpaceName appName deployName startTime)) in
  pure (match deploymentStats with Some s => Ok s | None => Err (Errors.NewNotFoundError "deployment" deployName) end).
Definition ShowSpace_ (spaceID : uuid) : wm SimpleSpace :=
  let* kc := GetKubeClient in
  let* kubeSpaceName := s_map (space_not_found spaceID) (getSpaceNameFromSpaceID spaceID) in
  s_map (wrapf "could not retrieve space %s")
    (with_client (GetSpace (HB := provider kc.1) kc.2 (envs_of kc.1) range yaml_Unmarshal parse_RFC3339 URL_String now
       kubeSpaceName)).
Definition ShowSpaceEnvironments : wm (list SimpleEnvironment) :=
  let* kc := GetKubeClient in
  s_map (wrapf "error retrieving environments") (with_client (GetEnvironments (HB := provider kc.1) (envs_of kc.1) range)).
Definition ShowEnvironmentsBySpace (spaceID : uuid) : wm (list SpaceAndOtherEnvironmentUsage) :=
  let* kc := GetKubeClient in
  let* kubeSpaceName := s_map (space_not_found spaceID) (getSpaceNameFromSpaceID spaceID) in
  s_map (wrapf "error retrieving environments")
    (with_client (GetSpaceAndOtherEnvironmentUsage (HB := provider kc.1) kc.2 (envs_of kc.1) range yaml_Unmarshal parse_RFC3339
       URL_String now kubeSpaceName)).
Definition ShowAllEnvironments : wm (list SimpleEnvironment) :=
  let* kc := GetKubeClient in
  s_map (wrapf "error retrieving environments") (with_client (GetEnvironments (HB := provider kc.1) (envs_of kc.1) range)).
End Requests.

(** ** What a request changes *)

Inductive request (W : Type) :=
  | ShowsSeries (spaceID : uuid) (appName deployName : string) (Start End_ : option float64) (Limit : option Z)
  | ShowsPodLimitRange (spaceID : uuid) (appName deployName : string)
  | ShowsStats (spaceID : uuid) (appName deployName : string) (Start : option float64)
  | ShowsSpace (spaceID : uuid)
  | ShowsSpaceEnvironments
  | ShowsEnvironmentsBySpace (spaceID : uuid)
  | ShowsAllEnvironments
  | Sets (spaceID : uuid) (appName deployName : string) (podCount : option Z)
  | Deletes (spaceID : uuid) (appName deployName : string).
Arguments ShowsSeries {W}.
Arguments ShowsPodLimitRange {W}.
Arguments ShowsStats {W}.
Arguments ShowsSpace {W}.
Arguments ShowsSpaceEnvironments {W}.
Arguments ShowsEnvironmentsBySpace {W}.
Arguments ShowsAllEnvironments {W}.
Arguments Sets {W}.
Arguments Deletes {W}.

Section Scope.
Context {W St Q : Type} {HE : KubeErrors St} {HQ : Quantities Q} {HK : KubeRESTAPI W St Q} {HN : Network W St}.
Context {HO : UuidOps} {HH : Hawkular W} {HS : Services W}.
Context (url_Parse : string → res (string * string)) (URL_String : URL → string).
Context (range : ∀ A : Type, gmap string A → list (string * A)).
Context (yaml_Unmarshal : string → res (list (yval * yval))) (parse_RFC3339 : string → res Z).
Context (now : Z) (token proxyURL : string).
Notation provider up := (tenant_provider url_Parse URL_String range up).
Notation envs_of up := (GetEnvironmentMapping_ range up).

(** The world a request leaves, whatever it answers. *)
Definition after (q : request W) (w : W) : W :=
  match q with
  | ShowsSeries s a d b e l => (ShowDeploymentStatSeries url_Parse URL_String range yaml_Unmarshal parse_RFC3339 now token proxyURL s a d b e l w).2
  | ShowsPodLimitRange s a d => (ShowDeploymentPodLimitRange url_Parse URL_String range yaml_Unmarshal parse_RFC3339 token proxyURL s a d w).2
  | ShowsStats s a d b => (ShowDeploymentStats url_Parse URL_String range yaml_Unmarshal parse_RFC3339 now token proxyURL s a d b w).2
  | ShowsSpace s => (ShowSpace_ url_Parse URL_String range yaml_Unmarshal parse_RFC3339 now token proxyURL s w).2
  | ShowsSpaceEnvironments => (ShowSpaceEnvironments url_Parse URL_String range token proxyURL w).2
  | ShowsEnvironmentsBySpace s => (ShowEnvironmentsBySpace url_Parse URL_String range yaml_Unmarshal parse_RFC3339 now token proxyURL s w).2
  | ShowsAllEnvironments => (ShowAllEnvironments url_Parse URL_String range token proxyURL w).2
  | Sets s a d n => (SetDeployment url_Parse URL_String range yaml_Unmarshal parse_RFC3339 token proxyURL s a d n w).2
  | Deletes s a d => (DeleteDeployment_ url_Parse URL_String range yaml_Unmarshal parse_RFC3339 token proxyURL s a d w).2
  end.

Context (R : W → W → Prop) `{!Reflexive R} `{!Transitive R}.
(** Reading from the cluster, from its metrics and from the other services keeps [R]. *)
Record quiet_reads := {
  q_get : ∀ req, hr_Method req = verbGET → keeps R (Do req);
  q_rcs : ∀ ns w, R w (ReplicationControllers_List ns w).2;
  q_pods : ∀ ns w, R w (Pods_List ns w).2;
  q_services : ∀ ns selector w, R w (Services_List ns selector w).2;
  q_quotas : ∀ ns w, R w (ResourceQuotas_List ns w).2;
  q_limits : ∀ ns name w, R w (LimitRanges_Get ns name w).2;
  q_buckets : ∀ mc q, keeps R (ReadBuckets mc q);
  q_user : keeps R ShowUserService;
  q_space : ∀ id, keeps R (ShowSpace id);
  q_token : ∀ s, keeps R (RetrieveToken s);
}.
(** What a request may change besides: the scale of a deployment config, or routes, services and deployment
    configs, in a namespace of the user whose type is the environment of the request and not an internal one. *)
Definition in_env (env : string) (P : tenantURLProvider → string → Prop) : Prop :=
  ∀ w up user w' ns, GetKubeClient token proxyURL w = (Ok (up, user), w') → envs_of up !! env = Some ns →
    CanDeploy_ env = true → P up ns.
Definition allowed (q : request W) : Prop :=
  match q with
  | Sets _ _ env _ => in_env env (λ up ns, ∀ dc scale, keeps R (SetDeploymentConfigScale (HB := provider up) ns dc scale))
  | Deletes _ _ env => in_env env (λ up ns, deleting (HB := provider up) R ns)
  | _ => True
  end.

Hypothesis HR : quiet_reads.
Lemma token_keeps s : keeps R (TokenForService s).
Proof. unfold TokenForService. keeping. by apply (q_token HR). Qed.
#[local] Hint Resolve token_keeps : reads.
Lemma provider_reading up : reading (HB := provider up) R.
Proof.
  split; try apply HR. intros ns. change (keeps R (GetMetricsToken_ up ns)). unfold GetMetricsToken_. keeping.
Qed.
Lemma user_services_keep : keeps R GetUserServices.
Proof. unfold GetUserServices. keeping. by apply (q_user HR). Qed.
#[local] Hint Resolve user_services_keep : reads.
Lemma GetKubeClient_keeps : keeps R (GetKubeClient token proxyURL).
Proof. unfold GetKubeClient, getNamespaceName, GetNamespaceByType, NewURLProvider. keeping. Qed.
Lemma space_name_keeps id : keeps R (getSpaceNameFromSpaceID id).
Proof. unfold getSpaceNameFromSpaceID, GetSpaceByID. keeping. by apply (q_space HR). Qed.
#[local] Hint Resolve GetKubeClient_keeps space_name_keeps : reads.
Lemma with_client_keeps {A} (m : kube W → res A * kube W) : keeps (RK R) m → keeps R (with_client m).
Proof.
  intros H w. unfold with_client. specialize (H {| world := w; rulesMap := ∅; metricsMap := ∅ |}).
  by destruct (m _) as [r k].
Qed.
Lemma keeps_bind_at {A B} (m : W → res A * W) (k : A → W → res B * W) w :
  R w (m w).2 → (∀ a w', m w = (Ok a, w') → R w' (k a w').2) → R w (s_bind m k w).2.
Proof.
  intros Hm Hk. unfold s_bind. destruct (m w) as [[a|e|p] w1] eqn:E; simpl in *; [|done..]. etrans; [exact Hm|by apply Hk].
Qed.

Ltac enough_keeps := cbv beta; match goal with |- R ?w (?m ?w).2 => let H := fresh in enough (keeps R m) as H by apply H end.
#[local] Hint Extern 1 (keeps R (with_client _)) =>
  apply with_client_keeps; first [apply GetSeries_reads|apply GetPodQuota_reads|apply GetStats_reads|apply GetSpace_reads
    |apply GetEnvironments_reads|apply GetUsage_reads]; first [apply provider_reading|apply _] : reads.
(** C15: A request changes nothing but what is its own, whatever the services and the cluster answer: showing changes
    nothing, setting and deleting change only the environment they name, and no internal namespace. *)
Theorem requests_scope q w : allowed q → R w (after q w).
Proof.
  intros Ha. destruct q; simpl; [enough_keeps..| |].
  - unfold ShowDeploymentStatSeries. keeping.
  - unfold ShowDeploymentPodLimitRange. keeping.
  - unfold ShowDeploymentStats. keeping.
  - unfold ShowSpace_. keeping.
  - unfold ShowSpaceEnvironments. keeping.
  - unfold ShowEnvironmentsBySpace. keeping.
  - unfold ShowAllEnvironments. keeping.
  - unfold SetDeployment. apply keeps_bind_at; [reflexivity|]. intros n w' [_ ->]%s_query_ok.
    apply keeps_bind_at; [apply GetKubeClient_keeps|]. intros [up user] w1 Hc. enough_keeps. keeping.
    apply with_client_keeps, ScaleDeployment_keeps; [apply _..|apply provider_reading|].
    intros ns Hns Hd. by apply (Ha w up user w1).
  - unfold DeleteDeployment_. apply keeps_bind_at; [apply GetKubeClient_keeps|]. intros [up user] w1 Hc. enough_keeps. keeping.
    apply with_client_keeps, DeleteDeployment_keeps; [apply _..|apply provider_reading|].
    intros ns Hns Hd. by apply (Ha w up user w1).
Qed.
End Scope.

(** ** A small cluster

    One deployment config, whose object also carries its scale, and what was sent: a scale is
    stored with a status of the cluster's own, and without its replicas when they are 0; a user with a
    namespace to run applications in.  The theorems are applied to it. *)

Module Small.
Record cluster := {
  config : obj;
  sent : list (string * string);
}.
Definition tj (_ : Z) : string := "".
Definition sj (_ : string) : option gval := None.
#[export] Instance Statuses : KubeErrors unit :=
  {| Status_Kind _ := "Status"; IsBadRequest _ := false; IsNotFound _ := true; Status_Error _ := "not found" |}.
#[export] Instance Integers : Quantities Z :=
  {| AsInt64 z := Some z; Unscaled z := Some z; Scale _ := 0;
     ParseQuantity s := match Atoi s with Ok z => Some z | _ => None end |}.
Definition api : string := "https://api.c".
Definition base : string := api +:+ "/oapi/v1/namespaces/".
Definition list_of (kind : string) (items : list gval) : gval := VMap [("kind", VString kind); ("items", VSlice items)].
Definition build : gval :=
  VMap [("metadata", VMap [("creationTimestamp", VString "5");
                           ("annotations", VMap [("environment.services.fabric8.io/jo-run", VString "versions")])])].
Definition rule (resource : string) (verbs : list string) : gval :=
  VMap [("verbs", VSlice (map VString verbs)); ("apiGroups", VSlice [VString ""]); ("resources", VSlice [VString resource])].
Definition review : gval :=
  VMap [("status", VMap [("rules", VSlice [rule "builds" ["list"]; rule "resourcequotas" ["list"; "get"];
                                           rule "pods" ["list"]; rule "pods" ["watch"];
                                           rule "deploymentconfigs" ["get"]; rule "replicationcontrollers" ["list"]])])].
Definition route_item : gval :=
  VMap [("metadata", VMap [("name", VString "r1")]); ("spec", VMap [("to", VMap [("name", VString "svc")])]);
        ("status", VMap [("ingress", VSlice [])])].
Definition answered (c : cluster) (url : string) : Z * gval :=
  if HasPrefix url (base +:+ "jo-run/deploymentconfigs/") then
    if json_value (VMap (config c)) then (200, VMap (config c)) else (500, VNil)
  else if HasPrefix url (base +:+ "jo/builds?") then (200, list_of "BuildList" [build])
  else if HasPrefix url (base +:+ "jo-run/routes") then (200, list_of "RouteList" [route_item])
  else (404, VNil).
Definition is_zero (v : option gval) : bool := match v with Some (VFloat64 (S754_zero _)) => true | _ => false end.
Definition without (k : string) (o : obj) : obj := List.filter (λ p, negb (String.eqb k p.1)) o.
Definition kept_scale (o : obj) : obj :=
  let o := set_key o "status" (VMap [("observed", VBool true)]) in
  match map_get o "spec" with
  | Some (VMap spec) => set_key o "spec" (VMap (if is_zero (map_get spec "replicas") then without "replicas" spec else spec))
  | _ => o
  end.
Definition exchange (req : http_request gval) (c : cluster) : res (http_response gval) * cluster :=
  let done_ status body c := (Ok {| StatusCode := status; Body := body; body_read := true |}, c) in
  if String.eqb (hr_Method req) verbGET then let '(status, body) := answered c (hr_URL req) in done_ status body c
  else let c' o := {| config := o; sent := sent c ++ [(hr_Method req, hr_URL req)] |} in
       match hr_Body req with
       | Some (VMap o) =>
           if String.eqb (hr_Method req) verbPUT
           then if json_value (VMap o) then done_ 200 (VMap (kept_scale o)) (c' (kept_scale o)) else done_ 500 VNil c
           else if String.eqb (hr_Method req) verbPOST then done_ 200 review c
           else done_ 200 VNil (c' (config c))
       | _ => done_ 500 VNil c
       end.
#[export] Instance Net : Network cluster unit := {|
  bytes := gval;
  json_Marshal v := or_err "json" (in_json (HO := HexUuidOps) tj sj v);
  json_Unmarshal b := match b with VMap o => Ok (Some o) | VNil => Ok None | _ => Err (Plain "json") end;
  json_Unmarshal_Status _ := None;
  NewRequest _ := Ok tt;
  Do := exchange |}.
Definition owner : OwnerReference := {| ref_UID := "dc-uid"; ref_Controller := Some true |}.
Definition rc (name phase : string) (created replicas : Z) (version : option string) : ReplicationController := {|
  rc_Name := name; rc_UID := name;
  rc_Annotations := <[deploymentPhaseAnnotation := phase]>
    (match version with Some v => {[deploymentVersionAnnotation := v]} | None => ∅ end);
  rc_CreationTimestamp := created; rc_OwnerReferences := [owner]; rc_Replicas := replicas;
  rc_TemplateLabels := Some {["app" := "x"]} |}.
Definition rcs : list ReplicationController :=
  [rc "x-1" "Complete" 1 0 (Some "1"); rc "x-3" "Failed" 3 0 (Some "3"); rc "x-2" "Complete" 2 0 (Some "2")].
Definition pod_ (phase : string) (ready : bool) (deleted : option Z) : Pod Z := {|
  pod_UID := "p"; pod_OwnerReferences := [{| ref_UID := "x-2"; ref_Controller := Some true |}];
  pod_CreationTimestamp := 0; pod_DeletionTimestamp := deleted; pod_Phase := phase;
  pod_ContainerStatuses := [{| cs_State := {| Waiting_Reason := None; Running_StartedAt := Some 0; Terminated_ExitCode := None |};
                               cs_Ready := ready |}];
  pod_Containers := [{| Limits_Cpu := 1; Limits_Memory := 512 |}] |}.
Definition pods : list (Pod Z) :=
  [pod_ "Running" true None; pod_ "Failed" false None; pod_ "Running" false (Some 9); pod_ "Running" true None].
#[export] Instance Kube : KubeRESTAPI cluster unit Z := {|
  ReplicationControllers_List _ c := (inl rcs, c);
  Pods_List _ c := (inl pods, c);
  ResourceQuotas_List _ c := (inl [], c);
  LimitRanges_Get _ _ c := (inr (StatusError tt), c);
  Services_List _ _ c := (inl [{| svc_Name := "svc"; svc_Selector := {["app" := "x"]} |}], c);
  Services_Delete ns name c :=
    (inl tt, {| config := config c; sent := sent c ++ [(verbDELETE, base +:+ ns +:+ "/services/" +:+ name)] |}) |}.
#[export] Instance Haw : Hawkular cluster :=
  {| NewHawkularClient _ := Ok tt; ReadBuckets _ _ c := (Ok [], c); ToUnixMilli t := t / 10 ^ 6 |}.
Definition ns (name ty : string) : NamespaceAttributes :=
  {| na_Name := Some name; na_Type := Some ty; na_ClusterURL := Some api; na_ClusterConsoleURL := Some "https://console.c";
     na_ClusterLoggingURL := None; na_ClusterMetricsURL := None |}.
Definition jo : UserService := {| us_ID := Some "jo"; us_Namespaces := Some [ns "jo" "user"; ns "jo-run" "run"; ns "jo-che" "che"] |}.
#[export] Instance Others : Services cluster := {|
  ShowUserService c := (Ok (200, Ok (Some jo)), c);
  ShowSpace _ c := (Ok (200, Ok (Some (Some (Some "space")))), c);
  RetrieveToken _ c := (Ok (200, Ok (Some "token")), c);
  osio_client := Ok tt; auth_client := Ok tt; kube_client _ _ := Ok tt |}.
Definition url_Parse (_ : string) : res (string * string) := Ok ("https", "api.c").
Definition URL_String (u : URL) : string := url_Scheme u +:+ "://" +:+ url_Host u +:+ url_Path u.
Definition range (A : Type) (m : gmap string A) : list (string * A) := map_to_list m.
Definition yaml (_ : string) : res (list (yval * yval)) :=
  Ok [(YString "deploymentVersions", YMap [(YString "x", YOther)])].
Definition parse_time (s : string) : res Z := Atoi s.
Definition now : Z := 10 ^ 12.
Definition dc (labels : obj) : obj :=
  [("kind", VString "DeploymentConfig");
   ("metadata", VMap [("labels", VMap labels); ("uid", VString "dc-uid")]);
   ("spec", VMap [("replicas", VFloat64 (float_of_int 2))])].
Definition start : cluster := {| config := dc [("version", VString "1.0.2")]; sent := [] |}.
Definition up : tenantURLProvider :=
  {| apiURL := api; apiToken := "token"; namespaces := list_to_map [("jo", ns "jo" "user"); ("jo-run", ns "jo-run" "run"); ("jo-che", ns "jo-che" "che")] |}.
#[export] Instance Prov : BaseURLProvider cluster := tenant_provider url_Parse URL_String range up.
Definition envs : gmap string string := GetEnvironmentMapping_ range up.
Definition fresh (c : cluster) : kube cluster := {| world := c; rulesMap := ∅; metricsMap := ∅ |}.
Definition space_id : uuid := uuid_of 1.

Example get_client : GetKubeClient "" "" start = (Ok (up, "jo"), start).
Proof. vm_compute. reflexivity. Qed.
Example deployment_shown :
  (λ r, (sd_Name r, sd_Version r, sd_Pods r, sd_PodTotal r)) <$>
    default (Err (Plain "none")) (match (GetDeployment "jo" envs range yaml parse_time URL_String now "space" "x" "run" (fresh start)).1 with
                                  | Ok (Some d) => Some (Ok d) | Ok None => None | Err e => Some (Err e) | Panic m => Some (Panic m) end)
  = Ok ("run", "1.0.2", [["Running"; "2"]; ["Terminating"; "1"]], 3).
Proof. vm_compute. reflexivity. Qed.

(** *** Where the code does something else *)

(** A deployment config without a version is not reported: the request panics. *)
Example missing_version_panics :
  (GetDeployment "jo" envs range yaml parse_time URL_String now "space" "x" "run"
     (fresh {| config := dc []; sent := [] |})).1 = Panic bad_version.
Proof. vm_compute. reflexivity. Qed.
(** Two rules for one resource: the verb of the first is refused. *)
Example first_rule_lost : (CanGetDeployment envs "run" (fresh start)).1 = Ok false ∧
  (CanGetEnvironment envs "run" (fresh start)).1 = Ok true.
Proof. by vm_compute. Qed.
(** Routes and services are gone before the deployment config is looked at. *)
Example config_checked_last :
  let r := DeleteDeployment "jo" envs yaml parse_time "space" "x" "run" (fresh {| config := []; sent := [] |}) in
  is_err r.1 = true ∧ length (sent (world r.2)) = 2%nat.
Proof. by vm_compute. Qed.
(** The CPU limit is looked for under a name Kubernetes does not use. *)
Example cpu_limit_ignored (l : pod_limits) :
  add_container l (VMap [("resources", VMap [("limits", VMap [("cpu", VString "1"); ("memory", VString "512")])])])
  = Ok {| numContainersMissingCPU := fadd (numContainersMissingCPU l) f1; numContainersMissingMem := numContainersMissingMem l;
          podCPULimit := podCPULimit l; podMemLimit := fadd (podMemLimit l) (float_of_int 512) |}.
Proof. reflexivity. Qed.
(** A container that only says what it requests is refused. *)
Example requests_only_refused (l : pod_limits) :
  is_err (add_container l (VMap [("resources", VMap [("requests", VMap [("memory", VString "1")])])])) = true.
Proof. reflexivity. Qed.
(** A start in the future without an end. *)
Example future_start_panics : check_times now (Some (float_of_int (10 ^ 9))) None = Panic nil_pointer.
Proof. vm_compute. reflexivity. Qed.
(** A user without services. *)
Definition no_services : Services cluster := {|
  ShowUserService c := (Ok (404, Err (Plain "no body")), c);
  ShowSpace _ c := (Ok (404, Err (Plain "no body")), c);
  RetrieveToken _ c := (Ok (200, Ok None), c);
  osio_client := Ok tt; auth_client := Ok tt; kube_client _ _ := Ok tt |}.
Example no_services_panics : (GetKubeClient (HS := no_services) "" "" start).1 = Panic nil_pointer.
Proof. vm_compute. reflexivity. Qed.

(** *** The theorems applied *)

(** Everything sent is in the namespace to run applications in. *)
Definition only_run (c c' : cluster) : Prop :=
  ∃ l, sent c' = sent c ++ l ∧ Forall (λ e, HasPrefix e.2 (base +:+ "jo-run/") = true) l.
#[export] Instance only_run_refl : Reflexive only_run.
Proof. intros c. exists []. by rewrite app_nil_r. Qed.
#[export] Instance only_run_trans : Transitive only_run.
Proof.
  intros a b c (l & Hl & Fl) (k & Hk & Fk). exists (l ++ k). rewrite Hk, Hl, app_assoc. split; [done|]. by apply Forall_app.
Qed.
Lemma exchange_get req c : hr_Method req = verbGET → (exchange req c).2 = c.
Proof. intros H. unfold exchange. rewrite H. simpl. by destruct (answered _ _). Qed.
Lemma small_quiet R `{!Reflexive R} : quiet_reads R.
Proof. split; intros; try (intros c); simpl; try reflexivity. by rewrite exchange_get. Qed.
Lemma run_namespace name : envs !! "run" = Some name → name = "jo-run".
Proof. vm_compute. by intros [= <-]. Qed.
Lemma delete_sent path c : HasPrefix (api +:+ path) (base +:+ "jo-run/") = true →
  only_run c (sendResource path verbDELETE delete_options c).2.
Proof.
  intros H. exists [(verbDELETE, api +:+ path)]. split; [done|]. by constructor.
Qed.
Lemma small_deletes : allowed url_Parse URL_String range "" "" only_run (Deletes (W := cluster) space_id "x" "run").
Proof.
  intros w up' user w' name HG Hns _. injection HG as <- <- <-. apply run_namespace in Hns as ->.
  split; [intros n c; by apply delete_sent..|]. intros n c. exists [(verbDELETE, base +:+ "jo-run" +:+ "/services/" +:+ n)].
  split; [done|]. by constructor.
Qed.
Lemma requests_scope_witness :
  let q := Deletes (W := cluster) space_id "x" "run" in
  let last := after url_Parse URL_String range yaml parse_time now "" "" q start in
  only_run start last ∧ length (sent last) = 3%nat.
Proof.
  split; [|by vm_compute].
  apply requests_scope; [apply _..|apply small_quiet; apply _|apply small_deletes].
Defined.

Lemma access_answers_witness : granted envs "run" getEnvironmentRules.
Proof.
  assert (H := access_answers envs (range string) (λ m, reflexivity (map_to_list m)) (AskGetEnvironment "run") (fresh start) true
    (CanGetEnvironment envs "run" (fresh start)).2).
  apply H; [|vm_compute; reflexivity|done]. intros env m. simpl. by rewrite lookup_empty.
Defined.

Definition current_run := getCurrentDeployment "jo" range yaml parse_time "space" "x" "jo-run" (fresh start).
Lemma getCurrentDeployment_current_witness : ∃ rcs w w', ReplicationControllers_List "jo-run" w = (inl rcs, w') ∧
  ∀ x, x ∈ rcs → in_overview rcs x → recent (rc "x-2" "Complete" 2 0 (Some "2")) x.
Proof.
  destruct (getCurrentDeployment_current "jo" range yaml parse_time "space" "x" "jo-run" (fresh start)
    {| dcName := "x"; dcUID := "dc-uid"; appVersion := "1.0.2"; current := Some (rc "x-2" "Complete" 2 0 (Some "2")) |}
    current_run.2) as (l & w & w' & Hl & H); [by intros|vm_compute; reflexivity|].
  exists l, w, w'. split; [done|]. injection Hl as <- _. apply H. vm_compute. repeat constructor; set_solver.
Defined.

Lemma getPodStatus_counts_witness : getPodStatus (range Z) now pods = ([["Running"; "2"]; ["Terminating"; "1"]], 3) ∧
  3 = pods_counted pods.
Proof.
  split; [by vm_compute|].
  refine (proj1 (getPodStatus_counts now (range Z) pods [["Running"; "2"]; ["Terminating"; "1"]] 3 _ _));
    [done|vm_compute; reflexivity].
Defined.

Lemma get_scale dc c : GetDeploymentConfigScale "jo-run" dc c =
  (if json_value (VMap (config c)) then Ok (config c) else Err (Plain "failed to GET url %s due to status code %d"), c).
Proof.
  assert (HA : answered c (api +:+ namespaced "jo-run" ("deploymentconfigs/" +:+ dc +:+ "/scale")) =
    if json_value (VMap (config c)) then (200, VMap (config c)) else (500, VNil)) by reflexivity.
  assert (HX : exchange {| hr_Method := verbGET; hr_URL := api +:+ namespaced "jo-run" ("deploymentconfigs/" +:+ dc +:+ "/scale");
                           hr_Token := "token"; hr_Body := None |} c =
    (Ok (if json_value (VMap (config c)) then {| StatusCode := 200; Body := VMap (config c); body_read := true |}
         else {| StatusCode := 500; Body := VNil; body_read := true |}), c)).
  { unfold exchange. cbn [hr_Method hr_URL]. rewrite HA. by destruct (json_value _). }
  unfold GetDeploymentConfigScale, getMap, getResource, s_map, s_bind, s_query.
  cbn [bytes Do Net GetAPIURL GetAPIToken Prov tenant_provider mbind res_bind deref apiURL apiToken up with_stack NewRequest].
  change (TrimSuffix api "/") with api. rewrite HX. by destruct (json_value _).
Qed.
Lemma put_scale dc o c r c' : SetDeploymentConfigScale "jo-run" dc o c = (Ok r, c') →
  ∃ o', in_json (HO := HexUuidOps) tj sj (VMap o) = Some (VMap o') ∧ config c' = kept_scale o'.
Proof.
  unfold SetDeploymentConfigScale, sendResource, s_map, s_bind, s_query.
  cbn [bytes Do Net GetAPIURL GetAPIToken Prov tenant_provider mbind res_bind deref apiURL apiToken up with_stack NewRequest
       json_Marshal].
  destruct (in_json tj sj (VMap o)) as [v|] eqn:Ej; [|done]. cbn [or_err with_stack]. unfold exchange.
  cbn [hr_Method hr_Body hr_URL]. destruct (as_object v) as [o'|] eqn:Ev; [|by destruct v].
  assert (v = VMap o') as -> by (by destruct v; simplify_eq/=).
  change (String.eqb verbPUT verbGET) with false. change (String.eqb verbPUT verbPUT) with true. cbv beta iota zeta.
  destruct (json_value (VMap o')) eqn:E; [|done]. intros [= _ <-]. by exists o'.
Qed.
Lemma small_builds sel c c' : (GetBuilds "jo" sel c).1 = (GetBuilds "jo" sel c').1.
Proof.
  assert (HA : ∀ d, answered d (api +:+ namespaced "jo" ("builds?labelSelector=" +:+ sel)) = (200, list_of "BuildList" [build]))
    by reflexivity.
  unfold GetBuilds, getMap, getResource, s_map, s_bind, s_query.
  cbn [bytes Do Net GetAPIURL GetAPIToken Prov tenant_provider mbind res_bind deref apiURL apiToken up with_stack NewRequest].
  change (TrimSuffix api "/") with api. unfold exchange. cbn [hr_Method hr_URL]. by rewrite !HA.
Qed.
Lemma in_json_get (o : obj) : ∀ o' k v, in_json (HO := HexUuidOps) tj sj (VMap o) = Some (VMap o') → map_get o k = Some v →
  ∃ v', in_json (HO := HexUuidOps) tj sj v = Some v' ∧ map_get o' k = Some v'.
Proof.
  induction o as [|[k0 v0] o IH]; intros o' k v H Hk; [done|]. cbn [in_json] in H.
  destruct (in_json tj sj v0) as [w|] eqn:Ew; [|done]. cbn [mbind option_bind] in H.
  match type of H with context [?f o] => destruct (f o) as [o1|] eqn:Eo; [|done] end. injection H as <-. cbn [map_get] in *.
  destruct (String.eqb k k0); [injection Hk as <-; by exists w|]. apply IH; [|done]. cbn [in_json]. by rewrite Eo.
Qed.
Lemma map_get_set_other o k k' v : k ≠ k' → map_get (set_key o k v) k' = map_get o k'.
Proof.
  intros Hne. induction o as [|[k0 v0] o IH]; simpl; [by rewrite (proj2 (String.eqb_neq _ _)) by congruence|].
  destruct (String.eqb_spec k k0) as [<-|]; simpl; [by rewrite (proj2 (String.eqb_neq _ _)) by congruence|].
  by rewrite IH.
Qed.
Lemma map_get_without k o : map_get (without k o) k = None.
Proof.
  induction o as [|[k0 v0] o IH]; [done|]. unfold without. cbn [List.filter fst].
  destruct (String.eqb k k0) eqn:E; cbn [negb]; [done|]. cbn [map_get]. by rewrite E.
Qed.
Lemma zero_float n : Z.abs n < 2 ^ 53 → is_zero (Some (VFloat64 (float_of_int n))) = true → n = 0.
Proof.
  intros Hn H. pose proof (float_to_int_of_int n Hn) as E. cbn [is_zero] in H. by destruct (float_of_int n).
Qed.
Lemma small_scale dc : keeps_scale "jo" "jo-run" dc.
Proof.
  split.
  - intros req H c. simpl. by rewrite exchange_get.
  - intros c s spec n r c' s' c'' Hb Hs Hn (o & Ho & Hc)%put_scale. rewrite get_scale, Hc.
    destruct (json_value _); [|done]. intros [= <- _].
    destruct (in_json_get s o "spec" _ Ho Hs) as (v & Hv & Ho'). cbn [in_json] in Hv.
    match type of Hv with context [?f spec] => destruct (f spec) as [spec'|] eqn:E; [|done] end. injection Hv as <-.
    destruct (in_json_get spec spec' "replicas" (VInt n)) as (v & [= <-] & Hr); [cbn [in_json]; by rewrite E|done|].
    unfold kept_scale. rewrite map_get_set_other, Ho' by done. cbv zeta. rewrite map_get_set_key. eexists. split; [done|].
    rewrite Hr. destruct (is_zero _) eqn:Ez; [right|by left]. split; [by apply (zero_float n)|apply map_get_without].
  - intros. apply small_builds.
Qed.
Definition scale_to (n : Z) (kc : kube cluster) := ScaleDeployment "jo" envs yaml parse_time "space" "x" "run" n kc.
(** To none and up again: the cluster does not say that there were none. *)
Definition scaled_down := (scale_to 0 (fresh start)).2.
Definition scaled_twice : res Z * kube cluster := scale_to 7 scaled_down.
Lemma ScaleDeployment_twice_witness :
  match map_get (config (world scaled_down)) "spec" with Some (VMap spec) => map_get spec "replicas" = None | _ => False end ∧
  is_ok scaled_twice.1 = true ∧ match scaled_twice.1 with Ok old => old = 0 | _ => False end.
Proof.
  split; [vm_compute; reflexivity|].
  assert (Hok : is_ok scaled_twice.1 = true) by by vm_compute. split; [done|].
  destruct scaled_twice.1 as [old'|e|m] eqn:H; [|done..].
  apply (ScaleDeployment_twice "jo" envs yaml parse_time "space" "x" "run" 0 7 (fresh start) 2 scaled_down old' scaled_twice.2).
  - intros name dc Hn. apply run_namespace in Hn as ->. apply small_scale.
  - done.
  - vm_compute. reflexivity.
  - rewrite <- H. apply surjective_pairing.
Defined.
End Small.
